(* ===== verification/_CoqProject ===== *)
-Q . S2P
Prelude.v
PyValue.v
Plenum.v
Constants.v
AuthActions.v
AuthConstraints.v
Authorizer.v
AuthorizerSpec.v
AuthStrategy.v
AuthMap.v
CompatSet.v
CompatSetSpec.v
StateDomain.v
IdrCache.v
HandlerBase.v
Revocation.v
NymHandler.v
NymHistory.v
DefinitionHandlers.v
AttribHandler.v
AuthRules.v
FlagHandler.v
RevocEntryHandler.v
Upgrader.v
PoolUpgrade.v
TxnVersion.v
RichSchema.v
ReadHandlers.v
NodeHandler.v
MessageSchemas.v
World.v
Versions.v
Packages.v
Migrations.v
InstanceSet.v
ControlTool.v
EnvFiles.v
LedgerMigration.v
Restarter.v
ActionLog.v
Authn.v
Agreements.v
Node.v
Bootstrap.v
LegacyAuth.v
FileTree.v
ClientUtil.v
NodeStart.v
Directories.v
LedgerFormat.v
Metadata.v
LoadStat.v
LoadClient.v
LoadRunner.v
LoadFees.v
LoadMint.v
LoadSetup.v
LoadLedger.v
LoadPayments.v
LoadRequests.v
SpikeLoad.v
TestRunner.v
PoolContainer.v
NamespaceConfig.v
