(* ===== verification/Prelude.v ===== *)
(** * Indy Node: a verification of its ledger logic

    Indy Node is a distributed ledger of decentralized identifiers.  It extends
    indy-plenum, which brings consensus, ledgers, the state trie and message
    handling: this repository adds what a transaction of each type means, who
    may write it, how it is kept in the state and how a node upgrades itself.
    The development models that added logic, from the sources under [src/].
    plenum and other packages are not part of the repository: what the code uses
    of them is a parameter or a class of operations with laws.

    ** How the parts work together

    A request is first checked on its own ([static_validation] of the handler of
    its type), then against the uncommitted state
    ([additional_dynamic_validation]): the handler works out an action, the
    addition or the edit of a field, and asks [WriteRequestValidator] whether the
    request may do it.  The validator finds the constraint for the action in the
    authorization map, or in the config state when an AUTH_RULE replaced it, and
    runs the authorizers over the constraint tree with the roles in the identity
    cache.  An ordered transaction is then applied by [update_state]: the handler
    writes the domain or config state; the NYM transaction also updates the
    identity cache, the raw attribute the attribute store.  POOL_UPGRADE
    transactions reach the upgrader, NODE_UPGRADE transactions the pool version.

    The upgrader and the restarter wait for their time and then send a message to
    the control tool, a process of its own that asks the package manager, installs,
    backs up and migrates the node's data and restarts it; when the node runs again
    it reads from its log how the upgrade went and reports it to the other nodes.

    ** Files

    Python and plenum
    - [Prelude]: exceptions and the result monad ([res], [let!]), loops
      ([res_fold], [res_mapM]), Python's join and split, shared lemmas and the
      hint database [indy].
    - [PyValue]: JSON-like values, insertion-ordered dictionaries, truth value,
      equality, [str] and [int].
    - [Plenum]: requests and transactions, and the classes [Serializer], [State]
      (the state trie) and [StateCodec], each with an instance.
    - [Constants]: roles.py, transactions.py, constants.py, authorize/helper.py.

    Authorization, [indy_common/authorize]
    - [AuthActions]: auth_actions.py.  [AuthConstraints]: auth_constraints.py.
    - [Authorizer]: authorizer.py.  [AuthorizerSpec]: the meaning of a constraint
      as a proposition ([satisfies]) and the proof that the authorizers decide it.
    - [AuthStrategy]: auth_cons_strategies.py and auth_request_validator.py.
    - [AuthMap]: auth_map.py, entry by entry.
    - [AuthRules]: AUTH_RULE, AUTH_RULES, the 1.9.1 handler and GET_AUTH_RULE.

    State and stores
    - [CompatSet], [CompatSetSpec]: compat_set.py, a port of the C hash set of an
      old Python, kept for the iteration order of its elements.
    - [StateDomain]: state/domain.py and req_utils.py.
    - [IdrCache]: persistence/idr_cache.py over the class [OptimisticStore].

    Handlers of the domain ledger, [indy_node/server/request_handlers]
    - [HandlerBase]: what the handlers share.
    - [NymHandler]: nym_handler.py and idr_cache_nym_handler.py.  [NymHistory]:
      histories of NYM requests, as a step relation.
    - [AttribHandler]: attribute_handler.py and attribute_store.py.
    - [DefinitionHandlers]: schema_handler.py, claim_def_handler.py,
      revoc_reg_def_handler.py.
    - [Revocation]: revocation_strategy.py.  [RevocEntryHandler]:
      revoc_reg_entry_handler.py.
    - [RichSchema]: the handlers of the directory rich_schema and their queries.
    - [ReadHandlers]: get_nym_handler.py, get_attribute_handler.py,
      get_schema_handler.py, get_claim_def_handler.py,
      get_revoc_reg_def_handler.py, get_revoc_reg_handler.py,
      get_revoc_reg_delta_handler.py.

    Config ledger and maintenance
    - [FlagHandler]: flag_handler.py, get_flag_handler.py,
      version_read_request_handler.py.
    - [Upgrader]: upgrader.py, node_maintainer.py, action_log.py, upgrade_log.py.
    - [PoolUpgrade]: pool_upgrade_handler.py, pool_config_handler.py,
      node_upgrade_handler.py, pool_config.py.
    - [TxnVersion]: txn_version_controller.py.
    - [Agreements]: the author agreement handlers and ledgers_freeze_handler.py.
    - [ActionLog]: the log as a file, action_log.py, upgrade_log.py, restart_log.py.
    - [Restarter]: restarter.py, the POOL_RESTART and VALIDATOR_INFO handlers.

    Node
    - [MessageSchemas]: indy_common/types.py.
    - [NodeHandler]: pool_req_handlers/node_handler.py.
    - [Authn]: client_authn.py and node_authn.py.
    - [Node]: node.py, config_batch_handler.py, idr_cache_batch_handler.py and the
      forced requests of the configuration handlers.
    - [Bootstrap]: node_bootstrap.py, the registrations as data.
    - [LegacyAuth]: indy_common/auth.py and identity.py.

    Control tool, [indy_node/utils]
    - [World]: programs on a machine ([act], [let?]), the class [Shell] and
      [compose_cmd] of indy_common/util.py.
    - [Versions]: version.py, node_version.py, node_version_fallback.py and the
      class DebianVersion of node_control_utils.py.
    - [Packages]: the rest of node_control_utils.py.
    - [Migrations]: migration_tool.py.  [ControlTool]: node_control_tool.py.

    Programs around the node
    - [EnvFiles]: indy_common/migration/helper.py and the migration scripts of
      [data/migrations/deb] that change the environment file.
    - [LedgerMigration]: 1_3_428_to_1_3_429.py and 1_3_396_to_1_3_397.py, over the
      class [Stores] of key-value storages and directories.
    - [InstanceSet]: pool_automation's stateful_set.py, over the class [Ec2].
    - [FileTree]: the calls of [os] and [shutil] over a tree of files.
      [Directories]: the migrations that rename, move and merge directories, and
      setup_util.py.  [LedgerFormat]: those that convert the ledgers of a node.
    - [ClientUtil]: the encryption helpers of indy_common/util.py.  [NodeStart]:
      config_util.py, both config_helper.py, node_runner.py, validator_info_tool.py
      and the directories of the node's constructor.
    - scripts/performance/perf_load.  [LoadStat]: the statistics and helpers.
      [LoadClient]: the queues of a client as tasks on an event loop.  [LoadSetup]:
      how it prepares pool, wallet and authors.  [LoadLedger]: that it succeeds, and
      in two rounds of each loop, with a ledger.  [LoadRunner]: the process that
      starts the clients and collects what they report.  [LoadFees], [LoadMint],
      [LoadPayments]: fees, the addresses they are paid from, and payments.
      [LoadRequests]: the generators' common part, the parser of kinds, and the generators of sequences, of transactions and of revocations.
      [SpikeLoad]: perf_spike_load.py.
    - [Metadata]: indy_node/__metadata__.py, the plugins of indy_node/__init__.py, and
      scripts/remove_ledger.py.
    - [TestRunner]: runner.py.  [PoolContainer]: indypool.py, over the class
      [Docker].  [NamespaceConfig]: namespace-config.py, over [FileTree].

    ** Conventions

    A Python function is a Rocq function with the same name where the name is
    free, in the section of its component; a method takes the attributes it reads
    and returns those it changes.  An exception is [Raise] with its class and, for
    refusals, the author, the request number and the reason.  A program that acts
    on the machine, and in [Restarter] and [Node] on the state of an object, is an
    [act]: what it did before an exception stays done.  The logger is left out.  A function of a
    package outside the repository is an argument; laws that proofs need are fields of
    a class, and every class has an instance.

    ** What the theorems show

    - The authorizers return exactly when the constraint tree is satisfied, with
      the quorum, ownership and endorser conditions of the specification; under
      the default map every decision is an answer or a refusal, no entry hides
      another, immutable objects cannot be edited.
    - End to end, through handler, map, authorizers and cache: nobody becomes a
      trustee without a trustee, over any history back to the genesis; only its owner
      rotates the key of a DID, also together with a role; only its issuer changes a revocation registry; a schema is written once; an accepted
      pool upgrade is signed by a trustee and raises an installed version.
    - Every rule has a handler that is given the validator and every handler of
      writes has its rule; the default rules permit what the former authoriser did,
      up to the exceptions that are listed.
    - The rules in force are a dictionary: AUTH_RULES updates it, the config
      ledger policy looks up in it, GET_AUTH_RULE prints it.
    - [CompatSet] refines finite sets: every reachable table represents the set
      the operations denote, for non-negative elements, and every operation ends.
    - State and identity cache agree after every NYM transaction, on the values it
      gives, and no other DID changes; what is written
      reads back through the queries, now or as of a version (DIDs, attributes,
      definitions, rich schema objects, rules, constraints).
    - An accepted registry entry changes the kept list by exactly the indices of
      the transaction, in the order the flag on the ledger asks for; the delta query between two times reports
      the net effect of all updates between them.
    - An accepted rich schema mapping refers to a schema and to encodings on the
      ledger and numbers its attributes without gaps; a rich schema object is
      written once.
    - The upgrade log is consistent over all histories of transactions, callbacks
      and restarts; the upgrade taken up at start-up is the last one not
      cancelled; a schedule is accepted exactly when it is spaced as configured;
      a pool version needs more than [f] reports.
    - A request that passes the message schemas is not broken by the handlers: a
      rule's constraint is parsed or refused with a reason, the attribute that is
      looked up to decide between an addition and an edit is the one that is written.
    - A change of a node is authorized for each field that changes; the key that
      authenticates a client is the one of the ledger; the signed text is the one
      the client signs.
    - One restart waits at most, and it is the one the log scheduled last; only a
      trustee restarts the pool, changes the author agreements, and three of them
      freeze ledgers.
    - The action log reads back what was written to it.  A committed configuration
      transaction has the effect it has when the ledger is read again; the end of an
      upgrade is reported once; an attribute's data is restored from its store.
    - The control tool handles every message, until a call on one of its sockets
      raises; an upgrade runs the installer at most twice, once for the new and once
      for the version that was installed; a failed migration leaves the data as they
      were, one that succeeds removes old backups up to the configured number;
      migrations run in order up to the first that fails; the version chosen is the
      greatest that fits.
    - A migration of the ledger keeps, whichever call fails, each log old or complete
      in the new format, and the ids of registries and entries linked when tags and
      types have no colon; the copy to another engine has all entries of the seven
      databases it knows, and drops the others.  The automation brings the instances of a pool
      to the numbers expected from any state, and touches no others.
    - A client of the load generation loses no request and counts none twice under
      every interleaving of its tasks, and stops after what is under way; a payment
      spends what it needs, and gets back what a refused fee has taken; the rules for
      fees of a constraint are those of its authorization; synchronised clients start
      together.
    - The migration of the directories loses no file of the old ones, for a network
      whose name is one part of a path, and the
      conversion of the ledgers no transaction.  The commands of the development pool
      are those of three states; the test runner succeeds exactly when every module
      does, and its slices are a partition; the inventories of a namespace are written
      with exactly the variables that were set; the version of the package reads back;
      the removal of a ledger touches no other.
    - Some theorems record behaviour that surprises: a look-up of a negative
      element that does not end, off-ledger signatures that count for the
      wildcard role, an attribute with two keys, a report about the wrong upgrade,
      a rollback that replaces the backup, a log that a line break spoils, sources that
      are lost with a failed payment, a downgrade that cannot work.

    ** Bounds and fuel

    Loops over data are structural.  The probe of [CompatSet] is bounded by the
    number of steps after which a perturbation is zero and the remaining sequence
    visits every slot; [operations_total] proves that the bound is never reached
    for non-negative elements.  [resize] doubles a size at most as often as a
    logarithm says.  Searches of the config ledger run over its length; retries
    are the three of the source.  Integers of Python are unbounded, so [Z] has no
    width here; in [CompatSet] masks and shifts are those of the source.

    Socket events of the control tool, with what the calls on the sockets give or
    raise, are a list, the input of its loop; the depth
    of dependencies is the bound of the source.  Loops that end with what comes from
    outside take fuel: the repetitions of [LoadSetup], the search of a data file in
    [LoadRequests], the spikes of [SpikeLoad], the repeated runs of [TestRunner].
    Theorems say how much is enough ([authors_set_up], [stepwise_staircase],
    [spikes_fill_the_test], [repeats_until_failure]), or that no fuel is because the
    loop of the source does not end ([file_without_entries_loops]).

    ** Not modelled

    Consensus, ledgers, signatures and storage (plenum); how the package manager
    and the scripts work (the shell is a parameter, with the laws a theorem needs as
    its hypotheses); what a cloud and a key-value storage do beyond the laws of their
    classes; decoding of bytes; logging, messages and metrics events; the owner and the
    rights of files; the constructors of the node and of its parts, which only hand
    arguments on; the constants only plenum reads; parsing of command lines, but for
    that of a namespace; the type checks that are off by default; the launcher script
    of the oldest migration; generators of requests that are a single call of the
    indy SDK. *)
From Stdlib Require Export ZArith Lia.
From Stdlib Require Import Ascii.
From stdpp Require Export base list strings pretty gmap.

(** ** Exceptions and results

    A Python function that may raise is a function into [res]: [Ok v] is a
    normal return, [Raise e] an exception of class [e].  [OutOfFuel] is not a
    Python exception: it is the result of a loop that was not finished within
    the fuel it was given. *)
Inductive exn :=
| AttributeError
| AssertionError
| IndexError
| NotImplementedError
| StopIteration
| JSONDecodeError
| OutOfFuel
| TypeError (msg : string)
| KeyError (key : string)
| ValueError (msg : string)
| AuthValidationError (reason : string)
| InvalidDIDDocException (reason : string)
| CalledProcessError (returncode : Z) (stdout stderr : string)
| ShellError (returncode : Z) (stdout stderr : string)
| TimeoutExpired (cmd : string)
| InvalidVersionError (msg : string)
| OSError (msg : string)
| SystemExit (code : Z)
| PyException (msg : string)
| LogicError (msg : string)
| UnknownIdentifier (identifier : string)
| InvalidClientRequest (identifier : option string) (reqId : option Z) (reason : string)
| UnauthorizedClientRequest (identifier : option string) (reqId : option Z) (reason : string).

#[export] Instance exn_eq_dec : EqDecision exn.
Proof. solve_decision. Defined.

Inductive res (A : Type) :=
| Ok (a : A)
| Raise (e : exn).

Arguments Ok {A} a.
Arguments Raise {A} e.

#[export] Instance res_eq_dec {A} `{EqDecision A} : EqDecision (res A).
Proof. solve_decision. Defined.

Definition res_bind {A B} (m : res A) (k : A → res B) : res B :=
  match m with Ok a => k a | Raise e => Raise e end.

Definition is_Ok {A} (m : res A) : bool :=
  match m with Ok _ => true | Raise _ => false end.

Declare Scope py_scope.
Delimit Scope py_scope with py.
Open Scope py_scope.

Notation "'let!' x ':=' m 'in' k" := (res_bind m (λ x, k))
  (at level 10, x pattern, m at level 100, k at level 200) : py_scope.

(** [for x in l: body] over an accumulator: the first exception stops the loop. *)
Fixpoint res_fold {A B} (f : B → A → res B) (acc : B) (l : list A) : res B :=
  match l with
  | [] => Ok acc
  | x :: l' => let! acc' := f acc x in res_fold f acc' l'
  end.

(** [[f(x) for x in l]], left to right. *)
Definition res_mapM {A B} (f : A → res B) : list A → res (list B) :=
  fix go (l : list A) : res (list B) :=
    match l with
    | [] => Ok []
    | x :: l' => let! y := f x in let! ys := go l' in Ok (y :: ys)
    end.

(** ** Strings *)

#[global] Arguments String.append : simpl nomatch.

Definition str_eqb (a b : string) : bool := String.eqb a b.

(** [sep.join(parts)] *)
Fixpoint py_join (sep : string) (parts : list string) : string :=
  match parts with
  | [] => ""
  | [p] => p
  | p :: ps => p +:+ sep +:+ py_join sep ps
  end.

(** [s.split(sep)] for a non-empty [sep]: leftmost, non-overlapping
    occurrences.  [skip] is the number of characters of the separator just
    matched that are still to be consumed, [acc] the field read so far. *)
Fixpoint split_go (sep : string) (skip : nat) (acc s : string) : list string :=
  match s with
  | EmptyString => [acc]
  | String c s' =>
      match skip with
      | S n => split_go sep n acc s'
      | O => if String.prefix sep s
             then acc :: split_go sep (String.length sep - 1) "" s'
             else split_go sep 0 (acc +:+ String c "") s'
      end
  end.

Definition py_split (sep s : string) : list string := split_go sep 0 "" s.

(** [sub in s] *)
Fixpoint py_in_str (sub s : string) : bool :=
  String.prefix sub s ||
  match s with
  | EmptyString => false
  | String _ s' => py_in_str sub s'
  end.

(** No occurrence of [sep] starts inside [x] when [x] is followed by [tail]. *)
Fixpoint sep_free (sep x tail : string) : bool :=
  match x with
  | EmptyString => true
  | String _ x' => negb (String.prefix sep (x +:+ tail)) && sep_free sep x' tail
  end.

(** ** Tactics and hints *)

Create HintDb indy discriminated.
Create Rewrite HintDb indy.

(** ** Lemmas: results *)

Lemma res_bind_Ok {A B} (m : res A) (k : A → res B) b :
  res_bind m k = Ok b ↔ ∃ a, m = Ok a ∧ k a = Ok b.
Proof.
  destruct m; simpl; split; [eauto|intros (?&[= ->]&?); done|done|by intros (?&?&?)].
Qed.

(** [bind H as x Hx]: the first step of the sequence in [H] returned [x]. *)
Tactic Notation "bind" hyp(H) "as" simple_intropattern(x) simple_intropattern(Hx) :=
  apply res_bind_Ok in H as (x & Hx & H).

Lemma res_bind_Raise {A B} (m : res A) (k : A → res B) e :
  res_bind m k = Raise e ↔ m = Raise e ∨ ∃ a, m = Ok a ∧ k a = Raise e.
Proof.
  destruct m; simpl; split; intros H.
  - eauto.
  - by destruct H as [|(?&[= <-]&?)].
  - left. congruence.
  - destruct H as [[= ->]|(?&?&?)]; done.
Qed.

Lemma is_Ok_true {A} (m : res A) : is_Ok m = true ↔ ∃ a, m = Ok a.
Proof. destruct m; simpl; split; [eauto|done|done|by intros [??]]. Qed.

(** A loop invariant: if every step from a state satisfying [P] gives a result
    that satisfies [P], the loop returns and its result satisfies [P]. *)
Lemma res_fold_inv {A B} (P : B → Prop) (f : B → A → res B) l acc :
  P acc → (∀ b a, P b → a ∈ l → ∃ b', f b a = Ok b' ∧ P b') →
  ∃ b', res_fold f acc l = Ok b' ∧ P b'.
Proof.
  revert acc. induction l as [|x l IH]; intros acc Hacc Hf; simpl; [eauto|].
  destruct (Hf acc x) as (b' & -> & Hb'); [done|set_solver|]. simpl.
  apply IH; [done|]. intros b a Hb Ha. apply Hf; [done|set_solver].
Qed.

Lemma res_mapM_Forall2 {A B} (f : A → res B) l ys :
  res_mapM f l = Ok ys ↔ Forall2 (λ x y, f x = Ok y) l ys.
Proof.
  revert ys. induction l as [|x l IH]; intros ys; simpl.
  - split; [by intros [= <-]|by inversion 1].
  - rewrite res_bind_Ok. split.
    + intros (y & Hy & H). apply res_bind_Ok in H as (ys' & Hys & [= <-]).
      constructor; [done|by apply IH].
    + inversion 1; subst. eexists. split; [done|]. apply res_bind_Ok.
      eexists. split; [by apply IH|done].
Qed.

Lemma res_mapM_total {A B} (f : A → res B) l :
  Forall (λ x, ∃ y, f x = Ok y) l → ∃ ys, res_mapM f l = Ok ys.
Proof.
  induction 1 as [|x l [y Hy] _ [ys IH]]; simpl; [eauto|].
  rewrite Hy, IH. simpl. eauto.
Qed.

Lemma res_fold_app {A B} (f : B → A → res B) acc l1 l2 :
  res_fold f acc (l1 ++ l2) = let! b := res_fold f acc l1 in res_fold f b l2.
Proof.
  revert acc. induction l1 as [|x l1 IH]; intros acc; simpl; [done|].
  destruct (f acc x); simpl; [apply IH|done].
Qed.

(** ** Lemmas: lists *)

Lemma Forall_mp {A} (P Q : A → Prop) l :
  Forall (λ x, P x → Q x) l → Forall P l → Forall Q l.
Proof. induction 1; intros H'; [done|]. apply Forall_cons in H' as [??]. constructor; auto. Qed.

(** ** Lemmas: strings *)

Lemma str_app_nil_r (s : string) : s +:+ "" = s.
Proof. induction s; simpl; congruence. Qed.

Lemma str_app_assoc (a b c : string) : (a +:+ b) +:+ c = a +:+ b +:+ c.
Proof. induction a; simpl; congruence. Qed.

Lemma str_app_length (a b : string) :
  String.length (a +:+ b) = String.length a + String.length b.
Proof. induction a; simpl; congruence. Qed.

Lemma str_app_inj_l (a b c : string) : a +:+ b = a +:+ c → b = c.
Proof. induction a; simpl; [done|]. intros H. injection H. auto. Qed.

Lemma str_eqb_eq a b : str_eqb a b = true ↔ a = b.
Proof. apply String.eqb_eq. Qed.

Lemma str_eqb_refl a : str_eqb a a = true.
Proof. by apply str_eqb_eq. Qed.

Lemma str_eqb_sym a b : str_eqb a b = str_eqb b a.
Proof. apply String.eqb_sym. Qed.

Lemma str_eqb_neq a b : str_eqb a b = false ↔ a ≠ b.
Proof. apply String.eqb_neq. Qed.

Lemma prefix_app (sep s : string) : String.prefix sep (sep +:+ s) = true.
Proof.
  induction sep as [|c sep IH]; simpl; [by destruct s|].
  by destruct (ascii_dec c c).
Qed.

Lemma prefix_app_long (sep a b : string) :
  String.length sep ≤ String.length a →
  String.prefix sep (a +:+ b) = String.prefix sep a.
Proof.
  revert a. induction sep as [|c sep IH]; intros [|d a]; simpl; intros; try lia.
  - by destruct b.
  - destruct (ascii_dec c d); [apply IH; lia|done].
Qed.

#[export] Hint Rewrite str_app_nil_r str_app_assoc str_eqb_refl : indy.

Lemma split_go_skip sep a acc rest :
  split_go sep (String.length a) acc (a +:+ rest) = split_go sep 0 acc rest.
Proof. induction a as [|c a IH]; simpl; [done|apply IH]. Qed.

(** The first field of a string whose first field is free of the separator. *)
Lemma split_go_field sep x acc rest :
  sep ≠ "" → sep_free sep x sep = true →
  split_go sep 0 acc (x +:+ sep +:+ rest) = (acc +:+ x) :: split_go sep 0 "" rest.
Proof.
  intros Hsep. revert acc. induction x as [|c x IH]; intros acc Hx.
  - destruct sep as [|d sep]; [done|]. rewrite str_app_nil_r.
    change ("" +:+ String d sep +:+ rest) with (String d (sep +:+ rest)).
    cbn [split_go].
    change (String d (sep +:+ rest)) with (String d sep +:+ rest).
    rewrite prefix_app. f_equal. cbn [String.length].
    replace (S (String.length sep) - 1) with (String.length sep) by lia.
    apply split_go_skip.
  - cbn [sep_free] in Hx. apply andb_true_iff in Hx as [Hp Hx].
    change (String c x +:+ sep +:+ rest) with (String c (x +:+ sep +:+ rest)).
    cbn [split_go].
    change (String c (x +:+ sep +:+ rest)) with (String c x +:+ sep +:+ rest).
    rewrite <- str_app_assoc, prefix_app_long by (rewrite str_app_length; simpl; lia).
    apply negb_true_iff in Hp. rewrite Hp. rewrite IH by done.
    by rewrite str_app_assoc.
Qed.

Lemma split_go_last sep x acc :
  sep_free sep x "" = true → split_go sep 0 acc x = [acc +:+ x].
Proof.
  revert acc. induction x as [|c x IH]; intros acc Hx; cbn [split_go].
  - by rewrite str_app_nil_r.
  - cbn [sep_free] in Hx. apply andb_true_iff in Hx as [Hp Hx].
    rewrite str_app_nil_r in Hp. apply negb_true_iff in Hp. rewrite Hp. rewrite IH by done. by rewrite str_app_assoc.
Qed.

(** Splitting what was joined gives the parts back, when no part holds the
    separator (with the separator that follows it). *)
Lemma py_split_join sep init last :
  sep ≠ "" → Forall (λ p, sep_free sep p sep = true) init →
  sep_free sep last "" = true →
  py_split sep (py_join sep (init ++ [last])) = init ++ [last].
Proof.
  intros Hsep Hinit Hlast. unfold py_split.
  induction Hinit as [|p init Hp _ IH]; simpl.
  - by rewrite split_go_last.
  - destruct (init ++ [last]) as [|q qs] eqn:E; [by destruct init|].
    rewrite split_go_field by done. by rewrite IH.
Qed.

Lemma split_go_nonempty sep k acc s : 1 ≤ length (split_go sep k acc s).
Proof.
  revert k acc. induction s as [|c s IH]; intros k acc; simpl; [lia|].
  destruct k; [case_match; simpl; [lia|apply IH]|apply IH].
Qed.

Lemma split_go_occurs sep acc s :
  sep ≠ "" → py_in_str sep s = true → 2 ≤ length (split_go sep 0 acc s).
Proof.
  intros Hsep. revert acc. induction s as [|c s IH]; intros acc H.
  - destruct sep; [done|]. discriminate.
  - cbn [py_in_str] in H. cbn [split_go].
    destruct (String.prefix sep (String c s)); simpl in *.
    + pose proof (split_go_nonempty sep (String.length sep - 1) "" s). lia.
    + by apply IH.
Qed.
