(* ===== verification/PyValue.v ===== *)
(** * Python values

    The dynamically typed data the handlers work on: the values a JSON message
    or a state record is made of, [dict] as an insertion-ordered association
    list, truth values, [==], [str()] and [repr()].  Strings are sequences of
    8-bit characters; [repr] escapes as CPython does for ASCII text. *)
From Stdlib Require Import Ascii.
From S2P Require Import Prelude.

(** ** Dictionaries *)

Abbreviation dict A := (list (string * A)).

Fixpoint dget {A} (k : string) (d : dict A) : option A :=
  match d with
  | [] => None
  | (k', v) :: d' => if str_eqb k k' then Some v else dget k d'
  end.

Definition dhas {A} (k : string) (d : dict A) : bool :=
  match dget k d with Some _ => true | None => false end.

(** [d[k] = v]: an existing key keeps its place, a new one goes to the end. *)
Fixpoint dset {A} (k : string) (v : A) (d : dict A) : dict A :=
  match d with
  | [] => [(k, v)]
  | (k', v') :: d' => if str_eqb k k' then (k', v) :: d' else (k', v') :: dset k v d'
  end.

(** [d.pop(k, None)] / [del d[k]], the dictionary left. *)
Fixpoint ddel {A} (k : string) (d : dict A) : dict A :=
  match d with
  | [] => []
  | (k', v') :: d' => if str_eqb k k' then d' else (k', v') :: ddel k d'
  end.

(** [d.update(e)] *)
Definition dupdate {A} (d e : dict A) : dict A :=
  foldl (λ acc kv, dset kv.1 kv.2 acc) d e.

Definition dkeys {A} (d : dict A) : list string := map fst d.

(** [d[k]] *)
Definition dgetitem {A} (k : string) (d : dict A) : res A :=
  match dget k d with Some v => Ok v | None => Raise (KeyError k) end.

(** ** Values *)

Inductive val :=
| VNone
| VBool (b : bool)
| VInt (z : Z)
| VStr (s : string)
| VList (l : list val)
| VDict (d : list (string * val)).

Definition py_truth (v : val) : bool :=
  match v with
  | VNone => false
  | VBool b => b
  | VInt z => negb (Z.eqb z 0)
  | VStr s => negb (str_eqb s "")
  | VList l => match l with [] => false | _ => true end
  | VDict d => match d with [] => false | _ => true end
  end.

Definition str_truth (s : string) : bool := negb (str_eqb s "").

(** [v.get(k)] of an optional value: [None] when the key is absent. *)
Definition vget (k : string) (d : dict val) : val :=
  match dget k d with Some v => v | None => VNone end.

(** [a == b]: [True == 1], lists by position, dictionaries regardless of order. *)
Fixpoint py_eq (a b : val) : bool :=
  match a, b with
  | VNone, VNone => true
  | VBool x, VBool y => Bool.eqb x y
  | VInt x, VInt y => Z.eqb x y
  | VBool x, VInt y => Z.eqb (if x then 1 else 0) y
  | VInt x, VBool y => Z.eqb x (if y then 1 else 0)
  | VStr x, VStr y => str_eqb x y
  | VList l, VList m =>
      (fix go l m := match l, m with
                     | [], [] => true
                     | x :: l', y :: m' => py_eq x y && go l' m'
                     | _, _ => false
                     end) l m
  | VDict d, VDict e =>
      Nat.eqb (length d) (length e) &&
      (fix go d := match d with
                   | [] => true
                   | (k, x) :: d' =>
                       match dget k e with
                       | Some y => py_eq x y && go d'
                       | None => false
                       end
                   end) d
  | _, _ => false
  end.

(** ** [str] and [repr] *)

Definition hex_digit (n : nat) : ascii :=
  match String.get n "0123456789abcdef" with Some c => c | None => "?"%char end.

Fixpoint str_has (c : ascii) (s : string) : bool :=
  match s with
  | EmptyString => false
  | String d s' => bool_decide (c = d) || str_has c s'
  end.

(** One character of a [repr], between quotes [q]. *)
Definition repr_char (q c : ascii) : string :=
  let n := nat_of_ascii c in
  if bool_decide (c = q) || bool_decide (c = "\"%char) then String "\" (String c "")
  else if bool_decide (n = 9) then "\t"
  else if bool_decide (n = 10) then "\n"
  else if bool_decide (n = 13) then "\r"
  else if bool_decide (n < 32) || bool_decide (n = 127)
  then "\x" +:+ String (hex_digit (n / 16)) (String (hex_digit (n mod 16)) "")
  else String c "".

Fixpoint repr_body (q : ascii) (s : string) : string :=
  match s with
  | EmptyString => ""
  | String c s' => repr_char q c +:+ repr_body q s'
  end.

Definition squote : ascii := "039"%char.
Definition dquote : ascii := "034"%char.

Definition repr_str (s : string) : string :=
  let q := if str_has squote s && negb (str_has dquote s) then dquote else squote in
  String q (repr_body q s +:+ String q "").

Definition str_int (z : Z) : string := pretty z.

Fixpoint py_repr (v : val) : string :=
  match v with
  | VNone => "None"
  | VBool true => "True"
  | VBool false => "False"
  | VInt z => str_int z
  | VStr s => repr_str s
  | VList l => "[" +:+ py_join ", " (map py_repr l) +:+ "]"
  | VDict d =>
      "{" +:+ py_join ", " (map (λ '(k, x), repr_str k +:+ ": " +:+ py_repr x) d) +:+ "}"
  end.

(** [str(v)] *)
Definition py_str (v : val) : string :=
  match v with VStr s => s | _ => py_repr v end.

(** [int(s)] of a decimal numeral, the texts [str] makes of integers ([int] also
    takes white space, a plus sign and underscores, which no caller meets). *)
Definition digit_value (c : ascii) : option N :=
  let n := N_of_ascii c in
  if (N.leb 48 n && N.leb n 57)%N then Some (n - 48)%N else None.

Fixpoint parse_digits (s : string) (acc : N) : option N :=
  match s with
  | EmptyString => Some acc
  | String c s' => match digit_value c with
                   | Some d => parse_digits s' (acc * 10 + d)%N
                   | None => None
                   end
  end.

Definition py_int (s : string) : res Z :=
  let err := Raise (ValueError ("invalid literal for int() with base 10: " +:+ repr_str s)) in
  let parse (t : string) (sign : Z) :=
    match t with
    | EmptyString => err
    | _ => match parse_digits t 0 with Some n => Ok (sign * Z.of_N n)%Z | None => err end
    end in
  match s with
  | String "-" t => parse t (-1)%Z
  | _ => parse s 1%Z
  end.

(** ** Lemmas *)

Section dict_lemmas.
Context {A : Type}.
Implicit Types d : dict A.

Lemma dget_dset_eq k (v : A) d : dget k (dset k v d) = Some v.
Proof.
  induction d as [|[k' v'] d IH]; simpl; [by rewrite str_eqb_refl|].
  destruct (str_eqb k k') eqn:E; simpl; rewrite E; [done|apply IH].
Qed.

Lemma dget_dset_ne k k' (v : A) d : k ≠ k' → dget k' (dset k v d) = dget k' d.
Proof.
  intros Hne. induction d as [|[j w] d IH]; simpl.
  - by rewrite (proj2 (str_eqb_neq k' k)) by congruence.
  - destruct (str_eqb k j) eqn:E; simpl; [|by rewrite IH].
    apply str_eqb_eq in E as ->. by rewrite (proj2 (str_eqb_neq k' j)) by congruence.
Qed.

Lemma dget_ddel_ne k k' d : k ≠ k' → dget k' (ddel k d) = dget k' d.
Proof.
  intros Hne. induction d as [|[j w] d IH]; simpl; [done|].
  destruct (str_eqb k j) eqn:E; simpl; [|by rewrite IH].
  apply str_eqb_eq in E as ->. by rewrite (proj2 (str_eqb_neq k' j)) by congruence.
Qed.

Lemma dget_Some_elem k (v : A) d : dget k d = Some v → (k, v) ∈ d.
Proof.
  induction d as [|[j w] d IH]; simpl; [done|].
  destruct (str_eqb k j) eqn:E; intros H; [|by right; apply IH].
  apply str_eqb_eq in E as ->. injection H as ->. by left.
Qed.

Lemma dget_None_elem k d : dget k d = None ↔ k ∉ dkeys d.
Proof.
  unfold dkeys. induction d as [|[j w] d IH]; simpl; [set_solver|].
  destruct (str_eqb k j) eqn:E.
  - apply str_eqb_eq in E as ->. set_solver.
  - apply str_eqb_neq in E. rewrite IH. set_solver.
Qed.

Lemma dkeys_dset k (v : A) d :
  dkeys (dset k v d) = if dhas k d then dkeys d else dkeys d ++ [k].
Proof.
  unfold dkeys, dhas. induction d as [|[j w] d IH]; simpl; [done|].
  destruct (str_eqb k j) eqn:E; simpl; [done|]. rewrite IH. by case_match.
Qed.

Lemma dset_NoDup k (v : A) d : NoDup (dkeys d) → NoDup (dkeys (dset k v d)).
Proof.
  intros Hd. rewrite dkeys_dset. unfold dhas. destruct (dget k d) eqn:E; [done|].
  apply dget_None_elem in E. apply NoDup_app. repeat split; [done|set_solver|].
  apply NoDup_singleton.
Qed.

Lemma dupdate_NoDup d e : NoDup (dkeys d) → NoDup (dkeys (dupdate d e)).
Proof.
  unfold dupdate. revert d.
  induction e as [|[k v] e IH]; intros d Hd; simpl; [done|].
  apply IH. by apply dset_NoDup.
Qed.

Lemma dget_dupdate k d e :
  NoDup (dkeys e) →
  dget k (dupdate d e) = match dget k e with Some v => Some v | None => dget k d end.
Proof.
  unfold dupdate, dkeys. revert d. induction e as [|[j w] e IH]; intros d Hnd; simpl; [done|].
  apply NoDup_cons in Hnd as [Hj Hnd]. rewrite IH by done. destruct (str_eqb k j) eqn:E.
  - apply str_eqb_eq in E as ->.
    rewrite (proj2 (dget_None_elem j e)) by done. apply dget_dset_eq.
  - apply str_eqb_neq in E. by rewrite dget_dset_ne by congruence.
Qed.

Lemma dget_elem_NoDup k (v : A) d : NoDup (dkeys d) → (k, v) ∈ d → dget k d = Some v.
Proof.
  unfold dkeys. induction d as [|[j w] d IH]; simpl; [set_solver|].
  intros [Hj Hd]%NoDup_cons [[= -> ->]|Hin]%elem_of_cons; [by rewrite str_eqb_refl|].
  rewrite (proj2 (str_eqb_neq k j)); [by apply IH|].
  intros ->. apply Hj. apply (list_elem_of_fmap_2 fst) in Hin. exact Hin.
Qed.
End dict_lemmas.

#[export] Hint Resolve dget_dset_eq dget_dset_ne dset_NoDup dupdate_NoDup : indy.
#[export] Hint Rewrite @dget_dset_eq : indy.
#[export] Hint Rewrite @dget_dset_ne using (done || congruence) : indy.

(** An induction principle for values that goes through lists and dictionaries. *)
Fixpoint val_ind' (P : val → Prop)
    (HN : P VNone) (HB : ∀ b, P (VBool b)) (HZ : ∀ z, P (VInt z)) (HS : ∀ s, P (VStr s))
    (HL : ∀ l, Forall P l → P (VList l))
    (HD : ∀ d, Forall (λ kv, P kv.2) d → P (VDict d)) (v : val) {struct v} : P v.
Proof.
  destruct v as [| | | |l|d]; [done|done|done|done| |].
  - apply HL. induction l as [|x l IH]; constructor; [|done].
    by apply val_ind'.
  - apply HD. induction d as [|[k x] d IH]; constructor; [|done].
    by apply val_ind'.
Defined.

Lemma py_truth_str s : py_truth (VStr s) = true ↔ s ≠ "".
Proof. simpl. rewrite negb_true_iff. apply str_eqb_neq. Qed.

(** *** Numerals *)

Lemma digit_value_char d : (d < 10)%N → digit_value (pretty_N_char d) = Some d.
Proof.
  intros Hd. assert (d = 0 ∨ d = 1 ∨ d = 2 ∨ d = 3 ∨ d = 4 ∨ d = 5 ∨ d = 6 ∨ d = 7 ∨ d = 8 ∨ d = 9)%N
    as Hcases by lia.
  repeat destruct Hcases as [->|Hcases]; [done..|]. by subst.
Qed.

Lemma parse_digits_go x s : parse_digits (pretty_N_go x s) 0 = parse_digits s x.
Proof.
  revert s. induction (N.lt_wf_0 x) as [x _ IH]; intros s.
  assert (x = 0 ∨ 0 < x)%N as [->|Hx] by lia; [by rewrite pretty_N_go_0|].
  rewrite pretty_N_go_step by done. rewrite IH by (by apply N.div_lt). cbn [parse_digits].
  rewrite digit_value_char by (by apply N.mod_lt). f_equal.
  rewrite (N.div_mod x 10) at 3 by done. lia.
Qed.

Lemma parse_digits_pretty (n : N) : parse_digits (pretty n) 0 = Some n.
Proof.
  unfold pretty, pretty_N. case_decide as E; [by subst|]. by rewrite parse_digits_go.
Qed.

Lemma pretty_N_nonempty (n : N) : ∃ c s, pretty n = String c s ∧ c ≠ "-"%char.
Proof.
  destruct (pretty n) as [|c s] eqn:E.
  - pose proof (parse_digits_pretty n) as H. rewrite E in H. injection H as <-. discriminate E.
  - exists c, s. split; [done|]. intros ->. pose proof (parse_digits_pretty n) as H.
    rewrite E in H. discriminate H.
Qed.

Lemma py_int_str z : py_int (str_int z) = Ok z.
Proof.
  unfold py_int, str_int. destruct z as [|p|p]; [done| |].
  - change (pretty (Z.pos p)) with (pretty (N.pos p)).
    pose proof (parse_digits_pretty (N.pos p)) as Hp.
    destruct (pretty_N_nonempty (N.pos p)) as (c & s & E & Hc). rewrite E in *.
    destruct c as [[] [] [] [] [] [] [] []]; try (rewrite Hp; done); done.
  - change (pretty (Z.neg p)) with (String "-" (pretty (N.pos p))).
    pose proof (parse_digits_pretty (N.pos p)) as Hp.
    destruct (pretty_N_nonempty (N.pos p)) as (c & s & E & Hc). rewrite E in *.
    rewrite Hp. done.
Qed.
