(* ===== verification/Plenum.v ===== *)
(** * What the node takes from plenum

    The node extends indy-plenum, whose code is not part of this repository.
    This file holds the shapes the node's own code reads and writes, as
    [docs/source/requests.md] and [docs/source/transactions.md] describe them
    (a client request, a transaction), and, as classes of operations with
    laws, the services the node calls: a serializer, the state trie and the
    optimistic key-value store.  Client theorems are proved against the
    classes; the instances at the end show that the laws can hold. *)
From S2P Require Import Prelude PyValue.

(** ** Requests and transactions *)

(** A client request.  [signature] and [signatures] are the single and the
    multiple signature of a request, [None] when the field is not given. *)
Record Request := mkRequest {
  identifier : option string;
  reqId : option Z;
  operation : dict val;
  signature : option string;
  signatures : option (dict string);
  endorser : option string
}.

(** A transaction: type, payload data, payload metadata and the metadata the
    ledger appends. *)
Record Txn := mkTxn {
  get_type : string;
  get_payload_data : dict val;
  get_from : option string;
  get_req_id : option Z;
  get_endorser : option string;
  get_payload_txn_version : option string;
  get_seq_no : option Z;
  get_txn_time : option Z
}.

Definition with_payload_data (txn : Txn) (d : dict val) : Txn :=
  mkTxn (get_type txn) d (get_from txn) (get_req_id txn) (get_endorser txn)
    (get_payload_txn_version txn) (get_seq_no txn) (get_txn_time txn).

(** [_validate_request_type] / [_validate_txn_type]: the assertion every
    handler opens with. *)
Definition validate_type (expected actual : string) : res unit :=
  if str_eqb expected actual then Ok tt else Raise AssertionError.

(** The values of optional attributes, as Python values. *)
Definition opt_str (o : option string) : val :=
  match o with Some s => VStr s | None => VNone end.

Definition opt_int (o : option Z) : val :=
  match o with Some z => VInt z | None => VNone end.

(** [signatures] as a truth value: given and not empty. *)
Definition has_signatures (r : Request) : bool :=
  match signatures r with Some (_ :: _) => true | _ => false end.

Definition sig_dict (r : Request) : dict string :=
  match signatures r with Some d => d | None => [] end.

Definition signers (r : Request) : list string := dkeys (sig_dict r).

(** [request.signature] as a truth value *)
Definition has_signature (r : Request) : bool :=
  match signature r with Some s => str_truth s | None => false end.

(** [x in request.signatures] for an optional identifier. *)
Definition signed_by (r : Request) (idr : option string) : bool :=
  match idr with Some i => bool_decide (i ∈ signers r) | None => false end.

(** ** Serializers *)

(** A serializer reads back what it wrote, and writes no empty byte string
    ([bytes_truth] is the truth value of a byte string). *)
Class Serializer (bytes : Type) := {
  bytes_truth : bytes → bool;
  ser_serialize : val → bytes;
  ser_deserialize : bytes → res val;
  ser_roundtrip v : ser_deserialize (ser_serialize v) = Ok v;
  ser_nonempty v : bytes_truth (ser_serialize v) = true
}.

(** ** The state trie *)

(** The uncommitted head of a [PruningState]: [get] returns [None] for a path
    that was never set. *)
Class State (bytes S : Type) := {
  st_get : S → string → option bytes;
  st_set : S → string → bytes → S;
  st_get_set_eq s k v : st_get (st_set s k v) k = Some v;
  st_get_set_ne s k k' v : k ≠ k' → st_get (st_set s k v) k' = st_get s k'
}.

#[export] Hint Rewrite @ser_roundtrip @ser_nonempty @st_get_set_eq : indy.
#[export] Hint Rewrite @st_get_set_ne using (done || congruence) : indy.

(** ** State values *)

(** Handlers store a value with the sequence number and time of its last
    update, and read the three back. *)
Class StateCodec (bytes : Type) := {
  encode_state_value : val → option Z → option Z → bytes;
  decode_state_value : bytes → res (val * val * val);
  codec_roundtrip v seq_no time :
    decode_state_value (encode_state_value v seq_no time) = Ok (v, opt_int seq_no, opt_int time)
}.

(** [get_from_state] of a write handler: value, sequence number, update time;
    three [None]s for a path without a value. *)
Definition get_from_state_val {bytes S} `{!State bytes S, !StateCodec bytes} (s : S) (path : string)
    : res (val * val * val) :=
  match st_get s path with
  | None => Ok (VNone, VNone, VNone)
  | Some b => decode_state_value b
  end.

Lemma get_from_state_set {bytes S} `{!State bytes S, !StateCodec bytes} (s : S) path v n t :
  get_from_state_val (st_set s path (encode_state_value v n t)) path = Ok (v, opt_int n, opt_int t).
Proof. unfold get_from_state_val. by rewrite st_get_set_eq, codec_roundtrip. Qed.

Lemma get_from_state_set_ne {bytes S} `{!State bytes S, !StateCodec bytes} (s : S) path path' b :
  path ≠ path' → get_from_state_val (st_set s path b) path' = get_from_state_val s path'.
Proof. intros. unfold get_from_state_val. by rewrite st_get_set_ne. Qed.

(** ** Instances *)

(** The identity serializer, and a state that is a finite map. *)
#[export] Instance val_serializer : Serializer val :=
  {| bytes_truth _ := true; ser_serialize := id; ser_deserialize := Ok;
     ser_roundtrip v := eq_refl; ser_nonempty v := eq_refl |}.

#[export] Program Instance map_state {bytes} : State bytes (gmap string bytes) :=
  {| st_get m k := m !! k; st_set m k v := <[k := v]> m |}.
Next Obligation. intros. apply lookup_insert_eq. Qed.
Next Obligation. intros. by apply lookup_insert_ne. Qed.
