(* ===== verification/Constants.v ===== *)
(** * Roles, transaction types and field names

    [indy_common/roles.py], [indy_common/transactions.py], the part of
    [indy_common/constants.py] the modelled code uses and
    [indy_common/authorize/helper.py].  The codes the source takes from plenum
    (TRUSTEE, STEWARD, NODE, NYM, the author agreement and ledger freeze
    types, field names of a request) have the values the repository documents
    in [docs/source/transactions.md] and pins in [indy_common/test]. *)
From S2P Require Import Prelude PyValue.

(** ** roles.py: the [Roles] enumeration, name and value of each member *)

Definition IDENTITY_OWNER : option string := None.
Definition TRUSTEE : string := "0".
Definition STEWARD : string := "2".
Definition ENDORSER : string := "101".
Definition NETWORK_MONITOR : string := "201".

Definition Roles : list (string * option string) :=
  [("IDENTITY_OWNER", IDENTITY_OWNER); ("TRUSTEE", Some TRUSTEE);
   ("STEWARD", Some STEWARD); ("ENDORSER", Some ENDORSER);
   ("NETWORK_MONITOR", Some NETWORK_MONITOR)].

(** [Roles(value).name]: the member with that value, [ValueError] without one. *)
Fixpoint enum_name {V} `{EqDecision V} (members : list (string * V)) (v : V) : res string :=
  match members with
  | [] => Raise (ValueError "not a valid member")
  | (n, w) :: ms => if bool_decide (v = w) then Ok n else enum_name ms v
  end.

Definition Roles_name (value : option string) : res string := enum_name Roles value.

(** [Roles.nameFromValue]: a false value ([None] or the empty string) has no
    role. *)
Definition nameFromValue (value : option string) : res string :=
  match value with
  | Some v => if str_truth v then Roles_name (Some v) else Ok "None role"
  | None => Ok "None role"
  end.

(** helper.py *)
Definition get_named_role (role_code : option string) : string :=
  match nameFromValue role_code with
  | Ok n => n
  | Raise _ => "Unknown role"
  end.

Definition ENDORSER_STRING : string := "ENDORSER".

(** ** transactions.py: the [IndyTransactions] enumeration *)

Definition NODE : string := "0".
Definition NYM : string := "1".
Definition GET_TXN : string := "3".
Definition IndyTransactions : list (string * string) :=
  [("NODE", NODE); ("NYM", NYM); ("ATTRIB", "100"); ("SCHEMA", "101");
   ("CLAIM_DEF", "102"); ("DISCLO", "103"); ("GET_ATTR", "104");
   ("GET_NYM", "105"); ("GET_TXNS", GET_TXN); ("GET_SCHEMA", "107");
   ("GET_CLAIM_DEF", "108"); ("POOL_UPGRADE", "109"); ("NODE_UPGRADE", "110");
   ("POOL_CONFIG", "111"); ("CHANGE_KEY", "112"); ("REVOC_REG_DEF", "113");
   ("REVOC_REG_ENTRY", "114"); ("GET_REVOC_REG_DEF", "115");
   ("GET_REVOC_REG", "116"); ("GET_REVOC_REG_DELTA", "117");
   ("POOL_RESTART", "118"); ("VALIDATOR_INFO", "119"); ("AUTH_RULE", "120");
   ("GET_AUTH_RULE", "121"); ("AUTH_RULES", "122"); ("FLAG", "130");
   ("GET_FLAG", "131"); ("JSON_LD_CONTEXT", "200"); ("RICH_SCHEMA", "201");
   ("RICH_SCHEMA_ENCODING", "202"); ("RICH_SCHEMA_MAPPING", "203");
   ("RICH_SCHEMA_CRED_DEF", "204"); ("RICH_SCHEMA_PRES_DEF", "205");
   ("GET_RICH_SCHEMA_OBJECT_BY_ID", "300");
   ("GET_RICH_SCHEMA_OBJECT_BY_METADATA", "301")].

Definition get_name_from_code (code : string) : string :=
  match enum_name IndyTransactions code with
  | Ok n => n
  | Raise _ => "Unknown_transaction_type"
  end.

(** ** constants.py: transaction types *)

Definition ATTRIB : string := "100".
Definition SCHEMA : string := "101".
Definition CLAIM_DEF : string := "102".
Definition GET_ATTR : string := "104".
Definition GET_NYM : string := "105".
Definition POOL_UPGRADE : string := "109".
Definition NODE_UPGRADE : string := "110".
Definition POOL_CONFIG : string := "111".
Definition REVOC_REG_DEF : string := "113".
Definition REVOC_REG_ENTRY : string := "114".
Definition POOL_RESTART : string := "118".
Definition VALIDATOR_INFO : string := "119".
Definition AUTH_RULE : string := "120".
Definition GET_AUTH_RULE : string := "121".
Definition AUTH_RULES : string := "122".
Definition FLAG : string := "130".
Definition JSON_LD_CONTEXT : string := "200".
Definition RICH_SCHEMA : string := "201".
Definition RICH_SCHEMA_ENCODING : string := "202".
Definition RICH_SCHEMA_MAPPING : string := "203".
Definition RICH_SCHEMA_CRED_DEF : string := "204".
Definition RICH_SCHEMA_PRES_DEF : string := "205".

(** plenum's, as [docs/source/transactions.md] gives them *)
Definition TXN_AUTHOR_AGREEMENT : string := "4".
Definition TXN_AUTHOR_AGREEMENT_AML : string := "5".
Definition TXN_AUTHOR_AGREEMENT_DISABLE : string := "8".
Definition LEDGERS_FREEZE : string := "9".

(** ** constants.py: field names and values *)

Definition ROLE : string := "role".
Definition VERKEY : string := "verkey".
Definition TARGET_NYM : string := "dest".
Definition DATA : string := "data".
Definition RAW : string := "raw".
Definition ENC : string := "enc".
Definition HASH : string := "hash".
Definition ALIAS : string := "alias".
Definition TXN_TYPE : string := "type".

(** The enumerations list their members once: no two share a value. *)
Lemma Roles_values_NoDup : NoDup (Roles.*2).
Proof. vm_compute. apply (bool_decide_unpack _). reflexivity. Qed.

Lemma IndyTransactions_values_NoDup : NoDup (IndyTransactions.*2).
Proof. vm_compute. apply (bool_decide_unpack _). reflexivity. Qed.
