(* ===== verification/AuthActions.v ===== *)
(** * Authorization actions and their identifiers

    [indy_common/authorize/auth_actions.py]: an action is the addition of a
    value or the edit of one, and is named by a string of five fields joined
    with [RULE_DELIMETER]; the authorization map is keyed by such names. *)
From S2P Require Import Prelude PyValue.

Definition RULE_DELIMETER : string := "--".
Definition ADD_PREFIX : string := "ADD".
Definition EDIT_PREFIX : string := "EDIT".

Record ActionDef := mkActionDef {
  ad_txn_type : string;
  ad_prefix : string;
  ad_field : string;
  ad_old_value : string;
  ad_new_value : string
}.

#[export] Instance ActionDef_eq_dec : EqDecision ActionDef.
Proof. solve_decision. Defined.

Definition compile_action_id (txn_type field old_value new_value prefix : string) : string :=
  py_join RULE_DELIMETER [txn_type; prefix; field; old_value; new_value].

(** [ActionDef( *parts )]: a tuple of any other length is a [TypeError]. *)
Definition split_action_id (action_id : string) : res ActionDef :=
  match py_split RULE_DELIMETER action_id with
  | [t; p; f; o; n] => Ok (mkActionDef t p f o n)
  | _ => Raise (TypeError "__new__() takes 6 positional arguments")
  end.

(** The two action classes, with the attributes their constructors set. *)
Inductive AuthAction :=
| ActionAdd (txn_type field value : string) (is_owner : bool)
| ActionEdit (txn_type field old_value new_value : string) (is_owner : bool).

(** [str(v) if v is not None else ''] *)
Definition str_or_empty (v : val) : string :=
  match v with VNone => "" | _ => py_str v end.

Definition AuthActionAdd (txn_type : string) (field value : val) (is_owner : bool) : AuthAction :=
  ActionAdd txn_type (str_or_empty field) (str_or_empty value) is_owner.

Definition AuthActionEdit (txn_type : string) (field old_value new_value : val)
    (is_owner : bool) : AuthAction :=
  ActionEdit txn_type (str_or_empty field) (str_or_empty old_value)
    (str_or_empty new_value) is_owner.

Definition action_txn_type (a : AuthAction) : string :=
  match a with ActionAdd t _ _ _ => t | ActionEdit t _ _ _ _ => t end.

Definition action_field (a : AuthAction) : string :=
  match a with ActionAdd _ f _ _ => f | ActionEdit _ f _ _ _ => f end.

Definition action_is_owner (a : AuthAction) : bool :=
  match a with ActionAdd _ _ _ o => o | ActionEdit _ _ _ _ o => o end.

Definition get_action_id (a : AuthAction) : string :=
  match a with
  | ActionAdd t f v _ => compile_action_id t f "*" v ADD_PREFIX
  | ActionEdit t f o n _ => compile_action_id t f o n EDIT_PREFIX
  end.

(** What an identifier should read back as. *)
Definition action_def (a : AuthAction) : ActionDef :=
  match a with
  | ActionAdd t f v _ => mkActionDef t ADD_PREFIX f "*" v
  | ActionEdit t f o n _ => mkActionDef t EDIT_PREFIX f o n
  end.

(** Text that can stand before a delimiter, and text that can stand last. *)
Definition inner_ok (s : string) : bool := sep_free RULE_DELIMETER s RULE_DELIMETER.
Definition last_ok (s : string) : bool := sep_free RULE_DELIMETER s "".

Definition action_clean (a : AuthAction) : bool :=
  match a with
  | ActionAdd t f v _ => inner_ok t && inner_ok f && last_ok v
  | ActionEdit t f o n _ => inner_ok t && inner_ok f && inner_ok o && last_ok n
  end.

(** ** Lemmas *)

Lemma split_compile t f o n p :
  inner_ok t = true → inner_ok p = true → inner_ok f = true → inner_ok o = true →
  last_ok n = true →
  split_action_id (compile_action_id t f o n p) = Ok (mkActionDef t p f o n).
Proof.
  intros Ht Hp Hf Ho Hn. unfold split_action_id, compile_action_id.
  change [t; p; f; o; n] with ([t; p; f; o] ++ [n]).
  by rewrite py_split_join by (repeat constructor; done).
Qed.

Lemma split_action_clean a :
  action_clean a = true → split_action_id (get_action_id a) = Ok (action_def a).
Proof.
  destruct a; simpl; rewrite !andb_true_iff; intros; destruct_and?;
    apply split_compile; done.
Qed.

Lemma action_def_type a : ad_txn_type (action_def a) = action_txn_type a.
Proof. by destruct a. Qed.

Lemma action_def_field a : ad_field (action_def a) = action_field a.
Proof. by destruct a. Qed.

(** A delimiter in the last field makes a sixth field. *)
Lemma split_compile_dirty t f o n p :
  inner_ok t = true → inner_ok p = true → inner_ok f = true → inner_ok o = true →
  py_in_str RULE_DELIMETER n = true →
  split_action_id (compile_action_id t f o n p) =
    Raise (TypeError "__new__() takes 6 positional arguments").
Proof.
  intros Ht Hp Hf Ho Hn. unfold split_action_id, compile_action_id, py_split. cbn [py_join].
  do 4 (rewrite split_go_field by done).
  pose proof (split_go_occurs RULE_DELIMETER "" n ltac:(done) Hn) as Hlen.
  destruct (split_go RULE_DELIMETER 0 "" n) as [|x [|y l]]; simpl in Hlen; [lia..|done].
Qed.

(** ** Properties *)

(** The identifier of an action, split again, is the action's five fields,
    for every addition and edit whose fields do not hold the delimiter. *)
Theorem action_id_roundtrip a :
  action_clean a = true → split_action_id (get_action_id a) = Ok (action_def a).
Proof. apply split_action_clean. Qed.

Lemma action_id_roundtrip_witness :
  split_action_id (get_action_id (AuthActionEdit "1" (VStr "role") VNone (VStr "101") true)) =
    Ok (mkActionDef "1" "EDIT" "role" "" "101").
Proof. apply (action_id_roundtrip (AuthActionEdit "1" (VStr "role") VNone (VStr "101") true)). reflexivity. Defined.

(** An action whose new value holds the delimiter (an attribute whose text
    has two dashes, say) has an identifier that cannot be split: [TypeError],
    not a refusal. *)
Theorem action_id_delimiter_error t f v owner :
  inner_ok t = true → inner_ok f = true → py_in_str RULE_DELIMETER v = true →
  split_action_id (get_action_id (ActionAdd t f v owner)) =
    Raise (TypeError "__new__() takes 6 positional arguments").
Proof. intros. by apply split_compile_dirty. Qed.

Lemma action_id_delimiter_error_witness :
  split_action_id (get_action_id (ActionAdd "100" "name" "a--b" true)) =
    Raise (TypeError "__new__() takes 6 positional arguments").
Proof. apply (action_id_delimiter_error "100" "name" "a--b" true); reflexivity. Defined.
