(* ===== verification/AuthConstraints.v ===== *)
(** * Authorization constraints

    [indy_common/authorize/auth_constraints.py]: the tree of ROLE, AND, OR and
    FORBIDDEN constraints, its dictionary form, the parser of that form, the
    text of a constraint and its serialization.

    The attributes whose type the Python classes do not fix ([sig_count],
    [need_to_be_owner], [off_ledger_signature], [metadata]) are Python values;
    [role] is [None] or a string because the constructor accepts nothing else. *)
From S2P Require Import Prelude PyValue Plenum Constants.

Definition CONSTRAINT_ID : string := "constraint_id".
Definition AUTH_CONSTRAINTS : string := "auth_constraints".
Definition METADATA : string := "metadata".
Definition SIG_COUNT : string := "sig_count".
Definition NEED_TO_BE_OWNER : string := "need_to_be_owner".
Definition OFF_LEDGER_SIGNATURE : string := "off_ledger_signature".

Definition accepted_roles : list (option string) :=
  [IDENTITY_OWNER; Some NETWORK_MONITOR; Some ENDORSER; Some STEWARD; Some TRUSTEE; Some "*"].

Definition ROLE_CONSTRAINT_ID : string := "ROLE".
Definition AND_CONSTRAINT_ID : string := "AND".
Definition OR_CONSTRAINT_ID : string := "OR".
Definition FORBIDDEN_CONSTRAINT_ID : string := "FORBIDDEN".

Inductive constraint :=
| AuthConstraintForbidden
| AuthConstraint (role : option string) (sig_count need_to_be_owner off_ledger_signature metadata : val)
| AuthConstraintAnd (auth_constraints : list constraint)
| AuthConstraintOr (auth_constraints : list constraint).

Definition constraint_id (c : constraint) : string :=
  match c with
  | AuthConstraintForbidden => FORBIDDEN_CONSTRAINT_ID
  | AuthConstraint _ _ _ _ _ => ROLE_CONSTRAINT_ID
  | AuthConstraintAnd _ => AND_CONSTRAINT_ID
  | AuthConstraintOr _ => OR_CONSTRAINT_ID
  end.

Definition role_val (role : option string) : val :=
  match role with Some r => VStr r | None => VNone end.

(** ** Comparison of an attribute with a number *)

Definition py_num (v : val) : res Z :=
  match v with
  | VInt z => Ok z
  | VBool b => Ok (if b then 1 else 0)%Z
  | _ => Raise (TypeError "ordering not supported")
  end.

Definition py_gtb (v : val) (n : Z) : res bool :=
  let! z := py_num v in Ok (Z.ltb n z).

(** ** Construction *)

(** [AuthConstraint._role_validation] *)
Definition role_validation (role off_ledger_signature : val) : res (option string) :=
  let! r := match role with
            | VNone => Ok None
            | VStr s => if bool_decide (Some s ∈ accepted_roles) then Ok (Some s)
                        else Raise (ValueError ("Role " +:+ s +:+ " is not acceptable"))
            | v => Raise (ValueError ("Role " +:+ py_str v +:+ " is not acceptable"))
            end in
  if py_truth off_ledger_signature && negb (bool_decide (r = Some "*"))
  then Raise (ValueError ("'off_ledger_signature' can be set to True only if any role is accepted (role='*'). Got "
                          +:+ py_str role +:+ " role instead."))
  else Ok r.

(** [AuthConstraint.__init__] *)
Definition new_AuthConstraint (role sig_count need_to_be_owner off_ledger_signature metadata : val)
    : res constraint :=
  let! r := role_validation role off_ledger_signature in
  Ok (AuthConstraint r sig_count need_to_be_owner off_ledger_signature metadata).

(** A role constraint as the source writes it in Python, with the default
    arguments of the constructor. *)
Definition RoleConstraint (role : option string) (sig_count : Z) (need_to_be_owner : bool)
    : constraint :=
  AuthConstraint role (VInt sig_count) (VBool need_to_be_owner) VNone (VDict []).

(** ** [as_dict] *)

Fixpoint as_dict (c : constraint) : val :=
  match c with
  | AuthConstraintForbidden => VDict [(CONSTRAINT_ID, VStr FORBIDDEN_CONSTRAINT_ID)]
  | AuthConstraint role sig_count need_to_be_owner off_ledger_signature metadata =>
      VDict ([(CONSTRAINT_ID, VStr ROLE_CONSTRAINT_ID); (ROLE, role_val role);
              (SIG_COUNT, sig_count); (NEED_TO_BE_OWNER, need_to_be_owner);
              (METADATA, metadata)] ++
             match off_ledger_signature with
             | VNone => []
             | v => [(OFF_LEDGER_SIGNATURE, v)]
             end)
  | AuthConstraintAnd cs =>
      VDict [(CONSTRAINT_ID, VStr AND_CONSTRAINT_ID); (AUTH_CONSTRAINTS, VList (map as_dict cs))]
  | AuthConstraintOr cs =>
      VDict [(CONSTRAINT_ID, VStr OR_CONSTRAINT_ID); (AUTH_CONSTRAINTS, VList (map as_dict cs))]
  end.

(** ** Parsing *)

Definition dict_get_default (k : string) (default : val) (d : dict val) : val :=
  match dget k d with Some v => v | None => default end.

(** [AuthConstraint.from_dict] *)
Definition role_from_dict (d : dict val) : res constraint :=
  let! role := dgetitem ROLE d in
  let! sig_count := dgetitem SIG_COUNT d in
  new_AuthConstraint role sig_count
    (dict_get_default NEED_TO_BE_OWNER (VBool false) d)
    (dict_get_default OFF_LEDGER_SIGNATURE VNone d)
    (dict_get_default METADATA (VDict []) d).

(** [AuthConstraintAnd( **as_dict )]: any further key is an unexpected argument. *)
Definition no_extra_keys (d : dict val) : bool :=
  bool_decide (Forall (λ k, k = CONSTRAINT_ID ∨ k = AUTH_CONSTRAINTS) (dkeys d)).

(** The loop of [AuthConstraintAnd.from_dict] and [AuthConstraintOr.from_dict]:
    [as_dict[AUTH_CONSTRAINTS]], with [create] applied to each element. *)
Definition children_of (create : val → res constraint) : dict val → res (list constraint) :=
  fix find (d : dict val) : res (list constraint) :=
    match d with
    | [] => Raise (KeyError AUTH_CONSTRAINTS)
    | (k, x) :: d' =>
        if str_eqb k AUTH_CONSTRAINTS then
          match x with
          | VList l => res_mapM create l
          | VStr "" | VDict [] => Ok []
          | VDict (("", _) :: _) => Raise (KeyError CONSTRAINT_ID)
          | VStr _ | VDict _ => Raise (ValueError "dictionary update sequence element")
          | _ => Raise (TypeError "object is not iterable")
          end
        else find d'
    end.

(** [ConstraintCreator.create_constraint] and the [from_dict] methods it
    dispatches to.  [none_check] is whether the caller tests the popped
    identifier for [None]: [create_constraint] and [AuthConstraintOr.from_dict]
    do, [AuthConstraintAnd.from_dict] does not.  A sequence of pairs in place of
    a dictionary is not converted (no message that passes the schema of
    [ConstraintField] holds one). *)
Fixpoint create (none_check : bool) (v : val) {struct v} : res constraint :=
  match v with
  | VDict d =>
      match dget CONSTRAINT_ID d with
      | None => Raise (KeyError CONSTRAINT_ID)
      | Some VNone => if none_check then Raise (KeyError "There is no constraint_id field")
                      else Raise AttributeError
      | Some (VStr id) =>
          if str_eqb id ROLE_CONSTRAINT_ID then role_from_dict (ddel CONSTRAINT_ID d)
          else if str_eqb id AND_CONSTRAINT_ID then
            let! cs := children_of (create false) d in
            if no_extra_keys d then Ok (AuthConstraintAnd cs)
            else Raise (TypeError "unexpected keyword argument")
          else if str_eqb id OR_CONSTRAINT_ID then
            let! cs := children_of (create true) d in
            if no_extra_keys d then Ok (AuthConstraintOr cs)
            else Raise (TypeError "unexpected keyword argument")
          else if str_eqb id FORBIDDEN_CONSTRAINT_ID then Ok AuthConstraintForbidden
          else Raise AttributeError
      | Some (VList _) | Some (VDict _) => Raise (TypeError "unhashable type")
      | Some _ => Raise AttributeError
      end
  | VStr "" | VList [] => Raise (KeyError CONSTRAINT_ID)
  | VStr _ | VList _ => Raise (ValueError "dictionary update sequence element")
  | _ => Raise (TypeError "object is not iterable")
  end.

Definition create_constraint (input_dict : val) : res constraint := create true input_dict.

(** ** [set_metadata] *)

Fixpoint set_metadata (metadata : val) (c : constraint) : constraint :=
  match c with
  | AuthConstraintForbidden => AuthConstraintForbidden
  | AuthConstraint r s n o _ => AuthConstraint r s n o metadata
  | AuthConstraintAnd cs => AuthConstraintAnd (map (set_metadata metadata) cs)
  | AuthConstraintOr cs => AuthConstraintOr (map (set_metadata metadata) cs)
  end.

(** ** [__str__] *)

(** [AuthConstraint._metadata_str] *)
Definition metadata_str (metadata : val) : res string :=
  if negb (py_truth metadata) then Ok ""
  else match metadata with
       | VDict d =>
           Ok ("with additional metadata " +:+
               py_join " " (concat (map (λ '(k, v), [k; py_str v]) d)))
       | _ => Raise AttributeError
       end.

(** [AuthConstraint.__str__], the [if]/[elif] chain in its order. *)
Definition role_str (role : option string) (sig_count need_to_be_owner off_ledger_signature
    metadata : val) : res string :=
  let named := if bool_decide (role = Some "*") then "ALL" else get_named_role role in
  let all := str_eqb named "ALL" in
  let owner := py_truth need_to_be_owner in
  let off := py_truth off_ledger_signature in
  let! n := py_num sig_count in
  let count := py_str sig_count in
  let error_msg :=
    if off && Z.ltb 1 n then count +:+ " signatures of any role (off-ledger included) are required"
    else if off && Z.eqb n 1 then "1 signature of any role (off-ledger included) is required"
    else if negb all && owner && Z.ltb 1 n then
      count +:+ " " +:+ named +:+ " signatures are required and needs to be owner"
    else if negb all && negb owner && Z.ltb 1 n then
      count +:+ " " +:+ named +:+ " signatures are required"
    else if negb all && negb owner && Z.eqb n 1 then "1 " +:+ named +:+ " signature is required"
    else if negb all && owner && Z.eqb n 1 then
      "1 " +:+ named +:+ " signature is required and needs to be owner"
    else if all && owner && Z.eqb n 1 then
      "1 signature of any role is required and needs to be owner"
    else if all && negb owner && Z.eqb n 1 then
      "1 signature of any role is required " +:+ named
    else if all && negb owner && Z.ltb 1 n then
      count +:+ " signatures of any role are required"
    else if all && owner && Z.ltb 1 n then
      count +:+ " signatures of any role are required and needs to be owner"
    else "" in
  let! m := metadata_str metadata in
  Ok (if str_truth m then error_msg +:+ " " +:+ m else error_msg).

Fixpoint str_constraint (c : constraint) : res string :=
  match c with
  | AuthConstraintForbidden => Ok "The action is forbidden"
  | AuthConstraint r s n o m => role_str r s n o m
  | AuthConstraintAnd cs => let! ss := res_mapM str_constraint cs in Ok (py_join " AND " ss)
  | AuthConstraintOr cs => let! ss := res_mapM str_constraint cs in Ok (py_join " OR " ss)
  end.

(** ** Serialization *)

Section ConstraintsSerializer.
Context {bytes : Type} {S : Serializer bytes}.

(** A missing constraint is written as the empty dictionary. *)
Definition serialize_constraint (c : option constraint) : bytes :=
  ser_serialize match c with Some c => as_dict c | None => VDict [] end.

Definition deserialize_constraint (b : bytes) : res constraint :=
  let! d := ser_deserialize b in create_constraint d.
End ConstraintsSerializer.

(** ** Well-formedness: what the constructors can build *)

Fixpoint wf_constraint (c : constraint) : Prop :=
  match c with
  | AuthConstraintForbidden => True
  | AuthConstraint r _ _ o _ =>
      r ∈ accepted_roles ∧ (py_truth o = true → r = Some "*")
  | AuthConstraintAnd cs | AuthConstraintOr cs => foldr (λ c P, wf_constraint c ∧ P) True cs
  end.

(** ** Lemmas *)

Fixpoint constraint_ind' (P : constraint → Prop) (HF : P AuthConstraintForbidden)
    (HR : ∀ r s n o m, P (AuthConstraint r s n o m))
    (HA : ∀ cs, Forall P cs → P (AuthConstraintAnd cs))
    (HO : ∀ cs, Forall P cs → P (AuthConstraintOr cs)) (c : constraint) {struct c} : P c.
Proof.
  destruct c as [|r s n o m|cs|cs]; [done|done| |].
  - apply HA. induction cs; constructor; [by apply constraint_ind'|done].
  - apply HO. induction cs; constructor; [by apply constraint_ind'|done].
Defined.

Lemma wf_constraint_all cs :
  foldr (λ c P, wf_constraint c ∧ P) True cs ↔ Forall wf_constraint cs.
Proof. induction cs as [|c cs IH]; simpl; [done|]. by rewrite Forall_cons, IH. Qed.

Lemma role_validation_ok r o :
  r ∈ accepted_roles → (py_truth o = true → r = Some "*") →
  role_validation (role_val r) o = Ok r.
Proof.
  intros Hr Ho. unfold role_validation. destruct r as [r|]; simpl.
  - rewrite bool_decide_eq_true_2 by done. simpl.
    destruct (py_truth o); simpl; [|done].
    by rewrite bool_decide_eq_true_2 by (apply Ho; done).
  - destruct (py_truth o); [|done]. by discriminate Ho.
Qed.

Lemma create_map cs b :
  Forall (λ c, ∀ b, create b (as_dict c) = Ok c) cs →
  res_mapM (create b) (map as_dict cs) = Ok cs.
Proof. induction 1 as [|c cs Hc _ IH]; simpl; [done|]. by rewrite Hc, IH. Qed.

(** Parsing the dictionary of a constraint gives the constraint back, whatever
    the caller. *)
Lemma create_as_dict c b : wf_constraint c → create b (as_dict c) = Ok c.
Proof.
  revert b. induction c as [|r s n o m|cs IH|cs IH] using constraint_ind'; intros b Hwf.
  - done.
  - destruct Hwf as [Hr Ho].
    destruct o; cbn -[role_validation role_val];
      unfold new_AuthConstraint; by rewrite role_validation_ok.
  - cbn. rewrite create_map; [done|]. apply wf_constraint_all in Hwf.
    by eapply Forall_impl; [apply Forall_and; split; [apply IH|apply Hwf]|]; naive_solver.
  - cbn. rewrite create_map; [done|]. apply wf_constraint_all in Hwf.
    by eapply Forall_impl; [apply Forall_and; split; [apply IH|apply Hwf]|]; naive_solver.
Qed.

(** Everything the parser builds is well-formed.  The second half of the
    induction hypothesis carries the elements of a list. *)
Definition creates_wf (v : val) : Prop := ∀ b c, create b v = Ok c → wf_constraint c.

Definition list_creates_wf (v : val) : Prop :=
  match v with VList l => Forall creates_wf l | _ => True end.

Lemma children_wf b d cs :
  Forall (λ kv, list_creates_wf kv.2) d →
  children_of (create b) d = Ok cs → Forall wf_constraint cs.
Proof.
  induction 1 as [|[k x] d Hx _ IHd]; [done|]. cbn [children_of].
  destruct (str_eqb k AUTH_CONSTRAINTS); [|done]. simpl in Hx. intros H.
  destruct x as [| | |[|]|l|[|[[|] ?] ?]]; try done; try (by injection H as <-).
  clear IHd. apply res_mapM_Forall2 in H. induction H as [|y c l cs Hc _ IH]; [done|].
  apply Forall_cons in Hx as [Hy Hl]. constructor; [by eapply Hy|by apply IH].
Qed.

Lemma role_from_dict_wf d c : role_from_dict d = Ok c → wf_constraint c.
Proof.
  unfold role_from_dict, new_AuthConstraint. intros H.
  bind H as role _. bind H as sc _.
  apply res_bind_Ok in H as (r & H & [= <-]). revert H. unfold role_validation.
  generalize (dict_get_default OFF_LEDGER_SIGNATURE VNone d) as off. intros off H.
  bind H as r' Hr'.
  assert (r' ∈ accepted_roles) as Hacc.
  { clear H. destruct role; try done; [by injection Hr' as <-; left|].
    case_bool_decide; [by injection Hr' as <-|done]. }
  destruct (py_truth off) eqn:Hoff; simpl in H.
  - case_bool_decide; simpl in H; [|done]. injection H as <-. simpl. done.
  - injection H as <-. simpl. rewrite Hoff. done.
Qed.

Lemma create_wf v : creates_wf v ∧ list_creates_wf v.
Proof.
  induction v as [| | |s|l IH|d IH] using val_ind'; split; try done.
  - intros b c H. by destruct s.
  - intros b c H. by destruct l.
  - simpl. eapply Forall_impl; [apply IH|]. by intros ? [? _].
  - assert (Forall (λ kv, list_creates_wf kv.2) d) as Hd.
    { eapply Forall_impl; [apply IH|]. by intros ? [_ ?]. }
    intros b c H. cbn [create] in H.
    destruct (dget CONSTRAINT_ID d) as [[| | |id| |]|]; try done; [by destruct b|].
    destruct (str_eqb id ROLE_CONSTRAINT_ID); [by eapply role_from_dict_wf|].
    destruct (str_eqb id AND_CONSTRAINT_ID); [|destruct (str_eqb id OR_CONSTRAINT_ID)].
    1,2: bind H as cs Hcs; destruct (no_extra_keys d); [|done];
      injection H as <-; apply wf_constraint_all; by eapply children_wf.
    destruct (str_eqb id FORBIDDEN_CONSTRAINT_ID); [|done]. by injection H as <-.
Qed.

(** ** Properties *)

(** C35. Parsing the dictionary form of a well-formed constraint gives the
    constraint back, at any depth of AND and OR, and so does reading back the
    bytes it was serialized to. *)
Theorem constraint_roundtrip {bytes} `{!Serializer bytes} c :
  wf_constraint c →
  create_constraint (as_dict c) = Ok c ∧
  deserialize_constraint (serialize_constraint (Some c)) = Ok c.
Proof.
  intros Hc. unfold create_constraint, deserialize_constraint, serialize_constraint.
  rewrite ser_roundtrip. cbn [res_bind]. unfold create_constraint. by rewrite !create_as_dict.
Qed.

Lemma constraint_roundtrip_witness :
  create_constraint (as_dict (AuthConstraintOr
    [RoleConstraint (Some "0") 1 false;
     AuthConstraintAnd [RoleConstraint (Some "2") 2 true; AuthConstraintForbidden]])) =
  Ok (AuthConstraintOr
    [RoleConstraint (Some "0") 1 false;
     AuthConstraintAnd [RoleConstraint (Some "2") 2 true; AuthConstraintForbidden]]).
Proof.
  apply (constraint_roundtrip (bytes := val)). simpl.
  unfold accepted_roles. repeat split; try set_solver; done.
Defined.

(** C36. Whatever value is parsed, a constraint that comes out is well formed:
    its roles are accepted ones, and an off-ledger signature is only ever
    combined with the wildcard role. *)
Theorem create_constraint_wf v c : create_constraint v = Ok c → wf_constraint c.
Proof. intros H. by eapply (proj1 (create_wf v)). Qed.

Lemma create_constraint_wf_witness :
  wf_constraint (AuthConstraint (Some "*") (VInt 1) (VBool false) (VBool true) (VDict [])).
Proof.
  apply (create_constraint_wf (VDict [("constraint_id", VStr "ROLE"); ("role", VStr "*");
    ("sig_count", VInt 1); ("off_ledger_signature", VBool true)])). reflexivity.
Defined.
