(* ===== verification/Authorizer.v ===== *)
(** * The authorizers

    [indy_common/authorize/authorizer.py]: [RolesAuthorizer] and
    [EndorserAuthorizer] for ROLE constraints, [AndAuthorizer], [OrAuthorizer]
    and [ForbiddenAuthorizer], and the [CompositeAuthorizer] that dispatches a
    constraint to the authorizers registered for its identifier.

    An authorizer returns a pair of a verdict and a reason; the composite
    raises [AuthValidationError] for a negative verdict.  The identity cache is
    the parameter [getRole], the role of an identifier in the uncommitted view:
    [KeyError] when the identifier is unknown, the empty string for an identity
    owner. *)
From S2P Require Import Prelude PyValue Plenum Constants AuthActions AuthConstraints.

Section Authorizers.
Context (getRole : string → res string).

(** [_get_role]: [KeyError] becomes [None]. *)
Definition get_role_of (idr : option string) : res (option string) :=
  match idr with
  | None => Raise AttributeError
  | Some i => match getRole i with
              | Ok r => Ok (Some r)
              | Raise (KeyError _) => Ok None
              | Raise e => Raise e
              end
  end.

(** *** RolesAuthorizer *)

(** [get_role] *)
Definition get_role (request : Request) : res (option string) :=
  match identifier request with None => Ok None | idr => get_role_of idr end.

Definition is_role_accepted (role auth_constraint_role : option string) : bool :=
  match role with
  | None => false
  | Some r =>
      let role' := if str_eqb r "" then None else Some r in
      bool_decide (role' = auth_constraint_role) || bool_decide (auth_constraint_role = Some "*")
  end.

(** The loop over [request.signatures.items()]. *)
Definition count_signers (off : bool) (role : option string) (idrs : list string) : res Z :=
  res_fold (λ n idr,
    let! signer_role := get_role_of (Some idr) in
    Ok (if off || is_role_accepted signer_role role then n + 1 else n)%Z) 0%Z idrs.

Definition get_sig_count (request : Request) (role : option string) (off_ledger_signature : val)
    : res Z :=
  let off := py_truth off_ledger_signature in
  if has_signature request then
    if off then Ok 1%Z
    else let! r := get_role_of (identifier request) in
         Ok (if is_role_accepted r role then 1 else 0)%Z
  else if negb (has_signatures request) then Ok 0%Z
  else if bool_decide (role = Some "*") then Ok (Z.of_nat (length (sig_dict request)))
  else count_signers off role (signers request).

Definition is_owner_accepted (need_to_be_owner : val) (action : AuthAction) : bool :=
  negb (py_truth need_to_be_owner && negb (action_is_owner action)).

Definition is_sig_count_accepted (request : Request) (role : option string)
    (sig_count off_ledger_signature : val) : res bool :=
  let! n := get_sig_count request role off_ledger_signature in
  let! m := py_num sig_count in
  Ok (Z.leb m n).

Definition fmt_idr (idr : option string) : string :=
  match idr with Some i => i | None => "None" end.

(** [RolesAuthorizer.authorize] *)
Definition roles_authorize (request : Request) (role : option string)
    (sig_count need_to_be_owner off_ledger_signature : val) (action : AuthAction)
    : res (bool * string) :=
  if negb (is_owner_accepted need_to_be_owner action) then
    let! r := get_role request in
    if negb (str_eqb (action_field action) "*") then
      Ok (false, get_named_role r +:+ " can not touch " +:+ action_field action +:+
                 " field since only the owner can modify it")
    else
      Ok (false, get_named_role r +:+ " can not edit " +:+
                 get_name_from_code (action_txn_type action) +:+
                 " txn since only owner can modify it")
  else
  let! author_role := get_role request in
  let! positive := py_gtb sig_count 0 in
  if positive && negb (py_truth off_ledger_signature) && bool_decide (author_role = None) then
    Ok (false, "sender's DID " +:+ fmt_idr (identifier request) +:+ " is not found in the Ledger")
  else if positive && has_signatures request && negb (signed_by request (identifier request)) then
    Ok (false, "Author must sign the transaction")
  else
  let! enough := is_sig_count_accepted request role sig_count off_ledger_signature in
  if negb enough then
    let! name := if bool_decide (role = Some "*") then Ok "*" else Roles_name role in
    Ok (false, "Not enough " +:+ name +:+ " signatures")
  else Ok (true, "").

(** *** EndorserAuthorizer *)

Definition NO_NEED_FOR_ENDORSER_ROLES : list string := [ENDORSER; TRUSTEE; STEWARD].
Definition ENDORSER_ROLES : list string := [ENDORSER].

Definition role_in (role : option string) (roles : list string) : bool :=
  match role with Some r => bool_decide (r ∈ roles) | None => false end.

(** [EndorserAuthorizer._get_role] returns [None] for no identifier. *)
Definition endorser_get_role (idr : option string) : res (option string) :=
  match idr with None => Ok None | _ => get_role_of idr end.

Definition check_endorser_role (request : Request) : res (bool * string) :=
  match endorser request with
  | None => Ok (true, "")
  | e =>
      let! endorser_role := endorser_get_role e in
      if negb (role_in endorser_role ENDORSER_ROLES)
      then Ok (false, "Endorser must have one of the following roles: {'ENDORSER'}")
      else Ok (true, "")
  end.

Definition endorser_truth (request : Request) : bool :=
  match endorser request with Some e => str_truth e | None => false end.

(** The loop that looks for a privileged signature and stops at the first. *)
Fixpoint has_privileged_sig (idrs : list string) : res bool :=
  match idrs with
  | [] => Ok false
  | idr :: idrs' =>
      let! role := endorser_get_role (Some idr) in
      if role_in role NO_NEED_FOR_ENDORSER_ROLES then Ok true else has_privileged_sig idrs'
  end.

(** Steps 2 to 5 of [_check_endorser_field_presence]: whether the endorser
    field has to be there. *)
Definition check_endorser_required (request : Request) : res (bool * string) :=
  let idr := identifier request in
  if negb (has_signatures request) then Ok (true, "")
  else
  let has_extra_sigs :=
    bool_decide (1 < length (sig_dict request)) || negb (signed_by request idr) in
  if negb has_extra_sigs then Ok (true, "")
  else
  let! author_role := endorser_get_role idr in
  if role_in author_role NO_NEED_FOR_ENDORSER_ROLES then Ok (true, "")
  else
  let! privileged := has_privileged_sig (signers request) in
  if negb privileged then Ok (true, "")
  else match endorser request with
       | None => Ok (false, "'Endorser' field must be explicitly set for the endorsed transaction")
       | Some _ => Ok (true, "")
       end.

(** Step 1, an endorser other than the author must sign, and the rest.  (The
    source replaces an author role of "" by [None] before the membership test
    of step 3; neither is in the set.) *)
Definition check_endorser_field_presence (request : Request) : res (bool * string) :=
  let other := negb (bool_decide (endorser request = identifier request)) in
  if other && (endorser_truth request && negb (has_signatures request))
  then Ok (false, "Endorser must sign the transaction")
  else if other && (endorser_truth request && negb (signed_by request (endorser request)))
  then Ok (false, "Endorser must sign the transaction")
  else check_endorser_required request.

Definition endorser_authorize (request : Request) : res (bool * string) :=
  let! (ok, reason) := check_endorser_role request in
  if negb ok then Ok (ok, reason) else
  let! (ok, reason) := check_endorser_field_presence request in
  if negb ok then Ok (ok, reason) else Ok (true, "").

(** *** CompositeAuthorizer *)

Inductive authorizer :=
| RolesAuthorizer | EndorserAuthorizer | AndAuthorizer | OrAuthorizer | ForbiddenAuthorizer.

Definition register_authorizer (a : authorizer) (auth_constraint_id : string)
    (authorizers : dict (list authorizer)) : dict (list authorizer) :=
  dset auth_constraint_id
    (match dget auth_constraint_id authorizers with Some l => l | None => [] end ++ [a])
    authorizers.

(** [AndAuthorizer.authorize]: every constraint, the first failure is raised. *)
Definition and_authorize (sub : constraint → res (bool * string)) :
    list constraint → res (bool * string) :=
  fix go (cs : list constraint) : res (bool * string) :=
    match cs with
    | [] => Ok (true, "")
    | c :: cs' =>
        let! (authorized, reason) := sub c in
        if negb authorized then Raise (AuthValidationError reason) else go cs'
    end.

(** [OrAuthorizer.authorize]: all constraints are tried; an
    [AuthValidationError] is recorded, any other exception is not caught. *)
Definition or_loop (sub : constraint → res (bool * string)) :
    list constraint → res (nat * list string) :=
  fix go (cs : list constraint) : res (nat * list string) :=
    match cs with
    | [] => Ok (0, [])
    | c :: cs' =>
        match sub c with
        | Ok _ => let! (successes, fails) := go cs' in Ok (S successes, fails)
        | Raise (AuthValidationError reason) =>
            let! s := str_constraint c in
            let! (successes, fails) := go cs' in
            Ok (successes, ("Constraint: " +:+ s +:+ ", Error: " +:+ reason) :: fails)
        | Raise e => Raise e
        end
    end.

Definition linesep : string := String (Ascii.ascii_of_nat 10) "".

Definition or_authorize (sub : constraint → res (bool * string)) (auth_constraint : constraint)
    (cs : list constraint) : res (bool * string) :=
  let! (successes, fails) := or_loop sub cs in
  match successes with
  | O => let! rule := str_constraint auth_constraint in
         Raise (AuthValidationError
           (py_join linesep ["Rule for this action is: " +:+ rule; "Failed checks:";
                             py_join linesep fails]))
  | S _ => Ok (true, "")
  end.

(** The loop of [CompositeAuthorizer.authorize]. *)
Definition run_authorizers (run : authorizer → res (bool * string)) :
    list authorizer → res (bool * string) :=
  fix go (l : list authorizer) : res (bool * string) :=
    match l with
    | [] => Ok (true, "")
    | a :: l' =>
        let! (authorized, reason) := run a in
        if negb authorized then Raise (AuthValidationError reason) else go l'
    end.

(** [CompositeAuthorizer.authorize] and the authorizers it calls.  An
    authorizer given a constraint without the attribute it reads raises
    [AttributeError]; iterating over [None] is a [TypeError]. *)
Fixpoint authorize (authorizers : dict (list authorizer)) (request : Request)
    (action : AuthAction) (auth_constraint : constraint) {struct auth_constraint}
    : res (bool * string) :=
  match dget (constraint_id auth_constraint) authorizers with
  | None => Raise (TypeError "'NoneType' object is not iterable")
  | Some l =>
      run_authorizers (λ a,
        match a with
        | RolesAuthorizer =>
            match auth_constraint with
            | AuthConstraint r s n o _ => roles_authorize request r s n o action
            | _ => Raise AttributeError
            end
        | EndorserAuthorizer => endorser_authorize request
        | AndAuthorizer =>
            match auth_constraint with
            | AuthConstraintAnd cs | AuthConstraintOr cs =>
                and_authorize (authorize authorizers request action) cs
            | _ => Raise AttributeError
            end
        | OrAuthorizer =>
            match auth_constraint with
            | AuthConstraintAnd cs | AuthConstraintOr cs =>
                or_authorize (authorize authorizers request action) auth_constraint cs
            | _ => Raise AttributeError
            end
        | ForbiddenAuthorizer =>
            let! s := str_constraint auth_constraint in Ok (false, s)
        end) l
  end.

End Authorizers.

(** [WriteRequestValidator.register_default_authorizers] *)
Definition default_authorizers : dict (list authorizer) :=
  register_authorizer ForbiddenAuthorizer FORBIDDEN_CONSTRAINT_ID
    (register_authorizer OrAuthorizer OR_CONSTRAINT_ID
      (register_authorizer AndAuthorizer AND_CONSTRAINT_ID
        (register_authorizer EndorserAuthorizer ROLE_CONSTRAINT_ID
          (register_authorizer RolesAuthorizer ROLE_CONSTRAINT_ID [])))).
