(* ===== verification/AuthorizerSpec.v ===== *)
(** * What the authorizers decide

    An abstract specification of authorization, [satisfies], that says what a
    constraint asks of a request without exceptions, loops or dispatch, and the
    proof that the composite authorizer of [Authorizer] decides it: it returns
    exactly when the constraint is satisfied and raises
    [AuthValidationError], and nothing else, when it is not. *)
From S2P Require Import Prelude PyValue Plenum Constants AuthActions AuthConstraints Authorizer.

(** What the authorizers rely on in the identity cache: a lookup finds a role
    or raises [KeyError]. *)
Class RoleCache (getRole : string → res string) : Prop :=
  role_cache i : (∃ r, getRole i = Ok r) ∨ (∃ k, getRole i = Raise (KeyError k)).

Section Spec.
Context (getRole : string → res string) `{!RoleCache getRole}.

(** The role of an identifier: [None] when it is not on the ledger. *)
Definition role_of (i : string) : option string :=
  match getRole i with Ok r => Some r | Raise _ => None end.

(** [i] has the role a constraint names; an identity owner is stored as the
    empty string, and ["*"] is any role. *)
Definition has_role (i : string) (role : option string) : Prop :=
  match role with
  | None => role_of i = Some ""
  | Some r => if str_eqb r "*" then role_of i ≠ None else role_of i = Some r
  end.

#[export] Instance has_role_dec i role : Decision (has_role i role).
Proof. unfold has_role. destruct role as [r|]; [destruct (str_eqb r "*")|]; apply _. Defined.

(** The number of signatures that count for a role constraint. *)
Definition sig_weight (r : Request) (author : string) (role : option string) (off : bool) : nat :=
  if has_signature r then
    if off || bool_decide (has_role author role) then 1 else 0
  else if bool_decide (role = Some "*") then length (signers r)
  else length (filter (λ i, off = true ∨ has_role i role) (signers r)).

Definition privileged (i : string) : Prop :=
  role_of i = Some ENDORSER ∨ role_of i = Some TRUSTEE ∨ role_of i = Some STEWARD.

(** The transaction is endorsed: somebody besides an unprivileged author
    signed, and among the signers there is a privileged one. *)
Definition endorsed (r : Request) (author : string) : Prop :=
  signers r ≠ [] ∧ (1 < length (signers r) ∨ author ∉ signers r) ∧
  ¬ privileged author ∧ ∃ i, i ∈ signers r ∧ privileged i.

(** A named endorser has the endorser role and has signed, as the author or
    separately; an endorsed transaction names its endorser. *)
Definition endorser_ok (r : Request) (author : string) : Prop :=
  match endorser r with
  | None => ¬ endorsed r author
  | Some e => role_of e = Some ENDORSER ∧ (e = "" ∨ e = author ∨ e ∈ signers r)
  end.

Definition role_satisfied (r : Request) (author : string) (a : AuthAction) (role : option string)
    (n : Z) (owner off : bool) : Prop :=
  (owner = true → action_is_owner a = true) ∧
  ((0 < n)%Z → (off = true ∨ role_of author ≠ None) ∧ (signers r ≠ [] → author ∈ signers r)) ∧
  (n ≤ Z.of_nat (sig_weight r author role off))%Z.

Fixpoint satisfies (r : Request) (author : string) (a : AuthAction) (c : constraint) : Prop :=
  match c with
  | AuthConstraintForbidden => False
  | AuthConstraint role sig_count need_to_be_owner off_ledger_signature _ =>
      ∃ n, sig_count = VInt n ∧
        role_satisfied r author a role n (py_truth need_to_be_owner)
          (py_truth off_ledger_signature) ∧
        endorser_ok r author
  | AuthConstraintAnd cs => foldr (λ c P, satisfies r author a c ∧ P) True cs
  | AuthConstraintOr cs => foldr (λ c P, satisfies r author a c ∨ P) False cs
  end.

(** Constraints whose attributes have the types the message schema fixes. *)
Fixpoint typed_constraint (c : constraint) : Prop :=
  match c with
  | AuthConstraintForbidden => True
  | AuthConstraint role sig_count _ _ metadata =>
      role ∈ accepted_roles ∧ (∃ n, sig_count = VInt n) ∧ (∃ d, metadata = VDict d)
  | AuthConstraintAnd cs | AuthConstraintOr cs =>
      foldr (λ c P, typed_constraint c ∧ P) True cs
  end.

(** ** Lemmas: roles *)

Lemma get_role_of_Some i : get_role_of getRole (Some i) = Ok (role_of i).
Proof.
  unfold get_role_of, role_of.
  destruct (role_cache i) as [[r ->]|[k ->]]; done.
Qed.

Lemma get_role_author r author :
  identifier r = Some author → get_role getRole r = Ok (role_of author).
Proof. intros H. unfold get_role. rewrite H. apply get_role_of_Some. Qed.

Lemma endorser_get_role_Some i : endorser_get_role getRole (Some i) = Ok (role_of i).
Proof. apply get_role_of_Some. Qed.

Lemma accepted_role_cases role :
  role ∈ accepted_roles →
  role = None ∨ role = Some "*" ∨ ∃ x, role = Some x ∧ x ≠ "" ∧ x ≠ "*".
Proof.
  unfold accepted_roles. rewrite !elem_of_cons, elem_of_nil.
  intros [->|[->|[->|[->|[->|[->|[]]]]]]]; eauto; right; right; eexists; done.
Qed.

Lemma is_role_accepted_true i role :
  role ∈ accepted_roles → is_role_accepted (role_of i) role = true ↔ has_role i role.
Proof.
  intros Hrole. unfold is_role_accepted, has_role.
  destruct (accepted_role_cases role Hrole) as [->|[->|(x & -> & Hx & Hx')]];
    destruct (role_of i) as [ri|]; simpl; try done.
  - rewrite orb_false_r, bool_decide_eq_true. destruct (str_eqb ri "") eqn:E.
    + apply str_eqb_eq in E as ->. done.
    + apply str_eqb_neq in E. split; congruence.
  - by rewrite orb_true_r.
  - rewrite (proj2 (str_eqb_neq x "*")), orb_true_iff, !bool_decide_eq_true by done.
    destruct (str_eqb ri "") eqn:E; [apply str_eqb_eq in E as ->|]; naive_solver.
  - by rewrite (proj2 (str_eqb_neq x "*")).
Qed.

Lemma is_role_accepted_spec i role :
  role ∈ accepted_roles → is_role_accepted (role_of i) role = bool_decide (has_role i role).
Proof.
  intros Hrole. apply eq_true_iff_eq. rewrite bool_decide_eq_true.
  by apply is_role_accepted_true.
Qed.

Lemma role_in_privileged i :
  role_in (role_of i) NO_NEED_FOR_ENDORSER_ROLES = true ↔ privileged i.
Proof.
  unfold role_in, privileged, NO_NEED_FOR_ENDORSER_ROLES.
  destruct (role_of i) as [r|]; [|naive_solver].
  rewrite bool_decide_eq_true, !elem_of_cons, elem_of_nil. naive_solver.
Qed.

(** ** Lemmas: counting signatures *)

Lemma count_signers_spec off role idrs :
  role ∈ accepted_roles →
  count_signers getRole off role idrs =
    Ok (Z.of_nat (length (filter (λ i, off = true ∨ has_role i role) idrs))).
Proof.
  intros Hrole. unfold count_signers.
  assert (∀ n, res_fold (λ n idr,
      let! signer_role := get_role_of getRole (Some idr) in
      Ok (if off || is_role_accepted signer_role role then n + 1 else n)%Z) n idrs =
    Ok (n + Z.of_nat (length (filter (λ i, off = true ∨ has_role i role) idrs)))%Z) as Hgen;
    [|by rewrite Hgen].
  induction idrs as [|i idrs IH]; intros n; cbn [res_fold].
  - f_equal. simpl. lia.
  - rewrite get_role_of_Some. cbn [res_bind]. rewrite IH. f_equal.
    rewrite filter_cons, is_role_accepted_spec by done.
    destruct (decide (off = true ∨ has_role i role)) as [[->|H]|H].
    + simpl. lia.
    + rewrite bool_decide_eq_true_2, orb_true_r by done. simpl. lia.
    + rewrite bool_decide_eq_false_2, orb_false_r by naive_solver.
      destruct off; naive_solver lia.
Qed.

Lemma signers_has_signatures r : has_signatures r = true ↔ signers r ≠ [].
Proof.
  unfold has_signatures, signers, sig_dict, dkeys.
  destruct (signatures r) as [[|? ?]|]; simpl; split; done.
Qed.

Lemma get_sig_count_spec r author role off :
  identifier r = Some author → role ∈ accepted_roles →
  get_sig_count getRole r role off = Ok (Z.of_nat (sig_weight r author role (py_truth off))).
Proof.
  intros Hid Hrole. unfold get_sig_count, sig_weight.
  destruct (has_signature r).
  { destruct (py_truth off); [done|]. rewrite Hid, get_role_of_Some. cbn [res_bind].
    rewrite is_role_accepted_spec by done. by case_bool_decide. }
  destruct (has_signatures r) eqn:Hs; simpl.
  - destruct (bool_decide (role = Some "*")).
    + unfold signers, dkeys. by rewrite length_map.
    + by apply count_signers_spec.
  - assert (signers r = []) as ->.
    { destruct (signers r) eqn:E; [done|]. exfalso.
      rewrite (proj2 (signers_has_signatures r)) in Hs; [done|]. by rewrite E. }
    by destruct (bool_decide (role = Some "*")).
Qed.

(** ** Lemmas: the two authorizers of a role constraint

    A verdict [m] decides [P]: [m] is a pair, positive exactly when [P] holds. *)
Definition decides (m : res (bool * string)) (P : Prop) : Prop :=
  (m = Ok (true, "") ∧ P) ∨ (∃ reason, m = Ok (false, reason) ∧ ¬ P).

Lemma decides_false m P reason : m = Ok (false, reason) → ¬ P → decides m P.
Proof. intros. right. eauto. Qed.

Lemma Roles_name_total role :
  role ∈ accepted_roles → role ≠ Some "*" → ∃ n, Roles_name role = Ok n.
Proof.
  unfold accepted_roles. rewrite !elem_of_cons, elem_of_nil.
  intros [->|[->|[->|[->|[->|[->|[]]]]]]] ?; try done; by eexists.
Qed.

Lemma signed_by_author r author :
  identifier r = Some author → signed_by r (identifier r) = bool_decide (author ∈ signers r).
Proof. by intros ->. Qed.

Lemma roles_authorize_spec r author a role n need off :
  identifier r = Some author → role ∈ accepted_roles →
  decides (roles_authorize getRole r role (VInt n) need off a)
    (role_satisfied r author a role n (py_truth need) (py_truth off)).
Proof.
  intros Hid Hrole. unfold roles_authorize, role_satisfied.
  rewrite (get_role_author _ _ Hid). cbn [res_bind].
  unfold is_owner_accepted. destruct (py_truth need && negb (action_is_owner a)) eqn:Howner.
  { apply andb_true_iff in Howner as [Hneed Hown]. apply negb_true_iff in Hown.
    cbn [negb]. destruct (negb (str_eqb (action_field a) "*"));
      (eapply decides_false; [reflexivity|]; intros [H _]; specialize (H Hneed); congruence). }
  cbn [negb]. unfold py_gtb. cbn [py_num res_bind].
  rewrite (signed_by_author _ _ Hid), Hid.
  destruct (Z.ltb 0 n && negb (py_truth off) && bool_decide (role_of author = None)) eqn:H1.
  { rewrite !andb_true_iff, negb_true_iff, bool_decide_eq_true, Z.ltb_lt in H1.
    eapply decides_false; [reflexivity|]. destruct H1 as [[Hn Hoff] Hnone].
    intros (_ & H & _). destruct (H Hn) as [[?|?] _]; congruence. }
  destruct (Z.ltb 0 n && has_signatures r && negb (bool_decide (author ∈ signers r))) eqn:H2.
  { rewrite !andb_true_iff, negb_true_iff, bool_decide_eq_false, Z.ltb_lt,
      signers_has_signatures in H2. eapply decides_false; [reflexivity|].
    destruct H2 as [[Hn Hs] Hin]. intros (_ & H & _). by destruct (H Hn) as [_ H']; apply Hin, H'. }
  unfold is_sig_count_accepted. rewrite (get_sig_count_spec _ _ _ _ Hid Hrole).
  cbn [res_bind py_num].
  destruct (Z.leb n (Z.of_nat (sig_weight r author role (py_truth off)))) eqn:H3; cbn [negb].
  - left. split; [done|]. apply Z.leb_le in H3. repeat split; [| | |done].
    + intros Hneed. rewrite Hneed in Howner. by destruct (action_is_owner a).
    + destruct (py_truth off) eqn:Hoff; [by left|right].
      rewrite (proj2 (Z.ltb_lt 0 n)) in H1 by done. simpl in H1.
      by apply bool_decide_eq_false in H1.
    + intros Hs. apply signers_has_signatures in Hs.
      rewrite (proj2 (Z.ltb_lt 0 n)), Hs in H2 by done. simpl in H2.
      by apply negb_false_iff, bool_decide_eq_true in H2.
  - apply Z.leb_gt in H3. clear H1 H2. case_bool_decide as Hstar.
    + eapply decides_false; [reflexivity|]. intros (_ & _ & ?). lia.
    + destruct (Roles_name_total role Hrole Hstar) as [nm ->]. cbn [res_bind].
      eapply decides_false; [reflexivity|]. intros (_ & _ & ?). lia.
Qed.

Lemma has_privileged_sig_spec idrs :
  ∃ b, has_privileged_sig getRole idrs = Ok b ∧ (b = true ↔ ∃ i, i ∈ idrs ∧ privileged i).
Proof.
  induction idrs as [|i idrs (b & IH & Hb)]; cbn [has_privileged_sig].
  { exists false. split; [done|]. split; [done|]. intros (? & []%not_elem_of_nil & _). }
  rewrite endorser_get_role_Some. cbn [res_bind].
  destruct (role_in (role_of i) NO_NEED_FOR_ENDORSER_ROLES) eqn:E.
  - exists true. split; [done|]. split; [|done]. intros _.
    exists i. split; [by left|by apply role_in_privileged].
  - exists b. split; [done|]. rewrite Hb. split.
    + intros (j & ? & ?). exists j. split; [by right|done].
    + intros (j & [->|Hj]%elem_of_cons & Hp); [|by exists j].
      apply role_in_privileged in Hp. congruence.
Qed.

Lemma check_endorser_role_spec r :
  decides (check_endorser_role getRole r)
    (match endorser r with Some e => role_of e = Some ENDORSER | None => True end).
Proof.
  unfold check_endorser_role. destruct (endorser r) as [e|]; [|by left].
  rewrite endorser_get_role_Some. cbn [res_bind]. unfold role_in, ENDORSER_ROLES.
  destruct (role_of e) as [re|]; [|by eapply decides_false].
  case_bool_decide as H; cbn [negb].
  - left. split; [done|]. set_solver.
  - eapply decides_false; [reflexivity|]. set_solver.
Qed.

Lemma str_truth_iff s : str_truth s = true ↔ s ≠ "".
Proof. unfold str_truth. rewrite negb_true_iff. apply str_eqb_neq. Qed.

(** The signature half of the endorser rule. *)
Lemma endorser_sign_spec r author :
  identifier r = Some author →
  (match endorser r with
   | Some e => e = "" ∨ e = author ∨ e ∈ signers r
   | None => True end) ↔
  negb (bool_decide (endorser r = identifier r)) &&
    (endorser_truth r && negb (signed_by r (endorser r))) = false.
Proof.
  intros ->. unfold endorser_truth, signed_by. destruct (endorser r) as [e|]; simpl; [|done].
  rewrite !andb_false_iff, !negb_false_iff, !bool_decide_eq_true.
  destruct (str_truth e) eqn:E.
  - apply str_truth_iff in E. naive_solver.
  - assert (e = "") as -> by (destruct (decide (e = "")); [done|];
      apply str_truth_iff in n; congruence). naive_solver.
Qed.

Lemma no_sigs_not_signed r i : has_signatures r = false → signed_by r i = false.
Proof.
  intros H. unfold signed_by. destruct i as [i|]; [|done].
  apply bool_decide_eq_false. intros Hi.
  rewrite (proj2 (signers_has_signatures r)) in H; [done|]. by intros E; rewrite E in Hi; inversion Hi.
Qed.

Definition sign_part (r : Request) (author : string) : Prop :=
  match endorser r with
  | Some e => e = "" ∨ e = author ∨ e ∈ signers r
  | None => True
  end.

Lemma decides_true P : P → decides (Ok (true, "")) P.
Proof. by left. Qed.

Lemma endorser_required_spec r author :
  identifier r = Some author →
  decides (check_endorser_required getRole r) (endorser r = None → ¬ endorsed r author).
Proof.
  intros Hid. unfold check_endorser_required. cbn zeta.
  destruct (has_signatures r) eqn:Hs; cbn [negb].
  2: { apply decides_true. intros _ [Hne _]. apply signers_has_signatures in Hne. congruence. }
  rewrite (signed_by_author _ _ Hid), Hid, endorser_get_role_Some. cbn [res_bind].
  assert (length (sig_dict r) = length (signers r)) as -> by (unfold signers, dkeys; by rewrite length_map).
  destruct (bool_decide (1 < length (signers r)) || negb (bool_decide (author ∈ signers r)))
    eqn:Hextra; cbn [negb].
  2: { apply decides_true. intros _ (_ & [?|?] & _);
       apply orb_false_iff in Hextra as [H1 H2]; [by apply bool_decide_eq_false in H1|].
       by apply negb_false_iff, bool_decide_eq_true in H2. }
  destruct (role_in (role_of author) NO_NEED_FOR_ENDORSER_ROLES) eqn:Hpriv.
  { apply decides_true. intros _ (_ & _ & Hnp & _). by apply Hnp, role_in_privileged. }
  destruct (has_privileged_sig_spec (signers r)) as (b & -> & Hb). cbn [res_bind].
  destruct b; cbn [negb].
  2: { apply decides_true. intros _ (_ & _ & _ & Hex). by apply Hb in Hex. }
  destruct (endorser r); [by apply decides_true|].
  eapply decides_false; [reflexivity|]. intros H. apply H; [done|]. repeat split.
  - by apply signers_has_signatures.
  - apply orb_true_iff in Hextra as [?%bool_decide_eq_true|Hn]; [by left|right].
    by apply negb_true_iff, bool_decide_eq_false in Hn.
  - intros Hp%role_in_privileged. congruence.
  - by apply Hb.
Qed.

Lemma field_presence_spec r author :
  identifier r = Some author →
  decides (check_endorser_field_presence getRole r)
    (sign_part r author ∧ (endorser r = None → ¬ endorsed r author)).
Proof.
  intros Hid. unfold check_endorser_field_presence. cbn zeta.
  pose proof (endorser_sign_spec r author Hid) as Hsign. fold (sign_part r author) in Hsign.
  destruct (_ && (endorser_truth r && negb (has_signatures r))) eqn:H1.
  { eapply decides_false; [reflexivity|]. intros [H _]. apply Hsign in H.
    rewrite !andb_true_iff, negb_true_iff in H1. destruct H1 as (H1 & H2 & H3%negb_true_iff).
    rewrite H2, (no_sigs_not_signed _ _ H3) in H. by rewrite H1 in H. }
  destruct (_ && (endorser_truth r && negb (signed_by r (endorser r)))) eqn:H2.
  { eapply decides_false; [reflexivity|]. intros [H _]. apply Hsign in H. congruence. }
  destruct (endorser_required_spec r author Hid) as [[-> H]|(reason & -> & H)].
  - apply decides_true. split; [by apply Hsign|done].
  - eapply decides_false; [reflexivity|]. by intros [_ ?].
Qed.

Lemma endorser_authorize_spec r author :
  identifier r = Some author →
  decides (endorser_authorize getRole r) (endorser_ok r author).
Proof.
  intros Hid. unfold endorser_authorize, endorser_ok.
  destruct (check_endorser_role_spec r) as [[-> H]|(reason & -> & H)]; cbn [res_bind negb].
  - destruct (field_presence_spec r author Hid) as [[-> [Hs H']]|(reason & -> & H')];
      cbn [res_bind negb]; unfold sign_part in *.
    + apply decides_true. destruct (endorser r); [done|by apply H'].
    + eapply decides_false; [reflexivity|]. destruct (endorser r); naive_solver.
  - eapply decides_false; [reflexivity|]. destruct (endorser r); naive_solver.
Qed.

(** ** The composite *)

(** Constraints with typed attributes have a text. *)
Lemma str_constraint_total c : typed_constraint c → ∃ s, str_constraint c = Ok s.
Proof.
  induction c as [|r sc n o m|cs IH|cs IH] using constraint_ind'; cbn [typed_constraint].
  - by eexists.
  - intros (_ & [z ->] & [d ->]). cbn [str_constraint]. unfold role_str. cbn [py_num res_bind].
    unfold metadata_str. destruct (negb (py_truth (VDict d))); cbn [res_bind]; by eexists.
  - intros H. destruct (res_mapM_total str_constraint cs) as [ss Hss].
    { clear -IH H. induction IH; constructor; simpl in H; [tauto|apply IHIH; tauto]. }
    cbn [str_constraint]. rewrite Hss. by eexists.
  - intros H. destruct (res_mapM_total str_constraint cs) as [ss Hss].
    { clear -IH H. induction IH; constructor; simpl in H; [tauto|apply IHIH; tauto]. }
    cbn [str_constraint]. rewrite Hss. by eexists.
Qed.

(** An authorization [m] decides [P]: it returns when [P] holds and raises
    [AuthValidationError] when it does not. *)
Definition grants (m : res (bool * string)) (P : Prop) : Prop :=
  (m = Ok (true, "") ∧ P) ∨ (∃ reason, m = Raise (AuthValidationError reason) ∧ ¬ P).

Lemma and_authorize_spec sub (P : constraint → Prop) cs :
  Forall (λ c, grants (sub c) (P c)) cs →
  grants (and_authorize sub cs) (foldr (λ c Q, P c ∧ Q) True cs).
Proof.
  induction 1 as [|c cs Hc _ IH]; cbn [and_authorize foldr]; [by left|].
  destruct Hc as [[-> Hc]|(reason & -> & Hc)]; cbn [res_bind negb].
  - destruct IH as [[-> IH]|(reason & -> & IH)]; [left; tauto|right].
    eexists. split; [reflexivity|tauto].
  - right. eexists. split; [reflexivity|tauto].
Qed.

Lemma or_loop_spec sub (P : constraint → Prop) cs :
  Forall (λ c, grants (sub c) (P c)) cs → Forall typed_constraint cs →
  ∃ n fails, or_loop sub cs = Ok (n, fails) ∧ (0 < n ↔ foldr (λ c Q, P c ∨ Q) False cs).
Proof.
  induction 1 as [|c cs Hc _ IH]; intros Hty; cbn [or_loop foldr].
  { exists 0, []. split; [done|]. split; [lia|done]. }
  apply Forall_cons in Hty as [Hty Htys]. destruct (IH Htys) as (n & fails & -> & Hn).
  destruct (str_constraint_total c Hty) as [s ->].
  destruct Hc as [[-> Hc]|(reason & -> & Hc)]; cbn [res_bind].
  - exists (S n), fails. split; [done|]. split; [tauto|lia].
  - eexists n, _. split; [reflexivity|]. rewrite Hn. tauto.
Qed.

Lemma or_authorize_spec sub (P : constraint → Prop) c cs :
  Forall (λ c, grants (sub c) (P c)) cs → Forall typed_constraint cs → typed_constraint c →
  grants (or_authorize sub c cs) (foldr (λ c Q, P c ∨ Q) False cs).
Proof.
  intros Hcs Hty Hc. unfold or_authorize.
  destruct (or_loop_spec sub P cs Hcs Hty) as (n & fails & -> & Hn). cbn [res_bind].
  destruct n as [|n].
  - destruct (str_constraint_total c Hc) as [s ->]. cbn [res_bind].
    right. eexists. split; [reflexivity|]. rewrite <- Hn. lia.
  - left. split; [done|]. apply Hn. lia.
Qed.

(** A single authorizer's verdict, raised by the composite. *)
Lemma run_one_spec run a P :
  grants (run a) P → grants (run_authorizers run [a]) P.
Proof.
  intros [[H HP]|(reason & H & HP)]; cbn [run_authorizers]; rewrite H; [by left|right; eauto].
Qed.

Lemma typed_all cs :
  foldr (λ c P, typed_constraint c ∧ P) True cs ↔ Forall typed_constraint cs.
Proof. induction cs as [|c cs IH]; simpl; [done|]. by rewrite Forall_cons, IH. Qed.

Lemma authorize_grants r author a c :
  identifier r = Some author → typed_constraint c →
  grants (authorize getRole default_authorizers r a c) (satisfies r author a c).
Proof.
  intros Hid. induction c as [|role sc n o m|cs IH|cs IH] using constraint_ind'; intros Hty.
  - right. eexists. split; [reflexivity|]. intros [].
  - destruct Hty as (Hrole & [z ->] & _).
    change (authorize getRole default_authorizers r a (AuthConstraint role (VInt z) n o m))
      with (run_authorizers (λ x, match x with
        | RolesAuthorizer => roles_authorize getRole r role (VInt z) n o a
        | EndorserAuthorizer => endorser_authorize getRole r
        | AndAuthorizer | OrAuthorizer => Raise AttributeError
        | ForbiddenAuthorizer => let! s := str_constraint (AuthConstraint role (VInt z) n o m) in
                                 Ok (false, s) end) [RolesAuthorizer; EndorserAuthorizer]).
    cbn [run_authorizers satisfies].
    destruct (roles_authorize_spec r author a role z n o Hid Hrole) as [[-> H1]|(rs & -> & H1)];
      cbn [res_bind negb].
    + destruct (endorser_authorize_spec r author Hid) as [[-> H2]|(rs & -> & H2)];
        cbn [res_bind negb]; [left; eauto|right].
      eexists. split; [reflexivity|]. intros (? & _ & _ & ?). done.
    + right. eexists. split; [reflexivity|]. intros (? & [= <-] & ? & _). done.
  - apply (run_one_spec _ AndAuthorizer). apply and_authorize_spec.
    apply typed_all in Hty. by apply (Forall_mp _ _ _ IH Hty).
  - apply (run_one_spec _ OrAuthorizer). apply or_authorize_spec; [|by apply typed_all|done].
    apply typed_all in Hty. by apply (Forall_mp _ _ _ IH Hty).
Qed.

(** ** Consequences of a satisfied role constraint *)

(** Somebody whose role [role] accepts stands behind the request: the author of
    a single signature, or one of the signers. *)
Definition signed_with_role (r : Request) (author : string) (role : option string) : Prop :=
  if has_signature r then has_role author role
  else ∃ i, i ∈ signers r ∧ has_role i role.

Lemma sig_weight_pos r author role :
  role ≠ Some "*" → (1 ≤ sig_weight r author role false)%nat → signed_with_role r author role.
Proof.
  intros Hr. unfold sig_weight, signed_with_role.
  destruct (has_signature r); cbn [orb].
  - case_bool_decide; [done|lia].
  - rewrite bool_decide_eq_false_2 by done. intros H.
    destruct (filter _ (signers r)) as [|i l] eqn:E; [simpl in H; lia|].
    assert (i ∈ filter (λ i, false = true ∨ has_role i role) (signers r)) as Hi
      by (rewrite E; by left).
    apply list_elem_of_filter in Hi as [[?|?] ?]; [done|]. eauto.
Qed.

Lemma satisfies_role_signed r author a role n owner m :
  role ≠ Some "*" → (0 < n)%Z →
  satisfies r author a (AuthConstraint role (VInt n) owner VNone m) →
  signed_with_role r author role ∧ (py_truth owner = true → action_is_owner a = true).
Proof.
  intros Hr Hn (z & [= <-] & (Ho & _ & Hw) & _). split; [|done].
  apply sig_weight_pos; [done|]. simpl in Hw. lia.
Qed.

(** The signers that count towards a quorum. *)
Lemma quorum_voters r author role n off :
  has_signature r = false → NoDup (signers r) → role ≠ Some "*" →
  (n ≤ Z.of_nat (sig_weight r author role off))%Z → off = false →
  ∃ voters, NoDup voters ∧ (n ≤ Z.of_nat (length voters))%Z ∧
    ∀ i, i ∈ voters → i ∈ signers r ∧ has_role i role.
Proof.
  intros Hsig Hnd Hstar Hw ->. unfold sig_weight in Hw. rewrite Hsig, bool_decide_eq_false_2 in Hw by done.
  exists (filter (λ i, false = true ∨ has_role i role) (signers r)).
  split; [by apply NoDup_filter|]. split; [done|]. intros i [[?|?] ?]%list_elem_of_filter; done.
Qed.

End Spec.

(** ** Properties *)

(** C1. The composite authorizer decides the specification: on a request with
    an author and a constraint with typed attributes it returns exactly when
    the constraint tree is satisfied, and otherwise raises
    [AuthValidationError] and no other exception. *)
Theorem authorize_correct getRole `{!RoleCache getRole} r author a c :
  identifier r = Some author → typed_constraint c →
  (authorize getRole default_authorizers r a c = Ok (true, "") ↔ satisfies getRole r author a c) ∧
  (¬ satisfies getRole r author a c →
   ∃ reason, authorize getRole default_authorizers r a c = Raise (AuthValidationError reason)).
Proof.
  intros Hid Hc. destruct (authorize_grants getRole r author a c Hid Hc)
    as [[-> H]|(reason & -> & H)]; split; [done|done| |by eauto].
  split; [discriminate|done].
Qed.

(** Roles of a small ledger, for the witnesses. *)
Definition small_ledger (i : string) : res string :=
  if str_eqb i "T1" || str_eqb i "T2" then Ok TRUSTEE
  else if str_eqb i "S" then Ok STEWARD
  else if str_eqb i "E" then Ok ENDORSER
  else if str_eqb i "O" then Ok ""
  else Raise (KeyError i).

#[export] Instance small_ledger_cache : RoleCache small_ledger.
Proof.
  intros i. unfold small_ledger.
  destruct (str_eqb i "T1" || _); [eauto|]. destruct (str_eqb i "S"); [eauto|].
  destruct (str_eqb i "E"); [eauto|]. destruct (str_eqb i "O"); eauto.
Qed.

Definition signed_request (author : string) (sigs : list string) (endorser : option string) : Request :=
  mkRequest (Some author) (Some 1%Z) [] None (Some (map (λ i, (i, "sig")) sigs)) endorser.

(** Two trustees are asked for, and one signs. *)
Lemma authorize_correct_witness :
  ∃ reason, authorize small_ledger default_authorizers (signed_request "T1" ["T1"; "O"] None)
    (ActionAdd "1" "role" "0" true) (RoleConstraint (Some TRUSTEE) 2 false) =
    Raise (AuthValidationError reason).
Proof.
  apply (authorize_correct small_ledger (signed_request "T1" ["T1"; "O"] None) "T1"
    (ActionAdd "1" "role" "0" true) (RoleConstraint (Some TRUSTEE) 2 false)).
  - reflexivity.
  - simpl. split; [unfold accepted_roles; set_solver|eauto].
  - intros (n & [= <-] & (_ & _ & H) & _). apply H. reflexivity.
Defined.

(** Quorum: when a role constraint for [n] signatures of a role other than
    the wildcard lets a multi-signed request pass, at least [n] different
    identifiers of that role have signed it, the author among the signers. *)
Theorem role_quorum getRole `{!RoleCache getRole} r author a role n owner m d :
  identifier r = Some author → has_signature r = false → NoDup (signers r) →
  role ∈ accepted_roles → role ≠ Some "*" → (0 < n)%Z →
  authorize getRole default_authorizers r a
    (AuthConstraint role (VInt n) owner VNone (VDict m)) = Ok d →
  ∃ voters, NoDup voters ∧ (n ≤ Z.of_nat (length voters))%Z ∧ author ∈ signers r ∧
    ∀ i, i ∈ voters → i ∈ signers r ∧ has_role getRole i role.
Proof.
  intros Hid Hsig Hnd Hrole Hstar Hn Hauth.
  destruct (authorize_grants getRole r author a
    (AuthConstraint role (VInt n) owner VNone (VDict m)) Hid) as [[_ H]|(? & H & _)];
    [simpl; eauto| |congruence].
  destruct H as (z & [= <-] & (_ & Hau & Hw) & _).
  destruct (quorum_voters getRole r author role n _ Hsig Hnd Hstar Hw eq_refl) as (vs & H1 & H2 & H3).
  exists vs. repeat split; [done..| |apply H3; done|apply H3; done].
  apply Hau; [done|]. intros E. destruct vs as [|i vs]; [simpl in H2; lia|].
  destruct (H3 i) as [Hi _]; [by left|]. rewrite E in Hi. by apply not_elem_of_nil in Hi.
Qed.

Lemma role_quorum_witness :
  ∃ voters, NoDup voters ∧ (2 ≤ Z.of_nat (length voters))%Z ∧ "T1" ∈ ["T1"; "O"; "T2"] ∧
    ∀ i, i ∈ voters → i ∈ ["T1"; "O"; "T2"] ∧ has_role small_ledger i (Some TRUSTEE).
Proof.
  apply (role_quorum small_ledger (signed_request "T1" ["T1"; "O"; "T2"] None) "T1"
    (ActionAdd "1" "role" "0" true) (Some TRUSTEE) 2 (VBool false) [] (true, "")).
  - reflexivity.
  - reflexivity.
  - apply (bool_decide_unpack _). reflexivity.
  - apply (bool_decide_unpack _). reflexivity.
  - discriminate.
  - lia.
  - vm_compute. reflexivity.
Defined.

(** The wildcard role counts every signature: a request of a ledger author
    passes a constraint of [n] signatures of any role, off-ledger signatures
    not admitted, even when none of the other signers is on the ledger. *)
Theorem wildcard_counts_unknown_signers getRole `{!RoleCache getRole} r author a n m :
  identifier r = Some author → has_signature r = false → endorser r = None →
  author ∈ signers r → role_of getRole author ≠ None → ¬ privileged getRole author →
  (∀ i, i ∈ signers r → i ≠ author → role_of getRole i = None) →
  (0 < n ≤ Z.of_nat (length (signers r)))%Z →
  authorize getRole default_authorizers r a
    (AuthConstraint (Some "*") (VInt n) (VBool false) (VBool false) (VDict m)) = Ok (true, "").
Proof.
  intros Hid Hsig He Hin Hrole Hnp Hoff Hn.
  destruct (authorize_grants getRole r author a
    (AuthConstraint (Some "*") (VInt n) (VBool false) (VBool false) (VDict m)) Hid)
    as [[-> _]|(? & _ & H)]; [simpl; split; [unfold accepted_roles; set_solver|eauto]|done|].
  exfalso. apply H. exists n. split; [done|]. split.
  - split; [done|]. split; [by intros _; split; [right|]|].
    unfold sig_weight. rewrite Hsig. simpl. lia.
  - unfold endorser_ok. rewrite He. intros (_ & _ & _ & i & Hi & Hp).
    destruct (decide (i = author)) as [->|Hne]; [done|].
    specialize (Hoff i Hi Hne). unfold privileged in Hp. rewrite Hoff in Hp. naive_solver.
Qed.

Lemma wildcard_counts_unknown_signers_witness :
  authorize small_ledger default_authorizers (signed_request "O" ["O"; "X"; "Y"] None)
    (ActionAdd "101" "*" "*" true)
    (AuthConstraint (Some "*") (VInt 3) (VBool false) (VBool false) (VDict [])) = Ok (true, "").
Proof.
  apply (wildcard_counts_unknown_signers small_ledger
    (signed_request "O" ["O"; "X"; "Y"] None) "O" (ActionAdd "101" "*" "*" true) 3 []).
  - reflexivity.
  - reflexivity.
  - reflexivity.
  - apply (bool_decide_unpack _). reflexivity.
  - discriminate.
  - intros [H|[H|H]]; discriminate H.
  - unfold signers, sig_dict, dkeys. simpl. intros i Hi Hne. rewrite !elem_of_cons, elem_of_nil in Hi.
    destruct Hi as [->|[->|[->|[]]]]; [done|reflexivity..].
  - simpl. lia.
Defined.
