(* ===== verification/AuthStrategy.v ===== *)
(** * Finding the constraint for an action

    [indy_common/authorize/auth_cons_strategies.py] and
    [indy_common/state/config.py]: an action identifier is matched against the
    keys of the authorization map, field by field with ["*"] as a wildcard of
    the key; the constraint is the map's or, with the config ledger policy, the
    one stored in the config state for that key.  [WriteRequestValidator] of
    [auth_request_validator.py] authorizes a request with the constraint found. *)
From S2P Require Import Prelude PyValue Plenum Constants AuthActions AuthConstraints Authorizer AuthorizerSpec.

(** [AbstractAuthStrategy.is_accepted_action_id] *)
Definition is_accepted_action_id (from_auth_map from_req : string) : res bool :=
  let! am := split_action_id from_auth_map in
  let! r := split_action_id from_req in
  if negb (str_eqb (ad_prefix r) (ad_prefix am)) then Ok false
  else if negb (str_eqb (ad_txn_type r) (ad_txn_type am)) then Ok false
  else if negb (str_eqb (ad_field r) (ad_field am)) && negb (str_eqb (ad_field am) "*")
  then Ok false
  else if negb (str_eqb (ad_old_value r) (ad_old_value am)) && negb (str_eqb (ad_old_value am) "*")
  then Ok false
  else if negb (str_eqb (ad_new_value r) (ad_new_value am)) && negb (str_eqb (ad_new_value am) "*")
  then Ok false
  else Ok true.

(** [_find_auth_constraint_key]: the first key of the map that accepts the action. *)
Fixpoint find_auth_constraint_key (action_id : string) (keys : list string)
    : res (option string) :=
  match keys with
  | [] => Ok None
  | am_id :: keys' =>
      let! accepted := is_accepted_action_id am_id action_id in
      if accepted then Ok (Some am_id) else find_auth_constraint_key action_id keys'
  end.

(** [LocalAuthStrategy.get_auth_constraint] *)
Definition local_get_auth_constraint (auth_map : dict constraint) (action_id : string)
    : res (option constraint) :=
  let! am_id := find_auth_constraint_key action_id (dkeys auth_map) in
  Ok match am_id with Some k => dget k auth_map | None => None end.

Definition MARKER_AUTH_RULE : string := "1".

Definition make_state_path_for_auth_rule (action_id : string) : string :=
  MARKER_AUTH_RULE +:+ ":" +:+ action_id.

Inductive Strategy := LocalAuthStrategy | ConfigLedgerAuthStrategy.

Definition LOCAL_AUTH_POLICY : Z := 1.
Definition CONFIG_LEDGER_AUTH_POLICY : Z := 2.

(** [WriteRequestValidator.create_auth_strategy]; other policies have no strategy. *)
Definition create_auth_strategy (authPolicy : Z) : option Strategy :=
  if Z.eqb authPolicy LOCAL_AUTH_POLICY then Some LocalAuthStrategy
  else if Z.eqb authPolicy CONFIG_LEDGER_AUTH_POLICY then Some ConfigLedgerAuthStrategy
  else None.

Section Strategy.
Context {bytes St : Type} `{!Serializer bytes} `{!State bytes St}.

(** [ConfigLedgerAuthStrategy.get_from_state] *)
Definition get_from_state (state : St) (key : string) : res (option constraint) :=
  match st_get state key with
  | None => Ok None
  | Some b => if bytes_truth b then let! c := deserialize_constraint b in Ok (Some c)
              else Ok None
  end.

(** [ConfigLedgerAuthStrategy._find_auth_constraint].  The second component is
    [from_state_count], counted when metrics are collected. *)
Definition ledger_get_auth_constraint (auth_map : dict constraint) (state : St) (metrics : bool)
    (from_state_count : nat) (action_id : string) : res (option constraint * nat) :=
  let! am_id := find_auth_constraint_key action_id (dkeys auth_map) in
  match am_id with
  | None => Ok (None, from_state_count)
  | Some k =>
      if negb (str_truth k) then Ok (None, from_state_count) else
      let! found := get_from_state state (make_state_path_for_auth_rule k) in
      match found with
      | None => Ok (dget k auth_map, from_state_count)
      | Some c => Ok (Some c, if metrics then S from_state_count else from_state_count)
      end
  end.

(** ** WriteRequestValidator *)

Record WriteRequestValidator := {
  wrv_auth_map : dict constraint;
  wrv_strategy : option Strategy;
  wrv_config_state : St;
  wrv_metrics : bool;
  wrv_from_state_count : nat;
  wrv_authorizers : dict (list authorizer)
}.

Definition set_from_state_count (v : WriteRequestValidator) (n : nat) : WriteRequestValidator :=
  {| wrv_auth_map := wrv_auth_map v; wrv_strategy := wrv_strategy v;
     wrv_config_state := wrv_config_state v; wrv_metrics := wrv_metrics v;
     wrv_from_state_count := n; wrv_authorizers := wrv_authorizers v |}.

(** [WriteRequestValidator.__init__] *)
Definition new_WriteRequestValidator (authPolicy : Z) (auth_map : dict constraint) (config_state : St)
    (metrics : bool) : WriteRequestValidator :=
  {| wrv_auth_map := auth_map; wrv_strategy := create_auth_strategy authPolicy;
     wrv_config_state := config_state; wrv_metrics := metrics; wrv_from_state_count := 0;
     wrv_authorizers := default_authorizers |}.

(** [self.auth_cons_strategy.get_auth_constraint(action_id)] *)
Definition get_auth_constraint (v : WriteRequestValidator) (action_id : string)
    : res (option constraint * nat) :=
  match wrv_strategy v with
  | None => Raise AttributeError
  | Some LocalAuthStrategy =>
      let! c := local_get_auth_constraint (wrv_auth_map v) action_id in
      Ok (c, wrv_from_state_count v)
  | Some ConfigLedgerAuthStrategy =>
      ledger_get_auth_constraint (wrv_auth_map v) (wrv_config_state v) (wrv_metrics v)
        (wrv_from_state_count v) action_id
  end.

Context (getRole : string → res string) (str_request : Request → string).

(** [WriteRequestValidator.validate].  The loop over the actions returns or
    raises in its first round; an empty list falls through and returns [None].
    [str_request] is plenum's text of a request. *)
Definition validate (v : WriteRequestValidator) (request : Request) (action_list : list AuthAction)
    : res (option bool * WriteRequestValidator) :=
  match action_list with
  | [] => Ok (None, v)
  | action :: _ =>
      let! (auth_constraint, count) := get_auth_constraint v (get_action_id action) in
      let v' := set_from_state_count v count in
      match auth_constraint with
      | Some c =>
          match authorize getRole (wrv_authorizers v') request action c with
          | Ok _ => Ok (Some true, v')
          | Raise (AuthValidationError reason) =>
              Raise (UnauthorizedClientRequest (identifier request) (reqId request) reason)
          | Raise e => Raise e
          end
      | None =>
          Raise (UnauthorizedClientRequest (identifier request) (reqId request)
            ("Request can not be authorized as action is not allowed: " +:+ str_request request))
      end
  end.
End Strategy.

(** ** Structured lookup

    The same search without strings: a pattern is an action definition in which
    ["*"] matches any field, old value or new value. *)
Definition field_matches (pattern value : string) : bool :=
  str_eqb value pattern || str_eqb pattern "*".

Definition def_matches (am r : ActionDef) : bool :=
  str_eqb (ad_prefix r) (ad_prefix am) && str_eqb (ad_txn_type r) (ad_txn_type am) &&
  field_matches (ad_field am) (ad_field r) &&
  field_matches (ad_old_value am) (ad_old_value r) &&
  field_matches (ad_new_value am) (ad_new_value r).

Fixpoint lookup_rule {C} (rules : list (ActionDef * C)) (r : ActionDef) : option C :=
  match rules with
  | [] => None
  | (am, c) :: rules' => if def_matches am r then Some c else lookup_rule rules' r
  end.

(** The rules a map stands for, when each key is the name of an action. *)
Definition rules_of (m : dict constraint) : option (list (ActionDef * constraint)) :=
  mapM (λ kc, match split_action_id kc.1 with Ok am => Some (am, kc.2) | Raise _ => None end) m.

(** ** Lemmas *)

Lemma is_accepted_matches a b A B :
  split_action_id a = Ok A → split_action_id b = Ok B →
  is_accepted_action_id a b = Ok (def_matches A B).
Proof.
  intros HA HB. unfold is_accepted_action_id, def_matches, field_matches.
  rewrite HA, HB. cbn [res_bind].
  repeat (destruct (str_eqb _ _); cbn [negb andb orb]; try done).
Qed.

(** Over the keys of a map the search by strings is the structured search. *)
Lemma find_key_rules m rules b B :
  rules_of m = Some rules → split_action_id b = Ok B → NoDup (dkeys m) →
  ∃ k, find_auth_constraint_key b (dkeys m) = Ok k ∧
       match k with Some k => dget k m | None => None end = lookup_rule rules B ∧
       (∀ k', k = Some k' → k' ∈ dkeys m).
Proof.
  intros Hr HB. revert rules Hr.
  induction m as [|[k c] m IH]; intros rules Hr Hnd; unfold rules_of in Hr; simpl in Hr.
  { injection Hr as <-. exists None. done. }
  destruct (split_action_id k) as [am|] eqn:Ek; [|done]. simpl in Hr.
  destruct (mapM _ m) as [rs|] eqn:Em; [|done]. simpl in Hr. injection Hr as <-.
  cbn [dkeys map find_auth_constraint_key lookup_rule fst].
  rewrite (is_accepted_matches _ _ _ _ Ek HB). cbn [res_bind].
  destruct (def_matches am B).
  - exists (Some k). simpl. rewrite str_eqb_refl. repeat split.
    intros ? [= <-]. by left.
  - apply NoDup_cons in Hnd as [Hk Hnd].
    destruct (IH rs Em Hnd) as (k0 & Hfind & Hk0 & Hin). unfold dkeys in Hfind, Hin.
    rewrite Hfind. exists k0. split; [done|]. split.
    + rewrite <- Hk0. destruct k0 as [k0|]; [|done]. simpl.
      rewrite (proj2 (str_eqb_neq k0 k)); [done|]. intros ->. by apply Hk, Hin.
    + intros k' ->. right. by apply Hin.
Qed.

Lemma local_lookup_rules m rules a :
  rules_of m = Some rules → NoDup (dkeys m) → action_clean a = true →
  local_get_auth_constraint m (get_action_id a) = Ok (lookup_rule rules (action_def a)).
Proof.
  intros Hr Hnd Ha. unfold local_get_auth_constraint.
  destruct (find_key_rules m rules _ _ Hr (split_action_clean _ Ha) Hnd) as (k & -> & Hk & _).
  cbn [res_bind]. by rewrite Hk.
Qed.

(** A constraint that is found belongs to a rule that matches. *)
Lemma lookup_rule_elem {C} (rules : list (ActionDef * C)) r c :
  lookup_rule rules r = Some c → ∃ am, (am, c) ∈ rules ∧ def_matches am r = true.
Proof.
  induction rules as [|[am c'] rules IH]; simpl; [done|].
  destruct (def_matches am r) eqn:E.
  - intros [= ->]. exists am. split; [by left|done].
  - intros (am' & ? & ?)%IH. exists am'. split; [by right|done].
Qed.

Lemma def_matches_true am r :
  def_matches am r = true →
  ad_prefix r = ad_prefix am ∧ ad_txn_type r = ad_txn_type am ∧
  (ad_field r = ad_field am ∨ ad_field am = "*") ∧
  (ad_old_value r = ad_old_value am ∨ ad_old_value am = "*") ∧
  (ad_new_value r = ad_new_value am ∨ ad_new_value am = "*").
Proof.
  unfold def_matches, field_matches. rewrite !andb_true_iff, !orb_true_iff, !str_eqb_eq. tauto.
Qed.

Section validate_lemmas.
Context {bytes St : Type} `{!Serializer bytes} `{!State bytes St}.
Context (getRole : string → res string) (str_request : Request → string).

Definition unauthorized (r : Request) (reason : string) : exn :=
  UnauthorizedClientRequest (identifier r) (reqId r) reason.

(** The answer of a validator once the constraint is known. *)
Definition verdict (r : Request) (a : AuthAction) (c : option constraint) : res bool :=
  match c with
  | None => Raise (unauthorized r
      ("Request can not be authorized as action is not allowed: " +:+ str_request r))
  | Some c => match authorize getRole default_authorizers r a c with
              | Ok _ => Ok true
              | Raise (AuthValidationError reason) => Raise (unauthorized r reason)
              | Raise e => Raise e
              end
  end.

Definition new_validator (authPolicy : Z) (m : dict constraint) (state : St) (metrics : bool) :=
  new_WriteRequestValidator authPolicy m state metrics.

Lemma validate_local m rules (state : St) metrics r a rest :
  rules_of m = Some rules → NoDup (dkeys m) → action_clean a = true →
  validate getRole str_request (new_validator LOCAL_AUTH_POLICY m state metrics) r (a :: rest) =
    let! b := verdict r a (lookup_rule rules (action_def a)) in
    Ok (Some b, new_validator LOCAL_AUTH_POLICY m state metrics).
Proof.
  intros Hr Hnd Ha. unfold validate, get_auth_constraint. cbn [wrv_strategy new_validator
    new_WriteRequestValidator create_auth_strategy Z.eqb LOCAL_AUTH_POLICY Pos.eqb wrv_auth_map].
  rewrite (local_lookup_rules m rules a Hr Hnd Ha). cbn [res_bind].
  unfold verdict, set_from_state_count. cbn.
  destruct (lookup_rule rules (action_def a)) as [c|]; [|done].
  destruct (authorize _ _ _ _ _) as [?|[]]; done.
Qed.

(** A request that passes had its constraint satisfied. *)
Lemma verdict_satisfies `{!RoleCache getRole} r author a c b :
  identifier r = Some author → typed_constraint c →
  verdict r a (Some c) = Ok b → satisfies getRole r author a c.
Proof.
  intros Hid Hc. unfold verdict.
  destruct (authorize_grants getRole r author a c Hid Hc) as [[-> H]|(? & -> & _)]; done.
Qed.

(** With typed constraints the only exception is the refusal. *)
Lemma verdict_refuses `{!RoleCache getRole} r author a c :
  identifier r = Some author → typed_constraint c → ¬ satisfies getRole r author a c →
  ∃ reason, verdict r a (Some c) = Raise (unauthorized r reason).
Proof.
  intros Hid Hc Hn. unfold verdict.
  destruct (authorize_grants getRole r author a c Hid Hc) as [[-> H]|(? & -> & _)]; eauto.
  done.
Qed.

(** Without a stored rule for the key, the config ledger strategy is the local one. *)
Lemma ledger_default m (state : St) metrics n a :
  (∀ k, k ∈ dkeys m → st_get state (make_state_path_for_auth_rule k) = None) →
  ledger_get_auth_constraint m state metrics n a =
    let! c := local_get_auth_constraint m a in Ok (c, n).
Proof.
  intros Hst. unfold ledger_get_auth_constraint, local_get_auth_constraint.
  destruct (find_auth_constraint_key a (dkeys m)) as [[k|]|e] eqn:E; cbn [res_bind]; [|done|done].
  assert (k ∈ dkeys m ∧ ∃ A, split_action_id k = Ok A) as [Hk [A HA]].
  { clear Hst. revert E. generalize (dkeys m) as ks.
    induction ks as [|k' ks IH]; cbn [find_auth_constraint_key]; [done|].
    unfold is_accepted_action_id at 1. destruct (split_action_id k') as [A|] eqn:EA; [|done].
    cbn [res_bind]. intros E. bind E as b _. destruct b.
    - injection E as ->. split; [by left|eauto].
    - destruct (IH E) as [? ?]. split; [by right|done]. }
  destruct (str_truth k) eqn:Ek; cbn [negb].
  - unfold get_from_state. by rewrite Hst.
  - unfold str_truth in Ek. apply negb_false_iff, str_eqb_eq in Ek as ->. done.
Qed.
End validate_lemmas.
