(* ===== verification/AuthMap.v ===== *)
(** * The default authorization map

    [indy_common/authorize/auth_map.py]: the actions, the constraints and the
    ordered map from action identifiers to constraints, in the order of the
    source ([auth_map.update] keeps the place of a key that is already there). *)
From S2P Require Import Prelude PyValue Plenum Constants AuthActions AuthConstraints Authorizer AuthorizerSpec AuthStrategy.

(** ** Actions *)

Definition star : val := VStr "*".

(** [edit_role_actions[role_from][role_to]] *)
Definition edit_role_action (role_from role_to : option string) : AuthAction :=
  AuthActionEdit NYM (VStr ROLE) (opt_str role_from) (opt_str role_to) true.

Definition add_new_trustee : AuthAction := AuthActionAdd NYM (VStr ROLE) (VStr TRUSTEE) true.
Definition add_new_steward : AuthAction := AuthActionAdd NYM (VStr ROLE) (VStr STEWARD) true.
Definition add_new_endorser : AuthAction := AuthActionAdd NYM (VStr ROLE) (VStr ENDORSER) true.
Definition add_new_network_monitor : AuthAction := AuthActionAdd NYM (VStr ROLE) (VStr NETWORK_MONITOR) true.
Definition add_new_identity_owner : AuthAction := AuthActionAdd NYM (VStr ROLE) VNone true.
Definition key_rotation : AuthAction := AuthActionEdit NYM (VStr VERKEY) star star true.
Definition txn_author_agreement : AuthAction := AuthActionAdd TXN_AUTHOR_AGREEMENT star star true.
Definition edit_txn_author_agreement : AuthAction := AuthActionEdit TXN_AUTHOR_AGREEMENT star star star true.
Definition disable_txn_author_agreement : AuthAction := AuthActionAdd TXN_AUTHOR_AGREEMENT_DISABLE star star true.
Definition txn_author_agreement_aml : AuthAction := AuthActionAdd TXN_AUTHOR_AGREEMENT_AML star star true.
Definition add_attrib : AuthAction := AuthActionAdd ATTRIB star star true.
Definition edit_attrib : AuthAction := AuthActionEdit ATTRIB star star star true.
Definition add_schema : AuthAction := AuthActionAdd SCHEMA star star true.
Definition edit_schema : AuthAction := AuthActionEdit SCHEMA star star star true.
Definition add_json_ld_context : AuthAction := AuthActionAdd JSON_LD_CONTEXT star star true.
Definition edit_json_ld_context : AuthAction := AuthActionEdit JSON_LD_CONTEXT star star star true.
Definition add_rich_schema : AuthAction := AuthActionAdd RICH_SCHEMA star star true.
Definition edit_rich_schema : AuthAction := AuthActionEdit RICH_SCHEMA star star star true.
Definition add_rich_schema_encoding : AuthAction := AuthActionAdd RICH_SCHEMA_ENCODING star star true.
Definition edit_rich_schema_encoding : AuthAction := AuthActionEdit RICH_SCHEMA_ENCODING star star star true.
Definition add_rich_schema_mapping : AuthAction := AuthActionAdd RICH_SCHEMA_MAPPING star star true.
Definition edit_rich_schema_mapping : AuthAction := AuthActionEdit RICH_SCHEMA_MAPPING star star star true.
Definition add_rich_schema_cred_def : AuthAction := AuthActionAdd RICH_SCHEMA_CRED_DEF star star true.
Definition edit_rich_schema_cred_def : AuthAction := AuthActionEdit RICH_SCHEMA_CRED_DEF star star star true.
Definition add_rich_schema_pres_def : AuthAction := AuthActionAdd RICH_SCHEMA_PRES_DEF star star true.
Definition edit_rich_schema_pres_def : AuthAction := AuthActionEdit RICH_SCHEMA_PRES_DEF star star star true.
Definition add_claim_def : AuthAction := AuthActionAdd CLAIM_DEF star star true.
Definition edit_claim_def : AuthAction := AuthActionEdit CLAIM_DEF star star star true.
Definition adding_new_node : AuthAction := AuthActionAdd NODE (VStr "services") (VList [VStr "VALIDATOR"]) true.
Definition adding_new_node_with_empty_services : AuthAction := AuthActionAdd NODE (VStr "services") (VList []) true.
Definition demote_node : AuthAction := AuthActionEdit NODE (VStr "services") (VList [VStr "VALIDATOR"]) (VList []) true.
Definition promote_node : AuthAction := AuthActionEdit NODE (VStr "services") (VList []) (VList [VStr "VALIDATOR"]) true.
Definition change_node_ip : AuthAction := AuthActionEdit NODE (VStr "node_ip") star star true.
Definition change_node_port : AuthAction := AuthActionEdit NODE (VStr "node_port") star star true.
Definition change_client_ip : AuthAction := AuthActionEdit NODE (VStr "client_ip") star star true.
Definition change_client_port : AuthAction := AuthActionEdit NODE (VStr "client_port") star star true.
Definition change_bls_key : AuthAction := AuthActionEdit NODE (VStr "blskey") star star true.
Definition start_upgrade : AuthAction := AuthActionAdd POOL_UPGRADE (VStr "action") (VStr "start") true.
Definition cancel_upgrade : AuthAction := AuthActionEdit POOL_UPGRADE (VStr "action") (VStr "start") (VStr "cancel") true.
Definition pool_restart : AuthAction := AuthActionAdd POOL_RESTART (VStr "action") star true.
Definition pool_config : AuthAction := AuthActionEdit POOL_CONFIG (VStr "action") star star true.
Definition auth_rule : AuthAction := AuthActionEdit AUTH_RULE star star star true.
Definition auth_rules : AuthAction := AuthActionEdit AUTH_RULES star star star true.
Definition validator_info : AuthAction := AuthActionAdd VALIDATOR_INFO star star true.
Definition add_revoc_reg_def : AuthAction := AuthActionAdd REVOC_REG_DEF star star true.
Definition add_revoc_reg_entry : AuthAction := AuthActionAdd REVOC_REG_ENTRY star star true.
Definition edit_revoc_reg_def : AuthAction := AuthActionEdit REVOC_REG_DEF star star star true.
Definition edit_revoc_reg_entry : AuthAction := AuthActionEdit REVOC_REG_ENTRY star star star true.
Definition edit_frozen_ledgers : AuthAction := AuthActionEdit LEDGERS_FREEZE star star star true.
Definition edit_config_flag : AuthAction := AuthActionEdit FLAG star star star true.

(** ** Constraints *)

Definition anyone_constraint : constraint := RoleConstraint (Some "*") 1 false.
Definition no_one_constraint : constraint := AuthConstraintForbidden.
Definition owner_constraint : constraint := RoleConstraint (Some "*") 1 true.
Definition steward_owner_constraint : constraint := RoleConstraint (Some STEWARD) 1 true.
Definition one_trustee_constraint : constraint := RoleConstraint (Some TRUSTEE) 1 false.
Definition three_trustee_constraint : constraint := RoleConstraint (Some TRUSTEE) 3 false.
Definition steward_or_trustee_constraint : constraint :=
  AuthConstraintOr [RoleConstraint (Some STEWARD) 1 false; RoleConstraint (Some TRUSTEE) 1 false].
Definition endorser_or_steward_or_trustee_constraint : constraint :=
  AuthConstraintOr [RoleConstraint (Some TRUSTEE) 1 false; RoleConstraint (Some STEWARD) 1 false;
                    RoleConstraint (Some ENDORSER) 1 false].
Definition trustee_or_owner_steward : constraint :=
  AuthConstraintOr [RoleConstraint (Some TRUSTEE) 1 false; RoleConstraint (Some STEWARD) 1 true].
Definition endorser_or_steward_or_trustee_owner_constraint : constraint :=
  AuthConstraintOr [RoleConstraint (Some TRUSTEE) 1 true; RoleConstraint (Some STEWARD) 1 true;
                    RoleConstraint (Some ENDORSER) 1 true].
Definition validator_info_constraint : constraint :=
  AuthConstraintOr [RoleConstraint (Some TRUSTEE) 1 false; RoleConstraint (Some STEWARD) 1 false;
                    RoleConstraint (Some NETWORK_MONITOR) 1 false].

(** ** The map *)

Definition auth_map_base_entries : list (AuthAction * constraint) :=
  [(add_new_trustee, one_trustee_constraint);
   (add_new_steward, one_trustee_constraint);
   (add_new_endorser, steward_or_trustee_constraint);
   (add_new_network_monitor, steward_or_trustee_constraint);
   (add_new_identity_owner, endorser_or_steward_or_trustee_constraint);
   (key_rotation, owner_constraint);
   (txn_author_agreement, one_trustee_constraint);
   (edit_txn_author_agreement, one_trustee_constraint);
   (disable_txn_author_agreement, one_trustee_constraint);
   (txn_author_agreement_aml, one_trustee_constraint);
   (add_attrib, owner_constraint);
   (edit_attrib, owner_constraint);
   (add_schema, endorser_or_steward_or_trustee_constraint);
   (edit_schema, no_one_constraint);
   (add_json_ld_context, endorser_or_steward_or_trustee_constraint);
   (edit_json_ld_context, no_one_constraint);
   (add_rich_schema, endorser_or_steward_or_trustee_constraint);
   (edit_rich_schema, no_one_constraint);
   (add_rich_schema_encoding, endorser_or_steward_or_trustee_constraint);
   (edit_rich_schema_encoding, no_one_constraint);
   (add_rich_schema_mapping, endorser_or_steward_or_trustee_constraint);
   (edit_rich_schema_mapping, no_one_constraint);
   (add_rich_schema_cred_def, endorser_or_steward_or_trustee_constraint);
   (edit_rich_schema_cred_def, no_one_constraint);
   (add_rich_schema_pres_def, endorser_or_steward_or_trustee_constraint);
   (edit_rich_schema_pres_def, no_one_constraint);
   (add_claim_def, endorser_or_steward_or_trustee_constraint);
   (edit_claim_def, owner_constraint);
   (adding_new_node, steward_owner_constraint);
   (adding_new_node_with_empty_services, steward_owner_constraint);
   (demote_node, trustee_or_owner_steward);
   (promote_node, trustee_or_owner_steward);
   (change_node_ip, steward_owner_constraint);
   (change_node_port, steward_owner_constraint);
   (change_client_ip, steward_owner_constraint);
   (change_client_port, steward_owner_constraint);
   (change_bls_key, steward_owner_constraint);
   (start_upgrade, one_trustee_constraint);
   (cancel_upgrade, one_trustee_constraint);
   (pool_restart, one_trustee_constraint);
   (pool_config, one_trustee_constraint);
   (auth_rule, one_trustee_constraint);
   (auth_rules, one_trustee_constraint);
   (validator_info, validator_info_constraint);
   (add_revoc_reg_def, endorser_or_steward_or_trustee_constraint);
   (add_revoc_reg_entry, endorser_or_steward_or_trustee_owner_constraint);
   (edit_revoc_reg_def, owner_constraint);
   (edit_revoc_reg_entry, owner_constraint);
   (edit_frozen_ledgers, three_trustee_constraint);
   (edit_config_flag, one_trustee_constraint)].

Definition auth_map_trustee_entries : list (AuthAction * constraint) :=
  [(edit_role_action (Some TRUSTEE) (Some TRUSTEE), owner_constraint);
   (edit_role_action (Some TRUSTEE) (Some STEWARD), one_trustee_constraint);
   (edit_role_action (Some TRUSTEE) (Some ENDORSER), one_trustee_constraint);
   (edit_role_action (Some TRUSTEE) (Some NETWORK_MONITOR), one_trustee_constraint);
   (edit_role_action (Some TRUSTEE) IDENTITY_OWNER, one_trustee_constraint)].

Definition auth_map_steward_entries : list (AuthAction * constraint) :=
  [(edit_role_action (Some STEWARD) (Some TRUSTEE), one_trustee_constraint);
   (edit_role_action (Some STEWARD) (Some STEWARD), owner_constraint);
   (edit_role_action (Some STEWARD) (Some ENDORSER), one_trustee_constraint);
   (edit_role_action (Some STEWARD) (Some NETWORK_MONITOR), one_trustee_constraint);
   (edit_role_action (Some STEWARD) IDENTITY_OWNER, one_trustee_constraint)].

Definition auth_map_endorser_entries : list (AuthAction * constraint) :=
  [(edit_role_action (Some ENDORSER) (Some TRUSTEE), one_trustee_constraint);
   (edit_role_action (Some ENDORSER) (Some STEWARD), one_trustee_constraint);
   (edit_role_action (Some ENDORSER) (Some ENDORSER), owner_constraint);
   (edit_role_action (Some ENDORSER) (Some NETWORK_MONITOR), one_trustee_constraint);
   (edit_role_action (Some ENDORSER) IDENTITY_OWNER, one_trustee_constraint)].

Definition auth_map_network_monitor_entries : list (AuthAction * constraint) :=
  [(edit_role_action (Some NETWORK_MONITOR) (Some TRUSTEE), one_trustee_constraint);
   (edit_role_action (Some NETWORK_MONITOR) (Some STEWARD), one_trustee_constraint);
   (edit_role_action (Some NETWORK_MONITOR) (Some ENDORSER), steward_or_trustee_constraint);
   (edit_role_action (Some NETWORK_MONITOR) (Some NETWORK_MONITOR), owner_constraint);
   (edit_role_action (Some NETWORK_MONITOR) IDENTITY_OWNER, steward_or_trustee_constraint)].

Definition auth_map_identity_owner_entries : list (AuthAction * constraint) :=
  [(edit_role_action IDENTITY_OWNER (Some TRUSTEE), one_trustee_constraint);
   (edit_role_action IDENTITY_OWNER (Some STEWARD), one_trustee_constraint);
   (edit_role_action IDENTITY_OWNER (Some ENDORSER), steward_or_trustee_constraint);
   (edit_role_action IDENTITY_OWNER (Some NETWORK_MONITOR), steward_or_trustee_constraint);
   (edit_role_action IDENTITY_OWNER IDENTITY_OWNER, owner_constraint)].

(** [OrderedDict([(a.get_action_id(), c), ...])] *)
Definition keyed (l : list (AuthAction * constraint)) : dict constraint :=
  dupdate [] (map (λ ac, (get_action_id ac.1, ac.2)) l).

(** The base map, updated with the role changes from each role. *)
Definition auth_map : dict constraint :=
  foldl dupdate (keyed auth_map_base_entries)
    [keyed auth_map_trustee_entries; keyed auth_map_steward_entries;
     keyed auth_map_endorser_entries; keyed auth_map_network_monitor_entries;
     keyed auth_map_identity_owner_entries].

(** ** Lemmas *)

(** Every entry of the map, in the order of the source. *)
Definition auth_map_entries : list (AuthAction * constraint) :=
  auth_map_base_entries ++ auth_map_trustee_entries ++ auth_map_steward_entries ++
  auth_map_endorser_entries ++ auth_map_network_monitor_entries ++
  auth_map_identity_owner_entries.

(** The map as structured rules. *)
Definition auth_map_rules : list (ActionDef * constraint) := default [] (rules_of auth_map).

Lemma auth_map_rules_of : rules_of auth_map = Some auth_map_rules.
Proof. vm_compute. reflexivity. Qed.

Lemma auth_map_keys_NoDup : NoDup (dkeys auth_map).
Proof. apply (bool_decide_unpack _). vm_compute. reflexivity. Qed.

Fixpoint typed_check (c : constraint) : bool :=
  match c with
  | AuthConstraintForbidden => true
  | AuthConstraint role sig_count _ _ metadata =>
      bool_decide (role ∈ accepted_roles) &&
      match sig_count, metadata with VInt _, VDict _ => true | _, _ => false end
  | AuthConstraintAnd cs | AuthConstraintOr cs => forallb typed_check cs
  end.

Lemma typed_check_sound c : typed_check c = true → typed_constraint c.
Proof.
  induction c as [|r s n o m|cs IH|cs IH] using constraint_ind'; simpl; [done| | |].
  - rewrite andb_true_iff, bool_decide_eq_true. intros [? H].
    destruct s, m; try done. eauto.
  - rewrite typed_all. induction IH; simpl; [done|]. rewrite andb_true_iff. intros [??]. auto.
  - rewrite typed_all. induction IH; simpl; [done|]. rewrite andb_true_iff. intros [??]. auto.
Qed.

Lemma auth_map_rules_typed am c : (am, c) ∈ auth_map_rules → typed_constraint c.
Proof.
  intros H. apply typed_check_sound.
  assert (Forall (λ p, typed_check p.2 = true) auth_map_rules) as Hall
    by (apply (bool_decide_unpack _); vm_compute; reflexivity).
  rewrite Forall_forall in Hall. apply (Hall _ H).
Qed.

(** A decidable statement about all the rules holds of the rule that is found. *)
Lemma auth_map_lookup_check (P : ActionDef → constraint → bool) a c :
  forallb (λ p, P p.1 p.2) auth_map_rules = true →
  lookup_rule auth_map_rules a = Some c →
  ∃ am, def_matches am a = true ∧ P am c = true ∧ typed_constraint c.
Proof.
  intros HP (am & Hin & Hm)%lookup_rule_elem. exists am. split; [done|].
  split; [|by eapply auth_map_rules_typed].
  apply forallb_forall with (x := (am, c)) in HP; [done|]. by apply list_elem_of_In.
Qed.

Definition is_one_trustee (c : constraint) : bool :=
  match c with
  | AuthConstraint (Some r) (VInt 1) _ VNone _ => str_eqb r TRUSTEE
  | _ => false
  end.

Lemma is_one_trustee_signed getRole `{!RoleCache getRole} r author a c :
  is_one_trustee c = true → satisfies getRole r author a c →
  signed_with_role getRole r author (Some TRUSTEE).
Proof.
  destruct c as [|[role|] sc n o m|cs|cs]; try done. simpl.
  destruct sc as [| |[|[]|]| | |]; try done. destruct o; try done.
  intros ->%str_eqb_eq H. by apply satisfies_role_signed in H as [? _].
Qed.

(** The objects an issuer builds on. *)
Definition immutable_types : list string :=
  [SCHEMA; JSON_LD_CONTEXT; RICH_SCHEMA; RICH_SCHEMA_ENCODING; RICH_SCHEMA_MAPPING;
   RICH_SCHEMA_CRED_DEF; RICH_SCHEMA_PRES_DEF].

Definition immutable_check (am : ActionDef) (c : constraint) : bool :=
  negb (str_eqb (ad_prefix am) EDIT_PREFIX) ||
  negb (bool_decide (ad_txn_type am ∈ immutable_types)) ||
  match c with AuthConstraintForbidden => true | _ => false end.

Section default_policy.
Context {bytes St : Type} `{!Serializer bytes} `{!State bytes St}.
Context (getRole : string → res string) `{!RoleCache getRole} (str_request : Request → string).
Implicit Types (state : St) (r : Request).

(** A validator over the default map with the local policy. *)
Definition default_validator state (metrics : bool) :=
  new_validator LOCAL_AUTH_POLICY auth_map state metrics.

Lemma validate_default state metrics r a rest :
  action_clean a = true →
  validate getRole str_request (default_validator state metrics) r (a :: rest) =
    let! b := verdict getRole str_request r a (lookup_rule auth_map_rules (action_def a)) in
    Ok (Some b, default_validator state metrics).
Proof. apply validate_local; [apply auth_map_rules_of|apply auth_map_keys_NoDup]. Qed.

(** What a request that passes had to satisfy, given a check of all the rules. *)
Lemma validate_default_passes (P : ActionDef → constraint → bool) state metrics r author a rest res :
  forallb (λ p, P p.1 p.2) auth_map_rules = true →
  identifier r = Some author → action_clean a = true →
  validate getRole str_request (default_validator state metrics) r (a :: rest) = Ok res →
  ∃ am c, def_matches am (action_def a) = true ∧ P am c = true ∧ satisfies getRole r author a c.
Proof.
  intros HP Hid Ha. rewrite validate_default by done. intros H.
  apply res_bind_Ok in H as (b & H & _).
  destruct (lookup_rule auth_map_rules (action_def a)) as [c|] eqn:E; [|done].
  destruct (auth_map_lookup_check P _ _ HP E) as (am & Hm & HPc & Hty).
  exists am, c. split; [done|]. split; [done|].
  by apply (verdict_satisfies getRole str_request) with (b := b).
Qed.
End default_policy.

Lemma trustee_signature {bytes St} `{!Serializer bytes, !State bytes St}
    getRole `{!RoleCache getRole} str_request (state : St) metrics r author a rest res :
  identifier r = Some author → action_clean a = true →
  action_txn_type a = NYM → action_field a = ROLE → ad_new_value (action_def a) = TRUSTEE →
  ad_old_value (action_def a) ≠ TRUSTEE →
  validate getRole str_request (default_validator state metrics) r (a :: rest) = Ok res →
  signed_with_role getRole r author (Some TRUSTEE).
Proof.
  intros Hid Ha Ht Hf Hn Ho Hv.
  destruct (validate_default_passes getRole str_request (λ am c, is_one_trustee c ||
    str_eqb (ad_old_value am) TRUSTEE || negb (str_eqb (ad_txn_type am) NYM) ||
    negb (field_matches (ad_field am) ROLE) ||
    negb (field_matches (ad_new_value am) TRUSTEE)) state metrics r author a rest res
    ltac:(vm_compute; reflexivity) Hid Ha Hv) as (am & c & Hm & HP & Hs).
  assert (is_one_trustee c = true); [|by eapply is_one_trustee_signed].
  rewrite <- action_def_type in Ht. rewrite <- action_def_field in Hf.
  unfold def_matches in Hm. rewrite Ht, Hf, Hn, !andb_true_iff, !str_eqb_eq in Hm.
  destruct Hm as [[[[_ Hm1] Hm2] Hm3] Hm4]. rewrite Hm2, Hm4, <- Hm1, str_eqb_refl in HP.
  destruct (is_one_trustee c); [done|]. simpl in HP.
  destruct (str_eqb (ad_old_value am) TRUSTEE) eqn:E; [|done].
  apply str_eqb_eq in E. rewrite E in Hm3. unfold field_matches in Hm3.
  apply orb_true_iff in Hm3 as [?%str_eqb_eq|?]; done.
Qed.

Lemma rotation_owner {bytes St} `{!Serializer bytes, !State bytes St}
    getRole `{!RoleCache getRole} str_request (state : St) metrics r author o n owner rest res :
  identifier r = Some author → action_clean (ActionEdit NYM VERKEY o n owner) = true →
  validate getRole str_request (default_validator state metrics) r
    (ActionEdit NYM VERKEY o n owner :: rest) = Ok res →
  owner = true ∧ role_of getRole author ≠ None.
Proof.
  intros Hid Ha Hv.
  destruct (validate_default_passes getRole str_request (λ am c,
    negb (str_eqb (ad_txn_type am) NYM) || negb (field_matches (ad_field am) VERKEY) ||
    match c with AuthConstraint _ (VInt 1) (VBool true) VNone _ => true | _ => false end)
    state metrics r author _ rest res ltac:(vm_compute; reflexivity) Hid Ha Hv)
    as (am & c & Hm & HP & Hs).
  unfold def_matches in Hm. rewrite !andb_true_iff, !str_eqb_eq in Hm.
  destruct Hm as [[[[_ Hm1] Hm2] _] _]. cbn [action_def ad_txn_type ad_field] in Hm1, Hm2.
  rewrite Hm2, <- Hm1, str_eqb_refl in HP. cbn [negb orb] in HP.
  destruct c as [|role sc nd off m|cs|cs]; try done.
  destruct sc as [| |[|[]|]| | |], nd as [|[]| | | |], off; try done.
  destruct Hs as (z & [= <-] & (Ho & H1 & _) & _). split; [by apply Ho|].
  by destruct (H1 ltac:(lia)) as [[?|?] _].
Qed.

(** ** Properties *)

(** No entry of the default map is hidden by an earlier, more general one:
    the identifier of each action of the source finds the constraint the source
    gives that action. *)
Theorem auth_map_no_shadowing a c :
  (a, c) ∈ auth_map_entries →
  local_get_auth_constraint auth_map (get_action_id a) = Ok (Some c).
Proof.
  assert (Forall (λ p, local_get_auth_constraint auth_map (get_action_id p.1) = Ok (Some p.2))
    auth_map_entries) as H by (repeat constructor).
  rewrite Forall_forall in H. intros Hin. apply (H _ Hin).
Qed.

Lemma auth_map_no_shadowing_witness :
  local_get_auth_constraint auth_map "0--EDIT--services--['VALIDATOR']--[]" =
    Ok (Some trustee_or_owner_steward).
Proof.
  apply (auth_map_no_shadowing demote_node trustee_or_owner_steward).
  unfold auth_map_entries, auth_map_base_entries. apply elem_of_app. left.
  do 30 apply list_elem_of_further. apply list_elem_of_here.
Defined.

(** C33. Under the default map every decision about a request with an author and
    a clean action is an answer: the request passes or is refused with
    [UnauthorizedClientRequest]; no other exception escapes. *)
Theorem default_validate_total {bytes St} `{!Serializer bytes, !State bytes St}
    getRole `{!RoleCache getRole} str_request (state : St) metrics r author a rest :
  identifier r = Some author → action_clean a = true →
  (∃ v, validate getRole str_request (default_validator state metrics) r (a :: rest) =
          Ok (Some true, v)) ∨
  (∃ reason, validate getRole str_request (default_validator state metrics) r (a :: rest) =
          Raise (UnauthorizedClientRequest (Some author) (reqId r) reason)).
Proof.
  intros Hid Ha. rewrite validate_default by done. unfold verdict, unauthorized. rewrite Hid.
  destruct (lookup_rule auth_map_rules (action_def a)) as [c|] eqn:E; [|right; by eexists].
  destruct (auth_map_lookup_check (λ _ _, true) _ c eq_refl E) as (_ & _ & _ & Hty).
  destruct (authorize_grants getRole r author a c Hid Hty) as [[-> _]|(? & -> & _)];
    [left|right]; by eexists.
Qed.

Lemma default_validate_total_witness :
  ∃ v, validate small_ledger (λ _, "")
    (default_validator (∅ : gmap string val) false) (signed_request "S" ["S"] None)
    [AuthActionAdd NYM (VStr ROLE) (VStr ENDORSER) true] = Ok (Some true, v).
Proof.
  destruct (default_validate_total small_ledger (λ _, "") (∅ : gmap string val) false
    (signed_request "S" ["S"] None) "S" (AuthActionAdd NYM (VStr ROLE) (VStr ENDORSER) true) []
    eq_refl eq_refl) as [H|[reason H]]; [exact H|]. vm_compute in H. discriminate H.
Defined.

(** The definitions the issuers build on are immutable under the default
    map: an edit of a schema or of any rich schema object is refused, whoever
    signs it. *)
Theorem immutable_objects {bytes St} `{!Serializer bytes, !State bytes St}
    getRole `{!RoleCache getRole} str_request (state : St) metrics r author t f o n owner rest :
  identifier r = Some author → action_clean (ActionEdit t f o n owner) = true →
  t ∈ immutable_types →
  ∃ reason, validate getRole str_request (default_validator state metrics) r
    (ActionEdit t f o n owner :: rest) =
    Raise (UnauthorizedClientRequest (Some author) (reqId r) reason).
Proof.
  intros Hid Ha Ht. rewrite validate_default by done. unfold verdict, unauthorized. rewrite Hid.
  destruct (lookup_rule auth_map_rules _) as [c|] eqn:E; [|by eexists].
  destruct (auth_map_lookup_check immutable_check _ c eq_refl E) as (am & Hm & HP & _).
  apply def_matches_true in Hm as (Hm1 & Hm2 & _). simpl in Hm1, Hm2.
  unfold immutable_check in HP.
  rewrite <- Hm1, <- Hm2, str_eqb_refl, (bool_decide_eq_true_2 _ Ht) in HP. simpl in HP.
  destruct c; try done. by eexists.
Qed.

Lemma immutable_objects_witness :
  ∃ reason, validate small_ledger (λ _, "") (default_validator (∅ : gmap string val) false)
    (signed_request "T1" ["T1"; "T2"] None) [ActionEdit SCHEMA "*" "*" "*" true] =
    Raise (UnauthorizedClientRequest (Some "T1") (Some 1%Z) reason).
Proof.
  apply (immutable_objects small_ledger (λ _, "") (∅ : gmap string val) false
    (signed_request "T1" ["T1"; "T2"] None) "T1" SCHEMA "*" "*" "*" true []);
    [reflexivity|reflexivity|by left].
Defined.

(** A request with two actions is judged by the first alone: here the second,
    the edit of a schema, would be refused. *)
Lemma validate_ignores_second_action :
  is_Ok (validate small_ledger (λ _, "") (default_validator (∅ : gmap string val) false)
    (signed_request "O" ["O"] None) [add_attrib; edit_schema]) = true ∧
  is_Ok (validate small_ledger (λ _, "") (default_validator (∅ : gmap string val) false)
    (signed_request "O" ["O"] None) [edit_schema]) = false.
Proof. vm_compute. done. Qed.
