(* ===== verification/CompatSet.v ===== *)
(** * CompatSet: a hash set with the iteration order of Python 3.5

    [indy_common/compat_set.py].  The set is an open-addressing table whose
    slots are empty, removed or hold an entry (an element and its hash).  A
    lookup probes the home slot, up to nine slots after it, and then the slots
    of the recurrence [i = (5 * i + 1 + perturb) & mask].

    The elements are integers: the only use of the class in the node is for the
    indices of revocation registries.  The loops that probe are given fuel;
    [look_total] below shows that the fuel is enough for every entry whose hash is
    not negative. *)
From S2P Require Import Prelude.
Open Scope Z_scope.

(** ** Entries and hashes *)

Record Entry := mkEntry { elem : Z; hash : Z }.

#[export] Instance Entry_eq_dec : EqDecision Entry.
Proof. solve_decision. Defined.

(** [hash(n)] of an integer in CPython (64 bits): the remainder by the Mersenne
    prime [2^61 - 1] with the sign of [n], and [-2] in place of [-1]. *)
Definition py_hash (n : Z) : Z :=
  let h := Z.sgn n * (Z.abs n mod (2 ^ 61 - 1)) in
  if Z.eqb h (-1) then -2 else h.

(** [_Entry.from_elem] *)
Definition from_elem (n : Z) : Entry := mkEntry n (py_hash n).

Definition MIN_SIZE : Z := 8.
Definition LINEAR_PROBES : Z := 9.
Definition PERTURB_SHIFT : Z := 5.

(** A slot: [None], [REMOVED] or an entry. *)
Inductive slot := Empty | Removed | Full (e : Entry).

#[export] Instance slot_eq_dec : EqDecision slot.
Proof. solve_decision. Defined.

(** [_CompatSetInner] *)
Record Inner := mkInner {
  fill : Z;
  mask : Z;
  search : Z;
  table : list slot;
  used : Z
}.

(** [_CompatSetInner.__init__] *)
Definition new_Inner : Inner :=
  mkInner 0 (MIN_SIZE - 1) 0 (replicate (Z.to_nat MIN_SIZE) Empty) 0.

Definition set_slot (t : list slot) (i : Z) (s : slot) : list slot := <[Z.to_nat i := s]> t.

(** [table[i]]; the indices the code computes are never negative. *)
Definition get_slot (t : list slot) (i : Z) : res slot :=
  match t !! Z.to_nat i with Some s => Ok s | None => Raise IndexError end.

(** ** Probing *)

(** The first slot of [js] at which [stop] holds. *)
Fixpoint scan (stop : slot → bool) (t : list slot) (js : list Z) : res (option Z) :=
  match js with
  | [] => Ok None
  | j :: js' => let! s := get_slot t j in
                if stop s then Ok (Some j) else scan stop t js'
  end.

(** The slots of one round of the [while] loop. *)
Definition round (msk i : Z) : list Z :=
  i :: if Z.leb (i + LINEAR_PROBES) msk then seqZ (i + 1) LINEAR_PROBES else [].

Definition next_perturb (perturb : Z) : Z := Z.shiftr perturb PERTURB_SHIFT.
Definition next_i (msk i perturb : Z) : Z := Z.land (i * 5 + 1 + perturb) msk.

(** The [while True] loop shared by [look_entry] and [insert_entry_clean]. *)
Fixpoint probe (fuel : nat) (stop : slot → bool) (t : list slot) (msk i perturb : Z) : res Z :=
  match fuel with
  | O => Raise OutOfFuel
  | S fuel' =>
      let! found := scan stop t (round msk i) in
      match found with
      | Some j => Ok j
      | None => let p := next_perturb perturb in probe fuel' stop t msk (next_i msk i p) p
      end
  end.

(** Rounds until the perturbation is used up, and then one round per slot. *)
Definition probe_fuel (h msk : Z) : nat := Z.to_nat (Z.log2 h + 1) + Z.to_nat (msk + 1).

(** [look_entry] stops at an empty slot or at the entry.  (A removed slot is
    remembered in [free_idx], but both branches of the conditional that reads it
    return the current index; the only value equal to [REMOVED] is [None].) *)
Definition stop_look (e : Entry) (s : slot) : bool :=
  match s with Empty => true | Removed => false | Full e' => bool_decide (e' = e) end.

Definition stop_clean (s : slot) : bool := match s with Empty => true | _ => false end.

Definition look_entry_fuel (fuel : nat) (s : Inner) (e : Entry) : res Z :=
  if Z.leb (fill s) (mask s)
  then probe fuel (stop_look e) (table s) (mask s) (Z.land (hash e) (mask s)) (hash e)
  else Raise AssertionError.

Definition look_entry (s : Inner) (e : Entry) : res Z :=
  look_entry_fuel (probe_fuel (hash e) (mask s)) s e.

Definition is_full (s : slot) : bool := match s with Full _ => true | _ => false end.

Definition contains_entry (s : Inner) (e : Entry) : res bool :=
  let! index := look_entry s e in
  let! found := get_slot (table s) index in
  Ok (is_full found).

Definition contains (s : Inner) (x : Z) : res bool := contains_entry s (from_elem x).

(** ** Insertion and removal *)

Definition insert_entry (s : Inner) (e : Entry) : res (bool * Inner) :=
  let! index := look_entry s e in
  let! found := get_slot (table s) index in
  match found with
  | Empty => Ok (true, mkInner (fill s + 1) (mask s) (search s)
                         (set_slot (table s) index (Full e)) (used s + 1))
  | Removed => Ok (true, mkInner (fill s) (mask s) (search s)
                           (set_slot (table s) index (Full e)) (used s + 1))
  | Full _ => Ok (false, s)
  end.

Definition insert_entry_clean (s : Inner) (e : Entry) : res Inner :=
  let! found := probe (probe_fuel (hash e) (mask s)) stop_clean (table s) (mask s)
                  (Z.land (hash e) (mask s)) (hash e) in
  Ok (mkInner (fill s + 1) (mask s) (search s) (set_slot (table s) found (Full e)) (used s + 1)).

(** The entries of a table, in order. *)
Definition full_entries (t : list slot) : list Entry :=
  omap (λ s, match s with Full e => Some e | _ => None end) t.

(** [while new_size <= min_used: new_size *= 2] *)
Fixpoint grow_size (fuel : nat) (new_size min_used : Z) : res Z :=
  match fuel with
  | O => Raise OutOfFuel
  | S fuel' => if Z.leb new_size min_used then grow_size fuel' (new_size * 2) min_used
               else Ok new_size
  end.

Definition resize (s : Inner) (min_used : Z) : res Inner :=
  if Z.ltb min_used 0 then Raise AssertionError else
  let! new_size := grow_size (S (Z.to_nat (Z.log2 min_used + 1))) MIN_SIZE min_used in
  res_fold insert_entry_clean
    (mkInner 0 (new_size - 1) (search s) (replicate (Z.to_nat new_size) Empty) 0)
    (full_entries (table s)).

Definition grow (s : Inner) : res Inner :=
  resize s (if Z.ltb 50000 (used s) then used s * 2 else used s * 4).

Definition add_entry (s : Inner) (e : Entry) : res Inner :=
  let! (inserted, s') := insert_entry s e in
  if inserted && Z.leb ((mask s' + 1) * 2) (fill s' * 3) then grow s' else Ok s'.

Definition add (s : Inner) (x : Z) : res Inner := add_entry s (from_elem x).

Definition discard_entry (s : Inner) (e : Entry) : res (bool * Inner) :=
  let! index := look_entry s e in
  let! found := get_slot (table s) index in
  if is_full found
  then Ok (true, mkInner (fill s) (mask s) (search s) (set_slot (table s) index Removed) (used s - 1))
  else Ok (false, s).

Definition discard (s : Inner) (x : Z) : res (bool * Inner) := discard_entry s (from_elem x).

(** ** Iteration *)

(** [next]: the first full slot at or after [pos], and the position after it. *)
Fixpoint next_fuel (fuel : nat) (s : Inner) (pos : Z) : res (Z * option Entry) :=
  match fuel with
  | O => Raise OutOfFuel
  | S fuel' =>
      if Z.ltb (mask s) pos then Ok (pos, None) else
      let! x := get_slot (table s) pos in
      match x with
      | Full e => Ok (pos + 1, Some e)
      | _ => next_fuel fuel' s (pos + 1)
      end
  end.

Definition next (s : Inner) (pos : Z) : res (Z * option Entry) :=
  next_fuel (S (Z.to_nat (mask s + 1 - pos))) s pos.

(** What the loops that call [next] until it returns no entry see:
    [(pos, entry) = self.next(pos)] from [pos = 0]. *)
Fixpoint drain (fuel : nat) (s : Inner) (pos : Z) : res (list Entry) :=
  match fuel with
  | O => Raise OutOfFuel
  | S fuel' =>
      let! (pos', x) := next s pos in
      match x with
      | None => Ok []
      | Some e => let! es := drain fuel' s pos' in Ok (e :: es)
      end
  end.

Definition iter_entries (s : Inner) : res (list Entry) := drain (S (Z.to_nat (mask s + 1))) s 0.

(** [list(CompatSet)]: [_CompatSetIter] *)
Definition iter_elems (s : Inner) : res (list Z) :=
  let! es := iter_entries s in Ok (map elem es).

(** The loop of [pop] from slot [i]. *)
Fixpoint pop_loop (fuel : nat) (s : Inner) (i : Z) : res (Z * Entry) :=
  match fuel with
  | O => Raise OutOfFuel
  | S fuel' =>
      let! x := get_slot (table s) i in
      match x with
      | Full e => Ok (i, e)
      | _ => pop_loop fuel' s (if Z.ltb (mask s) (i + 1) then 0 else i + 1)
      end
  end.

Definition pop (s : Inner) : res (Z * Inner) :=
  let i := Z.land (search s) (mask s) in
  if Z.eqb (used s) 0 then Raise (KeyError "pop from empty set") else
  let! (j, e) := pop_loop (Z.to_nat (mask s + 1)) s i in
  Ok (elem e, mkInner (fill s) (mask s) (j + 1) (set_slot (table s) j Removed) (used s - 1)).

(** ** Merging *)

Definition merge (s other : Inner) : res Inner :=
  if Z.eqb (used other) 0 then Ok s else
  let! s := if Z.leb ((mask s + 1) * 2) ((fill s + used other) * 3)
            then resize s ((used s + used other) * 2) else Ok s in
  if Z.eqb (fill s) 0 && Z.eqb (mask s) (mask other) && Z.eqb (fill other) (used other)
  then Ok (mkInner (fill other) (mask s) (search s) (table other) (used other))
  else if Z.eqb (fill s) 0 then res_fold insert_entry_clean s (full_entries (table other))
  else res_fold (λ s e, let! (_, s') := insert_entry s e in Ok s') s (full_entries (table other)).

Definition copy (s : Inner) : res Inner := merge new_Inner s.

(** The other operand of a set operation: any iterable that is not a set, a
    Python [set] (its elements in its own order), a [CompatSet] with a table of
    its own, or the very set the operation is called on. *)
Inductive Other :=
| OtherIter (l : list Z)
| OtherSet (l : list Z)
| OtherCompat (inner : Inner)
| OtherSelf.

(** [for elem in other] *)
Definition other_elems (self : Inner) (o : Other) : res (list Z) :=
  match o with
  | OtherIter l | OtherSet l => Ok l
  | OtherCompat inner => iter_elems inner
  | OtherSelf => iter_elems self
  end.

(** An operand as a table other than that of [self] sees it: [self] is then
    another compatibility set. *)
Definition detach (self : Inner) (o : Other) : Other :=
  match o with OtherSelf => OtherCompat self | _ => o end.

(** [update]; merging a set into itself changes nothing. *)
Definition update (s : Inner) (o : Other) : res Inner :=
  match o with
  | OtherIter l | OtherSet l => res_fold add s l
  | OtherCompat inner => merge s inner
  | OtherSelf => Ok s
  end.

(** [self.discard(elem)] for every element. *)
Definition discard_all (s : Inner) (l : list Z) : res Inner :=
  res_fold (λ s x, let! (_, s') := discard s x in Ok s') s l.

Definition difference_update (s : Inner) (o : Other) : res Inner :=
  match o with
  | OtherSelf => Ok new_Inner
  | _ =>
      let! l := other_elems s o in
      let! s' := discard_all s l in
      if Z.leb (mask s') ((fill s' - used s') * 5) then grow s' else Ok s'
  end.

(** The loop that keeps in a new set the entries that pass a test. *)
Definition keep (test : Entry → res bool) (es : list Entry) : res Inner :=
  res_fold (λ r e, let! b := test e in if b then add_entry r e else Ok r) new_Inner es.

Definition not_in_set (l : list Z) (e : Entry) : res bool := Ok (bool_decide (elem e ∉ l)).

Definition difference (s : Inner) (o : Other) : res Inner :=
  let quarter := Z.shiftr (used s) 2 in
  let by_copy := let! r := copy s in difference_update r (detach s o) in
  match o with
  | OtherIter _ => by_copy
  | OtherSet l => if Z.leb quarter (Z.of_nat (length l))
                  then let! es := iter_entries s in keep (not_in_set l) es
                  else by_copy
  | OtherCompat inner =>
      if Z.leb quarter (used inner)
      then let! es := iter_entries s in
           keep (λ e, let! b := contains_entry inner e in Ok (negb b)) es
      else by_copy
  | OtherSelf =>
      if Z.leb quarter (used s)
      then let! es := iter_entries s in
           keep (λ e, let! b := contains_entry s e in Ok (negb b)) es
      else by_copy
  end.

(** [intersection].  When the other set is the larger one the code swaps
    [self], the inner table, with [other], the outer object, and calls
    [contains_entry] on the latter; and [res.update(self)] iterates over an inner
    table.  Neither object has what is asked of it. *)
Definition intersection (s : Inner) (o : Other) : res Inner :=
  match o with
  | OtherSelf => Raise (TypeError "'_CompatSetInner' object is not iterable")
  | OtherCompat inner =>
      let! es := iter_entries inner in
      if Z.ltb (used s) (used inner)
      then keep (λ _, Raise AttributeError) es
      else keep (contains_entry s) es
  | OtherIter l | OtherSet l => keep (contains_entry s) (map from_elem l)
  end.

Definition symmetric_difference_update (s : Inner) (o : Other) : res Inner :=
  match o with
  | OtherSelf => Ok new_Inner
  | _ =>
      let! l := other_elems s o in
      res_fold (λ s x, let! (discarded, s') := discard s x in
                       if discarded then Ok s' else add s' x) s l
  end.

(** [all(test(x) for x in l)] *)
Fixpoint res_all {A} (test : A → res bool) (l : list A) : res bool :=
  match l with
  | [] => Ok true
  | x :: l' => let! b := test x in if b then res_all test l' else Ok false
  end.

(** [_CompatSetInner.__eq__]: the first [used] slots of the table are looked up. *)
Definition inner_eq (s other : Inner) : res bool :=
  if negb (Z.eqb (used other) (used s)) then Ok false else
  res_all (λ pos, let! x := get_slot (table s) pos in
                  match x with
                  | Full e => contains_entry other e
                  | _ => Ok true
                  end) (seqZ 0 (used s)).

(** ** Outer operations: [CompatSet] *)

(** [CompatSet.difference( *others )]: with no argument, a copy; the first
    operand makes the new table, and the others are removed from it. *)
Definition CompatSet_difference (s : Inner) (others : list Other) : res Inner :=
  match others with
  | [] => copy s
  | o :: os => let! inner := difference s o in res_fold difference_update inner (map (detach s) os)
  end.

Definition CompatSet_intersection (s : Inner) (others : list Other) : res Inner :=
  match others with
  | [] => copy s
  | o :: os => let! inner := intersection s o in res_fold intersection inner (map (detach s) os)
  end.

(** [CompatSet(elems)] *)
Definition CompatSet_init (elems : list Z) : res Inner := update new_Inner (OtherIter elems).

Definition CompatSet_update (s : Inner) (others : list Other) : res Inner :=
  res_fold update s others.

Definition CompatSet_union (s : Inner) (others : list Other) : res Inner :=
  let! c := copy s in res_fold update c (map (detach s) others).

Definition CompatSet_symmetric_difference (s : Inner) (o : Other) : res Inner :=
  let! inner := update new_Inner (detach s o) in
  symmetric_difference_update inner (OtherCompat s).

Definition CompatSet_remove (s : Inner) (x : Z) : res Inner :=
  let! (found, s') := discard s x in
  if found then Ok s' else Raise (KeyError (pretty x)).

Definition CompatSet_issubset (s : Inner) (o : Inner) : res bool :=
  let! l := iter_elems s in res_all (contains o) l.

Definition CompatSet_isdisjoint (s o : Inner) : res bool :=
  let (o', s') := if Z.ltb (used o) (used s) then (s, o) else (o, s) in
  let! l := iter_elems o' in
  res_all (λ x, let! b := contains s' x in Ok (negb b)) l.

(** [CompatSet.__eq__] of two compatibility sets, and with a Python [set]. *)
Definition CompatSet_eq (s o : Inner) : res bool := inner_eq o s.

Definition CompatSet_eq_set (s : Inner) (l : list Z) : res bool :=
  if negb (Z.eqb (Z.of_nat (length l)) (used s)) then Ok false else
  let! es := iter_elems s in res_all (λ x, Ok (bool_decide (x ∈ l))) es.

Definition CompatSet_capacity (s : Inner) : Z := mask s + 1.

Definition CompatSet_discard (s : Inner) (x : Z) : res Inner :=
  let! (_, s') := discard s x in Ok s'.

(** [clear]: the set gets a new table. *)
Definition CompatSet_clear (_ : Inner) : Inner := new_Inner.

Definition CompatSet_issuperset (s : Inner) (o : Other) : res bool :=
  let! l := other_elems s o in res_all (contains s) l.

Definition CompatSet_bool (s : Inner) : bool := Z.ltb 0 (used s).
Definition CompatSet_len (s : Inner) : Z := used s.

Definition CompatSet_and (s : Inner) (o : Other) : res Inner := CompatSet_intersection s [o].
Definition CompatSet_or (s : Inner) (o : Other) : res Inner := CompatSet_union s [o].
Definition CompatSet_sub (s : Inner) (o : Other) : res Inner := CompatSet_difference s [o].
Definition CompatSet_xor (s : Inner) (o : Other) : res Inner := CompatSet_symmetric_difference s o.

(** [s &= o] and the like: the table of the same set is replaced or changed. *)
Definition CompatSet_iand (s : Inner) (o : Other) : res Inner := intersection s o.
Definition CompatSet_ior (s : Inner) (o : Other) : res Inner := update s o.
Definition CompatSet_isub (s : Inner) (o : Other) : res Inner := difference_update s o.
Definition CompatSet_ixor (s : Inner) (o : Other) : res Inner := symmetric_difference_update s o.

Definition CompatSet_repr (s : Inner) : res string :=
  let! l := iter_elems s in Ok ("{" +:+ py_join ", " (map pretty l) +:+ "}").

(** ** The probe sequence *)

Fixpoint probe_seq (fuel : nat) (msk i perturb : Z) : list Z :=
  match fuel with
  | O => []
  | S fuel' => round msk i ++
               let p := next_perturb perturb in probe_seq fuel' msk (next_i msk i p) p
  end.

Definition stop_at (stop : slot → bool) (t : list slot) (j : Z) : bool :=
  match t !! Z.to_nat j with Some s => stop s | None => false end.

Definition look_seq (e : Entry) (msk : Z) : list Z :=
  probe_seq (probe_fuel (hash e) msk) msk (Z.land (hash e) msk) (hash e).

(** ** Lemmas: searching a list *)

Lemma find_Some_split {A} (f : A → bool) l x :
  List.find f l = Some x ↔
  ∃ l1 l2, l = l1 ++ x :: l2 ∧ f x = true ∧ Forall (λ y, f y = false) l1.
Proof.
  split.
  - induction l as [|y l IH]; simpl; [done|]. destruct (f y) eqn:E.
    + intros [= ->]. exists [], l. done.
    + intros (l1 & l2 & -> & ? & ?)%IH. exists (y :: l1), l2. repeat split; auto.
  - intros (l1 & l2 & -> & Hx & Hl1). induction Hl1 as [|y l1 Hy _ IH]; simpl.
    + by rewrite Hx.
    + by rewrite Hy.
Qed.

Lemma find_None_all {A} (f : A → bool) l :
  List.find f l = None ↔ Forall (λ y, f y = false) l.
Proof.
  induction l as [|y l IH]; simpl; [done|]. rewrite Forall_cons, <- IH. destruct (f y); naive_solver.
Qed.

(** A search whose outcome [x] is not affected by a change of the predicate
    that keeps it false before [x]. *)
Lemma find_mono {A} (f g : A → bool) l x :
  List.find f l = Some x → g x = true → (∀ y, y ∈ l → f y = false → y ≠ x → g y = false) →
  List.find g l = Some x.
Proof.
  intros (l1 & l2 & -> & Hx & Hl1)%find_Some_split Hg Hfg.
  apply find_Some_split. exists l1, l2. repeat split; auto.
  rewrite Forall_forall in Hl1 |- *. intros y Hy. specialize (Hl1 y Hy).
  apply Hfg; [set_solver|done|]. intros ->. congruence.
Qed.

Lemma find_ext {A} (f g : A → bool) l : (∀ y, f y = g y) → List.find f l = List.find g l.
Proof. intros H. induction l as [|y l IH]; simpl; [done|]. by rewrite H, IH. Qed.

(** ** Lemmas: probing is a search of the probe sequence *)

(** ** Lemmas: the recurrence visits every slot *)

(** The affine map of the recurrence once the perturbation is zero. *)
Definition lcg (x : Z) : Z := 5 * x + 1.

(** [2^n] steps are an affine map whose constant is an odd multiple of [2^n]. *)
Lemma lcg_pow2 n :
  ∃ c, (∀ x, Nat.iter (2 ^ n) lcg x = (1 + 4 * c) * x + c) ∧ ∃ q, c = 2 ^ Z.of_nat n * (2 * q + 1).
Proof.
  induction n as [|n (c & Hc & q & Hq)].
  - exists 1. split; [|by exists 0]. intros x. simpl. unfold lcg. lia.
  - exists (2 * c * (2 * c + 1)). split.
    + intros x. replace (2 ^ S n)%nat with (2 ^ n + 2 ^ n)%nat by (simpl; lia).
      rewrite Nat.iter_add, !Hc. ring.
    + exists (2 * c * q + c + q). rewrite Nat2Z.inj_succ, Z.pow_succ_r by lia. rewrite Hq. ring.
Qed.

Lemma lcg_visits n x t :
  ∃ m, (m < 2 ^ n)%nat ∧ (2 ^ Z.of_nat n | Nat.iter m lcg x - t).
Proof.
  revert x t. induction n as [|n IH]; intros x t.
  { exists 0%nat. split; [simpl; lia|]. apply Z.divide_1_l. }
  destruct (IH x t) as (m & Hm & d & Hd).
  destruct (lcg_pow2 n) as (c & Hc & q & Hq).
  rewrite Nat2Z.inj_succ, Z.pow_succ_r by lia. set (P := 2 ^ Z.of_nat n) in *.
  destruct (Z.Even_or_Odd d) as [[d' ->]|[d' ->]].
  - exists m. split; [simpl; lia|]. exists d'. rewrite Hd. ring.
  - exists (2 ^ n + m)%nat. split; [simpl; lia|]. rewrite Nat.iter_add, Hc.
    set (y := Nat.iter m lcg x) in *.
    exists (d' + 1 + q + (2 * q + 1) * 2 * y).
    replace ((1 + 4 * c) * y + c - t) with ((y - t) + c * (4 * y + 1)) by ring.
    rewrite Hd, Hq. ring.
Qed.

Section size.
Context (k : Z) (Hk : 0 ≤ k).
Let size := 2 ^ k.
Let msk := size - 1.

Lemma size_pos : 0 < size.
Proof. unfold size. lia. Qed.

Lemma land_msk a : Z.land a msk = a mod size.
Proof. unfold msk, size. rewrite <- Z.land_ones by done. by rewrite Z.ones_equiv, Z.sub_1_r. Qed.

Lemma land_msk_range a : 0 ≤ Z.land a msk < size.
Proof. rewrite land_msk. apply Z.mod_pos_bound, size_pos. Qed.

Lemma round_range i j : 0 ≤ i < size → j ∈ round msk i → 0 ≤ j < size.
Proof.
  intros Hi. unfold round, LINEAR_PROBES. rewrite elem_of_cons. intros [->|H]; [done|].
  destruct (Z.leb_spec (i + 9) msk) as [Hle|]; [|set_solver].
  apply elem_of_seqZ in H. unfold msk in *. lia.
Qed.

Lemma probe_seq_range fuel i p j :
  0 ≤ i < size → j ∈ probe_seq fuel msk i p → 0 ≤ j < size.
Proof.
  revert i p. induction fuel as [|fuel IH]; intros i p Hi; cbn [probe_seq]; [set_solver|].
  intros [H|H]%elem_of_app; [by eapply round_range|].
  eapply IH; [|exact H]. apply land_msk_range.
Qed.

Lemma scan_find stop t js :
  Z.of_nat (length t) = size → Forall (λ j, 0 ≤ j < size) js →
  scan stop t js = Ok (List.find (stop_at stop t) js).
Proof.
  intros Ht. induction 1 as [|j js Hj _ IH]; simpl; [done|]. unfold get_slot, stop_at at 1.
  destruct (lookup_lt_is_Some_2 t (Z.to_nat j)) as [s Hs]; [lia|]. rewrite Hs. simpl.
  by destruct (stop s).
Qed.

Lemma find_app' {A} (f : A → bool) l1 l2 :
  List.find f (l1 ++ l2) = match List.find f l1 with Some x => Some x | None => List.find f l2 end.
Proof. induction l1 as [|x l1 IH]; simpl; [done|]. by destruct (f x). Qed.

Lemma probe_find fuel stop t i p :
  Z.of_nat (length t) = size → 0 ≤ i < size →
  probe fuel stop t msk i p =
    match List.find (stop_at stop t) (probe_seq fuel msk i p) with
    | Some j => Ok j
    | None => Raise OutOfFuel
    end.
Proof.
  intros Ht. revert i p. induction fuel as [|fuel IH]; intros i p Hi; cbn [probe probe_seq]; [done|].
  rewrite scan_find; [|done|]. 2: { apply Forall_forall. intros j. by apply round_range. }
  cbn [res_bind]. rewrite find_app'. destruct (List.find _ (round msk i)); [done|].
  apply IH, land_msk_range.
Qed.


(** ** Lemmas: the probe sequence visits every slot *)

Definition lcg_msk (i : Z) : Z := next_i msk i 0.

Lemma lcg_msk_iter m i : 0 ≤ i < size → Nat.iter m lcg_msk i = Nat.iter m lcg i mod size.
Proof.
  intros Hi. induction m as [|m IH]; [by rewrite Z.mod_small|].
  cbn [Nat.iter nat_rect]. fold (Nat.iter m lcg_msk i) (Nat.iter m lcg i). rewrite IH.
  generalize (Nat.iter m lcg i) as y. intros y. unfold lcg_msk, next_i, lcg. rewrite land_msk, Z.add_0_r.
  rewrite <- (Z.add_mod_idemp_l (y mod size * 5)), Z.mul_mod_idemp_l,
    Z.add_mod_idemp_l by (pose proof size_pos; lia).
  f_equal. ring.
Qed.

Lemma probe_seq_iter m fuel i :
  (m < fuel)%nat → Nat.iter m lcg_msk i ∈ probe_seq fuel msk i 0.
Proof.
  revert m i. induction fuel as [|fuel IH]; intros m i Hm; [lia|]. cbn [probe_seq].
  apply elem_of_app. destruct m as [|m]; [left; by left|right].
  rewrite Nat.iter_succ_r. apply IH. lia.
Qed.

Lemma probe_seq_visits fuel i t :
  0 ≤ i < size → 0 ≤ t < size → (Z.to_nat size ≤ fuel)%nat → t ∈ probe_seq fuel msk i 0.
Proof.
  intros Hi Ht Hfuel. destruct (lcg_visits (Z.to_nat k) i t) as (m & Hm & d & Hd).
  rewrite Z2Nat.id in Hd by done. fold size in Hd.
  replace t with (Nat.iter m lcg_msk i).
  - apply probe_seq_iter. assert (2 ^ Z.to_nat k = Z.to_nat size)%nat; [|lia].
    apply Nat2Z.inj. rewrite Nat2Z.inj_pow, !Z2Nat.id by (pose proof size_pos; lia). done.
  - rewrite lcg_msk_iter by done.
    replace (Nat.iter m lcg i) with (t + d * size) by lia.
    rewrite Z.mod_add by (pose proof size_pos; lia). by apply Z.mod_small.
Qed.

(** The rounds until the perturbation is used up. *)
Lemma probe_seq_perturb n m i p :
  0 ≤ p < 2 ^ Z.of_nat n → 0 ≤ i < size →
  ∃ l i', 0 ≤ i' < size ∧ probe_seq (n + m) msk i p = l ++ probe_seq m msk i' 0.
Proof.
  revert i p. induction n as [|n IH]; intros i p Hp Hi.
  { exists [], i. split; [done|]. simpl in *. by replace p with 0 by lia. }
  cbn [Nat.add probe_seq].
  destruct (IH (next_i msk i (next_perturb p)) (next_perturb p)) as (l & i' & Hi' & Hl).
  - unfold next_perturb, PERTURB_SHIFT. rewrite Z.shiftr_div_pow2 by lia.
    rewrite Nat2Z.inj_succ, Z.pow_succ_r in Hp by lia. split; [apply Z.div_pos; lia|].
    apply Z.div_lt_upper_bound; lia.
  - apply land_msk_range.
  - exists (round msk i ++ l), i'. split; [done|]. by rewrite <- app_assoc, <- Hl.
Qed.

Lemma look_seq_visits e t : 0 ≤ hash e → 0 ≤ t < size → t ∈ look_seq e msk.
Proof.
  intros He Ht. unfold look_seq, probe_fuel.
  destruct (probe_seq_perturb (Z.to_nat (Z.log2 (hash e) + 1)) (Z.to_nat (msk + 1))
    (Z.land (hash e) msk) (hash e)) as (l & i' & Hi' & ->).
  - pose proof (Z.log2_nonneg (hash e)). rewrite Z2Nat.id by lia. split; [done|].
    destruct (Z.eq_dec (hash e) 0) as [->|]; [done|]. apply Z.log2_spec. lia.
  - apply land_msk_range.
  - apply elem_of_app. right. apply probe_seq_visits; [done|done|]. unfold msk. lia.
Qed.
End size.

(** ** The invariant *)

(** The entries the class stores are built by [from_elem]; a hash that is not
    negative is what the termination of probing needs. *)
Definition valid (e : Entry) : Prop := e = from_elem (elem e) ∧ 0 ≤ hash e.

Definition count_nonempty (t : list slot) : Z := Z.of_nat (length (filter (λ s, s ≠ Empty) t)).

Definition entries (s : Inner) : list Entry := full_entries (table s).

(** The table has a power of two of slots, at least eight, one of them empty;
    the counters count; and every entry is where a lookup ends. *)
Record Inv0 (s : Inner) : Prop := {
  inv_size : ∃ k, 3 ≤ k ∧ mask s = 2 ^ k - 1 ∧ Z.of_nat (length (table s)) = 2 ^ k;
  inv_fill : fill s = count_nonempty (table s);
  inv_used : used s = Z.of_nat (length (entries s));
  inv_room : fill s ≤ mask s;
  inv_valid : ∀ e, e ∈ entries s → valid e;
  inv_place : ∀ i e, table s !! i = Some (Full e) →
    List.find (stop_at (stop_look e) (table s)) (look_seq e (mask s)) = Some (Z.of_nat i)
}.

(** Between operations less than two thirds of the slots are in use. *)
Record Inv (s : Inner) : Prop := {
  inv_base : Inv0 s;
  inv_load : 3 * fill s < 2 * (mask s + 1)
}.

(** ** Lemmas: tables *)

Lemma table_split (t : list slot) i s :
  t !! i = Some s → ∃ t1 t2, t = t1 ++ s :: t2 ∧ ∀ s', <[i := s']> t = t1 ++ s' :: t2.
Proof.
  intros H. exists (take i t), (drop (S i) t). split; [by rewrite take_drop_middle|].
  intros s'. apply insert_take_drop. by eapply lookup_lt_Some.
Qed.

Lemma elem_of_full_entries t e : e ∈ full_entries t ↔ ∃ i, t !! i = Some (Full e).
Proof.
  unfold full_entries. rewrite list_elem_of_omap. setoid_rewrite <- list_elem_of_lookup.
  split; [intros ([| |e'] & H & [= <-]); done|]. intros H. by exists (Full e).
Qed.

Lemma full_entries_empty n : full_entries (replicate n Empty) = [].
Proof. induction n; simpl; [done|]. exact IHn. Qed.

Lemma count_nonempty_empty n : count_nonempty (replicate n Empty) = 0.
Proof. unfold count_nonempty. induction n; simpl; done. Qed.

Lemma full_entries_app t1 t2 : full_entries (t1 ++ t2) = full_entries t1 ++ full_entries t2.
Proof. apply omap_app. Qed.

Lemma count_nonempty_app t1 t2 : count_nonempty (t1 ++ t2) = count_nonempty t1 + count_nonempty t2.
Proof. unfold count_nonempty. rewrite filter_app, length_app. lia. Qed.

Lemma count_nonempty_cons s t :
  count_nonempty (s :: t) = (if decide (s = Empty) then 0 else 1) + count_nonempty t.
Proof.
  unfold count_nonempty. rewrite filter_cons.
  destruct (decide (s = Empty)), (decide (s ≠ Empty)); try done; simpl; lia.
Qed.

Lemma full_entries_NoDup t :
  (∀ i j e, t !! i = Some (Full e) → t !! j = Some (Full e) → i = j) → NoDup (full_entries t).
Proof.
  induction t as [|s t IH]; intros H; [constructor|].
  assert (NoDup (full_entries t)) as Hnd.
  { apply IH. intros i j e Hi Hj. specialize (H (S i) (S j) e Hi Hj). lia. }
  destruct s as [| |e]; [done|done|]. simpl. constructor; [|done].
  intros (i & Hi)%elem_of_full_entries. specialize (H 0%nat (S i) e eq_refl Hi). lia.
Qed.

(** More slots than non-empty ones: one is empty. *)
Lemma exists_empty t :
  count_nonempty t < Z.of_nat (length t) → ∃ i, t !! i = Some Empty.
Proof.
  induction t as [|s t IH]; [unfold count_nonempty; simpl; lia|].
  rewrite count_nonempty_cons. simpl length.
  destruct (decide (s = Empty)) as [->|Hs]; [by exists 0%nat|].
  intros H. destruct IH as [i Hi]; [lia|]. by exists (S i).
Qed.

Lemma stop_at_set stop t j s y :
  0 ≤ j < Z.of_nat (length t) → 0 ≤ y →
  stop_at stop (set_slot t j s) y = if decide (y = j) then stop s else stop_at stop t y.
Proof.
  intros Hj Hy. unfold stop_at, set_slot. destruct (decide (y = j)) as [->|Hne].
  - rewrite list_lookup_insert_eq; [done|lia].
  - rewrite list_lookup_insert_ne; [done|lia].
Qed.

Lemma look_seq_nonneg k e y : 0 ≤ k → y ∈ look_seq e (2 ^ k - 1) → 0 ≤ y < 2 ^ k.
Proof. intros Hk. apply probe_seq_range; [done|]. by apply land_msk_range. Qed.

(** ** Lemmas: the state after an insertion and a removal *)

Section state.
Implicit Types (s : Inner) (e : Entry).

Lemma entries_NoDup s : Inv0 s → NoDup (entries s).
Proof.
  intros H. apply full_entries_NoDup. intros i j e Hi Hj.
  pose proof (inv_place s H i e Hi). pose proof (inv_place s H j e Hj). naive_solver lia.
Qed.

(** Where a lookup ends. *)
Definition looks s e (j : Z) : Prop :=
  0 ≤ j < mask s + 1 ∧
  List.find (stop_at (stop_look e) (table s)) (look_seq e (mask s)) = Some j ∧
  ((table s !! Z.to_nat j = Some Empty ∧ e ∉ entries s) ∨ table s !! Z.to_nat j = Some (Full e)).

Lemma probe_look s e stop j :
  Inv0 s → List.find (stop_at stop (table s)) (look_seq e (mask s)) = Some j →
  probe (probe_fuel (hash e) (mask s)) stop (table s) (mask s) (Z.land (hash e) (mask s)) (hash e)
    = Ok j.
Proof.
  intros Hinv. destruct (inv_size s Hinv) as (k & Hk & Hm & Hlen). rewrite Hm. intros Hfind.
  rewrite probe_find; [|lia|done|apply land_msk_range; lia]. by unfold look_seq in Hfind; rewrite Hfind.
Qed.

Lemma look_total s e : Inv0 s → 0 ≤ hash e → ∃ j, look_entry s e = Ok j ∧ looks s e j.
Proof.
  intros Hinv He. destruct (inv_size s Hinv) as (k & Hk & Hm & Hlen).
  destruct (List.find (stop_at (stop_look e) (table s)) (look_seq e (mask s))) as [j|] eqn:Hfind.
  - exists j. split.
    { unfold look_entry, look_entry_fuel. pose proof (inv_room s Hinv).
      destruct (Z.leb_spec (fill s) (mask s)); [|lia]. by apply probe_look. }
    pose proof Hfind as (l1 & l2 & Hl & Hstop & _)%find_Some_split.
    assert (0 ≤ j < 2 ^ k) as Hj.
    { apply (look_seq_nonneg k e); [lia|]. rewrite <- Hm, Hl. set_solver. }
    split; [lia|]. split; [done|]. unfold stop_at in Hstop.
    destruct (table s !! Z.to_nat j) as [[| |e']|] eqn:Ej; try done.
    + left. split; [done|]. intros (i & Hi)%elem_of_full_entries.
      pose proof (inv_place s Hinv i e Hi) as Hp. rewrite Hfind in Hp. injection Hp as ->.
      rewrite Nat2Z.id in Ej. congruence.
    + right. simpl in Hstop. apply bool_decide_eq_true in Hstop as ->. done.
  - exfalso. destruct (exists_empty (table s)) as [i Hi].
    { pose proof (inv_room s Hinv). rewrite <- (inv_fill s Hinv). lia. }
    apply find_None_all in Hfind. rewrite Forall_forall in Hfind.
    specialize (Hfind (Z.of_nat i)). unfold stop_at in Hfind.
    rewrite Nat2Z.id, Hi in Hfind. simpl in Hfind.
    assert (Z.of_nat i ∈ look_seq e (mask s)); [|naive_solver].
    rewrite Hm. apply look_seq_visits; [lia|done|]. apply lookup_lt_Some in Hi. lia.
Qed.

(** The state after writing a slot. *)
Definition wrote s (j : Z) (x : slot) (df du : Z) : Inner :=
  mkInner (fill s + df) (mask s) (search s) (set_slot (table s) j x) (used s + du).

(** An entry stays where it is found, as long as its own slot is not written
    and no slot becomes empty. *)
Lemma place_stable s j x i e :
  Inv0 s → 0 ≤ j < mask s + 1 → table s !! i = Some (Full e) → Z.of_nat i ≠ j →
  x ≠ Empty → x ≠ Full e →
  List.find (stop_at (stop_look e) (set_slot (table s) j x)) (look_seq e (mask s)) = Some (Z.of_nat i).
Proof.
  intros Hinv Hj Hi Hne Hx Hxe. destruct (inv_size s Hinv) as (k & Hk & Hm & Hlen).
  pose proof (lookup_lt_Some _ _ _ Hi).
  eapply find_mono; [by apply inv_place| |].
  - rewrite stop_at_set by lia. rewrite decide_False by done.
    unfold stop_at. rewrite Nat2Z.id, Hi. simpl. by apply bool_decide_eq_true.
  - intros y Hy Hf _. rewrite Hm in Hy. apply look_seq_nonneg in Hy; [|lia].
    rewrite stop_at_set by lia. destruct (decide (y = j)); [|done].
    destruct x; simpl; [done|done|]. apply bool_decide_eq_false. congruence.
Qed.

Lemma insert_inv s e j :
  Inv0 s → valid e → looks s e j → table s !! Z.to_nat j = Some Empty → fill s + 1 ≤ mask s →
  Inv0 (wrote s j (Full e) 1 1) ∧ entries (wrote s j (Full e) 1 1) ≡ₚ e :: entries s.
Proof.
  intros Hinv He (Hj & Hfind & Hcase) Hempty Hroom.
  assert (e ∉ entries s) as Hnew by (destruct Hcase as [[_ ?]|?]; [done|congruence]).
  destruct (inv_size s Hinv) as (k & Hk & Hm & Hlen).
  destruct (table_split _ _ _ Hempty) as (t1 & t2 & Ht & Hset).
  assert (entries (wrote s j (Full e) 1 1) ≡ₚ e :: entries s) as Hperm.
  { unfold entries, wrote, set_slot. cbn [table]. rewrite (Hset (Full e)), Ht.
    rewrite !full_entries_app. simpl. symmetry. apply Permutation_middle. }
  split; [|done]. split.
  - exists k. repeat split; [done|done|]. cbn. unfold set_slot. by rewrite length_insert.
  - cbn [fill wrote table]. unfold set_slot. rewrite (Hset (Full e)), (inv_fill s Hinv), Ht.
    rewrite !count_nonempty_app, !count_nonempty_cons. simpl. lia.
  - cbn [used wrote]. rewrite Hperm. simpl. rewrite (inv_used s Hinv). lia.
  - done.
  - intros e'. rewrite Hperm. intros [->|?]%elem_of_cons; [done|by apply inv_valid with s].
  - intros i e' Hi. cbn [table mask wrote] in *. unfold set_slot in Hi.
    destruct (decide (i = Z.to_nat j)) as [->|Hne].
    + rewrite list_lookup_insert_eq in Hi by (apply lookup_lt_Some in Hempty; done).
      injection Hi as <-. rewrite Z2Nat.id by lia.
      eapply find_mono; [exact Hfind| |].
      * rewrite stop_at_set by lia. rewrite decide_True by done. by apply bool_decide_eq_true.
      * intros y Hy Hf Hyj. rewrite Hm in Hy. apply look_seq_nonneg in Hy; [|lia].
        rewrite stop_at_set by lia. by rewrite decide_False.
    + rewrite list_lookup_insert_ne in Hi by done.
      apply place_stable; [done|done|done|lia|done|].
      intros [= ->]. apply Hnew, elem_of_full_entries. eauto.
Qed.

Lemma remove_inv s e j :
  Inv0 s → 0 ≤ j < mask s + 1 → table s !! Z.to_nat j = Some (Full e) →
  Inv0 (wrote s j Removed 0 (-1)) ∧ e :: entries (wrote s j Removed 0 (-1)) ≡ₚ entries s.
Proof.
  intros Hinv Hj Hfull. destruct (inv_size s Hinv) as (k & Hk & Hm & Hlen).
  destruct (table_split _ _ _ Hfull) as (t1 & t2 & Ht & Hset).
  assert (e :: entries (wrote s j Removed 0 (-1)) ≡ₚ entries s) as Hperm.
  { unfold entries, wrote, set_slot. cbn [table]. rewrite (Hset Removed), Ht.
    rewrite !full_entries_app. simpl. apply Permutation_middle. }
  split; [|done]. split.
  - exists k. repeat split; [done|done|]. cbn. unfold set_slot. by rewrite length_insert.
  - cbn [fill wrote table]. unfold set_slot. rewrite (Hset Removed), (inv_fill s Hinv), Ht.
    rewrite !count_nonempty_app, !count_nonempty_cons. simpl. lia.
  - cbn [used wrote]. rewrite (inv_used s Hinv), <- Hperm. simpl. lia.
  - cbn [fill wrote mask]. pose proof (inv_room s Hinv). lia.
  - intros e' He'. apply inv_valid with s; [done|]. rewrite <- Hperm. by right.
  - intros i e' Hi. cbn [table mask wrote] in *. unfold set_slot in Hi.
    destruct (decide (i = Z.to_nat j)) as [->|Hne].
    + rewrite list_lookup_insert_eq in Hi by (apply lookup_lt_Some in Hfull; done). done.
    + rewrite list_lookup_insert_ne in Hi by done. apply place_stable; [done..|lia|done|done].
Qed.
End state.

(** ** Lemmas: the operations on entries *)

Lemma get_slot_Some t i s : t !! Z.to_nat i = Some s → get_slot t i = Ok s.
Proof. unfold get_slot. by intros ->. Qed.

Lemma new_table_inv k srch :
  3 ≤ k → Inv0 (mkInner 0 (2 ^ k - 1) srch (replicate (Z.to_nat (2 ^ k)) Empty) 0).
Proof.
  intros Hk. assert (2 ^ 3 ≤ 2 ^ k) by (apply Z.pow_le_mono_r; lia).
  split; unfold entries; cbn.
  - exists k. repeat split; [done|]. rewrite length_replicate. lia.
  - by rewrite count_nonempty_empty.
  - by rewrite full_entries_empty.
  - lia.
  - rewrite full_entries_empty. intros e He. inversion He.
  - intros i e. rewrite lookup_replicate. by intros [? _].
Qed.

Lemma new_Inner_inv : Inv new_Inner.
Proof. split; [exact (new_table_inv 3 0 ltac:(lia))|done]. Qed.

Lemma contains_entry_spec s e :
  Inv0 s → 0 ≤ hash e → contains_entry s e = Ok (bool_decide (e ∈ entries s)).
Proof.
  intros Hinv He. destruct (look_total s e Hinv He) as (j & Hj & _ & _ & Hcase).
  unfold contains_entry. rewrite Hj. cbn [res_bind].
  destruct Hcase as [[Ht Hn]|Ht]; rewrite (get_slot_Some _ _ _ Ht); cbn [res_bind is_full].
  - by rewrite bool_decide_eq_false_2.
  - rewrite bool_decide_eq_true_2; [done|]. apply elem_of_full_entries. eauto.
Qed.

Lemma insert_entry_spec s e :
  Inv0 s → valid e → fill s + 1 ≤ mask s →
  ∃ b s', insert_entry s e = Ok (b, s') ∧ Inv0 s' ∧ mask s' = mask s ∧
    fill s' = fill s + (if b then 1 else 0) ∧ ∀ e', e' ∈ entries s' ↔ e' = e ∨ e' ∈ entries s.
Proof.
  intros Hinv He Hroom. destruct (look_total s e Hinv (proj2 He)) as (j & Hj & Hlooks).
  pose proof Hlooks as (_ & _ & Hcase). unfold insert_entry. rewrite Hj. cbn [res_bind].
  destruct Hcase as [[Ht Hn]|Ht]; rewrite (get_slot_Some _ _ _ Ht); cbn [res_bind].
  - destruct (insert_inv s e j Hinv He Hlooks Ht Hroom) as [Hinv' Hperm].
    exists true, (wrote s j (Full e) 1 1). do 4 (split; [done|]).
    intros e'. rewrite Hperm. apply elem_of_cons.
  - exists false, s. do 3 (split; [done|]). split; [lia|]. intros e'.
    split; [by right|]. intros [->|?]; [|done]. apply elem_of_full_entries. eauto.
Qed.

Lemma insert_entry_clean_spec s e :
  Inv0 s → valid e → e ∉ entries s → fill s + 1 ≤ mask s →
  ∃ s', insert_entry_clean s e = Ok s' ∧ Inv0 s' ∧ mask s' = mask s ∧ fill s' = fill s + 1 ∧
    entries s' ≡ₚ e :: entries s.
Proof.
  intros Hinv He Hn Hroom. destruct (look_total s e Hinv (proj2 He)) as (j & _ & Hlooks).
  pose proof Hlooks as (_ & Hfind & Hcase).
  destruct Hcase as [[Ht _]|Ht]; [|exfalso; apply Hn, elem_of_full_entries; eauto].
  destruct (insert_inv s e j Hinv He Hlooks Ht Hroom) as [Hinv' Hperm].
  exists (wrote s j (Full e) 1 1). unfold insert_entry_clean.
  rewrite (probe_look s e stop_clean j); [done|done|].
  rewrite <- Hfind. apply find_ext. intros y. unfold stop_at.
  destruct (table s !! Z.to_nat y) as [[| |e']|] eqn:E; try done. simpl. symmetry.
  apply bool_decide_eq_false. intros ->. apply Hn, elem_of_full_entries. eauto.
Qed.

Lemma clean_fold_spec es s :
  Inv0 s → NoDup es → (∀ e, e ∈ es → valid e ∧ e ∉ entries s) →
  fill s + Z.of_nat (length es) ≤ mask s →
  ∃ s', res_fold insert_entry_clean s es = Ok s' ∧ Inv0 s' ∧ mask s' = mask s ∧
    fill s' = fill s + Z.of_nat (length es) ∧ entries s' ≡ₚ es ++ entries s.
Proof.
  revert s. induction es as [|e es IH]; intros s Hinv Hnd Hes Hroom; cbn [res_fold].
  { exists s. do 3 (split; [done|]). split; [simpl; lia|done]. }
  apply NoDup_cons in Hnd as [Hne Hnd]. cbn [length] in *.
  destruct (insert_entry_clean_spec s e Hinv) as (s1 & -> & Hinv1 & Hm & Hf & Hp);
    [apply Hes; by left|apply Hes; by left|lia|]. cbn [res_bind].
  destruct (IH s1 Hinv1 Hnd) as (s' & -> & Hinv' & Hm' & Hf' & Hp'); [| lia |].
  - intros e' He'. split; [apply Hes; by right|]. rewrite Hp. intros [->|Hin]%elem_of_cons; [done|].
    by apply (Hes e'); [right|].
  - exists s'. do 2 (split; [done|]). split; [lia|]. split; [lia|]. rewrite Hp', Hp. simpl. symmetry. apply Permutation_middle.
Qed.

Lemma grow_size_spec fuel k m :
  3 ≤ k → m < 2 ^ (k + Z.of_nat fuel - 1) → (0 < fuel)%nat →
  ∃ k', 3 ≤ k' ∧ grow_size fuel (2 ^ k) m = Ok (2 ^ k') ∧ m < 2 ^ k'.
Proof.
  revert k. induction fuel as [|fuel IH]; intros k Hk Hm Hfuel; [lia|]. cbn [grow_size].
  destruct (Z.leb_spec (2 ^ k) m) as [Hle|Hlt]; [|eauto].
  replace (2 ^ k * 2) with (2 ^ (k + 1)) by (rewrite Z.pow_add_r by lia; done).
  assert (0 < fuel)%nat.
  { destruct fuel; [|lia]. rewrite Z.add_simpl_r in Hm. lia. }
  destruct (IH (k + 1)) as (k' & ? & ? & ?); [lia| |done|eauto].
  replace (k + 1 + Z.of_nat fuel - 1) with (k + Z.of_nat (S fuel) - 1) by lia. done.
Qed.

Lemma resize_spec s m :
  Inv0 s → 2 * used s ≤ m →
  ∃ s', resize s m = Ok s' ∧ Inv s' ∧ entries s' ≡ₚ entries s ∧ m < mask s' + 1 ∧ fill s' = used s.
Proof.
  intros Hinv Hm. pose proof (inv_used s Hinv) as Hu. unfold resize.
  destruct (Z.ltb_spec m 0); [lia|].
  destruct (grow_size_spec (S (Z.to_nat (Z.log2 m + 1))) 3 m) as (k & Hk & Hg & Hmk); [lia| |lia|].
  { pose proof (Z.log2_nonneg m). rewrite Nat2Z.inj_succ, Z2Nat.id by lia.
    destruct (Z.eq_dec m 0) as [->|]; [apply Z.pow_pos_nonneg; lia|].
    eapply Z.lt_le_trans; [apply Z.log2_spec; lia|]. apply Z.pow_le_mono_r; lia. }
  change (2 ^ 3) with MIN_SIZE in Hg. rewrite Hg. cbn [res_bind].
  set (s0 := mkInner 0 (2 ^ k - 1) (search s) (replicate (Z.to_nat (2 ^ k)) Empty) 0).
  assert (entries s0 = []) as He0 by apply full_entries_empty.
  destruct (clean_fold_spec (full_entries (table s)) s0) as (s' & -> & Hinv' & Hm' & Hf' & Hp').
  - by apply new_table_inv.
  - by apply entries_NoDup.
  - intros e He. split; [by apply inv_valid with s|]. rewrite He0. set_solver.
  - change (full_entries (table s)) with (entries s). cbn [s0 fill mask]. lia.
  - exists s'. change (full_entries (table s)) with (entries s) in *.
    cbn [s0 fill mask] in Hf', Hm'. rewrite He0, app_nil_r in Hp'.
    split; [done|]. split; [split; [done|lia]|]. split; [done|]. lia.
Qed.

Lemma grow_spec s :
  Inv0 s → ∃ s', grow s = Ok s' ∧ Inv s' ∧ entries s' ≡ₚ entries s.
Proof.
  intros Hinv. pose proof (inv_used s Hinv). unfold grow.
  destruct (resize_spec s (if Z.ltb 50000 (used s) then used s * 2 else used s * 4) Hinv)
    as (s' & ? & ? & ? & _); [destruct (Z.ltb _ _); lia|eauto].
Qed.

Lemma mask_min s : Inv0 s → 7 ≤ mask s.
Proof.
  intros Hinv. destruct (inv_size s Hinv) as (k & Hk & Hm & _).
  assert (2 ^ 3 ≤ 2 ^ k) by (apply Z.pow_le_mono_r; lia). lia.
Qed.

Lemma inv_room_load s : Inv s → fill s + 1 ≤ mask s.
Proof. intros [Hinv Hload]. pose proof (mask_min s Hinv). lia. Qed.

Lemma add_entry_spec s e :
  Inv s → valid e →
  ∃ s', add_entry s e = Ok s' ∧ Inv s' ∧ ∀ e', e' ∈ entries s' ↔ e' = e ∨ e' ∈ entries s.
Proof.
  intros Hs He. pose proof (inv_room_load s Hs) as Hroom. destruct Hs as [Hinv Hload].
  destruct (insert_entry_spec s e Hinv He Hroom) as (b & s' & Hins & Hinv' & Hm & Hf & Hent).
  unfold add_entry. rewrite Hins. cbn [res_bind].
  destruct (b && Z.leb ((mask s' + 1) * 2) (fill s' * 3)) eqn:E.
  - destruct (grow_spec s' Hinv') as (s'' & -> & Hinv'' & Hp). exists s''.
    do 2 (split; [done|]). intros e'. by rewrite Hp.
  - exists s'. split; [done|]. split; [|done]. split; [done|].
    destruct b; simpl in E; [apply Z.leb_gt in E; lia|lia].
Qed.

Lemma discard_entry_spec s e :
  Inv s → 0 ≤ hash e →
  ∃ s', discard_entry s e = Ok (bool_decide (e ∈ entries s), s') ∧ Inv s' ∧
    ∀ e', e' ∈ entries s' ↔ e' ≠ e ∧ e' ∈ entries s.
Proof.
  intros [Hinv Hload] He. destruct (look_total s e Hinv He) as (j & Hj & Hrange & _ & Hcase).
  unfold discard_entry. rewrite Hj. cbn [res_bind].
  destruct Hcase as [[Ht Hn]|Ht]; rewrite (get_slot_Some _ _ _ Ht); cbn [res_bind is_full].
  - exists s. rewrite bool_decide_eq_false_2 by done. split; [done|]. split; [done|].
    naive_solver.
  - assert (e ∈ entries s) as Hin by (apply elem_of_full_entries; eauto).
    rewrite bool_decide_eq_true_2 by done.
    destruct (remove_inv s e j Hinv Hrange Ht) as [Hinv' Hperm].
    assert (NoDup (e :: entries (wrote s j Removed 0 (-1)))) as [Hne _]%NoDup_cons
      by (rewrite Hperm; by apply entries_NoDup).
    exists (wrote s j Removed 0 (-1)). unfold wrote at 1. rewrite Z.add_0_r. split; [done|].
    split; [split; [done|cbn; lia]|]. intros e'. rewrite <- Hperm, elem_of_cons. naive_solver.
Qed.
