(* ===== verification/CompatSetSpec.v ===== *)
(** * CompatSet implements finite sets

    The operations of [CompatSet] refine those of finite sets of integers: a
    table that satisfies the invariant represents a set ([rep]), and every
    operation returns and represents the set it should.  The two operations that
    do not, [==] and [intersection] with a larger set, and the probing of a
    negative hash, which does not end, are stated as they behave. *)
From S2P Require Import Prelude CompatSet.
Open Scope Z_scope.

(** ** Representation *)

Definition rep (s : Inner) (X : gset Z) : Prop :=
  Inv s ∧ ∀ x, x ∈ X ↔ from_elem x ∈ entries s.

(** The operand [o] of an operation on [s], which represents [X], stands for [Y]. *)
Definition other_rep (X : gset Z) (o : Other) (Y : gset Z) : Prop :=
  match o with
  | OtherIter l | OtherSet l => Forall (λ x, 0 ≤ x) l ∧ Y = list_to_set l
  | OtherCompat inner => rep inner Y
  | OtherSelf => Y = X
  end.

(** ** Lemmas: hashes *)

Lemma from_elem_inj x y : from_elem x = from_elem y → x = y.
Proof. by intros [= ->]. Qed.

Lemma py_hash_nonneg x : 0 ≤ x → 0 ≤ py_hash x.
Proof.
  intros Hx. unfold py_hash.
  assert (0 ≤ Z.sgn x * (Z.abs x mod (2 ^ 61 - 1))).
  { apply Z.mul_nonneg_nonneg; [lia|]. apply Z.mod_pos_bound. lia. }
  destruct (Z.eqb_spec (Z.sgn x * (Z.abs x mod (2 ^ 61 - 1))) (-1)); lia.
Qed.

Lemma valid_from_elem x : 0 ≤ x → valid (from_elem x).
Proof. intros Hx. split; [done|]. by apply py_hash_nonneg. Qed.

(** ** Lemmas: iteration *)

Lemma next_fuel_spec s fuel pos :
  Inv0 s → 0 ≤ pos ≤ mask s + 1 → (Z.to_nat (mask s + 1 - pos) < fuel)%nat →
  ∃ pos' x, next_fuel fuel s pos = Ok (pos', x) ∧
    match x with
    | None => full_entries (drop (Z.to_nat pos) (table s)) = []
    | Some e => pos < pos' ≤ mask s + 1 ∧
        full_entries (drop (Z.to_nat pos) (table s)) =
          e :: full_entries (drop (Z.to_nat pos') (table s))
    end.
Proof.
  intros Hinv. destruct (inv_size s Hinv) as (k & Hk & Hm & Hlen).
  revert pos. induction fuel as [|fuel IH]; intros pos Hpos Hfuel; [lia|]. cbn [next_fuel].
  destruct (Z.ltb_spec (mask s) pos) as [Hlt|Hle].
  { exists pos, None. split; [done|]. rewrite drop_ge by lia. done. }
  destruct (lookup_lt_is_Some_2 (table s) (Z.to_nat pos)) as [x Hx]; [lia|].
  rewrite (get_slot_Some _ _ _ Hx). cbn [res_bind].
  assert (drop (Z.to_nat pos) (table s) = x :: drop (Z.to_nat (pos + 1)) (table s)) as ->.
  { rewrite (drop_S _ x) by done. f_equal. f_equal. lia. }
  destruct (IH (pos + 1)) as (pos' & y & Hnext & Hy); [lia|lia|].
  destruct x as [| |e].
  - exists pos', y. split; [done|]. destruct y as [e|]; [|done]. destruct Hy. split; [lia|done].
  - exists pos', y. split; [done|]. destruct y as [e|]; [|done]. destruct Hy. split; [lia|done].
  - exists (pos + 1), (Some e). split; [done|]. split; [lia|done].
Qed.

Lemma drain_spec s fuel pos :
  Inv0 s → 0 ≤ pos ≤ mask s + 1 → (Z.to_nat (mask s + 1 - pos) < fuel)%nat →
  drain fuel s pos = Ok (full_entries (drop (Z.to_nat pos) (table s))).
Proof.
  intros Hinv. revert pos. induction fuel as [|fuel IH]; intros pos Hpos Hfuel; [lia|].
  cbn [drain].
  destruct (next_fuel_spec s (S (Z.to_nat (mask s + 1 - pos))) pos Hinv Hpos ltac:(lia))
    as (pos' & x & Hnext & Hx).
  unfold next. rewrite Hnext. cbn [res_bind]. destruct x as [e|].
  - destruct Hx as [Hpos' ->]. rewrite IH by lia. done.
  - by rewrite Hx.
Qed.

Lemma iter_entries_spec s : Inv0 s → iter_entries s = Ok (entries s).
Proof.
  intros Hinv. destruct (inv_size s Hinv) as (k & Hk & Hm & _). unfold iter_entries.
  rewrite drain_spec; [done|done| |lia]. lia.
Qed.

Lemma iter_elems_spec s : Inv0 s → iter_elems s = Ok (map elem (entries s)).
Proof. intros H. unfold iter_elems. by rewrite iter_entries_spec. Qed.

(** The loop of [pop] reaches a full slot before it is back where it started. *)
Lemma pop_loop_spec s fuel i f e :
  Inv0 s → 0 ≤ i < mask s + 1 → table s !! Z.to_nat f = Some (Full e) → 0 ≤ f < mask s + 1 →
  (Z.to_nat (if Z.leb i f then f - i else f - i + (mask s + 1)) < fuel)%nat →
  ∃ j e', pop_loop fuel s i = Ok (j, e') ∧ 0 ≤ j < mask s + 1 ∧
    table s !! Z.to_nat j = Some (Full e').
Proof.
  intros Hinv. destruct (inv_size s Hinv) as (k & Hk & Hm & Hlen).
  revert i. induction fuel as [|fuel IH]; intros i Hi Hf Hrf Hfuel; [lia|]. cbn [pop_loop].
  destruct (lookup_lt_is_Some_2 (table s) (Z.to_nat i)) as [x Hx]; [lia|].
  rewrite (get_slot_Some _ _ _ Hx). cbn [res_bind].
  assert (i ≠ f → ∀ i', i' = (if Z.ltb (mask s) (i + 1) then 0 else i + 1) →
    ∃ j e', pop_loop fuel s i' = Ok (j, e') ∧ 0 ≤ j < mask s + 1 ∧
      table s !! Z.to_nat j = Some (Full e')) as Hstep.
  { intros Hne i' ->. apply IH; [|done|done|].
    - destruct (Z.ltb_spec (mask s) (i + 1)); lia.
    - destruct (Z.ltb_spec (mask s) (i + 1)), (Z.leb_spec i f);
        repeat match goal with |- context [Z.leb ?a ?b] => destruct (Z.leb_spec a b) end; lia. }
  destruct x as [| |e']; [apply Hstep; congruence..|]. by exists i, e'.
Qed.

(** ** Lemmas: merging *)

Lemma full_le_nonempty t : Z.of_nat (length (full_entries t)) ≤ count_nonempty t.
Proof.
  induction t as [|s t IH]; [done|]. rewrite count_nonempty_cons. destruct s as [| |e].
  - exact IH.
  - rewrite decide_False by done. change (full_entries (Removed :: t)) with (full_entries t). lia.
  - rewrite decide_False by done.
    change (full_entries (Full e :: t)) with (e :: full_entries t). cbn [length]. lia.
Qed.

Lemma fill_zero_entries s : Inv0 s → fill s = 0 → entries s = [].
Proof.
  intros Hinv Hf. pose proof (full_le_nonempty (table s)) as H.
  rewrite <- (inv_fill s Hinv), Hf in H. unfold entries.
  destruct (full_entries (table s)); [done|]. simpl in H. lia.
Qed.

Lemma insert_fold_spec es s :
  Inv0 s → (∀ e, e ∈ es → valid e) → fill s + Z.of_nat (length es) ≤ mask s →
  ∃ s', res_fold (λ s e, let! (_, s') := insert_entry s e in Ok s') s es = Ok s' ∧ Inv0 s' ∧
    mask s' = mask s ∧ fill s' ≤ fill s + Z.of_nat (length es) ∧
    ∀ e, e ∈ entries s' ↔ e ∈ entries s ∨ e ∈ es.
Proof.
  revert s. induction es as [|e es IH]; intros s Hinv Hes Hroom; cbn [res_fold].
  { exists s. do 3 (split; [done|]). split; [simpl; lia|]. set_solver. }
  cbn [length] in *.
  destruct (insert_entry_spec s e Hinv) as (b & s1 & -> & Hinv1 & Hm & Hf & Hent);
    [apply Hes; by left|lia|]. cbn [res_bind].
  destruct (IH s1 Hinv1) as (s' & -> & Hinv' & Hm' & Hf' & Hent');
    [intros; apply Hes; by right|destruct b; lia|].
  exists s'. split; [done|]. split; [done|]. split; [lia|]. split; [destruct b; lia|].
  intros e'. rewrite Hent', Hent. set_solver.
Qed.

Lemma Inv_search s srch : Inv s → Inv (mkInner (fill s) (mask s) srch (table s) (used s)).
Proof. intros [[] ?]. by split; [split|]. Qed.

Lemma merge_spec s o :
  Inv s → Inv o →
  ∃ s', merge s o = Ok s' ∧ Inv s' ∧ ∀ e, e ∈ entries s' ↔ e ∈ entries s ∨ e ∈ entries o.
Proof.
  intros Hs Ho. pose proof (inv_used o (inv_base o Ho)) as Huo.
  pose proof (inv_used s (inv_base s Hs)) as Hus. unfold merge.
  destruct (Z.eqb_spec (used o) 0) as [H0|H0].
  { exists s. split; [done|]. split; [done|]. intros e.
    assert (entries o = []) as -> by (destruct (entries o); [done|simpl in *; lia]). set_solver. }
  assert (∃ s1, (if Z.leb ((mask s + 1) * 2) ((fill s + used o) * 3)
                 then resize s ((used s + used o) * 2) else Ok s) = Ok s1 ∧ Inv s1 ∧
    (∀ e, e ∈ entries s1 ↔ e ∈ entries s) ∧ 3 * (fill s1 + used o) < 2 * (mask s1 + 1))
    as (s1 & -> & Hs1 & Hent & Hroom).
  { destruct (Z.leb_spec ((mask s + 1) * 2) ((fill s + used o) * 3)).
    - destruct (resize_spec s ((used s + used o) * 2) (inv_base s Hs)) as (s1 & ? & ? & Hp & ? & ?);
        [lia|]. exists s1. split; [done|]. split; [done|]. split; [|lia]. intros e. by rewrite Hp.
    - exists s. do 2 (split; [done|]). split; [done|lia]. }
  cbn [res_bind]. change (full_entries (table o)) with (entries o).
  assert (∀ e, e ∈ entries o → valid e) as Hval by (intros; by eapply inv_valid; [apply Ho|]).
  destruct (Z.eqb_spec (fill s1) 0) as [Hf0|Hf0]; cbn [andb].
  - pose proof (fill_zero_entries s1 (inv_base s1 Hs1) Hf0) as He.
    destruct (Z.eqb (mask s1) (mask o) && Z.eqb (fill o) (used o)) eqn:E; cbn [andb].
    + apply andb_true_iff in E as [->%Z.eqb_eq _]. eexists. split; [reflexivity|].
      split; [by apply Inv_search|]. intros e. rewrite <- Hent, He.
      unfold entries. cbn [table]. set_solver.
    + destruct (clean_fold_spec (entries o) s1) as (s' & -> & Hinv' & Hm' & Hf' & Hp').
      * apply Hs1.
      * apply entries_NoDup, Ho.
      * intros e Hin. split; [by apply Hval|]. rewrite He. set_solver.
      * pose proof (mask_min s1 (inv_base s1 Hs1)). lia.
      * exists s'. split; [done|]. split; [split; [done|lia]|]. intros e. rewrite Hp', He, app_nil_r.
        rewrite <- Hent, He. set_solver.
  - destruct (insert_fold_spec (entries o) s1 (inv_base s1 Hs1) Hval) as (s' & -> & Hinv' & Hm' & Hf' & Hent').
    + pose proof (mask_min s1 (inv_base s1 Hs1)). lia.
    + exists s'. split; [done|]. split; [split; [done|lia]|]. intros e. by rewrite Hent', Hent.
Qed.

(** ** Lemmas: the operations on elements *)

Lemma rep_valid s X e : rep s X → e ∈ entries s → valid e ∧ elem e ∈ X.
Proof.
  intros [Hs HX] He. pose proof (inv_valid s (inv_base s Hs) e He) as [Heq Hh].
  split; [done|]. apply HX. by rewrite <- Heq.
Qed.

Lemma rep_elem s X x : rep s X → x ∈ X → 0 ≤ py_hash x.
Proof. intros [Hs HX] Hx%HX. by apply (inv_valid s (inv_base s Hs)) in Hx as [_ ?]. Qed.

Lemma rep_elems s X x : rep s X → x ∈ map elem (entries s) ↔ x ∈ X.
Proof.
  intros Hrep. split.
  - intros (e & -> & He)%list_elem_of_fmap. by eapply rep_valid.
  - intros Hx%Hrep. apply list_elem_of_fmap. by exists (from_elem x).
Qed.

Lemma rep_NoDup s X : rep s X → NoDup (map elem (entries s)).
Proof.
  intros Hrep. apply NoDup_fmap_2_strong; [|apply entries_NoDup, Hrep].
  intros e1 e2 H1 H2 Heq. destruct (rep_valid s X e1 Hrep H1) as [[-> _] _].
  destruct (rep_valid s X e2 Hrep H2) as [[-> _] _]. by rewrite Heq.
Qed.

Lemma rep_perm s X : rep s X → map elem (entries s) ≡ₚ elements X.
Proof.
  intros Hrep. apply NoDup_Permutation; [by eapply rep_NoDup|apply NoDup_elements|].
  intros x. rewrite elem_of_elements. by apply rep_elems.
Qed.

Lemma rep_used s X : rep s X → used s = Z.of_nat (size X).
Proof.
  intros Hrep. rewrite (inv_used s (inv_base s (proj1 Hrep))). unfold size, set_size. simpl.
  by rewrite <- (rep_perm s X Hrep), length_map.
Qed.

Lemma rep_new : rep new_Inner ∅.
Proof. split; [apply new_Inner_inv|]. intros x. split; [set_solver|]. intros H. inversion H. Qed.

Lemma contains_rep s X x : rep s X → 0 ≤ x → contains s x = Ok (bool_decide (x ∈ X)).
Proof.
  intros Hrep Hx. unfold contains.
  rewrite contains_entry_spec; [|apply Hrep|by apply py_hash_nonneg].
  f_equal. apply bool_decide_ext. symmetry. apply Hrep.
Qed.

Lemma add_rep_hash s X x : rep s X → 0 ≤ py_hash x → ∃ s', add s x = Ok s' ∧ rep s' (X ∪ {[x]}).
Proof.
  intros [Hs HX] Hx. destruct (add_entry_spec s (from_elem x) Hs) as (s' & Hadd & Hs' & Hent);
    [by split|]. exists s'. split; [done|]. split; [done|].
  intros y. rewrite Hent, elem_of_union, elem_of_singleton, HX.
  pose proof (from_elem_inj y x). naive_solver.
Qed.

Lemma add_rep s X x : rep s X → 0 ≤ x → ∃ s', add s x = Ok s' ∧ rep s' (X ∪ {[x]}).
Proof. intros Hs Hx. by apply add_rep_hash, py_hash_nonneg. Qed.

Lemma discard_rep_hash s X x :
  rep s X → 0 ≤ py_hash x →
  ∃ s', discard s x = Ok (bool_decide (x ∈ X), s') ∧ rep s' (X ∖ {[x]}).
Proof.
  intros [Hs HX] Hx.
  destruct (discard_entry_spec s (from_elem x) Hs Hx) as (s' & Hd & Hs' & Hent).
  exists s'. split; [unfold discard; rewrite Hd; do 2 f_equal; apply bool_decide_ext; by rewrite HX|].
  split; [done|]. intros y. rewrite Hent, elem_of_difference, elem_of_singleton, HX.
  pose proof (from_elem_inj y x). naive_solver.
Qed.

Lemma discard_rep s X x :
  rep s X → 0 ≤ x → ∃ s', discard s x = Ok (bool_decide (x ∈ X), s') ∧ rep s' (X ∖ {[x]}).
Proof. intros Hs Hx. by apply discard_rep_hash, py_hash_nonneg. Qed.

Lemma rep_ext s X Y : rep s X → (∀ x, x ∈ X ↔ x ∈ Y) → rep s Y.
Proof. intros [Hs HX] HXY. split; [done|]. intros x. by rewrite <- HXY. Qed.

Lemma add_all_rep l s X :
  rep s X → Forall (λ x, 0 ≤ x) l → ∃ s', res_fold add s l = Ok s' ∧ rep s' (X ∪ list_to_set l).
Proof.
  revert s X. induction l as [|x l IH]; intros s X Hrep Hl; cbn [res_fold].
  { exists s. split; [done|]. eapply rep_ext; [done|]. set_solver. }
  apply Forall_cons in Hl as [Hx Hl]. destruct (add_rep s X x Hrep Hx) as (s1 & -> & H1).
  cbn [res_bind]. destruct (IH s1 _ H1 Hl) as (s' & -> & H'). exists s'. split; [done|].
  eapply rep_ext; [done|]. set_solver.
Qed.

Lemma discard_all_rep l s X :
  rep s X → Forall (λ x, 0 ≤ py_hash x) l →
  ∃ s', discard_all s l = Ok s' ∧ rep s' (X ∖ list_to_set l).
Proof.
  unfold discard_all. revert s X. induction l as [|x l IH]; intros s X Hrep Hl; cbn [res_fold].
  { exists s. split; [done|]. eapply rep_ext; [done|]. set_solver. }
  apply Forall_cons in Hl as [Hx Hl]. destruct Hrep as [Hs HX].
  destruct (discard_entry_spec s (from_elem x) Hs Hx) as (s1 & Hd & Hs1 & Hent).
  change (discard s x) with (discard_entry s (from_elem x)). rewrite Hd. cbn [res_bind].
  destruct (IH s1 (X ∖ {[x]})) as (s' & -> & H').
  - split; [done|]. intros y. rewrite Hent, elem_of_difference, elem_of_singleton, HX.
    pose proof (from_elem_inj y x). naive_solver.
  - done.
  - exists s'. split; [done|]. eapply rep_ext; [done|]. set_solver.
Qed.

Lemma grow_rep s X : rep s X → ∃ s', grow s = Ok s' ∧ rep s' X.
Proof.
  intros [Hs HX]. destruct (grow_spec s (inv_base s Hs)) as (s' & -> & Hs' & Hp).
  exists s'. split; [done|]. split; [done|]. intros x. by rewrite Hp.
Qed.

Lemma merge_rep s X o Y : rep s X → rep o Y → ∃ s', merge s o = Ok s' ∧ rep s' (X ∪ Y).
Proof.
  intros [Hs HX] [Ho HY]. destruct (merge_spec s o Hs Ho) as (s' & -> & Hs' & Hent).
  exists s'. split; [done|]. split; [done|]. intros x. by rewrite Hent, elem_of_union, HX, HY.
Qed.

Lemma copy_rep s X : rep s X → ∃ s', copy s = Ok s' ∧ rep s' X.
Proof.
  intros Hrep. destruct (merge_rep new_Inner ∅ s X rep_new Hrep) as (s' & ? & H').
  exists s'. split; [done|]. eapply rep_ext; [done|]. set_solver.
Qed.

Lemma update_rep s X o Y :
  rep s X → other_rep X o Y → ∃ s', update s o = Ok s' ∧ rep s' (X ∪ Y).
Proof.
  intros Hrep. destruct o as [l|l|i|]; cbn [other_rep update].
  - intros [Hl ->]. by apply add_all_rep.
  - intros [Hl ->]. by apply add_all_rep.
  - by apply merge_rep.
  - intros ->. exists s. split; [done|]. eapply rep_ext; [done|]. set_solver.
Qed.

Lemma other_elems_rep s X o Y :
  rep s X → other_rep X o Y →
  ∃ l, other_elems s o = Ok l ∧ Forall (λ x, 0 ≤ py_hash x) l ∧ ∀ x, x ∈ l ↔ x ∈ Y.
Proof.
  intros Hrep. destruct o as [l|l|i|]; cbn [other_rep other_elems].
  - intros [Hl ->]. exists l. split; [done|]. split; [|set_solver].
    eapply Forall_impl; [done|]. apply py_hash_nonneg.
  - intros [Hl ->]. exists l. split; [done|]. split; [|set_solver].
    eapply Forall_impl; [done|]. apply py_hash_nonneg.
  - intros Hi. rewrite iter_elems_spec by apply Hi. eexists. split; [done|].
    split; [|intros x; by apply rep_elems]. apply Forall_forall. intros x Hx.
    eapply rep_elem; [exact Hi|]. by eapply rep_elems.
  - intros ->. rewrite iter_elems_spec by apply Hrep. eexists. split; [done|].
    split; [|intros x; by apply rep_elems]. apply Forall_forall. intros x Hx.
    eapply rep_elem; [exact Hrep|]. by eapply rep_elems.
Qed.

Lemma difference_update_rep s X o Y :
  rep s X → other_rep X o Y → ∃ s', difference_update s o = Ok s' ∧ rep s' (X ∖ Y).
Proof.
  intros Hrep Ho. assert (o = OtherSelf ∨ o ≠ OtherSelf) as [->|Hne] by (destruct o; auto).
  { exists new_Inner. split; [done|]. simpl in Ho. subst Y. eapply rep_ext; [apply rep_new|].
    set_solver. }
  destruct (other_elems_rep s X o Y Hrep Ho) as (l & Hl & Hpos & HY).
  destruct (discard_all_rep l s X Hrep Hpos) as (s1 & Hd & H1).
  assert (rep s1 (X ∖ Y)) as H2 by (eapply rep_ext; [done|]; set_solver).
  assert (∃ s', (if Z.leb (mask s1) ((fill s1 - used s1) * 5) then grow s1 else Ok s1) = Ok s' ∧
    rep s' (X ∖ Y)) as (s' & Hs' & Hrep').
  { destruct (Z.leb _ _); [by apply grow_rep|eauto]. }
  exists s'. split; [|done]. destruct o; try done; unfold difference_update;
    rewrite Hl; cbn [res_bind]; by rewrite Hd.
Qed.

Lemma keep_spec test (P : Entry → bool) es :
  (∀ e, e ∈ es → valid e ∧ test e = Ok (P e)) →
  ∃ r, keep test es = Ok r ∧ Inv r ∧ ∀ e, e ∈ entries r ↔ e ∈ es ∧ P e = true.
Proof.
  unfold keep. intros Hes.
  assert (∀ r0, Inv r0 → ∃ r, res_fold (λ r e, let! b := test e in
      if b then add_entry r e else Ok r) r0 es = Ok r ∧ Inv r ∧
      ∀ e, e ∈ entries r ↔ e ∈ entries r0 ∨ (e ∈ es ∧ P e = true)) as H.
  { induction es as [|e es IH]; intros r0 Hr0; cbn [res_fold].
    { exists r0. split; [done|]. split; [done|]. set_solver. }
    destruct (Hes e) as [He ->]; [by left|]. cbn [res_bind].
    assert (∃ r1, (if P e then add_entry r0 e else Ok r0) = Ok r1 ∧ Inv r1 ∧
      ∀ e', e' ∈ entries r1 ↔ e' ∈ entries r0 ∨ (e' = e ∧ P e = true)) as (r1 & -> & Hr1 & Hent).
    { destruct (P e); [|exists r0; naive_solver].
      destruct (add_entry_spec r0 e Hr0 He) as (r1 & ? & ? & ?). exists r1. naive_solver. }
    cbn [res_bind]. destruct (IH ltac:(intros; apply Hes; by right) r1 Hr1) as (r & -> & Hr & Hent').
    exists r. split; [done|]. split; [done|]. intros e'. rewrite Hent', Hent, elem_of_cons.
    naive_solver. }
  destruct (H new_Inner new_Inner_inv) as (r & ? & ? & Hr). exists r. split; [done|].
  split; [done|]. intros e. rewrite Hr. split; [intros [He|?]; [inversion He|done]|by right].
Qed.

(** Keeping what passes a test that agrees with membership in [Y]. *)
Lemma keep_rep s X test Z0 (Y : gset Z) :
  rep s X → Z0 = entries s →
  (∀ e, e ∈ entries s → test e = Ok (bool_decide (elem e ∈ Y))) →
  ∃ r, keep test Z0 = Ok r ∧ rep r (X ∩ Y).
Proof.
  intros Hrep -> Htest.
  destruct (keep_spec test (λ e, bool_decide (elem e ∈ Y)) (entries s)) as (r & -> & Hr & Hent).
  { intros e He. split; [by eapply rep_valid|by apply Htest]. }
  exists r. split; [done|]. split; [done|]. intros x.
  rewrite Hent, bool_decide_eq_true, elem_of_intersection, (proj2 Hrep x). done.
Qed.

Lemma difference_rep s X o Y :
  rep s X → other_rep X o Y → ∃ s', difference s o = Ok s' ∧ rep s' (X ∖ Y).
Proof.
  intros Hrep Ho.
  assert (∀ o', other_rep X o' Y → o' ≠ OtherSelf →
    ∃ s', (let! r := copy s in difference_update r o') = Ok s' ∧ rep s' (X ∖ Y)) as Hcopy.
  { intros o' Ho' Hne. destruct (copy_rep s X Hrep) as (r & -> & Hr). cbn [res_bind].
    by apply difference_update_rep. }
  assert (∀ test, (∀ e, e ∈ entries s → test e = Ok (bool_decide (elem e ∉ Y))) →
    ∃ s', keep test (entries s) = Ok s' ∧ rep s' (X ∖ Y)) as Hkeep.
  { intros test Htest. destruct (keep_rep s X test (entries s) (X ∖ Y) Hrep eq_refl)
      as (r & ? & Hr).
    - intros e He. rewrite Htest by done. f_equal. apply bool_decide_ext.
      destruct (rep_valid s X e Hrep He). set_solver.
    - exists r. split; [done|]. eapply rep_ext; [done|]. set_solver. }
  assert (∀ i, rep i Y → ∀ e, e ∈ entries s →
    (let! b := contains_entry i e in Ok (negb b)) = Ok (bool_decide (elem e ∉ Y))) as Hnot.
  { intros i Hi e He. destruct (rep_valid s X e Hrep He) as [[Heq Hh] _].
    rewrite contains_entry_spec by (done || apply Hi). cbn [res_bind]. f_equal.
    rewrite <- bool_decide_not. apply bool_decide_ext. rewrite (proj2 Hi (elem e)). by rewrite <- Heq. }
  unfold difference. rewrite iter_entries_spec by apply Hrep. cbn [res_bind].
  destruct o as [l|l|i|]; cbn [other_rep] in Ho.
  - by apply (Hcopy (OtherIter l)).
  - destruct (Z.leb _ _); [|by apply (Hcopy (OtherSet l))].
    apply Hkeep. intros e He. unfold not_in_set. f_equal. apply bool_decide_ext. set_solver.
  - destruct (Z.leb _ _); [|by apply (Hcopy (OtherCompat i))]. apply Hkeep. by apply Hnot.
  - subst Y. destruct (Z.leb _ _); [|by apply (Hcopy (OtherCompat s))]. apply Hkeep. by apply Hnot.
Qed.

Lemma intersection_iter_rep s X l :
  rep s X → Forall (λ x, 0 ≤ x) l →
  ∃ s', intersection s (OtherIter l) = Ok s' ∧ rep s' (X ∩ list_to_set l).
Proof.
  intros Hrep Hl. rewrite Forall_forall in Hl.
  destruct (keep_spec (contains_entry s) (λ e, bool_decide (e ∈ entries s)) (map from_elem l))
    as (r & Hk & Hr & Hent).
  - intros e (x & -> & Hx)%list_elem_of_fmap. pose proof (valid_from_elem x (Hl x Hx)) as Hv.
    split; [done|]. apply contains_entry_spec; [apply Hrep|apply Hv].
  - exists r. split; [done|]. split; [done|]. intros x.
    rewrite Hent, bool_decide_eq_true, elem_of_intersection, elem_of_list_to_set, (proj2 Hrep x).
    rewrite list_elem_of_fmap. split; [|intros [(y & Hy%from_elem_inj & ?) ?]; by subst].
    intros [? ?]. split; [by exists x|done].
Qed.

Lemma intersection_compat_rep s X i Y :
  rep s X → rep i Y → used i ≤ used s →
  ∃ s', intersection s (OtherCompat i) = Ok s' ∧ rep s' (X ∩ Y).
Proof.
  intros Hrep Hi Hle. unfold intersection. rewrite iter_entries_spec by apply Hi. cbn [res_bind].
  destruct (Z.ltb_spec (used s) (used i)); [lia|].
  destruct (keep_rep i Y (contains_entry s) (entries i) X Hi eq_refl) as (r & Hk & Hr).
  - intros e He. destruct (rep_valid i Y e Hi He) as [[Heq Hh] _].
    rewrite contains_entry_spec by (done || apply Hrep). f_equal. apply bool_decide_ext.
    rewrite (proj2 Hrep (elem e)). by rewrite <- Heq.
  - exists r. split; [done|]. eapply rep_ext; [done|]. set_solver.
Qed.

(** The symmetric difference in place goes through the elements of its operand
    one at a time: each is removed when it is there and added when it is not, so
    one that the operand lists twice ends as it began. *)
Definition toggle (X : gset Z) (x : Z) : gset Z :=
  if decide (x ∈ X) then X ∖ {[x]} else X ∪ {[x]}.

Definition sym_diff (X Y : gset Z) : gset Z := (X ∖ Y) ∪ (Y ∖ X).

Lemma toggle_elem X x y : y ∈ toggle X x ↔ if decide (y = x) then x ∉ X else y ∈ X.
Proof. unfold toggle. destruct (decide (y = x)), (decide (x ∈ X)); set_solver. Qed.

Lemma toggle_all_elem l X : NoDup l → foldl toggle X l = sym_diff X (list_to_set l).
Proof.
  intros Hnd. apply set_eq. revert X. induction Hnd as [|x l Hxl _ IH]; intros X y; cbn [foldl].
  { unfold sym_diff. set_solver. }
  rewrite IH. unfold sym_diff. rewrite list_to_set_cons, !elem_of_union, !elem_of_difference,
    !elem_of_union, !elem_of_singleton, !elem_of_list_to_set, toggle_elem.
  destruct (decide (y = x)) as [->|]; [|tauto]. destruct (decide (x ∈ X)); tauto.
Qed.

Lemma toggle_fold_rep l s X :
  rep s X → Forall (λ x, 0 ≤ py_hash x) l →
  ∃ s', res_fold (λ s x, let! (discarded, s') := discard s x in
                         if discarded then Ok s' else add s' x) s l = Ok s' ∧
    rep s' (foldl toggle X l).
Proof.
  intros Hrep Hl. revert s X Hrep. induction Hl as [|x l Hx Hl IH]; intros s X Hrep; cbn [res_fold foldl].
  { by exists s. }
  destruct (discard_rep_hash s X x Hrep Hx) as (s1 & -> & H1). cbn [res_bind].
  unfold toggle at 2. destruct (decide (x ∈ X)) as [E|E].
  - rewrite bool_decide_true by done. by apply IH.
  - rewrite bool_decide_false by done.
    destruct (add_rep_hash s1 _ x H1 Hx) as (s2 & -> & H2). cbn [res_bind]. apply IH.
    eapply rep_ext; [exact H2|]. set_solver.
Qed.

Lemma sym_update_list s X o l s' :
  rep s X → o = OtherIter l ∨ o = OtherSet l → Forall (λ x, 0 ≤ x) l →
  CompatSet_ixor s o = Ok s' → rep s' (foldl toggle X l).
Proof.
  intros Hrep Ho Hl. unfold CompatSet_ixor.
  replace (symmetric_difference_update s o) with (symmetric_difference_update s (OtherIter l))
    by (by destruct Ho as [->| ->]).
  unfold symmetric_difference_update. cbn [other_elems res_bind].
  destruct (toggle_fold_rep l s X Hrep) as (s1 & -> & H1).
  { eapply Forall_impl; [exact Hl|]. apply py_hash_nonneg. }
  by intros [= <-].
Qed.

Lemma sym_update_set s X o Y s' :
  rep s X → o = OtherSelf ∨ (∃ i, o = OtherCompat i) → other_rep X o Y →
  CompatSet_ixor s o = Ok s' → rep s' (sym_diff X Y).
Proof.
  intros Hrep [->|[i ->]] Ho; unfold CompatSet_ixor; cbn [symmetric_difference_update].
  { intros [= <-]. cbn in Ho. subst Y. eapply rep_ext; [apply rep_new|]. unfold sym_diff. set_solver. }
  cbn in Ho. cbn [other_elems]. rewrite iter_elems_spec by apply Ho. cbn [res_bind].
  destruct (toggle_fold_rep (map elem (entries i)) s X Hrep) as (s1 & -> & H1).
  { apply Forall_forall. intros x Hx%(rep_elems i Y x Ho). by eapply rep_elem. }
  intros [= <-]. rewrite toggle_all_elem in H1 by (by eapply rep_NoDup).
  eapply rep_ext; [exact H1|]. intros x. unfold sym_diff. rewrite !elem_of_union, !elem_of_difference,
    !elem_of_list_to_set. by rewrite (rep_elems i Y x Ho).
Qed.

Lemma sym_new_rep s X o Y s' :
  rep s X → other_rep X o Y → CompatSet_symmetric_difference s o = Ok s' → rep s' (sym_diff Y X).
Proof.
  intros Hrep Ho. unfold CompatSet_symmetric_difference.
  destruct (update_rep new_Inner ∅ (detach s o) Y rep_new) as (r & -> & Hr).
  { destruct o; cbn in Ho |- *; [done..|by subst]. }
  cbn [res_bind]. intros H. eapply rep_ext.
  - eapply sym_update_set; [exact Hr|right; by eexists|exact Hrep|exact H].
  - unfold sym_diff. set_solver.
Qed.

Lemma pop_rep s X :
  rep s X → X ≠ ∅ → ∃ x s', pop s = Ok (x, s') ∧ x ∈ X ∧ rep s' (X ∖ {[x]}).
Proof.
  intros Hrep HX. pose proof (proj1 Hrep) as [Hinv Hload].
  destruct (inv_size s Hinv) as (k & Hk & Hm & Hlen).
  apply set_choose_L in HX as [x0 Hx0]. apply (proj2 Hrep), elem_of_full_entries in Hx0 as [f Hf].
  pose proof (lookup_lt_Some _ _ _ Hf).
  assert (0 ≤ Z.land (search s) (mask s) < mask s + 1) as Hi.
  { rewrite Hm. pose proof (land_msk_range k ltac:(lia) (search s)). lia. }
  destruct (pop_loop_spec s (Z.to_nat (mask s + 1)) (Z.land (search s) (mask s)) (Z.of_nat f)
    (from_elem x0)) as (j & e & Hloop & Hj & Hfull).
  - done.
  - done.
  - by rewrite Nat2Z.id.
  - lia.
  - destruct (Z.leb_spec (Z.land (search s) (mask s)) (Z.of_nat f)); lia.
  - destruct (remove_inv s e j Hinv Hj Hfull) as [Hinv' Hperm].
    assert (e ∈ entries s) as He by (rewrite <- Hperm; by left).
    destruct (rep_valid s X e Hrep He) as [[Heq _] HeX].
    assert (used s ≠ 0) as Hu.
    { rewrite (inv_used s Hinv). destruct (entries s); [inversion He|done]. }
    exists (elem e). eexists. split; [|split; [done|]].
    { unfold pop. rewrite (proj2 (Z.eqb_neq _ _) Hu), Hloop. reflexivity. }
    split; [split; [|cbn; lia]|].
    { destruct Hinv' as [H1 H2 H3 H4 H5 H6]. split; try done; cbn in *; lia. }
    assert (NoDup (e :: entries (wrote s j Removed 0 (-1)))) as [Hne _]%NoDup_cons
      by (rewrite Hperm; by apply entries_NoDup).
    change (entries _) with (entries (wrote s j Removed 0 (-1))).
    intros y. rewrite elem_of_difference, elem_of_singleton, (proj2 Hrep y), <- Hperm, elem_of_cons.
    assert (y = elem e ↔ from_elem y = e) as -> by (split; [intros ->; done|intros <-; done]).
    naive_solver.
Qed.

(** ** Several operands *)

Lemma detach_rep s X o Y Z0 : rep s X → other_rep X o Y → other_rep Z0 (detach s o) Y.
Proof. intros Hrep Ho. destruct o; cbn in Ho |- *; [done..|by subst]. Qed.

(** A set that, given an operand for [Y], becomes one for [f X Y]. *)
Lemma outcome {P : Inner → Prop} (r : res Inner) s' :
  (∃ s, r = Ok s ∧ P s) → r = Ok s' → P s'.
Proof. intros (s & -> & ?). by intros [= ->]. Qed.

(** The operands of an operation on a set for [X], and what they stand for. *)
Definition operands_rep (X : gset Z) : list Other → list (gset Z) → Prop := Forall2 (other_rep X).

Definition refines (op : Inner → Other → res Inner) (f : gset Z → gset Z → gset Z) : Prop :=
  ∀ r W o Y r', rep r W → other_rep W o Y → op r o = Ok r' → rep r' (f W Y).

(** Folding an operation that refines [f] over operands that are not the set
    itself refines folding [f]. *)
Lemma fold_detached_rep op f s X os Ys :
  refines op f → rep s X → operands_rep X os Ys →
  ∀ r W r', rep r W → res_fold op r (map (detach s) os) = Ok r' → rep r' (foldl f W Ys).
Proof.
  intros Hop Hs Hos. induction Hos as [|o Y os Ys Ho _ IH]; intros r W r' Hr H; cbn in H |- *.
  { by injection H as <-. }
  destruct (op r (detach s o)) as [r1|] eqn:E; [|done]. cbn in H.
  eapply IH; [|exact H]. eapply Hop; [exact Hr| |exact E]. by eapply detach_rep.
Qed.

Lemma foldl_union (Ys : list (gset Z)) X : foldl (∪) X Ys = X ∪ ⋃ Ys.
Proof. revert X. induction Ys as [|Y Ys IH]; intros X; cbn; [|rewrite IH]; set_solver. Qed.

Lemma foldl_difference (Ys : list (gset Z)) X : foldl (∖) X Ys = X ∖ ⋃ Ys.
Proof.
  revert X. induction Ys as [|Y Ys IH]; intros X; cbn; [set_solver|]. rewrite IH.
  apply set_eq. intros x. rewrite !elem_of_difference, elem_of_union. tauto.
Qed.

Lemma update_refines : refines update (∪).
Proof. intros r W o Y r' Hr Ho. exact (outcome _ _ (update_rep r W o Y Hr Ho)). Qed.

Lemma difference_refines : refines difference (∖).
Proof. intros r W o Y r' Hr Ho. exact (outcome _ _ (difference_rep r W o Y Hr Ho)). Qed.

Lemma difference_update_refines : refines difference_update (∖).
Proof. intros r W o Y r' Hr Ho. exact (outcome _ _ (difference_update_rep r W o Y Hr Ho)). Qed.

Lemma intersection_refines : refines intersection (∩).
Proof.
  intros r W o Y r' Hr Ho H. destruct o as [l|l|i|]; cbn [other_rep] in Ho.
  - destruct Ho as [Hl ->]. exact (outcome _ _ (intersection_iter_rep r W l Hr Hl) H).
  - destruct Ho as [Hl ->]. exact (outcome _ _ (intersection_iter_rep r W l Hr Hl) H).
  - destruct (Z.leb_spec (used i) (used r)) as [Hle|Hlt].
    { exact (outcome _ _ (intersection_compat_rep r W i Y Hr Ho Hle) H). }
    exfalso. unfold intersection in H. rewrite iter_entries_spec in H by apply Ho. cbn [res_bind] in H.
    destruct (Z.ltb_spec (used r) (used i)); [|lia].
    destruct (entries i) as [|e es] eqn:E; [|done]. rewrite (inv_used i), E in Hlt by apply Ho.
    rewrite (inv_used r) in Hlt by apply Hr. cbn in Hlt. lia.
  - done.
Qed.

Lemma update_all_rep s X os Ys s' :
  rep s X → operands_rep X os Ys → CompatSet_update s os = Ok s' → rep s' (X ∪ ⋃ Ys).
Proof.
  unfold CompatSet_update. intros Hs Hos.
  enough (∀ W, rep s W → X ⊆ W → res_fold update s os = Ok s' → rep s' (W ∪ ⋃ Ys)) as H
    by (by apply H). clear Hs. revert s.
  induction Hos as [|o Y os Ys Ho _ IH]; intros s W Hs HW H; cbn in H |- *.
  { injection H as <-. eapply rep_ext; [exact Hs|]. set_solver. }
  destruct (update s o) as [s1|] eqn:E; [|done]. cbn in H.
  assert (rep s1 (W ∪ Y)) as H1.
  { destruct o as [l|l|i|]; [refine (update_refines s W _ Y s1 Hs _ E); exact Ho..|]. injection E as <-. cbn in Ho. subst Y.
    eapply rep_ext; [exact Hs|]. set_solver. }
  rewrite union_assoc_L. apply (IH s1); [done|set_solver|done].
Qed.

Lemma union_all_rep s X os Ys s' :
  rep s X → operands_rep X os Ys → CompatSet_union s os = Ok s' → rep s' (X ∪ ⋃ Ys).
Proof.
  intros Hs Hos. unfold CompatSet_union. destruct (copy_rep s X Hs) as (c & -> & Hc).
  cbn [res_bind]. rewrite <- foldl_union. by eapply fold_detached_rep; [apply update_refines|..].
Qed.

Lemma difference_all_rep s X os Ys s' :
  rep s X → operands_rep X os Ys → CompatSet_difference s os = Ok s' → rep s' (X ∖ ⋃ Ys).
Proof.
  intros Hs Hos. rewrite <- foldl_difference.
  destruct Hos as [|o Y os Ys Ho Hos]; cbn [CompatSet_difference foldl].
  { exact (outcome _ _ (copy_rep s X Hs)). }
  destruct (difference s o) as [r|] eqn:E; [|done]. cbn [res_bind].
  eapply fold_detached_rep; [apply difference_update_refines|exact Hs|exact Hos|].
  by eapply difference_refines.
Qed.

Lemma intersection_all_rep s X os Ys s' :
  rep s X → operands_rep X os Ys → CompatSet_intersection s os = Ok s' → rep s' (foldl (∩) X Ys).
Proof.
  intros Hs Hos. destruct Hos as [|o Y os Ys Ho Hos]; cbn [CompatSet_intersection foldl].
  { exact (outcome _ _ (copy_rep s X Hs)). }
  destruct (intersection s o) as [r|] eqn:E; [|done]. cbn [res_bind].
  eapply fold_detached_rep; [apply intersection_refines|exact Hs|exact Hos|].
  by eapply intersection_refines.
Qed.

(** ** Reachable states *)

(** The sets a program can make with the operations of [CompatSet], and the
    finite set each stands for.  An operand is a list or another iterable of
    non-negative integers, in any order and with duplicates, a Python [set] of
    them, another set that the program made, or the set itself.  Where an
    operation raises (the removal of an absent element, an intersection with a
    larger set or with itself) the set stays the one it was. *)
Inductive reachable : Inner → gset Z → Prop :=
| reach_new : reachable new_Inner ∅
| reach_init l s' :
    Forall (λ x, 0 ≤ x) l → CompatSet_init l = Ok s' → reachable s' (list_to_set l)
| reach_add s X x s' : reachable s X → 0 ≤ x → add s x = Ok s' → reachable s' (X ∪ {[x]})
| reach_discard s X x s' :
    reachable s X → 0 ≤ x → CompatSet_discard s x = Ok s' → reachable s' (X ∖ {[x]})
| reach_remove s X x s' :
    reachable s X → 0 ≤ x → CompatSet_remove s x = Ok s' → reachable s' (X ∖ {[x]})
| reach_pop s X x s' : reachable s X → pop s = Ok (x, s') → reachable s' (X ∖ {[x]})
| reach_clear s X : reachable s X → reachable (CompatSet_clear s) ∅
| reach_copy s X s' : reachable s X → copy s = Ok s' → reachable s' X
| reach_update s X os Ys s' :
    reachable s X → operands X os Ys → CompatSet_update s os = Ok s' → reachable s' (X ∪ ⋃ Ys)
| reach_union s X os Ys s' :
    reachable s X → operands X os Ys → CompatSet_union s os = Ok s' → reachable s' (X ∪ ⋃ Ys)
| reach_difference s X os Ys s' :
    reachable s X → operands X os Ys → CompatSet_difference s os = Ok s' → reachable s' (X ∖ ⋃ Ys)
| reach_intersection s X os Ys s' :
    reachable s X → operands X os Ys → CompatSet_intersection s os = Ok s' →
    reachable s' (foldl (∩) X Ys)
| reach_symmetric_difference s X o Y s' :
    reachable s X → operand X o Y → CompatSet_symmetric_difference s o = Ok s' →
    reachable s' (sym_diff Y X)
| reach_ior s X o Y s' :
    reachable s X → operand X o Y → CompatSet_ior s o = Ok s' → reachable s' (X ∪ Y)
| reach_isub s X o Y s' :
    reachable s X → operand X o Y → CompatSet_isub s o = Ok s' → reachable s' (X ∖ Y)
| reach_iand s X o Y s' :
    reachable s X → operand X o Y → CompatSet_iand s o = Ok s' → reachable s' (X ∩ Y)
| reach_ixor_list s X o l s' :
    reachable s X → o = OtherIter l ∨ o = OtherSet l → Forall (λ x, 0 ≤ x) l →
    CompatSet_ixor s o = Ok s' → reachable s' (foldl toggle X l)
| reach_ixor_set s X o Y s' :
    reachable s X → o = OtherSelf ∨ (∃ i, o = OtherCompat i) → operand X o Y →
    CompatSet_ixor s o = Ok s' → reachable s' (sym_diff X Y)
with operand : gset Z → Other → gset Z → Prop :=
| operand_iter X l : Forall (λ x, 0 ≤ x) l → operand X (OtherIter l) (list_to_set l)
| operand_set X l : Forall (λ x, 0 ≤ x) l → operand X (OtherSet l) (list_to_set l)
| operand_compat X i Y : reachable i Y → operand X (OtherCompat i) Y
| operand_self X : operand X OtherSelf X
with operands : gset Z → list Other → list (gset Z) → Prop :=
| operands_nil X : operands X [] []
| operands_cons X o Y os Ys : operand X o Y → operands X os Ys → operands X (o :: os) (Y :: Ys).

Scheme reachable_mind := Minimality for reachable Sort Prop
  with operand_mind := Minimality for operand Sort Prop
  with operands_mind := Minimality for operands Sort Prop.

Lemma pop_empty s : rep s ∅ → pop s = Raise (KeyError "pop from empty set").
Proof. intros H. unfold pop. by rewrite (rep_used s ∅ H). Qed.

Lemma remove_rep s X x s' :
  rep s X → 0 ≤ x → CompatSet_remove s x = Ok s' → rep s' (X ∖ {[x]}).
Proof.
  intros Hs Hx. unfold CompatSet_remove. destruct (discard_rep s X x Hs Hx) as (r & -> & Hr).
  cbn [res_bind]. destruct (bool_decide (x ∈ X)); [by intros [= <-]|done].
Qed.

Lemma reachable_represents s X : reachable s X → rep s X.
Proof.
  apply (reachable_mind rep other_rep operands_rep); clear s X.
  - apply rep_new.
  - intros l s' Hl. unfold CompatSet_init. intros H. eapply rep_ext.
    + exact (update_refines _ _ (OtherIter l) _ _ rep_new (conj Hl eq_refl) H).
    + set_solver.
  - intros s X x s' _ IH Hx. exact (outcome _ _ (add_rep s X x IH Hx)).
  - intros s X x s' _ IH Hx. unfold CompatSet_discard.
    destruct (discard_rep s X x IH Hx) as (r & -> & Hr). by intros [= <-].
  - intros s X x s' _ IH. by apply remove_rep.
  - intros s X x s' _ IH H. destruct (decide (X = ∅)) as [->|HX]; [by rewrite pop_empty in H|].
    destruct (pop_rep s X IH HX) as (? & ? & ? & _ & ?). congruence.
  - intros s X _ _. apply rep_new.
  - intros s X s' _ IH. exact (outcome _ _ (copy_rep s X IH)).
  - intros s X os Ys s' _ IH _ Hos. by apply update_all_rep.
  - intros s X os Ys s' _ IH _ Hos. by apply union_all_rep.
  - intros s X os Ys s' _ IH _ Hos. by apply difference_all_rep.
  - intros s X os Ys s' _ IH _ Hos. by apply intersection_all_rep.
  - intros s X o Y s' _ IH _ Ho. by apply sym_new_rep.
  - intros s X o Y s' _ IH _ Ho. by apply update_refines.
  - intros s X o Y s' _ IH _ Ho. by apply difference_update_refines.
  - intros s X o Y s' _ IH _ Ho. by apply intersection_refines.
  - intros s X o l s' _ IH Ho Hl. by apply sym_update_list.
  - intros s X o Y s' _ IH Hk _ Ho. by apply sym_update_set.
  - done.
  - done.
  - by intros X i Y _ IH.
  - done.
  - constructor.
  - intros X o Y os Ys _ Ho _ Hos. by constructor.
Qed.

Lemma res_all_true {A} (test : A → res bool) l :
  Forall (λ x, test x = Ok true) l → res_all test l = Ok true.
Proof. induction 1 as [|x l Hx _ IH]; simpl; [done|]. by rewrite Hx. Qed.

Lemma res_all_bool {A} (test : A → res bool) (P : A → Prop) `{∀ x, Decision (P x)} l :
  Forall (λ x, test x = Ok (bool_decide (P x))) l → res_all test l = Ok (bool_decide (Forall P l)).
Proof.
  induction 1 as [|x l Hx _ IH]; cbn [res_all].
  { by rewrite bool_decide_true. }
  rewrite Hx. cbn [res_bind]. destruct (decide (P x)) as [E|E].
  - rewrite (bool_decide_true (P x)), IH by done. f_equal. apply bool_decide_ext. rewrite Forall_cons. tauto.
  - rewrite (bool_decide_false (P x)) by done. f_equal. symmetry. apply bool_decide_eq_false. by intros [? _]%Forall_cons.
Qed.

Lemma contains_rep_hash s X x :
  rep s X → 0 ≤ py_hash x → contains s x = Ok (bool_decide (from_elem x ∈ entries s)).
Proof. intros Hrep Hx. apply contains_entry_spec; [apply Hrep|done]. Qed.

Lemma issuperset_rep s X o Y :
  rep s X → other_rep X o Y → CompatSet_issuperset s o = Ok (bool_decide (Y ⊆ X)).
Proof.
  intros Hrep Ho. destruct (other_elems_rep s X o Y Hrep Ho) as (l & Hl & Hpos & HY).
  unfold CompatSet_issuperset. rewrite Hl. cbn [res_bind].
  rewrite (res_all_bool _ (λ x, from_elem x ∈ entries s)).
  - f_equal. apply bool_decide_ext. rewrite Forall_forall. split.
    + intros H x Hx%HY. by apply (proj2 Hrep), H.
    + intros H x Hx. apply (proj2 Hrep). by apply H, HY.
  - eapply Forall_impl; [done|]. intros x Hx. by eapply contains_rep_hash.
Qed.

Lemma or_rep s X o Y :
  rep s X → other_rep X o Y → ∃ s', CompatSet_or s o = Ok s' ∧ rep s' (X ∪ Y).
Proof.
  intros Hrep Ho. unfold CompatSet_or, CompatSet_union.
  destruct (copy_rep s X Hrep) as (c & -> & Hc). cbn [res_bind res_fold map].
  destruct (update_rep c X (detach s o) Y Hc) as (s' & -> & Hs').
  - by eapply detach_rep.
  - by exists s'.
Qed.

(** The elements of a reachable set, listed: its order is that of the table. *)
Definition list_of (elems : list Z) : res (list Z) :=
  let! s := CompatSet_init elems in iter_elems s.

(** The orders that [indy_common/test/test_compat_set.py] expects. *)
Example order_simple : list_of [12; 4; 5; 6] = Ok [5; 12; 4; 6].
Proof. vm_compute. reflexivity. Qed.

Example order_collision : list_of [12; 4; 5; 6; 3] = Ok [5; 3; 12; 4; 6].
Proof. vm_compute. reflexivity. Qed.

(** ** Properties *)

(** C2. Whatever operations a program performs on compatibility sets of
    non-negative integers (construction, [add], [discard], [remove], [pop],
    [clear], [copy], update, union, difference, intersection and symmetric
    difference, in place and not, with any number of operands: iterables with or
    without duplicates, Python sets, other compatibility sets, the set itself),
    each set that comes out has as many elements as it says, answers membership as
    the finite set it stands for, and iterates over exactly the elements of that
    set, each once. *)
Theorem reachable_refines s X x :
  reachable s X → 0 ≤ x →
  used s = Z.of_nat (size X) ∧ contains s x = Ok (bool_decide (x ∈ X)) ∧
  ∃ l, iter_elems s = Ok l ∧ l ≡ₚ elements X.
Proof.
  intros Hrep%reachable_represents Hx. split; [by apply rep_used|].
  split; [by apply contains_rep|]. eexists. split; [apply iter_elems_spec, Hrep|].
  by apply rep_perm.
Qed.

Lemma reachable_refines_witness :
  ∃ s X l, reachable s X ∧ CompatSet_init [12; 4] = Ok s ∧
    (let! s' := CompatSet_ixor s (OtherIter [4; 7; 7]) in iter_elems s') = Ok l ∧
    l ≡ₚ elements (foldl toggle X [4; 7; 7]).
Proof.
  assert (∃ s, CompatSet_init [12; 4] = Ok s) as [s Hs] by (eexists; vm_compute; reflexivity).
  assert (∃ s', CompatSet_ixor s (OtherIter [4; 7; 7]) = Ok s') as [s' Hs'].
  { assert (s = match CompatSet_init [12; 4] with Ok s => s | _ => s end) as -> by (by rewrite Hs).
    eexists. vm_compute. reflexivity. }
  pose proof (reach_init [12; 4] s ltac:(repeat constructor; lia) Hs) as Hr.
  destruct (reachable_refines s' _ 12
    (reach_ixor_list s _ (OtherIter [4; 7; 7]) _ s' Hr (or_introl eq_refl)
       ltac:(repeat constructor; lia) Hs') ltac:(lia)) as (_ & _ & l & Hl & Hp).
  exists s, (list_to_set [12; 4]), l. rewrite Hs'. exact (conj Hr (conj Hs (conj Hl Hp))).
Defined.

(** C11. Every operation returns: from a set that stands for [X] and an operand
    that stands for [Y], an iterable, a Python set, another compatibility set or
    the set itself, the update, the union, the difference and the difference in place
    end without an exception in a set that stands for the union or the difference, and
    the set is a superset of the operand exactly when [Y] is included in [X]. *)
Theorem operations_total s X o Y :
  rep s X → other_rep X o Y →
  (∃ s', update s o = Ok s' ∧ rep s' (X ∪ Y)) ∧
  (∃ s', CompatSet_or s o = Ok s' ∧ rep s' (X ∪ Y)) ∧
  (∃ s', difference s o = Ok s' ∧ rep s' (X ∖ Y)) ∧
  (∃ s', difference_update s o = Ok s' ∧ rep s' (X ∖ Y)) ∧
  CompatSet_issuperset s o = Ok (bool_decide (Y ⊆ X)).
Proof.
  intros Hrep Ho. split; [by apply update_rep|]. split; [by apply or_rep|].
  split; [by apply difference_rep|]. split; [by apply difference_update_rep|by apply issuperset_rep].
Qed.

Lemma operations_total_witness :
  ∃ s', update new_Inner (OtherIter [3; 11; 3]) = Ok s' ∧ rep s' (∅ ∪ list_to_set [3; 11; 3]).
Proof.
  apply (operations_total new_Inner ∅ (OtherIter [3; 11; 3]) (list_to_set [3; 11; 3])).
  - apply rep_new.
  - split; [repeat constructor; lia|reflexivity].
Defined.

(** The rehash keeps the promise the lookup depends on: after an insertion
    with its growth the table is a power of two, at least eight slots, less than
    two thirds of them used, and each entry is where a lookup for it ends. *)
Theorem add_keeps_invariant s x :
  Inv s → 0 ≤ x → ∃ s', add s x = Ok s' ∧ Inv s' ∧ contains s' x = Ok true.
Proof.
  intros Hs Hx. destruct (add_entry_spec s (from_elem x) Hs (valid_from_elem x Hx))
    as (s' & Hadd & Hs' & Hent).
  exists s'. split; [done|]. split; [done|]. unfold contains.
  rewrite contains_entry_spec; [|apply Hs'|by apply py_hash_nonneg].
  rewrite bool_decide_eq_true_2; [done|]. apply Hent. by left.
Qed.

Lemma add_keeps_invariant_witness :
  ∃ s', add new_Inner 8 = Ok s' ∧ Inv s' ∧ contains s' 8 = Ok true.
Proof. apply (add_keeps_invariant new_Inner 8); [apply new_Inner_inv|lia]. Defined.

(** A lookup of a negative number can run forever: in the set [{0}] the
    probe for [-8] never leaves slot 0, whatever the fuel (a signed shift keeps
    the perturbation at [-1]; CPython's is unsigned). *)
Theorem negative_lookup_diverges fuel :
  (let! s := CompatSet_init [0] in look_entry_fuel fuel s (from_elem (-8))) = Raise OutOfFuel.
Proof.
  assert (∃ s, CompatSet_init [0] = Ok s ∧ fill s ≤ mask s ∧ mask s = 7 ∧
    table s !! 0%nat = Some (Full (from_elem 0))) as (s & -> & Hf & Hm & H0)
    by (eexists; split; [vm_compute; reflexivity|]; split; [vm_compute; discriminate|done]).
  cbn [res_bind]. unfold look_entry_fuel. destruct (Z.leb_spec (fill s) (mask s)); [|lia].
  rewrite Hm. change (hash (from_elem (-8))) with (-8). change (Z.land (-8) 7) with 0.
  assert (∀ p, p = -8 ∨ p = -1 →
    probe fuel (stop_look (from_elem (-8))) (table s) 7 0 p = Raise OutOfFuel) as Hloop;
    [|apply Hloop; by left].
  induction fuel as [|fuel IH]; intros p Hp; [done|]. cbn [probe].
  assert (scan (stop_look (from_elem (-8))) (table s) (round 7 0) = Ok None) as ->.
  { change (round 7 0) with [0]. cbn [scan]. by rewrite (get_slot_Some _ 0 _ H0). }
  cbn [res_bind]. destruct Hp as [->| ->]; apply IH; by right.
Qed.

(** Two compatibility sets with the same elements compare equal. *)
Theorem equal_sets_compare_equal s o X :
  rep s X → rep o X → CompatSet_eq s o = Ok true.
Proof.
  intros Hs Ho. unfold CompatSet_eq, inner_eq.
  rewrite (rep_used s X Hs), (rep_used o X Ho), Z.eqb_refl. cbn [negb].
  apply res_all_true, Forall_forall. intros pos Hpos%elem_of_seqZ.
  pose proof (proj1 Ho) as [Hinv _]. destruct (inv_size o Hinv) as (k & Hk & Hm & Hlen).
  destruct (lookup_lt_is_Some_2 (table o) (Z.to_nat pos)) as [x Hx].
  { pose proof (rep_used o X Ho) as Hu. pose proof (inv_used o Hinv) as Hu'.
    pose proof (full_le_nonempty (table o)) as Hle. rewrite <- (inv_fill o Hinv) in Hle.
    unfold entries in Hu'. pose proof (inv_room o Hinv). lia. }
  rewrite (get_slot_Some _ _ _ Hx). cbn [res_bind]. destruct x as [| |e]; [done|done|].
  assert (e ∈ entries o) as He by (apply elem_of_full_entries; eauto).
  destruct (rep_valid o X e Ho He) as [[Heq Hh] HX].
  rewrite contains_entry_spec by (done || apply Hs). rewrite bool_decide_eq_true_2; [done|].
  rewrite Heq. by apply Hs.
Qed.

Lemma equal_sets_compare_equal_witness : CompatSet_eq new_Inner new_Inner = Ok true.
Proof. apply (equal_sets_compare_equal new_Inner new_Inner ∅); apply rep_new. Defined.

(** The converse fails: two one-element sets with different elements
    compare equal, because only the first [len] slots of a table are compared. *)
Theorem different_sets_compare_equal x y :
  0 < x < 8 → 0 < y < 8 →
  (let! s := CompatSet_init [x] in let! o := CompatSet_init [y] in CompatSet_eq s o) = Ok true.
Proof.
  intros Hx Hy.
  assert (x ∈ [1; 2; 3; 4; 5; 6; 7]) as Hx' by (rewrite !elem_of_cons; lia).
  assert (y ∈ [1; 2; 3; 4; 5; 6; 7]) as Hy' by (rewrite !elem_of_cons; lia).
  rewrite !elem_of_cons, elem_of_nil in Hx', Hy'.
  destruct Hx' as [->|[->|[->|[->|[->|[->|[->|[]]]]]]]];
    destruct Hy' as [->|[->|[->|[->|[->|[->|[->|[]]]]]]]]; vm_compute; reflexivity.
Qed.

Lemma different_sets_compare_equal_witness :
  (let! s := CompatSet_init [6] in let! o := CompatSet_init [7] in CompatSet_eq s o) = Ok true.
Proof. apply (different_sets_compare_equal 6 7); lia. Defined.

(** The intersection with an iterable, or with a set that is not larger, is
    the intersection; with a larger set it ends in [AttributeError], and of a set
    with itself in [TypeError]. *)
Theorem intersection_outcomes s X i Y :
  rep s X → rep i Y →
  intersection s (OtherCompat i) = Raise AttributeError ∧ (size X < size Y)%nat ∨
  (∃ s', intersection s (OtherCompat i) = Ok s' ∧ rep s' (X ∩ Y)) ∧ (size Y ≤ size X)%nat.
Proof.
  intros Hs Hi. destruct (decide (size X < size Y)%nat) as [Hlt|Hge].
  - left. split; [|done]. unfold intersection. rewrite iter_entries_spec by apply Hi.
    cbn [res_bind]. rewrite (rep_used s X Hs), (rep_used i Y Hi).
    destruct (Z.ltb_spec (Z.of_nat (size X)) (Z.of_nat (size Y))); [|lia].
    destruct (entries i) as [|e es] eqn:E; [|done].
    pose proof (rep_used i Y Hi) as Hu. rewrite (inv_used i), E in Hu by apply Hi. simpl in Hu. lia.
  - right. split; [|lia]. apply intersection_compat_rep; [done|done|].
    rewrite (rep_used s X Hs), (rep_used i Y Hi). lia.
Qed.

Lemma intersection_outcomes_witness :
  (∃ s', intersection new_Inner (OtherCompat new_Inner) = Ok s' ∧ rep s' (∅ ∩ ∅)) ∧
  (size (∅ : gset Z) ≤ size (∅ : gset Z))%nat.
Proof.
  destruct (intersection_outcomes new_Inner ∅ new_Inner ∅ rep_new rep_new) as [[_ H]|H];
    [exfalso; exact (Nat.lt_irrefl _ H)|exact H].
Defined.
