(* ===== verification/StateDomain.v ===== *)
(** * The domain state

    [indy_common/state/domain.py] and the accessors of
    [indy_common/req_utils.py]: the path at which each kind of record is kept in
    the domain state, and the pair of path and value bytes a transaction or a
    reply stands for. *)
From Stdlib Require Import Ascii.
From S2P Require Import Prelude PyValue Plenum Constants.

Definition MARKER_ATTR : string := "1".
Definition MARKER_SCHEMA : string := "2".
Definition MARKER_CLAIM_DEF : string := "3".
Definition MARKER_REVOC_DEF : string := "4".
Definition MARKER_REVOC_REG_ENTRY : string := "5".
Definition MARKER_REVOC_REG_ENTRY_ACCUM : string := "6".
Definition MARKER_CONTEXT : string := "7".
Definition LAST_SEQ_NO : string := "lsn".
Definition VALUE_KEY : string := "val".
Definition LAST_UPDATE_TIME : string := "lut".

(** ** Field names *)

Definition SCHEMA_NAME : string := "name".
Definition SCHEMA_VERSION : string := "version".
Definition SCHEMA_ATTR_NAMES : string := "attr_names".
Definition SCHEMA_FROM : string := "dest".
Definition CLAIM_DEF_SIGNATURE_TYPE : string := "signature_type".
Definition CLAIM_DEF_SCHEMA_REF : string := "ref".
Definition CLAIM_DEF_TAG : string := "tag".
Definition CLAIM_DEF_PUBLIC_KEYS : string := "data".
Definition CLAIM_DEF_FROM : string := "origin".
Definition CLAIM_DEF_TAG_DEFAULT : string := "tag".
Definition CLAIM_DEF_CL : string := "CL".
Definition CRED_DEF_ID : string := "credDefId".
Definition REVOC_TYPE : string := "revocDefType".
Definition TAG : string := "tag".
Definition REVOC_REG_DEF_ID : string := "revocRegDefId".
Definition SEQ_NO : string := "seqNo".
Definition TXN_TIME : string := "txnTime".
Definition IDENTIFIER : string := "identifier".

(** ** Access to nested data *)

(** [v[k]] of a value that should be a dictionary. *)
Definition vgetitem (k : string) (v : val) : res val :=
  match v with
  | VDict d => dgetitem k d
  | VStr _ | VList _ => Raise (TypeError "indices must be integers")
  | _ => Raise (TypeError "object is not subscriptable")
  end.

(** [v.get(k)] and [v.get(k, default)] *)
Definition vget_attr (k : string) (v : val) : res val :=
  match v with VDict d => Ok (vget k d) | _ => Raise AttributeError end.

Definition get_default (k : string) (default : val) (d : dict val) : val :=
  match dget k d with Some v => v | None => default end.

(** [assert v] *)
Definition py_assert (v : val) : res unit := if py_truth v then Ok tt else Raise AssertionError.

(** *** req_utils.py *)

Definition get_write_schema_name (r : Request) : res val :=
  let! d := dgetitem DATA (operation r) in vgetitem SCHEMA_NAME d.
Definition get_txn_schema_name (txn : Txn) : res val :=
  let! d := dgetitem DATA (get_payload_data txn) in vgetitem SCHEMA_NAME d.
Definition get_write_schema_version (r : Request) : res val :=
  let! d := dgetitem DATA (operation r) in vgetitem SCHEMA_VERSION d.
Definition get_txn_schema_version (txn : Txn) : res val :=
  let! d := dgetitem DATA (get_payload_data txn) in vgetitem SCHEMA_VERSION d.
Definition get_write_schema_attr_names (r : Request) : res val :=
  let! d := dgetitem DATA (operation r) in vgetitem SCHEMA_ATTR_NAMES d.
Definition get_txn_schema_attr_names (txn : Txn) : res val :=
  let! d := dgetitem DATA (get_payload_data txn) in vgetitem SCHEMA_ATTR_NAMES d.
Definition get_read_schema_name (r : Request) : res val :=
  let! d := dgetitem DATA (operation r) in vgetitem SCHEMA_NAME d.
Definition get_read_schema_version (r : Request) : res val :=
  let! d := dgetitem DATA (operation r) in vgetitem SCHEMA_VERSION d.
Definition get_read_schema_from (r : Request) : res val := dgetitem SCHEMA_FROM (operation r).
Definition get_reply_schema_name (reply : dict val) : res val :=
  let! d := dgetitem DATA reply in vgetitem SCHEMA_NAME d.
Definition get_reply_schema_version (reply : dict val) : res val :=
  let! d := dgetitem DATA reply in vgetitem SCHEMA_VERSION d.
Definition get_reply_schema_attr_names (reply : dict val) : res val :=
  let! d := dgetitem DATA reply in vget_attr SCHEMA_ATTR_NAMES d.
Definition get_reply_schema_from (reply : dict val) : res val := dgetitem SCHEMA_FROM reply.

Definition get_write_claim_def_signature_type (r : Request) : val :=
  get_default CLAIM_DEF_SIGNATURE_TYPE (VStr CLAIM_DEF_CL) (operation r).
Definition get_write_claim_def_schema_ref (r : Request) : res val :=
  dgetitem CLAIM_DEF_SCHEMA_REF (operation r).
Definition get_write_claim_def_tag (r : Request) : val :=
  get_default CLAIM_DEF_TAG (VStr CLAIM_DEF_TAG_DEFAULT) (operation r).
Definition get_write_claim_def_public_keys (r : Request) : res val :=
  dgetitem CLAIM_DEF_PUBLIC_KEYS (operation r).
Definition get_txn_claim_def_signature_type (txn : Txn) : val :=
  get_default CLAIM_DEF_SIGNATURE_TYPE (VStr CLAIM_DEF_CL) (get_payload_data txn).
Definition get_txn_claim_def_schema_ref (txn : Txn) : res val :=
  dgetitem CLAIM_DEF_SCHEMA_REF (get_payload_data txn).
Definition get_txn_claim_def_tag (txn : Txn) : val :=
  get_default CLAIM_DEF_TAG (VStr CLAIM_DEF_TAG_DEFAULT) (get_payload_data txn).
Definition get_txn_claim_def_public_keys (txn : Txn) : res val :=
  dgetitem CLAIM_DEF_PUBLIC_KEYS (get_payload_data txn).
Definition get_read_claim_def_signature_type (r : Request) : val :=
  get_default CLAIM_DEF_SIGNATURE_TYPE (VStr CLAIM_DEF_CL) (operation r).
Definition get_read_claim_def_schema_ref (r : Request) : res val :=
  dgetitem CLAIM_DEF_SCHEMA_REF (operation r).
Definition get_read_claim_def_tag (r : Request) : val :=
  get_default CLAIM_DEF_TAG (VStr CLAIM_DEF_TAG_DEFAULT) (operation r).
Definition get_read_claim_def_from (r : Request) : res val :=
  dgetitem CLAIM_DEF_FROM (operation r).

(** ** Paths: [str.format] of the parts *)

Definition path_of (parts : list val) : string := py_join ":" (map py_str parts).

Definition make_state_path_for_context (authors_did context_name context_version : val) : string :=
  path_of [authors_did; VStr MARKER_CONTEXT; context_name; context_version].
Definition make_state_path_for_schema (authors_did schema_name schema_version : val) : string :=
  path_of [authors_did; VStr MARKER_SCHEMA; schema_name; schema_version].
Definition make_state_path_for_claim_def (authors_did schema_seq_no signature_type tag : val) : string :=
  path_of [authors_did; VStr MARKER_CLAIM_DEF; signature_type; schema_seq_no; tag].
Definition make_state_path_for_revoc_def (authors_did cred_def_id revoc_def_type revoc_def_tag : val)
    : string :=
  path_of [authors_did; VStr MARKER_REVOC_DEF; cred_def_id; revoc_def_type; revoc_def_tag].
Definition make_state_path_for_revoc_reg_entry (revoc_reg_def_id : val) : string :=
  path_of [VStr MARKER_REVOC_REG_ENTRY; revoc_reg_def_id].
Definition make_state_path_for_revoc_reg_entry_accum (revoc_reg_def_id : val) : string :=
  path_of [VStr MARKER_REVOC_REG_ENTRY_ACCUM; revoc_reg_def_id].

Section Domain.
Context {bytes : Type} `{!Serializer bytes}.
(** [sha256]: the digest of a text, its hexadecimal form, and the hexadecimal
    form of the digest of serialized bytes. *)
Context (sha256_digest sha256_hex : string → string) (sha256_hex_bytes : bytes → string).
(** [attrib_raw_data_serializer] *)
Context (raw_deserialize : val → res val) (raw_serialize : val → string).

Definition make_state_path_for_nym (did : string) : string := sha256_digest did.

(** [attr_name.encode()] needs a string; a hash is put in the path as it is. *)
Definition make_state_path_for_attr (did attr_name : val) (attr_is_hash : bool) : res string :=
  let! nameHash := if attr_is_hash then Ok attr_name
                   else match attr_name with
                        | VStr s => Ok (VStr (sha256_hex s))
                        | _ => Raise AttributeError
                        end in
  Ok (path_of [did; VStr MARKER_ATTR; nameHash]).

(** ** Values *)

Definition domain_encode_state_value (value seqNo txnTime : val) : bytes :=
  ser_serialize (VDict [(LAST_SEQ_NO, seqNo); (LAST_UPDATE_TIME, txnTime); (VALUE_KEY, value)]).

Definition domain_decode_state_value (encoded_value : bytes) : res (val * val * val) :=
  let! decoded := ser_deserialize encoded_value in
  let! value := vget_attr VALUE_KEY decoded in
  let! last_seq_no := vget_attr LAST_SEQ_NO decoded in
  let! last_update_time := vget_attr LAST_UPDATE_TIME decoded in
  Ok (value, last_seq_no, last_update_time).

Definition hash_of (text : val) : string :=
  match text with
  | VStr s => sha256_hex s
  | v => sha256_hex_bytes (ser_serialize v)
  end.

(** The common end of the functions that prepare a pair for the state. *)
Definition with_value (path : string) (path_only : bool) (value : res bytes)
    : res (string * option bytes) :=
  if path_only then Ok (path, None) else let! v := value in Ok (path, Some v).

Definition ALL_ATR_KEYS : list string := [RAW; ENC; HASH].

(** [_extract_attr_typed_value] *)
Definition extract_attr_typed_value (txn_data : dict val) : res (string * val) :=
  match List.filter (λ key, dhas key txn_data) ALL_ATR_KEYS with
  | [] => Raise (ValueError "ATTR should have one of the following fields: ['raw', 'enc', 'hash']")
  | [key] => let! v := dgetitem key txn_data in Ok (key, v)
  | _ => Raise (ValueError "ATTR should have only one of the following fields: ['raw', 'enc', 'hash']")
  end.

(** [data.popitem()]: the last key of a dictionary. *)
Definition popitem_key (data : val) : res val :=
  match data with
  | VDict d => match List.rev d with
               | (k, _) :: _ => Ok (VStr k)
               | [] => Raise (KeyError "popitem(): dictionary is empty")
               end
  | _ => Raise AttributeError
  end.

Definition parse_attr_txn (txn_data : dict val) : res (string * val * val) :=
  let! (attr_type, attr) := extract_attr_typed_value txn_data in
  if str_eqb attr_type RAW then
    let! data := raw_deserialize attr in
    let re_raw := raw_serialize data in
    let! key := popitem_key data in
    Ok (attr_type, key, VStr re_raw)
  else if str_eqb attr_type ENC then Ok (attr_type, attr, attr)
  else Ok (attr_type, attr, VNone).

(** What an attribute comes to in the state and in the attribute store. *)
Record AttrForState := mkAttr {
  at_type : string;
  at_path : string;
  at_value : val;
  at_hashed : val;
  at_bytes : option bytes
}.

Definition hashed_value_of (value : val) : val :=
  VStr (if py_truth value then hash_of value else "").

Definition prepare_attr_for_state (txn : Txn) : res AttrForState :=
  if negb (str_eqb (get_type txn) ATTRIB) then Raise AssertionError else
  let txn_data := get_payload_data txn in
  let! nym := dgetitem TARGET_NYM txn_data in
  let! (attr_type, attr_key, value) := parse_attr_txn txn_data in
  let! path := make_state_path_for_attr nym attr_key (str_eqb attr_type HASH) in
  let hashed := hashed_value_of value in
  Ok (mkAttr attr_type path value hashed
        (Some (domain_encode_state_value hashed (opt_int (get_seq_no txn)) (opt_int (get_txn_time txn))))).

Definition prepare_attr_path (txn : Txn) : res string :=
  if negb (str_eqb (get_type txn) ATTRIB) then Raise AssertionError else
  let txn_data := get_payload_data txn in
  let! nym := dgetitem TARGET_NYM txn_data in
  let! (attr_type, attr_key, value) := parse_attr_txn txn_data in
  make_state_path_for_attr nym attr_key (str_eqb attr_type HASH).

Definition not_none (field what : string) (v : val) : res unit :=
  match v with
  | VNone => Raise (ValueError ("'" +:+ field +:+ "' field is absent, but it must contain " +:+ what))
  | _ => Ok tt
  end.

Definition txn_value (txn : Txn) (value : val) : bytes :=
  domain_encode_state_value value (opt_int (get_seq_no txn)) (opt_int (get_txn_time txn)).

Definition prepare_claim_def_for_state (txn : Txn) (path_only : bool) : res (string * option bytes) :=
  let origin := opt_str (get_from txn) in
  let! schema_seq_no := get_txn_claim_def_schema_ref txn in
  let! _ := not_none CLAIM_DEF_SCHEMA_REF "schema seq no" schema_seq_no in
  let! data := get_txn_claim_def_public_keys txn in
  let! _ := not_none CLAIM_DEF_PUBLIC_KEYS "components of keys" data in
  let signature_type := get_txn_claim_def_signature_type txn in
  let tag := get_txn_claim_def_tag txn in
  let path := make_state_path_for_claim_def origin schema_seq_no signature_type tag in
  with_value path path_only (Ok (txn_value txn data)).

(** [assert seq_no] and [assert txn_time] before the value is encoded. *)
Definition stamped_value (txn : Txn) (value : val) : res bytes :=
  let! _ := py_assert (opt_int (get_seq_no txn)) in
  let! _ := py_assert (opt_int (get_txn_time txn)) in
  Ok (txn_value txn value).

Definition prepare_revoc_def_for_state (txn : Txn) (path_only : bool) : res (string * option bytes) :=
  let author_did := opt_str (get_from txn) in
  let txn_data := get_payload_data txn in
  let cred_def_id := vget CRED_DEF_ID txn_data in
  let revoc_def_type := vget REVOC_TYPE txn_data in
  let revoc_def_tag := vget TAG txn_data in
  let! _ := py_assert author_did in
  let! _ := py_assert cred_def_id in
  let! _ := py_assert revoc_def_type in
  let! _ := py_assert revoc_def_tag in
  let path := make_state_path_for_revoc_def author_did cred_def_id revoc_def_type revoc_def_tag in
  with_value path path_only (stamped_value txn (VDict txn_data)).

(** The data of an entry with the sequence number and time of its transaction. *)
Definition with_stamp (txn : Txn) : dict val :=
  dset TXN_TIME (opt_int (get_txn_time txn))
    (dset SEQ_NO (opt_int (get_seq_no txn)) (get_payload_data txn)).

Definition prepare_revoc_reg_entry_for_state (txn : Txn) (path_only : bool)
    : res (string * option bytes) :=
  let revoc_reg_def_id := vget REVOC_REG_DEF_ID (get_payload_data txn) in
  let! _ := py_assert (opt_str (get_from txn)) in
  let! _ := py_assert revoc_reg_def_id in
  let path := make_state_path_for_revoc_reg_entry revoc_reg_def_id in
  with_value path path_only (stamped_value txn (VDict (with_stamp txn))).

Definition prepare_revoc_reg_entry_accum_for_state (txn : Txn) : res (string * bytes) :=
  let revoc_reg_def_id := vget REVOC_REG_DEF_ID (get_payload_data txn) in
  let! _ := py_assert (opt_str (get_from txn)) in
  let! _ := py_assert revoc_reg_def_id in
  let! v := stamped_value txn (VDict (with_stamp txn)) in
  Ok (make_state_path_for_revoc_reg_entry_accum revoc_reg_def_id, v).

Definition prepare_schema_for_state (txn : Txn) (path_only : bool) : res (string * option bytes) :=
  let origin := opt_str (get_from txn) in
  let! schema_name := get_txn_schema_name txn in
  let! schema_version := get_txn_schema_version txn in
  let! attr_names := get_txn_schema_attr_names txn in
  let value := VDict [(SCHEMA_ATTR_NAMES, attr_names)] in
  let path := make_state_path_for_schema origin schema_name schema_version in
  with_value path path_only (Ok (txn_value txn value)).

(** *** Replies: what a client checks a state proof against *)

Definition prepare_get_nym_for_state (reply : dict val) (deserialize : val → res val)
    : res (string * option bytes) :=
  let! value := match vget DATA reply with
                | VNone => Ok None
                | data => let! parsed := deserialize data in
                          match parsed with
                          | VDict d => Ok (Some (ser_serialize (VDict (ddel TARGET_NYM d))))
                          | _ => Raise AttributeError
                          end
                end in
  let! nym := dgetitem TARGET_NYM reply in
  match nym with
  | VStr did => Ok (make_state_path_for_nym did, value)
  | _ => Raise AttributeError
  end.

Definition prepare_get_claim_def_for_state (reply : dict val) : res (string * option bytes) :=
  let origin := vget CLAIM_DEF_FROM reply in
  let schema_seq_no := vget CLAIM_DEF_SCHEMA_REF reply in
  let! _ := not_none CLAIM_DEF_SCHEMA_REF "schema seq no" schema_seq_no in
  let signature_type := get_default CLAIM_DEF_SIGNATURE_TYPE (VStr CLAIM_DEF_CL) reply in
  let tag := get_default CLAIM_DEF_TAG (VStr CLAIM_DEF_TAG_DEFAULT) reply in
  let path := make_state_path_for_claim_def origin schema_seq_no signature_type tag in
  let! seq_no := dgetitem SEQ_NO reply in
  match vget CLAIM_DEF_PUBLIC_KEYS reply with
  | VNone => Ok (path, None)
  | data => let! txn_time := dgetitem TXN_TIME reply in
            Ok (path, Some (domain_encode_state_value data seq_no txn_time))
  end.

(** [seq_no], [txn_time] and the asserted, encoded data of a reply. *)
Definition reply_value (reply : dict val) : res bytes :=
  let! seq_no := dgetitem SEQ_NO reply in
  let! txn_time := dgetitem TXN_TIME reply in
  let! _ := py_assert seq_no in
  let! _ := py_assert txn_time in
  let! data := dgetitem DATA reply in
  Ok (domain_encode_state_value data seq_no txn_time).

Definition prepare_get_revoc_def_for_state (reply : dict val) : res (string * bytes) :=
  let author_did := vget IDENTIFIER reply in
  let data := vget DATA reply in
  let! cred_def_id := vget_attr CRED_DEF_ID data in
  let! revoc_def_type := vget_attr REVOC_TYPE data in
  let! revoc_def_tag := vget_attr TAG data in
  let! _ := py_assert author_did in
  let! _ := py_assert cred_def_id in
  let! _ := py_assert revoc_def_type in
  let! _ := py_assert revoc_def_tag in
  let! v := reply_value reply in
  Ok (make_state_path_for_revoc_def author_did cred_def_id revoc_def_type revoc_def_tag, v).

Definition prepare_get_revoc_reg_entry_for_state (reply : dict val) : res (string * bytes) :=
  let! revoc_reg_def_id := vget_attr REVOC_REG_DEF_ID (vget DATA reply) in
  let! _ := py_assert revoc_reg_def_id in
  let! v := reply_value reply in
  Ok (make_state_path_for_revoc_reg_entry revoc_reg_def_id, v).

(** The assertion on the identifier comes after the two lookups here. *)
Definition prepare_get_revoc_reg_entry_accum_for_state (reply : dict val) : res (string * bytes) :=
  let! revoc_reg_def_id := vget_attr REVOC_REG_DEF_ID (vget DATA reply) in
  let! seq_no := dgetitem SEQ_NO reply in
  let! txn_time := dgetitem TXN_TIME reply in
  let! _ := py_assert revoc_reg_def_id in
  let! v := reply_value reply in
  Ok (make_state_path_for_revoc_reg_entry_accum revoc_reg_def_id, v).

Definition prepare_get_schema_for_state (reply : dict val) : res (string * option bytes) :=
  let! origin := get_reply_schema_from reply in
  let! schema_name := get_reply_schema_name reply in
  let! schema_version := get_reply_schema_version reply in
  let path := make_state_path_for_schema origin schema_name schema_version in
  let! attr_names := get_reply_schema_attr_names reply in
  if py_truth attr_names then
    let! seq_no := dgetitem SEQ_NO reply in
    let! txn_time := dgetitem TXN_TIME reply in
    Ok (path, Some (domain_encode_state_value (VDict [(SCHEMA_ATTR_NAMES, attr_names)]) seq_no txn_time))
  else Ok (path, None).

Definition prepare_get_attr_for_state (reply : dict val) : res AttrForState :=
  let! nym := dgetitem TARGET_NYM reply in
  let! (attr_type, attr_key) := extract_attr_typed_value reply in
  let data := vget DATA reply in
  if py_truth data then
    let reply := dset attr_type data (ddel DATA reply) in
    let! typ := dgetitem TXN_TYPE reply in
    if negb (py_eq typ (VStr GET_ATTR)) then Raise AssertionError else
    let! (attr_type, attr_key, value) := parse_attr_txn reply in
    let hashed := hashed_value_of value in
    let! seq_no := dgetitem SEQ_NO reply in
    let! txn_time := dgetitem TXN_TIME reply in
    let value_bytes := domain_encode_state_value hashed seq_no txn_time in
    let! path := make_state_path_for_attr nym attr_key (str_eqb attr_type HASH) in
    Ok (mkAttr attr_type path value hashed (Some value_bytes))
  else
    let attr_key := if str_eqb attr_type ENC then VStr (hash_of attr_key) else attr_key in
    let! path := make_state_path_for_attr nym attr_key (str_eqb attr_type HASH || str_eqb attr_type ENC) in
    Ok (mkAttr attr_type path VNone VNone None).
End Domain.

(** ** Lemmas: splitting paths *)

Definition no_colon (s : string) : bool := negb (str_has ":"%char s).

Lemma no_colon_cons c s : no_colon (String c s) = true ↔ c ≠ ":"%char ∧ no_colon s = true.
Proof.
  unfold no_colon. simpl. rewrite negb_orb, andb_true_iff.
  rewrite (negb_true_iff (bool_decide _)), bool_decide_eq_false. naive_solver.
Qed.

(** A field without a colon ends at the first colon ... *)
Lemma first_field a b x y :
  no_colon a = true → no_colon b = true → a +:+ ":" +:+ x = b +:+ ":" +:+ y → a = b ∧ x = y.
Proof.
  revert b. induction a as [|c a IH]; intros [|d b] Ha Hb H; simpl in H.
  - by injection H.
  - injection H as <- _. apply no_colon_cons in Hb as [? _]. done.
  - injection H as -> _. apply no_colon_cons in Ha as [? _]. done.
  - injection H as -> H. apply no_colon_cons in Ha as [_ Ha]. apply no_colon_cons in Hb as [_ Hb].
    destruct (IH b Ha Hb H) as [-> ->]. done.
Qed.

(** ... or, read from the right, starts after the last one. *)
Lemma last_field n n' v v' :
  no_colon v = true → no_colon v' = true → n +:+ ":" +:+ v = n' +:+ ":" +:+ v' → n = n' ∧ v = v'.
Proof.
  assert (∀ m w, no_colon (m +:+ String ":"%char w) = false) as Hcolon.
  { intros m w. unfold no_colon. induction m as [|c m IH]; simpl; [done|].
    rewrite negb_orb. apply andb_false_iff. by right. }
  intros Hv Hv'. revert n'. induction n as [|c n IH]; intros [|c' n'] H; simpl in H.
  - injection H as ->. done.
  - injection H as <- ->. by rewrite Hcolon in Hv.
  - injection H as -> <-. by rewrite Hcolon in Hv'.
  - injection H as -> H. destruct (IH n' H) as [-> ->]. done.
Qed.

Lemma path_cons2 a b rest : path_of (VStr a :: b :: rest) = a +:+ ":" +:+ path_of (b :: rest).
Proof. done. Qed.

(** A DID-keyed path determines the DID and the rest. *)
Lemma did_path_inj d d' b b' rest rest' :
  no_colon d = true → no_colon d' = true →
  path_of (VStr d :: b :: rest) = path_of (VStr d' :: b' :: rest') →
  d = d' ∧ path_of (b :: rest) = path_of (b' :: rest').
Proof. intros Hd Hd'. rewrite !path_cons2. by apply first_field. Qed.

(** ** Properties *)

(** The schema path names one schema: two schemas of any names, whose
    authors' DIDs and whose versions hold no colon, have the same path only if
    they have the same author, name and version. *)
Theorem schema_path_injective d n v d' n' v' :
  no_colon d = true → no_colon d' = true → no_colon v = true → no_colon v' = true →
  make_state_path_for_schema (VStr d) (VStr n) (VStr v) =
    make_state_path_for_schema (VStr d') (VStr n') (VStr v') →
  d = d' ∧ n = n' ∧ v = v'.
Proof.
  intros Hd Hd' Hv Hv' H. apply did_path_inj in H as [-> H]; [|done..].
  apply did_path_inj in H as [_ H]; [|done..].
  change (n +:+ ":" +:+ v = n' +:+ ":" +:+ v') in H.
  apply last_field in H as [-> ->]; done.
Qed.

Lemma schema_path_injective_witness :
  "did" = "did" ∧ "degree:bsc" = "degree:bsc" ∧ "1.0" = "1.0".
Proof. by apply (schema_path_injective "did" "degree:bsc" "1.0" "did" "degree:bsc" "1.0"). Defined.

(** Records of different kinds are kept apart: for DIDs without a colon
    that are not themselves markers, the paths of attributes, schemas, claim
    definitions, revocation definitions, revocation entries and accumulators
    never coincide. *)
Theorem record_kinds_disjoint d d' d'' (n v r s t c ty tg h : val) :
  no_colon d = true → no_colon d' = true → no_colon d'' = true →
  let attr := path_of [VStr d; VStr MARKER_ATTR; h] in
  let schema := make_state_path_for_schema (VStr d') n v in
  let claim_def := make_state_path_for_claim_def (VStr d'') r s t in
  let revoc_def := make_state_path_for_revoc_def (VStr d) c ty tg in
  attr ≠ schema ∧ attr ≠ claim_def ∧ attr ≠ revoc_def ∧
  schema ≠ claim_def ∧ schema ≠ revoc_def ∧ claim_def ≠ revoc_def ∧
  make_state_path_for_revoc_reg_entry h ≠ make_state_path_for_revoc_reg_entry_accum c.
Proof.
  intros Hd Hd' Hd''. cbn zeta.
  assert (∀ a b m m' x l x' l', no_colon a = true → no_colon b = true → m ≠ m' →
    no_colon m = true → no_colon m' = true →
    path_of (VStr a :: VStr m :: x :: l) ≠ path_of (VStr b :: VStr m' :: x' :: l')) as Hne.
  { intros a b m m' x l x' l' Ha Hb Hm Hma Hmb H. apply did_path_inj in H as [_ H]; [|done..].
    apply did_path_inj in H as [? _]; done. }
  repeat split; try (by apply Hne). discriminate.
Qed.

Lemma record_kinds_disjoint_witness :
  path_of [VStr "Th7MpTaRZVRYnPiabds81Y"; VStr MARKER_ATTR; VStr "ab"] ≠
    make_state_path_for_schema (VStr "Th7MpTaRZVRYnPiabds81Y") (VStr "n") (VStr "1.0").
Proof.
  apply (record_kinds_disjoint "Th7MpTaRZVRYnPiabds81Y" "Th7MpTaRZVRYnPiabds81Y" "d"
    (VStr "n") (VStr "1.0") VNone VNone VNone VNone VNone VNone (VStr "ab")); reflexivity.
Defined.

(** The path of a revocation registry definition does not determine its parts:
    a claim definition identifier may have a tag or none. *)
Example revoc_def_path_collision :
  make_state_path_for_revoc_def (VStr "D") (VStr "D:3:CL:12:CL_ACCUM") (VStr "CL_ACCUM") (VStr "a") =
  make_state_path_for_revoc_def (VStr "D") (VStr "D:3:CL:12") (VStr "CL_ACCUM") (VStr "CL_ACCUM:a").
Proof. reflexivity. Qed.

(** The functions of [domain.py] are a state codec. *)
#[export] Program Instance domain_codec {bytes} `{!Serializer bytes} : StateCodec bytes :=
  {| encode_state_value v n t := domain_encode_state_value v (opt_int n) (opt_int t);
     decode_state_value := domain_decode_state_value |}.
Next Obligation.
  intros. unfold domain_decode_state_value, domain_encode_state_value. by rewrite ser_roundtrip.
Qed.

(** What is written to the state for a schema, a claim definition, a
    revocation registry definition or an entry reads back as the value, the
    sequence number and the time that were written. *)
Theorem state_value_roundtrip {bytes} `{!Serializer bytes} (value seq_no time : val) :
  domain_decode_state_value (domain_encode_state_value value seq_no time) = Ok (value, seq_no, time).
Proof.
  unfold domain_decode_state_value, domain_encode_state_value. by rewrite ser_roundtrip.
Qed.

(** The client's side agrees with the ledger's: from the reply that a node
    gives for a schema, the path and the value computed for checking its proof are
    those the transaction put in the state. *)
Theorem schema_reply_matches_txn {bytes} `{!Serializer bytes} author name ver attrs seq time ty rid en pv :
  py_truth attrs = true →
  let data := VDict [(SCHEMA_NAME, name); (SCHEMA_VERSION, ver); (SCHEMA_ATTR_NAMES, attrs)] in
  prepare_schema_for_state
    (mkTxn ty [(DATA, data)] (Some author) rid en pv (Some seq) (Some time)) false =
  prepare_get_schema_for_state
    [(SCHEMA_FROM, VStr author); (DATA, data); (SEQ_NO, VInt seq); (TXN_TIME, VInt time)].
Proof.
  intros Ha. cbn zeta. unfold prepare_get_schema_for_state.
  cbn -[make_state_path_for_schema py_truth domain_encode_state_value]. by rewrite Ha.
Qed.

Lemma schema_reply_matches_txn_witness :
  prepare_schema_for_state (mkTxn SCHEMA [(DATA, VDict [(SCHEMA_NAME, VStr "degree");
      (SCHEMA_VERSION, VStr "1.0"); (SCHEMA_ATTR_NAMES, VList [VStr "a"])])]
      (Some "D") None None None (Some 5%Z) (Some 7%Z)) false =
  prepare_get_schema_for_state [(SCHEMA_FROM, VStr "D"); (DATA, VDict [(SCHEMA_NAME, VStr "degree");
      (SCHEMA_VERSION, VStr "1.0"); (SCHEMA_ATTR_NAMES, VList [VStr "a"])]); (SEQ_NO, VInt 5);
      (TXN_TIME, VInt 7)].
Proof.
  exact (schema_reply_matches_txn "D" (VStr "degree") (VStr "1.0") (VList [VStr "a"]) 5 7 SCHEMA
    None None None eq_refl).
Defined.
