(* ===== verification/IdrCache.v ===== *)
(** * The identity cache

    [indy_node/persistence/idr_cache.py]: for each DID, the number and time of
    its last transaction, the DID that added it, its role and its verification
    key, packed with rlp and kept in an optimistic key-value store, which holds
    committed data and the changes of batches that are not committed yet.

    The store and rlp are plenum's and a library's: they are classes of
    operations with the laws the cache relies on.  Byte strings are strings. *)
From Stdlib Require Import Ascii.
From S2P Require Import Prelude PyValue Plenum Constants StateDomain AuthorizerSpec.

(** ** What the cache is built on *)

(** [OptimisticKVStore].  A lookup in the committed or the uncommitted view
    gives the value or [KeyError]. *)
Class OptimisticStore (S root : Type) := {
  okv_get : S → string → bool → res string;
  okv_set : S → string → string → bool → S;
  okv_create_batch : S → root → S;
  okv_reject_batch : S → S;
  okv_commit_batch : S → res S;
  okv_first_batch : S → option root;
  okv_get_outcome s k c : (∃ v, okv_get s k c = Ok v) ∨ okv_get s k c = Raise (KeyError k);
  okv_get_set_eq s k v c : okv_get (okv_set s k v c) k c = Ok v;
  okv_get_set_ne s k k' v c c' : k ≠ k' → okv_get (okv_set s k v c) k' c' = okv_get s k' c';
  okv_uncommitted_hidden s k k' v : okv_get (okv_set s k v false) k' true = okv_get s k' true;
  okv_committed_view s k v : okv_get (okv_set s k v true) k false = okv_get s k false ∨
                             okv_get (okv_set s k v true) k false = Ok v
}.

(** rlp of a list of byte strings. *)
Class Rlp := {
  rlp_encode : list string → string;
  rlp_decode : string → res (list string);
  rlp_roundtrip l : rlp_decode (rlp_encode l) = Ok l
}.

Section Cache.
Context {S root : Type} `{!OptimisticStore S root} {RL : Rlp} `{!EqDecision root}.

Definition unsetVerkey : string := "-".

(** [None] is stored as a dash. *)
Definition encodeVerkey (verkey : option string) : string :=
  match verkey with None => unsetVerkey | Some v => v end.

Definition decodeVerkey (verkey : string) : option string :=
  if str_eqb verkey unsetVerkey then None else Some verkey.

Definition or_empty (o : option string) : string := match o with Some s => s | None => "" end.

Definition packIdrValue (seqNo txnTime : option Z) (ta role verkey : option string) : res string :=
  match seqNo with
  | None => Raise (ValueError "seqNo should not be None!")
  | Some n => Ok (rlp_encode [str_int n; match txnTime with None => "" | Some t => str_int t end;
                              or_empty ta; or_empty role; encodeVerkey verkey])
  end.

(** What a packed value holds. *)
Record IdrValue := mkIdr {
  iv_seqNo : Z;
  iv_txnTime : option Z;
  iv_ta : string;
  iv_role : string;
  iv_verkey : option string
}.

Definition unpackIdrValue (value : string) : res IdrValue :=
  let! fields := rlp_decode value in
  match fields with
  | [seqNo; txnTime; ta; role; verkey] =>
      let! n := py_int seqNo in
      let! t := if str_truth txnTime then let! t := py_int txnTime in Ok (Some t) else Ok None in
      Ok (mkIdr n t ta role (decodeVerkey verkey))
  | _ => Raise (ValueError "not enough values to unpack")
  end.

Definition get (c : S) (idr : string) (isCommitted : bool) : res IdrValue :=
  let! value := okv_get c idr isCommitted in unpackIdrValue value.

Definition set (c : S) (idr : string) (seqNo txnTime : option Z) (ta role verkey : option string)
    (isCommitted : bool) : res S :=
  let! val := packIdrValue seqNo txnTime ta role verkey in
  Ok (okv_set c idr val isCommitted).

Definition currentBatchCreated (c : S) (stateRoot : root) : S := okv_create_batch c stateRoot.

Definition batchRejected (c : S) : S := okv_reject_batch c.

(** [onBatchCommitted]: the first batch is committed if it is the one with this
    root; otherwise the cache stays as it is (a warning is logged). *)
Definition onBatchCommitted (c : S) (stateRoot : root) : res S :=
  match okv_first_batch c with
  | None => Ok c
  | Some batch_idr =>
      if negb (bool_decide (batch_idr = stateRoot)) then Ok c
      else match okv_commit_batch c with
           | Raise (ValueError _) => Ok c
           | r => r
           end
  end.

Definition getVerkey (c : S) (idr : string) (isCommitted : bool) : res (option string) :=
  let! v := get c idr isCommitted in Ok (iv_verkey v).

Definition getRole (c : S) (idr : string) (isCommitted : bool) : res string :=
  let! v := get c idr isCommitted in Ok (iv_role v).

(** [x or None] *)
Definition str_or_none (s : string) : val := if str_truth s then VStr s else VNone.
Definition opt_or_none (o : option string) : val :=
  match o with Some s => str_or_none s | None => VNone end.
Definition int_or_none (o : option Z) : val :=
  match o with Some z => if Z.eqb z 0 then VNone else VInt z | None => VNone end.

(** [getNym]: the record of a DID, [None] if it is unknown or does not have the
    role asked for. *)
Definition getNym (c : S) (nym : string) (role : option string) (isCommitted : bool)
    : res (option (dict val)) :=
  match get c nym isCommitted with
  | Raise (KeyError _) => Ok None
  | Raise e => Raise e
  | Ok v =>
      let asked := match role with Some r => str_truth r | None => false end in
      if asked && negb (bool_decide (role = Some (iv_role v))) then Ok None
      else Ok (Some [(ROLE, str_or_none (iv_role v)); (VERKEY, opt_or_none (iv_verkey v));
                     (IDENTIFIER, str_or_none (iv_ta v)); (SEQ_NO, int_or_none (Some (iv_seqNo v)));
                     (TXN_TIME, int_or_none (iv_txnTime v))])
  end.

Definition getTrustee (c : S) (nym : string) (isCommitted : bool) : res (option (dict val)) :=
  getNym c nym (Some TRUSTEE) isCommitted.
Definition getSteward (c : S) (nym : string) (isCommitted : bool) : res (option (dict val)) :=
  getNym c nym (Some STEWARD) isCommitted.
Definition getEndorser (c : S) (nym : string) (isCommitted : bool) : res (option (dict val)) :=
  getNym c nym (Some ENDORSER) isCommitted.

(** [bool(d)]: a record is never empty. *)
Definition found (r : res (option (dict val))) : res bool :=
  let! o := r in Ok match o with Some (_ :: _) => true | _ => false end.

Definition hasTrustee (c : S) (nym : string) (isCommitted : bool) : res bool :=
  found (getTrustee c nym isCommitted).
Definition hasSteward (c : S) (nym : string) (isCommitted : bool) : res bool :=
  found (getSteward c nym isCommitted).
Definition hasEndorser (c : S) (nym : string) (isCommitted : bool) : res bool :=
  found (getEndorser c nym isCommitted).
Definition hasNym (c : S) (nym : string) (isCommitted : bool) : res bool :=
  found (getNym c nym None isCommitted).

(** [getOwnerFor]: the DID itself once it has a verification key, until then
    the DID that added it; [None] for an unknown DID. *)
Definition getOwnerFor (c : S) (nym : string) (isCommitted : bool) : res val :=
  let! nymData := getNym c nym None isCommitted in
  match nymData with
  | None => Ok VNone
  | Some d => match vget VERKEY d with
              | VNone => dgetitem IDENTIFIER d
              | _ => Ok (VStr nym)
              end
  end.

(** ** Lemmas *)

(** A packed value reads back, a missing role or adder as the empty string. *)
Lemma unpack_pack n t ta role verkey :
  verkey ≠ Some unsetVerkey →
  (let! v := packIdrValue (Some n) t ta role verkey in unpackIdrValue v) =
    Ok (mkIdr n t (or_empty ta) (or_empty role) verkey).
Proof.
  intros Hv. cbn [packIdrValue res_bind]. unfold unpackIdrValue. rewrite rlp_roundtrip.
  cbn [res_bind]. rewrite py_int_str. cbn [res_bind].
  assert (decodeVerkey (encodeVerkey verkey) = verkey) as ->.
  { unfold decodeVerkey. destruct verkey as [v|]; [|done]. simpl.
    rewrite (proj2 (str_eqb_neq v unsetVerkey)); [done|]. congruence. }
  destruct t as [t|]; [|done].
  assert (str_truth (str_int t) = true) as ->.
  { unfold str_truth. apply negb_true_iff, str_eqb_neq. intros E.
    pose proof (py_int_str t) as H. rewrite E in H. discriminate H. }
  by rewrite py_int_str.
Qed.

(** Every value in the cache was packed. *)
Definition cache_wf (c : S) : Prop :=
  ∀ k b v, okv_get c k b = Ok v →
    ∃ n t ta role verkey, packIdrValue (Some n) t ta role verkey = Ok v ∧ verkey ≠ Some unsetVerkey.

Lemma set_wf c idr n t ta role verkey b c' :
  cache_wf c → verkey ≠ Some unsetVerkey → set c idr n t ta role verkey b = Ok c' → cache_wf c'.
Proof.
  intros Hc Hv. unfold set. destruct n as [n|]; [|done]. cbn [packIdrValue res_bind].
  intros [= <-] k b' v Hget.
  destruct (decide (idr = k)) as [->|Hne]; [|rewrite okv_get_set_ne in Hget by done; by eapply Hc].
  destruct (decide (b = b')) as [->|Hb].
  - rewrite okv_get_set_eq in Hget. injection Hget as <-. by exists n, t, ta, role, verkey.
  - destruct b, b'; try done.
    + edestruct okv_committed_view as [E|E]; rewrite E in Hget; [by eapply Hc|].
      injection Hget as <-. by exists n, t, ta, role, verkey.
    + rewrite okv_uncommitted_hidden in Hget. by eapply Hc.
Qed.

Lemma get_outcome c idr b :
  cache_wf c → (∃ v, get c idr b = Ok v) ∨ get c idr b = Raise (KeyError idr).
Proof.
  intros Hc. unfold get. destruct (okv_get_outcome c idr b) as [[v Hv]|Hv]; rewrite Hv; [|by right].
  left. destruct (Hc idr b v Hv) as (n & t & ta & role & vk & Hp & Hvk). cbn [res_bind].
  pose proof (unpack_pack n t ta role vk Hvk) as H. rewrite Hp in H. cbn [res_bind] in H. eauto.
Qed.

(** The view the authorizers use is what they expect of a role cache. *)
Lemma getRole_cache c : cache_wf c → RoleCache (λ i, getRole c i false).
Proof.
  intros Hc i. unfold getRole. destruct (get_outcome c i false Hc) as [[v ->]| ->]; cbn [res_bind]; eauto.
Qed.

Lemma get_set c idr n t ta role verkey b c' :
  verkey ≠ Some unsetVerkey → set c idr (Some n) t ta role verkey b = Ok c' →
  get c' idr b = Ok (mkIdr n t (or_empty ta) (or_empty role) verkey).
Proof.
  intros Hv [= <-]. unfold get. rewrite okv_get_set_eq. cbn [res_bind].
  by pose proof (unpack_pack n t ta role verkey Hv).
Qed.

Lemma get_set_ne c idr idr' n t ta role verkey b b' c' :
  idr ≠ idr' → set c idr (Some n) t ta role verkey b = Ok c' → get c' idr' b' = get c idr' b'.
Proof. intros Hne [= <-]. unfold get. by rewrite okv_get_set_ne. Qed.

(** The owner, from the unpacked value. *)
Lemma getOwnerFor_get c nym b v :
  get c nym b = Ok v →
  getOwnerFor c nym b = Ok match opt_or_none (iv_verkey v) with
                           | VNone => str_or_none (iv_ta v)
                           | _ => VStr nym
                           end.
Proof.
  intros H. unfold getOwnerFor, getNym. rewrite H. cbn [andb res_bind vget dget].
  unfold vget. cbn [dget]. cbn. by destruct (opt_or_none (iv_verkey v)).
Qed.
End Cache.

(** ** Instances *)

(** A store with its batches as finite maps, the youngest first. *)
Record MapStore := mkStore {
  ms_committed : gmap string string;
  ms_current : gmap string string;
  ms_batches : list (string * gmap string string)
}.

Definition ms_uncommitted (s : MapStore) : gmap string string :=
  ms_current s ∪ foldr (λ b m, b.2 ∪ m) (ms_committed s) (ms_batches s).

Lemma foldr_union_insert (m : gmap string string) bs k k' v :
  k ≠ k' → foldr (λ (b : string * gmap string string) m, b.2 ∪ m) (<[k := v]> m) bs !! k' =
    foldr (λ (b : string * gmap string string) m, b.2 ∪ m) m bs !! k'.
Proof.
  intros Hne. induction bs as [|b bs IH]; simpl; [by apply lookup_insert_ne|].
  by rewrite !lookup_union, IH.
Qed.

#[export] Program Instance map_store : OptimisticStore MapStore string := {|
  okv_get s k c := match (if c : bool then ms_committed s else ms_uncommitted s) !! k with
                   | Some v => Ok v | None => Raise (KeyError k) end;
  okv_set s k v c := if c : bool
    then mkStore (<[k := v]> (ms_committed s)) (ms_current s) (ms_batches s)
    else mkStore (ms_committed s) (<[k := v]> (ms_current s)) (ms_batches s);
  okv_create_batch s r := mkStore (ms_committed s) ∅ ((r, ms_current s) :: ms_batches s);
  okv_reject_batch s := mkStore (ms_committed s) ∅ (tail (ms_batches s));
  okv_commit_batch s := match List.rev (ms_batches s) with
    | [] => Raise (ValueError "no batch")
    | b :: bs => Ok (mkStore (b.2 ∪ ms_committed s) (ms_current s) (List.rev bs))
    end;
  okv_first_batch s := match List.rev (ms_batches s) with [] => None | b :: _ => Some b.1 end
|}.
Next Obligation.
  intros s k c. cbn. destruct ((if c then ms_committed s else ms_uncommitted s) !! k); eauto.
Qed.
Next Obligation.
  intros s k v []; simpl; [by rewrite lookup_insert_eq|].
  unfold ms_uncommitted. simpl. by rewrite <- insert_union_l, lookup_insert_eq.
Qed.
Next Obligation.
  intros s k k' v [] [] Hne; simpl; unfold ms_uncommitted; simpl.
  - by rewrite lookup_insert_ne.
  - by rewrite !lookup_union, foldr_union_insert.
  - done.
  - by rewrite <- insert_union_l, lookup_insert_ne.
Qed.
Next Obligation. done. Qed.
Next Obligation.
  intros s k v. simpl. unfold ms_uncommitted. simpl. rewrite !lookup_union.
  destruct (ms_current s !! k) as [x|]; [left; by rewrite !union_Some_l|].
  rewrite !(left_id_L None _). induction (ms_batches s) as [|b bs IH]; simpl.
  - right. by rewrite lookup_insert_eq.
  - rewrite !lookup_union. destruct (b.2 !! k); [left; by rewrite !union_Some_l|].
    by rewrite !(left_id_L None _).
Qed.

(** An encoding of lists of strings: each character after a one, each string
    ended by a zero. *)
Fixpoint mark (s : string) (tail : string) : string :=
  match s with
  | EmptyString => String "0"%char tail
  | String c s' => String "1"%char (String c (mark s' tail))
  end.

Fixpoint unmark (s acc : string) : res (list string) :=
  match s with
  | EmptyString => if str_eqb acc "" then Ok [] else Raise (ValueError "rlp")
  | String "0"%char s' => let! l := unmark s' "" in Ok (acc :: l)
  | String _ (String c s') => unmark s' (acc +:+ String c "")
  | String _ EmptyString => Raise (ValueError "rlp")
  end.

Lemma unmark_mark s tail acc :
  unmark (mark s tail) acc = let! l := unmark tail "" in Ok ((acc +:+ s) :: l).
Proof.
  revert acc. induction s as [|c s IH]; intros acc; cbn [mark unmark].
  - by rewrite str_app_nil_r.
  - rewrite IH. by rewrite str_app_assoc.
Qed.

#[export] Program Instance marked_rlp : Rlp :=
  {| rlp_encode l := foldr mark "" l; rlp_decode s := unmark s "" |}.
Next Obligation.
  induction l as [|s l IH]; [done|]. cbn [foldr]. by rewrite unmark_mark, IH.
Qed.

Definition empty_store : MapStore := mkStore ∅ ∅ [].

Lemma empty_store_wf : cache_wf empty_store.
Proof. intros k [] v H; done. Qed.

(** ** Properties *)

(** What the cache packs it unpacks: number, time, adder, role and key of
    a DID come back, whatever they are, a missing adder or role as the empty
    string and a missing key as missing (no key may be a single dash). *)
Theorem idr_value_roundtrip `{RL : Rlp} n t ta role verkey :
  verkey ≠ Some unsetVerkey →
  (let! v := packIdrValue (Some n) t ta role verkey in unpackIdrValue v) =
    Ok (mkIdr n t (or_empty ta) (or_empty role) verkey).
Proof. apply unpack_pack. Qed.

Lemma idr_value_roundtrip_witness :
  (let! v := packIdrValue (Some 12%Z) None (Some "T") (Some TRUSTEE) None in unpackIdrValue v) =
    Ok (mkIdr 12 None "T" TRUSTEE None).
Proof. apply (idr_value_roundtrip 12 None (Some "T") (Some TRUSTEE) None). discriminate. Defined.

(** A write to the uncommitted view is seen there and only there: the role
    and the owner are the new ones (the owner is the DID itself if it has a key,
    else the DID that added it), the committed view keeps its answer, other DIDs
    keep theirs, and the cache stays a role cache. *)
Theorem cache_set_uncommitted {S root} `{!OptimisticStore S root} {RL : Rlp}
    (c c' : S) idr n t ta role verkey :
  cache_wf c → verkey ≠ Some unsetVerkey → verkey ≠ Some "" →
  set c idr (Some n) t ta role verkey false = Ok c' →
  getRole c' idr false = Ok (or_empty role) ∧
  getOwnerFor c' idr false = Ok match verkey with Some _ => VStr idr | None => str_or_none (or_empty ta) end ∧
  get c' idr true = get c idr true ∧
  (∀ other b, other ≠ idr → get c' other b = get c other b) ∧
  RoleCache (λ i, getRole c' i false).
Proof.
  intros Hc Hv Hv0 Hset. pose proof (get_set _ _ _ _ _ _ _ _ _ Hv Hset) as Hget.
  split; [unfold getRole; by rewrite Hget|]. split; [|split; [|split]].
  - rewrite (getOwnerFor_get _ _ _ _ Hget). cbn [iv_verkey iv_ta].
    destruct verkey as [v|]; [|done]. unfold opt_or_none, str_or_none.
    assert (str_truth v = true) as -> by (apply str_truth_iff; congruence). done.
  - injection Hset as <-. unfold get. by rewrite okv_uncommitted_hidden.
  - intros other b Hne. by eapply get_set_ne.
  - by eapply getRole_cache, set_wf.
Qed.

Lemma cache_set_uncommitted_witness :
  ∃ c', set empty_store "O" (Some 3%Z) (Some 9%Z) (Some "T") None None false = Ok c' ∧
    getOwnerFor c' "O" false = Ok (VStr "T").
Proof.
  eexists. split; [reflexivity|].
  eapply (cache_set_uncommitted empty_store _ "O" 3%Z (Some 9%Z) (Some "T") None None);
    [apply empty_store_wf|discriminate|discriminate|reflexivity].
Defined.
