(* ===== verification/HandlerBase.v ===== *)
(** * What the write handlers share

    The type check every handler opens with, the refusal of a request, and the
    call of the request validator with the identity cache as its role cache. *)
From S2P Require Import Prelude PyValue Plenum Constants AuthActions AuthConstraints Authorizer AuthorizerSpec AuthStrategy AuthMap StateDomain IdrCache.

(** [_validate_request_type] *)
Definition validate_request_type (expected : string) (request : Request) : res unit :=
  if py_eq (vget TXN_TYPE (operation request)) (VStr expected) then Ok tt else Raise AssertionError.

Definition invalid_request (request : Request) (reason : string) : exn :=
  InvalidClientRequest (identifier request) (reqId request) reason.

(** A DID that is passed to the cache must be text. *)
Definition did_of (v : val) : res string :=
  match v with VStr s => Ok s | _ => Raise AttributeError end.

Definition is_none (v : val) : bool := match v with VNone => true | _ => false end.

Section Validator.
Context {bytes CSt root S : Type} `{!Serializer bytes, !State bytes CSt}.
Context `{!OptimisticStore S root} {RL : Rlp} (str_request : Request → string).

(** [self.write_req_validator.validate(request, [action])] *)
Definition validate_action (c : S) (v : WriteRequestValidator (St := CSt)) (request : Request)
    (action : AuthAction) : res (WriteRequestValidator (St := CSt)) :=
  let! (_, v') := validate (λ i, getRole c i false) str_request v request [action] in Ok v'.

(** The local policy does not change the validator. *)
Lemma validate_action_default c (cs : CSt) metrics r a v' :
  action_clean a = true →
  validate_action c (default_validator cs metrics) r a = Ok v' →
  v' = default_validator cs metrics ∧
  ∃ res, validate (λ i, getRole c i false) str_request (default_validator cs metrics) r [a] = Ok res.
Proof.
  intros Ha. unfold validate_action. intros H. apply res_bind_Ok in H as ((o & v1) & H & [= <-]).
  split; [|eauto]. rewrite validate_default in H by done.
  apply res_bind_Ok in H as (? & _ & [= _ <-]). done.
Qed.
End Validator.
