(* ===== verification/Revocation.v ===== *)
(** * Revocation strategies

    [indy_node/server/revocation_strategy.py]: what a revocation registry entry
    may say given the entry before it, what is stored for it, and the difference
    between two stored entries.  A registry whose credentials are issued by
    default keeps the revoked indices ([RevokedStrategy]); one that issues on
    demand keeps the issued ones ([IssuedStrategy]).

    Indices are integers, as the message schema requires.  A refusal is
    [InvalidClientRequest] with the author and request number of the source; the
    indices that the source prints at the end of a message are left out. *)
From stdpp Require Import sorting.
From S2P Require Import Prelude PyValue Plenum Constants StateDomain IdrCache HandlerBase CompatSet CompatSetSpec.

Definition VALUE : string := "value".
Definition ISSUED : string := "issued".
Definition REVOKED : string := "revoked".
Definition ACCUM : string := "accum".
Definition PREV_ACCUM : string := "prevAccum".

(** The two strategies, and which of the two lists each keeps. *)
Inductive RevocationStrategy := RevokedStrategy | IssuedStrategy.

(** The list kept in the state, and the other one. *)
Definition kept (st : RevocationStrategy) : string :=
  match st with RevokedStrategy => REVOKED | IssuedStrategy => ISSUED end.
Definition dropped (st : RevocationStrategy) : string :=
  match st with RevokedStrategy => ISSUED | IssuedStrategy => REVOKED end.

(** A list of indices. *)
Fixpoint int_items (l : list val) : res (list Z) :=
  match l with
  | [] => Ok []
  | VInt z :: l' => let! zs := int_items l' in Ok (z :: zs)
  | _ => Raise (TypeError "indices must be integers")
  end.

Definition indices_of (v : val) : res (list Z) :=
  match v with VList l => int_items l | _ => Raise (TypeError "indices must be a list") end.

Definition index_list (l : list Z) : val := VList (map VInt l).

(** [d.get(key, [])] as indices, for a dictionary value. *)
Definition get_indices (key : string) (v : val) : res (list Z) :=
  match v with
  | VDict d => indices_of (get_default key (VList []) d)
  | _ => Raise AttributeError
  end.

Definition set_of (l : list Z) : gset Z := list_to_set l.

(** [assert value_from_state] after [current_entry.get(VALUE)] *)
Definition entry_value (current_entry : val) : res val :=
  let! v := vget_attr VALUE current_entry in
  let! _ := py_assert v in Ok v.

(** The checks of [RevokedStrategy.specific_validation]: issued indices must be
    in the revoked list, and revoked ones must not. *)
Definition revoked_specific_checks (req : Request) (indices issued_from_txn revoked_from_txn : list Z)
    : res unit :=
  if bool_decide (set_of issued_from_txn ∖ set_of indices ≠ ∅)
  then Raise (invalid_request req "Issued indices from txn are not present in the current revoked list from state")
  else if bool_decide (set_of indices ∩ set_of revoked_from_txn ≠ ∅)
  then Raise (invalid_request req "Revoked indices from txn are already revoked in current state")
  else Ok tt.

(** The checks of [IssuedStrategy.specific_validation], the other way round. *)
Definition issued_specific_checks (req : Request) (indices issued_from_txn revoked_from_txn : list Z)
    : res unit :=
  if bool_decide (set_of revoked_from_txn ∖ set_of indices ≠ ∅)
  then Raise (invalid_request req "Revoked indices from txn are not present in the current issued list from state")
  else if bool_decide (set_of indices ∩ set_of issued_from_txn ≠ ∅)
  then Raise (invalid_request req "Issued indices from txn are already issued in current state")
  else Ok tt.

(** [specific_validation]: both strategies read the list they keep and the two
    lists of the request, and then check. *)
Definition specific_validation (st : RevocationStrategy) (current_entry : val) (req : Request)
    : res unit :=
  let! value_from_state := entry_value current_entry in
  let! indices := get_indices (kept st) value_from_state in
  let value_from_txn := vget VALUE (operation req) in
  let! issued_from_txn := get_indices ISSUED value_from_txn in
  let! revoked_from_txn := get_indices REVOKED value_from_txn in
  match st with
  | RevokedStrategy => revoked_specific_checks req indices issued_from_txn revoked_from_txn
  | IssuedStrategy => issued_specific_checks req indices issued_from_txn revoked_from_txn
  end.

(** [RevocationStrategy.validate] *)
Definition validate_entry (st : RevocationStrategy) (current_entry : val) (req : Request) : res unit :=
  let! _ := dgetitem REVOC_REG_DEF_ID (operation req) in
  let value_from_txn := vget VALUE (operation req) in
  let! issued_from_txn := get_indices ISSUED value_from_txn in
  let! revoked_from_txn := get_indices REVOKED value_from_txn in
  if bool_decide (set_of issued_from_txn ∩ set_of revoked_from_txn ≠ ∅)
  then Raise (invalid_request req "Can not have an index in both 'issued' and 'revoked' lists") else
  let! prev_accum := vget_attr PREV_ACCUM value_from_txn in
  let! accum := vget_attr ACCUM value_from_txn in
  if negb (is_none prev_accum) && is_none current_entry
  then Raise (invalid_request req ("Got 'prevAccum': " +:+ py_str prev_accum +:+
                           " but there is no previous REVOC_REG_ENTRY"))
  else if is_none current_entry then Ok tt else
  let! value_from_state := entry_value current_entry in
  let! current_accum := vget_attr ACCUM value_from_state in
  let! state_prev := vget_attr PREV_ACCUM value_from_state in
  if negb (py_eq current_accum prev_accum)
  then Raise (invalid_request req ("The current accumulator value: " +:+ py_str current_accum +:+
                           " must be equal to the last accumulator value: " +:+
                           py_str state_prev +:+ " in transaction"))
  else if Nat.eqb (length issued_from_txn) 0 && Nat.eqb (length revoked_from_txn) 0
  then Raise (invalid_request req "Got 'prevAccum' and 'accum' but 'issued' and 'revoked' lists are empty")
  else if py_eq prev_accum accum &&
          (Nat.ltb 0 (length issued_from_txn) || Nat.ltb 0 (length revoked_from_txn))
  then Raise (invalid_request req "Got equal accum and prev_accum but issued and revoked indices are not empty")
  else specific_validation st current_entry req.

(** The new list: the old one without [leaving] and with [entering], in the
    iteration order of [CompatSet] or sorted. *)
Definition result_indices (sort_legacy : bool) (indices leaving entering : list Z) : res (list Z) :=
  if sort_legacy then
    let! s := CompatSet_init indices in
    let! s := CompatSet_difference s [OtherIter leaving] in
    let! s := CompatSet_update s [OtherIter entering] in
    iter_elems s
  else Ok (merge_sort Z.le (elements ((set_of indices ∖ set_of leaving) ∪ set_of entering))).

Section Write.
Context {bytes St : Type} `{!Serializer bytes} `{!State bytes St}.

(** [set_to_state]: the entry at its path, and its accumulator alone at its own. *)
Definition set_to_state (state : St) (txn : Txn) : res St :=
  let! (path, value) := prepare_revoc_reg_entry_for_state txn false in
  let state := match value with Some b => st_set state path b | None => state end in
  let! v := dgetitem VALUE (get_payload_data txn) in
  let! accum := vgetitem ACCUM v in
  let txn := with_payload_data txn (dset VALUE (VDict [(ACCUM, accum)]) (get_payload_data txn)) in
  let! (path, value) := prepare_revoc_reg_entry_accum_for_state txn in
  Ok (st_set state path value).

(** The value of the transaction with its lists replaced. *)
Definition replace_lists (st : RevocationStrategy) (value : dict val) (result : list Z) : dict val :=
  match st with
  | RevokedStrategy => dset REVOKED (index_list result) (dset ISSUED (index_list []) value)
  | IssuedStrategy => dset ISSUED (index_list result) (dset REVOKED (index_list []) value)
  end.

(** [write] of both strategies (on a copy of the transaction). *)
Definition write (st : RevocationStrategy) (sort_legacy : bool) (state : St)
    (current_reg_entry : val) (txn : Txn) : res St :=
  if is_none current_reg_entry then set_to_state state txn else
  let! value_from_state := entry_value current_reg_entry in
  let! indices := get_indices (kept st) value_from_state in
  let value_from_txn := vget VALUE (get_payload_data txn) in
  let! issued_from_txn := get_indices ISSUED value_from_txn in
  let! revoked_from_txn := get_indices REVOKED value_from_txn in
  let! result := match st with
                 | RevokedStrategy => result_indices sort_legacy indices issued_from_txn revoked_from_txn
                 | IssuedStrategy => result_indices sort_legacy indices revoked_from_txn issued_from_txn
                 end in
  match value_from_txn with
  | VDict d =>
      set_to_state state (with_payload_data txn
        (dset VALUE (VDict (replace_lists st d result)) (get_payload_data txn)))
  | _ => Raise AttributeError
  end.
End Write.

(** A value of a reply: sets of indices occur beside JSON-like values. *)
Inductive rval :=
| RVal (v : val)
| RSet (s : gset Z)
| RDict (d : list (string * rval)).

(** [get_delta]: the indices issued and revoked between two entries, as sets.
    Without an earlier entry the two lists of the entry are the answer. *)
Definition get_delta (st : RevocationStrategy) (to_dict : val) (from_dict : option val)
    : res (rval * rval) :=
  match from_dict with
  | None => let! i := vgetitem ISSUED to_dict in let! r := vgetitem REVOKED to_dict in Ok (RVal i, RVal r)
  | Some from_dict =>
      let! t := vgetitem (kept st) to_dict in let! f := vgetitem (kept st) from_dict in
      let! to_list := indices_of t in let! from_list := indices_of f in
      let gained := RSet (set_of to_list ∖ set_of from_list) in
      let lost := RSet (set_of from_list ∖ set_of to_list) in
      Ok match st with
         | RevokedStrategy => (lost, gained)
         | IssuedStrategy => (gained, lost)
         end
  end.

(** ** Lemmas *)

Lemma int_items_map l : int_items (map VInt l) = Ok l.
Proof. induction l as [|z l IH]; simpl; [done|]. by rewrite IH. Qed.

Lemma indices_of_list l : indices_of (index_list l) = Ok l.
Proof. apply int_items_map. Qed.

Lemma int_items_inv l zs : int_items l = Ok zs → l = map VInt zs.
Proof.
  revert zs. induction l as [|v l IH]; simpl; intros zs H; [by injection H as <-|].
  destruct v; try done. apply res_bind_Ok in H as (zs' & H & [= <-]). simpl. by rewrite (IH zs').
Qed.

Definition nonneg (l : list Z) : Prop := Forall (λ x, 0 ≤ x)%Z l.

(** What the legacy order needs: the probing of a set ends for hashes that are
    not negative. *)
Definition order_defined (legacy : bool) (l : list Z) : Prop := legacy = true → nonneg l.

(** The order of a new list: the sorted one is increasing; the legacy one is
    the order in which a set iterates that was made of the old list and then had
    the one list removed and the other added. *)
Definition in_order (legacy : bool) (indices leaving entering l : list Z) : Prop :=
  if legacy then
    ∃ s1 s2 s3, CompatSet_init indices = Ok s1 ∧ CompatSet_difference s1 [OtherIter leaving] = Ok s2 ∧
      CompatSet_update s2 [OtherIter entering] = Ok s3 ∧ iter_elems s3 = Ok l
  else StronglySorted Z.lt l.

Lemma StronglySorted_lt l : StronglySorted Z.le l → NoDup l → StronglySorted Z.lt l.
Proof.
  induction 1 as [|x l Hl IH Hx]; intros Hnd; [constructor|].
  apply NoDup_cons in Hnd as [Hxl Hnd]. constructor; [by apply IH|].
  rewrite Forall_forall in Hx |- *. intros y Hy. specialize (Hx y Hy).
  assert (x ≠ y) by (by intros ->). lia.
Qed.

(** Whatever the order asked for, the result is there and is the set it should
    be, each index once, in that order. *)
Lemma result_indices_spec legacy indices leaving entering :
  order_defined legacy indices → order_defined legacy leaving → order_defined legacy entering →
  ∃ l, result_indices legacy indices leaving entering = Ok l ∧
    in_order legacy indices leaving entering l ∧
    l ≡ₚ elements ((set_of indices ∖ set_of leaving) ∪ set_of entering).
Proof.
  intros Hi Hl He. destruct legacy; unfold result_indices, in_order.
  2: { eexists. split; [done|]. split; [|apply merge_sort_Permutation]. apply StronglySorted_lt.
       - apply (StronglySorted_merge_sort Z.le).
       - rewrite merge_sort_Permutation. apply NoDup_elements. }
  specialize (Hi eq_refl). specialize (Hl eq_refl). specialize (He eq_refl).
  destruct (update_rep new_Inner ∅ (OtherIter indices) (set_of indices) rep_new (conj Hi eq_refl))
    as (s1 & H1 & R1).
  destruct (difference_rep s1 _ (OtherIter leaving) (set_of leaving) R1 (conj Hl eq_refl))
    as (s2 & H2 & R2).
  destruct (update_rep s2 _ (OtherIter entering) (set_of entering) R2 (conj He eq_refl))
    as (s3 & H3 & R3).
  assert (CompatSet_init indices = Ok s1) as -> by exact H1. cbn [res_bind].
  assert (CompatSet_difference s1 [OtherIter leaving] = Ok s2) as E2
    by (unfold CompatSet_difference; by rewrite H2).
  assert (CompatSet_update s2 [OtherIter entering] = Ok s3) as E3
    by (unfold CompatSet_update; cbn [res_fold]; by rewrite H3).
  rewrite E2. cbn [res_bind]. rewrite E3. cbn [res_bind].
  pose proof (iter_elems_spec s3 ltac:(apply R3)) as E4. rewrite E4. eexists. split; [done|].
  split; [by exists s1, s2, s3|]. rewrite (rep_perm s3 _ R3). f_equiv. set_solver.
Qed.

Section write_lemmas.
Context {bytes St : Type} `{!Serializer bytes} `{!State bytes St}.

(** A transaction that can be stored: author, registry, number and time are
    there, and its value is a dictionary with an accumulator. *)
Record storable (txn : Txn) (rid : string) (d : dict val) (acc : val) : Prop := {
  sto_from : ∃ a, get_from txn = Some a ∧ a ≠ "";
  sto_rid : dget REVOC_REG_DEF_ID (get_payload_data txn) = Some (VStr rid) ∧ rid ≠ "";
  sto_seq : ∃ n, get_seq_no txn = Some n ∧ n ≠ 0%Z;
  sto_time : ∃ t, get_txn_time txn = Some t ∧ t ≠ 0%Z;
  sto_value : dget VALUE (get_payload_data txn) = Some (VDict d);
  sto_accum : dget ACCUM d = Some acc
}.

Definition entry_path (rid : string) : string := make_state_path_for_revoc_reg_entry (VStr rid).
Definition accum_path (rid : string) : string := make_state_path_for_revoc_reg_entry_accum (VStr rid).

Lemma entry_accum_path_ne rid rid' : entry_path rid ≠ accum_path rid'.
Proof. discriminate. Qed.

(** The transaction with its value reduced to the accumulator. *)
Definition accum_txn (txn : Txn) (acc : val) : Txn :=
  with_payload_data txn (dset VALUE (VDict [(ACCUM, acc)]) (get_payload_data txn)).

Lemma py_assert_true v : py_truth v = true → py_assert v = Ok tt.
Proof. unfold py_assert. by intros ->. Qed.

Lemma str_nonempty_truth s : s ≠ "" → py_truth (VStr s) = true.
Proof. apply py_truth_str. Qed.

Lemma int_nonzero_truth z : z ≠ 0%Z → py_truth (VInt z) = true.
Proof. intros. simpl. apply negb_true_iff. by apply Z.eqb_neq. Qed.

Lemma prepare_entry_ok txn rid d acc :
  storable txn rid d acc →
  prepare_revoc_reg_entry_for_state (bytes := bytes) txn false =
    Ok (entry_path rid, Some (txn_value txn (VDict (with_stamp txn)))) ∧
  prepare_revoc_reg_entry_accum_for_state (bytes := bytes) txn =
    Ok (accum_path rid, txn_value txn (VDict (with_stamp txn))).
Proof.
  intros [(a & Ha & Ha0) [Hr Hr0] (n & Hn & Hn0) (t & Ht & Ht0) _ _].
  unfold prepare_revoc_reg_entry_for_state, prepare_revoc_reg_entry_accum_for_state, with_value,
    stamped_value, vget.
  rewrite Hr, Ha, Hn, Ht. cbn [opt_str opt_int].
  rewrite !py_assert_true by
    (apply str_nonempty_truth || apply int_nonzero_truth; done). done.
Qed.

Lemma storable_accum_txn txn rid d acc :
  storable txn rid d acc → storable (accum_txn txn acc) rid [(ACCUM, acc)] acc.
Proof.
  intros [H1 [H2 H2'] H3 H4 H5 H6]. split; cbn; [done| |done|done| |].
  - split; [|done]. by autorewrite with indy.
  - auto with indy.
  - done.
Qed.

Lemma set_to_state_spec (state : St) txn rid d acc :
  storable txn rid d acc →
  set_to_state state txn = Ok
    (st_set (st_set state (entry_path rid) (txn_value txn (VDict (with_stamp txn))))
       (accum_path rid) (txn_value txn (VDict (with_stamp (accum_txn txn acc))))).
Proof.
  intros H. unfold set_to_state. rewrite (proj1 (prepare_entry_ok _ _ _ _ H)). cbn [res_bind].
  unfold dgetitem at 1. rewrite (sto_value _ _ _ _ H). cbn [res_bind vgetitem].
  unfold dgetitem. rewrite (sto_accum _ _ _ _ H). cbn [res_bind].
  fold (accum_txn txn acc).
  rewrite (proj2 (prepare_entry_ok _ _ _ _ (storable_accum_txn _ _ _ _ H))). done.
Qed.

(** What was stored for a transaction reads back. *)
Lemma txn_value_reads (state : St) path txn v :
  st_get state path = Some (txn_value txn v) →
  get_from_state_val state path = Ok (v, opt_int (get_seq_no txn), opt_int (get_txn_time txn)).
Proof. unfold get_from_state_val. intros ->. apply (codec_roundtrip (StateCodec := domain_codec)). Qed.

Lemma replace_lists_get st d l :
  dget (kept st) (replace_lists st d l) = Some (index_list l) ∧
  dget (dropped st) (replace_lists st d l) = Some (index_list []) ∧
  dget ACCUM (replace_lists st d l) = dget ACCUM d.
Proof.
  destruct st; unfold replace_lists, kept, dropped; repeat split; by autorewrite with indy.
Qed.

Lemma storable_replace st txn rid d acc l :
  storable txn rid d acc →
  storable (with_payload_data txn (dset VALUE (VDict (replace_lists st d l)) (get_payload_data txn)))
    rid (replace_lists st d l) acc.
Proof.
  intros [H1 [H2 H2'] H3 H4 H5 H6]. split; cbn; [done| |done|done| |].
  - split; [|done]. by autorewrite with indy.
  - auto with indy.
  - by rewrite (proj2 (proj2 (replace_lists_get st d l))).
Qed.

Lemma with_stamp_value txn k :
  k ≠ TXN_TIME → k ≠ SEQ_NO → dget k (with_stamp txn) = dget k (get_payload_data txn).
Proof. intros. unfold with_stamp. by autorewrite with indy. Qed.

(** Taking out a subset and putting in something new can be read back. *)
Lemma delta_algebra (K L E : gset Z) :
  L ⊆ K → E ## K →
  K ∖ ((K ∖ L) ∪ E) = L ∧ ((K ∖ L) ∪ E) ∖ K = E.
Proof.
  intros HL HE. split; apply set_eq; intros x; rewrite !elem_of_difference, elem_of_union,
    ?elem_of_difference; destruct (decide (x ∈ K)), (decide (x ∈ L)), (decide (x ∈ E)); set_solver.
Qed.

(** ** What validation establishes *)

(** The indices that leave and enter the kept list. *)
Definition leaving (st : RevocationStrategy) (issued revoked : list Z) : list Z :=
  match st with RevokedStrategy => issued | IssuedStrategy => revoked end.
Definition entering (st : RevocationStrategy) (issued revoked : list Z) : list Z :=
  match st with RevokedStrategy => revoked | IssuedStrategy => issued end.

Lemma validate_entry_ok st cur req vs ks issued revoked :
  cur ≠ VNone → entry_value cur = Ok vs → get_indices (kept st) vs = Ok ks →
  get_indices ISSUED (vget VALUE (operation req)) = Ok issued →
  get_indices REVOKED (vget VALUE (operation req)) = Ok revoked →
  validate_entry st cur req = Ok tt →
  set_of (leaving st issued revoked) ⊆ set_of ks ∧
  set_of (entering st issued revoked) ## set_of ks ∧
  set_of issued ## set_of revoked.
Proof.
  intros Hcur Hvs Hks Hi Hr. unfold validate_entry. rewrite Hi, Hr. intros H.
  bind H as ? _. cbn [res_bind] in H.
  case_bool_decide as Hdis; [done|].
  bind H as prev _. bind H as acc _.
  assert (is_none cur = false) as Hnone by (by destruct cur).
  rewrite Hnone, andb_false_r in H. rewrite Hvs in H. cbn [res_bind] in H.
  bind H as cacc _. bind H as sprev _.
  destruct (negb _); [done|]. destruct (_ && _); [done|]. destruct (_ && _); [done|].
  revert H. unfold specific_validation. rewrite Hvs. cbn [res_bind]. rewrite Hks. cbn [res_bind].
  rewrite Hi, Hr. cbn [res_bind].
  unfold revoked_specific_checks, issued_specific_checks.
  destruct st; cbn [leaving entering]; intros H;
    (case_bool_decide as H1; [done|]); (case_bool_decide as H2; [done|]);
    apply empty_difference_subseteq_L in H1; apply disjoint_intersection_L in H2, Hdis;
    split_and!; done.
Qed.
End write_lemmas.

(** An accepted update writes what its lists say: the kept list becomes the old
    one without the indices that leave and with those that enter; nothing but
    the entry and its accumulator changes. *)
Lemma write_lists {bytes St} `{!Serializer bytes, !State bytes St}
    st legacy (state : St) cur vs ks req txn rid d acc issued revoked :
  storable txn rid d acc → operation req = get_payload_data txn →
  entry_value cur = Ok (VDict vs) → get_indices (kept st) (VDict vs) = Ok ks →
  get_indices ISSUED (VDict d) = Ok issued → get_indices REVOKED (VDict d) = Ok revoked →
  order_defined legacy ks → order_defined legacy issued → order_defined legacy revoked →
  validate_entry st cur req = Ok tt →
  ∃ state' l e v' a,
    write st legacy state cur txn = Ok state' ∧
    st_get state' (entry_path rid) = Some (txn_value txn (VDict e)) ∧
    st_get state' (accum_path rid) = Some (txn_value txn (VDict a)) ∧
    (∀ p, p ≠ entry_path rid → p ≠ accum_path rid → st_get state' p = st_get state p) ∧
    dget VALUE e = Some (VDict v') ∧ dget VALUE a = Some (VDict [(ACCUM, acc)]) ∧
    dget ACCUM v' = Some acc ∧
    dget (kept st) v' = Some (index_list l) ∧ dget (dropped st) v' = Some (index_list []) ∧
    l ≡ₚ elements ((set_of ks ∖ set_of (leaving st issued revoked)) ∪
                   set_of (entering st issued revoked)) ∧
    in_order legacy ks (leaving st issued revoked) (entering st issued revoked) l ∧
    set_of (leaving st issued revoked) ⊆ set_of ks ∧ set_of (entering st issued revoked) ## set_of ks.
Proof.
  intros Hst Hop Hvs Hks Hi Hr Nks Ni Nr Hval.
  assert (cur ≠ VNone) as Hcur by (intros ->; done).
  assert (vget VALUE (operation req) = VDict d) as Hv
    by (unfold vget; by rewrite Hop, (sto_value _ _ _ _ Hst)).
  destruct (validate_entry_ok st cur req (VDict vs) ks issued revoked) as (Hsub & Hdis & _);
    try done; [by rewrite Hv..|].
  destruct (result_indices_spec legacy ks (leaving st issued revoked) (entering st issued revoked))
    as (l & Hl & Hord & Hp); [done|by destruct st|by destruct st|].
  pose proof (replace_lists_get st d l) as (Hk & Hd & Ha).
  set (txn' := with_payload_data txn
    (dset VALUE (VDict (replace_lists st d l)) (get_payload_data txn))).
  pose proof (storable_replace st txn rid d acc l Hst) as Hst'. fold txn' in Hst'.
  pose proof (set_to_state_spec state txn' rid _ acc Hst') as Hset.
  eexists _, l, (with_stamp txn'), (replace_lists st d l), (with_stamp (accum_txn txn' acc)). split.
  { unfold write. assert (is_none cur = false) as -> by (by destruct cur).
    rewrite Hvs. cbn [res_bind]. rewrite Hks. cbn [res_bind]. unfold vget.
    rewrite (sto_value _ _ _ _ Hst), Hi, Hr. cbn [res_bind].
    destruct st; cbn [leaving entering] in Hl; rewrite Hl; cbn [res_bind]; exact Hset. }
  split; [rewrite st_get_set_ne by (intros E; by apply (eq_sym) in E); apply st_get_set_eq|].
  split; [apply st_get_set_eq|]. split; [intros p Hp1 Hp2; by rewrite !st_get_set_ne by done|].
  do 2 (split; [rewrite with_stamp_value by done; apply dget_dset_eq|]).
  split; [rewrite Ha; apply Hst|]. done.
Qed.

(** The new list has no negative index when the old one and those of the
    transaction have none. *)
Lemma written_nonneg st ks issued revoked l :
  nonneg ks → nonneg issued → nonneg revoked →
  l ≡ₚ elements ((set_of ks ∖ set_of (leaving st issued revoked)) ∪
                 set_of (entering st issued revoked)) → nonneg l.
Proof.
  unfold nonneg. intros Nks Ni Nr ->. apply Forall_forall. intros x.
  rewrite elem_of_elements, elem_of_union, elem_of_difference. unfold set_of. rewrite !elem_of_list_to_set.
  rewrite Forall_forall in Nks, Ni, Nr. destruct st; cbn [leaving entering]; naive_solver.
Qed.

(** The delta between the two entries is the issued and the revoked indices. *)
Lemma write_refines {bytes St} `{!Serializer bytes, !State bytes St}
    st legacy (state : St) cur vs ks req txn rid d acc issued revoked :
  storable txn rid d acc → operation req = get_payload_data txn →
  entry_value cur = Ok (VDict vs) → dget (kept st) vs = Some (index_list ks) →
  get_indices ISSUED (VDict d) = Ok issued → get_indices REVOKED (VDict d) = Ok revoked →
  order_defined legacy ks → order_defined legacy issued → order_defined legacy revoked →
  validate_entry st cur req = Ok tt →
  ∃ state' l e v',
    write st legacy state cur txn = Ok state' ∧
    get_from_state_val state' (entry_path rid) =
      Ok (VDict e, opt_int (get_seq_no txn), opt_int (get_txn_time txn)) ∧
    dget VALUE e = Some (VDict v') ∧ dget ACCUM v' = Some acc ∧
    dget (kept st) v' = Some (index_list l) ∧ dget (dropped st) v' = Some (index_list []) ∧
    l ≡ₚ elements ((set_of ks ∖ set_of (leaving st issued revoked)) ∪
                   set_of (entering st issued revoked)) ∧
    in_order legacy ks (leaving st issued revoked) (entering st issued revoked) l ∧
    get_delta st (VDict v') (Some (VDict vs)) = Ok (RSet (set_of issued), RSet (set_of revoked)).
Proof.
  intros Hst Hop Hvs Hks Hi Hr Nks Ni Nr Hval.
  assert (get_indices (kept st) (VDict vs) = Ok ks) as Hks'.
  { unfold get_indices, get_default. rewrite Hks. apply indices_of_list. }
  destruct (write_lists st legacy state cur vs ks req txn rid d acc issued revoked) as
    (state' & l & e & v' & a & Hw & He & _ & _ & Hv & _ & Ha & Hk & Hd & Hp & Hord & Hsub & Hdis); try done.
  exists state', l, e, v'. split; [done|]. split; [by apply txn_value_reads|]. do 6 (split; [done|]).
  assert (set_of l = (set_of ks ∖ set_of (leaving st issued revoked)) ∪
    set_of (entering st issued revoked)) as Hset.
  { apply set_eq. intros x. unfold set_of at 1. rewrite elem_of_list_to_set, Hp. apply elem_of_elements. }
  unfold get_delta, vgetitem, dgetitem. rewrite Hk, Hks. cbn [res_bind].
  rewrite !indices_of_list. cbn [res_bind]. rewrite Hset. clear -Hsub Hdis.
  destruct st; cbn [leaving entering] in *; f_equal; f_equal; f_equal; apply delta_algebra; done.
Qed.

(** A registry with index 3 revoked, and an update that issues it again and
    revokes 5 and 9. *)
Definition sample_value : dict val :=
  [(ACCUM, VStr "a2"); (PREV_ACCUM, VStr "a1"); (ISSUED, index_list [3%Z]);
   (REVOKED, index_list [9; 5]%Z)].
Definition sample_data : dict val := [(REVOC_REG_DEF_ID, VStr "R"); (VALUE, VDict sample_value)].
Definition sample_txn : Txn :=
  mkTxn REVOC_REG_ENTRY sample_data (Some "D") (Some 1%Z) None None (Some 7%Z) (Some 100%Z).
Definition sample_request : Request := mkRequest (Some "D") (Some 1%Z) sample_data None None None.
Definition sample_current : dict val :=
  [(ACCUM, VStr "a1"); (ISSUED, index_list []); (REVOKED, index_list [3]%Z)].

Lemma sample_storable : storable sample_txn "R" sample_value (VStr "a2").
Proof. split; try done; eexists; done. Qed.

(** ** Properties *)

(** The two orders agree: for non-negative indices the legacy order and
    the sorted one list the same indices, and the sorted one is strictly
    increasing. *)
Theorem result_orders_agree indices out inn :
  nonneg indices → nonneg out → nonneg inn →
  ∃ l1 l2, result_indices true indices out inn = Ok l1 ∧ result_indices false indices out inn = Ok l2 ∧
    l1 ≡ₚ l2 ∧ StronglySorted Z.le l2 ∧ NoDup l2.
Proof.
  intros Hi Ho Hn. destruct (result_indices_spec true indices out inn (λ _, Hi) (λ _, Ho) (λ _, Hn)) as (l1 & H1 & _ & P1).
  destruct (result_indices_spec false indices out inn (λ _, Hi) (λ _, Ho) (λ _, Hn)) as (l2 & H2 & _ & P2).
  exists l1, l2. do 2 (split; [done|]). split; [by rewrite P1, P2|]. split.
  - injection H2 as <-. apply (StronglySorted_merge_sort Z.le).
  - rewrite P2. apply NoDup_elements.
Qed.

Lemma result_orders_agree_witness :
  ∃ l1 l2, result_indices true [12; 4; 5]%Z [5%Z] [6%Z] = Ok l1 ∧
    result_indices false [12; 4; 5]%Z [5%Z] [6%Z] = Ok l2 ∧ l1 ≡ₚ l2 ∧ StronglySorted Z.le l2 ∧ NoDup l2.
Proof. apply (result_orders_agree [12; 4; 5]%Z [5%Z] [6%Z]); repeat constructor; lia. Defined.

(** The accumulators of a registry form a chain: the first entry names no
    previous accumulator; every later one names the accumulator in the state,
    changes it, and lists at least one index. *)
Theorem accumulator_chain st cur req v :
  vget VALUE (operation req) = VDict v →
  validate_entry st cur req = Ok tt →
  (cur = VNone ∧ vget PREV_ACCUM v = VNone) ∨
  (∃ vs, entry_value cur = Ok (VDict vs) ∧ py_eq (vget ACCUM vs) (vget PREV_ACCUM v) = true ∧
    py_eq (vget PREV_ACCUM v) (vget ACCUM v) = false ∧
    (∃ i r, get_indices ISSUED (VDict v) = Ok i ∧ get_indices REVOKED (VDict v) = Ok r ∧ i ++ r ≠ [])).
Proof.
  intros Hv. unfold validate_entry. rewrite Hv. intros H.
  bind H as ? _.
  bind H as i Hi. bind H as r Hr.
  case_bool_decide; [done|]. cbn [vget_attr res_bind] in H.
  destruct (is_none cur) eqn:Hcur.
  - left. destruct cur; try done. split; [done|]. rewrite andb_true_r in H.
    destruct (vget PREV_ACCUM v); done.
  - rewrite andb_false_r in H. right.
    bind H as vs Hvs. bind H as ca Hca.
    bind H as sp _. destruct vs as [| | | | |vs]; try done.
    injection Hca as <-. exists vs. split; [done|].
    destruct (py_eq (vget ACCUM vs) (vget PREV_ACCUM v)); cbn [negb] in H; [|done].
    split; [done|].
    destruct (Nat.eqb (length i) 0 && Nat.eqb (length r) 0) eqn:El; [done|].
    assert (Nat.ltb 0 (length i) || Nat.ltb 0 (length r) = true) as Hl by (destruct i, r; done).
    rewrite Hl, andb_true_r in H. destruct (py_eq (vget PREV_ACCUM v) (vget ACCUM v)); [done|].
    split; [done|]. exists i, r. do 2 (split; [done|]). destruct i, r; done.
Qed.

Lemma accumulator_chain_witness :
  (VDict [(VALUE, VDict sample_current)] = VNone ∧ vget PREV_ACCUM sample_value = VNone) ∨
  (∃ vs, entry_value (VDict [(VALUE, VDict sample_current)]) = Ok (VDict vs) ∧
    py_eq (vget ACCUM vs) (vget PREV_ACCUM sample_value) = true ∧
    py_eq (vget PREV_ACCUM sample_value) (vget ACCUM sample_value) = false ∧
    (∃ i r, get_indices ISSUED (VDict sample_value) = Ok i ∧
      get_indices REVOKED (VDict sample_value) = Ok r ∧ i ++ r ≠ [])).
Proof.
  apply (accumulator_chain RevokedStrategy (VDict [(VALUE, VDict sample_current)]) sample_request
    sample_value); [reflexivity|vm_compute; reflexivity].
Defined.

(** A negative index, which the message schema admits, makes the legacy order
    hang. *)
Example legacy_negative_index : result_indices true [0%Z] [] [(-8)%Z] = Raise OutOfFuel.
Proof. vm_compute. reflexivity. Qed.
