(* ===== verification/NymHandler.v ===== *)
(** * NYM transactions

    [indy_node/server/request_handlers/domain_req_handlers/nym_handler.py] and
    [idr_cache_nym_handler.py]: static and dynamic validation of a NYM request,
    the update of the domain state and, with its result, of the identity cache.

    The database manager is the pair of the domain state and the cache.  The
    validator's counter of rules read from the state is passed through the calls
    to [validate]. *)
From Stdlib Require Import Ascii.
From S2P Require Import Prelude PyValue Plenum Constants AuthActions AuthConstraints Authorizer AuthorizerSpec AuthStrategy AuthMap StateDomain IdrCache HandlerBase.

Definition DIDDOC_CONTENT : string := "diddocContent".
Definition NYM_VERSION : string := "version".
Definition NYM_VERSION_NULL : Z := 0.
Definition NYM_VERSION_CONVENTION : Z := 1.
Definition NYM_VERSION_SELF_CERT : Z := 2.

(** [Authoriser.isValidRole] of [indy_common/auth.py] *)
Definition ValidRoles : list val :=
  [VStr TRUSTEE; VStr STEWARD; VStr ENDORSER; VStr NETWORK_MONITOR; VNone].
Definition isValidRole (role : val) : bool := existsb (py_eq role) ValidRoles.

(** ** Text helpers *)

(** [s.strip() == ''] *)
Definition is_space (c : Ascii.ascii) : bool :=
  let n := Ascii.nat_of_ascii c in
  (Nat.leb 9 n && Nat.leb n 13) || (Nat.leb 28 n && Nat.leb n 32).

Fixpoint all_space (s : string) : bool :=
  match s with EmptyString => true | String c s' => is_space c && all_space s' end.

(** [s.partition('#')[2]] *)
Fixpoint after_hash (s : string) : string :=
  match s with
  | EmptyString => ""
  | String c s' => if Ascii.eqb c "#"%char then s' else after_hash s'
  end.

(** ** What the handlers take from plenum and libraries *)

(** The record of a DID in the domain state; an empty one if there is none. *)
Class NymState (bytes St : Type) `{!Serializer bytes, !State bytes St} := {
  nym_to_state_key : string → string;
  get_nym_details : St → string → res (dict val);
  nym_details_set s nym d :
    get_nym_details (st_set s (nym_to_state_key nym) (ser_serialize (VDict d))) nym = Ok d;
  nym_details_set_ne s nym nym' b :
    nym ≠ nym' → get_nym_details (st_set s (nym_to_state_key nym) b) nym' = get_nym_details s nym'
}.

Section NymHandler.
Context {bytes St CSt root : Type} `{!Serializer bytes, !State bytes St, !State bytes CSt}.
Context `{!NymState bytes St} {S : Type} `{!OptimisticStore S root} {RL : Rlp}.
Context (str_request : Request → string) (json_loads : val → res val).
Context (b58encode : string → string) (b58decode : val → res string) (sha256 : string → string).
Notation Validator := (WriteRequestValidator (St := CSt)).

(** ** Static validation *)

Definition has_same_id_fragment (item : val) (fragment : string) : res bool :=
  match item with
  | VDict d => match dget "id" d with
               | None => Ok false
               | Some (VStr s) => Ok (str_eqb (after_hash s) fragment)
               | Some _ => Raise AttributeError
               end
  | _ => Ok false
  end.

(** The loop over the items of one list of the document. *)
Fixpoint check_items (items : list val) : res unit :=
  match items with
  | [] => Ok tt
  | item :: items' =>
      let! same := has_same_id_fragment item "verkey" in
      if same then Raise (InvalidDIDDocException
        "diddocContent must not have object with `id` containing fragment `verkey`")
      else check_items items'
  end.

Fixpoint check_elements (els : list val) : res unit :=
  match els with
  | [] => Ok tt
  | VList items :: els' => let! _ := check_items items in check_elements els'
  | _ :: els' => check_elements els'
  end.

Definition validate_diddoc_content (diddoc : val) : res unit :=
  match diddoc with
  | VDict d => if py_truth (vget "id" d)
               then Raise (InvalidDIDDocException "diddocContent must not have `id` at root")
               else check_elements (map snd d)
  | _ => Raise AttributeError
  end.

(** The part of [static_validation] about the document. *)
Definition validate_diddoc (request : Request) : res unit :=
  let diddoc_content := vget DIDDOC_CONTENT (operation request) in
  if py_truth diddoc_content then
    let! diddoc := json_loads diddoc_content in
    match validate_diddoc_content diddoc with
    | Raise (InvalidDIDDocException reason) =>
        Raise (InvalidClientRequest (identifier request) (reqId request) reason)
    | r => r
    end
  else Ok tt.

Definition is_known_version (version : val) : bool :=
  existsb (py_eq version) [VInt NYM_VERSION_NULL; VInt NYM_VERSION_CONVENTION; VInt NYM_VERSION_SELF_CERT].

Definition static_validation (request : Request) : res unit :=
  let! _ := validate_request_type NYM request in
  let op := operation request in
  let role := vget ROLE op in
  let nym := vget TARGET_NYM op in
  let nym_empty := match nym with VStr s => all_space s | v => negb (py_truth v) end in
  if nym_empty
  then Raise (InvalidClientRequest (identifier request) (reqId request) (TARGET_NYM +:+ " needs to be present"))
  else if negb (isValidRole role)
  then Raise (InvalidClientRequest (identifier request) (reqId request) (py_str role +:+ " not a valid role"))
  else
  let! _ := validate_diddoc request in
  match vget NYM_VERSION op with
  | VNone => Ok tt
  | version =>
      if is_known_version version then Ok tt
      else Raise (InvalidClientRequest (identifier request) (reqId request)
             ("Version must be one of {0, 1, 2}, received " +:+ py_str version))
  end.

(** ** Dynamic validation *)

Definition legacy_convention_validation (identifier verkey : val) : res bool :=
  let! key := b58decode verkey in
  Ok (py_eq identifier (VStr (b58encode (String.substring 0 16 key)))).

Definition is_self_certifying (identifier verkey : val) : res bool :=
  let! key := b58decode verkey in
  Ok (py_eq identifier (VStr (b58encode (String.substring 0 16 (sha256 key))))).

(** The checks of [_validate_new_nym] on an author that is not on the ledger. *)
Definition validate_off_ledger_author (c : S) (request : Request) : res unit :=
  let op := operation request in
  let! author := did_of (opt_str (identifier request)) in
  let! nym_data := getNym c author None false in
  match nym_data with
  | Some _ => Ok tt
  | None =>
      if negb (py_eq (opt_str (identifier request)) (vget TARGET_NYM op))
      then Raise (invalid_request request "DID which is not stored on ledger can send nym txn only if appropriate auth_rules set and sender did equal to destination nym")
      else if negb (py_truth (vget VERKEY op))
      then Raise (invalid_request request "Non-ledger nym txn must contain verkey for new did")
      else Ok tt
  end.

Definition validate_version (request : Request) : res unit :=
  let op := operation request in
  let version := vget NYM_VERSION op in
  let! convention_failed :=
    if py_eq version (VInt NYM_VERSION_CONVENTION)
    then let! b := legacy_convention_validation (vget TARGET_NYM op) (vget VERKEY op) in Ok (negb b)
    else Ok false in
  if convention_failed
  then Raise (invalid_request request "Identifier with version 1 must be first 16 bytes of verkey") else
  let! self_cert_failed :=
    if py_eq version (VInt NYM_VERSION_SELF_CERT)
    then let! b := is_self_certifying (vget TARGET_NYM op) (vget VERKEY op) in Ok (negb b)
    else Ok false in
  if self_cert_failed
  then Raise (invalid_request request "Identifier with version 2 must be first 16 bytes of SHA256 of verkey")
  else Ok tt.

Definition validate_new_nym (c : S) (v : Validator) (request : Request) : res Validator :=
  let! _ := validate_off_ledger_author c request in
  let! _ := validate_version request in
  validate_action str_request c v request
    (AuthActionAdd NYM (VStr ROLE) (vget ROLE (operation request)) true).

(** One round of the loop over [ROLE, VERKEY]: a key that is given is an edit. *)
Definition validate_key (c : S) (request : Request) (nym_data : dict val) (is_owner : bool)
    (acc : bool * Validator) (key : string) : res (bool * Validator) :=
  match dget key (operation request) with
  | None => Ok acc
  | Some newVal =>
      let! v' := validate_action str_request c acc.2 request
        (AuthActionEdit NYM (VStr key) (vget key nym_data) newVal is_owner) in
      Ok (true, v')
  end.

Definition validate_existing_nym (c : S) (v : Validator) (request : Request) (nym_data : dict val)
    : res Validator :=
  let! dest := dgetitem TARGET_NYM (operation request) in
  let! nym := did_of dest in
  let! owner := getOwnerFor c nym false in
  let is_owner := py_eq (opt_str (identifier request)) owner in
  if dhas NYM_VERSION (operation request)
  then Raise (invalid_request request "Cannot set version on existing nym") else
  let! (allowed, v') :=
    res_fold (validate_key c request nym_data is_owner) (is_owner, v) [ROLE; VERKEY] in
  if allowed then Ok v' else Raise (invalid_request request "").

Definition additional_dynamic_validation (c : S) (v : Validator) (request : Request) : res Validator :=
  let! _ := validate_request_type NYM request in
  let! dest := dgetitem TARGET_NYM (operation request) in
  let! nym := did_of dest in
  let! nym_data := getNym c nym None false in
  match nym_data with
  | Some d => validate_existing_nym c v request d
  | None => validate_new_nym c v request
  end.

(** ** Updates *)

(** The fields a transaction adds to the record of a DID. *)
Definition copy_field (k : string) (txn_data new_data : dict val) : dict val :=
  match dget k txn_data with Some v => dset k v new_data | None => new_data end.

Definition new_nym_data (txn : Txn) (is_new : bool) : dict val :=
  let txn_data := get_payload_data txn in
  let d0 := if is_new then [(IDENTIFIER, opt_str (get_from txn)); (ROLE, VNone); (VERKEY, VNone)] else [] in
  let d1 := copy_field ROLE txn_data d0 in
  let d2 := copy_field VERKEY txn_data d1 in
  let d3 := copy_field DIDDOC_CONTENT txn_data d2 in
  let d4 := copy_field NYM_VERSION txn_data d3 in
  dset TXN_TIME (opt_int (get_txn_time txn)) (dset SEQ_NO (opt_int (get_seq_no txn)) d4).

(** [NymHandler.update_state]: the new state and the new record. *)
Definition update_state (state : St) (txn : Txn) : res (St * dict val) :=
  let! _ := validate_type NYM (get_type txn) in
  let! nym := did_of (vget TARGET_NYM (get_payload_data txn)) in
  let! existing_data := get_nym_details state nym in
  let is_new := match existing_data with [] => true | _ => false end in
  let data := dupdate existing_data (new_nym_data txn is_new) in
  Ok (st_set state (nym_to_state_key nym) (ser_serialize (VDict data)), data).

(** A field of a record that is text or absent. *)
Definition text_or_none (v : val) : res (option string) :=
  match v with
  | VNone => Ok None
  | VStr s => Ok (Some s)
  | _ => Raise (TypeError "cannot be encoded")
  end.

(** [IdrCacheNymHandler.update_state], with the record as [prev_result]. *)
Definition cache_update_state (c : S) (txn : Txn) (prev_result : dict val) : res S :=
  let! nym := did_of (vget TARGET_NYM (get_payload_data txn)) in
  let! ta := text_or_none (vget IDENTIFIER prev_result) in
  let! role := text_or_none (vget ROLE prev_result) in
  let! verkey := text_or_none (vget VERKEY prev_result) in
  IdrCache.set c nym (get_seq_no txn) (get_txn_time txn) ta role verkey false.

(** A NYM transaction applied by both handlers, in the order they are registered. *)
Definition apply_nym (state : St) (c : S) (txn : Txn) : res (St * S) :=
  let! (state', data) := update_state state txn in
  let! c' := cache_update_state c txn data in
  Ok (state', c').
End NymHandler.

(** ** Lemmas: the record of a DID *)

Section record.
Implicit Types (txn : Txn) (d : dict val).

Lemma copy_field_get k j txn_data d :
  dget k (copy_field j txn_data d) =
    if str_eqb k j then match dget j txn_data with Some v => Some v | None => dget k d end
    else dget k d.
Proof.
  unfold copy_field. destruct (str_eqb k j) eqn:E.
  - apply str_eqb_eq in E as ->. destruct (dget j txn_data); [apply dget_dset_eq|done].
  - apply str_eqb_neq in E. destruct (dget j txn_data); [|done]. by rewrite dget_dset_ne by congruence.
Qed.

Lemma copy_field_NoDup k txn_data d : NoDup (dkeys d) → NoDup (dkeys (copy_field k txn_data d)).
Proof. unfold copy_field. destruct (dget k txn_data); [apply dset_NoDup|done]. Qed.

Lemma new_nym_data_NoDup txn b : NoDup (dkeys (new_nym_data txn b)).
Proof.
  unfold new_nym_data. do 2 apply dset_NoDup. do 4 apply copy_field_NoDup.
  destruct b; apply (bool_decide_unpack _); reflexivity.
Qed.

(** The value of a field that a transaction may give: the one given, else
    [None] for a new record, else what was there. *)
Definition given (txn : Txn) (k : string) (d : dict val) : val :=
  match dget k (get_payload_data txn) with Some v => v | None => vget k d end.

Lemma new_record_get txn d b k :
  (b = true ↔ d = []) → k = ROLE ∨ k = VERKEY →
  vget k (dupdate d (new_nym_data txn b)) = given txn k d.
Proof.
  intros Hb Hk. unfold vget, given. rewrite dget_dupdate by apply new_nym_data_NoDup.
  unfold new_nym_data.
  assert (b = false ∨ (b = true ∧ d = [])) as [->|[-> ->]] by (destruct b; naive_solver);
    destruct Hk as [-> | ->]; rewrite !dget_dset_ne by done; rewrite !copy_field_get; simpl;
    by destruct (dget _ (get_payload_data txn)).
Qed.

Lemma new_record_identifier txn d b :
  (b = true ↔ d = []) →
  vget IDENTIFIER (dupdate d (new_nym_data txn b)) = if b then opt_str (get_from txn) else vget IDENTIFIER d.
Proof.
  intros Hb. unfold vget. rewrite dget_dupdate by apply new_nym_data_NoDup.
  unfold new_nym_data. rewrite !dget_dset_ne by done. rewrite !copy_field_get. simpl. by destruct b.
Qed.

Lemma new_record_stamp txn d b :
  vget SEQ_NO (dupdate d (new_nym_data txn b)) = opt_int (get_seq_no txn) ∧
  vget TXN_TIME (dupdate d (new_nym_data txn b)) = opt_int (get_txn_time txn).
Proof.
  unfold vget. rewrite !dget_dupdate by apply new_nym_data_NoDup. unfold new_nym_data.
  rewrite dget_dset_ne, dget_dset_eq, dget_dset_eq by done. done.
Qed.

Lemma dupdate_nonempty d txn b : dupdate d (new_nym_data txn b) ≠ [].
Proof.
  intros E. destruct (new_record_stamp txn d b) as [_ H].
  assert (dget TXN_TIME (dupdate d (new_nym_data txn b)) ≠ None) as Hne; [|by rewrite E in Hne].
  rewrite dget_dupdate by apply new_nym_data_NoDup. unfold new_nym_data. by rewrite dget_dset_eq.
Qed.
End record.

(** ** State and cache agree *)

Section coherence.
Context {bytes St root : Type} `{!Serializer bytes, !State bytes St}.
Context `{!NymState bytes St} {S : Type} `{!OptimisticStore S root} {RL : Rlp}.

(** A record of the state and a value of the cache tell the same. *)
Definition agrees (d : dict val) (v : IdrValue) : Prop :=
  (∃ r, text_or_none (vget ROLE d) = Ok r ∧ iv_role v = or_empty r) ∧
  text_or_none (vget VERKEY d) = Ok (iv_verkey v) ∧
  (∃ t, text_or_none (vget IDENTIFIER d) = Ok t ∧ iv_ta v = or_empty t) ∧
  vget SEQ_NO d = VInt (iv_seqNo v) ∧ vget TXN_TIME d = opt_int (iv_txnTime v).

Definition coherent (state : St) (c : S) : Prop :=
  ∀ nym, ∃ d, get_nym_details state nym = Ok d ∧
    ((d = [] ∧ IdrCache.get c nym false = Raise (KeyError nym)) ∨
     (d ≠ [] ∧ ∃ v, IdrCache.get c nym false = Ok v ∧ agrees d v)).

Lemma update_state_inv (state state' : St) txn data :
  update_state state txn = Ok (state', data) →
  ∃ nym d b, vget TARGET_NYM (get_payload_data txn) = VStr nym ∧ get_nym_details state nym = Ok d ∧
    (b = true ↔ d = []) ∧ data = dupdate d (new_nym_data txn b) ∧
    state' = st_set state (nym_to_state_key nym) (ser_serialize (VDict data)).
Proof.
  unfold update_state. intros H. bind H as ? _.
  bind H as nym Hnym. apply res_bind_Ok in H as (d & Hd & [= <- <-]).
  exists nym, d, (match d with [] => true | _ => false end).
  split; [by destruct (vget TARGET_NYM _); simplify_eq/=|]. split; [done|].
  split; [by destruct d|]. done.
Qed.

Lemma text_or_none_opt o : text_or_none (opt_str o) = Ok o.
Proof. by destruct o. Qed.

Lemma apply_nym_keeps_coherent (state state' : St) (c c' : S) txn n :
  coherent state c → get_seq_no txn = Some n →
  given txn VERKEY [] ≠ VStr unsetVerkey →
  (∀ nym d, vget TARGET_NYM (get_payload_data txn) = VStr nym → get_nym_details state nym = Ok d →
    vget VERKEY d ≠ VStr unsetVerkey) →
  apply_nym state c txn = Ok (state', c') → coherent state' c'.
Proof.
  intros Hco Hn Hgiven Hold. unfold apply_nym. intros H.
  apply res_bind_Ok in H as ((state1 & data) & Hup & H).
  apply res_bind_Ok in H as (c1 & Hc1 & [= <- <-]).
  apply update_state_inv in Hup as (nym & d & b & Hnym & Hd & Hb & Hdata & ->).
  unfold cache_update_state in Hc1. rewrite Hnym in Hc1. cbn [did_of res_bind] in Hc1.
  bind Hc1 as ta Hta. bind Hc1 as role Hrole.
  apply res_bind_Ok in Hc1 as (verkey & Hvk & Hset). rewrite Hn in Hset.
  assert (verkey ≠ Some unsetVerkey) as Hne.
  { intros ->. assert (vget VERKEY data = VStr unsetVerkey) as E
      by (destruct (vget VERKEY data); simplify_eq/=; done).
    rewrite Hdata, new_record_get in E by auto. unfold given in *.
    destruct (dget VERKEY (get_payload_data txn)); [done|]. by apply (Hold nym d). }
  intros other. destruct (decide (nym = other)) as [<-|Hother].
  - exists data. split; [apply nym_details_set|]. right.
    split; [rewrite Hdata; apply dupdate_nonempty|].
    eexists. split; [by eapply get_set|]. destruct (new_record_stamp txn d b) as [Hs Ht].
    rewrite <- Hdata in Hs, Ht. unfold agrees. cbn [iv_role iv_verkey iv_ta iv_seqNo iv_txnTime].
    split; [eauto|]. split; [done|]. split; [eauto|]. by rewrite Hs, Ht, Hn.
  - destruct (Hco other) as (d' & Hd' & Hcase). exists d'.
    rewrite nym_details_set_ne by done. split; [done|].
    by rewrite (get_set_ne _ _ _ _ _ _ _ _ _ _ _ Hother Hset).
Qed.
End coherence.

(** ** Lemmas: dynamic validation under the default policy *)

Section policy.
Context {bytes CSt root : Type} `{!Serializer bytes, !State bytes CSt}.
Context {S : Type} `{!OptimisticStore S root} {RL : Rlp}.
Context (str_request : Request → string).
Context (b58encode : string → string) (b58decode : val → res string) (sha256 : string → string).
Implicit Types (cs : CSt) (c : S).

(** A role that passes static validation can stand in an action identifier. *)
Lemma valid_role_clean role :
  isValidRole role = true → inner_ok (str_or_empty role) = true ∧ last_ok (str_or_empty role) = true.
Proof.
  unfold isValidRole, ValidRoles. simpl. rewrite !orb_true_iff.
  intros [H|[H|[H|[H|[H|H]]]]]; try done; destruct role; try discriminate H; simpl in H.
  all: try (apply str_eqb_eq in H; subst; done).
  all: done.
Qed.

(** What the loop over the two keys has validated. *)
Lemma validate_existing_keys c cs metrics r nym_data is_owner res :
  action_clean (AuthActionEdit NYM (VStr ROLE) (vget ROLE nym_data) (vget ROLE (operation r)) is_owner) = true →
  res_fold (validate_key str_request c r nym_data is_owner) (is_owner, default_validator cs metrics)
    [ROLE; VERKEY] = Ok res →
  (∀ k newVal, k = ROLE ∨ k = VERKEY → dget k (operation r) = Some newVal →
    ∃ v', validate_action str_request c (default_validator cs metrics) r
      (AuthActionEdit NYM (VStr k) (vget k nym_data) newVal is_owner) = Ok v').
Proof.
  intros Hclean. cbn [res_fold]. unfold validate_key. intros H.
  apply res_bind_Ok in H as ([b1 v1] & H1 & H). apply res_bind_Ok in H as ([b2 v2] & H2 & _).
  unfold vget in Hclean at 2.
  assert (v1 = default_validator cs metrics) as ->.
  { destruct (dget ROLE (operation r)) as [x|]; [|by injection H1].
    apply res_bind_Ok in H1 as (v' & H1 & [= _ <-]). by apply validate_action_default in H1 as [-> _]. }
  intros k newVal [-> | ->] Hk; rewrite Hk in *.
  - apply res_bind_Ok in H1 as (v' & H1 & _). eauto.
  - apply res_bind_Ok in H2 as (v' & H2 & _). eauto.
Qed.
End policy.

(** A state of finite maps that keeps the records of DIDs under a prefix. *)
Definition map_nym_details (m : gmap string val) (nym : string) : res (dict val) :=
  match m !! ("nym:" +:+ nym) with
  | None => Ok []
  | Some (VDict d) => Ok d
  | Some _ => Raise AttributeError
  end.

#[export] Program Instance map_nym_state : NymState val (gmap string val) :=
  {| nym_to_state_key nym := "nym:" +:+ nym; get_nym_details := map_nym_details |}.
Next Obligation. intros s nym d. unfold map_nym_details. simpl. by rewrite lookup_insert_eq. Qed.
Next Obligation.
  intros s nym nym' b Hne. unfold map_nym_details. simpl. rewrite lookup_insert_ne; [done|]. congruence.
Qed.

(** ** Properties *)

(** What a NYM transaction gives a DID, in the state and in the cache: the
    role and the key are the given ones, or else the old ones ([None] for a new
    DID); the adder is the author of the transaction that created the DID; the
    number and the time are those of the transaction. *)
Definition nym_given (txn : Txn) (d data : dict val) : Prop :=
  vget ROLE data = given txn ROLE d ∧ vget VERKEY data = given txn VERKEY d ∧
  vget IDENTIFIER data = (match d with [] => opt_str (get_from txn) | _ => vget IDENTIFIER d end) ∧
  vget SEQ_NO data = opt_int (get_seq_no txn) ∧ vget TXN_TIME data = opt_int (get_txn_time txn).

Lemma update_state_given {bytes St} `{!Serializer bytes, !State bytes St, !NymState bytes St}
    (state state' : St) txn data :
  update_state state txn = Ok (state', data) →
  ∃ nym d, vget TARGET_NYM (get_payload_data txn) = VStr nym ∧ get_nym_details state nym = Ok d ∧
    get_nym_details state' nym = Ok data ∧ data ≠ [] ∧ nym_given txn d data ∧
    ∀ other, other ≠ nym → get_nym_details state' other = get_nym_details state other.
Proof.
  intros (nym & d & b & Hnym & Hd & Hb & -> & ->)%update_state_inv. exists nym, d.
  do 2 (split; [done|]). split; [apply nym_details_set|]. split; [apply dupdate_nonempty|].
  destruct (new_record_stamp txn d b) as [Hs Ht]. split; [|intros other Ho; by apply nym_details_set_ne].
  unfold nym_given. rewrite !new_record_get, new_record_identifier by auto.
  do 2 (split; [done|]). split; [destruct b, d; naive_solver|done].
Qed.

(** C7. The identity cache mirrors the domain state.  If they agree on every
    DID, then after any NYM transaction is applied to both they still do (a key
    is never the single dash the cache uses for no key); the record of the DID it
    names has the role and the key of the transaction, or else the old ones, the
    adder of its first transaction, and the number and time of this one, and the
    cache has the same; and the records of all other DIDs, in the state and in the
    cache, are what they were. *)
Theorem nym_coherent {bytes St S root} `{!Serializer bytes, !State bytes St, !NymState bytes St,
    !OptimisticStore S root} {RL : Rlp} (state state' : St) (c c' : S) txn n :
  coherent state c → get_seq_no txn = Some n →
  given txn VERKEY [] ≠ VStr unsetVerkey →
  (∀ nym d, vget TARGET_NYM (get_payload_data txn) = VStr nym → get_nym_details state nym = Ok d →
    vget VERKEY d ≠ VStr unsetVerkey) →
  apply_nym state c txn = Ok (state', c') →
  coherent state' c' ∧
  ∃ nym d data v, vget TARGET_NYM (get_payload_data txn) = VStr nym ∧
    get_nym_details state nym = Ok d ∧ get_nym_details state' nym = Ok data ∧ nym_given txn d data ∧
    IdrCache.get c' nym false = Ok v ∧ agrees data v ∧
    ∀ other, other ≠ nym → get_nym_details state' other = get_nym_details state other ∧
      IdrCache.get c' other false = IdrCache.get c other false.
Proof.
  intros Hco Hn Hgiven Hold H. pose proof H as H0.
  apply (apply_nym_keeps_coherent state state' c c' txn n) in H0; [|done..]. split; [done|].
  apply res_bind_Ok in H as ((state1 & data) & Hup & H).
  apply res_bind_Ok in H as (c1 & Hc1 & [= -> ->]).
  destruct (update_state_given _ _ _ _ Hup) as (nym & d & Hnym & Hd & Hdata & Hne & Hg & Hrest).
  destruct (H0 nym) as (data' & Hdata' & [[-> _]|(_ & v & Hv & Ha)]); [congruence|].
  rewrite Hdata in Hdata'. injection Hdata' as <-. exists nym, d, data, v. do 6 (split; [done|]).
  intros other Ho. split; [by apply Hrest|]. unfold cache_update_state in Hc1.
  rewrite Hnym in Hc1. cbn [did_of res_bind] in Hc1. bind Hc1 as ta _. bind Hc1 as role _.
  apply res_bind_Ok in Hc1 as (verkey & _ & Hset). rewrite Hn in Hset.
  by rewrite (get_set_ne _ _ _ _ _ _ _ _ _ _ _ (not_eq_sym Ho) Hset).
Qed.

Definition sample_nym_txn : Txn :=
  mkTxn NYM [(TARGET_NYM, VStr "O"); (ROLE, VStr ENDORSER); (VERKEY, VStr "key")] (Some "T")
    (Some 1%Z) None None (Some 4%Z) (Some 50%Z).

Lemma empty_coherent : coherent (∅ : gmap string val) empty_store.
Proof. intros nym. exists []. split; [done|]. left. done. Qed.

Lemma nym_coherent_witness :
  ∃ state' c' data v, apply_nym (∅ : gmap string val) empty_store sample_nym_txn = Ok (state', c') ∧
    coherent state' c' ∧ get_nym_details state' "O" = Ok data ∧ vget ROLE data = VStr ENDORSER ∧
    IdrCache.get c' "O" false = Ok v ∧ agrees data v.
Proof.
  assert (∃ state' c', apply_nym (∅ : gmap string val) empty_store sample_nym_txn = Ok (state', c'))
    as (state' & c' & H) by (eexists _, _; reflexivity).
  destruct (nym_coherent (∅ : gmap string val) state' empty_store c' sample_nym_txn 4
    empty_coherent eq_refl ltac:(discriminate)
    ltac:(intros nym d H1 H2; injection H1 as <-; injection H2 as <-; discriminate) H)
    as (Hco & nym & d & data & v & Hn & Hd & Hdata & Hg & Hv & Ha & _).
  injection Hn as <-. injection Hd as <-. exists state', c', data, v. do 3 (split; [assumption|]).
  split; [exact (proj1 Hg)|]. split; assumption.
Defined.

(** A NYM transaction writes what it gives and keeps the rest: the role and
    the key are the given ones, or else the old ones ([None] for a new DID); the
    adder is the author of the transaction that created the DID and never
    changes; the records of other DIDs stay as they were. *)
Theorem nym_update_functional {bytes St} `{!Serializer bytes, !State bytes St, !NymState bytes St}
    (state state' : St) txn data nym d :
  vget TARGET_NYM (get_payload_data txn) = VStr nym → get_nym_details state nym = Ok d →
  update_state state txn = Ok (state', data) →
  get_nym_details state' nym = Ok data ∧
  vget ROLE data = given txn ROLE d ∧ vget VERKEY data = given txn VERKEY d ∧
  vget IDENTIFIER data = (match d with [] => opt_str (get_from txn) | _ => vget IDENTIFIER d end) ∧
  (∀ other, other ≠ nym → get_nym_details state' other = get_nym_details state other).
Proof.
  intros Hnym Hd H. destruct (update_state_given _ _ _ _ H) as (nym' & d' & Hn & Hd' & ? & _ & Hg & ?).
  rewrite Hnym in Hn. injection Hn as <-. rewrite Hd in Hd'. injection Hd' as <-.
  destruct Hg as (? & ? & ? & _). done.
Qed.

Lemma nym_update_functional_witness :
  ∃ state' data, update_state (∅ : gmap string val) sample_nym_txn = Ok (state', data) ∧
    vget ROLE data = VStr ENDORSER ∧ vget IDENTIFIER data = VStr "T".
Proof.
  assert (∃ state' data, update_state (∅ : gmap string val) sample_nym_txn = Ok (state', data))
    as (state' & data & H) by (eexists _, _; reflexivity).
  exists state', data. split; [exact H|].
  destruct (nym_update_functional (∅ : gmap string val) state' sample_nym_txn data "O" [])
    as (_ & H1 & _ & H2 & _); [reflexivity|reflexivity|exact H|].
  exact (conj H1 H2).
Defined.

Section policy_theorems.
Context {bytes CSt S root : Type} `{!Serializer bytes, !State bytes CSt, !OptimisticStore S root} {RL : Rlp}.
Context (str_request : Request → string).
Context (b58encode : string → string) (b58decode : val → res string) (sha256 : string → string).
Implicit Types (cs : CSt) (c : S).

Abbreviation dynamic_validation := (additional_dynamic_validation str_request b58encode b58decode sha256).

Lemma dynamic_validation_existing c v r nym d v' :
  vget TARGET_NYM (operation r) = VStr nym → getNym c nym None false = Ok (Some d) →
  dynamic_validation c v r = Ok v' →
  ∃ owner res, getOwnerFor c nym false = Ok owner ∧
    res_fold (validate_key (CSt := CSt) str_request c r d (py_eq (opt_str (identifier r)) owner))
      (py_eq (opt_str (identifier r)) owner, v) [ROLE; VERKEY] = Ok res.
Proof.
  intros Hnym Hd. unfold additional_dynamic_validation. intros H.
  bind H as ? _. bind H as dest Hdest.
  assert (dest = VStr nym) as ->.
  { revert Hdest Hnym. unfold dgetitem, vget. destruct (dget TARGET_NYM (operation r)); congruence. }
  cbn [did_of res_bind] in H. rewrite Hd in H. cbn [res_bind] in H. revert H.
  unfold validate_existing_nym. rewrite Hdest. cbn [res_bind did_of]. intros H.
  bind H as owner Howner. destruct (dhas _ _); [done|].
  apply res_bind_Ok in H as (res & H & _). eauto.
Qed.

(** A known DID becomes a trustee, and a new one is made a trustee, with the
    signature of a trustee. *)
Lemma promotion_signed c cs metrics r author nym d v' :
  cache_wf c → identifier r = Some author →
  vget TARGET_NYM (operation r) = VStr nym → dget ROLE (operation r) = Some (VStr TRUSTEE) →
  getNym c nym None false = Ok (Some d) →
  isValidRole (vget ROLE d) = true → vget ROLE d ≠ VStr TRUSTEE →
  dynamic_validation c (default_validator cs metrics) r = Ok v' →
  signed_with_role (λ i, getRole c i false) r author (Some TRUSTEE).
Proof.
  intros Hc Hid Hnym Hrole Hd Hvalid Hold H.
  destruct (dynamic_validation_existing _ _ _ _ _ _ Hnym Hd H) as (owner & res & _ & Hfold).
  set (is_owner := py_eq (opt_str (identifier r)) owner) in *.
  destruct (valid_role_clean _ Hvalid) as [Hclean _].
  destruct (validate_existing_keys str_request c cs metrics r d is_owner res) with (k := ROLE)
    (newVal := VStr TRUSTEE) as [v1 H1]; [|done|by left|done|].
  { unfold vget at 2. rewrite Hrole. unfold AuthActionEdit, action_clean. by rewrite Hclean. }
  apply validate_action_default in H1 as [_ [res1 H1]];
    [|unfold AuthActionEdit, action_clean; by rewrite Hclean].
  pose proof (getRole_cache c Hc).
  eapply (trustee_signature (λ i, getRole c i false) str_request cs metrics r author
    (AuthActionEdit NYM (VStr ROLE) (vget ROLE d) (VStr TRUSTEE) is_owner));
    [done|unfold AuthActionEdit, action_clean; by rewrite Hclean|done|done|done| |exact H1].
  unfold AuthActionEdit. simpl. revert Hvalid Hold. unfold isValidRole, ValidRoles. simpl.
  rewrite !orb_true_iff. destruct (vget ROLE d); try (by intros [|[|[|[|[|]]]]]); simpl.
  intros _ Hne E. by subst.
Qed.

Lemma new_trustee_signed c cs metrics r author nym v' :
  cache_wf c → identifier r = Some author →
  vget TARGET_NYM (operation r) = VStr nym → dget ROLE (operation r) = Some (VStr TRUSTEE) →
  getNym c nym None false = Ok None →
  dynamic_validation c (default_validator cs metrics) r = Ok v' →
  signed_with_role (λ i, getRole c i false) r author (Some TRUSTEE).
Proof.
  intros Hc Hid Hnym Hrole Hd. unfold additional_dynamic_validation. intros H.
  bind H as ? _. bind H as dest Hdest.
  assert (dest = VStr nym) as ->.
  { revert Hdest Hnym. unfold dgetitem, vget. destruct (dget TARGET_NYM (operation r)); congruence. }
  cbn [did_of res_bind] in H. rewrite Hd in H. cbn [res_bind] in H.
  unfold validate_new_nym in H. bind H as ? _. bind H as ? _.
  assert (vget ROLE (operation r) = VStr TRUSTEE) as Hv by (unfold vget; by rewrite Hrole).
  rewrite Hv in H. apply validate_action_default in H as [_ [res1 H1]]; [|reflexivity].
  pose proof (getRole_cache c Hc).
  by eapply (trustee_signature (λ i, getRole c i false) str_request cs metrics r author
    (AuthActionAdd NYM (VStr ROLE) (VStr TRUSTEE) true)).
Qed.

(** C3. End to end, a DID gets the trustee role only from a trustee: if the
    dynamic validation of a NYM request for a known DID that is not a trustee
    passes under the default rules and the request asks for that role, the
    request is signed by a trustee. *)
Theorem nym_promotion_needs_trustee c cs metrics r author nym d v' :
  cache_wf c → identifier r = Some author →
  vget TARGET_NYM (operation r) = VStr nym → dget ROLE (operation r) = Some (VStr TRUSTEE) →
  getNym c nym None false = Ok (Some d) →
  isValidRole (vget ROLE d) = true → vget ROLE d ≠ VStr TRUSTEE →
  dynamic_validation c (default_validator cs metrics) r = Ok v' →
  signed_with_role (λ i, getRole c i false) r author (Some TRUSTEE).
Proof. apply promotion_signed. Qed.

(** C10. End to end, a key is changed by the owner only, whatever else the
    request changes: if a NYM request that gives a key to a known DID, alone or
    with a role, passes the dynamic validation under the default rules, its author
    is the owner of the DID and is on the ledger.  The roles, of the request and
    of the record, are those static validation admits, and the separator of action
    identifiers, two dashes, does not occur in the old and the new key as they
    stand in the identifier. *)
Theorem nym_rotation_needs_owner c cs metrics r author nym d newkey v' :
  cache_wf c → identifier r = Some author →
  vget TARGET_NYM (operation r) = VStr nym → dget VERKEY (operation r) = Some newkey →
  isValidRole (vget ROLE (operation r)) = true →
  getNym c nym None false = Ok (Some d) →
  isValidRole (vget ROLE d) = true →
  inner_ok (str_or_empty (vget VERKEY d)) = true → last_ok (str_or_empty newkey) = true →
  dynamic_validation c (default_validator cs metrics) r = Ok v' →
  getOwnerFor c nym false = Ok (VStr author) ∧ ∃ role, getRole c author false = Ok role.
Proof.
  intros Hc Hid Hnym Hkey Hreq Hd Hvalid Hold Hnew H.
  destruct (dynamic_validation_existing _ _ _ _ _ _ Hnym Hd H) as (owner & res & Howner & Hfold).
  set (is_owner := py_eq (opt_str (identifier r)) owner) in *.
  destruct (valid_role_clean _ Hvalid) as [Hclean _]. destruct (valid_role_clean _ Hreq) as [_ Hlast].
  destruct (validate_existing_keys str_request c cs metrics r d is_owner res) with (k := VERKEY)
    (newVal := newkey) as [v1 H1]; [|done|by right|done|].
  { unfold AuthActionEdit, action_clean. by rewrite Hclean, Hlast. }
  assert (action_clean (AuthActionEdit NYM (VStr VERKEY) (vget VERKEY d) newkey is_owner) = true)
    as Hact by (unfold AuthActionEdit, action_clean; by rewrite Hold, Hnew).
  apply validate_action_default in H1 as [_ [res1 H1]]; [|done].
  pose proof (getRole_cache c Hc).
  destruct (rotation_owner (λ i, getRole c i false) str_request cs metrics r author
    (str_or_empty (vget VERKEY d)) (str_or_empty newkey) is_owner [] res1 Hid Hact H1)
    as [His Hrole].
  split.
  - rewrite Howner. f_equal. unfold is_owner in His. rewrite Hid in His.
    destruct owner; try done. simpl in His. apply str_eqb_eq in His as ->. done.
  - unfold role_of in Hrole. destruct (getRole c author false); [eauto|done].
Qed.

(** Whoever is not on the ledger speaks for itself only: a request for a
    new DID from an unknown author that passes names the author as the new DID
    and gives it a key. *)
Theorem off_ledger_author_is_dest c (v : WriteRequestValidator (St := CSt)) r author nym v' :
  identifier r = Some author → vget TARGET_NYM (operation r) = VStr nym →
  getNym c nym None false = Ok None → getNym c author None false = Ok None →
  dynamic_validation c v r = Ok v' →
  nym = author ∧ py_truth (vget VERKEY (operation r)) = true.
Proof.
  intros Hid Hnym Hnew Hauthor. unfold additional_dynamic_validation. intros H.
  bind H as ? _. bind H as dest Hdest.
  assert (dest = VStr nym) as ->.
  { revert Hdest Hnym. unfold dgetitem, vget. destruct (dget TARGET_NYM (operation r)); congruence. }
  cbn [did_of res_bind] in H. rewrite Hnew in H. cbn [res_bind] in H.
  unfold validate_new_nym in H. apply res_bind_Ok in H as (? & H & _). revert H.
  unfold validate_off_ledger_author. rewrite Hid. cbn [opt_str did_of res_bind].
  rewrite Hauthor. cbn [res_bind]. rewrite Hnym.
  destruct (py_eq (VStr author) (VStr nym)) eqn:E; cbn [negb]; [|done].
  simpl in E. apply str_eqb_eq in E as ->.
  destruct (py_truth (vget VERKEY (operation r))); done.
Qed.
End policy_theorems.

(** A ledger with a trustee and an identity owner, each with a key. *)
Definition or_store (r : res MapStore) : MapStore := match r with Ok c => c | Raise _ => empty_store end.

Definition sample_cache : MapStore :=
  or_store (let! c := IdrCache.set empty_store "T" (Some 1%Z) None None (Some TRUSTEE) (Some "kT") false in
            IdrCache.set c "O" (Some 2%Z) None (Some "T") None (Some "kO") false).

Lemma sample_cache_wf : cache_wf sample_cache.
Proof.
  unfold sample_cache.
  destruct (IdrCache.set empty_store "T" _ _ _ _ _ _) as [c1|] eqn:E1; [|done]. cbn [res_bind].
  assert (cache_wf c1) by (eapply set_wf; [apply empty_store_wf| |exact E1]; discriminate).
  destruct (IdrCache.set c1 "O" _ _ _ _ _ _) as [c2|] eqn:E2; [|done].
  eapply set_wf; [| |exact E2]; [done|discriminate].
Qed.

Definition nym_request (author : string) (op : dict val) : Request :=
  mkRequest (Some author) (Some 1%Z) ((TXN_TYPE, VStr NYM) :: op) (Some "sig") None None.

Lemma nym_promotion_needs_trustee_witness :
  signed_with_role (λ i, getRole sample_cache i false)
    (nym_request "T" [(TARGET_NYM, VStr "O"); (ROLE, VStr TRUSTEE)]) "T" (Some TRUSTEE).
Proof.
  eapply (nym_promotion_needs_trustee (λ _, "") (λ s, s) (λ _, Ok "") (λ s, s) sample_cache
    (∅ : gmap string val) false (nym_request "T" [(TARGET_NYM, VStr "O"); (ROLE, VStr TRUSTEE)]) "T" "O").
  - exact sample_cache_wf.
  - reflexivity.
  - reflexivity.
  - reflexivity.
  - vm_compute. reflexivity.
  - reflexivity.
  - discriminate.
  - vm_compute. reflexivity.
Defined.

Lemma nym_rotation_needs_owner_witness :
  getOwnerFor sample_cache "O" false = Ok (VStr "O") ∧ ∃ role, getRole sample_cache "O" false = Ok role.
Proof.
  eapply (nym_rotation_needs_owner (λ _, "") (λ s, s) (λ _, Ok "") (λ s, s) sample_cache
    (∅ : gmap string val) false
    (nym_request "O" [(TARGET_NYM, VStr "O"); (VERKEY, VStr "k2"); (ROLE, VNone)]) "O" "O").
  - exact sample_cache_wf.
  - reflexivity.
  - reflexivity.
  - reflexivity.
  - reflexivity.
  - vm_compute. reflexivity.
  - reflexivity.
  - reflexivity.
  - reflexivity.
  - vm_compute. reflexivity.
Defined.

(** A validator whose rules let anybody add an identity owner. *)
Definition open_validator : WriteRequestValidator (St := gmap string val) :=
  new_validator LOCAL_AUTH_POLICY
    [(get_action_id add_new_identity_owner,
      AuthConstraint (Some "*") (VInt 1) (VBool false) (VBool true) (VDict []))] ∅ false.

Lemma off_ledger_author_is_dest_witness : "X" = "X" ∧ py_truth (VStr "kX") = true.
Proof.
  eapply (off_ledger_author_is_dest (λ _, "") (λ s, s) (λ _, Ok "") (λ s, s) sample_cache
    open_validator (nym_request "X" [(TARGET_NYM, VStr "X"); (VERKEY, VStr "kX")]) "X" "X").
  - reflexivity.
  - reflexivity.
  - vm_compute. reflexivity.
  - vm_compute. reflexivity.
  - vm_compute. reflexivity.
Defined.

(** A DID document that is JSON but not an object (a list, a number) is not
    refused as an invalid request: the static validation fails with
    [AttributeError]. *)
Theorem diddoc_not_object json_loads r nym doc text :
  vget TXN_TYPE (operation r) = VStr NYM → vget TARGET_NYM (operation r) = VStr nym →
  all_space nym = false → isValidRole (vget ROLE (operation r)) = true →
  vget DIDDOC_CONTENT (operation r) = VStr text → text ≠ "" →
  json_loads (VStr text) = Ok doc → (∀ d, doc ≠ VDict d) →
  static_validation json_loads r = Raise AttributeError.
Proof.
  intros Ht Hn Hs Hr Hd Hne Hj Hdoc. unfold static_validation, validate_request_type.
  rewrite Ht. cbn [py_eq res_bind]. rewrite str_eqb_refl. cbn [res_bind]. rewrite Hn, Hs, Hr.
  cbn [negb]. unfold validate_diddoc. rewrite Hd, (proj2 (py_truth_str text) Hne), Hj. cbn [res_bind].
  by destruct doc; try done; destruct (Hdoc d).
Qed.

Lemma diddoc_not_object_witness :
  static_validation (λ _, Ok (VList []))
    (nym_request "T" [(TARGET_NYM, VStr "O"); (DIDDOC_CONTENT, VStr "[]")]) = Raise AttributeError.
Proof.
  apply (diddoc_not_object (λ _, Ok (VList []))
    (nym_request "T" [(TARGET_NYM, VStr "O"); (DIDDOC_CONTENT, VStr "[]")]) "O" (VList []) "[]");
    [reflexivity..|discriminate|reflexivity|intros d; discriminate].
Defined.
