(* ===== verification/NymHistory.v ===== *)
(** * The history of DIDs

    What the NYM handler guarantees over the life of a ledger: requests are validated
    against the state of their time and applied in order, and the roles of all DIDs go
    back to the genesis transactions.

    One step is a request that passes both validations of [nym_handler.py] under
    the default rules, and the transaction of it, applied by both handlers.  That the
    transaction carries the operation, the author and a number is what
    [docs/source/transactions.md] says of transactions. *)
From S2P Require Import Prelude PyValue Plenum Constants AuthActions AuthConstraints Authorizer AuthorizerSpec AuthStrategy AuthMap StateDomain IdrCache HandlerBase NymHandler.

(** ** Steps *)

(** The transaction of a request. *)
Record txn_of (r : Request) (txn : Txn) : Prop := {
  txn_type : get_type txn = NYM;
  txn_data k : k ≠ TXN_TYPE → dget k (get_payload_data txn) = dget k (operation r);
  txn_author : get_from txn = identifier r;
  txn_number : ∃ n, get_seq_no txn = Some n
}.

(** The DIDs that stand behind a request. *)
Definition stands_behind (r : Request) (i : string) : Prop :=
  if has_signature r then identifier r = Some i else i ∈ signers r.

Section History.
Context {bytes St CSt root S : Type} `{!Serializer bytes, !State bytes St, !State bytes CSt, !NymState bytes St}.
Context `{!OptimisticStore S root} {RL : Rlp} (str_request : Request → string) (json_loads : val → res val).
Context (b58encode : string → string) (b58decode : val → res string) (sha256 : string → string).
Context (cs : CSt) (metrics : bool).
Implicit Types (c : S) (state : St) (r : Request).

Notation dynamic := (additional_dynamic_validation str_request b58encode b58decode sha256).

(** A request is validated against the cache [c] and applied. *)
Inductive nym_step : St * S → Request → St * S → Prop :=
| nym_step_intro state c r author txn v' state' c' :
    identifier r = Some author →
    vget VERKEY (operation r) ≠ VStr unsetVerkey →
    static_validation json_loads r = Ok tt →
    dynamic c (default_validator cs metrics) r = Ok v' →
    txn_of r txn → apply_nym state c txn = Ok (state', c') →
    nym_step (state, c) r (state', c').

(** The requests of a history, the last one first. *)
Inductive history (g : St * S) : list Request → St * S → Prop :=
| history_genesis : history g [] g
| history_step l r s s' : history g l s → nym_step s r s' → history g (r :: l) s'.

Definition is_trustee c (i : string) : Prop := getRole c i false = Ok TRUSTEE.

(** [i] was made a trustee with the signature of somebody who was one before, back
    to the trustees of [c0]. *)
Inductive vouched c0 : list Request → string → Prop :=
| vouched_genesis l i : is_trustee c0 i → vouched c0 l i
| vouched_later r l i : vouched c0 l i → vouched c0 (r :: l) i
| vouched_by r l i j :
    vget TARGET_NYM (operation r) = VStr i → vget ROLE (operation r) = VStr TRUSTEE →
    stands_behind r j → vouched c0 l j → vouched c0 (r :: l) i.

(** What holds of every state of a history. *)
Record sound (s : St * S) : Prop := {
  sound_coherent : coherent s.1 s.2;
  sound_cache : cache_wf s.2;
  sound_roles i v : IdrCache.get s.2 i false = Ok v → isValidRole (str_or_none (iv_role v)) = true
}.

(** ** Lemmas *)

Lemma wf_verkey c i b v : cache_wf c → IdrCache.get c i b = Ok v → iv_verkey v ≠ Some unsetVerkey.
Proof.
  intros Hc H. unfold IdrCache.get in H. bind H as x Hx.
  destruct (Hc i b x Hx) as (n & t & ta & role & vk & Hp & Hvk).
  pose proof (unpack_pack n t ta role vk Hvk) as Hu. rewrite Hp in Hu. cbn [res_bind] in Hu.
  rewrite H in Hu. by injection Hu as ->.
Qed.

(** The old record of the DID, and the value the cache gets. *)
Lemma applied_cache state c r txn state' c' :
  sound (state, c) → txn_of r txn → vget VERKEY (operation r) ≠ VStr unsetVerkey →
  apply_nym state c txn = Ok (state', c') →
  ∃ nym d v, vget TARGET_NYM (operation r) = VStr nym ∧ get_nym_details state nym = Ok d ∧
    IdrCache.get c' nym false = Ok v ∧ coherent state' c' ∧ cache_wf c' ∧
    (∃ o, text_or_none (given txn ROLE d) = Ok o ∧ iv_role v = or_empty o) ∧
    ∀ i, i ≠ nym → IdrCache.get c' i false = IdrCache.get c i false.
Proof.
  intros [Hco Hwf _] Ht Hvk H. cbn [fst snd] in *. destruct (txn_number _ _ Ht) as [n Hn].
  assert (∀ k, k ≠ TXN_TYPE → vget k (get_payload_data txn) = vget k (operation r)) as Hk
    by (intros k ?; unfold vget; by rewrite (txn_data _ _ Ht)).
  assert (∀ nym d, get_nym_details state nym = Ok d → vget VERKEY d ≠ VStr unsetVerkey) as Hold.
  { intros nym d Hd E. destruct (Hco nym) as (d' & Hd' & [[-> _]|(_ & v & Hv & (_ & Hag & _))]);
      rewrite Hd in Hd'; injection Hd' as ->; [done|]. rewrite E in Hag. injection Hag as Hag.
    by apply (wf_verkey c nym false v Hwf Hv). }
  assert (given txn VERKEY [] ≠ VStr unsetVerkey) as Hg.
  { unfold given. rewrite (txn_data _ _ Ht) by done. unfold vget in Hvk. by destruct (dget VERKEY _). }
  pose proof (apply_nym_keeps_coherent state state' c c' txn n Hco Hn Hg (λ nym d _ Hd, Hold nym d Hd) H) as Hco'.
  unfold apply_nym in H. apply res_bind_Ok in H as ((state1 & data) & Hup & H).
  apply res_bind_Ok in H as (c1 & Hc1 & [= <- <-]).
  apply update_state_inv in Hup as (nym & d & b & Hnym & Hd & Hb & Hdata & Hst).
  unfold cache_update_state in Hc1. rewrite Hnym in Hc1. cbn [did_of res_bind] in Hc1.
  bind Hc1 as ta Hta. bind Hc1 as role Hrole. apply res_bind_Ok in Hc1 as (verkey & Hv & Hset).
  assert (verkey ≠ Some unsetVerkey) as Hne.
  { intros ->. rewrite Hdata, new_record_get in Hv by auto.
    assert (given txn VERKEY d = VStr unsetVerkey) as E by (destruct (given txn VERKEY d); simplify_eq/=; done).
    unfold given in E, Hg. destruct (dget VERKEY (get_payload_data txn)); [done|]. by apply (Hold nym d). }
  assert (cache_wf c1) as Hwf1 by (by eapply set_wf; [..|exact Hset]).
  rewrite Hn in Hset. exists nym, d. eexists. split; [by rewrite <- Hk|]. split; [done|].
  split; [by eapply get_set|]. split; [done|]. split; [done|]. split.
  - exists role. split; [|done]. rewrite <- Hrole, Hdata, new_record_get by auto. done.
  - intros i Hi. by eapply get_set_ne; [|exact Hset].
Qed.
Lemma static_role r : static_validation json_loads r = Ok tt → isValidRole (vget ROLE (operation r)) = true.
Proof.
  unfold static_validation. intros H. bind H as ? _.
  match type of H with (if ?b then _ else _) = _ => destruct b; [done|] end.
  by destruct (isValidRole _).
Qed.

Lemma valid_text_role v o :
  isValidRole v = true → text_or_none v = Ok o → isValidRole (str_or_none (or_empty o)) = true.
Proof.
  intros Hv H. destruct v as [| | |s| |]; try done; injection H as <-; [done|]. cbn [or_empty].
  unfold str_or_none. by destruct (str_truth s).
Qed.

(** The role a DID had, from its record. *)
Lemma old_role state c nym d o :
  coherent state c → get_nym_details state nym = Ok d → text_or_none (vget ROLE d) = Ok o →
  (IdrCache.get c nym false = Raise (KeyError nym) ∧ o = None) ∨
  ∃ v, IdrCache.get c nym false = Ok v ∧ iv_role v = or_empty o.
Proof.
  intros Hco Hd Ho. destruct (Hco nym) as (d' & Hd' & Hcase). rewrite Hd in Hd'. injection Hd' as <-.
  destruct Hcase as [[-> Hmiss]|(_ & v & Hv & (o' & Ho' & Hr) & _)]; [left|right].
  - split; [done|]. by injection Ho as <-.
  - exists v. split; [done|]. rewrite Ho in Ho'. by injection Ho' as ->.
Qed.

Lemma sound_step s r s' : sound s → nym_step s r s' → sound s'.
Proof.
  intros Hs H. destruct H as [state c r author txn v' state' c' Hid Hvk Hst Hdyn Ht Hap].
  destruct (applied_cache _ _ _ _ _ _ Hs Ht Hvk Hap)
    as (nym & d & v & Hnym & Hd & Hv & Hco & Hwf & (o & Ho & Hrole) & Hother).
  destruct Hs as [Hco0 Hwf0 Hroles]. cbn [fst snd] in *. split; cbn [fst snd]; [done..|].
  intros i w Hw. destruct (decide (i = nym)) as [->|Hi]; [|rewrite Hother in Hw by done; by eapply Hroles].
  rewrite Hv in Hw. injection Hw as <-. rewrite Hrole. unfold given in Ho.
  rewrite (txn_data _ _ Ht) in Ho by done. pose proof (static_role r Hst) as Hval. unfold vget in Hval.
  destruct (dget ROLE (operation r)) as [x|]; [by eapply valid_text_role|].
  destruct (old_role _ _ _ _ _ Hco0 Hd Ho) as [[_ ->]|(v0 & Hv0 & <-)]; [done|by eapply Hroles].
Qed.

(** A DID that is a trustee after a step was one before, or is named by the step's
    request, which a trustee stands behind. *)
Lemma step_trustee s r s' i :
  sound s → nym_step s r s' → is_trustee s'.2 i →
  is_trustee s.2 i ∨
  (vget TARGET_NYM (operation r) = VStr i ∧ vget ROLE (operation r) = VStr TRUSTEE ∧
   ∃ j, stands_behind r j ∧ is_trustee s.2 j).
Proof.
  intros Hs H. destruct H as [state c r author txn v' state' c' Hid Hvk Hst Hdyn Ht Hap].
  destruct (applied_cache _ _ _ _ _ _ Hs Ht Hvk Hap)
    as (nym & d & v & Hnym & Hd & Hv & Hco & Hwf & (o & Ho & Hrole) & Hother).
  destruct Hs as [Hco0 Hwf0 Hroles]. cbn [fst snd] in *. unfold is_trustee, getRole at 1. intros Htr.
  destruct (decide (i = nym)) as [->|Hi]; [|left; unfold getRole; by rewrite Hother in Htr].
  rewrite Hv in Htr. cbn [res_bind] in Htr. injection Htr as Htr. rewrite Hrole in Htr.
  destruct o as [o|]; [|done]. cbn [or_empty] in Htr. subst o.
  unfold given in Ho. rewrite (txn_data _ _ Ht) in Ho by done.
  destruct (dget ROLE (operation r)) as [x|] eqn:Ex.
  2:{ left. destruct (old_role _ _ _ _ _ Hco0 Hd Ho) as [[_ ?]|(v0 & Hv0 & Hr0)]; [done|].
      unfold getRole. rewrite Hv0. cbn [res_bind]. by rewrite Hr0. }
  assert (x = VStr TRUSTEE) as -> by (by destruct x; simplify_eq/=).
  assert (is_trustee c nym ∨ signed_with_role (λ i, getRole c i false) r author (Some TRUSTEE)) as [?|Hsig].
  { destruct (get_outcome c nym false Hwf0) as [[v0 Hv0]|Hmiss].
    - destruct (decide (iv_role v0 = TRUSTEE)) as [E|E];
        [left; unfold is_trustee, getRole; rewrite Hv0; cbn [res_bind]; by rewrite E|right].
      eapply (promotion_signed str_request b58encode b58decode sha256 c cs metrics r author nym); eauto.
      + unfold getNym. by rewrite Hv0.
      + cbn. by eapply Hroles.
      + cbn. unfold str_or_none. intros E'. destruct (str_truth (iv_role v0)); congruence.
    - right. eapply (new_trustee_signed str_request b58encode b58decode sha256 c cs metrics r author nym); eauto.
      unfold getNym. by rewrite Hmiss. }
  { by left. }
  right. split; [done|]. split; [unfold vget; by rewrite Ex|].
  unfold signed_with_role, has_role, role_of in Hsig. cbn in Hsig. unfold stands_behind, is_trustee.
  destruct (has_signature r); [exists author; split; [done|]|destruct Hsig as (j & Hj & Hsig); exists j; split; [done|]].
  - by destruct (getRole c author false); simplify_eq.
  - by destruct (getRole c j false); simplify_eq.
Qed.
End History.

(** ** Properties *)

(** C4. Trust goes back to the genesis: whatever NYM requests are accepted and
    applied, in whatever order, every trustee of the ledger was one from the start, or
    was made one by a request that somebody stood behind who was himself a trustee
    by then, and so on back to the start; a ledger without trustees stays without. *)
Theorem trustees_vouched {bytes St CSt root S} `{!Serializer bytes, !State bytes St, !State bytes CSt,
    !NymState bytes St, !OptimisticStore S root} {RL : Rlp} str_request json_loads b58encode b58decode sha256
    (cs : CSt) metrics (g s : St * S) l i :
  sound g → history str_request json_loads b58encode b58decode sha256 cs metrics g l s →
  (is_trustee s.2 i → vouched g.2 l i) ∧
  ((∀ j, ¬ is_trustee g.2 j) → ¬ is_trustee s.2 i) ∧ coherent s.1 s.2.
Proof.
  intros Hg Hh. assert (sound s ∧ ∀ i, is_trustee s.2 i → vouched g.2 l i) as [Hs Hall].
  { induction Hh as [|l r s s' _ [IHs IH] Hstep].
    - split; [done|]. intros j Hj. by apply vouched_genesis.
    - split; [by eapply sound_step|]. intros j Hj.
      destruct (step_trustee _ _ _ _ _ _ _ _ _ _ _ IHs Hstep Hj) as [?|(H1 & H2 & k & H3 & H4)].
      + by apply vouched_later, IH.
      + by eapply vouched_by; eauto. }
  split; [apply Hall|]. split; [|apply Hs].
  intros Hnone Hi. apply Hall in Hi. clear -Hi Hnone.
  induction Hi as [l i Hi| |]; [by apply (Hnone i)|done|done].
Qed.

(** A ledger whose genesis has the trustee "T", and a request of "T" for another. *)
Definition genesis_txn : Txn :=
  mkTxn NYM [(TARGET_NYM, VStr "T"); (ROLE, VStr TRUSTEE); (VERKEY, VStr "kT")] (Some "T") None None None (Some 1%Z) None.

Definition genesis : gmap string val * MapStore :=
  match apply_nym (∅ : gmap string val) empty_store genesis_txn with
  | Ok s => s
  | Raise _ => (∅, empty_store)
  end.

Definition new_trustee : Request :=
  nym_request "T" [(TARGET_NYM, VStr "U"); (ROLE, VStr TRUSTEE); (VERKEY, VStr "kU")].

Definition new_trustee_txn : Txn :=
  mkTxn NYM (operation new_trustee) (Some "T") (Some 1%Z) None None (Some 2%Z) (Some 5%Z).

Lemma genesis_sound : sound genesis.
Proof.
  assert (apply_nym (∅ : gmap string val) empty_store genesis_txn = Ok genesis) as H by (vm_compute; reflexivity).
  assert (sound ((∅ : gmap string val), empty_store)) as H0
    by (split; [exact empty_coherent|exact empty_store_wf|done]).
  assert (∃ v, IdrCache.get genesis.2 "T" false = Ok v ∧ isValidRole (str_or_none (iv_role v)) = true)
    as (v & Hv & Hval) by (eexists; split; vm_compute; reflexivity).
  destruct genesis as [state c]. cbn [snd] in Hv.
  destruct (applied_cache _ _ (nym_request "T" (get_payload_data genesis_txn)) genesis_txn state c H0)
    as (nym & d & w & Hnym & _ & Hw & Hco & Hwf & _ & Hother); [|discriminate|exact H|].
  - split; [done| |done|by eexists]. intros k Hk. cbn. by rewrite (proj2 (str_eqb_neq _ _) Hk).
  - injection Hnym as <-. split; [exact Hco|exact Hwf|]. intros i u Hu. cbn [snd] in Hu.
    destruct (decide (i = "T")) as [->|Hi]; [|by rewrite Hother in Hu].
    rewrite Hv in Hu. by injection Hu as <-.
Qed.

Lemma trustees_vouched_witness :
  ∃ s, history (λ _, "") (λ _, Ok VNone) (λ s, s) (λ _, Ok "") (λ s, s) (∅ : gmap string val) false
    genesis [new_trustee] s ∧ vouched genesis.2 [new_trustee] "U".
Proof.
  assert (∃ v' s, additional_dynamic_validation (λ _, "") (λ s, s) (λ _, Ok "") (λ s, s) genesis.2
      (default_validator (∅ : gmap string val) false) new_trustee = Ok v' ∧
    apply_nym genesis.1 genesis.2 new_trustee_txn = Ok s ∧ is_trustee s.2 "U") as (v' & [st c] & H1 & H2 & H3)
    by (eexists _, _; repeat split; vm_compute; reflexivity).
  assert (history (λ _, "") (λ _, Ok VNone) (λ s, s) (λ _, Ok "") (λ s, s) (∅ : gmap string val) false
    genesis [new_trustee] (st, c)) as Hh.
  { eapply history_step; [apply history_genesis|]. destruct genesis as [st0 c0].
    eapply (nym_step_intro _ _ _ _ _ _ _ st0 c0 new_trustee "T" new_trustee_txn v');
      [done|discriminate|vm_compute; reflexivity|exact H1| |exact H2].
    by split; [..|eexists]. }
  exists (st, c). split; [exact Hh|].
  exact (proj1 (trustees_vouched _ _ _ _ _ _ _ genesis (st, c) [new_trustee] "U" genesis_sound Hh) H3).
Defined.
