(* ===== verification/DefinitionHandlers.v ===== *)
(** * Schemas, claim definitions and revocation registry definitions

    [schema_handler.py], [claim_def_handler.py] and [revoc_reg_def_handler.py]
    of [indy_node/server/request_handlers/domain_req_handlers]: dynamic
    validation against the domain state and the ledger, and the state update.
    The handlers have copies of the functions of [domain.py]; the copies use
    plenum's encoding of a state value ([StateCodec]). *)
From S2P Require Import Prelude PyValue Plenum Constants AuthActions AuthConstraints Authorizer AuthorizerSpec AuthStrategy AuthMap StateDomain IdrCache HandlerBase Revocation.

Definition REF : string := "ref".
Definition ISSUANCE_BY_DEFAULT : string := "ISSUANCE_BY_DEFAULT".
Definition ISSUANCE_ON_DEMAND : string := "ISSUANCE_ON_DEMAND".

Definition star_val : val := VStr "*".
Definition add_any (txn_type : string) (is_owner : bool) : AuthAction :=
  AuthActionAdd txn_type star_val star_val is_owner.
Definition edit_any (txn_type : string) (is_owner : bool) : AuthAction :=
  AuthActionEdit txn_type star_val star_val star_val is_owner.

Section Handlers.
Context {bytes St CSt root S : Type} `{!Serializer bytes, !State bytes St, !State bytes CSt}.
Context `{!StateCodec bytes} `{!OptimisticStore S root} {RL : Rlp}.
Context (str_request : Request → string).
(** [self.ledger.get_by_seq_no_uncommitted] *)
Context (get_by_seq_no_uncommitted : val → res Txn).
Notation Validator := (WriteRequestValidator (St := CSt)).
Implicit Types (c : S) (v : Validator) (state : St).

(** The value bytes of a transaction. *)
Definition encode_txn_value (txn : Txn) (value : val) : bytes :=
  encode_state_value value (get_seq_no txn) (get_txn_time txn).

(** The record written, or the path alone. *)
Definition prepared (path : string) (path_only : bool) (value : res bytes) : res (string * option bytes) :=
  if path_only then Ok (path, None) else let! b := value in Ok (path, Some b).

(** [self.state.set(path, value_bytes)] *)
Definition set_prepared state (p : string * option bytes) : St :=
  match p.2 with Some b => st_set state p.1 b | None => state end.

(** ** SCHEMA *)

Definition schema_make_state_path (authors_did schema_name schema_version : val) : string :=
  path_of [authors_did; VStr MARKER_SCHEMA; schema_name; schema_version].

Definition schema_prepare_for_state (txn : Txn) (path_only : bool) : res (string * option bytes) :=
  let origin := opt_str (get_from txn) in
  let! schema_name := get_txn_schema_name txn in
  let! schema_version := get_txn_schema_version txn in
  let! attr_names := get_txn_schema_attr_names txn in
  let value := VDict [(SCHEMA_ATTR_NAMES, attr_names)] in
  let path := schema_make_state_path origin schema_name schema_version in
  prepared path path_only (Ok (encode_txn_value txn value)).

Definition schema_dynamic_validation state c v (request : Request) : res Validator :=
  let! _ := validate_request_type SCHEMA request in
  let! schema_name := get_write_schema_name request in
  let! schema_version := get_write_schema_version request in
  let path := schema_make_state_path (opt_str (identifier request)) schema_name schema_version in
  let! (schema, _, _) := get_from_state_val state path in
  if py_truth schema then validate_action str_request c v request (edit_any SCHEMA true)
  else validate_action str_request c v request (add_any SCHEMA true).

Definition schema_gen_txn_id (txn : Txn) : res string :=
  let! _ := validate_type SCHEMA (get_type txn) in
  let! (path, _) := schema_prepare_for_state txn true in Ok path.

Definition schema_update_state state (txn : Txn) : res St :=
  let! _ := validate_type SCHEMA (get_type txn) in
  let! p := schema_prepare_for_state txn false in
  Ok (set_prepared state p).

(** ** CLAIM_DEF *)

Definition claim_def_make_state_path (authors_did schema_seq_no signature_type tag : val) : string :=
  path_of [authors_did; VStr MARKER_CLAIM_DEF; signature_type; schema_seq_no; tag].

Definition claim_def_prepare_for_state (txn : Txn) (path_only : bool) : res (string * option bytes) :=
  let origin := opt_str (get_from txn) in
  let! schema_seq_no := get_txn_claim_def_schema_ref txn in
  let! _ := not_none CLAIM_DEF_SCHEMA_REF "schema seq no" schema_seq_no in
  let! data := get_txn_claim_def_public_keys txn in
  let! _ := not_none CLAIM_DEF_PUBLIC_KEYS "components of keys" data in
  let signature_type := get_txn_claim_def_signature_type txn in
  let tag := get_txn_claim_def_tag txn in
  let path := claim_def_make_state_path origin schema_seq_no signature_type tag in
  prepared path path_only (Ok (encode_txn_value txn data)).

Definition claim_def_dynamic_validation state c v (request : Request) : res Validator :=
  let! _ := validate_request_type CLAIM_DEF request in
  let! ref := dgetitem REF (operation request) in
  let! txn := match get_by_seq_no_uncommitted ref with
              | Raise (KeyError _) =>
                  Raise (invalid_request request ("Mentioned seqNo (" +:+ py_str ref +:+ ") doesn't exist."))
              | r => r
              end in
  if negb (str_eqb (get_type txn) SCHEMA)
  then Raise (invalid_request request ("Mentioned seqNo (" +:+ py_str ref +:+ ") isn't seqNo of the schema."))
  else
  let signature_type := get_write_claim_def_signature_type request in
  let! schema_ref := get_write_claim_def_schema_ref request in
  let tag := get_write_claim_def_tag request in
  let path := claim_def_make_state_path (opt_str (identifier request)) schema_ref signature_type tag in
  let! (claim_def, _, _) := get_from_state_val state path in
  if py_truth claim_def then validate_action str_request c v request (edit_any CLAIM_DEF true)
  else validate_action str_request c v request (add_any CLAIM_DEF true).

Definition claim_def_gen_txn_id (txn : Txn) : res string :=
  let! _ := validate_type CLAIM_DEF (get_type txn) in
  let! (path, _) := claim_def_prepare_for_state txn true in Ok path.

Definition claim_def_update_state state (txn : Txn) : res St :=
  let! _ := validate_type CLAIM_DEF (get_type txn) in
  let! p := claim_def_prepare_for_state txn false in
  Ok (set_prepared state p).

(** ** REVOC_REG_DEF *)

(** [revocation_strategy_map.get(typ)] *)
Definition get_revocation_strategy (typ : val) : option RevocationStrategy :=
  match typ with
  | VStr s => if str_eqb s ISSUANCE_BY_DEFAULT then Some RevokedStrategy
              else if str_eqb s ISSUANCE_ON_DEMAND then Some IssuedStrategy else None
  | _ => None
  end.

Definition revoc_def_make_state_path (authors_did cred_def_id revoc_def_type revoc_def_tag : val) : string :=
  path_of [authors_did; VStr MARKER_REVOC_DEF; cred_def_id; revoc_def_type; revoc_def_tag].

(** [cred_def_id.split(":")] has four or five parts. *)
Definition revoc_def_static_validation (request : Request) : res unit :=
  match vget CRED_DEF_ID (operation request) with
  | VStr cred_def_id =>
      let n := length (py_split ":" cred_def_id) in
      if negb (Nat.eqb n 4) && negb (Nat.eqb n 5)
      then Raise (invalid_request request "Format of credDefId field is not acceptable. Expected: 'did:marker:signature_type:schema_ref' or 'did:marker:signature_type:schema_ref:tag'")
      else Ok tt
  | _ => Raise AttributeError
  end.

Definition revoc_def_dynamic_validation state c v (request : Request) : res Validator :=
  let! _ := validate_request_type REVOC_REG_DEF request in
  let op := operation request in
  let cred_def_id := vget CRED_DEF_ID op in
  let revoc_def_type := vget REVOC_TYPE op in
  let revoc_def_tag := vget TAG op in
  let! _ := py_assert cred_def_id in
  let! _ := py_assert revoc_def_tag in
  let! _ := py_assert revoc_def_type in
  let revoc_def_id := revoc_def_make_state_path (opt_str (identifier request)) cred_def_id
                        revoc_def_type revoc_def_tag in
  let! (revoc_def, _, _) := get_from_state_val state revoc_def_id in
  let! v' := if is_none revoc_def
             then validate_action str_request c v request (add_any REVOC_REG_DEF true)
             else validate_action str_request c v request (edit_any REVOC_REG_DEF true) in
  let! (cred_def, _, _) := get_from_state_val state (py_str cred_def_id) in
  if is_none cred_def
  then Raise (invalid_request request ("There is no any CRED_DEF by path: " +:+ py_str cred_def_id))
  else Ok v'.

Definition revoc_def_prepare_for_state (txn : Txn) (path_only : bool) : res (string * option bytes) :=
  let author_did := opt_str (get_from txn) in
  let txn_data := get_payload_data txn in
  let cred_def_id := vget CRED_DEF_ID txn_data in
  let revoc_def_type := vget REVOC_TYPE txn_data in
  let revoc_def_tag := vget TAG txn_data in
  let! _ := py_assert author_did in
  let! _ := py_assert cred_def_id in
  let! _ := py_assert revoc_def_type in
  let! _ := py_assert revoc_def_tag in
  let path := revoc_def_make_state_path author_did cred_def_id revoc_def_type revoc_def_tag in
  prepared path path_only
    (let! _ := py_assert (opt_int (get_seq_no txn)) in
     let! _ := py_assert (opt_int (get_txn_time txn)) in
     Ok (encode_txn_value txn (VDict txn_data))).

Definition revoc_def_gen_txn_id (txn : Txn) : res string :=
  let! _ := validate_type REVOC_REG_DEF (get_type txn) in
  let! (path, _) := revoc_def_prepare_for_state txn true in Ok path.

Definition revoc_def_update_state state (txn : Txn) : res St :=
  let! _ := validate_type REVOC_REG_DEF (get_type txn) in
  let! p := revoc_def_prepare_for_state txn false in
  Ok (set_prepared state p).
End Handlers.

(** ** Properties *)

(** A schema is immutable: once a schema transaction is applied, a later
    request of the same author for the same name and version is refused under the
    default rules, whoever signs it. *)
Theorem schema_written_once {bytes St CSt S root} `{!Serializer bytes, !State bytes St, !State bytes CSt,
    !StateCodec bytes, !OptimisticStore S root} {RL : Rlp} str_request
    (state state' : St) (cs : CSt) metrics (c : S) txn r author name ver attrs :
  cache_wf c → identifier r = Some author → get_from txn = Some author →
  dget DATA (get_payload_data txn) =
    Some (VDict [(SCHEMA_NAME, name); (SCHEMA_VERSION, ver); (SCHEMA_ATTR_NAMES, attrs)]) →
  vget TXN_TYPE (operation r) = VStr SCHEMA →
  get_write_schema_name r = Ok name → get_write_schema_version r = Ok ver →
  schema_update_state state txn = Ok state' →
  ∃ reason, schema_dynamic_validation str_request state' c (default_validator cs metrics) r =
    Raise (UnauthorizedClientRequest (Some author) (reqId r) reason).
Proof.
  intros Hc Hid Hfrom Hdata Hty Hn Hv Hup.
  unfold schema_update_state, schema_prepare_for_state, get_txn_schema_name, get_txn_schema_version,
    get_txn_schema_attr_names, dgetitem in Hup. rewrite Hdata, Hfrom in Hup.
  apply res_bind_Ok in Hup as (? & _ & [= <-]).
  unfold schema_dynamic_validation, validate_request_type. rewrite Hty. cbn [py_eq].
  rewrite str_eqb_refl, Hn, Hv, Hid. cbn [res_bind]. unfold set_prepared, encode_txn_value. cbn [snd fst].
  rewrite get_from_state_set. cbn [res_bind py_truth].
  pose proof (getRole_cache c Hc). unfold validate_action, edit_any, star_val.
  rewrite validate_default by done. unfold verdict, unauthorized. rewrite Hid. cbn. by eexists.
Qed.

Definition sample_schema : dict val :=
  [(DATA, VDict [(SCHEMA_NAME, VStr "n"); (SCHEMA_VERSION, VStr "1.0"); (SCHEMA_ATTR_NAMES, VList [VStr "a"])])].

Definition sample_schema_txn : Txn :=
  mkTxn SCHEMA sample_schema (Some "T") None None None (Some 3%Z) (Some 4%Z).

Definition definition_request (ty : string) (op : dict val) : Request :=
  mkRequest (Some "T") (Some 1%Z) ((TXN_TYPE, VStr ty) :: op) (Some "s") None None.

Lemma schema_written_once_witness :
  ∃ state' reason, schema_update_state (∅ : gmap string val) sample_schema_txn = Ok state' ∧
  schema_dynamic_validation (λ _, "") state' empty_store (default_validator (∅ : gmap string val) false)
    (definition_request SCHEMA sample_schema) =
  Raise (UnauthorizedClientRequest (Some "T") (Some 1%Z) reason).
Proof.
  assert (∃ state', schema_update_state (∅ : gmap string val) sample_schema_txn = Ok state')
    as [state' H] by (eexists; reflexivity).
  destruct (schema_written_once (λ _, "") (∅ : gmap string val) state' (∅ : gmap string val) false
    empty_store sample_schema_txn (definition_request SCHEMA sample_schema) "T" (VStr "n") (VStr "1.0")
    (VList [VStr "a"])) as [reason Hr]; [exact empty_store_wf|reflexivity..|exact H|].
  exists state', reason. exact (conj H Hr).
Defined.

Definition sample_trustee_cache : MapStore :=
  match IdrCache.set empty_store "T" (Some 1%Z) None None (Some TRUSTEE) (Some "kT") false with
  | Ok c => c
  | Raise _ => empty_store
  end.

(** A claim definition that passes refers to a schema: the number it names
    is that of a schema transaction of the ledger. *)
Theorem claim_def_refers_to_schema {bytes St CSt S root} `{!Serializer bytes, !State bytes St, !State bytes CSt,
    !StateCodec bytes, !OptimisticStore S root} {RL : Rlp} str_request ledger_get
    (state : St) (c : S) (v v' : WriteRequestValidator (St := CSt)) r :
  claim_def_dynamic_validation str_request ledger_get state c v r = Ok v' →
  ∃ ref txn, dget REF (operation r) = Some ref ∧ ledger_get ref = Ok txn ∧ get_type txn = SCHEMA.
Proof.
  unfold claim_def_dynamic_validation. intros H. bind H as ? _.
  bind H as ref Href. bind H as txn Htxn.
  exists ref, txn. split; [unfold dgetitem in Href; destruct (dget REF _); congruence|].
  split; [by destruct (ledger_get ref) as [|[]]|].
  destruct (str_eqb (get_type txn) SCHEMA) eqn:E; [by apply str_eqb_eq|done].
Qed.

Lemma claim_def_refers_to_schema_witness :
  ∃ ref txn, dget REF [(TXN_TYPE, VStr CLAIM_DEF); (REF, VInt 3)] = Some ref ∧
    (λ _ : val, Ok sample_schema_txn) ref = Ok txn ∧ get_type txn = SCHEMA.
Proof.
  assert (∃ v', claim_def_dynamic_validation (λ _, "") (λ _, Ok sample_schema_txn)
    (∅ : gmap string val) sample_trustee_cache (default_validator (∅ : gmap string val) false)
    (definition_request CLAIM_DEF [(REF, VInt 3)]) = Ok v') as [v' H]
    by (eexists; vm_compute; reflexivity).
  exact (claim_def_refers_to_schema (λ _, "") (λ _, Ok sample_schema_txn) (∅ : gmap string val)
    sample_trustee_cache (default_validator (∅ : gmap string val) false) v'
    (definition_request CLAIM_DEF [(REF, VInt 3)]) H).
Defined.

(** The handlers' copies agree with [domain.py]: for a schema, a claim
    definition and a revocation registry definition, the pair of path and value
    a handler writes is the one [domain.py] computes, errors included. *)
Lemma handler_copies_agree {bytes} `{!Serializer bytes} txn path_only :
  schema_prepare_for_state (bytes := bytes) txn path_only = prepare_schema_for_state txn path_only ∧
  claim_def_prepare_for_state (bytes := bytes) txn path_only = prepare_claim_def_for_state txn path_only ∧
  revoc_def_prepare_for_state (bytes := bytes) txn path_only = prepare_revoc_def_for_state txn path_only.
Proof. split_and!; reflexivity. Qed.
