(* ===== verification/AttribHandler.v ===== *)
(** * Attributes

    [indy_node/server/request_handlers/domain_req_handlers/attribute_handler.py]
    and [utils.py]: an ATTRIB transaction has its data raw, encrypted or hashed.
    The state keeps the hash of the data at a path made of the DID and the
    attribute's name; the data itself goes to the attribute store under that hash;
    the ledger gets the hash in place of the data. *)
From S2P Require Import Prelude PyValue Plenum Constants AuthActions AuthConstraints Authorizer AuthorizerSpec AuthStrategy AuthMap StateDomain IdrCache HandlerBase.

(** [validate_attrib_keys] of [utils.py] *)
Definition validate_attrib_keys (operation : dict val) : bool :=
  Nat.eqb (length (List.filter (λ k, dhas k operation) [RAW; ENC; HASH])) 1.

(** The attribute store: [put] and [get] of a key-value store; a missing key is a
    [KeyError]. *)
Class AttributeStore (A : Type) := {
  as_set : A → string → val → A;
  as_get : A → string → res val;
  as_get_set_eq a k v : as_get (as_set a k v) k = Ok v;
  as_get_set_ne a k k' v : k ≠ k' → as_get (as_set a k v) k' = as_get a k'
}.

(** [len(v)] *)
Definition py_len (v : val) : res nat :=
  match v with
  | VStr s => Ok (String.length s)
  | VList l => Ok (length l)
  | VDict d => Ok (length d)
  | _ => Raise (TypeError "object has no len()")
  end.

Section AttributeHandler.
Context {bytes St CSt A root S : Type} `{!Serializer bytes, !State bytes St, !State bytes CSt}.
Context `{!StateCodec bytes, !AttributeStore A, !OptimisticStore S root} {RL : Rlp}.
Context (str_request : Request → string).
Context (sha256_hex : string → string) (sha256_hex_bytes : bytes → string).
Context (raw_deserialize : val → res val) (raw_serialize : val → string).
Notation Validator := (WriteRequestValidator (St := CSt)).
Implicit Types (c : S) (v : Validator) (state : St) (attrs : A).

Abbreviation attr_path := (make_state_path_for_attr sha256_hex).
Abbreviation parse_attr := (parse_attr_txn raw_deserialize raw_serialize).
Abbreviation hashed := (hashed_value_of sha256_hex sha256_hex_bytes).

Definition attrib_static_validation (request : Request) : res unit :=
  let! _ := validate_request_type ATTRIB request in
  let op := operation request in
  if negb (validate_attrib_keys op)
  then Raise (invalid_request request "100 should have one and only one of raw, enc, hash") else
  match dget RAW op with
  | None => Ok tt
  | Some raw =>
      match raw_deserialize raw with
      | Raise JSONDecodeError =>
          Raise (invalid_request request "Attribute field must be valid JSON object when adding it as a raw field dest")
      | Raise e => Raise e
      | Ok get_key =>
          let! n := py_len get_key in
          match n with
          | O => Raise (invalid_request request "'raw' attribute field must contain non-empty JSON object dest")
          | _ => Ok tt
          end
      end
  end.

(** [_get_attr]: the current value of an attribute, and the number and time of
    its last update. *)
Definition get_attr state attrs (did key : val) (attr_type : string) : res (val * val * val) :=
  if is_none did then Raise AssertionError else
  if is_none key then Raise AssertionError else
  let! path := attr_path did key (str_eqb attr_type HASH) in
  let! (hashed_val, lastSeqNo, lastUpdateTime) := get_from_state_val state path in
  if negb (py_truth hashed_val) then Ok (hashed_val, lastSeqNo, lastUpdateTime)
  else match hashed_val with
       | VStr h => let! value := as_get attrs h in Ok (value, lastSeqNo, lastUpdateTime)
       | _ => Raise (TypeError "key must be text")
       end.

(** The first of [RAW, ENC, HASH] that is given, and its value. *)
Definition attrib_field (op : dict val) : val * val :=
  match List.find (λ k, dhas k op) [RAW; ENC; HASH] with
  | Some k => (VStr k, vget k op)
  | None => (VNone, VNone)
  end.

(** [list(get_key.keys())[0]] *)
Definition first_key (v : val) : res val :=
  match v with
  | VDict ((k, _) :: _) => Ok (VStr k)
  | VDict [] => Raise IndexError
  | _ => Raise AttributeError
  end.

Definition attrib_dynamic_validation state attrs c v (request : Request) : res Validator :=
  let! _ := validate_request_type ATTRIB request in
  let op := operation request in
  let dest := vget TARGET_NYM op in
  let! has := if py_truth dest then let! nym := did_of dest in hasNym c nym false else Ok true in
  if negb has
  then Raise (invalid_request request "dest should be added before adding attribute for it") else
  let! dest := dgetitem TARGET_NYM op in
  let! nym := did_of dest in
  let! owner := getOwnerFor c nym false in
  let is_owner := py_eq owner (opt_str (identifier request)) in
  let '(field, value) := attrib_field op in
  let! get_key := if py_eq field (VStr RAW)
                  then let! d := raw_deserialize value in first_key d else Ok value in
  let attr_type := match field with VStr s => s | _ => "" end in
  let! (old_value, seq_no, _) := get_attr state attrs dest get_key attr_type in
  if negb (is_none seq_no)
  then validate_action str_request c v request (AuthActionEdit ATTRIB field old_value value is_owner)
  else validate_action str_request c v request (AuthActionAdd ATTRIB field value is_owner).

(** [prepare_attr_for_state] of the handler. *)
Definition attrib_prepare_for_state (txn : Txn) : res (AttrForState (bytes := bytes)) :=
  if negb (str_eqb (get_type txn) ATTRIB) then Raise AssertionError else
  let txn_data := get_payload_data txn in
  let! nym := dgetitem TARGET_NYM txn_data in
  let! (attr_type, attr_key, value) := parse_attr txn_data in
  let! path := attr_path nym attr_key (str_eqb attr_type HASH) in
  Ok (mkAttr attr_type path value (hashed value)
        (Some (encode_state_value (hashed value) (get_seq_no txn) (get_txn_time txn)))).

Definition attrib_gen_txn_id (txn : Txn) : res string :=
  let! _ := validate_type ATTRIB (get_type txn) in
  let! a := attrib_prepare_for_state txn in Ok (at_path a).

(** [update_state]: the state and, unless the data is only a hash, the store. *)
Definition attrib_update_state state attrs (txn : Txn) : res (St * A) :=
  let! _ := validate_type ATTRIB (get_type txn) in
  let! a := attrib_prepare_for_state txn in
  let state' := match at_bytes a with Some b => st_set state (at_path a) b | None => state end in
  let attrs' := if negb (str_eqb (at_type a) HASH)
                then match at_hashed a with VStr h => as_set attrs h (at_value a) | _ => attrs end
                else attrs in
  Ok (state', attrs').

(** [transform_txn_for_ledger]: the data replaced by its hash. *)
Definition transform_txn_for_ledger (txn : Txn) : res Txn :=
  let txn_data := get_payload_data txn in
  let! (attr_type, _, value) := parse_attr txn_data in
  if bool_decide (attr_type ∈ [RAW; ENC])
  then Ok (with_payload_data txn (dset attr_type (hashed value) txn_data))
  else Ok txn.

(** ** Lemmas *)

Lemma parse_raw data raw doc k x :
  dget RAW data = Some raw → dget ENC data = None → dget HASH data = None →
  raw_deserialize raw = Ok (VDict (doc ++ [(k, x)])) →
  parse_attr data = Ok (RAW, VStr k, VStr (raw_serialize (VDict (doc ++ [(k, x)])))).
Proof.
  intros H1 H2 H3 Hd. unfold parse_attr_txn, extract_attr_typed_value, ALL_ATR_KEYS.
  cbn [List.filter]. unfold dhas, dgetitem. rewrite H1, H2, H3. rewrite H1. cbn [res_bind].
  rewrite str_eqb_refl, Hd. cbn [res_bind popitem_key]. by rewrite rev_app_distr.
Qed.

Lemma parse_enc data enc :
  dget RAW data = None → dget ENC data = Some enc → dget HASH data = None →
  parse_attr data = Ok (ENC, enc, enc).
Proof.
  intros H1 H2 H3. unfold parse_attr_txn, extract_attr_typed_value, ALL_ATR_KEYS.
  cbn [List.filter]. unfold dhas, dgetitem. rewrite H1, H2, H3. by rewrite H2.
Qed.

(** The dynamic validation of raw data with one attribute: it is an edit of the
    value found under the DID and the attribute's name, or an addition. *)
Lemma dynamic_raw state attrs c v r nym raw k x :
  validate_request_type ATTRIB r = Ok tt → dget TARGET_NYM (operation r) = Some (VStr nym) →
  dget RAW (operation r) = Some raw → raw_deserialize raw = Ok (VDict [(k, x)]) →
  attrib_dynamic_validation state attrs c v r =
    (let! has := if py_truth (VStr nym) then hasNym c nym false else Ok true in
     if negb has then Raise (invalid_request r "dest should be added before adding attribute for it") else
     let! owner := getOwnerFor c nym false in
     let is_owner := py_eq owner (opt_str (identifier r)) in
     let! (old_value, seq_no, _) := get_attr state attrs (VStr nym) (VStr k) RAW in
     validate_action str_request c v r
       (if is_none seq_no then AuthActionAdd ATTRIB (VStr RAW) raw is_owner
        else AuthActionEdit ATTRIB (VStr RAW) old_value raw is_owner)).
Proof.
  intros Hty Hnym Hraw Hdoc. unfold attrib_dynamic_validation, attrib_field, dgetitem, vget.
  rewrite Hty, Hnym. cbn [res_bind did_of List.find]. unfold dhas. rewrite Hraw. cbv zeta. unfold vget. rewrite Hraw.
  change (py_eq (VStr RAW) (VStr RAW)) with true. cbv iota. rewrite Hdoc. cbn [res_bind first_key].
  destruct (if py_truth (VStr nym) then _ else _) as [has|]; [|done]. cbn [res_bind]. destruct (negb has); [done|].
  destruct (getOwnerFor c nym false) as [owner|]; [|done]. cbn [res_bind].
  destruct (get_attr _ _ _ _ _) as [[[old seq] t]|]; [|done]. cbn [res_bind]. by destruct (is_none seq).
Qed.

(** What [get_attr] finds is what the state has at the attribute's path. *)
Lemma get_attr_at state attrs nym k old seq t :
  get_attr state attrs (VStr nym) (VStr k) RAW = Ok (old, seq, t) →
  ∃ h, get_from_state_val state (path_of [VStr nym; VStr MARKER_ATTR; VStr (sha256_hex k)]) = Ok (h, seq, t) ∧
    (py_truth h = false → old = h) ∧ (py_truth h = true → ∃ s, h = VStr s ∧ as_get attrs s = Ok old).
Proof.
  unfold get_attr, make_state_path_for_attr. cbn [is_none]. change (str_eqb RAW HASH) with false. cbn [res_bind].
  intros H. apply res_bind_Ok in H as ([[h seq'] t'] & Hg & H). exists h.
  destruct (py_truth h); cbn [negb] in H; [|injection H as -> -> ->; by split_and!].
  destruct h as [| | |s| |]; try done. bind H as value Hv. injection H as -> -> ->. split; [done|]. split; [done|eauto].
Qed.
End AttributeHandler.

(** A store of finite maps. *)
#[export] Program Instance map_attrs : AttributeStore (gmap string val) := {|
  as_set m k v := <[k := v]> m;
  as_get m k := match m !! k with Some v => Ok v | None => Raise (KeyError k) end
|}.
Next Obligation. intros. simpl. by rewrite lookup_insert_eq. Qed.
Next Obligation. intros. simpl. by rewrite lookup_insert_ne. Qed.

(** The path of a raw attribute. *)
Definition raw_attr_path (sha256_hex : string → string) (nym k : string) : string :=
  path_of [VStr nym; VStr MARKER_ATTR; VStr (sha256_hex k)].

(** What the transaction of a raw attribute writes: the hash of the data in the
    state, the data in the store. *)
Lemma raw_update {bytes St A} `{!Serializer bytes, !State bytes St, !StateCodec bytes,
    !AttributeStore A} sha256_hex sha256_hex_bytes raw_deserialize raw_serialize
    (state : St) (attrs : A) txn nym raw doc k x :
  (∀ d, raw_serialize d ≠ "") →
  get_type txn = ATTRIB → dget TARGET_NYM (get_payload_data txn) = Some (VStr nym) →
  dget RAW (get_payload_data txn) = Some raw →
  dget ENC (get_payload_data txn) = None → dget HASH (get_payload_data txn) = None →
  raw_deserialize raw = Ok (VDict (doc ++ [(k, x)])) →
  let text := raw_serialize (VDict (doc ++ [(k, x)])) in
  attrib_update_state sha256_hex sha256_hex_bytes raw_deserialize raw_serialize state attrs txn =
    Ok (st_set state (raw_attr_path sha256_hex nym k)
          (encode_state_value (VStr (sha256_hex text)) (get_seq_no txn) (get_txn_time txn)),
        as_set attrs (sha256_hex text) (VStr text)).
Proof.
  intros Hser Hty Hnym Hraw Henc Hhash Hdoc text.
  pose proof (parse_raw raw_deserialize raw_serialize _ raw doc k x Hraw Henc Hhash Hdoc) as Hparse.
  fold text in Hparse.
  assert (hashed_value_of sha256_hex sha256_hex_bytes (VStr text) = VStr (sha256_hex text)) as Hh.
  { unfold hashed_value_of. by rewrite (proj2 (py_truth_str text) (Hser _)). }
  unfold attrib_update_state, validate_type, attrib_prepare_for_state.
  rewrite Hty, str_eqb_refl. cbn [res_bind negb]. unfold dgetitem. rewrite Hnym.
  cbn [res_bind]. rewrite Hparse. cbn [res_bind]. rewrite Hh. reflexivity.
Qed.

(** ** Properties *)

(** A raw attribute reads back: after its transaction is applied, looking
    it up by the DID and the attribute's name gives the data, the number and the
    time of the transaction, and the transaction kept in the ledger holds the hash
    of the data in place of the data. *)
Theorem raw_attribute_reads_back {bytes St A} `{!Serializer bytes, !State bytes St, !StateCodec bytes,
    !AttributeStore A} sha256_hex sha256_hex_bytes raw_deserialize raw_serialize
    (state : St) (attrs : A) txn nym raw doc k x :
  (∀ s, sha256_hex s ≠ "") → (∀ d, raw_serialize d ≠ "") →
  get_type txn = ATTRIB → dget TARGET_NYM (get_payload_data txn) = Some (VStr nym) →
  dget RAW (get_payload_data txn) = Some raw →
  dget ENC (get_payload_data txn) = None → dget HASH (get_payload_data txn) = None →
  raw_deserialize raw = Ok (VDict (doc ++ [(k, x)])) →
  let text := raw_serialize (VDict (doc ++ [(k, x)])) in
  ∃ state' attrs' ltxn,
    attrib_update_state sha256_hex sha256_hex_bytes raw_deserialize raw_serialize state attrs txn =
      Ok (state', attrs') ∧
    get_attr sha256_hex state' attrs' (VStr nym) (VStr k) RAW =
      Ok (VStr text, opt_int (get_seq_no txn), opt_int (get_txn_time txn)) ∧
    transform_txn_for_ledger sha256_hex sha256_hex_bytes raw_deserialize raw_serialize txn = Ok ltxn ∧
    dget RAW (get_payload_data ltxn) = Some (VStr (sha256_hex text)).
Proof.
  intros Hsha Hser Hty Hnym Hraw Henc Hhash Hdoc text.
  pose proof (parse_raw raw_deserialize raw_serialize _ raw doc k x Hraw Henc Hhash Hdoc) as Hparse.
  fold text in Hparse.
  assert (hashed_value_of sha256_hex sha256_hex_bytes (VStr text) = VStr (sha256_hex text)) as Hh.
  { unfold hashed_value_of. by rewrite (proj2 (py_truth_str text) (Hser _)). }
  eexists _, _, _. split; [|split; [|split]].
  - by eapply raw_update.
  - unfold get_attr, make_state_path_for_attr. cbn [is_none].
    change (str_eqb RAW HASH) with false. cbn [res_bind negb]. fold (raw_attr_path sha256_hex nym k).
    rewrite get_from_state_set. cbn [res_bind]. rewrite (proj2 (py_truth_str _) (Hsha _)). cbn [negb]. by rewrite as_get_set_eq.
  - unfold transform_txn_for_ledger. rewrite Hparse. cbn [res_bind]. reflexivity.
  - cbn. rewrite Hh. apply dget_dset_eq.
Qed.

Definition sample_attr_data : dict val := [(TARGET_NYM, VStr "O"); (RAW, VStr "json")].
Definition sample_attr_txn : Txn :=
  mkTxn ATTRIB sample_attr_data (Some "O") None None None (Some 3%Z) (Some 4%Z).
Definition two_keys : val := VDict [("endpoint", VStr "here"); ("name", VStr "there")].

Lemma raw_attribute_reads_back_witness :
  ∃ state' attrs' ltxn,
    attrib_update_state (λ s, "h" +:+ s) (λ _, "h") (λ _, Ok two_keys) (λ _, "text")
      (∅ : gmap string val) (∅ : gmap string val) sample_attr_txn = Ok (state', attrs') ∧
    get_attr (λ s, "h" +:+ s) state' attrs' (VStr "O") (VStr "name") RAW =
      Ok (VStr "text", VInt 3, VInt 4) ∧
    transform_txn_for_ledger (λ s, "h" +:+ s) (λ _ : val, "h") (λ _, Ok two_keys) (λ _, "text")
      sample_attr_txn = Ok ltxn ∧
    dget RAW (get_payload_data ltxn) = Some (VStr "htext").
Proof.
  apply (raw_attribute_reads_back (λ s, "h" +:+ s) (λ _, "h") (λ _, Ok two_keys) (λ _, "text")
    (∅ : gmap string val) (∅ : gmap string val) sample_attr_txn "O" (VStr "json")
    [("endpoint", VStr "here")] "name" (VStr "there"));
    [intros; discriminate|intros; discriminate|reflexivity..].
Defined.

(** Validation and update look at different attributes: when the raw data
    has several keys, the lookup that decides between adding and editing uses the
    first key and the update writes at the last, two different paths (unless
    their hashes collide). *)
Theorem raw_attribute_key_mismatch {bytes} `{!Serializer bytes, !StateCodec bytes}
    sha256_hex sha256_hex_bytes raw_deserialize raw_serialize txn nym raw k1 x1 doc k2 x2 p1 p2 a :
  sha256_hex k1 ≠ sha256_hex k2 →
  get_type txn = ATTRIB → dget TARGET_NYM (get_payload_data txn) = Some (VStr nym) →
  dget RAW (get_payload_data txn) = Some raw →
  dget ENC (get_payload_data txn) = None → dget HASH (get_payload_data txn) = None →
  raw_deserialize raw = Ok (VDict ((k1, x1) :: doc ++ [(k2, x2)])) →
  (let! d := raw_deserialize raw in let! key := first_key d in
   make_state_path_for_attr sha256_hex (VStr nym) key false) = Ok p1 →
  attrib_prepare_for_state (bytes := bytes) sha256_hex sha256_hex_bytes raw_deserialize raw_serialize txn
    = Ok a → p2 = at_path a → p1 ≠ p2.
Proof.
  intros Hsha Hty Hnym Hraw Henc Hhash Hdoc Hp1 Ha -> E.
  pose proof (parse_raw raw_deserialize raw_serialize _ raw ((k1, x1) :: doc) k2 x2 Hraw Henc Hhash Hdoc)
    as Hparse.
  rewrite Hdoc in Hp1. injection Hp1 as <-. revert Ha. unfold attrib_prepare_for_state.
  rewrite Hty, str_eqb_refl. cbn [negb]. unfold dgetitem. rewrite Hnym. cbn [res_bind].
  rewrite Hparse. cbn [res_bind]. intros [= <-]. cbn [at_path] in E. apply Hsha.
  unfold path_of in E. cbn [map py_str py_join] in E. do 2 apply str_app_inj_l in E.
  do 2 apply str_app_inj_l in E. exact E.
Qed.

Lemma raw_attribute_key_mismatch_witness :
  (VStr "hendpoint" : val) ≠ VStr "hname" ∧ "O:1:hendpoint" ≠ "O:1:hname".
Proof.
  split; [discriminate|].
  eapply (raw_attribute_key_mismatch (bytes := val) (λ s, "h" +:+ s) (λ _, "h") (λ _, Ok two_keys)
    (λ _, "text") sample_attr_txn "O" (VStr "json") "endpoint" (VStr "here") [] "name" (VStr "there"));
    [discriminate|reflexivity..].
Defined.

(** The path a client asks for is the path that was written: for encrypted
    data, the path computed from a GET_ATTR reply without data, where the key is
    hashed first, is the one the ATTRIB transaction was stored at. *)
Theorem enc_attribute_paths_agree {bytes} `{!Serializer bytes}
    sha256_hex sha256_hex_bytes raw_deserialize raw_serialize txn nym enc reply a :
  get_type txn = ATTRIB → dget TARGET_NYM (get_payload_data txn) = Some (VStr nym) →
  dget ENC (get_payload_data txn) = Some (VStr enc) →
  dget RAW (get_payload_data txn) = None → dget HASH (get_payload_data txn) = None →
  dget TARGET_NYM reply = Some (VStr nym) → dget ENC reply = Some (VStr enc) →
  dget RAW reply = None → dget HASH reply = None → dget DATA reply = None →
  attrib_prepare_for_state (bytes := bytes) sha256_hex sha256_hex_bytes raw_deserialize raw_serialize txn
    = Ok a →
  ∃ b, prepare_get_attr_for_state (bytes := bytes) sha256_hex sha256_hex_bytes raw_deserialize
    raw_serialize reply = Ok b ∧ at_path b = at_path a.
Proof.
  intros Hty Hnym Henc Hraw Hhash Rnym Renc Rraw Rhash Rdata.
  unfold attrib_prepare_for_state. rewrite Hty, str_eqb_refl. cbn [negb]. unfold dgetitem.
  rewrite Hnym. cbn [res_bind]. rewrite (parse_enc _ _ _ (VStr enc)) by done. cbn [res_bind].
  intros [= <-]. unfold prepare_get_attr_for_state, dgetitem, extract_attr_typed_value, ALL_ATR_KEYS, vget.
  rewrite Rnym. cbn [res_bind List.filter]. unfold dhas, dgetitem. rewrite Rraw, Renc, Rhash, Renc.
  cbn [res_bind]. rewrite Rdata. cbn. by eexists.
Qed.

Lemma enc_attribute_paths_agree_witness :
  ∃ b, prepare_get_attr_for_state (bytes := val) (λ s, "h" +:+ s) (λ _, "h") Ok (λ _, "text")
    [(TARGET_NYM, VStr "O"); (ENC, VStr "secret")] = Ok b ∧ at_path b = "O:1:hsecret".
Proof.
  destruct (enc_attribute_paths_agree (bytes := val) (λ s, "h" +:+ s) (λ _, "h") Ok (λ _, "text")
    (mkTxn ATTRIB [(TARGET_NYM, VStr "O"); (ENC, VStr "secret")] None None None None None None)
    "O" "secret" [(TARGET_NYM, VStr "O"); (ENC, VStr "secret")]
    (mkAttr ENC "O:1:hsecret" (VStr "secret") (VStr "hsecret")
      (Some (encode_state_value (VStr "hsecret") None None)))) as (b & H1 & H2);
    [reflexivity..|]. exists b. exact (conj H1 H2).
Defined.
