(* ===== verification/AuthRules.v ===== *)
(** * Changing the authorization rules

    The handlers of AUTH_RULE, AUTH_RULES and GET_AUTH_RULE
    ([indy_node/server/request_handlers/config_req_handlers/auth_rule/] and
    [read_req_handlers/get_auth_rule_handler.py]): a rule names an action by
    its parts and gives the constraint that replaces the default one; it is kept
    in the config state under the key of the action.

    [effective] is the specification: the default map with every stored
    constraint put in place.  Deciding with the config ledger policy is looking
    up in it, an update is a dictionary update of it, and GET_AUTH_RULE prints
    it. *)
From S2P Require Import Prelude PyValue Plenum Constants AuthActions AuthConstraints Authorizer AuthorizerSpec AuthStrategy AuthMap StateDomain IdrCache HandlerBase.

Definition CONSTRAINT : string := "constraint".
Definition OLD_VALUE : string := "old_value".
Definition NEW_VALUE : string := "new_value".
Definition AUTH_ACTION : string := "auth_action".
Definition AUTH_TYPE : string := "auth_type".
Definition FIELD : string := "field".
Definition RULES : string := "rules".

(** ** StaticAuthRuleHelper *)

(** The transaction type is joined into the identifier and must be text. *)
Definition type_text (v : val) : res string :=
  match v with
  | VStr s => Ok s
  | _ => Raise (TypeError "sequence item 0: expected str instance")
  end.

Definition get_auth_key (operation : dict val) : res string :=
  let action := vget AUTH_ACTION operation in
  let old_value := vget OLD_VALUE operation in
  let new_value := vget NEW_VALUE operation in
  let! auth_type := type_text (vget AUTH_TYPE operation) in
  let field := vget FIELD operation in
  Ok (get_action_id
        (if py_eq action (VStr EDIT_PREFIX)
         then AuthActionEdit auth_type field old_value new_value true
         else AuthActionAdd auth_type field new_value true)).

Definition get_rule_constraint (operation : dict val) : res constraint :=
  create_constraint (vget CONSTRAINT operation).

Section StaticAuthRuleHelper.
Context (idr : option string) (req_id : option Z).

Definition check_auth_key (operation : dict val) (auth_map : dict constraint) : res unit :=
  let action := vget AUTH_ACTION operation in
  if negb (dhas OLD_VALUE operation) && py_eq action (VStr EDIT_PREFIX) then
    Raise (InvalidClientRequest idr req_id
      "Transaction for change authentication rule for auth_action=EDIT must contain field old_value")
  else if dhas OLD_VALUE operation && py_eq action (VStr ADD_PREFIX) then
    Raise (InvalidClientRequest idr req_id
      "Transaction for change authentication rule for auth_action=ADD must not contain field old_value")
  else
  let! auth_key := get_auth_key operation in
  if negb (dhas auth_key auth_map) then
    Raise (InvalidClientRequest idr req_id
      ("Unknown authorization rule: key '" +:+ auth_key +:+ "' is not found in authorization map."))
  else Ok tt.

(** [_static_validation_for_rule] *)
Definition static_validation_for_rule (operation : dict val) (auth_map : dict constraint) : res unit :=
  match create_constraint (vget CONSTRAINT operation) with
  | Raise (ValueError m) => Raise (InvalidClientRequest idr req_id m)
  | Raise (KeyError k) => Raise (InvalidClientRequest idr req_id (repr_str k))
  | Raise e => Raise e
  | Ok _ => check_auth_key operation auth_map
  end.
End StaticAuthRuleHelper.

(** A rule of a list must be a dictionary: anything else has no [get]. *)
Definition rule_dict (v : val) : res (dict val) :=
  match v with VDict d => Ok d | _ => Raise AttributeError end.

(** [for x in v] *)
Definition py_iter (v : val) : res (list val) :=
  match v with
  | VList l => Ok l
  | VDict d => Ok (map VStr (dkeys d))
  | VStr s => Ok (map (λ c, VStr (String c "")) (String.list_ascii_of_string s))
  | _ => Raise (TypeError "object is not iterable")
  end.

(** ** The write handlers: validation *)

Definition auth_rule_static_validation (request : Request) (auth_map : dict constraint) : res unit :=
  let! _ := validate_request_type AUTH_RULE request in
  static_validation_for_rule (identifier request) (reqId request) (operation request) auth_map.

Definition auth_rules_static_validation (request : Request) (auth_map : dict constraint) : res unit :=
  let! _ := validate_request_type AUTH_RULES request in
  let! rules := py_iter (vget RULES (operation request)) in
  res_fold (λ _ rule,
    let! d := rule_dict rule in
    static_validation_for_rule (identifier request) (reqId request) d auth_map) tt rules.

Section Dynamic.
Context {bytes CSt root S : Type} `{!Serializer bytes, !State bytes CSt}.
Context `{!OptimisticStore S root} {RL : Rlp} (str_request : Request → string).

Definition auth_rule_dynamic_validation (c : S) (v : WriteRequestValidator (St := CSt))
    (request : Request) : res (WriteRequestValidator (St := CSt)) :=
  let! _ := validate_request_type AUTH_RULE request in
  validate_action str_request c v request (AuthActionEdit AUTH_RULE star star star true).

Definition auth_rules_dynamic_validation (c : S) (v : WriteRequestValidator (St := CSt))
    (request : Request) : res (WriteRequestValidator (St := CSt)) :=
  let! _ := validate_request_type AUTH_RULES request in
  validate_action str_request c v request (AuthActionEdit AUTH_RULES star star star true).
End Dynamic.

(** ** The write handlers: state *)

(** [AuthRuleHandler191._set_off_ledger_to_constraint]: transactions of version
    1.9.1 were stored with the flag always present.  The dictionary is fresh
    from [as_dict], so its update in place is a new value. *)
Definition off_ledger_children (rec : val → res val) : dict val → res (dict val) :=
  fix go (d : dict val) : res (dict val) :=
    match d with
    | [] => Ok []
    | (k, x) :: d' =>
        if str_eqb k AUTH_CONSTRAINTS then
          let! x' := match x with
                     | VList l => let! l' := res_mapM rec l in Ok (VList l')
                     | VStr "" | VDict [] => Ok x
                     | VStr _ | VDict _ => Raise (TypeError "string indices must be integers")
                     | _ => Raise (TypeError "object is not iterable")
                     end in
          Ok ((k, x') :: d')
        else let! rest := go d' in Ok ((k, x) :: rest)
    end.

Fixpoint set_off_ledger_to_constraint (v : val) : res val :=
  match v with
  | VDict d =>
      match dget CONSTRAINT_ID d with
      | None => Raise (KeyError CONSTRAINT_ID)
      | Some id =>
          let missing := py_eq id (VStr ROLE_CONSTRAINT_ID) &&
                         negb (py_truth (dict_get_default OFF_LEDGER_SIGNATURE (VBool false) d)) in
          let! d' := off_ledger_children set_off_ledger_to_constraint d in
          Ok (VDict (if missing then dset OFF_LEDGER_SIGNATURE (VBool false) d' else d'))
      end
  | _ => Raise (TypeError "object is not subscriptable")
  end.

Section Handlers.
Context {bytes St : Type} `{!Serializer bytes, !State bytes St}.

(** [AbstractAuthRuleHandler._update_auth_constraint] and the version of
    [AuthRuleHandler191]. *)
Definition update_auth_constraint (state : St) (auth_key : string) (c : constraint) : res St :=
  Ok (st_set state (make_state_path_for_auth_rule auth_key) (serialize_constraint (Some c))).

Definition update_auth_constraint_191 (state : St) (auth_key : string) (c : constraint) : res St :=
  let! d := set_off_ledger_to_constraint (as_dict c) in
  Ok (st_set state (make_state_path_for_auth_rule auth_key) (ser_serialize d)).

(** One rule: constraint and key are computed, then the state is set. *)
Definition apply_rule (update : St → string → constraint → res St) (state : St) (rule : dict val)
    : res St :=
  let! c := get_rule_constraint rule in
  let! auth_key := get_auth_key rule in
  update state auth_key c.

Definition auth_rule_update_state (state : St) (txn : Txn) : res St :=
  apply_rule update_auth_constraint state (get_payload_data txn).

Definition auth_rule_191_update_state (state : St) (txn : Txn) : res St :=
  apply_rule update_auth_constraint_191 state (get_payload_data txn).

Definition auth_rules_update_state (state : St) (txn : Txn) : res St :=
  let! rules := py_iter (dict_get_default RULES (VList []) (get_payload_data txn)) in
  res_fold (λ s rule, let! d := rule_dict rule in apply_rule update_auth_constraint s d) state rules.

(** ** GetAuthRuleHandler

    [make_result] and the proof of a state value are plenum's. *)
Context (make_result : Request → val → val → dict val) (proof_of : St → string → val).

Definition GetAuthRule_schema : list string :=
  [TXN_TYPE; AUTH_ACTION; AUTH_TYPE; FIELD; OLD_VALUE; NEW_VALUE].

Definition get_auth_rule_static_validation (request : Request) (auth_map : dict constraint) : res unit :=
  let! _ := validate_request_type GET_AUTH_RULE request in
  let op := operation request in
  let required_fields := filter (λ f, f ≠ OLD_VALUE) GetAuthRule_schema in
  if bool_decide (1 < length op) then
    if negb (forallb (λ f, dhas f op) required_fields) then
      Raise (invalid_request request "Not enough fields to build an auth key.")
    else check_auth_key (identifier request) (reqId request) op auth_map
  else Ok tt.

Definition make_auth_rule_data (c : constraint) (a : ActionDef) : val :=
  VDict ([(CONSTRAINT, as_dict c); (AUTH_TYPE, VStr (ad_txn_type a)); (AUTH_ACTION, VStr (ad_prefix a));
          (FIELD, VStr (ad_field a)); (NEW_VALUE, VStr (ad_new_value a))] ++
         if str_eqb (ad_prefix a) EDIT_PREFIX then [(OLD_VALUE, VStr (ad_old_value a))] else []).

(** [_get_auth_rule]: the stored constraint, or the default one. *)
Definition get_auth_rule (state : St) (auth_map : dict constraint) (key : string) : res (val * val) :=
  let path := make_state_path_for_auth_rule key in
  let! stored := get_from_state state path in
  let! c := match stored with Some c => Ok c | None => dgetitem key auth_map end in
  let! action_obj := split_action_id key in
  Ok (VList [make_auth_rule_data c action_obj], proof_of state path).

Definition get_all_auth_rules (state : St) (auth_map : dict constraint) : res val :=
  let! rules := res_mapM (λ '(key, dflt),
    let! stored := get_from_state state (make_state_path_for_auth_rule key) in
    let c := match stored with Some c => c | None => dflt end in
    let! action_obj := split_action_id key in
    Ok (make_auth_rule_data c action_obj)) auth_map in
  Ok (VList rules).

Definition get_auth_rule_result (state : St) (auth_map : dict constraint) (request : Request)
    : res (dict val) :=
  let! _ := validate_request_type GET_AUTH_RULE request in
  let op := operation request in
  let! (data, proof) :=
    if bool_decide (length GetAuthRule_schema - 1 ≤ length op) then
      let! path := get_auth_key op in get_auth_rule state auth_map path
    else let! data := get_all_auth_rules state auth_map in Ok (data, VNone) in
  Ok (dupdate (make_result request data proof) op).

(** ** Specification *)

Definition effective_entry (state : St) (kc : string * constraint) : res (string * constraint) :=
  let! stored := get_from_state state (make_state_path_for_auth_rule kc.1) in
  Ok (kc.1, default kc.2 stored).

(** The default map with the stored constraints in place. *)
Definition effective (m : dict constraint) (state : St) : res (dict constraint) :=
  res_mapM (effective_entry state) m.

(** The key and constraint a rule stands for. *)
Definition rule_entry (rule : dict val) : res (string * constraint) :=
  let! c := get_rule_constraint rule in let! k := get_auth_key rule in Ok (k, c).

(** The printed form of a map. *)
Definition printed (e : dict constraint) : res (list val) :=
  res_mapM (λ '(k, c), let! a := split_action_id k in Ok (make_auth_rule_data c a)) e.
End Handlers.

(** A constraint with the flag of version 1.9.1 filled in. *)
Fixpoint fill_off_ledger (c : constraint) : constraint :=
  match c with
  | AuthConstraintForbidden => AuthConstraintForbidden
  | AuthConstraint r s n o m => AuthConstraint r s n (if py_truth o then o else VBool false) m
  | AuthConstraintAnd cs => AuthConstraintAnd (map fill_off_ledger cs)
  | AuthConstraintOr cs => AuthConstraintOr (map fill_off_ledger cs)
  end.

(** ** Lemmas: rules and the effective map *)

Lemma auth_rule_path_inj k k' :
  make_state_path_for_auth_rule k = make_state_path_for_auth_rule k' → k = k'.
Proof. unfold make_state_path_for_auth_rule. intros H. by do 2 apply str_app_inj_l in H. Qed.

Lemma rule_constraint_wf rule c : get_rule_constraint rule = Ok c → wf_constraint c.
Proof. apply (proj1 (create_wf _)). Qed.

(** A rule that passes static validation has a constraint and a known key. *)
Lemma valid_rule_entry idr req_id rule m :
  static_validation_for_rule idr req_id rule m = Ok tt →
  ∃ k c, rule_entry rule = Ok (k, c) ∧ wf_constraint c ∧ k ∈ dkeys m.
Proof.
  unfold static_validation_for_rule, rule_entry, get_rule_constraint, check_auth_key.
  destruct (create_constraint _) as [c|[]] eqn:Ec; try done. intros H.
  destruct (negb _ && _); [done|]. destruct (dhas OLD_VALUE rule && _); [done|].
  bind H as k Hk. rewrite Hk. exists k, c. split; [done|].
  split; [by eapply rule_constraint_wf|].
  destruct (dhas k m) eqn:E; [|done]. unfold dhas in E.
  destruct (decide (k ∈ dkeys m)) as [|Hn]; [done|].
  apply dget_None_elem in Hn. by rewrite Hn in E.
Qed.

Lemma valid_rules_entries idr req_id rules m :
  res_fold (λ _ rule, let! d := rule_dict rule in static_validation_for_rule idr req_id d m)
    tt rules = Ok tt →
  ∃ ds kcs, rules = map VDict ds ∧ res_mapM rule_entry ds = Ok kcs ∧
    Forall (λ kc, kc.1 ∈ dkeys m ∧ wf_constraint kc.2) kcs.
Proof.
  induction rules as [|r rules IH]; cbn [res_fold]; intros H.
  { by exists [], []. }
  bind H as [] Hr. bind Hr as d Hd.
  destruct r; try done. injection Hd as <-.
  destruct (IH H) as (ds & kcs & -> & Hkcs & Hall).
  destruct (valid_rule_entry _ _ _ _ Hr) as (k & c & Hkc & Hwf & Hk).
  exists (d0 :: ds), ((k, c) :: kcs). split; [done|]. cbn [res_mapM]. split.
  - change (res_bind (rule_entry d0) (λ y, res_bind (res_mapM rule_entry ds) (λ ys, Ok (y :: ys)))
      = Ok ((k, c) :: kcs)). by rewrite Hkc, Hkcs.
  - by constructor.
Qed.

Section effective.
Context {bytes St : Type} `{!Serializer bytes, !State bytes St}.
Implicit Types (state : St) (m e : dict constraint).

Lemma apply_rule_entry (update : St → string → constraint → res St) state rule :
  apply_rule update state rule = let! (k, c) := rule_entry rule in update state k c.
Proof.
  unfold apply_rule, rule_entry. destruct (get_rule_constraint rule); [|done]. cbn [res_bind].
  by destruct (get_auth_key rule).
Qed.

Lemma effective_cons state kc m e :
  effective (kc :: m) state = Ok e ↔
  ∃ kc' e', effective_entry state kc = Ok kc' ∧ effective m state = Ok e' ∧ e = kc' :: e'.
Proof.
  unfold effective. cbn [res_mapM]. rewrite res_bind_Ok. split.
  - intros (kc' & H & H'). apply res_bind_Ok in H' as (e' & H' & [= <-]). eauto 6.
  - intros (kc' & e' & H & H' & ->). exists kc'. split; [done|]. apply res_bind_Ok. eauto.
Qed.

Lemma effective_keys m state e : effective m state = Ok e → dkeys e = dkeys m.
Proof.
  revert e. induction m as [|[k c] m IH]; intros e; [by intros [= <-]|].
  rewrite effective_cons. intros (kc' & e' & H & He & ->). unfold dkeys in *. simpl.
  rewrite (IH _ He). unfold effective_entry in H. apply res_bind_Ok in H as (? & _ & [= <-]). done.
Qed.

Lemma effective_dget m state e k :
  effective m state = Ok e → k ∈ dkeys m →
  ∃ stored, get_from_state state (make_state_path_for_auth_rule k) = Ok stored ∧
    dget k e = (λ c, default c stored) <$> dget k m.
Proof.
  revert e. induction m as [|[k0 c] m IH]; intros e; [by inversion 2|].
  rewrite effective_cons. intros (kc' & e' & H & He & ->) Hk.
  unfold effective_entry in H. apply res_bind_Ok in H as (stored & Hs & [= <-]). cbn [fst snd dget] in *.
  destruct (str_eqb k k0) eqn:E.
  - apply str_eqb_eq in E as ->. exists stored. done.
  - apply str_eqb_neq in E. apply IH; [done|].
    unfold dkeys in Hk. simpl in Hk. by apply elem_of_cons in Hk as [->|].
Qed.

(** Storing a constraint leaves the entries of other keys. *)
Lemma effective_entry_ne state k c kc :
  kc.1 ≠ k →
  effective_entry (st_set state (make_state_path_for_auth_rule k) c) kc = effective_entry state kc.
Proof.
  intros Hne. unfold effective_entry, get_from_state. rewrite st_get_set_ne; [done|].
  by intros ->%auth_rule_path_inj.
Qed.

Lemma effective_ne state k c m :
  k ∉ dkeys m →
  effective m (st_set state (make_state_path_for_auth_rule k) c) = effective m state.
Proof.
  intros Hk. unfold effective. induction m as [|kc m IH]; [done|]. cbn [res_mapM].
  unfold dkeys in Hk. simpl in Hk. apply not_elem_of_cons in Hk as [Hne Hk].
  rewrite effective_entry_ne by done. cbn [res_mapM] in IH. by rewrite IH.
Qed.

(** Storing what reads back as [c'] is a dictionary update of the effective map. *)
Lemma effective_set state m e k b c :
  NoDup (dkeys m) → effective m state = Ok e → k ∈ dkeys m →
  bytes_truth b = true → deserialize_constraint b = Ok c →
  effective m (st_set state (make_state_path_for_auth_rule k) b) = Ok (dset k c e).
Proof.
  intros Hnd He Hk Hb Hc. revert e He. induction m as [|[k0 c0] m IH]; [by inversion Hk|].
  intros e. rewrite effective_cons. intros (kc' & e' & H & He & ->).
  unfold dkeys in Hnd, Hk. simpl in Hnd, Hk. apply NoDup_cons in Hnd as [Hk0 Hnd].
  pose proof H as H'. unfold effective_entry in H. apply res_bind_Ok in H as (stored & Hs & [= <-]).
  cbn [fst snd] in *. apply effective_cons.
  destruct (decide (k = k0)) as [->|Hne].
  - exists (k0, c), e'. unfold effective_entry, get_from_state. cbn [fst snd].
    rewrite st_get_set_eq, Hb, Hc. split; [done|]. rewrite effective_ne by done.
    split; [done|]. cbn [dset]. by rewrite str_eqb_refl.
  - apply elem_of_cons in Hk as [|Hk]; [done|].
    exists (k0, default c0 stored), (dset k c e').
    rewrite effective_entry_ne by (simpl; congruence). split; [done|].
    split; [by apply IH|]. cbn [dset]. by rewrite (proj2 (str_eqb_neq k k0)) by done.
Qed.

Lemma effective_update state m e k c :
  NoDup (dkeys m) → effective m state = Ok e → k ∈ dkeys m → wf_constraint c →
  ∃ state', update_auth_constraint state k c = Ok state' ∧ effective m state' = Ok (dset k c e).
Proof.
  intros. eexists. split; [done|]. apply effective_set; [done..| |].
  - apply ser_nonempty.
  - unfold deserialize_constraint, serialize_constraint, create_constraint.
    autorewrite with indy. by apply create_as_dict.
Qed.

Lemma effective_updates state m e ds kcs :
  NoDup (dkeys m) → effective m state = Ok e → res_mapM rule_entry ds = Ok kcs →
  Forall (λ kc, kc.1 ∈ dkeys m ∧ wf_constraint kc.2) kcs →
  ∃ state', res_fold (λ s rule, let! d := rule_dict rule in apply_rule update_auth_constraint s d)
      state (map VDict ds) = Ok state' ∧ effective m state' = Ok (dupdate e kcs).
Proof.
  intros Hnd. rewrite res_mapM_Forall2. intros He H. revert state e He.
  induction H as [|d [k c] ds kcs Hd _ IH]; intros state e He Hall; [by exists state|].
  apply Forall_cons in Hall as [[Hk Hc] Hall]. cbn [map res_fold rule_dict res_bind].
  rewrite apply_rule_entry, Hd. cbn [res_bind].
  destruct (effective_update state m e k c Hnd He Hk Hc) as (s' & -> & He'). cbn [res_bind].
  by apply IH.
Qed.

(** Deciding with the config ledger policy is looking up in the effective map. *)
Lemma find_key_elem a ks k :
  find_auth_constraint_key a ks = Ok (Some k) → k ∈ ks ∧ k ≠ "".
Proof.
  induction ks as [|k' ks IH]; cbn [find_auth_constraint_key]; [done|].
  unfold is_accepted_action_id at 1. destruct (split_action_id k') as [A|] eqn:EA; [|done].
  cbn [res_bind]. intros E. bind E as b _. destruct b.
  - injection E as <-. split; [by left|]. intros ->. done.
  - destruct (IH E). split; [by right|done].
Qed.

Lemma ledger_effective m state e metrics n a :
  effective m state = Ok e →
  (let! (c, _) := ledger_get_auth_constraint m state metrics n a in Ok c) =
    local_get_auth_constraint e a.
Proof.
  intros He. unfold ledger_get_auth_constraint, local_get_auth_constraint.
  rewrite (effective_keys _ _ _ He).
  destruct (find_auth_constraint_key a (dkeys m)) as [[k|]|] eqn:E; cbn [res_bind]; [|done|done].
  apply find_key_elem in E as [Hk Hne].
  unfold str_truth. rewrite (proj2 (str_eqb_neq k "")) by done. cbn [negb].
  destruct (effective_dget m state e k He Hk) as (stored & -> & ->). cbn [res_bind].
  destruct stored as [c|]; cbn [res_bind default].
  - destruct (dget k m) eqn:Em; [done|]. by apply dget_None_elem in Em.
  - by destruct (dget k m).
Qed.

(** ** Lemmas: reading the rules *)

Lemma get_all_effective m state e :
  effective m state = Ok e →
  get_all_auth_rules state m = let! l := printed e in Ok (VList l).
Proof.
  unfold get_all_auth_rules, printed. intros He. f_equal. revert e He.
  induction m as [|[k c] m IH]; intros e; [by intros [= <-]|].
  rewrite effective_cons. intros (kc' & e' & H & He & ->).
  unfold effective_entry in H. cbn [fst snd] in H. apply res_bind_Ok in H as (stored & Hs & [= <-]).
  cbn [res_mapM]. rewrite Hs. cbn [res_bind].
  specialize (IH e' He). cbn [res_mapM] in IH. rewrite IH. by destruct stored.
Qed.

Lemma get_one_effective m state e k c a proof_of :
  effective m state = Ok e → dget k e = Some c → split_action_id k = Ok a →
  get_auth_rule proof_of state m k =
    Ok (VList [make_auth_rule_data c a], proof_of state (make_state_path_for_auth_rule k)).
Proof.
  intros He Hk Ha.
  assert (k ∈ dkeys m) as Hin.
  { rewrite <- (effective_keys _ _ _ He). destruct (decide (k ∈ dkeys e)) as [|Hn]; [done|].
    apply dget_None_elem in Hn. congruence. }
  destruct (effective_dget _ _ _ _ He Hin) as (stored & Hs & Hd).
  unfold get_auth_rule. rewrite Hs, Ha. cbn [res_bind]. rewrite Hk in Hd.
  destruct (dget k m) eqn:Em; [|done]. cbn in Hd. injection Hd as ->.
  unfold dgetitem. rewrite Em. by destruct stored.
Qed.
End effective.

(** ** Lemmas: the 1.9.1 form *)

(** The second constraint is the first with the off-ledger flag present at every
    level: a flag that is set is kept, one that is absent or false becomes [False],
    and nothing else changes. *)
Inductive flag_filled : constraint → constraint → Prop :=
| filled_forbidden : flag_filled AuthConstraintForbidden AuthConstraintForbidden
| filled_role r s n o m : py_truth o = true →
    flag_filled (AuthConstraint r s n o m) (AuthConstraint r s n o m)
| filled_missing r s n o m : py_truth o = false →
    flag_filled (AuthConstraint r s n o m) (AuthConstraint r s n (VBool false) m)
| filled_and cs cs' : Forall2 flag_filled cs cs' → flag_filled (AuthConstraintAnd cs) (AuthConstraintAnd cs')
| filled_or cs cs' : Forall2 flag_filled cs cs' → flag_filled (AuthConstraintOr cs) (AuthConstraintOr cs').

Lemma fill_filled c : flag_filled c (fill_off_ledger c).
Proof.
  induction c as [|r s n o m|cs IH|cs IH] using constraint_ind'; cbn [fill_off_ledger].
  - constructor.
  - destruct (py_truth o) eqn:E; by constructor.
  - constructor. by induction IH; constructor.
  - constructor. by induction IH; constructor.
Qed.

Lemma off_ledger_children_map (cs : list constraint) :
  Forall (λ c, set_off_ledger_to_constraint (as_dict c) = Ok (as_dict (fill_off_ledger c))) cs →
  res_mapM set_off_ledger_to_constraint (map as_dict cs) = Ok (map as_dict (map fill_off_ledger cs)).
Proof. induction 1 as [|c cs Hc _ IH]; simpl; [done|]. by rewrite Hc, IH. Qed.

Lemma set_off_ledger_fill c :
  set_off_ledger_to_constraint (as_dict c) = Ok (as_dict (fill_off_ledger c)).
Proof.
  induction c as [|r s n o m|cs IH|cs IH] using constraint_ind'; [done| | |].
  - destruct o as [|[]|[]|[]|[]|[]]; done.
  - cbn. rewrite (off_ledger_children_map cs IH). done.
  - cbn. rewrite (off_ledger_children_map cs IH). done.
Qed.

Lemma fill_wf c : wf_constraint c → wf_constraint (fill_off_ledger c).
Proof.
  induction c as [|r s n o m|cs IH|cs IH] using constraint_ind'; [done| | |].
  - simpl. destruct (py_truth o) eqn:E; [by rewrite E|]. by intros [? _].
  - simpl. rewrite !wf_constraint_all, Forall_map. by apply Forall_mp.
  - simpl. rewrite !wf_constraint_all, Forall_map. by apply Forall_mp.
Qed.

Lemma fill_id c : constraint_id (fill_off_ledger c) = constraint_id c.
Proof. by destruct c. Qed.

Lemma fill_truth o : py_truth (if py_truth o then o else VBool false) = py_truth o.
Proof. destruct (py_truth o) eqn:E; [done|]. done. Qed.

Lemma fill_str c : str_constraint (fill_off_ledger c) = str_constraint c.
Proof.
  induction c as [|r s n o m|cs IH|cs IH] using constraint_ind'; [done| | |]; simpl.
  - unfold role_str. by rewrite fill_truth.
  - f_equal. induction IH as [|c cs Hc _ IH]; simpl; [done|]. by rewrite Hc, IH.
  - f_equal. induction IH as [|c cs Hc _ IH]; simpl; [done|]. by rewrite Hc, IH.
Qed.

Section fill.
Context (getRole : string → res string) (auths : dict (list authorizer)) (r : Request)
  (a : AuthAction).

Let same (c : constraint) : Prop :=
  authorize getRole auths r a (fill_off_ledger c) = authorize getRole auths r a c.

Lemma fill_roles role s n o :
  roles_authorize getRole r role s n (if py_truth o then o else VBool false) a =
  roles_authorize getRole r role s n o a.
Proof.
  unfold roles_authorize, is_sig_count_accepted, get_sig_count. by rewrite fill_truth.
Qed.

Lemma fill_and cs :
  Forall same cs →
  and_authorize (authorize getRole auths r a) (map fill_off_ledger cs) =
  and_authorize (authorize getRole auths r a) cs.
Proof. induction 1 as [|c cs Hc _ IH]; simpl; [done|]. by rewrite Hc, IH. Qed.

Lemma fill_or_loop cs :
  Forall same cs →
  or_loop (authorize getRole auths r a) (map fill_off_ledger cs) =
  or_loop (authorize getRole auths r a) cs.
Proof. induction 1 as [|c cs Hc _ IH]; simpl; [done|]. by rewrite Hc, IH, fill_str. Qed.

Lemma fill_or c cs :
  Forall same cs →
  or_authorize (authorize getRole auths r a) (fill_off_ledger c) (map fill_off_ledger cs) =
  or_authorize (authorize getRole auths r a) c cs.
Proof. intros H. unfold or_authorize. by rewrite fill_or_loop, fill_str. Qed.

Lemma run_authorizers_ext run run' l :
  (∀ x, run x = run' x) → run_authorizers run l = run_authorizers run' l.
Proof. intros H. induction l as [|x l IH]; simpl; [done|]. by rewrite H, IH. Qed.

Lemma fill_authorize c : same c.
Proof.
  unfold same. induction c as [|role s n o m|cs IH|cs IH] using constraint_ind'; [done|..];
    cbn [fill_off_ledger authorize constraint_id];
    (destruct (dget _ auths); [|done]); apply run_authorizers_ext; intros [];
    rewrite ?fill_roles, ?fill_and by done; try done.
  - by rewrite <- (fill_str (AuthConstraint role s n o m)).
  - apply (fill_or (AuthConstraintAnd cs) cs IH).
  - by rewrite <- (fill_str (AuthConstraintAnd cs)).
  - apply (fill_or (AuthConstraintOr cs) cs IH).
  - by rewrite <- (fill_str (AuthConstraintOr cs)).
Qed.
End fill.

(** ** Properties *)

Definition rule_op (action auth_type field : string) (old : option string) (new : string)
    (c : constraint) : dict val :=
  [(AUTH_ACTION, VStr action); (AUTH_TYPE, VStr auth_type); (FIELD, VStr field);
   (NEW_VALUE, VStr new); (CONSTRAINT, as_dict c)] ++
  match old with Some o => [(OLD_VALUE, VStr o)] | None => [] end.

Definition config_request (op : dict val) : Request :=
  mkRequest (Some "T1") (Some 1%Z) op (Some "sig") None None.

Definition config_txn (t : string) (op : dict val) : Txn :=
  mkTxn t op (Some "T1") (Some 1%Z) None None (Some 7%Z) (Some 100%Z).

(** C8. An AUTH_RULES transaction that passed static validation is applied
    without error, and its effect is exactly a dictionary update of the rules
    in force, the last rule for a key winning: every action is then decided by
    a lookup in the updated map, and GET_AUTH_RULE lists the updated map. *)
Theorem auth_rules_update_in_force {bytes St} `{!Serializer bytes, !State bytes St}
    (request : Request) (txn : Txn) m (state : St) e :
  NoDup (dkeys m) → effective m state = Ok e →
  auth_rules_static_validation request m = Ok tt →
  get_payload_data txn = operation request →
  ∃ ds kcs state', py_iter (vget RULES (operation request)) = Ok (map VDict ds) ∧
    res_mapM rule_entry ds = Ok kcs ∧
    auth_rules_update_state state txn = Ok state' ∧
    effective m state' = Ok (dupdate e kcs) ∧
    (∀ metrics n a, (let! (c, _) := ledger_get_auth_constraint m state' metrics n a in Ok c) =
                    local_get_auth_constraint (dupdate e kcs) a) ∧
    get_all_auth_rules state' m = (let! l := printed (dupdate e kcs) in Ok (VList l)).
Proof.
  intros Hnd He Hst Htxn. unfold auth_rules_static_validation in Hst.
  apply res_bind_Ok in Hst as (_ & _ & H). bind H as rules Hr.
  destruct (valid_rules_entries _ _ _ _ H) as (ds & kcs & -> & Hkcs & Hall).
  destruct (effective_updates state m e ds kcs Hnd He Hkcs Hall) as (s' & Hs' & He').
  exists ds, kcs, s'. split; [done|]. split; [done|]. split; [|split; [done|split]].
  - unfold auth_rules_update_state. rewrite Htxn.
    unfold dict_get_default, vget in *. destruct (dget RULES (operation request)); [|done].
    rewrite Hr. apply Hs'.
  - intros. by apply ledger_effective.
  - by apply get_all_effective.
Qed.

Lemma auth_rules_update_in_force_witness :
  ∃ s', auth_rules_update_state (∅ : gmap string val) (config_txn AUTH_RULES
      [(TXN_TYPE, VStr AUTH_RULES);
       (RULES, VList [VDict (rule_op "ADD" NYM ROLE None "101" one_trustee_constraint);
                      VDict (rule_op "ADD" NYM ROLE None "101" no_one_constraint)])]) = Ok s' ∧
    (let! (c, _) := ledger_get_auth_constraint auth_map s' false 0 (get_action_id add_new_endorser) in
     Ok c) = Ok (Some no_one_constraint).
Proof.
  set (op := [(TXN_TYPE, VStr AUTH_RULES);
       (RULES, VList [VDict (rule_op "ADD" NYM ROLE None "101" one_trustee_constraint);
                      VDict (rule_op "ADD" NYM ROLE None "101" no_one_constraint)])]).
  assert (effective auth_map (∅ : gmap string val) = Ok auth_map) as He by (vm_compute; reflexivity).
  assert (auth_rules_static_validation (config_request op) auth_map = Ok tt) as Hs
    by (vm_compute; reflexivity).
  destruct (auth_rules_update_in_force (config_request op) (config_txn AUTH_RULES op) auth_map ∅ _
    auth_map_keys_NoDup He Hs eq_refl) as (ds & kcs & s' & Hds & Hkcs & Hs' & _ & Hd & _).
  exists s'. split; [exact Hs'|]. rewrite (Hd false 0 (get_action_id add_new_endorser)).
  vm_compute in Hds. injection Hds as Hds.
  destruct ds as [|d1 [|d2 [|]]]; try discriminate Hds. injection Hds as <- <-.
  vm_compute in Hkcs. injection Hkcs as <-. vm_compute. reflexivity.
Defined.

(** What AUTH_RULE writes GET_AUTH_RULE reads: after a rule that passed
    static validation is applied, a query for its key answers with that rule's
    constraint, and a query for any other key answers as before. *)
Theorem auth_rule_read_back {bytes St} `{!Serializer bytes, !State bytes St} proof_of
    (request : Request) (txn : Txn) m (state : St) e :
  NoDup (dkeys m) → effective m state = Ok e →
  auth_rule_static_validation request m = Ok tt →
  get_payload_data txn = operation request →
  ∃ k c state', get_auth_key (operation request) = Ok k ∧
    get_rule_constraint (operation request) = Ok c ∧
    auth_rule_update_state state txn = Ok state' ∧
    (∀ a, split_action_id k = Ok a →
       get_auth_rule proof_of state' m k =
         Ok (VList [make_auth_rule_data c a], proof_of state' (make_state_path_for_auth_rule k))) ∧
    (∀ k' data proof, k' ≠ k → get_auth_rule proof_of state m k' = Ok (data, proof) →
       get_auth_rule proof_of state' m k' =
         Ok (data, proof_of state' (make_state_path_for_auth_rule k'))).
Proof.
  intros Hnd He Hst Htxn. unfold auth_rule_static_validation in Hst.
  apply res_bind_Ok in Hst as (_ & _ & H).
  destruct (valid_rule_entry _ _ _ _ H) as (k & c & Hkc & Hwf & Hk). pose proof Hkc as Hkc'.
  unfold rule_entry in Hkc'. apply res_bind_Ok in Hkc' as (c' & Hc & Hkc').
  apply res_bind_Ok in Hkc' as (k' & Hk' & [= -> ->]).
  destruct (effective_update state m e k c Hnd He Hk Hwf) as (s' & Hs' & He').
  exists k, c, s'. split; [done|]. split; [done|]. split.
  { unfold auth_rule_update_state. rewrite Htxn, apply_rule_entry, Hkc. apply Hs'. }
  split.
  - intros a Ha. eapply get_one_effective; [done| |done]. apply dget_dset_eq.
  - intros k' data proof Hne. unfold update_auth_constraint in Hs'. injection Hs' as <-.
    unfold get_auth_rule, get_from_state. rewrite st_get_set_ne by (by intros ?%auth_rule_path_inj).
    intros Hg. bind Hg as stored ->. cbn [res_bind].
    bind Hg as c' ->. bind Hg as a ->.
    cbn [res_bind]. by injection Hg as <- _.
Qed.

Lemma auth_rule_read_back_witness :
  ∃ s', auth_rule_update_state (∅ : gmap string val) (config_txn AUTH_RULE
      ((TXN_TYPE, VStr AUTH_RULE) :: rule_op "EDIT" NYM ROLE (Some "0") "2" no_one_constraint)) = Ok s' ∧
    get_auth_rule (λ _ _, VNone) s' auth_map "1--EDIT--role--0--2" =
      Ok (VList [make_auth_rule_data no_one_constraint (mkActionDef "1" "EDIT" "role" "0" "2")], VNone).
Proof.
  set (op := (TXN_TYPE, VStr AUTH_RULE) :: rule_op "EDIT" NYM ROLE (Some "0") "2" no_one_constraint).
  assert (effective auth_map (∅ : gmap string val) = Ok auth_map) as He by (vm_compute; reflexivity).
  assert (auth_rule_static_validation (config_request op) auth_map = Ok tt) as Hs
    by (vm_compute; reflexivity).
  destruct (auth_rule_read_back (λ _ _, VNone) (config_request op) (config_txn AUTH_RULE op) auth_map ∅ _
    auth_map_keys_NoDup He Hs eq_refl) as (k & c & s' & Hk & Hc & Hs' & Hread & _).
  vm_compute in Hk, Hc. injection Hk as <-. injection Hc as <-.
  exists s'. split; [exact Hs'|]. apply Hread. vm_compute. reflexivity.
Defined.

(** C37. An AUTH_RULE transaction replayed from a 1.9.1 ledger, whose constraint the
    code accepts: what the state gets at the path of the rule's key, and nowhere else,
    is the dictionary of that constraint with the off-ledger flag filled in at every
    level (a flag that is set is kept, a missing or false one is written as
    [False]); the constraint read back is that one, and it takes every authorization
    decision, with the same answer and message, that the constraint of the
    transaction takes. *)
Theorem auth_rule_191_same_decisions {bytes St} `{!Serializer bytes, !State bytes St}
    (state : St) txn (k : string) (c : constraint) :
  get_rule_constraint (get_payload_data txn) = Ok c → get_auth_key (get_payload_data txn) = Ok k →
  let path := make_state_path_for_auth_rule k in
  ∃ state' c', auth_rule_191_update_state state txn = Ok state' ∧ flag_filled c c' ∧
    st_get state' path = Some (ser_serialize (as_dict c')) ∧
    (∀ other, other ≠ path → st_get state' other = st_get state other) ∧
    get_from_state state' path = Ok (Some c') ∧
    ∀ getRole auths r a, authorize getRole auths r a c' = authorize getRole auths r a c.
Proof.
  intros Hc Hk path. pose proof (rule_constraint_wf _ _ Hc) as Hwf.
  unfold auth_rule_191_update_state, apply_rule. rewrite Hc. cbn [res_bind]. rewrite Hk. cbn [res_bind].
  unfold update_auth_constraint_191. rewrite set_off_ledger_fill. cbn [res_bind].
  eexists _, (fill_off_ledger c). split; [done|]. split; [apply fill_filled|].
  split; [by rewrite st_get_set_eq|]. split; [intros; by rewrite st_get_set_ne|]. split; [|intros; apply fill_authorize].
  unfold get_from_state, deserialize_constraint, create_constraint. subst path.
  autorewrite with indy. cbn [res_bind].
  by rewrite create_as_dict by (by apply fill_wf).
Qed.

Lemma auth_rule_191_same_decisions_witness :
  let txn := config_txn AUTH_RULE ((TXN_TYPE, VStr AUTH_RULE) ::
    rule_op "EDIT" NYM ROLE (Some "0") "2" steward_or_trustee_constraint) in
  ∃ s' c', auth_rule_191_update_state (∅ : gmap string val) txn = Ok s' ∧ flag_filled steward_or_trustee_constraint c' ∧
    c' ≠ steward_or_trustee_constraint ∧
    get_from_state s' (make_state_path_for_auth_rule "1--EDIT--role--0--2") = Ok (Some c') ∧
    authorize small_ledger default_authorizers (signed_request "T1" ["T1"] None) add_new_endorser c' =
    authorize small_ledger default_authorizers (signed_request "T1" ["T1"] None) add_new_endorser
      steward_or_trustee_constraint.
Proof.
  intros txn.
  assert (get_rule_constraint (get_payload_data txn) = Ok steward_or_trustee_constraint) as Hc
    by (vm_compute; reflexivity).
  assert (get_auth_key (get_payload_data txn) = Ok "1--EDIT--role--0--2") as Hk by (vm_compute; reflexivity).
  destruct (auth_rule_191_same_decisions (∅ : gmap string val) txn _ _ Hc Hk)
    as (s' & c' & H1 & H2 & _ & _ & H3 & H4).
  exists s', c'. split_and!; [exact H1|exact H2| |exact H3|apply H4].
  intros ->. inversion H2 as [| | | |? ? Hall]; subst. inversion Hall as [|? ? ? ? Hr _]; subst. by inversion Hr.
Defined.
