(* ===== verification/FlagHandler.v ===== *)
(** * Configuration flags and reads of past states

    [config_req_handlers/flag_handler.py], [read_req_handlers/get_flag_handler.py]
    and [read_req_handlers/version_read_request_handler.py]: a flag is a named
    value in the config state, which can be read now, as of a time or as of a
    transaction. *)
From S2P Require Import Prelude PyValue Plenum Constants AuthActions AuthConstraints Authorizer AuthorizerSpec AuthStrategy AuthMap StateDomain IdrCache HandlerBase.

Definition FLAG_NAME : string := "name".
Definition FLAG_VALUE : string := "value".
Definition FLAG_NAME_COMPAT_ORDERING : string := "REV_STRATEGY_USE_COMPAT_ORDERING".
Definition GET_FLAG : string := "131".
Definition MARKER_FLAG : string := "2".
Definition VERSION_ID : string := "seqNo".
Definition VERSION_TIME : string := "timestamp".

(** ** FlagRequestHandler *)

Definition is_str (v : val) : bool := match v with VStr _ => true | _ => false end.

Definition flag_static_validation (request : Request) : res unit :=
  let! _ := validate_request_type FLAG request in
  let name := vget FLAG_NAME (operation request) in
  let value := vget FLAG_VALUE (operation request) in
  if negb (py_truth name) then Raise (invalid_request request "Flag name is required")
  else if negb (is_str name) then Raise (invalid_request request "Flag name must be of type string")
  else if negb (is_str value || is_none value)
  then Raise (invalid_request request "Flag value must be of type string or None")
  else Ok tt.

Definition make_state_path_for_flag (key : val) : string :=
  MARKER_FLAG +:+ ":" +:+ py_str key.

Definition get_state_value (state_raw : val) : res val :=
  match state_raw with
  | VNone => Ok VNone
  | v => vget_attr FLAG_VALUE v
  end.

(** What is stored for a flag. *)
Definition flag_record (txn : Txn) : dict val :=
  [(FLAG_VALUE, vget FLAG_VALUE (get_payload_data txn)); (LAST_SEQ_NO, opt_int (get_seq_no txn));
   (LAST_UPDATE_TIME, opt_int (get_txn_time txn))].

Section Flag.
Context {bytes St root S : Type} `{!Serializer bytes, !State bytes St}.
Context `{!OptimisticStore S root} {RL : Rlp} (str_request : Request → string).

Definition flag_dynamic_validation (c : S) (v : WriteRequestValidator (St := St))
    (request : Request) : res (WriteRequestValidator (St := St)) :=
  let! _ := validate_request_type FLAG request in
  validate_action str_request c v request (AuthActionEdit FLAG VNone VNone VNone true).

Definition flag_update_state (state : St) (txn : Txn) : res (St * dict val) :=
  let! _ := validate_type FLAG (get_type txn) in
  let key := vget FLAG_NAME (get_payload_data txn) in
  let val := ser_serialize (VDict (flag_record txn)) in
  Ok (st_set state (make_state_path_for_flag key) val, flag_record txn).
End Flag.

(** ** VersionReadRequestHandler

    The timestamp store gives the root that was in force at a time; the state of
    a root, the proofs and the replies read from a ledger are plenum's. *)
Section Versions.
Context {bytes St hash : Type} `{!Serializer bytes, !State bytes St}.
Context (state : St) (state_at : hash → St) (get_equal_or_prev : val → option hash).
Context (getReplyFromLedger : val → option (option Txn)) (proof_of : St → string → val).

(** [_timestamp_from_seq_no]: no reply, a reply without a result, a result. *)
Definition timestamp_from_seq_no (seq_no : val) : val :=
  match getReplyFromLedger seq_no with
  | Some (Some result) => opt_int (get_txn_time result)
  | _ => VNone
  end.

(** [_get_value_from_state] *)
Definition get_value (s : St) (path : string) (with_proof : bool) : option bytes * val :=
  (st_get s path, if with_proof then proof_of s path else VNone).

Definition lookup_at (path : string) (timestamp : val) (with_proof : bool) : option bytes * val :=
  if py_truth timestamp then
    match get_equal_or_prev timestamp with
    | Some past_root => get_value (state_at past_root) path with_proof
    | None => (None, VNone)
    end
  else get_value state path with_proof.

Definition lookup_version (path : string) (seq_no timestamp : val) (with_proof : bool)
    : res (option bytes * val) :=
  if negb (is_none seq_no) && negb (is_none timestamp)
  then Raise (ValueError "seq_no and timestamp are mutually exclusive")
  else if py_truth seq_no then
    let timestamp := timestamp_from_seq_no seq_no in
    if negb (py_truth timestamp) then Ok (None, VNone)
    else Ok (lookup_at path timestamp with_proof)
  else Ok (lookup_at path timestamp with_proof).

(** ** GetFlagRequestHandler *)

(** A value that is absent or empty is not deserialized. *)
Definition flag_deserialize (input : option bytes * val) : res (val * val) :=
  match input with
  | (Some b, proof) => if bytes_truth b then let! v := ser_deserialize b in Ok (v, proof)
                       else Ok (VStr "", proof)
  | (None, proof) => Ok (VNone, proof)
  end.

Definition lookup_key (flag : val) (seq_no timestamp : val) : res val :=
  let path := make_state_path_for_flag flag in
  let! found := lookup_version path seq_no timestamp false in
  let! (value, _) := flag_deserialize found in Ok value.

(** [make_result(request, data, proof, last_seq_no, update_time)] is plenum's. *)
Context (make_result : Request → val → val → val → val → dict val).

Definition get_flag_result (request : Request) : res (dict val) :=
  let! _ := validate_request_type GET_FLAG request in
  let key := vget FLAG_NAME (operation request) in
  if is_none key then
    Raise (invalid_request request "Flag name must be provided in get request for config flags")
  else
  let path := make_state_path_for_flag key in
  let timestamp := vget VERSION_TIME (operation request) in
  let seq_no := vget VERSION_ID (operation request) in
  if py_truth timestamp && py_truth seq_no then
    Raise (invalid_request request
      (VERSION_ID +:+ " and " +:+ VERSION_TIME +:+ " are mutually exclusive; only one should be specified"))
  else
  let! found := lookup_version path seq_no timestamp true in
  let! (flag_data, proof) := flag_deserialize found in
  let! (last_seq_no, update_time) :=
    if py_truth flag_data then
      let! n := vgetitem LAST_SEQ_NO flag_data in
      let! t := vgetitem LAST_UPDATE_TIME flag_data in Ok (n, t)
    else Ok (VNone, VNone) in
  Ok (make_result request flag_data proof last_seq_no update_time).
End Versions.

(** ** Lemmas *)

Lemma flag_path_inj a b :
  make_state_path_for_flag (VStr a) = make_state_path_for_flag (VStr b) → a = b.
Proof. unfold make_state_path_for_flag. intros H. by do 2 apply str_app_inj_l in H. Qed.

Section flag_lemmas.
Context {bytes St hash : Type} `{!Serializer bytes, !State bytes St}.

(** A flag written in a state is what a lookup at that state finds; the flags
    of other names are as before. *)
Lemma flag_written (s s' : St) txn key r :
  dget FLAG_NAME (get_payload_data txn) = Some (VStr key) →
  flag_update_state s txn = Ok (s', r) →
  st_get s' (make_state_path_for_flag (VStr key)) = Some (ser_serialize (VDict (flag_record txn))) ∧
  ∀ key', key' ≠ key →
    st_get s' (make_state_path_for_flag (VStr key')) = st_get s (make_state_path_for_flag (VStr key')).
Proof.
  intros Hk. unfold flag_update_state, vget. rewrite Hk. intros H.
  apply res_bind_Ok in H as (_ & _ & [= <- <-]). split; [apply st_get_set_eq|].
  intros key' Hne. apply st_get_set_ne. by intros ?%flag_path_inj.
Qed.

Lemma flag_deserialize_written txn (proof : val) :
  flag_deserialize (Some (ser_serialize (VDict (flag_record txn))), proof) =
    Ok (VDict (flag_record txn), proof).
Proof. unfold flag_deserialize. by autorewrite with indy. Qed.
End flag_lemmas.

(** ** Properties *)

(** A flag can be read as of any time: when the state in force at a time is
    the one the flag transaction produced, the answer of GET_FLAG as of that
    time carries the value, number and time of that transaction, whatever was
    written later; the flags of other names are those of the state before. *)
Theorem flag_reads_as_of {bytes St hash} `{!Serializer bytes, !State bytes St}
    (head s s' : St) (state_at : hash → St) get_equal_or_prev reply proof_of make_result
    (txn : Txn) r key ts h (request : Request) :
  dget FLAG_NAME (get_payload_data txn) = Some (VStr key) →
  flag_update_state s txn = Ok (s', r) →
  ts ≠ 0%Z → get_equal_or_prev (VInt ts) = Some h → state_at h = s' →
  operation request = [(TXN_TYPE, VStr GET_FLAG); (FLAG_NAME, VStr key); (VERSION_TIME, VInt ts)] →
  get_flag_result head state_at get_equal_or_prev reply proof_of make_result request =
    Ok (make_result request (VDict (flag_record txn)) (proof_of s' (make_state_path_for_flag (VStr key)))
          (opt_int (get_seq_no txn)) (opt_int (get_txn_time txn))) ∧
  (∀ key', key' ≠ key →
    lookup_key head state_at get_equal_or_prev reply proof_of (VStr key') VNone (VInt ts) =
    (let! (value, _) := flag_deserialize (st_get s (make_state_path_for_flag (VStr key')), VNone) in
     Ok value)).
Proof.
  intros Hk Hup Hts Hprev Hat Hop. destruct (flag_written s s' txn key r Hk Hup) as [Hg Hne].
  assert (py_truth (VInt ts) = true) as Ht by (simpl; apply negb_true_iff; by apply Z.eqb_neq).
  split.
  - unfold get_flag_result, validate_request_type, lookup_version, lookup_at, get_value, vget.
    rewrite Hop. cbn -[py_truth flag_deserialize flag_record make_state_path_for_flag].
    change (py_truth VNone) with false. rewrite Ht. cbn [andb res_bind].
    rewrite Hprev, Hat, Hg, flag_deserialize_written. reflexivity.
  - intros key' Hk'. unfold lookup_key, lookup_version, lookup_at, get_value.
    change (py_truth VNone) with false. cbn [is_none negb andb res_bind].
    by rewrite Ht, Hprev, Hat, (Hne key' Hk').
Qed.

Definition sample_flag_txn (v : string) : Txn :=
  mkTxn FLAG [(FLAG_NAME, VStr FLAG_NAME_COMPAT_ORDERING); (FLAG_VALUE, VStr v)] (Some "T") None None None
    (Some 5%Z) (Some 60%Z).

Definition flag_request (ts : Z) : Request :=
  mkRequest (Some "T") (Some 1%Z)
    [(TXN_TYPE, VStr GET_FLAG); (FLAG_NAME, VStr FLAG_NAME_COMPAT_ORDERING); (VERSION_TIME, VInt ts)]
    None None None.

Lemma flag_reads_as_of_witness :
  ∃ s', flag_update_state (∅ : gmap string val) (sample_flag_txn "False") =
      Ok (s', flag_record (sample_flag_txn "False")) ∧
    get_flag_result ∅ (λ _ : unit, s') (λ _, Some tt) (λ _, None) (λ _ _, VNone)
      (λ _ data _ n t, [("data", data); ("seqNo", n); ("txnTime", t)]) (flag_request 70) =
    Ok [("data", VDict (flag_record (sample_flag_txn "False"))); ("seqNo", VInt 5); ("txnTime", VInt 60)].
Proof.
  assert (∃ s', flag_update_state (∅ : gmap string val) (sample_flag_txn "False") =
    Ok (s', flag_record (sample_flag_txn "False"))) as [s' H] by (eexists; reflexivity).
  exists s'. split; [exact H|].
  apply (flag_reads_as_of (∅ : gmap string val) ∅ s' (λ _ : unit, s') (λ _, Some tt) (λ _, None)
    (λ _ _, VNone) (λ _ data _ n t, [("data", data); ("seqNo", n); ("txnTime", t)])
    (sample_flag_txn "False") (flag_record (sample_flag_txn "False")) FLAG_NAME_COMPAT_ORDERING 70 tt (flag_request 70));
    [reflexivity|exact H|lia|reflexivity..].
Defined.
