(* ===== verification/RevocEntryHandler.v ===== *)
(** * Revocation registry entries

    [domain_req_handlers/revoc_reg_entry_handler.py]: an entry is validated
    against the registry definition, the stored entry, the authorization rules
    and the strategy of the registry, and written by that strategy in the order
    the configuration flag asks for. *)
From Stdlib Require Import Ascii.
From S2P Require Import Prelude PyValue Plenum Constants AuthActions AuthConstraints Authorizer AuthorizerSpec AuthStrategy AuthMap StateDomain IdrCache HandlerBase CompatSet CompatSetSpec Revocation DefinitionHandlers FlagHandler.

Definition ISSUANCE_TYPE : string := "issuanceType".

(** [s.lower()], on the ASCII letters. *)
Definition lower_char (c : ascii) : ascii :=
  let n := nat_of_ascii c in
  if Nat.leb 65 n && Nat.leb n 90 then ascii_of_nat (n + 32) else c.

Fixpoint py_lower (s : string) : string :=
  match s with "" => "" | String c s' => String (lower_char c) (py_lower s') end.

(** [s.split(":", 1)[0]] *)
Definition first_part (s : string) : string :=
  match py_split ":" s with p :: _ => p | [] => "" end.

(** [self.get_revocation_strategy(revoc_def[VALUE][ISSUANCE_TYPE])], called. *)
Definition strategy_of (revoc_def : val) : res RevocationStrategy :=
  let! value := vgetitem VALUE revoc_def in
  let! typ := vgetitem ISSUANCE_TYPE value in
  match get_revocation_strategy typ with
  | Some st => Ok st
  | None => Raise (TypeError "'NoneType' object is not callable")
  end.

Section Handler.
Context {bytes St CSt hash root S : Type} `{!Serializer bytes, !State bytes St, !State bytes CSt}.
Context `{!OptimisticStore S root} {RL : Rlp} (str_request : Request → string).

(** ** Reading the state *)

(** [_get_revoc_def_entry]: the answer to a [KeyError] has four parts, where the
    caller unpacks three. *)
Definition get_revoc_def_entry (state : St) (revoc_reg_def_id : val) : res (val * val * val) :=
  let! _ := py_assert revoc_reg_def_id in
  match get_from_state_val state (make_state_path_for_revoc_reg_entry revoc_reg_def_id) with
  | Raise (KeyError _) => Raise (ValueError "too many values to unpack (expected 3)")
  | r => r
  end.

Definition get_current_revoc_entry_and_revoc_def (state : St) (author_did : option string)
    (revoc_reg_def_id : val) (req_id : option Z) : res (val * val) :=
  let! _ := py_assert revoc_reg_def_id in
  let! (current_entry, _, _) := get_revoc_def_entry state revoc_reg_def_id in
  let! (revoc_def, _, _) := get_from_state_val state (py_str revoc_reg_def_id) in
  if is_none revoc_def then
    Raise (InvalidClientRequest author_did req_id
      ("There is no any REVOC_REG_DEF by path: " +:+ py_str revoc_reg_def_id))
  else Ok (current_entry, revoc_def).

(** ** Validation *)

Definition revoc_entry_static_validation (request : Request) : res unit := Ok tt.

(** [additional_dynamic_validation] *)
Definition revoc_entry_dynamic_validation (state : St) (c : S) (v : WriteRequestValidator (St := CSt))
    (request : Request) : res (WriteRequestValidator (St := CSt)) :=
  let! _ := validate_request_type REVOC_REG_ENTRY request in
  let! rev_reg_tags := dgetitem REVOC_REG_DEF_ID (operation request) in
  let! (current_entry, revoc_def) :=
    get_current_revoc_entry_and_revoc_def state (identifier request) rev_reg_tags (reqId request) in
  let! tags := did_of rev_reg_tags in
  let is_owner := bool_decide (identifier request = Some (first_part tags)) in
  let! v' := if py_truth current_entry
             then validate_action str_request c v request (edit_any REVOC_REG_ENTRY is_owner)
             else validate_action str_request c v request (add_any REVOC_REG_ENTRY is_owner) in
  let! st := strategy_of revoc_def in
  let! _ := validate_entry st current_entry request in
  Ok v'.

(** ** Writing *)

(** The order of the stored indices: the flag in force when the transaction was
    ordered can turn the legacy order off, and nothing else. *)
Section Order.
Context (cstate : CSt) (state_at : hash → CSt) (get_equal_or_prev : val → option hash).
Context (reply : val → option (option Txn)) (proof_of : CSt → string → val).
Context (legacy_sort_config : bool).

Definition use_legacy_sort (txn : Txn) : res bool :=
  let txn_time := opt_int (get_txn_time txn) in
  let! state_raw := lookup_key cstate state_at get_equal_or_prev reply proof_of
                      (VStr FLAG_NAME_COMPAT_ORDERING) VNone txn_time in
  let! sort_state := get_state_value state_raw in
  match sort_state with
  | VStr s => if str_truth s && str_eqb (py_lower s) "false" then Ok false else Ok legacy_sort_config
  | _ => Ok legacy_sort_config
  end.

Definition revoc_entry_update_state (state : St) (txn : Txn) : res St :=
  let! _ := validate_type REVOC_REG_ENTRY (get_type txn) in
  let! rid := dgetitem REVOC_REG_DEF_ID (get_payload_data txn) in
  let! (current_entry, revoc_def) :=
    get_current_revoc_entry_and_revoc_def state (get_from txn) rid (get_req_id txn) in
  let! st := strategy_of revoc_def in
  let! sort_legacy := use_legacy_sort txn in
  write st sort_legacy state current_entry txn.
End Order.

(** The handler's copies of the functions of [domain.py], and [gen_txn_id]. *)
Definition entry_prepare_for_state (txn : Txn) (path_only : bool) : res (string * option bytes) :=
  let txn_data := get_payload_data txn in
  let revoc_reg_def_id := vget REVOC_REG_DEF_ID txn_data in
  let! _ := py_assert (opt_str (get_from txn)) in
  let! _ := py_assert revoc_reg_def_id in
  let path := path_of [VStr MARKER_REVOC_REG_ENTRY; revoc_reg_def_id] in
  prepared path path_only
    (let! _ := py_assert (opt_int (get_seq_no txn)) in
     let! _ := py_assert (opt_int (get_txn_time txn)) in
     Ok (encode_txn_value txn (VDict (dset TXN_TIME (opt_int (get_txn_time txn))
          (dset SEQ_NO (opt_int (get_seq_no txn)) txn_data))))).

Definition entry_accum_prepare_for_state (txn : Txn) : res (string * bytes) :=
  let txn_data := get_payload_data txn in
  let revoc_reg_def_id := vget REVOC_REG_DEF_ID txn_data in
  let! _ := py_assert (opt_str (get_from txn)) in
  let! _ := py_assert revoc_reg_def_id in
  let! _ := py_assert (opt_int (get_seq_no txn)) in
  let! _ := py_assert (opt_int (get_txn_time txn)) in
  let path := path_of [VStr MARKER_REVOC_REG_ENTRY_ACCUM; revoc_reg_def_id] in
  Ok (path, encode_txn_value txn (VDict (dset TXN_TIME (opt_int (get_txn_time txn))
        (dset SEQ_NO (opt_int (get_seq_no txn)) txn_data)))).

Definition revoc_entry_gen_txn_id (txn : Txn) : res string :=
  let! _ := validate_type REVOC_REG_ENTRY (get_type txn) in
  let! (path, _) := entry_prepare_for_state txn true in Ok path.
End Handler.

(** ** Lemmas *)

(** The copies are the functions of [domain.py]. *)
Lemma entry_copies_agree {bytes} `{!Serializer bytes} txn path_only :
  entry_prepare_for_state (bytes := bytes) txn path_only = prepare_revoc_reg_entry_for_state txn path_only ∧
  entry_accum_prepare_for_state (bytes := bytes) txn = prepare_revoc_reg_entry_accum_for_state txn.
Proof.
  split; [reflexivity|].
  unfold entry_accum_prepare_for_state, prepare_revoc_reg_entry_accum_for_state, stamped_value.
  repeat (destruct (py_assert _); [|done]; cbn [res_bind]). done.
Qed.

(** A constraint whose every alternative asks for the owner. *)
Fixpoint owner_required (c : constraint) : bool :=
  match c with
  | AuthConstraintForbidden => true
  | AuthConstraint _ _ n _ _ => py_truth n
  | AuthConstraintAnd cs => existsb owner_required cs
  | AuthConstraintOr cs => forallb owner_required cs
  end.

Lemma owner_required_satisfied getRole `{!RoleCache getRole} r author a c :
  owner_required c = true → satisfies getRole r author a c → action_is_owner a = true.
Proof.
  induction c as [|role s n o m|cs IH|cs IH] using constraint_ind'; [done|..]; simpl.
  - intros Hn (z & _ & (Ho & _) & _). auto.
  - induction IH as [|c cs Hc _ IH]; simpl; [done|]. rewrite orb_true_iff. intros [H|H] [??]; auto.
  - induction IH as [|c cs Hc _ IH]; simpl; [done|]. rewrite andb_true_iff. intros [??] [?|?]; auto.
Qed.

Section lemmas.
Context {bytes St CSt hash root S : Type} `{!Serializer bytes, !State bytes St, !State bytes CSt}.
Context `{!OptimisticStore S root} {RL : Rlp} (str_request : Request → string).
Implicit Types (state : St) (c : S) (cs : CSt).

(** What the handler finds of a registry. *)
Lemma current_entry_found state rid author req_id cur def :
  get_current_revoc_entry_and_revoc_def state author (VStr rid) req_id = Ok (cur, def) →
  ∃ n t n' t', get_from_state_val state (entry_path rid) = Ok (cur, n, t) ∧
    get_from_state_val state rid = Ok (def, n', t') ∧ def ≠ VNone.
Proof.
  unfold get_current_revoc_entry_and_revoc_def, get_revoc_def_entry. intros H.
  bind H as [] Ha. rewrite Ha in H. cbn [res_bind] in H.
  apply res_bind_Ok in H as (((cur' & n) & t) & Hc & H).
  apply res_bind_Ok in H as (((def' & n') & t') & Hd & H).
  exists n, t, n', t'. unfold entry_path.
  destruct (get_from_state_val state (make_state_path_for_revoc_reg_entry (VStr rid))) as [p|[]];
    try done; injection Hc as ->; destruct def'; try done; by injection H as <- <-.
Qed.

Lemma current_entry_author state rid a1 a2 q1 q2 p :
  get_current_revoc_entry_and_revoc_def state a1 rid q1 = Ok p →
  get_current_revoc_entry_and_revoc_def state a2 rid q2 = Ok p.
Proof.
  unfold get_current_revoc_entry_and_revoc_def. intros H.
  bind H as [] ->. cbn [res_bind].
  apply res_bind_Ok in H as (((cur' & n) & t) & -> & H). cbn [res_bind].
  apply res_bind_Ok in H as (((def' & n') & t') & -> & H). cbn [res_bind].
  by destruct (is_none def').
Qed.

(** The parts of an accepted request. *)
Lemma entry_accepted state c v v' r :
  revoc_entry_dynamic_validation (CSt := CSt) str_request state c v r = Ok v' →
  ∃ rid cur def st a, dget REVOC_REG_DEF_ID (operation r) = Some (VStr rid) ∧
    get_current_revoc_entry_and_revoc_def state (identifier r) (VStr rid) (reqId r) = Ok (cur, def) ∧
    validate_action str_request c v r a = Ok v' ∧
    (a = edit_any REVOC_REG_ENTRY (bool_decide (identifier r = Some (first_part rid))) ∨
     a = add_any REVOC_REG_ENTRY (bool_decide (identifier r = Some (first_part rid)))) ∧
    strategy_of def = Ok st ∧ validate_entry st cur r = Ok tt.
Proof.
  unfold revoc_entry_dynamic_validation. intros H. bind H as _ _.
  bind H as tags Htags. apply res_bind_Ok in H as ((cur & def) & Hcur & H).
  bind H as rid Hrid. destruct tags as [| | |rid'| |]; try done.
  injection Hrid as ->. bind H as v1 Hv.
  bind H as st Hst. apply res_bind_Ok in H as ([] & Hval & [= <-]).
  unfold dgetitem in Htags. destruct (dget REVOC_REG_DEF_ID (operation r)); [|done].
  injection Htags as ->.
  destruct (py_truth cur); eexists rid, cur, def, st, _; split_and!; try done; auto.
Qed.

(** Under the default rules only the owner of a registry passes. *)
Lemma entry_owner state c cs metrics r author v' :
  cache_wf c → identifier r = Some author →
  revoc_entry_dynamic_validation str_request state c (default_validator cs metrics) r = Ok v' →
  ∃ rid, dget REVOC_REG_DEF_ID (operation r) = Some (VStr rid) ∧ author = first_part rid.
Proof.
  intros Hwf Hid H. destruct (entry_accepted _ _ _ _ _ H)
    as (rid & cur & def & st & a & Hrid & _ & Ha & Hor & _ & _).
  exists rid. split; [done|].
  assert (action_clean a = true ∧ ad_txn_type (action_def a) = REVOC_REG_ENTRY) as [Hcl Hty]
    by (destruct Hor as [-> | ->]; split; reflexivity).
  destruct (validate_action_default str_request c cs metrics r a v' Hcl Ha) as [_ [res Hres]].
  pose proof (getRole_cache c Hwf) as HRC.
  destruct (validate_default_passes (λ i, getRole c i false) str_request (λ am k,
    negb (str_eqb (ad_txn_type am) REVOC_REG_ENTRY) || owner_required k) cs metrics r author a [] res
    ltac:(vm_compute; reflexivity) Hid Hcl Hres) as (am & k & Hm & HP & Hs).
  apply def_matches_true in Hm as (_ & Hm & _). rewrite <- Hm, Hty, str_eqb_refl in HP.
  apply owner_required_satisfied in Hs; [|done..].
  rewrite Hid in Hor.
  assert (bool_decide (Some author = Some (first_part rid)) = true) as Hb
    by (destruct Hor as [-> | ->]; exact Hs).
  apply bool_decide_eq_true in Hb. congruence.
Qed.

(** An accepted entry over an earlier one, written. *)
Lemma entry_update_write (cstate : CSt) (state_at : hash → CSt) prev reply proof_of config legacy
    state c v v' r txn rid :
  revoc_entry_dynamic_validation str_request state c v r = Ok v' →
  get_type txn = REVOC_REG_ENTRY → operation r = get_payload_data txn →
  dget REVOC_REG_DEF_ID (get_payload_data txn) = Some (VStr rid) →
  use_legacy_sort cstate state_at prev reply proof_of config txn = Ok legacy →
  ∃ cur def st, strategy_of def = Ok st ∧ validate_entry st cur r = Ok tt ∧
    get_current_revoc_entry_and_revoc_def state (identifier r) (VStr rid) (reqId r) = Ok (cur, def) ∧
    revoc_entry_update_state cstate state_at prev reply proof_of config state txn =
      write st legacy state cur txn.
Proof.
  intros H Hty Hop Hrid Hleg.
  destruct (entry_accepted _ _ _ _ _ H) as (rid' & cur & def & st & a & Hr & Hc & _ & _ & Hst & Hval).
  rewrite Hop, Hrid in Hr. injection Hr as <-. exists cur, def, st. split_and!; try done.
  unfold revoc_entry_update_state, validate_type. rewrite Hty, str_eqb_refl. cbn [res_bind].
  unfold dgetitem. rewrite Hrid. cbn [res_bind].
  rewrite (current_entry_author _ _ _ (get_from txn) _ (get_req_id txn) _ Hc). cbn [res_bind].
  by rewrite Hst, Hleg.
Qed.
End lemmas.

(** ** The flag *)

(** The compatibility flag of a state: no value when it was never written, and
    else the value of the transaction that wrote it. *)
Definition flag_in_force {bytes St} `{!Serializer bytes, !State bytes St} (s : St) (value : val) : Prop :=
  (st_get s (make_state_path_for_flag (VStr FLAG_NAME_COMPAT_ORDERING)) = None ∧ value = VNone) ∨
  ∃ ft, st_get s (make_state_path_for_flag (VStr FLAG_NAME_COMPAT_ORDERING)) =
          Some (ser_serialize (VDict (flag_record ft))) ∧
        value = vget FLAG_VALUE (get_payload_data ft).

(** The order a node with a configuration takes: any spelling of "false" turns
    the legacy order off. *)
Definition order_of (value : val) (legacy_sort_config : bool) : bool :=
  match value with
  | VStr s => if str_eqb (py_lower s) "false" then false else legacy_sort_config
  | _ => legacy_sort_config
  end.

Lemma use_legacy_sort_spec {bytes CSt hash} `{!Serializer bytes, !State bytes CSt}
    (cstate : CSt) (state_at : hash → CSt) prev reply proof_of config txn ts h value :
  get_txn_time txn = Some ts → ts ≠ 0%Z → prev (VInt ts) = Some h → flag_in_force (state_at h) value →
  use_legacy_sort cstate state_at prev reply proof_of config txn = Ok (order_of value config).
Proof.
  intros Ht Hts Hprev Hflag.
  unfold use_legacy_sort, lookup_key, lookup_version, lookup_at, get_value. rewrite Ht.
  assert (py_truth (VInt ts) = true) as Htt by (apply int_nonzero_truth; done).
  change (py_truth VNone) with false. cbn [opt_int is_none negb andb].
  rewrite Htt, Hprev. destruct Hflag as [[-> ->]|(ft & -> & ->)]; [done|].
  cbn [res_bind]. rewrite flag_deserialize_written. cbn [res_bind].
  change (get_state_value (VDict (flag_record ft)))
    with (Ok (vget FLAG_VALUE (get_payload_data ft))). cbn [res_bind order_of].
  destruct (vget FLAG_VALUE (get_payload_data ft)) as [| | |[|a w]| |]; try done.
  change (str_truth (String a w)) with true. cbn [andb order_of].
  by destruct (str_eqb (py_lower (String a w)) "false").
Qed.

(** ** Properties *)

(** C5. An accepted update of a registry does what its lists say.  For a
    request that passed validation over a stored entry, whose transaction has the
    operation of the request and a storable author, number and time, the state
    update of the transaction succeeds: the kept list becomes the old one without
    the indices that leave and with those that enter, each index once, and the
    other list becomes empty; the new list is strictly increasing when the flag
    in the state in force at the time of the transaction is a spelling of "false"
    or the node is not configured for the legacy order, and is otherwise in the
    order in which a [CompatSet] iterates that was made of the old list, reduced
    by the one and extended by the other; and the delta between the two stored
    entries is exactly the issued and the revoked indices of the transaction.
    In the legacy order, and only there, the indices must not be negative: a
    negative one, which the schema admits, can make the update run forever. *)
Theorem registry_update_refines {bytes St CSt hash root S} `{!Serializer bytes, !State bytes St,
    !State bytes CSt, !OptimisticStore S root} {RL : Rlp} str_request
    (cstate : CSt) (state_at : hash → CSt) prev reply proof_of config ts h flag
    (state : St) (c : S) v v' r txn rid d acc st def cur n t n' t' vs ks issued revoked :
  revoc_entry_dynamic_validation str_request state c v r = Ok v' →
  get_type txn = REVOC_REG_ENTRY → storable txn rid d acc → operation r = get_payload_data txn →
  get_txn_time txn = Some ts → prev (VInt ts) = Some h → flag_in_force (state_at h) flag →
  get_from_state_val state rid = Ok (def, n', t') → strategy_of def = Ok st →
  get_from_state_val state (entry_path rid) = Ok (cur, n, t) →
  entry_value cur = Ok (VDict vs) → dget (kept st) vs = Some (index_list ks) →
  get_indices ISSUED (VDict d) = Ok issued → get_indices REVOKED (VDict d) = Ok revoked →
  (order_of flag config = true → nonneg ks ∧ nonneg issued ∧ nonneg revoked) →
  ∃ state' l e w,
    revoc_entry_update_state cstate state_at prev reply proof_of config state txn = Ok state' ∧
    get_from_state_val state' (entry_path rid) =
      Ok (VDict e, opt_int (get_seq_no txn), opt_int (get_txn_time txn)) ∧
    dget VALUE e = Some (VDict w) ∧ dget ACCUM w = Some acc ∧
    dget (kept st) w = Some (index_list l) ∧ dget (dropped st) w = Some (index_list []) ∧
    l ≡ₚ elements ((set_of ks ∖ set_of (leaving st issued revoked)) ∪
                   set_of (entering st issued revoked)) ∧
    in_order (order_of flag config) ks (leaving st issued revoked) (entering st issued revoked) l ∧
    get_delta st (VDict w) (Some (VDict vs)) = Ok (RSet (set_of issued), RSet (set_of revoked)).
Proof.
  intros H Hty Hsto Hop Ht Hprev Hflag Hdef Hst Hcur Hvs Hks Hi Hr Hnn.
  assert (ts ≠ 0%Z) as Hts.
  { destruct (sto_time _ _ _ _ Hsto) as (ts' & Ht' & Hne). congruence. }
  pose proof (use_legacy_sort_spec cstate state_at prev reply proof_of config txn ts h flag
    Ht Hts Hprev Hflag) as Hleg.
  destruct (entry_update_write str_request cstate state_at prev reply proof_of config _
    state c v v' r txn rid H Hty Hop (proj1 (sto_rid _ _ _ _ Hsto)) Hleg)
    as (cur' & def' & st' & Hst' & Hval & Hfound & ->).
  destruct (current_entry_found _ _ _ _ _ _ Hfound) as (? & ? & ? & ? & Hc & Hd & _).
  rewrite Hcur in Hc. rewrite Hdef in Hd. injection Hc as -> _ _. injection Hd as -> _ _.
  rewrite Hst in Hst'. injection Hst' as <-. eapply write_refines; try done; intros E; apply Hnn, E.
Qed.

Definition registry_id : string := "T:4:reg".

(** A registry with index 3 revoked, and an update that issues it again and
    revokes 5 and 9. *)
Definition sample_registry : gmap string val :=
  st_set (st_set ∅ registry_id
    (domain_encode_state_value (VDict [(VALUE, VDict [(ISSUANCE_TYPE, VStr ISSUANCE_BY_DEFAULT)])])
       (VInt 3) (VInt 50)))
    (entry_path registry_id)
    (domain_encode_state_value (VDict [(VALUE, VDict sample_current)]) (VInt 4) (VInt 60)).

Definition registry_update : dict val :=
  [(TXN_TYPE, VStr REVOC_REG_ENTRY); (REVOC_REG_DEF_ID, VStr registry_id); (VALUE, VDict sample_value)].

Definition registry_request : Request :=
  mkRequest (Some "T") (Some 1%Z) registry_update (Some "s") None None.

Definition registry_txn : Txn :=
  mkTxn REVOC_REG_ENTRY registry_update (Some "T") (Some 1%Z) None None (Some 7%Z) (Some 100%Z).

Lemma registry_storable : storable registry_txn registry_id sample_value (VStr "a2").
Proof.
  split; [exists "T"|split|exists 7%Z|exists 100%Z| |]; try split; try reflexivity; discriminate.
Qed.

Lemma registry_accepted :
  ∃ v', revoc_entry_dynamic_validation (λ _, "") sample_registry sample_trustee_cache
    (default_validator (∅ : gmap string val) false) registry_request = Ok v'.
Proof. eexists. vm_compute. reflexivity. Qed.

Lemma registry_update_refines_witness :
  ∃ state' l e w,
    revoc_entry_update_state (∅ : gmap string val) (λ _ : unit, ∅ : gmap string val) (λ _, Some tt)
      (λ _, None) (λ _ _, VNone) true sample_registry registry_txn = Ok state' ∧
    get_from_state_val state' (entry_path registry_id) = Ok (VDict e, VInt 7, VInt 100) ∧
    dget VALUE e = Some (VDict w) ∧ dget ACCUM w = Some (VStr "a2") ∧
    dget REVOKED w = Some (index_list l) ∧ dget ISSUED w = Some (index_list []) ∧
    l ≡ₚ elements ((set_of [3] ∖ set_of [3]) ∪ set_of [9; 5])%Z ∧
    in_order true [3]%Z [3]%Z [9; 5]%Z l ∧
    get_delta RevokedStrategy (VDict w) (Some (VDict sample_current)) =
      Ok (RSet (set_of [3]), RSet (set_of [9; 5]))%Z.
Proof.
  destruct registry_accepted as [v' Hv].
  eapply (registry_update_refines (λ _, "") (∅ : gmap string val) (λ _ : unit, ∅ : gmap string val)
    (λ _, Some tt) (λ _, None) (λ _ _, VNone) true 100 tt VNone sample_registry sample_trustee_cache
    (default_validator (∅ : gmap string val) false) v' registry_request registry_txn registry_id
    sample_value (VStr "a2") RevokedStrategy).
  - exact Hv.
  - reflexivity.
  - exact registry_storable.
  - reflexivity.
  - reflexivity.
  - reflexivity.
  - left. split; reflexivity.
  - vm_compute. reflexivity.
  - reflexivity.
  - vm_compute. reflexivity.
  - reflexivity.
  - reflexivity.
  - reflexivity.
  - reflexivity.
  - intros _. split; [|split]; repeat constructor; lia.
Defined.

(** C12. Only its issuer changes a registry: under the default rules an entry
    that passes validation, the first or a later one, is authored by the DID
    that begins the identifier of the registry. *)
Theorem registry_entry_by_issuer {bytes St CSt root S} `{!Serializer bytes, !State bytes St,
    !State bytes CSt, !OptimisticStore S root} {RL : Rlp} str_request
    (state : St) (c : S) (cs : CSt) metrics r author v' :
  cache_wf c → identifier r = Some author →
  revoc_entry_dynamic_validation str_request state c (default_validator cs metrics) r = Ok v' →
  ∃ rid, dget REVOC_REG_DEF_ID (operation r) = Some (VStr rid) ∧ author = first_part rid.
Proof. apply entry_owner. Qed.

Lemma registry_entry_by_issuer_witness :
  ∃ rid, dget REVOC_REG_DEF_ID (operation registry_request) = Some (VStr rid) ∧ "T" = first_part rid.
Proof.
  destruct registry_accepted as [v' Hv].
  eapply (registry_entry_by_issuer (λ _, "") sample_registry sample_trustee_cache
    (∅ : gmap string val) false registry_request "T" v'); [|reflexivity|exact Hv].
  apply (set_wf empty_store "T" (Some 1%Z) None None (Some TRUSTEE) (Some "kT") false); [exact empty_store_wf|discriminate|reflexivity].
Defined.

(** The order of a registry's indices follows the flag as of the
    transaction: with the flag set to any spelling of "false" in the state in
    force at the time of the transaction, new indices are sorted; with any other
    value, or without the flag, the node's own configuration decides. *)
Theorem order_follows_flag {bytes CSt hash} `{!Serializer bytes, !State bytes CSt}
    (cstate s s' : CSt) (state_at : hash → CSt) prev reply proof_of config (ft : Txn) rec (txn : Txn)
    ts h value :
  get_txn_time txn = Some ts → ts ≠ 0%Z → prev (VInt ts) = Some h → state_at h = s' →
  dget FLAG_NAME (get_payload_data ft) = Some (VStr FLAG_NAME_COMPAT_ORDERING) →
  dget FLAG_VALUE (get_payload_data ft) = Some (VStr value) →
  flag_update_state s ft = Ok (s', rec) →
  use_legacy_sort cstate state_at prev reply proof_of config txn =
    Ok (if str_eqb (py_lower value) "false" then false else config).
Proof.
  intros Ht Hts Hprev Hat Hn Hv Hup. destruct (flag_written s s' ft _ rec Hn Hup) as [Hg _].
  refine (use_legacy_sort_spec cstate state_at prev reply proof_of config txn ts h (VStr value)
    Ht Hts Hprev _). right. exists ft. rewrite Hat. split; [done|]. unfold vget. by rewrite Hv.
Qed.

Lemma order_follows_flag_witness :
  ∃ s', flag_update_state (∅ : gmap string val) (sample_flag_txn "False") =
      Ok (s', flag_record (sample_flag_txn "False")) ∧
    use_legacy_sort ∅ (λ _ : unit, s') (λ _, Some tt) (λ _, None) (λ _ _, VNone) true registry_txn =
      Ok false.
Proof.
  assert (∃ s', flag_update_state (∅ : gmap string val) (sample_flag_txn "False") =
    Ok (s', flag_record (sample_flag_txn "False"))) as [s' H] by (eexists; reflexivity).
  exists s'. split; [exact H|].
  apply (order_follows_flag ∅ ∅ s' (λ _ : unit, s') (λ _, Some tt) (λ _, None) (λ _ _, VNone) true
    (sample_flag_txn "False") (flag_record (sample_flag_txn "False")) registry_txn 100 tt "False");
    [reflexivity|lia|reflexivity..|exact H].
Defined.
