(* ===== verification/Upgrader.v ===== *)
(** * The upgrader

    [indy_node/server/upgrader.py] with what it uses of [action_log.py],
    [upgrade_log.py] and [node_maintainer.py]: POOL_UPGRADE transactions schedule
    and cancel an upgrade of the node, the upgrade is handed to the control tool
    when its time has come, and every event goes to an append-only log that
    survives a restart.

    Times and delays are microseconds.  Parsing and printing of dates (dateutil), versions
    (plenum), the list of installed packages (the package manager) and the
    action queue (plenum's [HasActionQueue]) are parameters.  Messages to the
    python logger are left out; messages to the notifier plugins and the two
    callbacks are recorded. *)
From stdpp Require Import sorting.
From S2P Require Import Prelude PyValue Plenum Constants StateDomain IdrCache HandlerBase.

Definition ACTION : string := "action".
Definition SCHEDULE : string := "schedule".
Definition TIMEOUT : string := "timeout".
Definition START : string := "start".
Definition CANCEL : string := "cancel".
Definition JUSTIFICATION : string := "justification".
Definition REINSTALL : string := "reinstall".
Definition PACKAGE : string := "package".
Definition VERSION : string := "version".
Definition APP_NAME : string := "indy-node".

(** ** The event log *)

Inductive ActionLogEvents := scheduled | started | succeeded | failed | cancelled.

#[export] Instance ActionLogEvents_eq_dec : EqDecision ActionLogEvents.
Proof. solve_decision. Defined.

Record UpgradeLogData {Ver : Type} := mkUpgradeLogData {
  when : Z;
  version : Ver;
  upgrade_id : string;
  pkg_name : val
}.
Arguments UpgradeLogData Ver : clear implicits.

Record ActionLogEvent {D : Type} := mkEvent { ts : Z; ev_type : ActionLogEvents; data : D }.
Arguments ActionLogEvent D : clear implicits.

(** [ActionLog._append]: the event is stamped with the current time. *)
Definition log_append {D} (now : Z) (ev : ActionLogEvents) (d : D) (items : list (ActionLogEvent D))
    : list (ActionLogEvent D) :=
  items ++ [mkEvent D now ev d].

Definition last_event {D} (items : list (ActionLogEvent D)) : option (ActionLogEvent D) := last items.

(** ** The action queue

    plenum's [HasActionQueue]: an action scheduled with a positive delay waits in
    [aqStash]; [_unscheduleAction] replaces that queue by an empty one. *)
Class ActionQueue (Q T : Type) := {
  aqStash : Q → list T;
  aq_schedule : Q → T → Z → Q;
  aq_reset : Q → Q;
  aq_schedule_later q t d : (0 < d)%Z → aqStash (aq_schedule q t d) = aqStash q ++ [t];
  aq_schedule_now q t d : (d ≤ 0)%Z → aqStash (aq_schedule q t d) = aqStash q;
  aq_reset_empty q : aqStash (aq_reset q) = []
}.

(** The two callbacks the upgrader schedules. *)
Inductive Task {Ver : Type} :=
| CallUpgradeAgent (d : UpgradeLogData Ver) (failTimeout : val)
| DeclareTimeoutExceeded (d : UpgradeLogData Ver).
Arguments Task Ver : clear implicits.

(** Calls of the notifier and of the callbacks. *)
Inductive Effect {Ver : Type} :=
| UpgradeScheduled (d : UpgradeLogData Ver)
| UpgradeComplete (d : UpgradeLogData Ver)
| UpgradeFail (d : UpgradeLogData Ver) (reason : string)
| UpgradeCancel (d : UpgradeLogData Ver) (why : val)
| action_start_callback
| actionFailedCallback.
Arguments Effect Ver : clear implicits.

Definition defaultActionTimeout : val := VInt 10.

(** [NodeMaintainer.get_timeout]: [timedelta(minutes=timeout).seconds], the
    seconds of the last day only. *)
Definition get_timeout (timeout : val) : res Z :=
  match timeout with
  | VInt n => Ok (Z.modulo (60 * n) 86400)
  | VBool b => Ok (if b then 60 else 0)%Z
  | _ => Raise (TypeError "unsupported type for timedelta minutes component")
  end.

Record Config := { UPGRADE_ENTRY : val; MinSepBetweenNodeUpgrades : Z }.

Section Upgrader.
Context {Ver Q : Type} (ver_eqb ver_gtb : Ver → Ver → bool).
(** [src_version_cls(pkg_name)(version)]: [None] is [InvalidVersionError] *)
Context (src_version : val → val → option Ver).
(** [NodeControlUtil.curr_pkg_info]: installed version and dependencies *)
Context (curr_pkg_info : val → option Ver * list string).
Context (parse_date : string → res Z).
Context (is_forced : Txn → bool).
Context `{!ActionQueue Q (Task Ver)}.
Context (config : Config) (nodeId : string).

(** [UpgradeLogData.__eq__] *)
Definition data_eqb (a b : UpgradeLogData Ver) : bool :=
  Z.eqb (when a) (when b) && ver_eqb (version a) (version b) &&
  str_eqb (upgrade_id a) (upgrade_id b) && py_eq (pkg_name a) (pkg_name b).

(** The state of an upgrader: [sends] are the requests to the control tool in
    flight. *)
Record UState := mkUState {
  scheduledAction : option (UpgradeLogData Ver);
  actionLog : list (ActionLogEvent (UpgradeLogData Ver));
  queue : Q;
  sends : list (UpgradeLogData Ver * val);
  should_notify_about_upgrade : bool;
  effects : list (Effect Ver)
}.

Definition with_scheduled (s : UState) (a : option (UpgradeLogData Ver)) : UState :=
  mkUState a (actionLog s) (queue s) (sends s) (should_notify_about_upgrade s) (effects s).
Definition append (now : Z) (ev : ActionLogEvents) (d : UpgradeLogData Ver) (s : UState) : UState :=
  mkUState (scheduledAction s) (log_append now ev d (actionLog s)) (queue s) (sends s)
    (should_notify_about_upgrade s) (effects s).
Definition schedule (t : Task Ver) (delay : Z) (s : UState) : UState :=
  mkUState (scheduledAction s) (actionLog s) (aq_schedule (queue s) t delay) (sends s)
    (should_notify_about_upgrade s) (effects s).
Definition emit (e : Effect Ver) (s : UState) : UState :=
  mkUState (scheduledAction s) (actionLog s) (queue s) (sends s) (should_notify_about_upgrade s)
    (effects s ++ [e]).

(** ** Versions and identifiers *)

Definition is_version_upgradable (old new : Ver) (reinstall : bool) : bool :=
  ver_gtb new old || (ver_eqb new old && reinstall).

(** ['{}{}'.format(get_req_id(txn), seq_no)], without the number for a forced
    transaction. *)
Definition get_action_id (txn : Txn) : string :=
  let seq_no := match get_seq_no txn with
                | Some n => if Z.eqb n 0 then "" else str_int n
                | None => ""
                end in
  let seq_no := if is_forced txn then "" else seq_no in
  py_str (opt_int (get_req_id txn)) +:+ seq_no.

(** [check_upgrade_possible]: [None], or why not.  [version_of pkg_name ver] is
    [src_version_cls(pkg_name)(ver)], where an [InvalidVersionError] is a reason and
    anything else escapes; [pkg_info] is [NodeControlUtil.curr_pkg_info], which runs
    shell commands and may raise. *)
Definition check_upgrade_possible (version_of : val → val → res Ver)
    (pkg_info : val → res (option Ver * list string)) (pkg_name target_ver : val) (reinstall : bool)
    : res (option string) :=
  match version_of pkg_name target_ver with
  | Raise (InvalidVersionError _) =>
      Ok (Some ("invalid target version " +:+ py_str target_ver +:+ " for version class "))
  | Raise e => Raise e
  | Ok target =>
      let! (curr_pkg_ver, cur_deps) := pkg_info pkg_name in
      Ok match curr_pkg_ver with
         | None => Some ("package " +:+ py_str pkg_name +:+ " is not installed and cannot be upgraded")
         | Some curr =>
             if negb (py_in_str APP_NAME (py_str pkg_name)) &&
                forallb (λ d, negb (py_in_str APP_NAME d)) cur_deps
             then Some ("Package " +:+ py_str pkg_name +:+ " doesn't belong to pool")
             else if negb (is_version_upgradable curr target reinstall)
             then Some ("Version " +:+ py_str target_ver +:+ " is not upgradable")
             else None
         end
  end.

(** ** Start-up *)

Definition lastActionEventInfo (s : UState) : option (ActionLogEvent (UpgradeLogData Ver)) :=
  last_event (actionLog s).

Definition is_action_started (s : UState) : bool :=
  match lastActionEventInfo s with
  | None => false
  | Some last_action => bool_decide (ev_type last_action = started)
  end.

Definition didLastExecutedUpgradeSucceeded (s : UState) : bool :=
  match lastActionEventInfo s with
  | None => false
  | Some e => match (curr_pkg_info (pkg_name (data e))).1 with
              | Some current => ver_eqb current (version (data e))
              | None => false
              end
  end.

(** [_action_failed] *)
Definition action_failed (d : UpgradeLogData Ver) (reason : option string) (s : UState) : UState :=
  emit (UpgradeFail d (default "unknown reason" reason)) s.

Definition set_should_notify (b : bool) (s : UState) : UState :=
  mkUState (scheduledAction s) (actionLog s) (queue s) (sends s) b (effects s).

(** [_update_action_log_for_started_action] *)
Definition update_action_log_for_started_action (now : Z) (s : UState) : UState :=
  match lastActionEventInfo s with
  | None => s
  | Some e =>
      let ev_data := data e in
      let ok := didLastExecutedUpgradeSucceeded s in
      let s := set_should_notify true s in
      if negb ok then action_failed ev_data None (append now failed ev_data s)
      else emit (UpgradeComplete ev_data) (append now succeeded ev_data s)
  end.

Definition process_action_log_for_first_run (now : Z) (s : UState) : UState :=
  if is_action_started s then update_action_log_for_started_action now s else s.

(** [NodeMaintainer.__init__] over the log that was read from the disk. *)
Definition new_Upgrader (now : Z) (log : list (ActionLogEvent (UpgradeLogData Ver))) (q : Q) : UState :=
  process_action_log_for_first_run now (mkUState None log q [] false []).

Definition notified_about_action_result (s : UState) : UState := set_should_notify false s.

(** ** Scheduling *)

(** [_unscheduleAction] *)
Definition unscheduleAction (s : UState) : UState :=
  mkUState None (actionLog s) (aq_reset (queue s)) (sends s) (should_notify_about_upgrade s) (effects s).

(** [_cancelScheduledUpgrade] *)
Definition cancelScheduledUpgrade (now : Z) (justification : val) (s : UState) : UState :=
  match scheduledAction s with
  | None => s
  | Some ev_data =>
      let why := if is_none justification then VStr "cancellation reason not specified"
                 else justification in
      emit (UpgradeCancel ev_data why) (append now cancelled ev_data (unscheduleAction s))
  end.

(** [_scheduleUpgrade] *)
Definition scheduleUpgrade (now : Z) (ev_data : UpgradeLogData Ver) (failTimeout : val) (s : UState) : UState :=
  let s := append now scheduled ev_data (emit (UpgradeScheduled ev_data) s) in
  let delay := if Z.ltb now (when ev_data) then (when ev_data - now)%Z else 0%Z in
  schedule (CallUpgradeAgent ev_data failTimeout) delay (with_scheduled s (Some ev_data)).

Definition is_final (e : ActionLogEvents) : bool :=
  match e with succeeded | failed => true | _ => false end.

(** The schedule is a dictionary of node identifiers and times. *)
Definition schedule_of (v : val) : res (dict val) :=
  match v with VDict d => Ok d | _ => Raise (TypeError "schedule must be a dictionary") end.

Definition parse_when (v : val) : res Z :=
  match v with
  | VStr s => parse_date s
  | _ => Raise (TypeError "'when' should be 'datetime' or 'str'")
  end.

(** The START branch of [handleUpgradeTxn]. *)
Definition handle_start (now : Z) (txn_data : dict val) (ver : Ver) (pkg : val) (upg_id : string)
    (s : UState) : res UState :=
  let! sched := dgetitem SCHEDULE txn_data in
  let! sched := schedule_of sched in
  match dget nodeId sched with
  | None => Ok s
  | Some when_val =>
      if match lastActionEventInfo s with
         | Some e => str_eqb (upgrade_id (data e)) upg_id && is_final (ev_type e)
         | None => false
         end
      then Ok s else
      let failTimeout := get_default TIMEOUT defaultActionTimeout txn_data in
      let! w := parse_when when_val in
      let new_ev_data := mkUpgradeLogData Ver w ver upg_id pkg in
      match scheduledAction s with
      | Some a =>
          if data_eqb a new_ev_data then Ok s
          else Ok (scheduleUpgrade now new_ev_data failTimeout
                     (cancelScheduledUpgrade now (vget JUSTIFICATION txn_data) s))
      | None => Ok (scheduleUpgrade now new_ev_data failTimeout s)
      end
  end.

Definition handleUpgradeTxn (now : Z) (txn : Txn) (s : UState) : res UState :=
  if negb (str_eqb (get_type txn) POOL_UPGRADE) then Ok s else
  let txn_data := get_payload_data txn in
  let! action := dgetitem ACTION txn_data in
  let! ver := dgetitem VERSION txn_data in
  let justification := vget JUSTIFICATION txn_data in
  let pkg := get_default PACKAGE (UPGRADE_ENTRY config) txn_data in
  let upg_id := get_action_id txn in
  match src_version pkg ver with
  | None => Ok s
  | Some v =>
      if py_eq action (VStr START) then handle_start now txn_data v pkg upg_id s
      else if py_eq action (VStr CANCEL) then
        match scheduledAction s with
        | Some a => if ver_eqb (version a) v then Ok (cancelScheduledUpgrade now justification s) else Ok s
        | None => Ok s
        end
      else Ok s
  end.

(** ** The upgrade itself *)

(** [_callUpgradeAgent] *)
Definition callUpgradeAgent (now : Z) (ev_data : UpgradeLogData Ver) (failTimeout : val) (s : UState) : UState :=
  let s := with_scheduled (emit action_start_callback (append now started ev_data s)) None in
  mkUState (scheduledAction s) (actionLog s) (queue s) (sends s ++ [(ev_data, failTimeout)])
    (should_notify_about_upgrade s) (effects s).

(** [_sendUpgradeRequest]: [attempt n] is whether the [n]-th try reaches the
    control tool; three tries. *)
Definition retry_limit : nat := 3.

Fixpoint send_attempts (attempt : nat → bool) (n retryLimit : nat) : bool :=
  match retryLimit with
  | O => false
  | S limit => if attempt n then true else send_attempts attempt (S n) limit
  end.

Definition sendUpgradeRequest (attempt : nat → bool) (ev_data : UpgradeLogData Ver) (failTimeout : val)
    (s : UState) : res UState :=
  if send_attempts attempt 0 retry_limit then
    let! delay := get_timeout failTimeout in
    Ok (schedule (DeclareTimeoutExceeded ev_data) (delay * 1000000) s)
  else
    Ok (unscheduleAction
      (action_failed ev_data (Some "problems in communication with node control service") s)).

(** [_declareTimeoutExceeded] *)
Definition declareTimeoutExceeded (ev_data : UpgradeLogData Ver) (s : UState) : UState :=
  if match last_event (actionLog s) with
     | Some e => bool_decide (ev_type e = failed) && data_eqb (data e) ev_data
     | None => false
     end
  then s
  else emit actionFailedCallback
         (unscheduleAction (action_failed ev_data (Some "exceeded upgrade timeout") s)).

(** ** The config ledger *)

(** [self.ledger.getBySeqNo] *)
Definition getBySeqNo (ledger : list Txn) (n : nat) : res Txn :=
  match n with
  | O => Raise (KeyError "0")
  | S i => match ledger !! i with Some t => Ok t | None => Raise (KeyError (str_int (Z.of_nat n))) end
  end.

(** The loop of [get_upgrade_txn] with [reverse], from [seq_no] down to 1. *)
Fixpoint search_back (ledger : list Txn) (predicate : Txn → res bool) (seq_no : nat)
    : res (option Txn) :=
  match seq_no with
  | O => Ok None
  | S n => let! txn := getBySeqNo ledger seq_no in
           let! found := predicate txn in
           if found then Ok (Some txn) else search_back ledger predicate n
  end.

(** The loop without [reverse]: [fuel] rounds from [seq_no] up. *)
Fixpoint search_on (ledger : list Txn) (predicate : Txn → res bool) (seq_no fuel : nat)
    : res (option Txn) :=
  match fuel with
  | O => Ok None
  | S fuel => let! txn := getBySeqNo ledger seq_no in
              let! found := predicate txn in
              if found then Ok (Some txn) else search_on ledger predicate (S seq_no) fuel
  end.

(** [get_upgrade_txn]: backwards while [seq_no > 0], forwards while
    [seq_no <= len(ledger)]. *)
Definition get_upgrade_txn (ledger : list Txn) (predicate : Txn → res bool) (start_no : option nat)
    (reverse : bool) : res (option Txn) :=
  if reverse then search_back ledger predicate (default (length ledger) start_no)
  else let seq_no := default 1 start_no in
       search_on ledger predicate seq_no (S (length ledger) - seq_no).

Definition get_last_node_upgrade_txn (ledger : list Txn) (start_no : option nat) : res (option Txn) :=
  get_upgrade_txn ledger (λ txn,
    Ok (str_eqb (get_type txn) NODE_UPGRADE && bool_decide (get_from txn = Some nodeId))) start_no true.

Definition is_start (txn : Txn) : res bool :=
  if str_eqb (get_type txn) POOL_UPGRADE then
    let! a := dgetitem ACTION (get_payload_data txn) in Ok (py_eq a (VStr START))
  else Ok false.

(** A CANCEL for the version of a START. *)
Definition is_cancel_of (start txn : Txn) : res bool :=
  if str_eqb (get_type txn) POOL_UPGRADE then
    let! a := dgetitem ACTION (get_payload_data txn) in
    if py_eq a (VStr CANCEL) then
      let! v := dgetitem VERSION (get_payload_data txn) in
      let! v' := dgetitem VERSION (get_payload_data start) in Ok (py_eq v v')
    else Ok false
  else Ok false.

Definition processLedger (now : Z) (ledger : list Txn) (s : UState) : res UState :=
  let! start := get_upgrade_txn ledger is_start None true in
  match start with
  | None => Ok s
  | Some t =>
      let! n := match get_seq_no t with
                | Some n => Ok (Z.to_nat n)
                | None => Raise (TypeError "unsupported operand type(s) for +")
                end in
      let! cancel := get_upgrade_txn ledger (is_cancel_of t) (Some (S n)) false in
      match cancel with
      | Some _ => Ok s
      | None => handleUpgradeTxn now t s
      end
  end.

(** ** [isScheduleValid] *)

Context (show_time : Z → string).

(** The loop over the schedule's values. *)
Fixpoint schedule_times (now : Z) (force : bool) (dates : list val) (times : list Z)
    : res (list Z + string) :=
  match dates with
  | [] => Ok (inl times)
  | dateStr :: dates' =>
      match parse_when dateStr with
      | Ok w => if Z.leb w now && negb force then Ok (inr (show_time w +:+ " is less than current time"))
                else schedule_times now force dates' (times ++ [w])
      | Raise (ValueError _) => Ok (inr (py_str dateStr +:+ " cannot be parsed to a time"))
      | Raise e => Raise e
      end
  end.

(** Consecutive times of a sorted list, [MinSepBetweenNodeUpgrades] seconds apart. *)
Fixpoint separated (times : list Z) : bool :=
  match times with
  | a :: (b :: _) as rest =>
      if Z.ltb (b - a) (MinSepBetweenNodeUpgrades config * 1000000) then false else separated rest
  | _ => true
  end.

Definition isScheduleValid (now : Z) (sched : dict val) (node_srvs : dict val) (force : bool)
    : res (bool * string) :=
  let non_demoted_nodes := map fst (filter (λ kv, py_truth kv.2 = true) node_srvs) in
  if negb force &&
     negb (bool_decide (list_to_set (dkeys sched) = (list_to_set non_demoted_nodes : gset string)))
  then Ok (false, "Schedule should contain id of all nodes") else
  let! times := schedule_times now force (map snd sched) [] in
  match times with
  | inr reason => Ok (false, reason)
  | inl times =>
      if force then Ok (true, "")
      else if separated (merge_sort Z.le times) then Ok (true, "")
      else Ok (false, "time span between upgrades is less than specified in the config")
  end.
End Upgrader.

(** ** Specification of the log

    What may come directly before an event: an upgrade is started or cancelled
    when it was the last thing scheduled, and ends when it was the last thing
    started. *)
Definition may_follow {D} (prev : option (ActionLogEvent D)) (e : ActionLogEvent D) : Prop :=
  match ev_type e with
  | scheduled => True
  | started | cancelled => ∃ p, prev = Some p ∧ ev_type p = scheduled ∧ data p = data e
  | succeeded | failed => ∃ p, prev = Some p ∧ ev_type p = started ∧ data p = data e
  end.

Fixpoint legal_after {D} (prev : option (ActionLogEvent D)) (log : list (ActionLogEvent D)) : Prop :=
  match log with
  | [] => True
  | e :: log' => may_follow prev e ∧ legal_after (Some e) log'
  end.

Definition legal {D} (log : list (ActionLogEvent D)) : Prop := legal_after None log.

Lemma legal_after_snoc {D} prev (l : list (ActionLogEvent D)) e :
  legal_after prev (l ++ [e]) ↔
  legal_after prev l ∧ may_follow (match last l with Some p => Some p | None => prev end) e.
Proof.
  revert prev. induction l as [|x l IH]; intros prev; [simpl; tauto|].
  cbn [app legal_after]. rewrite IH. rewrite (last_cons x l). destruct (last l); tauto.
Qed.

Lemma legal_append {D} now ev d (l : list (ActionLogEvent D)) :
  legal l → may_follow (last_event l) (mkEvent D now ev d) → legal (log_append now ev d l).
Proof.
  unfold legal, log_append, last_event. intros Hl Hm. apply legal_after_snoc. split; [done|].
  by destruct (last l).
Qed.

Lemma last_append {D} now ev d (l : list (ActionLogEvent D)) :
  last_event (log_append now ev d l) = Some (mkEvent D now ev d).
Proof. apply last_snoc. Qed.

Definition is_call {Ver} (t : Task Ver) : Prop :=
  match t with CallUpgradeAgent _ _ => True | DeclareTimeoutExceeded _ => False end.

#[export] Instance is_call_dec {Ver} (t : Task Ver) : Decision (is_call t).
Proof. destruct t; simpl; apply _. Defined.

Section Steps.
Context {Ver Q : Type} (ver_eqb ver_gtb : Ver → Ver → bool) (src_version : val → val → option Ver).
Context (curr_pkg_info : val → option Ver * list string) (parse_date : string → res Z).
Context (is_forced : Txn → bool) `{!ActionQueue Q (Task Ver)} (config : Config) (nodeId : string).
Notation UState := (UState (Ver := Ver) (Q := Q)).
Notation handle := (handleUpgradeTxn ver_eqb src_version parse_date is_forced config nodeId).

(** The transaction asks this node, if at all, for an upgrade after [now]. *)
Definition asks_for_future (now : Z) (txn : Txn) : Prop :=
  ∀ d v w, dget SCHEDULE (get_payload_data txn) = Some (VDict d) → dget nodeId d = Some v →
    parse_when parse_date v = Ok w → (now < w)%Z.

Definition with_queue (q : Q) (s : UState) : UState :=
  mkUState (scheduledAction s) (actionLog s) q (sends s) (should_notify_about_upgrade s) (effects s).

Definition with_sends (l : list (UpgradeLogData Ver * val)) (s : UState) : UState :=
  mkUState (scheduledAction s) (actionLog s) (queue s) l (should_notify_about_upgrade s) (effects s).

(** Everything that happens to an upgrader: transactions of the ledger, the
    callbacks of the queue, the answer of the control tool, a restart. *)
Inductive step : UState → UState → Prop :=
| step_txn now txn s s' :
    asks_for_future now txn → handle now txn s = Ok s' → step s s'
| step_ledger now ledger s s' :
    Forall (asks_for_future now) ledger →
    processLedger ver_eqb src_version parse_date is_forced config nodeId now ledger s = Ok s' →
    step s s'
| step_call now d f q' l1 l2 s :
    aqStash (queue s) = l1 ++ CallUpgradeAgent d f :: l2 → aqStash q' = l1 ++ l2 →
    step s (callUpgradeAgent now d f (with_queue q' s))
| step_timeout d q' l1 l2 s :
    (aqStash q' = aqStash (queue s) ∨
     aqStash (queue s) = l1 ++ DeclareTimeoutExceeded d :: l2 ∧ aqStash q' = l1 ++ l2) →
    step s (declareTimeoutExceeded ver_eqb d (with_queue q' s))
| step_send attempt d f l1 l2 s s' :
    sends s = l1 ++ (d, f) :: l2 →
    sendUpgradeRequest attempt d f (with_sends (l1 ++ l2) s) = Ok s' → step s s'
| step_notified s : step s (notified_about_action_result s)
| step_restart now q s :
    aqStash q = [] → step s (new_Upgrader ver_eqb curr_pkg_info now (actionLog s) q).

Inductive reachable : UState → Prop :=
| reach_new now q : aqStash q = [] → reachable (new_Upgrader ver_eqb curr_pkg_info now [] q)
| reach_step s s' : reachable s → step s s' → reachable s'.

(** The upgrade callbacks that wait. *)
Definition calls (q : Q) : list (Task Ver) := filter is_call (aqStash q).

Record UpInv (s : UState) : Prop := {
  up_last d : scheduledAction s = Some d →
    ∃ e, last_event (actionLog s) = Some e ∧ ev_type e = scheduled ∧ data e = d;
  up_calls : calls (queue s) = [] ∨
    ∃ d f, scheduledAction s = Some d ∧ calls (queue s) = [CallUpgradeAgent d f];
  up_legal : legal (actionLog s)
}.

(** *** Lemmas *)

Lemma calls_schedule_call q d f (delay : Z) :
  (0 < delay)%Z → calls (aq_schedule q (CallUpgradeAgent d f) delay) = calls q ++ [CallUpgradeAgent d f].
Proof. intros H. unfold calls. by rewrite aq_schedule_later, filter_app by done. Qed.

Lemma calls_schedule_timeout q d (delay : Z) :
  calls (aq_schedule q (DeclareTimeoutExceeded d) delay) = calls q.
Proof.
  unfold calls. destruct (Z.lt_ge_cases 0 delay).
  - rewrite aq_schedule_later, filter_app by done. simpl. by rewrite app_nil_r.
  - by rewrite aq_schedule_now.
Qed.

Lemma calls_reset q : calls (aq_reset q) = [].
Proof. unfold calls. by rewrite aq_reset_empty. Qed.

(** Nothing scheduled and nothing waiting. *)
Lemma inv_idle s :
  scheduledAction s = None → calls (queue s) = [] → legal (actionLog s) → UpInv s.
Proof. intros Hs Hc Hl. split; [by rewrite Hs|by left|done]. Qed.

Lemma inv_idle_calls s : UpInv s → scheduledAction s = None → calls (queue s) = [].
Proof. intros [_ [?|(d & f & ? & _)] _] Hn; [done|congruence]. Qed.

(** The invariant does not look at the effects, the sends and the flag. *)
Lemma inv_same s s' :
  scheduledAction s' = scheduledAction s → actionLog s' = actionLog s →
  calls (queue s') = calls (queue s) → UpInv s → UpInv s'.
Proof. intros H1 H2 H3 [Hl Hc Hg]. split; rewrite ?H1, ?H2, ?H3; done. Qed.

Lemma inv_unschedule s : UpInv s → UpInv (unscheduleAction s).
Proof. intros [_ _ Hl]. apply inv_idle; [done|apply calls_reset|done]. Qed.

Lemma inv_cancel now j s : UpInv s → UpInv (cancelScheduledUpgrade now j s).
Proof.
  intros Hinv. pose proof Hinv as [Hl Hc Hg]. unfold cancelScheduledUpgrade.
  destruct (scheduledAction s) as [d|] eqn:E; [|done].
  apply inv_idle; [done|apply calls_reset|]. simpl. apply legal_append; [done|].
  destruct (Hl d eq_refl) as (e & ? & ? & ?). exists e. done.
Qed.

Lemma cancel_idle now j s : scheduledAction (cancelScheduledUpgrade now j s) = None.
Proof. unfold cancelScheduledUpgrade. by destruct (scheduledAction s) eqn:E. Qed.

Lemma inv_schedule now d f s :
  UpInv s → scheduledAction s = None → (now < when d)%Z → UpInv (scheduleUpgrade now d f s).
Proof.
  intros Hinv Hn Hw. unfold scheduleUpgrade. rewrite (proj2 (Z.ltb_lt _ _) Hw).
  pose proof (inv_idle_calls s Hinv Hn) as Hc. split; simpl.
  - intros d' [= <-]. rewrite last_append. by eexists.
  - right. exists d, f. split; [done|]. rewrite calls_schedule_call by lia. by rewrite Hc.
  - apply legal_append; [apply Hinv|done].
Qed.

Lemma inv_start now txn_data ver pkg uid s s' :
  (∀ d v w, dget SCHEDULE txn_data = Some (VDict d) → dget nodeId d = Some v →
    parse_when parse_date v = Ok w → (now < w)%Z) →
  handle_start ver_eqb parse_date nodeId now txn_data ver pkg uid s = Ok s' → UpInv s → UpInv s'.
Proof.
  intros Hfut H Hinv. unfold handle_start in H.
  bind H as sc Hsc. bind H as d Hd.
  destruct sc as [| | | | |sd]; try done. cbn [schedule_of] in Hd. injection Hd as ->.
  unfold dgetitem in Hsc. destruct (dget SCHEDULE txn_data) eqn:Es; [|done]. injection Hsc as ->.
  destruct (dget nodeId d) as [wv|] eqn:Ed; [|by injection H as <-].
  match type of H with (if ?b then _ else _) = _ => destruct b; [by injection H as <-|] end.
  bind H as w Hw. pose proof (Hfut d wv w eq_refl Ed Hw) as Hlt.
  destruct (scheduledAction s) as [a|] eqn:Ea.
  - destruct (data_eqb _ _ _); injection H as <-; [done|].
    apply inv_schedule; [by apply inv_cancel|apply cancel_idle|done].
  - injection H as <-. by apply inv_schedule.
Qed.

Lemma inv_handle now txn s s' :
  asks_for_future now txn → handle now txn s = Ok s' → UpInv s → UpInv s'.
Proof.
  intros Hfut H Hinv. unfold handleUpgradeTxn in H.
  destruct (negb _); [by injection H as <-|].
  bind H as a _. bind H as v _.
  destruct (src_version _ _) as [ver|]; [|by injection H as <-].
  destruct (py_eq a (VStr START)); [by eapply inv_start|].
  destruct (py_eq a (VStr CANCEL)); [|by injection H as <-].
  destruct (scheduledAction s) as [b|]; [|by injection H as <-].
  destruct (ver_eqb _ _); injection H as <-; [by apply inv_cancel|done].
Qed.

Lemma search_back_elem ledger p n t : search_back ledger p n = Ok (Some t) → t ∈ ledger.
Proof.
  induction n as [|n IH]; simpl; [done|]. intros H. bind H as x Hx.
  bind H as b _. destruct b; [|by apply IH]. injection H as ->.
  destruct (ledger !! n) eqn:E; [|done]. injection Hx as ->. by eapply list_elem_of_lookup_2.
Qed.

Lemma inv_ledger now ledger s s' :
  Forall (asks_for_future now) ledger →
  processLedger ver_eqb src_version parse_date is_forced config nodeId now ledger s = Ok s' →
  UpInv s → UpInv s'.
Proof.
  intros Hall H Hinv. unfold processLedger in H. bind H as st Hst.
  destruct st as [t|]; [|by injection H as <-]. bind H as n _.
  bind H as c _. destruct c; [by injection H as <-|].
  eapply inv_handle; [|done..]. rewrite Forall_forall in Hall. apply Hall.
  by eapply search_back_elem.
Qed.

Lemma inv_first_run now log q :
  aqStash q = [] → legal log → UpInv (new_Upgrader ver_eqb curr_pkg_info now log q).
Proof.
  intros Hq Hl. unfold new_Upgrader, process_action_log_for_first_run, is_action_started,
    update_action_log_for_started_action, lastActionEventInfo. cbn [actionLog].
  assert (calls q = []) as Hc by (unfold calls; by rewrite Hq).
  destruct (last_event log) as [e|] eqn:E; [|by apply inv_idle].
  case_bool_decide as Hst; [|by apply inv_idle].
  destruct (negb _); apply inv_idle; try done; simpl; apply legal_append; try done;
    exists e; done.
Qed.

Lemma calls_remove (l1 l2 : list (Task Ver)) d :
  filter is_call (l1 ++ DeclareTimeoutExceeded d :: l2) = filter is_call (l1 ++ l2).
Proof. by rewrite !filter_app. Qed.

Lemma inv_call now d f q' l1 l2 s :
  aqStash (queue s) = l1 ++ CallUpgradeAgent d f :: l2 → aqStash q' = l1 ++ l2 →
  UpInv s → UpInv (callUpgradeAgent now d f (with_queue q' s)).
Proof.
  intros Hq Hq' [Hl Hc Hg]. unfold calls in Hc. rewrite Hq, filter_app in Hc.
  change (CallUpgradeAgent d f :: l2) with ([CallUpgradeAgent d f] ++ l2) in Hc.
  rewrite filter_app in Hc. simpl in Hc.
  destruct Hc as [Hc|(d' & f' & Hs & Hc)]; [by destruct (filter is_call l1)|].
  assert (filter is_call l1 = [] ∧ filter is_call l2 = [] ∧ d = d') as (H1 & H2 & ->).
  { destruct (filter is_call l1) as [|x [|y l]]; simpl in Hc; simplify_eq; done. }
  apply inv_idle; [done| |].
  - unfold calls. simpl. by rewrite Hq', filter_app, H1, H2.
  - simpl. apply legal_append; [done|]. destruct (Hl d' Hs) as (e & ? & ? & ?). by exists e.
Qed.

Lemma inv_step s s' : step s s' → UpInv s → UpInv s'.
Proof.
  intros H Hinv. destruct H as [now txn s s' Hf H|now ledger s s' Hf H|now d f q' l1 l2 s Hq Hq'
    |d q' l1 l2 s Hq|attempt d f l1 l2 s s' _ H|s|now q s Hq].
  - by eapply inv_handle.
  - by eapply inv_ledger.
  - by eapply inv_call.
  - assert (UpInv (with_queue q' s)) as Hi.
    { apply (inv_same s); try done. simpl. unfold calls.
      destruct Hq as [->|[-> ->]]; [done|by rewrite calls_remove]. }
    unfold declareTimeoutExceeded. match goal with |- UpInv (if ?b then _ else _) => destruct b end; [done|].
    apply inv_unschedule in Hi. by apply (inv_same (unscheduleAction (with_queue q' s))).
  - unfold sendUpgradeRequest in H. destruct (send_attempts attempt 0 retry_limit).
    + apply res_bind_Ok in H as (delay & _ & [= <-]). apply (inv_same s); try done.
      apply calls_schedule_timeout.
    + injection H as <-. by apply (inv_same (unscheduleAction s)), inv_unschedule.
  - by apply (inv_same s).
  - apply inv_first_run; [done|apply Hinv].
Qed.

Lemma reachable_inv s : reachable s → UpInv s.
Proof.
  induction 1 as [now q Hq|s s' _ IH H]; [by apply inv_first_run|by eapply inv_step].
Qed.
End Steps.

(** ** Lemmas: schedules *)

(** Every two elements are related. *)
Fixpoint all_pairs {A} (R : A → A → Prop) (l : list A) : Prop :=
  match l with [] => True | x :: l' => Forall (R x) l' ∧ all_pairs R l' end.

Lemma all_pairs_perm {A} (R : A → A → Prop) l l' :
  (∀ a b, R a b → R b a) → l ≡ₚ l' → all_pairs R l → all_pairs R l'.
Proof.
  intros HR. induction 1 as [|x l l' Hp IH|x y l|l1 l2 l3 _ IH1 _ IH2]; simpl; [done| | |auto].
  - intros [Hx Hl]. split; [|auto]. by rewrite <- Hp.
  - rewrite !Forall_cons. intros [[H1 H2] [H3 H4]]. auto.
Qed.

Definition far_apart (config : Config) (a b : Z) : Prop :=
  (MinSepBetweenNodeUpgrades config * 1000000 ≤ Z.abs (a - b))%Z.

Lemma separated_sorted config l :
  StronglySorted Z.le l → separated config l = true ↔ all_pairs (far_apart config) l.
Proof.
  induction 1 as [|a l Hl IH Ha]; [done|]. destruct l as [|b l]; [done|].
  cbn [separated]. cbn [all_pairs] in IH |- *. unfold far_apart at 1.
  apply Forall_cons in Ha as [Hab Ha]. pose proof (StronglySorted_inv Hl) as [_ Hb].
  destruct (Z.ltb_spec (b - a) (MinSepBetweenNodeUpgrades config * 1000000)) as [Hlt|Hge].
  - split; [done|]. intros [Hf _]. apply Forall_cons in Hf as [Hf _]. lia.
  - rewrite IH. split; [|tauto]. intros H. split; [|done]. constructor; [lia|].
    rewrite Forall_forall in Hb |- *. intros x Hx. specialize (Hb x Hx). lia.
Qed.

Section schedule_lemmas.
Context (parse_date : string → res Z) (show_time : Z → string).

Lemma schedule_times_spec now dates acc times :
  schedule_times parse_date show_time now false dates acc = Ok (inl times) ↔
  ∃ ws, times = acc ++ ws ∧ Forall2 (λ v w, parse_when parse_date v = Ok w) dates ws ∧
        Forall (λ w, now < w)%Z ws.
Proof.
  revert acc. induction dates as [|d dates IH]; intros acc; cbn [schedule_times].
  - split.
    + intros [= <-]. exists []. rewrite app_nil_r. repeat split; constructor.
    + intros (ws & -> & H & _). apply Forall2_nil_inv_l in H as ->. by rewrite app_nil_r.
  - destruct (parse_when parse_date d) as [w|e] eqn:E.
    + rewrite andb_true_r. destruct (Z.leb_spec w now) as [Hle|Hlt].
      * split; [done|]. intros (ws & _ & H & Hf). inversion H; subst. inversion Hf; subst.
        rewrite E in *. simplify_eq. lia.
      * rewrite IH. split.
        -- intros (ws & -> & H & Hf). exists (w :: ws). rewrite <- app_assoc. split; [done|].
           split; [by constructor|]. constructor; [lia|done].
        -- intros (ws & -> & H & Hf). inversion H as [|? w' ? ws' Hw Hws]; subst.
           inversion Hf; subst. rewrite E in Hw. injection Hw as <-.
           exists ws'. rewrite <- app_assoc. done.
    + split; [by destruct e|]. intros (ws & _ & H & _). inversion H; congruence.
Qed.
End schedule_lemmas.

(** ** Lemmas: searching the ledger *)

Section search_lemmas.
Context (ledger : list Txn) (p : Txn → bool).

Lemma getBySeqNo_ok i t : ledger !! i = Some t → getBySeqNo ledger (S i) = Ok t.
Proof. simpl. by intros ->. Qed.

(** The last transaction that satisfies the predicate. *)
Lemma search_back_spec n q :
  n ≤ length ledger → (∀ t, t ∈ ledger → q t = Ok (p t)) →
  ∃ r, search_back ledger q n = Ok r ∧
    match r with
    | Some t => ∃ i, i < n ∧ ledger !! i = Some t ∧ p t = true ∧
                  ∀ j u, i < j → j < n → ledger !! j = Some u → p u = false
    | None => ∀ j u, j < n → ledger !! j = Some u → p u = false
    end.
Proof.
  intros Hn Hq. induction n as [|n IH].
  { exists None. split; [done|]. intros. lia. }
  destruct (lookup_lt_is_Some_2 ledger n) as [t Ht]; [lia|].
  cbn [search_back]. rewrite (getBySeqNo_ok _ _ Ht). cbn [res_bind].
  rewrite (Hq t) by (by eapply list_elem_of_lookup_2). cbn [res_bind].
  destruct (p t) eqn:E.
  - exists (Some t). split; [done|]. exists n. split_and!; [lia|done|done|]. intros. lia.
  - destruct IH as (r & Hr & Hs); [lia|]. exists r. split; [done|]. destruct r as [u|].
    + destruct Hs as (i & Hi & Hu & Hp & Hall). exists i. split_and!; [lia|done|done|].
      intros j v Hij Hj Hv. destruct (decide (j = n)) as [->|]; [congruence|]. apply (Hall j); [lia..|done].
    + intros j v Hj Hv. destruct (decide (j = n)) as [->|]; [congruence|]. apply (Hs j); [lia|done].
Qed.

(** Whether a transaction from number [S i] on satisfies the predicate. *)
Lemma search_on_spec i fuel q :
  i + fuel = length ledger → (∀ t, t ∈ ledger → q t = Ok (p t)) →
  ∃ r, search_on ledger q (S i) fuel = Ok r ∧
    (is_Some r ↔ ∃ j u, i ≤ j ∧ ledger !! j = Some u ∧ p u = true).
Proof.
  revert i. induction fuel as [|fuel IH]; intros i Hi Hq.
  { exists None. split; [done|]. split; [by intros []|].
    intros (j & u & Hj & Hu & _). apply lookup_lt_Some in Hu. lia. }
  destruct (lookup_lt_is_Some_2 ledger i) as [t Ht]; [lia|].
  cbn [search_on]. rewrite (getBySeqNo_ok _ _ Ht). cbn [res_bind].
  rewrite (Hq t) by (by eapply list_elem_of_lookup_2). cbn [res_bind].
  destruct (p t) eqn:E.
  - exists (Some t). split; [done|]. split; [|by eexists]. intros _. exists i, t. done.
  - destruct (IH (S i)) as (r & Hr & Hs); [lia|done|]. exists r. split; [done|]. rewrite Hs.
    split; intros (j & u & Hj & Hu & Hp); exists j, u; split_and!; try done; [lia|].
    destruct (decide (i = j)) as [->|]; [congruence|lia].
Qed.
End search_lemmas.

(** A POOL_UPGRADE transaction has an action and a version. *)
Definition upgrade_txn_wf (t : Txn) : Prop :=
  get_type t = POOL_UPGRADE →
  ∃ a v, dget ACTION (get_payload_data t) = Some a ∧ dget VERSION (get_payload_data t) = Some v.

Definition start_txn (t : Txn) : bool :=
  str_eqb (get_type t) POOL_UPGRADE && py_eq (vget ACTION (get_payload_data t)) (VStr START).

Definition cancel_txn (start t : Txn) : bool :=
  str_eqb (get_type t) POOL_UPGRADE && py_eq (vget ACTION (get_payload_data t)) (VStr CANCEL) &&
  py_eq (vget VERSION (get_payload_data t)) (vget VERSION (get_payload_data start)).

Lemma is_start_ok t : upgrade_txn_wf t → is_start t = Ok (start_txn t).
Proof.
  unfold is_start, start_txn, upgrade_txn_wf. destruct (str_eqb _ _) eqn:E; [|done].
  intros (a & v & Ha & Hv); [by apply str_eqb_eq|]. unfold dgetitem, vget. by rewrite Ha.
Qed.

Lemma is_cancel_ok t u :
  upgrade_txn_wf t → get_type t = POOL_UPGRADE → upgrade_txn_wf u →
  is_cancel_of t u = Ok (cancel_txn t u).
Proof.
  intros Ht Hty Hu. destruct (Ht Hty) as (a' & v' & Ha' & Hv').
  unfold is_cancel_of, cancel_txn, upgrade_txn_wf in *.
  destruct (str_eqb (get_type u) POOL_UPGRADE) eqn:E; [|done].
  destruct (Hu (proj1 (str_eqb_eq _ _) E)) as (a & v & Ha & Hv).
  unfold dgetitem, vget. rewrite Ha, Hv, Hv'. cbn [res_bind andb].
  by destruct (py_eq a (VStr CANCEL)).
Qed.

(** A queue that keeps the delayed actions in a list. *)
#[export] Program Instance list_queue {T} : ActionQueue (list T) T :=
  {| aqStash q := q; aq_schedule q t d := if Z.ltb 0 d then q ++ [t] else q; aq_reset _ := [] |}.
Next Obligation. intros. simpl. by rewrite (proj2 (Z.ltb_lt 0 d)). Qed.
Next Obligation. intros. simpl. by rewrite (proj2 (Z.ltb_ge 0 d)). Qed.
Next Obligation. done. Qed.

(** ** Properties *)

(** C9. The upgrade log tells a consistent story.  Whatever transactions,
    callbacks, answers of the control tool and restarts a node goes through, for
    upgrades asked for a future time: in the log an upgrade is started or
    cancelled only directly after it was scheduled, and succeeds or fails only
    directly after it was started; the scheduled upgrade is the last one
    scheduled in the log; and a waiting callback is for the scheduled upgrade,
    so a cancelled one is never started. *)
Theorem upgrade_log_legal {Ver Q} ver_eqb src_version curr_pkg_info parse_date is_forced
    `{!ActionQueue Q (Task Ver)} config nodeId (s : UState) :
  reachable (Ver := Ver) ver_eqb src_version curr_pkg_info parse_date is_forced config nodeId s →
  legal (actionLog s) ∧
  (∀ d, scheduledAction s = Some d →
     ∃ e, last_event (actionLog s) = Some e ∧ ev_type e = scheduled ∧ data e = d) ∧
  (∀ d f, CallUpgradeAgent d f ∈ aqStash (queue s) → scheduledAction s = Some d).
Proof.
  intros H%reachable_inv. destruct H as [Hl Hc Hg]. split; [done|]. split; [done|].
  intros d f Hin. assert (CallUpgradeAgent d f ∈ calls (queue s)) as Hin'
    by (unfold calls; apply list_elem_of_filter; done).
  destruct Hc as [Hc|(d' & f' & Hs & Hc)]; rewrite Hc in Hin'; [by inversion Hin'|].
  apply list_elem_of_singleton in Hin'. injection Hin' as -> _. done.
Qed.

(** A node with integers for versions, and an upgrade of it at time 50. *)
Definition int_version (_ v : val) : option Z := match v with VInt n => Some n | _ => None end.
Definition sample_config : Config := {| UPGRADE_ENTRY := VStr APP_NAME; MinSepBetweenNodeUpgrades := 300 |}.
Definition sample_parse (s : string) : res Z :=
  match py_int s with Ok z => Ok z | Raise _ => Raise (ValueError "unknown string format") end.

Definition upgrade_txn (n : Z) (action : string) (ver : Z) (at_time : string) : Txn :=
  mkTxn POOL_UPGRADE [(ACTION, VStr action); (VERSION, VInt ver);
    (SCHEDULE, VDict [("N1", VStr at_time)])] (Some "T") (Some n) None None (Some n) (Some 1%Z).

Lemma upgrade_log_legal_witness :
  ∃ s : UState (Ver := Z) (Q := list (Task Z)),
    handleUpgradeTxn Z.eqb int_version sample_parse (λ _, false) sample_config "N1" 10
      (upgrade_txn 1 START 2 "50") (new_Upgrader Z.eqb (λ _, (Some 1%Z, [])) 5 [] []) = Ok s ∧
    legal (actionLog s) ∧ scheduledAction s ≠ None.
Proof.
  assert (∃ s : UState (Ver := Z) (Q := list (Task Z)),
    handleUpgradeTxn Z.eqb int_version sample_parse (λ _, false) sample_config "N1" 10
      (upgrade_txn 1 START 2 "50") (new_Upgrader Z.eqb (λ _, (Some 1%Z, [])) 5 [] []) = Ok s ∧
      scheduledAction s ≠ None) as (s & Hs & Hn).
  { eexists. split; [vm_compute; reflexivity|discriminate]. }
  exists s. split; [exact Hs|]. split; [|exact Hn].
  apply (upgrade_log_legal Z.eqb int_version (λ _, (Some 1%Z, [])) sample_parse (λ _, false)
    sample_config "N1" s).
  eapply reach_step; [apply (reach_new _ _ _ _ _ _ _ 5 []); reflexivity|].
  eapply step_txn; [|exact Hs]. intros d v w Hd Hv Hw.
  vm_compute in Hd. injection Hd as <-. vm_compute in Hv. injection Hv as <-.
  vm_compute in Hw. injection Hw as <-. lia.
Defined.

(** A schedule that is not forced is accepted exactly when it is one: its
    nodes are those with services, every time parses and is in the future, and
    any two upgrades are at least the configured span apart. *)
Theorem schedule_valid_iff parse_date show_time config now sched srvs :
  isScheduleValid parse_date config show_time now sched srvs false = Ok (true, "") ↔
  list_to_set (dkeys sched) =
    (list_to_set (map fst (filter (λ kv, py_truth kv.2 = true) srvs)) : gset string) ∧
  ∃ times, Forall2 (λ v w, parse_when parse_date v = Ok w) (map snd sched) times ∧
    Forall (λ w, now < w)%Z times ∧ all_pairs (far_apart config) times.
Proof.
  unfold isScheduleValid. cbn [negb andb]. case_bool_decide as Hk; cbn [negb]; [|naive_solver].
  assert (∀ l, separated config (merge_sort Z.le l) = true ↔ all_pairs (far_apart config) l) as Hsep.
  { intros l. rewrite separated_sorted by apply (StronglySorted_merge_sort Z.le).
    assert (∀ a b, far_apart config a b → far_apart config b a) by (unfold far_apart; intros; lia).
    split; apply all_pairs_perm; try done; [|symmetry]; apply merge_sort_Permutation. }
  split.
  - intros H. split; [done|]. bind H as times Ht.
    destruct times as [times|]; [|done].
    apply schedule_times_spec in Ht as (ws & -> & Hf & Hnow). exists ws. split_and!; try done.
    apply Hsep. cbn [app] in H. destruct (separated config (merge_sort Z.le ws)); [done|discriminate H].
  - intros [_ (times & Hf & Hnow & Hp)].
    rewrite (proj2 (schedule_times_spec parse_date show_time now (map snd sched) [] times))
      by (exists times; done).
    cbn [res_bind]. by rewrite (proj2 (Hsep times)).
Qed.

(** At start-up the node takes up the most recent upgrade of the config
    ledger: the last START counts, it is dropped when a later CANCEL names its
    version and handled otherwise, and a ledger without a START changes nothing;
    the search always ends with one of these answers. *)
Theorem process_ledger_latest {Ver Q} ver_eqb src_version parse_date is_forced
    `{!ActionQueue Q (Task Ver)} config nodeId now ledger (s : UState) :
  (∀ i t, ledger !! i = Some t → get_seq_no t = Some (Z.of_nat (S i))) →
  Forall upgrade_txn_wf ledger →
  let process := processLedger (Ver := Ver) ver_eqb src_version parse_date is_forced config nodeId in
  (process now ledger s = Ok s ∧ ∀ t, t ∈ ledger → start_txn t = false) ∨
  ∃ i t, ledger !! i = Some t ∧ start_txn t = true ∧
    (∀ j u, i < j → ledger !! j = Some u → start_txn u = false) ∧
    (process now ledger s = Ok s ∧ (∃ j u, i < j ∧ ledger !! j = Some u ∧ cancel_txn t u = true) ∨
     process now ledger s =
       handleUpgradeTxn ver_eqb src_version parse_date is_forced config nodeId now t s ∧
     ∀ j u, i < j → ledger !! j = Some u → cancel_txn t u = false).
Proof.
  intros Hseq Hwf process. unfold process, processLedger, get_upgrade_txn. cbn [default].
  rewrite Forall_forall in Hwf.
  destruct (search_back_spec ledger start_txn (length ledger) is_start) as (r & -> & Hr);
    [lia|intros; by apply is_start_ok, Hwf|]. cbn [res_bind].
  destruct r as [t|]; [right|left].
  2: { split; [done|]. intros t Ht. apply list_elem_of_lookup in Ht as [j Hj].
       apply (Hr j); [|done]. by apply lookup_lt_Some in Hj. }
  destruct Hr as (i & Hi & Ht & Hp & Hlast). exists i, t. split; [done|]. split; [done|].
  split. { intros j u Hij Hu. apply (Hlast j); try done. by apply lookup_lt_Some in Hu. }
  rewrite (Hseq i t Ht). cbn [res_bind]. rewrite Nat2Z.id. cbn [from_option id].
  assert (t ∈ ledger) as Hin by (by eapply list_elem_of_lookup_2).
  assert (get_type t = POOL_UPGRADE) as Hty
    by (apply str_eqb_eq; unfold start_txn in Hp; by apply andb_true_iff in Hp as [? _]).
  destruct (search_on_spec ledger (cancel_txn t) (S i) (S (length ledger) - S (S i)) (is_cancel_of t))
    as (c & -> & Hc); [lia|intros u Hu; by apply is_cancel_ok; [apply Hwf| |apply Hwf]|].
  cbn [res_bind]. destruct c as [u|]; [left|right]; (split; [done|]).
  - destruct (proj1 Hc ltac:(by eexists)) as (j & w & Hj & Hw & Hpw). by exists j, w.
  - intros j u Hj Hu. destruct (cancel_txn t u) eqn:E; [|done].
    assert (is_Some (@None Txn)) as [? ?] by (apply Hc; by exists j, u). done.
Qed.

Lemma process_ledger_latest_witness :
  ∃ s : UState (Ver := Z) (Q := list (Task Z)),
    processLedger Z.eqb int_version sample_parse (λ _, false) sample_config "N1" 10
      [upgrade_txn 1 START 2 "50"; upgrade_txn 2 CANCEL 2 "50"; upgrade_txn 3 START 3 "60"]
      (new_Upgrader Z.eqb (λ _, (Some 1%Z, [])) 5 [] []) = Ok s ∧
    scheduledAction s = Some (mkUpgradeLogData Z 60 3%Z "33" (VStr APP_NAME)).
Proof.
  set (ledger := [upgrade_txn 1 START 2 "50"; upgrade_txn 2 CANCEL 2 "50"; upgrade_txn 3 START 3 "60"]).
  set (s0 := new_Upgrader Z.eqb (λ _, (Some 1%Z, [])) 5 [] [] : UState (Ver := Z) (Q := list (Task Z))).
  destruct (process_ledger_latest Z.eqb int_version sample_parse (λ _, false) sample_config "N1" 10
    ledger s0) as [[_ H]|(i & t & Hi & _ & Hlast & H)].
  - intros i t Hi. do 3 (destruct i as [|i]; [injection Hi as <-; reflexivity|]). discriminate Hi.
  - repeat constructor; intros _; eexists _, _; split; reflexivity.
  - discriminate (H (upgrade_txn 3 START 3 "60") ltac:(unfold ledger; do 2 apply list_elem_of_further;
      apply list_elem_of_here)).
  - assert (i = 2) as ->.
    { destruct (decide (2 < i)) as [Hg|Hg]; [apply lookup_lt_Some in Hi; simpl in Hi; lia|].
      destruct (decide (i < 2)) as [Hl|Hl]; [|lia].
      discriminate (Hlast 2 (upgrade_txn 3 START 3 "60") Hl eq_refl). }
    injection Hi as <-. destruct H as [[_ (j & u & Hj & Hu & _)]|[H _]].
    + apply lookup_lt_Some in Hu. simpl in Hu. lia.
    + eexists. split; [rewrite H; vm_compute; reflexivity|reflexivity].
Defined.

(** The timeout of an upgrade is the number of minutes in the transaction only
    below a day: [timedelta.seconds] leaves out the days. *)
Theorem timeout_loses_days n :
  (0 ≤ n)%Z → get_timeout (VInt n) = Ok (60 * n)%Z ↔ (n < 1440)%Z.
Proof.
  intros Hn. unfold get_timeout. split.
  - intros [= H]. pose proof (Z.mod_pos_bound (60 * n) 86400 ltac:(lia)). lia.
  - intros Hlt. by rewrite Z.mod_small by lia.
Qed.
