(* ===== verification/PoolUpgrade.v ===== *)
(** * The handlers of the config ledger's upgrade and configuration requests

    [pool_upgrade_handler.py], [pool_config_handler.py] and
    [node_upgrade_handler.py] of [config_req_handlers], with
    [indy_node/server/pool_config.py].  The name of a package is cut at the first
    separator before it reaches the package manager, here and in
    [indy_node/utils/node_control_utils.py].  Parsing the version and asking the
    package manager can raise: the text of the exception is then the reason of the
    refusal. *)
From Stdlib Require Import Ascii.
From S2P Require Import Prelude PyValue Plenum Constants AuthActions AuthConstraints Authorizer AuthorizerSpec AuthStrategy AuthMap StateDomain IdrCache HandlerBase Upgrader.

Definition FORCE : string := "force".
Definition NAME : string := "name".
Definition WRITES : string := "writes".

(** ** The name of a package *)

(** Line breaks of [splitlines] and white space, among the ASCII characters. *)
Definition is_line_break (c : ascii) : bool :=
  let n := nat_of_ascii c in
  (Nat.leb 10 n && Nat.leb n 13) || (Nat.leb 28 n && Nat.leb n 30).

Definition is_space (c : ascii) : bool :=
  let n := nat_of_ascii c in
  (Nat.leb 9 n && Nat.leb n 13) || (Nat.leb 28 n && Nat.leb n 32).

(** [s.splitlines()[0]] of a text that is not empty. *)
Fixpoint first_line (s : string) : string :=
  match s with
  | "" => ""
  | String c s' => if is_line_break c then "" else String c (first_line s')
  end.

(** [re.split("\s+|;|&&|\|", s, 1)[0]]: the text before the first separator. *)
Fixpoint before_separator (s : string) : string :=
  match s with
  | "" => ""
  | String c s' =>
      if is_space c || Ascii.eqb c ";" || Ascii.eqb c "|" || String.prefix "&&" s then ""
      else String c (before_separator s')
  end.

Fixpoint rstrip (s : string) : string :=
  match s with
  | "" => ""
  | String c s' => match rstrip s' with
                   | "" => if is_space c then "" else String c ""
                   | r => String c r
                   end
  end.

Definition single_package (pkg : string) : string := rstrip (before_separator (first_line pkg)).

(** Text with no separator in it. *)
Fixpoint safe_name (s : string) : bool :=
  match s with
  | "" => true
  | String c s' =>
      negb (is_space c || Ascii.eqb c ";" || Ascii.eqb c "|" || String.prefix "&&" s) && safe_name s'
  end.

(** ** POOL_UPGRADE *)

Section PoolUpgrade.
Context {bytes CSt root S Ver : Type} `{!Serializer bytes, !State bytes CSt}.
Context `{!OptimisticStore S root} {RL : Rlp} (str_request : Request → string).
Context (ver_eqb ver_gtb : Ver → Ver → bool) (version_of : val → val → res Ver).
Context (pkg_info : val → res (option Ver * list string)) (str_exn : exn → string).
Context (parse_date : string → res Z) (show_time : Z → string) (config : Config).
Notation Validator := (WriteRequestValidator (St := CSt)).

(** [node_srvs] is the pool manager's [getNodesServices()]. *)
Definition pool_upgrade_static_validation (now : Z) (node_srvs : dict val) (request : Request) : res unit :=
  let! _ := validate_request_type POOL_UPGRADE request in
  let op := operation request in
  let action := vget ACTION op in
  if negb (py_eq action (VStr START) || py_eq action (VStr CANCEL))
  then Raise (invalid_request request (py_str action +:+ " not a valid action"))
  else if py_eq action (VStr START) then
    let sched := get_default SCHEDULE (VDict []) op in
    let force := str_eqb (py_str (vget FORCE op)) "True" in
    let! d := schedule_of sched in
    let! (isValid, msg) := isScheduleValid parse_date config show_time now d node_srvs force in
    if negb isValid
    then Raise (invalid_request request (py_str sched +:+ " not a valid schedule since " +:+ msg))
    else Ok tt
  else Ok tt.

(** The transaction the request is compared with: same name and version. *)
Definition same_upgrade (op : dict val) (txn : Txn) : res bool :=
  Ok (py_eq (vget NAME (get_payload_data txn)) (vget NAME op) &&
      py_eq (vget VERSION (get_payload_data txn)) (vget VERSION op)).

(** The status of the upgrade in the config ledger, ["*"] without one. *)
Definition upgrade_status (ledger : list Txn) (op : dict val) : res val :=
  let! txn := get_upgrade_txn ledger (same_upgrade op) None true in
  Ok match txn with Some t => get_default ACTION (VStr "*") (get_payload_data t) | None => VStr "*" end.

Definition upgrade_action (status action : val) : AuthAction :=
  if py_eq status (VStr "*") then AuthActionAdd POOL_UPGRADE (VStr ACTION) action true
  else AuthActionEdit POOL_UPGRADE (VStr ACTION) status action true.

(** The truth value of [operation.get(REINSTALL, False)]. *)
Definition reinstall_of (op : dict val) : bool := py_truth (get_default REINSTALL (VBool false) op).

Definition pool_upgrade_dynamic_validation (ledger : list Txn) (c : S) (v : Validator) (request : Request)
    : res Validator :=
  let! _ := validate_request_type POOL_UPGRADE request in
  let op := operation request in
  let action := vget ACTION op in
  let! status := upgrade_status ledger op in
  if py_eq status (VStr START) && py_eq action (VStr START)
  then Raise (invalid_request request ("Upgrade '" +:+ py_str (vget NAME op) +:+ "' is already scheduled"))
  else
  let! v' := validate_action str_request c v request (upgrade_action status action) in
  let pkg := get_default PACKAGE (UPGRADE_ENTRY config) op in
  if negb (py_truth pkg) then Raise (invalid_request request "Upgrade package name is empty") else
  let! pkg := match pkg with VStr s => Ok (single_package s) | _ => Raise AttributeError end in
  let! targetVersion := dgetitem VERSION op in
  let res := match check_upgrade_possible ver_eqb ver_gtb version_of pkg_info (VStr pkg) targetVersion
                     (reinstall_of op) with
             | Ok why => why
             | Raise exc => Some (str_exn exc)
             end in
  match res with
  | Some why => if str_truth why then Raise (invalid_request request why) else Ok v'
  | None => Ok v'
  end.

(** ** POOL_CONFIG *)

Definition pool_config_static_validation (request : Request) : res unit :=
  validate_request_type POOL_CONFIG request.

Definition pool_config_dynamic_validation (c : S) (v : Validator) (request : Request) : res Validator :=
  let! _ := validate_request_type POOL_CONFIG request in
  validate_action str_request c v request
    (AuthActionEdit POOL_CONFIG (VStr ACTION) (VStr "*") (VStr "*") true).
End PoolUpgrade.

(** ** NODE_UPGRADE: nobody may send it from outside *)

Definition node_upgrade_static_validation (request : Request) : res unit :=
  Raise (invalid_request request "External NODE_UPGRADE requests are not allowed").

Definition node_upgrade_dynamic_validation (request : Request) : res unit := Ok tt.

(** The three handlers keep no state. *)
Definition config_update_state {St} (state : St) (txn : Txn) : St := state.

(** ** PoolConfig *)

(** [self.writes] is whatever the transaction says. *)
Definition handleConfigTxn (writes : val) (txn : Txn) : res val :=
  if str_eqb (get_type txn) POOL_CONFIG then dgetitem WRITES (get_payload_data txn) else Ok writes.

Definition config_processLedger (writes : val) (ledger : list Txn) : res val :=
  res_fold (λ w txn, if str_eqb (get_type txn) POOL_CONFIG then handleConfigTxn w txn else Ok w)
    writes ledger.

(** ** Lemmas *)

Lemma before_separator_prefix s t :
  String.prefix "&&" (String t (before_separator s)) = true → String.prefix "&&" (String t s) = true.
Proof.
  destruct s as [|c s]; [done|]. cbn [before_separator].
  destruct (is_space c || _ || _ || _).
  - cbn [String.prefix]. by destruct (ascii_dec _ t).
  - cbn [String.prefix]. destruct (ascii_dec _ t); [|done]. by destruct (ascii_dec _ c), s.
Qed.

Lemma before_separator_safe s : safe_name (before_separator s) = true.
Proof.
  induction s as [|c s IH]; [done|]. cbn [before_separator].
  destruct (is_space c || Ascii.eqb c ";" || Ascii.eqb c "|" || String.prefix "&&" (String c s)) eqn:E; [done|].
  cbn [safe_name]. rewrite IH, andb_true_r. apply negb_true_iff.
  rewrite !orb_false_iff in E |- *. destruct E as [[[-> ->] ->] Hp]. split_and!; try done.
  destruct (String.prefix "&&" (String c (before_separator s))) eqn:E'; [|done].
  apply before_separator_prefix in E'. congruence.
Qed.

Lemma rstrip_id s : safe_name s = true → rstrip s = s.
Proof.
  induction s as [|c s IH]; [done|]. cbn [safe_name rstrip]. rewrite andb_true_iff.
  intros [Hc Hs]. rewrite (IH Hs). destruct s; [|done].
  rewrite negb_true_iff, !orb_false_iff in Hc. by destruct Hc as [[[-> _] _] _].
Qed.

Lemma single_package_safe pkg : safe_name (single_package pkg) = true.
Proof.
  unfold single_package. rewrite rstrip_id by apply before_separator_safe. apply before_separator_safe.
Qed.

Lemma check_possible {Ver} ver_eqb ver_gtb (version_of : val → val → res Ver) info pkg ver re :
  check_upgrade_possible ver_eqb ver_gtb version_of info pkg ver re = Ok None →
  ∃ target cur deps, version_of pkg ver = Ok target ∧ info pkg = Ok (Some cur, deps) ∧
    is_version_upgradable ver_eqb ver_gtb cur target re = true.
Proof.
  unfold check_upgrade_possible. destruct (version_of pkg ver) as [target|[]]; try done.
  destruct (info pkg) as [[[cur|] deps]|]; try done. cbn [res_bind]. destruct (_ && _); [done|].
  destruct (is_version_upgradable _ _ _ _ _) eqn:E; [|done]. eauto 6.
Qed.

Lemma check_reason_nonempty {Ver} ver_eqb ver_gtb (version_of : val → val → res Ver) info pkg ver re why :
  check_upgrade_possible ver_eqb ver_gtb version_of info pkg ver re = Ok (Some why) → str_truth why = true.
Proof.
  unfold check_upgrade_possible. destruct (version_of pkg ver) as [|[]]; try done; [|by intros [= <-]].
  destruct (info pkg) as [[[cur|] deps]|]; try done; cbn [res_bind]; [|by intros [= <-]].
  destruct (_ && _); [by intros [= <-]|]. destruct (negb _); by intros [= <-].
Qed.

(** After the ledger is processed the last POOL_CONFIG decides. *)
Lemma config_last_wins writes l1 t l2 w :
  get_type t = POOL_CONFIG → dget WRITES (get_payload_data t) = Some w →
  (∃ w0, config_processLedger writes l1 = Ok w0) → Forall (λ u, get_type u ≠ POOL_CONFIG) l2 →
  config_processLedger writes (l1 ++ t :: l2) = Ok w.
Proof.
  intros Ht Hw [w0 H1] H2. unfold config_processLedger in *. rewrite res_fold_app, H1.
  cbn [res_bind res_fold]. unfold handleConfigTxn, dgetitem. rewrite Ht, str_eqb_refl, Hw. cbn [res_bind].
  clear -H2. induction H2 as [|u l2 Hu _ IH]; [done|]. cbn [res_fold].
  by rewrite (proj2 (str_eqb_neq _ _) Hu).
Qed.

(** ** Properties *)

(** C14. What an accepted POOL_UPGRADE guarantees under the default rules: a
    trustee signed it; it does not start an upgrade that is already started; the
    package whose version is checked has a name without separators, is
    installed, and the target version is newer than the installed one, or equal
    to it for a reinstallation.  When parsing the version or asking the package
    manager fails, the text of the exception is the reason of the refusal; an
    exception without any text would be taken for a yes, so what is said of the
    package supposes that the errors of the check have one. *)
Theorem pool_upgrade_accepted {bytes CSt root S Ver} `{!Serializer bytes, !State bytes CSt,
    !OptimisticStore S root} {RL : Rlp} str_request (ver_eqb ver_gtb : Ver → Ver → bool) version_of info str_exn
    config ledger (c : S) (cs : CSt) metrics r author status v' :
  cache_wf c → identifier r = Some author →
  upgrade_status ledger (operation r) = Ok status →
  action_clean (upgrade_action status (vget ACTION (operation r))) = true →
  pool_upgrade_dynamic_validation str_request ver_eqb ver_gtb version_of info str_exn config ledger c
    (default_validator cs metrics) r = Ok v' →
  signed_with_role (λ i, getRole c i false) r author (Some TRUSTEE) ∧
  py_eq status (VStr START) && py_eq (vget ACTION (operation r)) (VStr START) = false ∧
  ((∀ pkg ver re e, check_upgrade_possible ver_eqb ver_gtb version_of info pkg ver re = Raise e →
      str_truth (str_exn e) = true) →
   ∃ text target cur deps ver, get_default PACKAGE (UPGRADE_ENTRY config) (operation r) = VStr text ∧
    safe_name (single_package text) = true ∧
    dget VERSION (operation r) = Some ver ∧ version_of (VStr (single_package text)) ver = Ok target ∧
    info (VStr (single_package text)) = Ok (Some cur, deps) ∧
    is_version_upgradable ver_eqb ver_gtb cur target (reinstall_of (operation r)) = true).
Proof.
  intros Hwf Hid Hst Hcl H. unfold pool_upgrade_dynamic_validation in H.
  bind H as _ _. rewrite Hst in H. cbn [res_bind] in H.
  destruct (py_eq status (VStr START) && _); [done|]. bind H as v1 Hv.
  destruct (validate_action_default str_request c cs metrics r _ v1 Hcl Hv) as [_ [res Hres]].
  pose proof (getRole_cache c Hwf) as HRC. split_and!; [|done|].
  - destruct (validate_default_passes (λ i, getRole c i false) str_request (λ am k,
      negb (str_eqb (ad_txn_type am) POOL_UPGRADE) || is_one_trustee k) cs metrics r author _ [] res
      ltac:(vm_compute; reflexivity) Hid Hcl Hres) as (am & k & Hm & HP & Hs).
    apply def_matches_true in Hm as (_ & Hm & _).
    assert (ad_txn_type am = POOL_UPGRADE) as Hty
      by (rewrite <- Hm; unfold upgrade_action; by destruct (py_eq status _)).
    rewrite Hty, str_eqb_refl in HP. cbn [negb orb] in HP. exact (is_one_trustee_signed _ _ _ _ _ HP Hs).
  - intros Hexn. destruct (negb (py_truth _)); [done|].
    destruct (get_default PACKAGE _ _) as [| | |text| |]; try done. cbn [res_bind] in H.
    bind H as ver Hver.
    destruct (check_upgrade_possible _ _ _ _ _ _ _) as [[why|]|e] eqn:E.
    { by rewrite (check_reason_nonempty _ _ _ _ _ _ _ _ E) in H. }
    2:{ by rewrite (Hexn _ _ _ _ E) in H. }
    apply check_possible in E as (target & cur & deps & ? & ? & ?).
    exists text, target, cur, deps, ver. split; [done|]. split; [apply single_package_safe|].
    unfold dgetitem in Hver. destruct (dget VERSION _); [|done]. injection Hver as ->. done.
Qed.

Definition trustee_cache : MapStore :=
  match IdrCache.set empty_store "T" (Some 1%Z) None None (Some TRUSTEE) (Some "kT") false with
  | Ok c => c
  | Raise _ => empty_store
  end.

Definition upgrade_request (pkg : string) : Request :=
  mkRequest (Some "T") (Some 1%Z)
    [(TXN_TYPE, VStr POOL_UPGRADE); (ACTION, VStr START); (NAME, VStr "u"); (VERSION, VInt 2);
     (PACKAGE, VStr pkg)] (Some "s") None None.

Definition int_res (pkg v : val) : res Z :=
  match int_version pkg v with Some n => Ok n | None => Raise (TypeError "expected string or bytes-like object") end.

(** An empty name fails as [splitlines()[0]] does. *)
Definition sample_info (pkg : val) : res (option Z * list string) :=
  if py_eq pkg (VStr "") then Raise IndexError
  else if py_eq pkg (VStr APP_NAME) then Ok (Some 1%Z, []) else Ok (None, []).

Definition sample_str (e : exn) : string :=
  match e with IndexError => "list index out of range" | TypeError m => m | _ => "error" end.

Lemma pool_upgrade_accepted_witness :
  signed_with_role (λ i, getRole trustee_cache i false) (upgrade_request "indy-node;x") "T" (Some TRUSTEE) ∧
  ∃ target, int_res (VStr "indy-node") (VInt 2) = Ok target ∧ is_version_upgradable Z.eqb Z.gtb 1%Z target false = true.
Proof.
  assert (∃ v', pool_upgrade_dynamic_validation (λ _, "") Z.eqb Z.gtb int_res sample_info sample_str sample_config
    [] trustee_cache (default_validator (∅ : gmap string val) false) (upgrade_request "indy-node;x") = Ok v')
    as [v' H] by (eexists; vm_compute; reflexivity).
  destruct (pool_upgrade_accepted (λ _, "") Z.eqb Z.gtb int_res sample_info sample_str sample_config []
    trustee_cache (∅ : gmap string val) false (upgrade_request "indy-node;x") "T" (VStr "*") v')
    as (H1 & _ & H2); [|reflexivity|reflexivity|reflexivity|exact H|].
  - apply (set_wf empty_store "T" (Some 1%Z) None None (Some TRUSTEE) (Some "kT") false);
      [exact empty_store_wf|discriminate|reflexivity].
  - split; [exact H1|]. destruct H2 as (text & target & cur & deps & ver & Ht & _ & Hv & Htv & Hc & Hu).
    { intros pkg ver re e He. unfold check_upgrade_possible, int_res, sample_info in He.
      destruct (int_version pkg ver); [|by injection He as <-].
      destruct (py_eq pkg (VStr "")); [by injection He as <-|]. by destruct (py_eq pkg (VStr APP_NAME)). }
    cbn in Ht. injection Ht as <-. cbn in Hv. injection Hv as <-. cbn in Hc. injection Hc as <- _.
    exists target. split; [exact Htv|exact Hu].
Defined.

(** A check that fails: the text of the exception is the answer to the client, a
    package whose name begins with a separator for example ... *)
Example failing_check_refused :
  pool_upgrade_dynamic_validation (λ _, "") Z.eqb Z.gtb int_res sample_info sample_str sample_config
    [] trustee_cache (default_validator (∅ : gmap string val) false) (upgrade_request ";x") =
  Raise (invalid_request (upgrade_request ";x") "list index out of range").
Proof. vm_compute. reflexivity. Qed.

(** ... but an exception whose text is empty passes for a positive answer. *)
Example silent_failure_accepted :
  is_Ok (pool_upgrade_dynamic_validation (λ _, "") Z.eqb Z.gtb int_res sample_info (λ _, "") sample_config
    [] trustee_cache (default_validator (∅ : gmap string val) false) (upgrade_request ";x")) = true.
Proof. vm_compute. reflexivity. Qed.

(** The name that was checked is not the name that is scheduled: the validation
    looks at the text before the separator, the upgrader keeps the whole text. *)
Example uncut_package_scheduled :
  ∃ v' s', pool_upgrade_dynamic_validation (λ _, "") Z.eqb Z.gtb int_res sample_info sample_str sample_config
      [] trustee_cache (default_validator (∅ : gmap string val) false) (upgrade_request "indy-node;x") = Ok v' ∧
    handleUpgradeTxn Z.eqb int_version sample_parse (λ _, false) sample_config "N1" 10
      (mkTxn POOL_UPGRADE ((SCHEDULE, VDict [("N1", VStr "50")]) :: operation (upgrade_request "indy-node;x"))
         (Some "T") (Some 1%Z) None None (Some 1%Z) (Some 1%Z))
      (new_Upgrader Z.eqb (λ _, (Some 1%Z, [])) 5 [] ([] : list (Task Z))) = Ok s' ∧
    scheduledAction s' = Some (mkUpgradeLogData Z 50 2%Z "11" (VStr "indy-node;x")).
Proof. eexists _, _. split; [vm_compute; reflexivity|]. split; [vm_compute; reflexivity|]. reflexivity. Qed.
