(* ===== verification/TxnVersion.v ===== *)
(** * The version of the pool

    [indy_node/server/txn_version_controller.py]: the version the pool runs at a
    time is learnt from the config ledger.  A POOL_UPGRADE tells how many nodes
    take part, and a version is taken once more than a third of them reported
    its completion.

    The sorted dictionary of versions is a list in the order of the times; votes
    are a map from versions to sets of senders. *)
From Stdlib Require Import Sorted.
From S2P Require Import Prelude PyValue Plenum Constants StateDomain Upgrader.

Definition COMPLETE : string := "complete".

Record Controller := mkController {
  versions : list (Z * string);
  faulty : Z;
  votes_for_new_version : gmap string (gset (option string))
}.

Definition new_TxnVersionController : Controller := mkController [] 0 ∅.

(** [d[k] = v] of a [SortedDict] *)
Fixpoint sorted_set (k : Z) (v : string) (d : list (Z * string)) : list (Z * string) :=
  match d with
  | [] => [(k, v)]
  | (k', v') :: d' =>
      if Z.ltb k k' then (k, v) :: d
      else if Z.eqb k k' then (k, v) :: d' else (k', v') :: sorted_set k v d'
  end.

(** The property [version]: the last item. *)
Definition current_version (c : Controller) : option string := snd <$> last (versions c).

(** The loop of [get_pool_version]. *)
Fixpoint version_at (timestamp : Z) (last_version : option string) (items : list (Z * string))
    : option string :=
  match items with
  | [] => last_version
  | (upgrade_tm, version) :: items' =>
      if Z.ltb timestamp upgrade_tm then last_version else version_at timestamp (Some version) items'
  end.

Definition get_pool_version (c : Controller) (timestamp : option Z) : option string :=
  match timestamp with
  | None => current_version c
  | Some t => version_at t None (versions c)
  end.

(** [len] of the schedule *)
Definition schedule_len (v : val) : res Z :=
  match v with
  | VDict d => Ok (Z.of_nat (length d))
  | VList l => Ok (Z.of_nat (length l))
  | VStr s => Ok (Z.of_nat (String.length s))
  | _ => Raise (TypeError "object has no len()")
  end.

(** Versions and times are keys of dictionaries: text and numbers. *)
Definition version_key (v : val) : res string :=
  match v with VStr s => Ok s | _ => Raise (TypeError "version must be text") end.

Definition time_key (t : option Z) : res Z :=
  match t with Some z => Ok z | None => Raise (TypeError "time must be a number") end.

(** A completed upgrade of one node. *)
Definition add_vote (c : Controller) (version : string) (sender : option string) : gset (option string) :=
  {[ sender ]} ∪ default ∅ (votes_for_new_version c !! version).

Definition count_vote (c : Controller) (version : string) (sender : option string) (time : option Z)
    : res Controller :=
  let votes := <[version := add_vote c version sender]> (votes_for_new_version c) in
  if Z.ltb (faulty c) (Z.of_nat (size (add_vote c version sender))) then
    let! t := time_key time in
    Ok (mkController (sorted_set t version (versions c)) (faulty c)
          (filter (λ vs, String.ltb version vs.1 = true) votes))
  else Ok (mkController (versions c) (faulty c) votes).

Definition update_version (c : Controller) (txn : Txn) : res Controller :=
  let data := get_payload_data txn in
  if str_eqb (get_type txn) POOL_UPGRADE && py_eq (vget ACTION data) (VStr START) then
    let! n := schedule_len (get_default SCHEDULE (VDict []) data) in
    Ok (mkController (versions c) (Z.div (n - 1) 3) (votes_for_new_version c))
  else if str_eqb (get_type txn) NODE_UPGRADE then
    let! d := dgetitem DATA data in
    let! action := vgetitem ACTION d in
    if py_eq action (VStr COMPLETE) then
      let! v := vgetitem VERSION d in
      let! v := version_key v in
      count_vote c v (get_from txn) (get_txn_time txn)
    else Ok c
  else Ok c.

(** ** Specification *)

(** The version a transaction votes for. *)
Definition voted (txn : Txn) : option string :=
  if str_eqb (get_type txn) NODE_UPGRADE then
    match dget DATA (get_payload_data txn) with
    | Some (VDict d) =>
        match dget ACTION d, dget VERSION d with
        | Some a, Some (VStr v) => if py_eq a (VStr COMPLETE) then Some v else None
        | _, _ => None
        end
    | _ => None
    end
  else None.

(** The nodes that reported a version in a ledger. *)
Definition voters (version : string) (ledger : list Txn) : gset (option string) :=
  list_to_set (map get_from (filter (λ t, voted t = Some version) ledger)).

(** The number of nodes an upgrade is started for. *)
Definition started (txn : Txn) : option Z :=
  let data := get_payload_data txn in
  if str_eqb (get_type txn) POOL_UPGRADE && py_eq (vget ACTION data) (VStr START)
  then match schedule_len (get_default SCHEDULE (VDict []) data) with Ok n => Some n | Raise _ => None end
  else None.

(** The [f] of the upgrade started last in a ledger: a third of the nodes other
    than one, and none before any upgrade. *)
Definition last_f (ledger : list Txn) : Z :=
  match last (omap started ledger) with Some n => ((n - 1) / 3)%Z | None => 0%Z end.

(** ** Lemmas *)

Lemma voters_snoc v l t :
  voters v (l ++ [t]) =
    if bool_decide (voted t = Some v) then voters v l ∪ {[ get_from t ]} else voters v l.
Proof.
  unfold voters. rewrite filter_app, map_app, list_to_set_app_L.
  case_bool_decide as H.
  - rewrite filter_cons_True by done. simpl. set_solver.
  - rewrite filter_cons_False by done. simpl. set_solver.
Qed.

(** What one transaction does. *)
Lemma update_version_cases c txn c' :
  update_version c txn = Ok c' →
  (voted txn = None ∧ versions c' = versions c ∧
   votes_for_new_version c' = votes_for_new_version c) ∨
  ∃ v, voted txn = Some v ∧ count_vote c v (get_from txn) (get_txn_time txn) = Ok c'.
Proof.
  unfold update_version, voted. intros H. destruct (str_eqb (get_type txn) POOL_UPGRADE) eqn:Ep.
  - apply str_eqb_eq in Ep. left. rewrite Ep in *. cbn [andb] in H.
    destruct (py_eq _ _); [apply res_bind_Ok in H as (n & _ & [= <-])|injection H as <-]; done.
  - cbn [andb] in H. destruct (str_eqb (get_type txn) NODE_UPGRADE); [|left; by injection H as <-].
    bind H as d Hd. bind H as a Ha.
    unfold dgetitem in Hd. destruct (dget DATA _) as [d'|]; [|done]. injection Hd as ->.
    destruct d as [| | | | |d]; try done. cbn [vgetitem] in Ha. unfold dgetitem in Ha.
    destruct (dget ACTION d) as [a'|]; [|done]. injection Ha as ->.
    destruct (py_eq a (VStr COMPLETE)) eqn:Ea.
    + bind H as w Hw. bind H as v Hv.
      cbn [vgetitem] in Hw. unfold dgetitem in Hw. destruct (dget VERSION d) as [w'|]; [|done].
      injection Hw as ->. destruct w; try done. injection Hv as ->. right. eauto.
    + left. injection H as <-. split; [|done]. by destruct (dget VERSION d) as [[]|].
Qed.

(** Every counted vote is in the ledger. *)
Definition votes_sound (c : Controller) (ledger : list Txn) : Prop :=
  ∀ v s, votes_for_new_version c !! v = Some s → s ⊆ voters v ledger.

Lemma add_vote_sound c l v s txn :
  votes_sound c l → voted txn = Some v → s = get_from txn →
  add_vote c v s ⊆ voters v (l ++ [txn]).
Proof.
  intros Hs Hv ->. unfold add_vote. rewrite voters_snoc, bool_decide_eq_true_2 by done.
  destruct (votes_for_new_version c !! v) as [x|] eqn:E; simpl; [|set_solver].
  specialize (Hs v x E). set_solver.
Qed.

Lemma voters_grow v l t : voters v l ⊆ voters v (l ++ [t]).
Proof. rewrite voters_snoc. case_bool_decide; set_solver. Qed.

Lemma update_sound c l txn c' :
  votes_sound c l → update_version c txn = Ok c' → votes_sound c' (l ++ [txn]).
Proof.
  intros Hs H. destruct (update_version_cases c txn c' H) as [(_ & _ & Hv)|(v & Hv & Hc)].
  - intros w s. rewrite Hv. intros Hw. etrans; [by apply (Hs w)|apply voters_grow].
  - pose proof (add_vote_sound c l v _ txn Hs Hv eq_refl) as Ha.
    assert (∀ w s, <[v := add_vote c v (get_from txn)]> (votes_for_new_version c) !! w = Some s →
      s ⊆ voters w (l ++ [txn])) as Hins.
    { intros w s. destruct (decide (v = w)) as [->|Hne].
      - rewrite lookup_insert_eq. by intros [= <-].
      - rewrite lookup_insert_ne by done. intros Hw. etrans; [by apply (Hs w)|apply voters_grow]. }
    unfold count_vote in Hc. destruct (Z.ltb _ _).
    + apply res_bind_Ok in Hc as (t & _ & [= <-]). intros w s. cbn [votes_for_new_version].
      rewrite map_lookup_filter_Some. intros [Hw _]. by apply Hins.
    + injection Hc as <-. exact Hins.
Qed.

(** The controller holds the [f] of the upgrade started last. *)
Lemma last_f_snoc l t :
  last_f (l ++ [t]) = match started t with Some n => ((n - 1) / 3)%Z | None => last_f l end.
Proof.
  unfold last_f. rewrite omap_app, last_app. cbn [omap list_omap].
  by destruct (started t).
Qed.

Lemma count_vote_faulty c v s t c' : count_vote c v s t = Ok c' → faulty c' = faulty c.
Proof.
  unfold count_vote. destruct (Z.ltb _ _); [|by intros [= <-]].
  intros H. by apply res_bind_Ok in H as (? & _ & [= <-]).
Qed.

Lemma update_faulty c l txn c' :
  faulty c = last_f l → update_version c txn = Ok c' → faulty c' = last_f (l ++ [txn]).
Proof.
  intros Hf H. rewrite last_f_snoc. unfold update_version, started in *.
  destruct (str_eqb (get_type txn) POOL_UPGRADE && _).
  { by apply res_bind_Ok in H as (n & -> & [= <-]). }
  destruct (str_eqb (get_type txn) NODE_UPGRADE); [|by injection H as <-].
  bind H as d _. bind H as a _. destruct (py_eq a _); [|by injection H as <-].
  bind H as w _. bind H as v _. by rewrite (count_vote_faulty _ _ _ _ _ H).
Qed.

(** As long as no version was taken no vote was dropped. *)
Definition votes_complete (c : Controller) (ledger : list Txn) : Prop :=
  versions c = [] → ∀ v, default ∅ (votes_for_new_version c !! v) = voters v ledger.

Lemma sorted_set_ne k v d : sorted_set k v d ≠ [].
Proof. destruct d as [|[k' v'] d]; cbn; [done|]. by repeat case_match. Qed.

Lemma add_vote_complete c l v txn :
  versions c = [] → votes_complete c l → voted txn = Some v →
  add_vote c v (get_from txn) = voters v (l ++ [txn]).
Proof.
  intros He Hc Hv. unfold add_vote. rewrite (Hc He), voters_snoc, bool_decide_eq_true_2 by done.
  apply union_comm_L.
Qed.

Lemma update_complete c l txn c' :
  votes_complete c l → update_version c txn = Ok c' → votes_complete c' (l ++ [txn]).
Proof.
  intros Hc H. destruct (update_version_cases c txn c' H) as [(Hno & Hve & Hv)|(v & Hv & H1)].
  - intros He w. rewrite Hve in He. rewrite Hv, voters_snoc, bool_decide_eq_false_2 by congruence. by apply Hc.
  - unfold count_vote in H1. destruct (Z.ltb _ _).
    { apply res_bind_Ok in H1 as (t & _ & [= <-]). intros He. by apply sorted_set_ne in He. }
    injection H1 as <-. intros He w. cbn in He |- *. destruct (decide (v = w)) as [->|Hne].
    + rewrite lookup_insert_eq. cbn. by apply add_vote_complete.
    + rewrite lookup_insert_ne, voters_snoc, bool_decide_eq_false_2 by congruence. by apply Hc.
Qed.

(** What holds of the controller that has read a ledger. *)
Record tracks (c : Controller) (ledger : list Txn) : Prop := {
  tracks_votes : votes_sound c ledger;
  tracks_faulty : faulty c = last_f ledger;
  tracks_complete : votes_complete c ledger
}.

Lemma run_tracks l c0 c l0 :
  tracks c0 l0 → res_fold update_version c0 l = Ok c → tracks c (l0 ++ l).
Proof.
  revert c0 l0. induction l as [|t l IH]; intros c0 l0 Hs H; cbn [res_fold] in H.
  - injection H as <-. by rewrite app_nil_r.
  - bind H as c1 Hc1.
    replace (l0 ++ t :: l) with ((l0 ++ [t]) ++ l) by (by rewrite <- app_assoc).
    eapply IH; [|done]. destruct Hs as [H1 H2 H3].
    split; [by eapply update_sound|by eapply update_faulty|by eapply update_complete].
Qed.

Lemma new_tracks : tracks new_TxnVersionController [].
Proof.
  split; [|done|].
  - intros v s. cbn [votes_for_new_version new_TxnVersionController]. by rewrite lookup_empty.
  - intros _ v. cbn [votes_for_new_version new_TxnVersionController]. by rewrite lookup_empty.
Qed.

(** The versions stay sorted by time, each time once. *)
Definition sorted_times (d : list (Z * string)) : Prop := StronglySorted Z.lt (map fst d).

Lemma sorted_set_in k v d k' : k' ∈ map fst (sorted_set k v d) → k' = k ∨ k' ∈ map fst d.
Proof.
  induction d as [|[k0 v0] d IH]; cbn [sorted_set].
  - simpl. intros H%list_elem_of_singleton. auto.
  - destruct (Z.ltb k k0); [simpl; rewrite !elem_of_cons; naive_solver|].
    destruct (Z.eqb_spec k k0) as [->|]; simpl; rewrite !elem_of_cons; naive_solver.
Qed.

Lemma sorted_set_sorted k v d : sorted_times d → sorted_times (sorted_set k v d).
Proof.
  unfold sorted_times. induction d as [|[k0 v0] d IH]; intros H; cbn [sorted_set].
  - repeat constructor.
  - cbn [map fst] in H. apply StronglySorted_inv in H as [Hd Hk0].
    destruct (Z.ltb_spec k k0) as [Hlt|Hge].
    + constructor; [by constructor|]. constructor; [done|]. cbn [map fst].
      rewrite Forall_forall in Hk0 |- *. intros x Hx. specialize (Hk0 x Hx). lia.
    + destruct (Z.eqb_spec k k0) as [->|Hne]; [by constructor|]. cbn [map fst].
      constructor; [by apply IH|]. rewrite Forall_forall in Hk0 |- *.
      intros x [->|Hx]%sorted_set_in; [lia|by apply Hk0].
Qed.

(** Setting a key of a sorted dictionary. *)
Lemma sorted_set_elem k v d k' v' :
  sorted_times d →
  (k', v') ∈ sorted_set k v d ↔ if decide (k' = k) then v' = v else (k', v') ∈ d.
Proof.
  unfold sorted_times. induction d as [|[k0 v0] d IH]; intros H; cbn [sorted_set].
  { destruct (decide (k' = k)) as [->|Hk]; rewrite elem_of_cons, !elem_of_nil.
    - split; [intros [[= ->]|[]]; done|intros ->; by left].
    - split; [intros [[= ? ?]|[]]; done|intros []]. }
  cbn [map fst] in H. apply StronglySorted_inv in H as [Hd Hk0].
  assert (∀ x w, (x, w) ∈ d → k0 < x)%Z as Hgt.
  { intros x w Hx. rewrite Forall_forall in Hk0. apply Hk0. apply list_elem_of_fmap. by exists (x, w). }
  destruct (Z.ltb_spec k k0) as [Hlt|Hge]; [|destruct (Z.eqb_spec k k0) as [->|Hne]];
    rewrite !elem_of_cons, ?IH by done.
  - destruct (decide (k' = k)) as [->|Hk].
    + split; [|intros ->; by left]. intros [[= ->]|[[= ? ?]|Hx%Hgt]]; [done|lia..].
    + rewrite elem_of_cons. split; [|by right]. by intros [[= ? ?]|?].
  - destruct (decide (k' = k0)) as [->|Hk].
    + split; [|intros ->; by left]. intros [[= ->]|Hx%Hgt]; [done|lia].
    + rewrite elem_of_cons. split; (intros [[= ? ?]|?]; [done|by right]).
  - destruct (decide (k' = k)) as [->|Hk]; [|by rewrite elem_of_cons]. split; [|by right].
    by intros [[= ? ?]|?].
Qed.

Lemma update_sorted c txn c' :
  sorted_times (versions c) → update_version c txn = Ok c' → sorted_times (versions c').
Proof.
  intros Hs H. destruct (update_version_cases c txn c' H) as [(_ & -> & _)|(v & _ & Hc)]; [done|].
  unfold count_vote in Hc. destruct (Z.ltb _ _); [|by injection Hc as <-].
  apply res_bind_Ok in Hc as (t & _ & [= <-]). by apply sorted_set_sorted.
Qed.

Lemma run_sorted l c0 c :
  sorted_times (versions c0) → res_fold update_version c0 l = Ok c → sorted_times (versions c).
Proof.
  revert c0. induction l as [|t l IH]; intros c0 Hs H; cbn [res_fold] in H; [by injection H as <-|].
  bind H as c1 Hc1. eapply IH; [|done]. by eapply update_sorted.
Qed.

Lemma version_at_filter t items acc :
  sorted_times items →
  version_at t acc items =
    match last (filter (λ kv, kv.1 ≤ t)%Z items) with Some kv => Some kv.2 | None => acc end.
Proof.
  unfold sorted_times. revert acc. induction items as [|[k v] items IH]; intros acc H; [done|].
  cbn [map fst] in H. apply StronglySorted_inv in H as [Hs Hk]. cbn [version_at].
  destruct (Z.ltb_spec t k) as [Hlt|Hge].
  - rewrite filter_cons_False by (simpl; lia).
    assert (filter (λ kv, kv.1 ≤ t)%Z items = []) as ->; [|done].
    clear IH Hs. induction items as [|[k' v'] items IH]; [done|]. cbn [map fst] in Hk.
    apply Forall_cons in Hk as [Hk' Hk]. rewrite filter_cons_False by (simpl; lia). by apply IH.
  - rewrite filter_cons_True by (simpl; lia). rewrite IH by done. rewrite last_cons.
    by destruct (last (filter _ items)).
Qed.

(** ** Properties *)

(** C13. A version is taken on the word of more than [f] nodes, where [f] is a
    third of the other nodes in the schedule of the upgrade started last.  For a
    controller that has read a ledger, a further transaction either leaves the
    versions as they are, or it reports the completion of a version that more than
    [f] senders, each counted once, reported in the ledger, and that version is
    the one recorded, at the time of the transaction, with the versions of all
    other times as they were.  The first version is taken as soon as that many
    reported it. *)
Theorem version_needs_quorum ledger txn c c' :
  res_fold update_version new_TxnVersionController ledger = Ok c →
  update_version c txn = Ok c' →
  (versions c' = versions c ∨
   ∃ v t, voted txn = Some v ∧ get_txn_time txn = Some t ∧
     (last_f ledger < Z.of_nat (size (voters v (ledger ++ [txn]))))%Z ∧
     ∀ t' v', (t', v') ∈ versions c' ↔ if decide (t' = t) then v' = v else (t', v') ∈ versions c) ∧
  (∀ v, versions c = [] → voted txn = Some v →
     (last_f ledger < Z.of_nat (size (voters v (ledger ++ [txn]))))%Z →
     current_version c' = Some v).
Proof.
  intros Hrun H.
  destruct (run_tracks ledger new_TxnVersionController c [] new_tracks Hrun) as [Hs Hf Hcomp].
  assert (sorted_times (versions c)) as Hsort by (eapply run_sorted; [|exact Hrun]; constructor).
  rewrite app_nil_l in *.
  destruct (update_version_cases c txn c' H) as [(Hno & Hv & _)|(v & Hv & Hc)].
  { split; [by left|]. intros v _ Hv'. congruence. }
  unfold count_vote in Hc.
  destruct (Z.ltb_spec (faulty c) (Z.of_nat (size (add_vote c v (get_from txn))))) as [Hlt|Hge].
  - apply res_bind_Ok in Hc as (t & Ht & [= <-]). cbn [versions]. split.
    + right. exists v, t. split; [done|]. split; [by destruct (get_txn_time txn); simplify_eq/=|].
      split; [|intros t' v'; by apply sorted_set_elem].
      pose proof (subseteq_size _ _ (add_vote_sound c ledger v _ txn Hs Hv eq_refl)). lia.
    + intros v' He Hv' _. unfold current_version. cbn [versions]. rewrite He. cbn. congruence.
  - injection Hc as <-. split; [by left|]. intros v' He Hv' Hq. exfalso.
    rewrite Hv in Hv'. injection Hv' as <-.
    rewrite (add_vote_complete c ledger v txn He Hcomp Hv) in Hge. lia.
Qed.

Definition start_of (nodes : list string) : Txn :=
  mkTxn POOL_UPGRADE [(ACTION, VStr START); (SCHEDULE, VDict (map (λ n, (n, VStr "t")) nodes))]
    (Some "T") (Some 1%Z) None None (Some 1%Z) (Some 1%Z).

Definition completed (node version : string) (time : Z) : Txn :=
  mkTxn NODE_UPGRADE [(DATA, VDict [(ACTION, VStr COMPLETE); (VERSION, VStr version)])]
    (Some node) None None None None (Some time).

Lemma version_needs_quorum_witness :
  ∃ c c', update_version c (completed "B" "1.2.0" 20) = Ok c' ∧ versions c = [] ∧
    (1 < Z.of_nat (size (voters "1.2.0" [start_of ["A"; "B"; "C"; "D"]; completed "A" "1.2.0" 10;
                                         completed "B" "1.2.0" 20])))%Z ∧
    current_version c' = Some "1.2.0".
Proof.
  assert (∃ c, res_fold update_version new_TxnVersionController
    [start_of ["A"; "B"; "C"; "D"]; completed "A" "1.2.0" 10] = Ok c ∧ versions c = [] ∧
    ∃ c', update_version c (completed "B" "1.2.0" 20) = Ok c') as (c & Hc & Hv & c' & Hc').
  { eexists. split; [vm_compute; reflexivity|]. split; [reflexivity|]. eexists. vm_compute. reflexivity. }
  assert (1 < Z.of_nat (size (voters "1.2.0" [start_of ["A"; "B"; "C"; "D"]; completed "A" "1.2.0" 10;
    completed "B" "1.2.0" 20])))%Z as Hq by (vm_compute; reflexivity).
  destruct (version_needs_quorum [start_of ["A"; "B"; "C"; "D"]; completed "A" "1.2.0" 10]
    (completed "B" "1.2.0" 20) c c' Hc Hc') as [_ Hfirst].
  exists c, c'. split; [exact Hc'|]. split; [exact Hv|]. split; [exact Hq|].
  apply (Hfirst "1.2.0" Hv eq_refl). exact Hq.
Defined.

(** The version of the pool at a time is the one taken last at or before
    that time, for every history of the config ledger; without a time it is the
    one taken last. *)
Theorem pool_version_at ledger c t :
  res_fold update_version new_TxnVersionController ledger = Ok c →
  get_pool_version c (Some t) = snd <$> last (filter (λ kv, kv.1 ≤ t)%Z (versions c)) ∧
  get_pool_version c None = snd <$> last (versions c).
Proof.
  intros H. split; [|done]. unfold get_pool_version. rewrite version_at_filter.
  - by destruct (last (filter _ (versions c))).
  - eapply run_sorted; [|done]. constructor.
Qed.

Lemma pool_version_at_witness :
  ∃ c, res_fold update_version new_TxnVersionController
      [start_of ["A"]; completed "A" "1.2.0" 10; completed "A" "1.3.0" 30] = Ok c ∧
    get_pool_version c (Some 20%Z) = Some "1.2.0".
Proof.
  assert (∃ c, res_fold update_version new_TxnVersionController
    [start_of ["A"]; completed "A" "1.2.0" 10; completed "A" "1.3.0" 30] = Ok c ∧
    versions c = [(10%Z, "1.2.0"); (30%Z, "1.3.0")]) as (c & Hc & Hv)
    by (eexists; split; [vm_compute; reflexivity|reflexivity]).
  exists c. split; [exact Hc|].
  rewrite (proj1 (pool_version_at _ c 20 Hc)), Hv. reflexivity.
Defined.

(** Votes are pruned by the order of texts, in which 1.10.0 comes before 1.9.0:
    a report of 1.10.0 that came early is forgotten when 1.9.0 is taken. *)
Example vote_lost_by_text_order :
  ∃ c, res_fold update_version new_TxnVersionController
      [start_of ["A"; "B"; "C"; "D"]; completed "A" "1.10.0" 10; completed "B" "1.9.0" 11;
       completed "C" "1.9.0" 12; completed "B" "1.10.0" 13] = Ok c ∧
    size (voters "1.10.0" [completed "A" "1.10.0" 10; completed "B" "1.10.0" 13]) = 2 ∧
    current_version c = Some "1.9.0".
Proof. eexists. split; [vm_compute; reflexivity|]. split; [vm_compute; reflexivity|reflexivity]. Qed.
