(* ===== verification/RichSchema.v ===== *)
(** * Rich schema objects

    [domain_req_handlers/rich_schema/]: the handler of the six kinds of rich
    schema objects and the checks of the content of each kind, and the two
    queries of [read_req_handlers/rich_schema/].  An object is kept under its
    identifier, and its identifier under the key of its type, name and version.

    [json_loads] is plenum's [JsonSerializer.loads], which raises [ValueError]
    for text that is not JSON. *)
From stdpp Require Import sorting.
From Stdlib Require Import Ascii.
From S2P Require Import Prelude PyValue Plenum Constants AuthActions AuthConstraints Authorizer AuthorizerSpec AuthStrategy AuthMap StateDomain IdrCache HandlerBase DefinitionHandlers.

Definition RS_ID : string := "id".
Definition RS_TYPE : string := "rsType".
Definition RS_NAME : string := "rsName".
Definition RS_VERSION : string := "rsVersion".
Definition RS_CONTENT : string := "content".
Definition RS_FROM : string := "from".
Definition RS_ENDORSER : string := "endorser".
Definition RS_VER : string := "ver".
Definition JSON_LD_CONTEXT_FIELD : string := "@context".
Definition JSON_LD_ID_FIELD : string := "@id".
Definition JSON_LD_TYPE_FIELD : string := "@type".
Definition RS_SCHEMA_TYPE_VALUE : string := "sch".
Definition RS_ENCODING_TYPE_VALUE : string := "enc".
Definition RS_MAPPING_TYPE_VALUE : string := "map".
Definition RS_MAPPING_ENC : string := "enc".
Definition RS_MAPPING_RANK : string := "rank".
Definition RS_MAPPING_ATTRIBUTES : string := "attributes".
Definition RS_MAPPING_SCHEMA : string := "schema".
Definition RS_CRED_DEF_SCHEMA : string := "schema".
Definition RS_CRED_DEF_MAPPING : string := "mapping".
Definition GET_RICH_SCHEMA_OBJECT_BY_ID : string := "300".
Definition GET_RICH_SCHEMA_OBJECT_BY_METADATA : string := "301".

(** The six handlers. *)
Inductive RichKind :=
| JsonLdContext | RichSchemaKind | RichEncoding | RichMapping | RichCredDef | RichPresDef.

Definition rich_txn_type (k : RichKind) : string :=
  match k with
  | JsonLdContext => JSON_LD_CONTEXT
  | RichSchemaKind => RICH_SCHEMA
  | RichEncoding => RICH_SCHEMA_ENCODING
  | RichMapping => RICH_SCHEMA_MAPPING
  | RichCredDef => RICH_SCHEMA_CRED_DEF
  | RichPresDef => RICH_SCHEMA_PRES_DEF
  end.

Definition is_json_ld_content (k : RichKind) : bool :=
  match k with RichSchemaKind | RichMapping | RichPresDef => true | _ => false end.

(** ** Content checks *)

Definition quoted (s : string) : string := "'" +:+ s +:+ "'".

Definition double_quoted (v : val) : string :=
  String dquote EmptyString +:+ py_str v +:+ String dquote EmptyString.

(** The fields of [content] that are missing or empty. *)
Fixpoint missing_fields (content : val) (fields : list string) : res (list string) :=
  match fields with
  | [] => Ok []
  | f :: fields' =>
      let! v := vget_attr f content in
      let! rest := missing_fields content fields' in
      Ok (if py_truth v then rest else quoted f :: rest)
  end.

Definition require_fields (request : Request) (content : val) (fields : list string) (sep tail : string)
    : res unit :=
  let! missing := missing_fields content fields in
  match missing with
  | [] => Ok tt
  | _ => Raise (invalid_request request (py_join sep missing +:+ tail))
  end.

(** [\w] on the ASCII characters, and the match of [URI_REGEX] at the start:
    a scheme and a colon, then two slashes and a host, or a method and an id. *)
Definition is_word (c : ascii) : bool :=
  let n := nat_of_ascii c in
  (Nat.leb 48 n && Nat.leb n 57) || (Nat.leb 65 n && Nat.leb n 90) || (Nat.leb 97 n && Nat.leb n 122) ||
  Nat.eqb n 95.

(** The text after the longest run of word characters, if the run is not empty. *)
Fixpoint skip_word (s : string) : string :=
  match s with
  | String c s' => if is_word c then skip_word s' else s
  | "" => ""
  end.

Definition after_word (s : string) : option string :=
  match s with String c s' => if is_word c then Some (skip_word s') else None | "" => None end.

Definition after_colon (s : string) : option string :=
  match s with String ":" s' => Some s' | _ => None end.

Definition host_follows (s : string) : bool :=
  match s with String "/" (String "/" (String c _)) => is_word c || Ascii.eqb c "." | _ => false end.

Definition method_follows (s : string) : bool :=
  match (after_word s ≫= after_colon) ≫= after_word with Some _ => true | None => false end.

Definition bad_uri (uri : string) : bool :=
  match after_word uri ≫= after_colon with
  | Some rest => negb (host_follows rest || method_follows rest)
  | None => true
  end.

Definition bad_uri_val (v : val) : res bool :=
  match v with VStr s => Ok (bad_uri s) | _ => Raise (TypeError "expected string or bytes-like object") end.

Definition validate_context (request : Request) (context : val) : res unit :=
  let refuse (ctx : val) := Raise (invalid_request request ("@context URI " +:+ py_str ctx +:+ " badly formed")) in
  match context with
  | VList l =>
      res_fold (λ _ ctx, match ctx with
                         | VDict _ => Ok tt
                         | _ => let! bad := bad_uri_val ctx in if bad then refuse ctx else Ok tt
                         end) tt l
  | VDict _ => Ok tt
  | VStr s => if bad_uri s then refuse context else Ok tt
  | _ => Raise (invalid_request request "'@context' value must be url, array, or object")
  end.

(** [JSON_LD_CONTEXT_FIELD not in content_as_dict] *)
Definition context_missing (content : val) : res bool :=
  match content with
  | VDict d => Ok (negb (dhas JSON_LD_CONTEXT_FIELD d))
  | VList l => Ok (negb (existsb (λ v, py_eq v (VStr JSON_LD_CONTEXT_FIELD)) l))
  | VStr s => Ok (negb (py_in_str JSON_LD_CONTEXT_FIELD s))
  | _ => Raise (TypeError "argument is not iterable")
  end.

Definition context_static_content (content : val) (request : Request) : res unit :=
  let! missing := context_missing content in
  if missing then Raise (invalid_request request "'content' must contain a @context field") else
  let! context := vgetitem JSON_LD_CONTEXT_FIELD content in
  validate_context request context.

Definition encoding_static_content (content : val) (request : Request) : res unit :=
  let! _ := require_fields request content ["input"; "output"; "algorithm"; "testVectors"] ", "
              " must be set in 'content'" in
  let! _ := res_fold (λ _ io_field,
    let! io := vgetitem io_field content in
    require_fields request io ["id"; "type"] " and " (" must be set in '" +:+ io_field +:+ "'"))
    tt ["input"; "output"] in
  let! alg := vgetitem "algorithm" content in
  require_fields request alg ["description"; "documentation"; "implementation"] ", "
    " must be set in 'algorithm'".

Definition mapping_static_content (content : val) (request : Request) : res unit :=
  let! _ := require_fields request content [RS_MAPPING_SCHEMA; RS_MAPPING_ATTRIBUTES] " and "
              " must be set in 'content'" in
  let! attributes := vgetitem RS_MAPPING_ATTRIBUTES content in
  require_fields request attributes ["issuer"; "issuanceDate"] " and "
    " must be in content's 'attributes'".

Definition cred_def_static_content (content : val) (request : Request) : res unit :=
  require_fields request content ["signatureType"; RS_CRED_DEF_MAPPING; RS_CRED_DEF_SCHEMA; "publicKey"] ", "
    " must be set in 'content'".

Definition do_static_validation_content (k : RichKind) (content : val) (request : Request) : res unit :=
  match k with
  | JsonLdContext => context_static_content content request
  | RichEncoding => encoding_static_content content request
  | RichMapping => mapping_static_content content request
  | RichCredDef => cred_def_static_content content request
  | RichSchemaKind | RichPresDef => Ok tt
  end.

Definition do_static_validation_json_ld (content : val) (request : Request) : res unit :=
  let! id := vget_attr JSON_LD_ID_FIELD content in
  if negb (py_truth id)
  then Raise (invalid_request request "'content' must be a valid JSON-LD and have non-empty '@id' field") else
  let! typ := vget_attr JSON_LD_TYPE_FIELD content in
  if negb (py_truth typ)
  then Raise (invalid_request request "'content' must be a valid JSON-LD and have non-empty '@type' field") else
  let! rs_id := dgetitem RS_ID (operation request) in
  if negb (py_eq id rs_id)
  then Raise (invalid_request request ("content's @id must be equal to id=" +:+ py_str rs_id)) else Ok tt.

(** ** The attributes of a mapping *)

(** [is_leaf_dict]: nothing nested in it, or no dictionary at all. *)
Definition nested (v : val) : bool := match v with VDict _ | VList _ => true | _ => false end.

Definition is_leaf_dict (node : val) : bool :=
  match node with VDict d => forallb (λ kv, negb (nested kv.2)) d | _ => true end.

(** [find_encoding_desc_dicts]: the leaves with the name of their attribute. *)
Fixpoint find_encoding_desc_dicts (content last_attr : val) {struct content} : list (val * val) :=
  match content with
  | VDict d =>
      if is_leaf_dict (VDict d) then [(content, last_attr)]
      else (fix items (d : list (string * val)) : list (val * val) :=
              match d with
              | [] => []
              | (k, v) :: d' =>
                  match v with
                  | VList l => concat (map (λ item, find_encoding_desc_dicts item (VStr k)) l)
                  | _ => find_encoding_desc_dicts v (VStr k)
                  end ++ items d'
              end) d
  | _ => [(content, last_attr)]
  end.

(** [not v and v != 0] *)
Definition unset (v : val) : bool := negb (py_truth v) && negb (py_eq v (VInt 0)).

(** Step 4 of the dynamic validation: encoding and rank of one leaf. *)
Definition check_desc (request : Request) (leaf : val * val) : res unit :=
  match leaf.1 with
  | VDict d =>
      match filter (λ f, unset (vget f d) = true) [RS_MAPPING_ENC; RS_MAPPING_RANK] with
      | [] => Ok tt
      | missing => Raise (invalid_request request
          (py_join " and " missing +:+ " must be set for the attribute '" +:+ py_str leaf.2 +:+ "'"))
      end
  | _ => Raise (invalid_request request
      ("enc and rank must be set for the attribute '" +:+ py_str leaf.2 +:+ "'"))
  end.

(** [sorted(ranks) == expected]: the ranks of leaves are numbers or text;
    numbers are sorted, text is sorted and is not a number, and a mixture
    cannot be sorted. *)
Definition is_num (v : val) : bool := match v with VInt _ | VBool _ => true | _ => false end.

Definition rank_value (v : val) : Z := match v with VInt z => z | VBool true => 1%Z | _ => 0%Z end.

Definition ranks_match (ranks : list val) : res bool :=
  if forallb is_num ranks then
    Ok (bool_decide (merge_sort Z.le (map rank_value ranks) = seqZ 1 (Z.of_nat (length ranks))))
  else if existsb is_num ranks then Raise (TypeError "'<' not supported between instances")
  else Ok false.

Section Handler.
Context {bytes St CSt root S : Type} `{!Serializer bytes, !State bytes St, !State bytes CSt}.
Context `{!OptimisticStore S root} {RL : Rlp} (str_request : Request → string).
Context (json_loads : val → res val) (encode_text : string → bytes).
Context (ENABLE_RICH_SCHEMAS : bool).
Notation Validator := (WriteRequestValidator (St := CSt)).
Implicit Types (state : St) (c : S) (v : Validator).

(** An identifier is the text of a path. *)
Definition path_text (id : val) : res string :=
  match id with VStr s => Ok s | _ => Raise (TypeError "path must be text") end.

Definition object_at state (id : val) : res val :=
  let! path := path_text id in
  let! (value, _, _) := get_from_state_val state path in Ok value.

Definition make_secondary_key (rs_type rs_name rs_version : val) : string :=
  py_join ":" [py_str rs_type; py_str rs_name; py_str rs_version].

Definition static_validation (k : RichKind) (request : Request) : res unit :=
  let! _ := validate_request_type (rich_txn_type k) request in
  if negb ENABLE_RICH_SCHEMAS
  then Raise (invalid_request request "RichSchema transactions are disabled") else
  let! text := dgetitem RS_CONTENT (operation request) in
  let! content := match json_loads text with
                  | Raise (ValueError _) | Raise JSONDecodeError =>
                      Raise (invalid_request request "'content' must be a JSON serialized string")
                  | r => r
                  end in
  let! _ := if is_json_ld_content k then do_static_validation_json_ld content request else Ok tt in
  do_static_validation_content k content request.

(** *** Dynamic validation of the content *)

(** Step 6: the encoding of a leaf is an encoding on the ledger. *)
Definition check_encoding state (request : Request) (leaf : val * val) : res unit :=
  let! encoding_id := vgetitem RS_MAPPING_ENC leaf.1 in
  let! encoding := object_at state encoding_id in
  if negb (py_truth encoding)
  then Raise (invalid_request request
    ("Can not find a referenced 'enc' with id=" +:+ py_str encoding_id +:+ " in the '" +:+ py_str leaf.2 +:+
     "' attribute; please make sure that it has been added to the ledger")) else
  let! typ := vget_attr RS_TYPE encoding in
  if negb (py_eq typ (VStr RS_ENCODING_TYPE_VALUE))
  then Raise (invalid_request request
    ("'enc' field in the '" +:+ py_str leaf.2 +:+ "' attribute must reference an encoding with rsType=enc"))
  else Ok tt.

Definition mapping_dynamic_content state (request : Request) : res unit :=
  let! text := dgetitem RS_CONTENT (operation request) in
  let! content := json_loads text in
  let! schema_id := vgetitem RS_MAPPING_SCHEMA content in
  let! schema := object_at state schema_id in
  if negb (py_truth schema)
  then Raise (invalid_request request ("Can not find a schema with id=" +:+ py_str schema_id +:+
    "; please make sure that it has been added to the ledger")) else
  let! typ := vget_attr RS_TYPE schema in
  if negb (py_eq typ (VStr RS_SCHEMA_TYPE_VALUE))
  then Raise (invalid_request request "'schema' field must reference a schema with rsType=sch") else
  let! attributes := vgetitem RS_MAPPING_ATTRIBUTES content in
  let enc_desc_dicts := find_encoding_desc_dicts attributes VNone in
  let! _ := res_fold (λ _ leaf, check_desc request leaf) tt enc_desc_dicts in
  let! ranks := res_mapM (λ leaf, vgetitem RS_MAPPING_RANK leaf.1) enc_desc_dicts in
  let! sequential := ranks_match ranks in
  if negb sequential
  then Raise (invalid_request request
    ("the attribute's ranks are not sequential: expected ranks are all values from 1 to " +:+
     str_int (Z.of_nat (length enc_desc_dicts)))) else
  res_fold (λ _ leaf, check_encoding state request leaf) tt enc_desc_dicts.

Definition cannot_find (field : string) (id : val) : string :=
  "Can not find a referenced '" +:+ field +:+ "' with id=" +:+ py_str id +:+
  "; please make sure that it has been added to the ledger".

Definition cred_def_dynamic_content state (request : Request) : res unit :=
  let! text := dgetitem RS_CONTENT (operation request) in
  let! content := json_loads text in
  let! schema_id := vgetitem RS_CRED_DEF_SCHEMA content in
  let! mapping_id := vgetitem RS_CRED_DEF_MAPPING content in
  let! schema := object_at state schema_id in
  if negb (py_truth schema) then Raise (invalid_request request (cannot_find RS_CRED_DEF_SCHEMA schema_id)) else
  let! mapping := object_at state mapping_id in
  if negb (py_truth mapping) then Raise (invalid_request request (cannot_find RS_CRED_DEF_MAPPING mapping_id)) else
  let! schema_type := vget_attr RS_TYPE schema in
  if negb (py_eq schema_type (VStr RS_SCHEMA_TYPE_VALUE))
  then Raise (invalid_request request "'schema' field must reference a schema with rsType=sch") else
  let! mapping_type := vget_attr RS_TYPE mapping in
  if negb (py_eq mapping_type (VStr RS_MAPPING_TYPE_VALUE))
  then Raise (invalid_request request "'mapping' field must reference a mapping with rsType=map") else
  Ok tt.

Definition do_dynamic_validation_content (k : RichKind) state (request : Request) : res unit :=
  match k with
  | RichMapping => mapping_dynamic_content state request
  | RichCredDef => cred_def_dynamic_content state request
  | _ => Ok tt
  end.

(** [self.make_secondary_key] of the type, name and version in a dictionary. *)
Definition secondary_key_of (d : dict val) : res string :=
  let! t := dgetitem RS_TYPE d in
  let! n := dgetitem RS_NAME d in
  let! w := dgetitem RS_VERSION d in
  Ok (make_secondary_key t n w).

Definition rich_dynamic_validation (k : RichKind) state c v (request : Request) : res Validator :=
  let! _ := validate_request_type (rich_txn_type k) request in
  let! rs_id := dgetitem RS_ID (operation request) in
  let! rs_object := object_at state rs_id in
  let! secondary_key := secondary_key_of (operation request) in
  if negb (py_truth rs_object) && negb (bool_decide (st_get state secondary_key = None))
  then Raise (invalid_request request
    ("An object with rsName=" +:+ double_quoted (vget RS_NAME (operation request)) +:+ ", rsVersion=" +:+
     double_quoted (vget RS_VERSION (operation request)) +:+ " and rsType=" +:+
     double_quoted (vget RS_TYPE (operation request)) +:+ " already exists. " +:+
     "Please choose different rsName, rsVersion or rsType")) else
  let! v' := if py_truth rs_object
             then validate_action str_request c v request (edit_any (rich_txn_type k) true)
             else validate_action str_request c v request (add_any (rich_txn_type k) true) in
  let! _ := do_dynamic_validation_content k state request in
  Ok v'.

(** ** State *)

(** What is stored for an object. *)
Definition rich_value (txn : Txn) : res (dict val) :=
  let d := get_payload_data txn in
  let! id := dgetitem RS_ID d in
  let! t := dgetitem RS_TYPE d in
  let! n := dgetitem RS_NAME d in
  let! w := dgetitem RS_VERSION d in
  let! content := dgetitem RS_CONTENT d in
  Ok [(RS_ID, id); (RS_TYPE, t); (RS_NAME, n); (RS_VERSION, w); (RS_CONTENT, content);
      (RS_FROM, opt_str (get_from txn)); (RS_ENDORSER, opt_str (get_endorser txn));
      (RS_VER, opt_str (get_payload_txn_version txn))].

Definition rich_update_state (k : RichKind) state (txn : Txn) : res St :=
  let! _ := validate_type (rich_txn_type k) (get_type txn) in
  let! id := dgetitem RS_ID (get_payload_data txn) in
  let! primary_key := did_of id in
  let! secondary_key := secondary_key_of (get_payload_data txn) in
  let! value := rich_value txn in
  let value_bytes := domain_encode_state_value (VDict value) (opt_int (get_seq_no txn)) (opt_int (get_txn_time txn)) in
  Ok (st_set (st_set state primary_key value_bytes) secondary_key (encode_text primary_key)).

Definition rich_gen_txn_id (k : RichKind) (txn : Txn) : res val :=
  let! _ := validate_type (rich_txn_type k) (get_type txn) in
  dgetitem RS_ID (get_payload_data txn).

(** ** Queries

    [lookup], [make_result] and proofs are plenum's; [decode_text] reads back the
    bytes of a text. *)
Context (decode_text : bytes → string) (proof_of : St → string → val).
Context (make_result : Request → val → val → val → val → dict val).

Definition validate_enabled (request : Request) : res unit :=
  if ENABLE_RICH_SCHEMAS then Ok tt else Raise (invalid_request request "RichSchema queries are disabled").

(** [self.lookup(id, is_committed=True, with_proof=True)] *)
Definition rich_lookup state (path : string) : res (val * val * val * val) :=
  let! (value, seq_no, time) := get_from_state_val state path in
  Ok (value, seq_no, time, proof_of state path).

Definition get_by_id_result state (request : Request) : res (dict val) :=
  let! _ := validate_enabled request in
  let! _ := validate_request_type GET_RICH_SCHEMA_OBJECT_BY_ID request in
  let! id := dgetitem RS_ID (operation request) in
  let! path := path_text id in
  let! (value, seq_no, time, proof) :=
    match rich_lookup state path with
    | Raise (KeyError _) => Ok (VNone, VNone, VNone, VNone)
    | r => r
    end in
  Ok (make_result request value seq_no time proof).

Definition get_by_metadata_result state (request : Request) : res (dict val) :=
  let! _ := validate_enabled request in
  let! _ := validate_request_type GET_RICH_SCHEMA_OBJECT_BY_METADATA request in
  let! secondary_key := secondary_key_of (operation request) in
  let! (value, seq_no, time, proof) :=
    match st_get state secondary_key with
    | None => Ok (VNone, VNone, VNone, proof_of state secondary_key)
    | Some id => match rich_lookup state (decode_text id) with
                 | Raise (KeyError _) => Ok (VNone, VNone, VNone, proof_of state secondary_key)
                 | r => r
                 end
    end in
  Ok (make_result request value seq_no time proof).
End Handler.

(** ** Specification: the leaves of the attributes *)

Inductive leaf_of : val → val → val → val → Prop :=
| leaf_here c a : is_leaf_dict c = true → leaf_of c a c a
| leaf_in_list d a k l item x y :
    is_leaf_dict (VDict d) = false → (k, VList l) ∈ d → item ∈ l →
    leaf_of item (VStr k) x y → leaf_of (VDict d) a x y
| leaf_in_item d a k v x y :
    is_leaf_dict (VDict d) = false → (k, v) ∈ d → (∀ l, v ≠ VList l) →
    leaf_of v (VStr k) x y → leaf_of (VDict d) a x y.

(** ** Lemmas *)

(** The leaves under one item of a dictionary. *)
Definition item_leaves (kv : string * val) : list (val * val) :=
  match kv.2 with
  | VList l => concat (map (λ item, find_encoding_desc_dicts item (VStr kv.1)) l)
  | v => find_encoding_desc_dicts v (VStr kv.1)
  end.

Lemma find_dict d a :
  find_encoding_desc_dicts (VDict d) a =
    if is_leaf_dict (VDict d) then [(VDict d, a)] else concat (map item_leaves d).
Proof.
  cbn [find_encoding_desc_dicts]. destruct (is_leaf_dict (VDict d)); [done|].
  induction d as [|[k v] d IH]; [done|]. cbn [map concat]. rewrite <- IH. by destruct v.
Qed.

(** The induction hypothesis for nested values: it holds of the value, and of
    the elements when the value is a list. *)
Definition finds_leaves (v : val) : Prop :=
  ∀ a x y, (x, y) ∈ find_encoding_desc_dicts v a ↔ leaf_of v a x y.

Definition elements_find_leaves (v : val) : Prop :=
  match v with VList l => Forall finds_leaves l | _ => True end.

Lemma in_concat_map {A B} (f : A → list B) l y : y ∈ concat (map f l) ↔ ∃ x, x ∈ l ∧ y ∈ f x.
Proof.
  induction l as [|x l IH]; simpl; [set_solver|]. rewrite elem_of_app, IH. set_solver.
Qed.

Lemma item_leaves_spec k v x y :
  finds_leaves v → elements_find_leaves v →
  (x, y) ∈ item_leaves (k, v) ↔
  (∃ l item, v = VList l ∧ item ∈ l ∧ leaf_of item (VStr k) x y) ∨
  ((∀ l, v ≠ VList l) ∧ leaf_of v (VStr k) x y).
Proof.
  intros Hv Hl. unfold item_leaves. cbn [fst snd].
  destruct v as [| | | |l|]; try (rewrite (Hv (VStr k)); naive_solver).
  rewrite in_concat_map. simpl in Hl. rewrite Forall_forall in Hl. split.
  - intros (item & Hin & H). apply Hl in H; [|done]. left. eauto.
  - intros [(l' & item & [= <-] & Hin & H)|[H _]]; [|by destruct (H l)].
    exists item. split; [done|]. by apply Hl.
Qed.

Lemma find_leaf v a : is_leaf_dict v = true → find_encoding_desc_dicts v a = [(v, a)].
Proof. destruct v; try done. rewrite find_dict. by intros ->. Qed.

Lemma leaf_of_leaf v a x y : is_leaf_dict v = true → leaf_of v a x y → x = v ∧ y = a.
Proof. intros Hv H. inversion H; subst; [done|congruence..]. Qed.

Lemma find_leaves_all v : finds_leaves v ∧ elements_find_leaves v.
Proof.
  induction v as [| | |s|l IH|d IH] using val_ind'.
  1-4: split; [|done]; intros a x y; rewrite find_leaf by done; rewrite list_elem_of_singleton;
    (split; [intros [= -> ->]; by constructor|intros [-> ->]%leaf_of_leaf; done]).
  - split; [|simpl; eapply Forall_impl; [apply IH|]; by intros ? [? _]].
    intros a x y. rewrite find_leaf by done. rewrite list_elem_of_singleton.
    split; [intros [= -> ->]; by constructor|intros [-> ->]%leaf_of_leaf; done].
  - split; [|done]. intros a x y. rewrite find_dict. rewrite Forall_forall in IH.
    destruct (is_leaf_dict (VDict d)) eqn:E.
    + rewrite list_elem_of_singleton.
      split; [intros [= -> ->]; by constructor|intros [-> ->]%leaf_of_leaf; done].
    + rewrite in_concat_map. split.
      * intros ([k v] & Hin & H). destruct (IH _ Hin) as [Hv Hl].
        apply item_leaves_spec in H as [(l & item & -> & Hi & H)|[Hn H]]; [|by eapply leaf_in_item|done..].
        by eapply leaf_in_list.
      * inversion 1 as [c a' Hleaf|d' a' k l item x' y' _ Hin Hi Hlf|d' a' k v x' y' _ Hin Hn Hlf]; subst;
          [congruence| |]; destruct (IH _ Hin) as [Hv Hl];
          eexists; (split; [exact Hin|]); apply item_leaves_spec; try done; [left; eauto|right; done].
Qed.

Lemma find_leaves_spec v a x y : (x, y) ∈ find_encoding_desc_dicts v a ↔ leaf_of v a x y.
Proof. apply find_leaves_all. Qed.

(** Loops that only check. *)
Lemma check_all {A} (f : A → res unit) l :
  res_fold (λ _ x, f x) tt l = Ok tt ↔ Forall (λ x, f x = Ok tt) l.
Proof.
  induction l as [|x l IH]; cbn [res_fold]; [done|]. rewrite Forall_cons, res_bind_Ok, <- IH.
  split; [by intros ([] & ? & ?)|]. intros [? ?]. by exists tt.
Qed.

Lemma ranks_match_perm ranks :
  ranks_match ranks = Ok true →
  Forall (λ v, is_num v = true) ranks ∧ map rank_value ranks ≡ₚ seqZ 1 (Z.of_nat (length ranks)).
Proof.
  unfold ranks_match. destruct (forallb is_num ranks) eqn:E.
  - intros [= H%bool_decide_eq_true]. split.
    + apply Forall_forall. intros x Hx. rewrite forallb_forall in E. by apply E, list_elem_of_In.
    + rewrite <- H. symmetry. apply merge_sort_Permutation.
  - by destruct (existsb is_num ranks).
Qed.

Section lemmas.
Context {bytes St CSt root S : Type} `{!Serializer bytes, !State bytes St, !State bytes CSt}.
Context `{!OptimisticStore S root} {RL : Rlp} (str_request : Request → string).
Context (json_loads : val → res val) (encode_text : string → bytes).
Implicit Types (state : St) (c : S) (cs : CSt).

(** An object of a type is on the ledger under an identifier. *)
Definition is_object state (id : val) (typ : string) : Prop :=
  ∃ d t, object_at state id = Ok (VDict d) ∧ dget RS_TYPE d = Some t ∧ py_eq t (VStr typ) = true.

Lemma object_type_check state id o t typ :
  object_at state id = Ok o → py_truth o = true → vget_attr RS_TYPE o = Ok t →
  py_eq t (VStr typ) = true → is_object state id typ.
Proof.
  intros Ho Htr Ht Heq. destruct o as [| | | | |d]; try done. injection Ht as <-.
  unfold vget in Heq. destruct (dget RS_TYPE d) as [t|] eqn:E; [|done]. by exists d, t.
Qed.

Lemma check_encoding_ok state r leaf :
  check_encoding state r leaf = Ok tt →
  ∃ id, vgetitem RS_MAPPING_ENC leaf.1 = Ok id ∧ is_object state id RS_ENCODING_TYPE_VALUE.
Proof.
  unfold check_encoding. intros H. bind H as id Hid. bind H as o Ho.
  destruct (py_truth o) eqn:Et; [|done]. cbn [negb] in H. bind H as t Ht.
  destruct (py_eq t (VStr RS_ENCODING_TYPE_VALUE)) eqn:Eq; [|done].
  exists id. split; [done|]. by eapply object_type_check.
Qed.

(** What is at the two keys of an object. *)
Lemma rich_update_reads k state state' txn id :
  dget RS_ID (get_payload_data txn) = Some (VStr id) →
  rich_update_state encode_text k state txn = Ok state' →
  ∃ key value, secondary_key_of (get_payload_data txn) = Ok key ∧ rich_value txn = Ok value ∧
    st_get state' key = Some (encode_text id) ∧
    (id ≠ key → get_from_state_val state' id =
       Ok (VDict value, opt_int (get_seq_no txn), opt_int (get_txn_time txn))).
Proof.
  intros Hid H. unfold rich_update_state in H. bind H as x Hx. unfold dgetitem at 1 in H.
  rewrite Hid in H. cbn [res_bind did_of] in H. bind H as key Hkey. bind H as value Hvalue.
  injection H as <-. exists key, value. do 2 (split; [done|]).
  split; [apply st_get_set_eq|]. intros Hne.
  rewrite get_from_state_set_ne by congruence.
  apply (get_from_state_set (StateCodec0 := domain_codec)).
Qed.

Lemma rich_value_truth txn value : rich_value txn = Ok value → py_truth (VDict value) = true.
Proof.
  unfold rich_value. intros H. bind H as ? ?. bind H as ? ?. bind H as ? ?. bind H as ? ?. bind H as ? ?.
  by injection H as <-.
Qed.

(** Editing an object of any kind is forbidden by the default rules. *)
Lemma edit_rich_refused k c cs metrics r author :
  cache_wf c → identifier r = Some author →
  ∃ reason, validate_action str_request c (default_validator cs metrics) r (edit_any (rich_txn_type k) true) =
    Raise (UnauthorizedClientRequest (Some author) (reqId r) reason).
Proof.
  intros Hc Hid. pose proof (getRole_cache c Hc). unfold validate_action, edit_any, star_val.
  rewrite validate_default by (by destruct k). unfold verdict, unauthorized. rewrite Hid.
  destruct k; cbn; by eexists.
Qed.
End lemmas.

(** ** Properties *)

(** C32. What an accepted mapping guarantees: its schema is a schema on the
    ledger; every leaf under its attributes, at any depth and inside lists, names
    an encoding on the ledger and has a rank; and the ranks of the leaves are
    the numbers from 1 to their count, each used once. *)
Theorem mapping_accepted {bytes St} `{!Serializer bytes, !State bytes St} json_loads (state : St) r :
  mapping_dynamic_content json_loads state r = Ok tt →
  ∃ content schema_id attributes leaves ranks,
    json_loads (vget RS_CONTENT (operation r)) = Ok (VDict content) ∧
    dget RS_MAPPING_SCHEMA content = Some schema_id ∧ is_object state schema_id RS_SCHEMA_TYPE_VALUE ∧
    dget RS_MAPPING_ATTRIBUTES content = Some attributes ∧
    leaves = find_encoding_desc_dicts attributes VNone ∧
    (∀ x y, (x, y) ∈ leaves ↔ leaf_of attributes VNone x y) ∧
    Forall2 (λ leaf rank, vgetitem RS_MAPPING_RANK leaf.1 = Ok rank) leaves ranks ∧
    map rank_value ranks ≡ₚ seqZ 1 (Z.of_nat (length leaves)) ∧
    Forall (λ leaf, ∃ id, vgetitem RS_MAPPING_ENC leaf.1 = Ok id ∧
              is_object state id RS_ENCODING_TYPE_VALUE) leaves.
Proof.
  unfold mapping_dynamic_content. intros H. bind H as text Htext. bind H as content Hcontent.
  bind H as schema_id Hsid. bind H as schema Hs.
  destruct (py_truth schema) eqn:Et; [|done]. cbn [negb] in H. bind H as typ Htyp.
  destruct (py_eq typ (VStr RS_SCHEMA_TYPE_VALUE)) eqn:Eq; [|done]. cbn [negb] in H.
  bind H as attributes Hattr. bind H as u Hdesc. bind H as ranks Hranks. bind H as b Hb.
  destruct b; [|done]. cbn [negb] in H. apply check_all in H.
  destruct content as [| | | | |content]; try done.
  cbn [vgetitem] in Hsid, Hattr. unfold dgetitem in Hsid, Hattr, Htext.
  destruct (dget RS_MAPPING_SCHEMA content) eqn:E1; [|done]. injection Hsid as ->.
  destruct (dget RS_MAPPING_ATTRIBUTES content) eqn:E2; [|done]. injection Hattr as ->.
  destruct (dget RS_CONTENT (operation r)) eqn:E3; [|done]. injection Htext as ->.
  apply res_mapM_Forall2 in Hranks. apply ranks_match_perm in Hb as [_ Hb].
  exists content, schema_id, attributes, (find_encoding_desc_dicts attributes VNone), ranks.
  split_and!; try done.
  - unfold vget. by rewrite E3.
  - by eapply object_type_check.
  - intros x y. apply find_leaves_spec.
  - by rewrite (Forall2_length _ _ _ Hranks).
  - eapply Forall_impl; [exact H|]. intros leaf. apply check_encoding_ok.
Qed.

(** A ledger with a schema and an encoding, and a mapping with two leaves. *)
Definition rich_ledger : gmap string val :=
  st_set (st_set ∅ "s1" (domain_encode_state_value (VDict [(RS_TYPE, VStr "sch")]) (VInt 1) (VInt 1)))
    "e1" (domain_encode_state_value (VDict [(RS_TYPE, VStr "enc")]) (VInt 2) (VInt 2)).

Definition sample_mapping : val :=
  VDict [(RS_MAPPING_SCHEMA, VStr "s1");
         (RS_MAPPING_ATTRIBUTES,
          VDict [("issuer", VList [VDict [(RS_MAPPING_ENC, VStr "e1"); (RS_MAPPING_RANK, VInt 2)]]);
                 ("issuanceDate", VDict [(RS_MAPPING_ENC, VStr "e1"); (RS_MAPPING_RANK, VInt 1)])])].

Definition rich_request (k : RichKind) (id name ver : string) (content : val) : Request :=
  definition_request (rich_txn_type k)
    [(RS_ID, VStr id); (RS_TYPE, VStr "map"); (RS_NAME, VStr name); (RS_VERSION, VStr ver);
     (RS_CONTENT, content)].

Lemma mapping_accepted_witness :
  ∃ (leaves : list (val * val)) ranks, Forall2 (λ leaf rank, vgetitem RS_MAPPING_RANK leaf.1 = Ok rank) leaves ranks ∧
    map rank_value ranks ≡ₚ seqZ 1 (Z.of_nat (length leaves)).
Proof.
  destruct (mapping_accepted Ok rich_ledger (rich_request RichMapping "m1" "n" "1.0" sample_mapping))
    as (_ & _ & _ & leaves & ranks & _ & _ & _ & _ & _ & _ & Hf & Hp & _).
  - vm_compute. reflexivity.
  - exists leaves, ranks. exact (conj Hf Hp).
Defined.

(** A rich schema object is written once: after its transaction is applied,
    under the default rules a request of any kind with its identifier is not
    authorized, and a request for a new identifier with its type, name and
    version is invalid. *)
Theorem rich_object_written_once {bytes St CSt root S} `{!Serializer bytes, !State bytes St,
    !State bytes CSt, !OptimisticStore S root} {RL : Rlp} str_request json_loads
    (encode_text : string → bytes) (state state' : St) (c : S) (cs : CSt) metrics k k' txn r author id id' key :
  cache_wf c → identifier r = Some author →
  dget RS_ID (get_payload_data txn) = Some (VStr id) →
  secondary_key_of (get_payload_data txn) = Ok key → id ≠ key →
  rich_update_state encode_text k state txn = Ok state' →
  vget TXN_TYPE (operation r) = VStr (rich_txn_type k') →
  dget RS_ID (operation r) = Some (VStr id') →
  let validation := rich_dynamic_validation str_request json_loads k' state' c (default_validator cs metrics) r in
  (id' = id → ∀ key', secondary_key_of (operation r) = Ok key' →
     ∃ reason, validation = Raise (UnauthorizedClientRequest (Some author) (reqId r) reason)) ∧
  (∀ o, object_at state' (VStr id') = Ok o → py_truth o = false →
     secondary_key_of (operation r) = Ok key →
     ∃ reason, validation = Raise (InvalidClientRequest (Some author) (reqId r) reason)).
Proof.
  intros Hc Hid Htid Hkey Hne Hup Hty Hrid validation.
  destruct (rich_update_reads encode_text k state state' txn id Htid Hup)
    as (key0 & value & Hkey0 & Hval & Hsec & Hprim).
  rewrite Hkey in Hkey0. injection Hkey0 as <-. specialize (Hprim Hne).
  unfold validation, rich_dynamic_validation, validate_request_type. rewrite Hty. cbn [py_eq].
  assert (dgetitem RS_ID (operation r) = Ok (VStr id')) as Hget by (unfold dgetitem; by rewrite Hrid).
  rewrite str_eqb_refl, Hget. cbn [res_bind]. split.
  - intros -> key' ->. unfold object_at. cbn [path_text res_bind]. rewrite Hprim. cbn [res_bind].
    rewrite (rich_value_truth _ _ Hval). cbn [negb andb].
    destruct (edit_rich_refused str_request k' c cs metrics r author Hc Hid) as [reason ->]. by eexists.
  - intros o -> Ho ->. cbn [res_bind]. rewrite Ho, Hsec. cbn [negb andb].
    rewrite bool_decide_eq_false_2 by done. cbn [negb]. unfold invalid_request. rewrite Hid. by eexists.
Qed.

Definition sample_rich_txn (id : string) : Txn :=
  mkTxn RICH_SCHEMA [(RS_ID, VStr id); (RS_TYPE, VStr "sch"); (RS_NAME, VStr "n"); (RS_VERSION, VStr "1.0");
    (RS_CONTENT, VStr "c")] (Some "T") None None None (Some 3%Z) (Some 4%Z).

Definition sample_rich_request (id : string) : Request :=
  definition_request RICH_SCHEMA (get_payload_data (sample_rich_txn id)).

Lemma rich_object_written_once_witness :
  ∃ state' reason, rich_update_state (λ s, VStr s) RichSchemaKind (∅ : gmap string val) (sample_rich_txn "i") = Ok state' ∧
    rich_dynamic_validation (λ _, "") Ok RichSchemaKind state' empty_store
      (default_validator (∅ : gmap string val) false) (sample_rich_request "i") =
    Raise (UnauthorizedClientRequest (Some "T") (Some 1%Z) reason).
Proof.
  assert (∃ state', rich_update_state (λ s, VStr s) RichSchemaKind (∅ : gmap string val) (sample_rich_txn "i") =
    Ok state') as [state' H] by (eexists; reflexivity).
  destruct (rich_object_written_once (λ _, "") Ok (λ s, VStr s) (∅ : gmap string val) state' empty_store
    (∅ : gmap string val) false RichSchemaKind RichSchemaKind (sample_rich_txn "i") (sample_rich_request "i")
    "T" "i" "i" "sch:n:1.0") as [Hr _];
    [exact empty_store_wf|reflexivity|reflexivity|reflexivity|discriminate|exact H|reflexivity|reflexivity|].
  destruct (Hr eq_refl "sch:n:1.0" eq_refl) as [reason Hreason].
  exists state', reason. exact (conj H Hreason).
Defined.

(** The two queries agree: after an object is written, the query by its
    type, name and version finds what the query by its identifier finds, the
    stored object with the number and time of its transaction. *)
Theorem rich_queries_agree {bytes St} `{!Serializer bytes, !State bytes St}
    (encode_text : string → bytes) (decode_text : bytes → string) proof_of make_result
    (state state' : St) k txn id key r1 r2 :
  (∀ s, decode_text (encode_text s) = s) →
  dget RS_ID (get_payload_data txn) = Some (VStr id) →
  secondary_key_of (get_payload_data txn) = Ok key → id ≠ key →
  rich_update_state encode_text k state txn = Ok state' →
  vget TXN_TYPE (operation r1) = VStr "300" → dget RS_ID (operation r1) = Some (VStr id) →
  vget TXN_TYPE (operation r2) = VStr "301" → secondary_key_of (operation r2) = Ok key →
  ∃ value, rich_value txn = Ok value ∧
    get_by_id_result true proof_of make_result state' r1 =
      Ok (make_result r1 (VDict value) (opt_int (get_seq_no txn)) (opt_int (get_txn_time txn)) (proof_of state' id)) ∧
    get_by_metadata_result true decode_text proof_of make_result state' r2 =
      Ok (make_result r2 (VDict value) (opt_int (get_seq_no txn)) (opt_int (get_txn_time txn)) (proof_of state' id)).
Proof.
  intros Hdec Htid Hkey Hne Hup Ht1 Hid1 Ht2 Hkey2.
  destruct (rich_update_reads encode_text k state state' txn id Htid Hup)
    as (key0 & value & Hkey0 & Hval & Hsec & Hprim).
  rewrite Hkey in Hkey0. injection Hkey0 as <-. specialize (Hprim Hne).
  exists value. split; [done|]. split.
  - unfold get_by_id_result, validate_enabled, validate_request_type. rewrite Ht1. cbn [py_eq res_bind].
    rewrite str_eqb_refl. cbn [res_bind]. unfold dgetitem. rewrite Hid1. cbn [res_bind path_text].
    unfold rich_lookup. by rewrite Hprim.
  - unfold get_by_metadata_result, validate_enabled, validate_request_type. rewrite Ht2. cbn [py_eq res_bind].
    rewrite str_eqb_refl. cbn [res_bind]. rewrite Hkey2. cbn [res_bind]. rewrite Hsec, Hdec.
    unfold rich_lookup. by rewrite Hprim.
Qed.

Lemma rich_queries_agree_witness :
  ∃ state', rich_update_state (λ s, VStr s) RichSchemaKind (∅ : gmap string val) (sample_rich_txn "i") = Ok state' ∧
    get_by_metadata_result true (λ v, match v with VStr s => s | _ => "" end) (λ _ _, VNone)
      (λ _ v _ _ _, [("data", v)]) state' (definition_request "301"
        [(RS_TYPE, VStr "sch"); (RS_NAME, VStr "n"); (RS_VERSION, VStr "1.0")]) =
    get_by_id_result true (λ _ _, VNone) (λ _ v _ _ _, [("data", v)]) state'
      (definition_request "300" [(RS_ID, VStr "i")]).
Proof.
  assert (∃ state', rich_update_state (λ s, VStr s) RichSchemaKind (∅ : gmap string val) (sample_rich_txn "i") =
    Ok state') as [state' H] by (eexists; reflexivity).
  destruct (rich_queries_agree (λ s, VStr s) (λ v, match v with VStr s => s | _ => "" end) (λ _ _, VNone)
    (λ _ v _ _ _, [("data", v)]) (∅ : gmap string val) state' RichSchemaKind (sample_rich_txn "i") "i" "sch:n:1.0"
    (definition_request "300" [(RS_ID, VStr "i")]) (definition_request "301"
      [(RS_TYPE, VStr "sch"); (RS_NAME, VStr "n"); (RS_VERSION, VStr "1.0")]))
    as (value & _ & H1 & H2); [reflexivity|reflexivity|reflexivity|discriminate|exact H|reflexivity..|].
  exists state'. split; [exact H|]. rewrite H1. exact H2.
Defined.

(** An object whose identifier is the key of its own type, name and version
    overwrites itself: its identifier no longer leads to its value. *)
Example identifier_is_own_key :
  ∃ state', rich_update_state (λ s, VStr s) RichSchemaKind (∅ : gmap string val)
      (sample_rich_txn "sch:n:1.0") = Ok state' ∧
    object_at state' (VStr "sch:n:1.0") = Raise AttributeError.
Proof. eexists. split; [reflexivity|]. vm_compute. reflexivity. Qed.
