(* ===== verification/ReadHandlers.v ===== *)
(** * Queries of the domain ledger

    [indy_node/server/request_handlers/read_req_handlers]: GET_NYM and GET_ATTR,
    now or as of a version; GET_SCHEMA, GET_CLAIM_DEF and GET_REVOC_REG_DEF; and
    GET_REVOC_REG and GET_REVOC_REG_DELTA, which read the state that was in
    force at a time.  The specification of the delta is the history of the
    registry: which indices were issued and revoked, in which order.

    The timestamp store ([get_equal_or_prev]), the state of a root, proofs and
    [make_result] are plenum's and parameters. *)
From S2P Require Import Prelude PyValue Plenum Constants AuthActions AuthConstraints Authorizer AuthorizerSpec AuthStrategy AuthMap StateDomain IdrCache HandlerBase CompatSet CompatSetSpec Revocation NymHandler DefinitionHandlers AttribHandler FlagHandler RevocEntryHandler.

Definition GET_ATTR : string := "104".
Definition GET_NYM : string := "105".
Definition GET_SCHEMA : string := "107".
Definition GET_CLAIM_DEF : string := "108".
Definition GET_REVOC_REG_DEF : string := "115".
Definition GET_REVOC_REG : string := "116".
Definition GET_REVOC_REG_DELTA : string := "117".
Definition FROM : string := "from".
Definition TO : string := "to".
Definition ACCUM_FROM : string := "accum_from".
Definition ACCUM_TO : string := "accum_to".
Definition STATE_PROOF_FROM : string := "stateProofFrom".
Definition TIMESTAMP : string := "timestamp".
Definition ID : string := "id".

(** ** Revocation queries *)

Section RevocQueries.
Context {bytes St hash R : Type} `{!Serializer bytes, !State bytes St}.
Context (state_at : hash → St) (get_equal_or_prev : val → option hash) (proof_of : St → string → val).
Context (make_result : Request → rval → val → val → val → R).

(** [StateValue] of [request_handlers/utils.py] *)
Record StateValue := mkStateValue {
  sv_root_hash : option hash;
  sv_value : val;
  sv_seq_no : val;
  sv_update_time : val;
  sv_proof : val
}.

Definition new_StateValue : StateValue := mkStateValue None VNone VNone VNone VNone.

(** [encoded] as a truth value: there and not empty. *)
Definition if_encoded (encoded : option bytes) : option bytes :=
  match encoded with Some b => if bytes_truth b then Some b else None | None => None end.

(** [_get_reg_entry_by_timestamp] *)
Definition get_reg_entry_by_timestamp (timestamp : val) (path_to_reg_entry : string) : res StateValue :=
  match get_equal_or_prev timestamp with
  | None => Ok new_StateValue
  | Some past_root =>
      let '(encoded_entry, proof) := get_value proof_of (state_at past_root) path_to_reg_entry true in
      match if_encoded encoded_entry with
      | Some b => let! (value, seq_no, time) := decode_state_value b in
                  Ok (mkStateValue (Some past_root) value seq_no time proof)
      | None => Ok (mkStateValue (Some past_root) VNone VNone VNone proof)
      end
  end.

(** [_get_reg_entry_accum_by_timestamp], the same for the other path. *)
Definition get_reg_entry_accum_by_timestamp (timestamp : val) (path_to_reg_entry_accum : string)
    : res StateValue :=
  get_reg_entry_by_timestamp timestamp path_to_reg_entry_accum.

(** [GetRevocRegHandler.get_result] *)
Definition get_revoc_reg_result (request : Request) : res R :=
  let! _ := validate_request_type GET_REVOC_REG request in
  let req_ts := vget TIMESTAMP (operation request) in
  let revoc_reg_def_id := vget REVOC_REG_DEF_ID (operation request) in
  let path := make_state_path_for_revoc_reg_entry_accum revoc_reg_def_id in
  let! entry_state :=
    match get_equal_or_prev req_ts with
    | None => Ok new_StateValue
    | Some past_root =>
        let '(encoded_entry, proof) := get_value proof_of (state_at past_root) path true in
        match if_encoded encoded_entry with
        | Some b => let! (value, seq_no, time) := decode_state_value b in
                    Ok (mkStateValue (Some past_root) value seq_no time proof)
        | None => Ok (mkStateValue None VNone VNone VNone proof)
        end
    end in
  Ok (make_result request (RVal (sv_value entry_state)) (sv_seq_no entry_state)
        (sv_update_time entry_state) (sv_proof entry_state)).

(** [req_ts_from > req_ts_to]; the message schema admits integers only. *)
Definition later (a b : val) : res bool :=
  match a, b with
  | VInt x, VInt y => Ok (Z.ltb y x)
  | VStr x, VStr y => Ok (String.ltb y x)
  | _, _ => Raise (TypeError "'>' not supported between instances")
  end.

(** [GetRevocRegDeltaHandler.static_validation] *)
Definition delta_static_validation (request : Request) : res unit :=
  let req_ts_to := vget TO (operation request) in
  let! _ := py_assert req_ts_to in
  let req_ts_from := vget FROM (operation request) in
  if py_truth req_ts_from then
    let! more := later req_ts_from req_ts_to in
    if more then Raise (invalid_request request
      ("Timestamp FROM more then TO: " +:+ py_str req_ts_from +:+ " > " +:+ py_str req_ts_to)) else Ok tt
  else Ok tt.

(** [value.get(key, [])] *)
Definition get_list (key : string) (value : val) : res val :=
  match value with VDict d => Ok (get_default key (VList []) d) | _ => Raise AttributeError end.

(** [{ISSUED: ..., REVOKED: ...}] of a stored entry. *)
Definition lists_of (entry : StateValue) : res val :=
  let! value := vgetitem VALUE (sv_value entry) in
  let! issued := get_list ISSUED value in
  let! revoked := get_list REVOKED value in
  Ok (VDict [(ISSUED, issued); (REVOKED, revoked)]).

(** The reply for a registry whose entry and definition are there. *)
Definition delta_reply (req_ts_from revoc_reg_def_id : val) (path path_accum : string)
    (entry_to accum_to : StateValue) (revoc_reg_def : val)
    : res (StateValue * StateValue * dict rval) :=
  let! value := vgetitem VALUE revoc_reg_def in
  let! issuance_type := vgetitem ISSUANCE_TYPE value in
  let strategy_cls := get_revocation_strategy issuance_type in
  let! to_dict := lists_of entry_to in
  let! (entry_from, accum_from) :=
    if py_truth req_ts_from then
      let! e := get_reg_entry_by_timestamp req_ts_from path in
      let! a := get_reg_entry_accum_by_timestamp req_ts_from path_accum in Ok (e, a)
    else Ok (new_StateValue, new_StateValue) in
  let! from_dict :=
    if py_truth req_ts_from && py_truth (sv_value entry_from) && py_truth (sv_value accum_from)
    then let! d := lists_of entry_from in Ok (Some d) else Ok None in
  let! (result_issued, result_revoked) :=
    match strategy_cls with
    | Some st => get_delta st to_dict from_dict
    | None => Raise AttributeError
    end in
  let! revoc_type := vget_attr REVOC_TYPE revoc_reg_def in
  let reply_value :=
    [(ACCUM_TO, RVal (if py_truth (sv_value entry_from) then sv_value accum_to else sv_value entry_to));
     (ISSUED, result_issued); (REVOKED, result_revoked)] in
  let reply (value : dict rval) :=
    [(REVOC_REG_DEF_ID, RVal revoc_reg_def_id); (REVOC_TYPE, RVal revoc_type); (VALUE, RDict value)] in
  Ok (entry_from, accum_from,
      if py_truth req_ts_from
      then dset STATE_PROOF_FROM (RVal (sv_proof accum_from))
             (reply (dset ACCUM_FROM (RVal (sv_value accum_from)) reply_value))
      else reply reply_value).

(** [GetRevocRegDeltaHandler.get_result].  [accum_to] and [entry_to] are objects
    and so are true where the source asks for them. *)
Definition delta_get_result (request : Request) : res R :=
  let! _ := validate_request_type GET_REVOC_REG_DELTA request in
  let req_ts_from := vget FROM (operation request) in
  let req_ts_to := vget TO (operation request) in
  let revoc_reg_def_id := vget REVOC_REG_DEF_ID (operation request) in
  let path := make_state_path_for_revoc_reg_entry revoc_reg_def_id in
  let path_accum := make_state_path_for_revoc_reg_entry_accum revoc_reg_def_id in
  let! entry_to := get_reg_entry_by_timestamp req_ts_to path in
  let! accum_to := get_reg_entry_accum_by_timestamp req_ts_to path_accum in
  let encoded_revoc_reg_def :=
    if py_truth (sv_value accum_to) && py_truth (sv_value entry_to)
    then sv_root_hash entry_to ≫= (λ h, if_encoded (st_get (state_at h) (py_str revoc_reg_def_id)))
    else None in
  let! (entry_from, accum_from, reply) :=
    match encoded_revoc_reg_def with
    | Some b =>
        let! (revoc_reg_def, _, _) := decode_state_value b in
        let! (entry_from, accum_from, reply) :=
          delta_reply req_ts_from revoc_reg_def_id path path_accum entry_to accum_to revoc_reg_def in
        Ok (entry_from, accum_from, Some reply)
    | None => Ok (new_StateValue, new_StateValue, None)
    end in
  let shown := if py_truth (sv_value entry_from) then accum_to else entry_to in
  let! data :=
    match reply with
    | Some reply => Ok (RDict reply)
    | None =>
        if is_none req_ts_from then Ok (RVal VNone) else
        let! accum_from := get_reg_entry_accum_by_timestamp req_ts_from path_accum in
        Ok (RDict [(STATE_PROOF_FROM, RVal (sv_proof accum_from));
                   (VALUE, RDict [(ACCUM_TO, RVal VNone); (ACCUM_FROM, RVal (sv_value accum_from))])])
    end in
  Ok (make_result request data (sv_seq_no shown) (sv_update_time shown) (sv_proof shown)).
End RevocQueries.

(** ** Queries of a path *)

Section PathQueries.
Context {bytes St : Type} `{!Serializer bytes, !State bytes St, !StateCodec bytes}.
Context (state : St) (proof_of : St → string → val).
Context (make_result : Request → val → val → val → val → dict val).

(** [self.lookup(path, is_committed=True, with_proof=True)] on the committed
    state, with a [KeyError] as four [None]s. *)
Definition lookup_or_none (path : string) : res (val * val * val * val) :=
  match get_from_state_val state path with
  | Raise (KeyError _) => Ok (VNone, VNone, VNone, VNone)
  | Raise e => Raise e
  | Ok (value, seq_no, time) => Ok (value, seq_no, time, proof_of state path)
  end.

Definition assert_not_none (v : val) : res unit := if is_none v then Raise AssertionError else Ok tt.

(** [GetSchemaHandler] *)
Definition get_schema (author schema_name schema_version : val) : res (val * val * val * val) :=
  let! _ := assert_not_none author in
  let! _ := assert_not_none schema_name in
  let! _ := assert_not_none schema_version in
  lookup_or_none (schema_make_state_path author schema_name schema_version).

Definition get_schema_result (request : Request) : res (dict val) :=
  let! _ := validate_request_type GET_SCHEMA request in
  let! author_did := get_read_schema_from request in
  let! schema_name := get_read_schema_name request in
  let! schema_version := get_read_schema_version request in
  let! (schema, last_seq_no, last_update_time, proof) := get_schema author_did schema_name schema_version in
  let! schema := match schema with
                 | VNone => Ok []
                 | VDict d => Ok d
                 | _ => Raise AttributeError
                 end in
  let schema := dupdate schema [(SCHEMA_NAME, schema_name); (SCHEMA_VERSION, schema_version)] in
  Ok (make_result request (VDict schema) last_seq_no last_update_time proof).

(** [GetClaimDefHandler] *)
Definition get_claim_def (author schema_seq_no signature_type tag : val) : res (val * val * val * val) :=
  let! _ := assert_not_none author in
  let! _ := assert_not_none schema_seq_no in
  lookup_or_none (claim_def_make_state_path author schema_seq_no signature_type tag).

Definition get_claim_def_result (request : Request) : res (dict val) :=
  let! _ := validate_request_type GET_CLAIM_DEF request in
  let! frm := get_read_claim_def_from request in
  let signature_type := get_read_claim_def_signature_type request in
  let! schema_ref := get_read_claim_def_schema_ref request in
  let tag := get_read_claim_def_tag request in
  let! (keys, last_seq_no, last_update_time, proof) := get_claim_def frm schema_ref signature_type tag in
  Ok (dset CLAIM_DEF_SIGNATURE_TYPE signature_type
        (make_result request keys last_seq_no last_update_time proof)).

(** [GetRevocRegDefHandler] *)
Definition get_revoc_reg_def_result (request : Request) : res (dict val) :=
  let! _ := validate_request_type GET_REVOC_REG_DEF request in
  let state_path := vget ID (operation request) in
  let! _ := py_assert state_path in
  let! path := did_of state_path in
  let! (keys, last_seq_no, last_update_time, proof) := lookup_or_none path in
  Ok (make_result request keys last_seq_no last_update_time proof).
End PathQueries.

(** ** Queries of a version *)

Section VersionQueries.
Context {bytes St hash A : Type} `{!Serializer bytes, !State bytes St, !StateCodec bytes, !AttributeStore A}.
Context (state : St) (state_at : hash → St) (get_equal_or_prev : val → option hash).
Context (getReplyFromLedger : val → option (option Txn)) (proof_of : St → string → val).
Context (make_result : Request → val → val → val → val → dict val).
(** [make_state_path_for_nym] of plenum's [NymHandler], and the text of bytes in
    a reply. *)
Context (nym_path : string → string) (bytes_val : bytes → val) (sha256_hex : string → string).
Abbreviation version_at := (lookup_version state state_at get_equal_or_prev getReplyFromLedger proof_of).

Definition one_version (request : Request) (timestamp seq_no : val) : res unit :=
  if py_truth timestamp && py_truth seq_no then
    Raise (invalid_request request
      (VERSION_ID +:+ " and " +:+ VERSION_TIME +:+ " are mutually exclusive; only one should be specified"))
  else Ok tt.

(** [GetNymHandler.get_result] *)
Definition get_nym_result (request : Request) : res (dict val) :=
  let! _ := validate_request_type GET_NYM request in
  let! nym := dgetitem TARGET_NYM (operation request) in
  let! did := did_of nym in
  let timestamp := vget VERSION_TIME (operation request) in
  let seq_no := vget VERSION_ID (operation request) in
  let! _ := one_version request timestamp seq_no in
  let! (nym_data, proof) := version_at (nym_path did) seq_no timestamp true in
  let! (data, last_seq_no, update_time) :=
    match if_encoded nym_data with
    | Some b =>
        let! decoded := ser_deserialize b in
        match decoded with
        | VDict d =>
            let d := dset TARGET_NYM nym d in
            let! n := dgetitem SEQ_NO d in
            let! t := dgetitem TXN_TIME d in
            Ok (bytes_val (ser_serialize (VDict d)), n, t)
        | _ => Raise (TypeError "object does not support item assignment")
        end
    | None => Ok (VNone, VNone, VNone)
    end in
  Ok (dupdate (make_result request data last_seq_no update_time proof) (operation request)).

(** [GetAttributeHandler] *)
Definition get_attr_type (operation : dict val) : string :=
  if dhas RAW operation then RAW else if dhas ENC operation then ENC else HASH.

Definition get_value_from_attribute_store (attrs : A) (key : val) : res val :=
  match key with
  | VStr k => match as_get attrs k with Raise (KeyError _) => Ok VNone | r => r end
  | _ => Raise (TypeError "key must be text")
  end.

Definition get_attr_result (attrs : A) (request : Request) : res (dict val) :=
  let! _ := validate_request_type GET_ATTR request in
  let op := operation request in
  let timestamp := vget VERSION_TIME op in
  let seq_no := vget VERSION_ID op in
  let! _ := one_version request timestamp seq_no in
  if negb (validate_attrib_keys op)
  then Raise (invalid_request request "100 should have one and only one of raw, enc, hash") else
  let attr_type := get_attr_type op in
  let! nym := dgetitem TARGET_NYM op in
  let! key := dgetitem attr_type op in
  let! path := make_state_path_for_attr sha256_hex nym key (str_eqb attr_type HASH) in
  let! (encoded, proof) := version_at path seq_no timestamp true in
  match if_encoded encoded with
  | None => Ok (make_result request VNone VNone VNone proof)
  | Some b =>
      let! (store_key, last_seq_no, last_update_time) := decode_state_value b in
      if str_eqb attr_type HASH then
        let! data := dgetitem HASH op in
        Ok (make_result request data last_seq_no last_update_time proof)
      else
        let! store_value := get_value_from_attribute_store attrs store_key in
        Ok (make_result request store_value last_seq_no last_update_time proof)
  end.
End VersionQueries.

(** ** Specification: the history of a registry *)

(** What an update did: the indices it issued and those it revoked. *)
Definition history := list (list Z * list Z).

(** The last thing that happened to an index: revoked ([true]) or issued. *)
Fixpoint last_action (h : history) (x : Z) : option bool :=
  match h with
  | [] => None
  | (issued, revoked) :: h' =>
      match last_action h' x with
      | Some b => Some b
      | None => if bool_decide (x ∈ revoked) then Some true
                else if bool_decide (x ∈ issued) then Some false else None
      end
  end.

(** An index is revoked, given the set the strategy keeps. *)
Definition revoked_in (st : RevocationStrategy) (K : gset Z) (x : Z) : Prop :=
  match st with RevokedStrategy => x ∈ K | IssuedStrategy => x ∉ K end.

Section History.
Context {bytes St CSt chash root S : Type} `{!Serializer bytes, !State bytes St, !State bytes CSt}.
Context `{!OptimisticStore S root} {RL : Rlp} (str_request : Request → string).
Context (rid : string) (st : RevocationStrategy).
Implicit Types (state : St) (c : S).

(** A value with some number and time at a path. *)
Definition stored state (path : string) (v : val) : Prop :=
  ∃ n t, st_get state path = Some (domain_encode_state_value v n t).

(** The registry in a state: its definition with its strategy, its accumulator,
    and its entry with the set of kept indices. *)
Record registry_at state (K : gset Z) : Prop := {
  reg_def : ∃ def, stored state rid def ∧ strategy_of def = Ok st;
  reg_accum : ∃ a, stored state (accum_path rid) a ∧ py_truth a = true;
  reg_entry : ∃ e vs ks, stored state (entry_path rid) (VDict e) ∧ dget VALUE e = Some (VDict vs) ∧
                vs ≠ [] ∧ get_indices (kept st) (VDict vs) = Ok ks ∧ nonneg ks ∧ set_of ks = K
}.

(** How the ledger goes on from a state: by accepted updates of the registry,
    written by the handler, and by transactions that do not touch it. *)
Inductive registry_history (s : St) : history → St → Prop :=
| history_start : registry_history s [] s
| history_other h s1 s2 :
    registry_history s h s1 →
    (∀ p, p ∈ [rid; entry_path rid; accum_path rid] → st_get s2 p = st_get s1 p) →
    registry_history s h s2
| history_update h s1 s2 c v v' r txn d acc issued revoked
    (cstate : CSt) (cstate_at : chash → CSt) prev reply proof_of config legacy :
    registry_history s h s1 →
    revoc_entry_dynamic_validation str_request s1 c v r = Ok v' →
    get_type txn = REVOC_REG_ENTRY → operation r = get_payload_data txn → storable txn rid d acc →
    get_indices ISSUED (VDict d) = Ok issued → get_indices REVOKED (VDict d) = Ok revoked →
    nonneg issued → nonneg revoked →
    use_legacy_sort cstate cstate_at prev reply proof_of config txn = Ok legacy →
    revoc_entry_update_state cstate cstate_at prev reply proof_of config s1 txn = Ok s2 →
    registry_history s (h ++ [(issued, revoked)]) s2.

(** ** Lemmas *)

Lemma last_action_snoc h issued revoked x :
  last_action (h ++ [(issued, revoked)]) x =
    if bool_decide (x ∈ revoked) then Some true
    else if bool_decide (x ∈ issued) then Some false else last_action h x.
Proof.
  induction h as [|[i r] h IH]; simpl.
  - by repeat case_bool_decide.
  - rewrite IH. by repeat case_bool_decide.
Qed.

Lemma stored_reads state path v :
  stored state path v → ∃ n t, get_from_state_val state path = Ok (v, n, t).
Proof.
  intros (n & t & Hg). exists n, t. unfold get_from_state_val. rewrite Hg. cbn.
  unfold domain_decode_state_value, domain_encode_state_value. by rewrite ser_roundtrip.
Qed.

Lemma stored_eq state state' path v : st_get state' path = st_get state path → stored state path v → stored state' path v.
Proof. unfold stored. by intros ->. Qed.

Lemma rid_entry_ne : rid ≠ entry_path rid ∧ rid ≠ accum_path rid.
Proof. split; intros E; apply (f_equal String.length) in E; simpl in E; lia. Qed.

(** What one update does to the kept set. *)
Definition after_update (K : gset Z) (issued revoked : list Z) : gset Z :=
  (K ∖ set_of (leaving st issued revoked)) ∪ set_of (entering st issued revoked).

Lemma registry_update_step s1 s2 K c v v' r txn d acc issued revoked
    (cstate : CSt) (cstate_at : chash → CSt) prev reply proof_of config legacy :
  registry_at s1 K →
  revoc_entry_dynamic_validation str_request s1 c v r = Ok v' →
  get_type txn = REVOC_REG_ENTRY → operation r = get_payload_data txn → storable txn rid d acc →
  get_indices ISSUED (VDict d) = Ok issued → get_indices REVOKED (VDict d) = Ok revoked →
  nonneg issued → nonneg revoked →
  use_legacy_sort cstate cstate_at prev reply proof_of config txn = Ok legacy →
  revoc_entry_update_state cstate cstate_at prev reply proof_of config s1 txn = Ok s2 →
  registry_at s2 (after_update K issued revoked) ∧ set_of issued ## set_of revoked.
Proof.
  intros [(def & Hdef & Hst) _ (e & vs & ks & He & Hvs & Hvs0 & Hks & Nks & <-)]
    Hval Hty Hop Hsto Hi Hr Ni Nr Hleg Hup.
  destruct (entry_update_write str_request cstate cstate_at prev reply proof_of config legacy
    s1 c v v' r txn rid Hval Hty Hop (proj1 (sto_rid _ _ _ _ Hsto)) Hleg)
    as (cur' & def' & st' & Hst' & Hent & Hfound & Hw).
  destruct (current_entry_found _ _ _ _ _ _ Hfound) as (? & ? & ? & ? & Hc & Hd & _).
  destruct (stored_reads _ _ _ He) as (? & ? & He'). destruct (stored_reads _ _ _ Hdef) as (? & ? & Hdef').
  rewrite He' in Hc. rewrite Hdef' in Hd. injection Hc as <- _ _. injection Hd as <- _ _.
  rewrite Hst in Hst'. injection Hst' as <-.
  assert (entry_value (VDict e) = Ok (VDict vs)) as Hev.
  { unfold entry_value. cbn [vget_attr]. unfold vget. rewrite Hvs. by destruct vs. }
  destruct (write_lists st legacy s1 (VDict e) vs ks r txn rid d acc issued revoked) as
    (s' & l & e' & w & a & Hw' & Hes & Has & Hframe & Hew & Haw & Hacc & Hk & _ & Hp & _ & Hsub & Hdis); try done; [by intros _..|].
  pose proof (written_nonneg st ks issued revoked l) as Nl.
  rewrite Hw, Hw' in Hup. injection Hup as ->. split.
  - split.
    + exists def. split; [|done]. eapply stored_eq; [|exact Hdef]. apply Hframe; apply rid_entry_ne.
    + exists (VDict a). split; [by eexists _, _|]. by destruct a.
    + exists e', w, l. split; [by eexists _, _|]. split; [done|]. split; [by intros ->|]. split; [|split; [by apply Nl|]].
      * unfold get_indices, get_default. rewrite Hk. apply indices_of_list.
      * apply set_eq. intros y. unfold set_of at 1. rewrite elem_of_list_to_set, Hp. apply elem_of_elements.
  - destruct st; cbn [leaving entering] in Hsub, Hdis; set_solver.
Qed.

(** The kept set of the last state follows from the first one and the history. *)
Lemma registry_history_spec s h s' K :
  registry_history s h s' → registry_at s K →
  ∃ K', registry_at s' K' ∧
    ∀ x, revoked_in st K' x ↔ match last_action h x with Some b => b = true | None => revoked_in st K x end.
Proof.
  intros Hh HK. induction Hh as [|h s1 s2 _ IH Hsame|h s1 s2 c v v' r txn d acc issued revoked
    cstate cstate_at prev reply proof_of config legacy _ IH Hval Hty Hop Hsto Hi Hr Ni Nr Hleg Hup].
  - by exists K.
  - destruct IH as (K1 & [(def & Hd & ?) (a & Ha & ?) (e & vs & ks & He & ?)] & Hx). exists K1. split; [|done].
    split; [exists def|exists a|exists e, vs, ks]; (split; [|done]); (eapply stored_eq; [apply Hsame|done]); set_solver.
  - destruct IH as (K1 & H1 & Hx). destruct (registry_update_step s1 s2 K1 c v v' r txn d acc issued revoked
      cstate cstate_at prev reply proof_of config legacy) as [H2 Hdis]; try done.
    exists (after_update K1 issued revoked). split; [done|]. intros x. rewrite last_action_snoc.
    specialize (Hx x). unfold after_update, set_of in *. revert Hx Hdis. destruct st; cbn [leaving entering revoked_in];
      repeat case_bool_decide; set_solver.
Qed.
End History.

Section delta_lemmas.
Context {bytes St hash R : Type} `{!Serializer bytes, !State bytes St}.
Context (state_at : hash → St) (prev : val → option hash) (proof_of : St → string → val).
Context (make_result : Request → rval → val → val → val → R).

Lemma if_encoded_ser v n t :
  if_encoded (Some (domain_encode_state_value (bytes := bytes) v n t)) = Some (domain_encode_state_value v n t).
Proof. unfold if_encoded, domain_encode_state_value. by rewrite ser_nonempty. Qed.

Lemma decode_encoded v n t :
  decode_state_value (domain_encode_state_value (bytes := bytes) v n t) = Ok (v, n, t).
Proof. cbn. unfold domain_decode_state_value, domain_encode_state_value. by rewrite ser_roundtrip. Qed.

Lemma entry_by_timestamp ts h path v :
  prev ts = Some h → stored (state_at h) path v →
  ∃ n t, get_reg_entry_by_timestamp state_at prev proof_of ts path =
    Ok (mkStateValue (Some h) v n t (proof_of (state_at h) path)).
Proof.
  intros Hp (n & t & Hg). exists n, t. unfold get_reg_entry_by_timestamp, get_value.
  rewrite Hp, Hg, if_encoded_ser, decode_encoded. done.
Qed.

Lemma strategy_of_inv def st :
  strategy_of def = Ok st →
  ∃ d value typ, def = VDict d ∧ vgetitem VALUE def = Ok value ∧ vgetitem ISSUANCE_TYPE value = Ok typ ∧
    get_revocation_strategy typ = Some st.
Proof.
  unfold strategy_of. intros H. bind H as value Hv. bind H as typ Ht.
  destruct (get_revocation_strategy typ) eqn:E; [|done]. injection H as ->.
  destruct def; try done. by eexists _, value, typ.
Qed.

(** The lists of an entry, and the kept one among them. *)
Lemma lists_of_entry (sv : StateValue (hash := hash)) st e vs ks :
  sv_value sv = VDict e → dget VALUE e = Some (VDict vs) → get_indices (kept st) (VDict vs) = Ok ks →
  ∃ i r k, lists_of sv = Ok (VDict [(ISSUED, i); (REVOKED, r)]) ∧
    vgetitem (kept st) (VDict [(ISSUED, i); (REVOKED, r)]) = Ok k ∧ indices_of k = Ok ks.
Proof.
  intros Hv He Hk. unfold lists_of. rewrite Hv. cbn [vgetitem]. unfold dgetitem at 1. rewrite He.
  cbn [res_bind get_list]. unfold get_indices in Hk.
  eexists _, _, (get_default (kept st) (VList []) vs). split; [done|]. by destruct st.
Qed.

(** The delta of two entries, of which [K1] and [K2] are the kept sets. *)
Lemma get_delta_lists st d1 d2 l1 l2 k1 k2 :
  vgetitem (kept st) d1 = Ok l1 → indices_of l1 = Ok k1 →
  vgetitem (kept st) d2 = Ok l2 → indices_of l2 = Ok k2 →
  ∃ issued revoked, get_delta st d2 (Some d1) = Ok (RSet issued, RSet revoked) ∧
    (∀ x, x ∈ revoked ↔ ¬ revoked_in st (set_of k1) x ∧ revoked_in st (set_of k2) x) ∧
    (∀ x, x ∈ issued ↔ revoked_in st (set_of k1) x ∧ ¬ revoked_in st (set_of k2) x).
Proof.
  intros H1 E1 H2 E2. unfold get_delta. rewrite H1, H2. cbn [res_bind]. rewrite E1, E2. cbn [res_bind].
  destruct st; eexists _, _; (split; [done|]); split; intros x; cbn [revoked_in];
    destruct (decide (x ∈ set_of k1)), (decide (x ∈ set_of k2)); set_solver.
Qed.

(** The answer for a registry that is there at both times. *)
Lemma delta_between rid st K1 K2 h1 h2 ts1 ts2 r :
  registry_at rid st (state_at h1) K1 → registry_at rid st (state_at h2) K2 →
  prev (VInt ts1) = Some h1 → prev (VInt ts2) = Some h2 → ts1 ≠ 0%Z →
  vget TXN_TYPE (operation r) = VStr GET_REVOC_REG_DELTA →
  vget FROM (operation r) = VInt ts1 → vget TO (operation r) = VInt ts2 →
  vget REVOC_REG_DEF_ID (operation r) = VStr rid →
  ∃ reply value issued revoked a1 a2 n t,
    delta_get_result state_at prev proof_of make_result r =
      Ok (make_result r (RDict reply) n t (proof_of (state_at h2) (accum_path rid))) ∧
    dget VALUE reply = Some (RDict value) ∧
    dget ISSUED value = Some (RSet issued) ∧ dget REVOKED value = Some (RSet revoked) ∧
    stored (state_at h1) (accum_path rid) a1 ∧ dget ACCUM_FROM value = Some (RVal a1) ∧
    stored (state_at h2) (accum_path rid) a2 ∧ dget ACCUM_TO value = Some (RVal a2) ∧
    (∀ x, x ∈ revoked ↔ ¬ revoked_in st K1 x ∧ revoked_in st K2 x) ∧
    (∀ x, x ∈ issued ↔ revoked_in st K1 x ∧ ¬ revoked_in st K2 x).
Proof.
  intros [_ (a1 & Ha1 & Ta1) (e1 & vs1 & k1 & He1 & Hv1 & _ & Hk1 & _ & <-)]
    [(def & Hdef & Hst) (a2 & Ha2 & Ta2) (e2 & vs2 & k2 & He2 & Hv2 & _ & Hk2 & _ & <-)] Hp1 Hp2 Hts Hty Hf Ht Hr.
  destruct (entry_by_timestamp _ _ _ _ Hp1 He1) as (n1 & t1 & E1).
  destruct (entry_by_timestamp _ _ _ _ Hp1 Ha1) as (n1' & t1' & A1).
  destruct (entry_by_timestamp _ _ _ _ Hp2 He2) as (n2 & t2 & E2).
  destruct (entry_by_timestamp _ _ _ _ Hp2 Ha2) as (n2' & t2' & A2).
  destruct (strategy_of_inv def st Hst) as (dd & dv & typ & -> & Hdv & Htyp & Hstr).
  destruct (lists_of_entry (mkStateValue (Some h1) (VDict e1) n1 t1 (proof_of (state_at h1) (entry_path rid)))
    st e1 vs1 k1 eq_refl Hv1 Hk1) as (i1 & r1 & l1 & L1 & G1 & I1).
  destruct (lists_of_entry (mkStateValue (Some h2) (VDict e2) n2 t2 (proof_of (state_at h2) (entry_path rid)))
    st e2 vs2 k2 eq_refl Hv2 Hk2) as (i2 & r2 & l2 & L2 & G2 & I2).
  destruct (get_delta_lists st _ _ _ _ _ _ G1 I1 G2 I2) as (issued & revoked & Hdelta & Hrev & Hiss).
  assert (py_truth (VDict e1) = true ∧ py_truth (VDict e2) = true) as [Te1 Te2] by (by destruct e1, e2).
  assert (py_truth (VInt ts1) = true) as Hts' by (by apply int_nonzero_truth).
  eexists _, _, issued, revoked, a1, a2, _, _. split.
  - unfold delta_get_result, validate_request_type. rewrite Hty, Hf, Ht, Hr. cbn [py_eq].
    rewrite str_eqb_refl. cbn [res_bind]. unfold get_reg_entry_accum_by_timestamp.
    fold (entry_path rid) (accum_path rid). rewrite E2, A2. cbn [res_bind sv_value sv_root_hash].
    rewrite Ta2, Te2. cbn [andb]. destruct Hdef as (n & t & Hdef). cbn [mbind option_bind py_str].
    rewrite Hdef, if_encoded_ser. cbn [res_bind]. rewrite decode_encoded. cbn [res_bind].
    unfold delta_reply. rewrite Hdv. cbn [res_bind]. rewrite Htyp. cbn [res_bind]. rewrite L2. cbn [res_bind].
    rewrite Hts'. unfold get_reg_entry_accum_by_timestamp. rewrite E1, A1. cbn [res_bind sv_value andb].
    rewrite Te1, Ta1. cbn [andb]. rewrite L1. cbn [res_bind]. rewrite Hstr, Hdelta. cbn [res_bind vget_attr].
    cbn [sv_value sv_seq_no sv_update_time sv_proof]. rewrite Te1. reflexivity.
  - do 7 (split; [try done; reflexivity|]). done.
Qed.
End delta_lemmas.

Section version_lemmas.
Context {bytes St hash : Type} `{!Serializer bytes, !State bytes St}.
Context (state : St) (state_at : hash → St) (prev : val → option hash).
Context (reply : val → option (option Txn)) (proof_of : St → string → val).

(** The request asks for the version as of a time, directly or by the number of
    a transaction of that time. *)
Definition asks_version (r : Request) (ts : Z) : Prop :=
  let '(time, seq_no) := (vget VERSION_TIME (operation r), vget VERSION_ID (operation r)) in
  (time = VInt ts ∧ seq_no = VNone) ∨
  (time = VNone ∧ ∃ n txn, seq_no = VInt n ∧ n ≠ 0%Z ∧ reply (VInt n) = Some (Some txn) ∧
     get_txn_time txn = Some ts).

Lemma version_found r ts h path :
  asks_version r ts → ts ≠ 0%Z → prev (VInt ts) = Some h →
  one_version r (vget VERSION_TIME (operation r)) (vget VERSION_ID (operation r)) = Ok tt ∧
  lookup_version state state_at prev reply proof_of path (vget VERSION_ID (operation r))
    (vget VERSION_TIME (operation r)) true =
    Ok (st_get (state_at h) path, proof_of (state_at h) path).
Proof.
  intros Hask Hts Hp. assert (py_truth (VInt ts) = true) as Ht by (by apply int_nonzero_truth).
  destruct Hask as [[-> ->]|(-> & n & txn & -> & Hn & Hr & Htime)].
  - unfold one_version, lookup_version, lookup_at. change (py_truth VNone) with false.
    rewrite Ht. cbn [is_none negb andb]. by rewrite Hp.
  - assert (py_truth (VInt n) = true) as Hn' by (by apply int_nonzero_truth).
    unfold one_version, lookup_version, lookup_at, timestamp_from_seq_no. change (py_truth VNone) with false.
    cbn [is_none negb andb]. rewrite Hn', Hr, Htime. cbn [opt_int]. rewrite Ht. cbn [negb]. by rewrite Hp.
Qed.
End version_lemmas.

Lemma dgetitem_Some {A} k (d : dict A) v : dget k d = Some v → dgetitem k d = Ok v.
Proof. unfold dgetitem. by intros ->. Qed.

Lemma type_checked ty r : vget TXN_TYPE (operation r) = VStr ty → validate_request_type ty r = Ok tt.
Proof. unfold validate_request_type. intros ->. cbn [py_eq]. by rewrite str_eqb_refl. Qed.

(** ** Properties *)

(** C6. The delta of a registry is its net history.  Let the ledger go from the
    state at FROM to the state at TO by accepted updates of the registry, each
    written by the handler, and by transactions that do not touch it.  Then the
    query answers, with the accumulators of both times: an index is in the
    revoked set exactly when it was not revoked at FROM and the last update that
    names it revokes it, and in the issued set exactly when it was revoked at
    FROM and the last update that names it issues it, for both strategies. *)
Theorem delta_of_history {bytes St CSt hash chash root S R} `{!Serializer bytes, !State bytes St,
    !State bytes CSt, !OptimisticStore S root} {RL : Rlp} str_request
    (state_at : hash → St) prev proof_of (make_result : Request → rval → val → val → val → R)
    rid st K hist h1 h2 ts1 ts2 r :
  registry_at rid st (state_at h1) K →
  registry_history (CSt := CSt) (chash := chash) (S := S) str_request rid (state_at h1) hist (state_at h2) →
  prev (VInt ts1) = Some h1 → prev (VInt ts2) = Some h2 → ts1 ≠ 0%Z →
  vget TXN_TYPE (operation r) = VStr GET_REVOC_REG_DELTA →
  vget FROM (operation r) = VInt ts1 → vget TO (operation r) = VInt ts2 →
  vget REVOC_REG_DEF_ID (operation r) = VStr rid →
  ∃ reply value issued revoked a1 a2 n t,
    delta_get_result state_at prev proof_of make_result r =
      Ok (make_result r (RDict reply) n t (proof_of (state_at h2) (accum_path rid))) ∧
    dget VALUE reply = Some (RDict value) ∧
    dget ISSUED value = Some (RSet issued) ∧ dget REVOKED value = Some (RSet revoked) ∧
    stored (state_at h1) (accum_path rid) a1 ∧ dget ACCUM_FROM value = Some (RVal a1) ∧
    stored (state_at h2) (accum_path rid) a2 ∧ dget ACCUM_TO value = Some (RVal a2) ∧
    (∀ x, x ∈ revoked ↔ ¬ revoked_in st K x ∧ last_action hist x = Some true) ∧
    (∀ x, x ∈ issued ↔ revoked_in st K x ∧ last_action hist x = Some false).
Proof.
  intros HK Hh Hp1 Hp2 Hts Hty Hf Ht Hr.
  destruct (registry_history_spec str_request rid st _ _ _ _ Hh HK) as (K2 & HK2 & Hx).
  destruct (delta_between state_at prev proof_of make_result rid st K K2 h1 h2 ts1 ts2 r HK HK2)
    as (reply & value & issued & revoked & a1 & a2 & n & t & Hres & Hv & Hi & Hrv & Hs1 & Hf1 & Hs2 & Hf2 & HR & HI);
    try done.
  exists reply, value, issued, revoked, a1, a2, n, t. do 8 (split; [done|]). split; intros x.
  - rewrite HR, Hx. destruct (last_action hist x) as [[]|]; naive_solver.
  - rewrite HI, Hx. destruct (last_action hist x) as [[]|]; naive_solver.
Qed.

(** The sample registry with its accumulator, and the state after its update. *)
Definition registry_before : gmap string val :=
  st_set sample_registry (accum_path registry_id)
    (domain_encode_state_value (VDict [(VALUE, VDict [(ACCUM, VStr "a1")])]) (VInt 4) (VInt 60)).

Definition registry_after : gmap string val :=
  match revoc_entry_update_state (∅ : gmap string val) (λ _ : unit, ∅ : gmap string val) (λ _, None)
      (λ _, None) (λ _ _, VNone) true registry_before registry_txn with
  | Ok s => s | Raise _ => ∅
  end.

Lemma registry_before_at : registry_at registry_id RevokedStrategy registry_before (set_of [3%Z]).
Proof.
  split.
  - eexists. split; [eexists _, _; vm_compute; reflexivity|reflexivity].
  - eexists. split; [eexists _, _; vm_compute; reflexivity|reflexivity].
  - eexists _, _, [3%Z]. split; [eexists _, _; vm_compute; reflexivity|].
    split; [reflexivity|]. split; [discriminate|]. split; [reflexivity|]. split; [repeat constructor; lia|done].
Qed.

Lemma registry_after_history :
  registry_history (S := MapStore) (chash := unit) (CSt := gmap string val) (λ _, "") registry_id
    registry_before [([3%Z], [9; 5]%Z)] registry_after.
Proof.
  assert (∃ v', revoc_entry_dynamic_validation (λ _, "") registry_before sample_trustee_cache
    (default_validator (∅ : gmap string val) false) registry_request = Ok v') as [v' Hv]
    by (eexists; vm_compute; reflexivity).
  eapply (history_update (λ _, "") registry_id registry_before [] registry_before registry_after
    sample_trustee_cache _ v' registry_request registry_txn sample_value (VStr "a2") [3%Z] [9; 5]%Z
    (∅ : gmap string val) (λ _ : unit, ∅ : gmap string val) (λ _, None) (λ _, None) (λ _ _, VNone) true true).
  - constructor.
  - exact Hv.
  - reflexivity.
  - reflexivity.
  - exact registry_storable.
  - reflexivity.
  - reflexivity.
  - repeat constructor; lia.
  - repeat constructor; lia.
  - reflexivity.
  - vm_compute. reflexivity.
Qed.

Definition delta_request : Request :=
  definition_request GET_REVOC_REG_DELTA
    [(FROM, VInt 70); (TO, VInt 120); (REVOC_REG_DEF_ID, VStr registry_id)].

Lemma delta_of_history_witness :
  ∃ issued revoked, (∀ x, x ∈ revoked ↔ x ∉ set_of [3%Z] ∧ last_action [([3%Z], [9; 5]%Z)] x = Some true) ∧
    (∀ x, x ∈ issued ↔ x ∈ set_of [3%Z] ∧ last_action [([3%Z], [9; 5]%Z)] x = Some false) ∧
    ∃ reply value n t,
      delta_get_result (λ b : bool, if b then registry_after else registry_before)
        (λ ts, Some (py_eq ts (VInt 120))) (λ _ _, VNone) (λ _ d n t _, (d, n, t)) delta_request =
        Ok (RDict reply, n, t) ∧
      dget VALUE reply = Some (RDict value) ∧ dget ISSUED value = Some (RSet issued) ∧
      dget REVOKED value = Some (RSet revoked).
Proof.
  destruct (delta_of_history (CSt := gmap string val) (chash := unit) (S := MapStore) (λ _, "")
    (λ b : bool, if b then registry_after else registry_before) (λ ts, Some (py_eq ts (VInt 120)))
    (λ _ _, VNone) (λ _ d n t _, (d, n, t)) registry_id RevokedStrategy (set_of [3%Z])
    [([3%Z], [9; 5]%Z)] false true 70 120 delta_request registry_before_at registry_after_history)
    as (reply & value & issued & revoked & a1 & a2 & n & t & Hres & Hv & Hi & Hr & _ & _ & _ & _ & HR & HI);
    [reflexivity|reflexivity|discriminate|reflexivity..|].
  exists issued, revoked. split; [exact HR|]. split; [exact HI|]. exists reply, value, n, t.
  exact (conj Hres (conj Hv (conj Hi Hr))).
Defined.

(** GET_NYM answers with the record as of the version asked for.  If the
    last NYM transaction for a DID up to a time was [txn], a query for that
    time, or for the number of a transaction of that time, returns the record
    [txn] left, with the DID in it, and the number and the time of [txn]. *)
Theorem nym_query_as_of {bytes St hash} `{!Serializer bytes, !State bytes St, !NymState bytes St}
    (now s s' : St) (state_at : hash → St) prev reply proof_of make_result nym_path bytes_val
    txn data nym h ts r :
  nym_path nym = nym_to_state_key nym →
  vget TARGET_NYM (get_payload_data txn) = VStr nym → update_state s txn = Ok (s', data) →
  st_get (state_at h) (nym_to_state_key nym) = st_get s' (nym_to_state_key nym) →
  prev (VInt ts) = Some h → ts ≠ 0%Z → asks_version reply r ts →
  vget TXN_TYPE (operation r) = VStr GET_NYM → dget TARGET_NYM (operation r) = Some (VStr nym) →
  get_nym_result now state_at prev reply proof_of make_result nym_path bytes_val r =
    Ok (dupdate (make_result r (bytes_val (ser_serialize (VDict (dset TARGET_NYM (VStr nym) data))))
                   (opt_int (get_seq_no txn)) (opt_int (get_txn_time txn))
                   (proof_of (state_at h) (nym_path nym)))
         (operation r)).
Proof.
  intros Hpath Hnym Hup Hsame Hp Hts Hask Hty Hdest.
  apply update_state_inv in Hup as (nym' & d & b & Hn & _ & _ & Hdata & ->).
  rewrite Hnym in Hn. injection Hn as <-. rewrite st_get_set_eq in Hsame.
  destruct (version_found now state_at prev reply proof_of r ts h (nym_path nym) Hask Hts Hp) as [Hone Hv].
  unfold get_nym_result. rewrite (type_checked _ _ Hty), (dgetitem_Some _ _ _ Hdest). cbn [res_bind did_of].
  rewrite Hone. cbn [res_bind]. rewrite Hv. cbn [res_bind]. rewrite Hpath, Hsame.
  unfold if_encoded. rewrite ser_nonempty, ser_roundtrip. cbn [res_bind].
  destruct (new_record_stamp txn d b) as [Hs Ht]. rewrite <- Hdata in Hs, Ht.
  assert (is_Some (dget SEQ_NO data) ∧ is_Some (dget TXN_TIME data)) as [[n En] [t Et]].
  { rewrite Hdata, !dget_dupdate by apply new_nym_data_NoDup. unfold new_nym_data.
    by autorewrite with indy. }
  unfold dgetitem. rewrite !dget_dset_ne by done. unfold vget in Hs, Ht. rewrite En in Hs |- *.
  rewrite Et in Ht |- *. by rewrite Hs, Ht.
Qed.

Lemma nym_query_as_of_witness :
  ∃ s' data, update_state (∅ : gmap string val) sample_nym_txn = Ok (s', data) ∧
    get_nym_result ∅ (λ _ : unit, s') (λ _, Some tt) (λ _, None) (λ _ _, VNone)
      (λ _ d n t _, [("data", d); ("n", n); ("t", t)]) (λ nym, "nym:" +:+ nym) (λ b, b)
      (definition_request GET_NYM [(TARGET_NYM, VStr "O"); (VERSION_TIME, VInt 500)]) =
    Ok (dupdate [("data", VDict (dset TARGET_NYM (VStr "O") data)); ("n", opt_int (get_seq_no sample_nym_txn));
          ("t", opt_int (get_txn_time sample_nym_txn))]
         [(TXN_TYPE, VStr GET_NYM); (TARGET_NYM, VStr "O"); (VERSION_TIME, VInt 500)]).
Proof.
  assert (∃ s' data, update_state (∅ : gmap string val) sample_nym_txn = Ok (s', data))
    as (s' & data & H) by (eexists _, _; reflexivity).
  exists s', data. split; [exact H|].
  refine (nym_query_as_of (∅ : gmap string val) (∅ : gmap string val) s' (λ _ : unit, s') (λ _, Some tt) (λ _, None)
    (λ _ _, VNone) (λ _ d n t _, [("data", d); ("n", n); ("t", t)]) (λ nym, "nym:" +:+ nym) (λ b, b)
    sample_nym_txn data "O" tt 500
    (definition_request GET_NYM [(TARGET_NYM, VStr "O"); (VERSION_TIME, VInt 500)]) _ _ H _ _ _ _ _ _);
    [reflexivity|reflexivity|reflexivity|reflexivity|discriminate| |reflexivity..].
  left. split; reflexivity.
Defined.

(** GET_ATTR answers with the raw attribute as of the version asked for.
    If the last ATTRIB transaction for an attribute of a DID up to a time was
    [txn], and the attribute store still has the data under its hash, a query by
    the attribute's name for that time, or for the number of a transaction of
    that time, returns the data and the number and the time of [txn]. *)
Theorem attribute_query_as_of {bytes St hash A} `{!Serializer bytes, !State bytes St, !StateCodec bytes,
    !AttributeStore A} sha256_hex sha256_hex_bytes raw_deserialize raw_serialize
    (now s s' : St) (state_at : hash → St) prev reply proof_of make_result
    (attrs attrs' later : A) txn nym raw doc k x h ts r :
  (∀ d, raw_serialize d ≠ "") → (∀ v n t, bytes_truth (encode_state_value v n t) = true) →
  get_type txn = ATTRIB → dget TARGET_NYM (get_payload_data txn) = Some (VStr nym) →
  dget RAW (get_payload_data txn) = Some raw →
  dget ENC (get_payload_data txn) = None → dget HASH (get_payload_data txn) = None →
  raw_deserialize raw = Ok (VDict (doc ++ [(k, x)])) →
  let text := raw_serialize (VDict (doc ++ [(k, x)])) in
  attrib_update_state sha256_hex sha256_hex_bytes raw_deserialize raw_serialize s attrs txn = Ok (s', attrs') →
  st_get (state_at h) (raw_attr_path sha256_hex nym k) = st_get s' (raw_attr_path sha256_hex nym k) →
  as_get later (sha256_hex text) = as_get attrs' (sha256_hex text) →
  prev (VInt ts) = Some h → ts ≠ 0%Z → asks_version reply r ts →
  vget TXN_TYPE (operation r) = VStr GET_ATTR → dget TARGET_NYM (operation r) = Some (VStr nym) →
  dget RAW (operation r) = Some (VStr k) → dget ENC (operation r) = None → dget HASH (operation r) = None →
  get_attr_result now state_at prev reply proof_of make_result sha256_hex later r =
    Ok (make_result r (VStr text) (opt_int (get_seq_no txn)) (opt_int (get_txn_time txn))
          (proof_of (state_at h) (raw_attr_path sha256_hex nym k))).
Proof.
  intros Hser Hne Hty Hnym Hraw Henc Hhash Hdoc text Hup Hsame Hlater Hp Hts Hask Hrty Hrnym Hrraw Hrenc Hrhash.
  rewrite (raw_update _ _ _ _ _ _ _ nym raw doc k x) in Hup by done. injection Hup as <- <-.
  fold text in Hsame, Hlater. rewrite st_get_set_eq in Hsame. rewrite as_get_set_eq in Hlater.
  destruct (version_found now state_at prev reply proof_of r ts h (raw_attr_path sha256_hex nym k) Hask Hts Hp)
    as [Hone Hv].
  unfold get_attr_result. rewrite (type_checked _ _ Hrty). cbn [res_bind]. rewrite Hone. cbn [res_bind].
  unfold validate_attrib_keys, get_attr_type, dhas. cbn [List.filter]. rewrite Hrraw, Hrenc, Hrhash.
  cbn [negb length Nat.eqb]. rewrite (dgetitem_Some _ _ _ Hrnym), (dgetitem_Some _ _ _ Hrraw).
  change (str_eqb RAW HASH) with false. cbn [res_bind make_state_path_for_attr].
  fold (raw_attr_path sha256_hex nym k). rewrite Hv. cbn [res_bind]. rewrite Hsame.
  unfold if_encoded. rewrite Hne, codec_roundtrip. cbn [res_bind get_value_from_attribute_store].
  by rewrite Hlater.
Qed.

Lemma attribute_query_as_of_witness :
  ∃ s' attrs', attrib_update_state (λ s, "h" +:+ s) (λ _, "h") (λ _, Ok two_keys) (λ _, "text")
      (∅ : gmap string val) (∅ : gmap string val) sample_attr_txn = Ok (s', attrs') ∧
    get_attr_result ∅ (λ _ : unit, s') (λ _, Some tt) (λ _, Some (Some sample_attr_txn)) (λ _ _, VNone)
      (λ _ d n t _, [("data", d); ("n", n); ("t", t)]) (λ s, "h" +:+ s) attrs'
      (definition_request GET_ATTR [(TARGET_NYM, VStr "O"); (RAW, VStr "name"); (VERSION_ID, VInt 3)]) =
    Ok [("data", VStr "text"); ("n", VInt 3); ("t", VInt 4)].
Proof.
  assert (∃ s' attrs', attrib_update_state (λ s, "h" +:+ s) (λ _, "h") (λ _, Ok two_keys) (λ _, "text")
      (∅ : gmap string val) (∅ : gmap string val) sample_attr_txn = Ok (s', attrs'))
    as (s' & attrs' & H) by (eexists _, _; reflexivity).
  exists s', attrs'. split; [exact H|].
  apply (attribute_query_as_of (λ s, "h" +:+ s) (λ _, "h") (λ _, Ok two_keys) (λ _, "text")
    (∅ : gmap string val) (∅ : gmap string val) s' (λ _ : unit, s') (λ _, Some tt) (λ _, Some (Some sample_attr_txn))
    (λ _ _, VNone) (λ _ d n t _, [("data", d); ("n", n); ("t", t)]) (∅ : gmap string val) attrs' attrs'
    sample_attr_txn "O" (VStr "json") [("endpoint", VStr "here")] "name" (VStr "there") tt 4
    (definition_request GET_ATTR [(TARGET_NYM, VStr "O"); (RAW, VStr "name"); (VERSION_ID, VInt 3)]));
    [discriminate|reflexivity|reflexivity|reflexivity|reflexivity|reflexivity|reflexivity|reflexivity|exact H
    |reflexivity|reflexivity|reflexivity|discriminate| |reflexivity..].
  right. split; [reflexivity|]. exists 3%Z, sample_attr_txn. split; [reflexivity|].
  split; [discriminate|]. split; reflexivity.
Defined.

(** C38. Definitions read back through their queries.  After a SCHEMA, CLAIM_DEF
    or REVOC_REG_DEF transaction is applied, the query with the author and the
    names of the transaction (the signature type and the tag may be left to
    their defaults on either side), or with its identifier, returns what the
    transaction defined, and the number and the time of the transaction. *)
Theorem definition_queries_read_back {bytes St} `{!Serializer bytes, !State bytes St, !StateCodec bytes}
    (s s' : St) proof_of make_result txn author r :
  get_from txn = Some author →
  let stamped data path :=
    make_result r data (opt_int (get_seq_no txn)) (opt_int (get_txn_time txn)) (proof_of s' path) in
  (∀ name ver attrs, schema_update_state s txn = Ok s' →
     get_txn_schema_name txn = Ok name → get_txn_schema_version txn = Ok ver →
     get_txn_schema_attr_names txn = Ok attrs → name ≠ VNone → ver ≠ VNone →
     vget TXN_TYPE (operation r) = VStr GET_SCHEMA → get_read_schema_from r = Ok (VStr author) →
     get_read_schema_name r = Ok name → get_read_schema_version r = Ok ver →
     get_schema_result s' proof_of make_result r =
       Ok (stamped (VDict [(SCHEMA_ATTR_NAMES, attrs); (SCHEMA_NAME, name); (SCHEMA_VERSION, ver)])
             (schema_make_state_path (VStr author) name ver))) ∧
  (∀ ref keys, claim_def_update_state s txn = Ok s' →
     get_txn_claim_def_schema_ref txn = Ok ref → get_txn_claim_def_public_keys txn = Ok keys → ref ≠ VNone →
     vget TXN_TYPE (operation r) = VStr GET_CLAIM_DEF → get_read_claim_def_from r = Ok (VStr author) →
     get_read_claim_def_schema_ref r = Ok ref →
     get_read_claim_def_signature_type r = get_txn_claim_def_signature_type txn →
     get_read_claim_def_tag r = get_txn_claim_def_tag txn →
     get_claim_def_result s' proof_of make_result r =
       Ok (dset CLAIM_DEF_SIGNATURE_TYPE (get_txn_claim_def_signature_type txn)
             (stamped keys (claim_def_make_state_path (VStr author) ref
                (get_txn_claim_def_signature_type txn) (get_txn_claim_def_tag txn))))) ∧
  (∀ id, revoc_def_update_state s txn = Ok s' → revoc_def_gen_txn_id (bytes := bytes) txn = Ok id →
     vget TXN_TYPE (operation r) = VStr GET_REVOC_REG_DEF → vget ID (operation r) = VStr id → id ≠ "" →
     get_revoc_reg_def_result s' proof_of make_result r =
       Ok (stamped (VDict (get_payload_data txn)) id)).
Proof.
  intros Hfrom stamped. split_and!.
  - intros name ver attrs Hup Hn Hv Ha Nn Nv Hty Hrf Hrn Hrv.
    unfold schema_update_state, schema_prepare_for_state in Hup. rewrite Hfrom, Hn, Hv, Ha in Hup.
    bind Hup as u Hu. injection Hup as <-.
    unfold get_schema_result. rewrite (type_checked _ _ Hty), Hrf, Hrn, Hrv. cbn [res_bind].
    unfold get_schema, assert_not_none, lookup_or_none, set_prepared. destruct name, ver; try done;
      cbn [is_none res_bind fst snd]; unfold encode_txn_value; rewrite get_from_state_set; reflexivity.
  - intros ref keys Hup Href Hkeys Nref Hty Hrf Hrr Hrs Hrt.
    unfold claim_def_update_state, claim_def_prepare_for_state in Hup. rewrite Hfrom, Href, Hkeys in Hup.
    bind Hup as u Hu. cbn [res_bind] in Hup. bind Hup as p Hp. injection Hup as <-.
    bind Hp as u1 _. bind Hp as u2 _. injection Hp as <-.
    unfold get_claim_def_result. rewrite (type_checked _ _ Hty), Hrf, Hrr, Hrs, Hrt. cbn [res_bind].
    unfold get_claim_def, assert_not_none, lookup_or_none, set_prepared. destruct ref; try done;
      cbn [is_none res_bind fst snd]; unfold encode_txn_value; rewrite get_from_state_set; reflexivity.
  - intros id Hup Hid Hty Hrid Nid.
    unfold revoc_def_update_state, revoc_def_gen_txn_id, revoc_def_prepare_for_state in *.
    bind Hup as u Hu. rewrite Hu in Hid. cbn [res_bind] in Hid. bind Hup as p Hp. injection Hup as <-.
    do 4 (let E := fresh in bind Hp as ? E; rewrite E in Hid; cbn [res_bind] in Hid). injection Hid as <-.
    bind Hp as b Hb. injection Hp as <-. do 2 (bind Hb as ? _). injection Hb as <-.
    unfold get_revoc_reg_def_result. rewrite (type_checked _ _ Hty), Hrid. cbn [res_bind].
    rewrite (py_assert_true (VStr _)) by (by apply str_nonempty_truth). cbn [res_bind did_of].
    unfold lookup_or_none, set_prepared. cbn [fst snd]. unfold encode_txn_value. by rewrite get_from_state_set.
Qed.

Lemma definition_queries_read_back_witness :
  ∃ s', schema_update_state (∅ : gmap string val) sample_schema_txn = Ok s' ∧
    get_schema_result s' (λ _ _, VNone) (λ _ d n t _, [("data", d); ("n", n); ("t", t)])
      (definition_request GET_SCHEMA [(SCHEMA_FROM, VStr "T");
         (DATA, VDict [(SCHEMA_NAME, VStr "n"); (SCHEMA_VERSION, VStr "1.0")])]) =
    Ok [("data", VDict [(SCHEMA_ATTR_NAMES, VList [VStr "a"]); (SCHEMA_NAME, VStr "n"); (SCHEMA_VERSION, VStr "1.0")]);
        ("n", VInt 3); ("t", VInt 4)].
Proof.
  assert (∃ s', schema_update_state (∅ : gmap string val) sample_schema_txn = Ok s') as [s' H]
    by (eexists; reflexivity).
  exists s'. split; [exact H|].
  destruct (definition_queries_read_back (∅ : gmap string val) s' (λ _ _, VNone)
    (λ _ d n t _, [("data", d); ("n", n); ("t", t)]) sample_schema_txn "T"
    (definition_request GET_SCHEMA [(SCHEMA_FROM, VStr "T");
       (DATA, VDict [(SCHEMA_NAME, VStr "n"); (SCHEMA_VERSION, VStr "1.0")])]) eq_refl) as [Hs _].
  apply (Hs (VStr "n") (VStr "1.0") (VList [VStr "a"]) H); first [reflexivity|discriminate].
Defined.
