(* ===== verification/NodeHandler.v ===== *)
(** * Nodes of the pool

    [pool_req_handlers/node_handler.py]: who may add a node to the pool ledger and
    who may change which field of it.  The handler extends plenum's: the checks
    of the data of a node, the search for nodes of a steward and the reading of
    the pool state are plenum's and parameters; a check answers with an error
    text, or with none. *)
From S2P Require Import Prelude PyValue Plenum Constants AuthActions AuthConstraints Authorizer AuthorizerSpec AuthStrategy AuthMap StateDomain IdrCache HandlerBase DefinitionHandlers.

Definition SERVICES : string := "services".
Definition VALIDATOR : string := "VALIDATOR".
Definition BLS_KEY_PROOF : string := "blskey_pop".

(** [if error]: an error text that is not empty. *)
Definition as_error (e : option string) : option string :=
  match e with Some s => if str_truth s then Some s else None | None => None end.

(** [not v] becomes the empty list. *)
Definition or_no_services (v : val) : val := if py_truth v then v else VList [].

Section NodeHandler.
Context {bytes St CSt root S : Type} `{!Serializer bytes, !State bytes St, !State bytes CSt}.
Context `{!OptimisticStore S root} {RL : Rlp} (str_request : Request → string).
Context (data_error_while_validating : val → option string).
Context (steward_has_node : val → bool) (is_node_data_conflicting : val → option string).
Context (super_auth_error_while_updating_node : Request → res (option string)).
Context (data_error_while_validating_update : val → val → option string).
Context (is_steward_of_node_of_pool : val → val → bool) (pool_get_from_state : val → res val).
Notation Validator := (WriteRequestValidator (St := CSt)).
Implicit Types (state : St) (c : S) (v : Validator).

(** [_is_steward] *)
Definition is_steward c (nym : string) (is_committed : bool) : res bool := hasSteward c nym is_committed.

(** [_get_node_data] *)
Definition get_node_data state (nym : string) : res val :=
  match st_get state nym with
  | Some data => if bytes_truth data then ser_deserialize data else Ok (VDict [])
  | None => Ok (VDict [])
  end.

(** [_auth_error_while_adding_node]: an error, or none and the authorization. *)
Definition auth_error_while_adding_node c v (request : Request) : res (option string * Validator) :=
  let origin := opt_str (identifier request) in
  let data := get_default DATA (VDict []) (operation request) in
  match as_error (data_error_while_validating data) with
  | Some error => Ok (Some error, v)
  | None =>
      if steward_has_node origin then Ok (Some (py_str origin +:+ " already has a node"), v) else
      match as_error (is_node_data_conflicting data) with
      | Some error =>
          Ok (Some ("existing data has conflicts with request data " +:+
                    py_str (vget DATA (operation request)) +:+ ". Error: " +:+ error), v)
      | None =>
          let! services := match data with
                           | VDict d => Ok (get_default SERVICES (VList [VStr VALIDATOR]) d)
                           | _ => Raise AttributeError
                           end in
          let! v' := validate_action str_request c v request (AuthActionAdd NODE (VStr SERVICES) services true) in
          Ok (None, v')
      end
  end.

(** The old value of a field and the new one, as the loop compares them. *)
Definition field_change (node_info : val) (kv : string * val) : res (val * val) :=
  let '(k, new_val) := kv in
  let! old_val := if py_truth node_info then vget_attr k node_info else Ok VNone in
  Ok (if str_eqb k SERVICES then (or_no_services old_val, or_no_services new_val) else (old_val, new_val)).

(** One round of the loop over the data. *)
Definition validate_field c (request : Request) (node_info : val) (is_steward_of_node : bool)
    v (kv : string * val) : res Validator :=
  if str_eqb kv.1 BLS_KEY_PROOF then Ok v else
  let! (old_val, new_val) := field_change node_info kv in
  if py_eq old_val new_val then Ok v
  else validate_action str_request c v request
         (AuthActionEdit NODE (VStr kv.1) old_val new_val is_steward_of_node).

(** [_auth_error_while_updating_node] *)
Definition auth_error_while_updating_node c v (request : Request) : res (option string * Validator) :=
  let! origin := did_of (opt_str (identifier request)) in
  let! is_trustee := hasTrustee c origin false in
  let! error := if negb is_trustee then super_auth_error_while_updating_node request else Ok None in
  match as_error error with
  | Some error => Ok (Some error, v)
  | None =>
      let node_nym := vget TARGET_NYM (operation request) in
      let data := get_default DATA (VDict []) (operation request) in
      match as_error (data_error_while_validating_update data node_nym) with
      | Some error => Ok (Some error, v)
      | None =>
          let is_steward_of_node := is_steward_of_node_of_pool (VStr origin) node_nym in
          let! node_info := pool_get_from_state node_nym in
          let! data := match data with VDict d => Ok d | _ => Raise AttributeError end in
          let data := List.filter (λ kv, negb (str_eqb kv.1 ALIAS)) data in
          let! v' := res_fold (validate_field c request node_info is_steward_of_node) v data in
          Ok (None, v')
      end
  end.

(** ** Lemmas *)

(** A change of a field the loop asks about. *)
Definition changed (node_info : val) (kv : string * val) (old_val new_val : val) : Prop :=
  kv.1 ≠ BLS_KEY_PROOF ∧ field_change node_info kv = Ok (old_val, new_val) ∧ py_eq old_val new_val = false.

(** Every change was validated, under the default rules. *)
Lemma fields_validated c cs metrics r info owner data v' :
  (∀ kv old_val new_val, kv ∈ data → changed info kv old_val new_val →
     action_clean (AuthActionEdit NODE (VStr kv.1) old_val new_val owner) = true) →
  res_fold (validate_field c r info owner) (default_validator cs metrics) data = Ok v' →
  v' = default_validator cs metrics ∧
  ∀ kv old_val new_val, kv ∈ data → changed info kv old_val new_val →
    ∃ res, validate (λ i, getRole c i false) str_request (default_validator cs metrics) r
      [AuthActionEdit NODE (VStr kv.1) old_val new_val owner] = Ok res.
Proof.
  induction data as [|kv data IH]; cbn [res_fold]; intros Hclean H.
  - injection H as <-. split; [done|]. intros kv ? ? Hin. by apply not_elem_of_nil in Hin.
  - bind H as v1 H1.
    assert (v1 = default_validator cs metrics ∧ ∀ old_val new_val, changed info kv old_val new_val →
      ∃ res, validate (λ i, getRole c i false) str_request (default_validator cs metrics) r
        [AuthActionEdit NODE (VStr kv.1) old_val new_val owner] = Ok res) as [-> Hkv].
    { unfold validate_field in H1. destruct (str_eqb kv.1 BLS_KEY_PROOF) eqn:Eb.
      - apply str_eqb_eq in Eb. injection H1 as <-. split; [done|]. by intros ? ? [? _].
      - apply res_bind_Ok in H1 as ([o n] & Hfc & H1).
        destruct (py_eq o n) eqn:Eq.
        + injection H1 as <-. split; [done|]. intros o' n' (_ & Hfc' & Hne). rewrite Hfc in Hfc'.
          injection Hfc' as -> ->. congruence.
        + assert (changed info kv o n) as Hch.
          { split; [intros E; by rewrite E, str_eqb_refl in Eb|]. done. }
          apply validate_action_default in H1 as [-> Hres]; [|apply (Hclean kv); [left|done]].
          split; [done|]. intros o' n' (_ & Hfc' & _). rewrite Hfc in Hfc'. by injection Hfc' as <- <-. }
    destruct (IH (λ kv' o n Hin, Hclean kv' o n (list_elem_of_further kv' _ _ Hin)) H) as [-> Hrest]. split; [done|].
    intros kv' o n [->|Hin]%elem_of_cons Hch; eauto.
Qed.
End NodeHandler.

(** A constraint that asks for the owner or for a trustee, and for the owner
    alone. *)
Definition steward_owner (c : constraint) : bool :=
  match c with
  | AuthConstraint (Some role) (VInt 1) (VBool true) VNone _ => str_eqb role STEWARD
  | _ => false
  end.

Definition trustee_or_owner (c : constraint) : bool :=
  match c with
  | AuthConstraintOr [AuthConstraint (Some role) (VInt 1) _ VNone _; c2] =>
      str_eqb role TRUSTEE && steward_owner c2
  | _ => false
  end.

Lemma steward_owner_satisfied getRole `{!RoleCache getRole} r author a c :
  steward_owner c = true → satisfies getRole r author a c →
  signed_with_role getRole r author (Some STEWARD) ∧ action_is_owner a = true.
Proof.
  destruct c as [|[role|] sc n o m|cs|cs]; try done. simpl.
  destruct sc as [| |[|[]|]| | |]; try done. destruct n as [|[]| | | |], o; try done.
  intros ->%str_eqb_eq H. apply satisfies_role_signed in H as [? Ho]; [|done..]. auto.
Qed.

Lemma trustee_or_owner_satisfied getRole `{!RoleCache getRole} r author a c :
  trustee_or_owner c = true → satisfies getRole r author a c →
  signed_with_role getRole r author (Some TRUSTEE) ∨
  (signed_with_role getRole r author (Some STEWARD) ∧ action_is_owner a = true).
Proof.
  destruct c as [| | |[|[|[role|] sc n o m|?|?] [|c2 [|]]]]; try done; cbn [trustee_or_owner];
    destruct sc as [| |[|[]|]| | |]; try done; destruct o; try done.
  rewrite andb_true_iff. intros [->%str_eqb_eq H2] Hs. cbn [satisfies foldr] in Hs.
  destruct Hs as [Hs|[Hs|[]]].
  - left. by apply satisfies_role_signed in Hs as [? _].
  - right. by eapply steward_owner_satisfied.
Qed.

(** What the default map asks for an edit of a node. *)
Definition node_rule (am : ActionDef) (c : constraint) : bool :=
  negb (str_eqb (ad_prefix am) EDIT_PREFIX) || negb (str_eqb (ad_txn_type am) NODE) ||
  steward_owner c || (trustee_or_owner c && str_eqb (ad_field am) SERVICES).

Lemma node_edit_satisfied {bytes CSt} `{!Serializer bytes, !State bytes CSt} getRole `{!RoleCache getRole}
    str_request (cs : CSt) metrics r author k old_val new_val owner res :
  identifier r = Some author →
  action_clean (AuthActionEdit NODE (VStr k) old_val new_val owner) = true →
  validate getRole str_request (default_validator cs metrics) r
    [AuthActionEdit NODE (VStr k) old_val new_val owner] = Ok res →
  (signed_with_role getRole r author (Some STEWARD) ∧ owner = true) ∨
  (k = SERVICES ∧ signed_with_role getRole r author (Some TRUSTEE)).
Proof.
  intros Hid Hcl Hres.
  destruct (validate_default_passes getRole str_request node_rule cs metrics r author _ [] res
    ltac:(vm_compute; reflexivity) Hid Hcl Hres) as (am & con & Hm & HP & Hs).
  apply def_matches_true in Hm as (Hpre & Hty & Hf & _).
  cbn [action_def ad_prefix ad_txn_type ad_field] in Hpre, Hty, Hf. unfold node_rule in HP.
  rewrite <- Hpre, <- Hty, !str_eqb_refl in HP. cbn [negb orb] in HP.
  apply orb_true_iff in HP as [HP|[HP HF%str_eqb_eq]%andb_true_iff].
  - left. by apply (steward_owner_satisfied getRole r author _ _ HP) in Hs.
  - apply (trustee_or_owner_satisfied getRole r author _ _ HP) in Hs as [Hs|Hs]; [right|left; done].
    rewrite HF in Hf. destruct Hf as [Hf|Hf]; [|done]. done.
Qed.

(** ** Properties *)

(** C39. Who may change a node: when an update of a node passes under the default
    rules, every field it changes, but for the alias and the proof of the BLS
    key, is changed by a steward who runs that node; only the services, that is
    whether the node validates, may be changed by a trustee as well. *)
Theorem node_change_authorized {bytes CSt root S} `{!Serializer bytes, !State bytes CSt,
    !OptimisticStore S root} {RL : Rlp} str_request super_check data_check steward_of pool_get
    (c : S) (cs : CSt) metrics r author data info v' :
  cache_wf c → identifier r = Some author →
  auth_error_while_updating_node str_request super_check data_check steward_of pool_get c
    (default_validator cs metrics) r = Ok (None, v') →
  dget DATA (operation r) = Some (VDict data) →
  pool_get (vget TARGET_NYM (operation r)) = Ok info →
  (∀ kv old_val new_val owner, kv ∈ data → changed info kv old_val new_val →
     action_clean (AuthActionEdit NODE (VStr kv.1) old_val new_val owner) = true) →
  ∀ kv old_val new_val, kv ∈ data → kv.1 ≠ ALIAS → changed info kv old_val new_val →
    (signed_with_role (λ i, getRole c i false) r author (Some STEWARD) ∧
     steward_of (VStr author) (vget TARGET_NYM (operation r)) = true) ∨
    (kv.1 = SERVICES ∧ signed_with_role (λ i, getRole c i false) r author (Some TRUSTEE)).
Proof.
  intros Hwf Hid H Hdata Hinfo Hclean kv old_val new_val Hin Hal Hch.
  pose proof (getRole_cache c Hwf) as HRC. unfold auth_error_while_updating_node in H. rewrite Hid in H.
  cbn [opt_str did_of res_bind] in H. bind H as b _. bind H as e _.
  destruct (as_error e); [done|]. unfold get_default in H. rewrite Hdata in H.
  destruct (as_error (data_check _ _)); [done|]. rewrite Hinfo in H. cbn [res_bind] in H.
  bind H as v1 Hfold. clear H.
  assert (∀ kv o n, kv ∈ List.filter (λ kv : string * val, negb (str_eqb kv.1 ALIAS)) data →
    changed info kv o n → action_clean (AuthActionEdit NODE (VStr kv.1) o n
      (steward_of (VStr author) (vget TARGET_NYM (operation r)))) = true) as Hcl.
  { intros kv' o n Hin' Hch'. apply (Hclean kv'); [|done].
    apply list_elem_of_In in Hin'. apply filter_In in Hin' as [? _]. by apply list_elem_of_In. }
  assert (kv ∈ List.filter (λ kv : string * val, negb (str_eqb kv.1 ALIAS)) data) as Hkv.
  { apply list_elem_of_In, filter_In. split; [by apply list_elem_of_In|].
    destruct (str_eqb kv.1 ALIAS) eqn:E; [|done]. by apply str_eqb_eq in E. }
  destruct (fields_validated str_request c cs metrics r info _ _ _ Hcl Hfold) as [_ Hval].
  destruct (Hval kv old_val new_val Hkv Hch) as [res Hres].
  by eapply (node_edit_satisfied (λ i, getRole c i false)); [|apply (Hcl kv)|exact Hres].
Qed.

(** A trustee takes the service of a node of a steward away. *)
Definition sample_node_info : val := VDict [(ALIAS, VStr "Node1"); (SERVICES, VList [VStr VALIDATOR])].

Definition demotion_request : Request :=
  definition_request NODE [(TARGET_NYM, VStr "N"); (DATA, VDict [(ALIAS, VStr "Node1"); (SERVICES, VList [])])].

Lemma node_change_authorized_witness :
  (signed_with_role (λ i, getRole sample_trustee_cache i false) demotion_request "T" (Some STEWARD) ∧ false = true) ∨
  (SERVICES = SERVICES ∧
   signed_with_role (λ i, getRole sample_trustee_cache i false) demotion_request "T" (Some TRUSTEE)).
Proof.
  assert (∃ v', auth_error_while_updating_node (λ _, "") (λ _, Ok None) (λ _ _, None) (λ _ _, false)
    (λ _, Ok sample_node_info) sample_trustee_cache (default_validator (∅ : gmap string val) false)
    demotion_request = Ok (None, v')) as [v' H] by (eexists; vm_compute; reflexivity).
  apply (node_change_authorized (λ _, "") (λ _, Ok None) (λ _ _, None) (λ _ _, false) (λ _, Ok sample_node_info)
    sample_trustee_cache (∅ : gmap string val) false demotion_request "T"
    [(ALIAS, VStr "Node1"); (SERVICES, VList [])] sample_node_info v' ltac:(exact
      (set_wf empty_store "T" (Some 1%Z) None None (Some TRUSTEE) (Some "kT") false _ empty_store_wf
         ltac:(discriminate) ltac:(reflexivity))) eq_refl H eq_refl eq_refl) with (kv := (SERVICES, VList []))
    (old_val := VList [VStr VALIDATOR]) (new_val := VList []).
  - intros kv o n owner [->|[->|[]%not_elem_of_nil]%elem_of_cons]%elem_of_cons (_ & Hf & Hne);
      injection Hf as <- <-; [discriminate Hne|reflexivity].
  - right. left.
  - discriminate.
  - split; [discriminate|]. split; reflexivity.
Defined.
