(* ===== verification/MessageSchemas.v ===== *)
(** * Message schemas

    [indy_common/types.py]: what a client's operation of each type must look like
    before a handler sees it.  A schema is data: the fields of a message, each
    with its kind and whether it is optional or nullable.  The checks the
    repository adds to the schemas are functions: the attribute operation, and
    the constraint of an authorization rule.

    The kinds of fields and the walk over a schema are plenum's ([FieldBase],
    [MessageValidator]); the class [MessageBase] states what the code relies on,
    and [ref_messages] shows that it can hold. *)
From S2P Require Import Prelude PyValue Plenum Constants AuthActions AuthConstraints AuthStrategy AuthMap StateDomain IdrCache HandlerBase CompatSet CompatSetSpec Revocation NymHandler DefinitionHandlers AttribHandler AuthRules FlagHandler RevocEntryHandler Upgrader RichSchema ReadHandlers.

Definition DISCLO : string := "103".
Definition NONCE : string := "nonce".
Definition ORIGIN : string := "origin".
Definition NAME : string := "name".
Definition FORCE : string := "force".
Definition SHA256 : string := "sha256".
Definition DATETIME : string := "datetime".
Definition WRITES : string := "writes".
Definition OP_VER : string := "ver".
Definition TXN_METADATA_SEQ_NO : string := "seqNo".
Definition MAX_CRED_NUM : string := "maxCredNum".
Definition PUBLIC_KEYS : string := "publicKeys".
Definition TAILS_HASH : string := "tailsHash".
Definition TAILS_LOCATION : string := "tailsLocation".
Definition CLAIM_DEF_PRIMARY : string := "primary".
Definition CLAIM_DEF_REVOCATION : string := "revocation".
Definition ENDPOINT : string := "endpoint".
Definition RS_CONTEXT_TYPE_VALUE : string := "ctx".
Definition RS_CRED_DEF_TYPE_VALUE : string := "cdf".
Definition RS_PRES_DEF_TYPE_VALUE : string := "pdf".
Definition JUSTIFICATION_MAX_SIZE : Z := 1000.
Definition TAG_LIMIT_SIZE : Z := 256.
Definition SCHEMA_ATTRIBUTES_LIMIT : Z := 125.
Definition DIDDOC_CONTENT_SIZE_LIMIT : Z := 10 * 1024.

(** ** Fields *)

(** The kinds of fields.  [ConstraintField] and [AuthRuleValueField] are of this
    repository, the others of plenum. *)
Inductive kind :=
| ConstantField (value : string)
| LimitedLengthStringField (max_length : option Z)
| VerkeyField | DestNymField | IdentifierField | RoleField
| JsonField (max_length : Z)
| IntegerField | TxnSeqNoField | NonNegativeNumberField | BooleanField
| VersionField (version_cls : string)
| IterableField (inner : kind) (min_length max_length : option Z)
| MapField (key value : kind)
| AnyMapField | AnyField | NonEmptyStringField | Sha256HexField
| ChooseField (values : list string)
| DatetimeStringField (exceptional_values : list string)
| MessageField (schema : list (string * (bool * bool * kind)))
| ConstraintField
| AuthRuleValueField.

(** optional, nullable, kind *)
Definition decl : Type := bool * bool * kind.
Definition schema : Type := list (string * decl).

Definition required (k : kind) : decl := (false, false, k).
Definition optional (k : kind) : decl := (true, false, k).
Definition optional_nullable (k : kind) : decl := (true, true, k).

(** Limits of [plenum.config]. *)
Class PlenumLimits := {
  ALIAS_FIELD_LIMIT : Z;
  DATA_FIELD_LIMIT : Z;
  NONCE_FIELD_LIMIT : Z;
  NAME_FIELD_LIMIT : Z;
  JSON_FIELD_LIMIT : Z;
  ENC_FIELD_LIMIT : Z;
  RAW_FIELD_LIMIT : Z;
  SIGNATURE_TYPE_FIELD_LIMIT : Z
}.

(** ** Schemas *)

Section Schemas.
Context {PL : PlenumLimits}.

Definition text (max_length : Z) : kind := LimitedLengthStringField (Some max_length).
Definition plain_text : kind := LimitedLengthStringField None.

Definition ClientGetNymOperation : schema :=
  [(TXN_TYPE, required (ConstantField GET_NYM)); (TARGET_NYM, required IdentifierField);
   (TIMESTAMP, optional IntegerField); (TXN_METADATA_SEQ_NO, optional TxnSeqNoField)].

Definition ClientNYMOperation : schema :=
  [(TXN_TYPE, required (ConstantField NYM)); (ALIAS, optional (text ALIAS_FIELD_LIMIT));
   (VERKEY, optional_nullable VerkeyField); (TARGET_NYM, required DestNymField);
   (ROLE, optional RoleField); (DIDDOC_CONTENT, optional (JsonField DIDDOC_CONTENT_SIZE_LIMIT));
   (NYM_VERSION, optional IntegerField)].

Definition ClientDiscloOperation : schema :=
  [(TXN_TYPE, required (ConstantField DISCLO)); (DATA, required (text DATA_FIELD_LIMIT));
   (NONCE, required (text NONCE_FIELD_LIMIT)); (TARGET_NYM, optional IdentifierField)].

Definition GetSchemaField : schema :=
  [(SCHEMA_NAME, required (text NAME_FIELD_LIMIT)); (SCHEMA_VERSION, required (VersionField "SchemaVersion"));
   (ORIGIN, optional IdentifierField)].

Definition SchemaField : schema :=
  [(SCHEMA_NAME, required (text NAME_FIELD_LIMIT)); (SCHEMA_VERSION, required (VersionField "SchemaVersion"));
   (SCHEMA_ATTR_NAMES, required (IterableField (text NAME_FIELD_LIMIT) (Some 1%Z) (Some SCHEMA_ATTRIBUTES_LIMIT)))].

Definition ClaimDefField : schema :=
  [(CLAIM_DEF_PRIMARY, required AnyMapField); (CLAIM_DEF_REVOCATION, optional AnyMapField)].

Definition RevocDefValueField : schema :=
  [(ISSUANCE_TYPE, required (ChooseField [ISSUANCE_BY_DEFAULT; ISSUANCE_ON_DEMAND]));
   (MAX_CRED_NUM, required IntegerField); (PUBLIC_KEYS, required AnyMapField);
   (TAILS_HASH, required NonEmptyStringField); (TAILS_LOCATION, required NonEmptyStringField)].

Definition ClientRevocDefSubmitField : schema :=
  [(TXN_TYPE, required (ConstantField REVOC_REG_DEF)); (ID, required NonEmptyStringField);
   (REVOC_TYPE, required plain_text); (TAG, required (text TAG_LIMIT_SIZE));
   (CRED_DEF_ID, required NonEmptyStringField); (VALUE, required (MessageField RevocDefValueField))].

Definition RevocRegEntryValueField : schema :=
  [(PREV_ACCUM, optional NonEmptyStringField); (ACCUM, required NonEmptyStringField);
   (ISSUED, optional (IterableField IntegerField None None));
   (REVOKED, optional (IterableField IntegerField None None))].

Definition ClientRevocRegEntrySubmitField : schema :=
  [(TXN_TYPE, required (ConstantField REVOC_REG_ENTRY)); (REVOC_REG_DEF_ID, required NonEmptyStringField);
   (REVOC_TYPE, required plain_text); (VALUE, required (MessageField RevocRegEntryValueField))].

Definition ClientSchemaOperation : schema :=
  [(TXN_TYPE, required (ConstantField SCHEMA)); (DATA, required (MessageField SchemaField))].

Definition ClientGetSchemaOperation : schema :=
  [(TXN_TYPE, required (ConstantField GET_SCHEMA)); (SCHEMA_FROM, required IdentifierField);
   (DATA, required (MessageField GetSchemaField))].

Definition ClientAttribOperation : schema :=
  [(TXN_TYPE, required (ConstantField ATTRIB)); (TARGET_NYM, required IdentifierField);
   (RAW, optional (JsonField JSON_FIELD_LIMIT)); (ENC, optional (text ENC_FIELD_LIMIT));
   (HASH, optional Sha256HexField)].

Definition ClientGetAttribOperation : schema :=
  [(TXN_TYPE, required (ConstantField GET_ATTR)); (TARGET_NYM, optional IdentifierField);
   (RAW, optional (text RAW_FIELD_LIMIT)); (ENC, optional (text ENC_FIELD_LIMIT));
   (HASH, optional Sha256HexField); (TIMESTAMP, optional IntegerField);
   (TXN_METADATA_SEQ_NO, optional TxnSeqNoField)].

Definition ClientClaimDefSubmitOperation : schema :=
  [(TXN_TYPE, required (ConstantField CLAIM_DEF)); (CLAIM_DEF_SCHEMA_REF, required TxnSeqNoField);
   (CLAIM_DEF_PUBLIC_KEYS, required (MessageField ClaimDefField));
   (CLAIM_DEF_SIGNATURE_TYPE, required (text SIGNATURE_TYPE_FIELD_LIMIT)); (CLAIM_DEF_TAG, required (text 256))].

Definition ClientClaimDefGetOperation : schema :=
  [(TXN_TYPE, required (ConstantField GET_CLAIM_DEF)); (CLAIM_DEF_SCHEMA_REF, required TxnSeqNoField);
   (CLAIM_DEF_FROM, required IdentifierField);
   (CLAIM_DEF_SIGNATURE_TYPE, required (text SIGNATURE_TYPE_FIELD_LIMIT)); (CLAIM_DEF_TAG, optional (text 256))].

Definition ClientGetRevocRegDefField : schema :=
  [(ID, required NonEmptyStringField); (TXN_TYPE, required (ConstantField GET_REVOC_REG_DEF))].

Definition ClientGetRevocRegField : schema :=
  [(REVOC_REG_DEF_ID, required NonEmptyStringField); (TIMESTAMP, required IntegerField);
   (TXN_TYPE, required (ConstantField GET_REVOC_REG))].

Definition ClientGetRevocRegDeltaField : schema :=
  [(TXN_TYPE, required (ConstantField GET_REVOC_REG_DELTA)); (REVOC_REG_DEF_ID, required NonEmptyStringField);
   (FROM, optional IntegerField); (TO, required IntegerField)].

Definition ClientPoolUpgradeOperation : schema :=
  [(TXN_TYPE, required (ConstantField POOL_UPGRADE)); (ACTION, required (ChooseField [START; CANCEL]));
   (VERSION, required (VersionField "GenericVersion"));
   (SCHEDULE, optional (MapField IdentifierField NonEmptyStringField)); (SHA256, required Sha256HexField);
   (TIMEOUT, optional NonNegativeNumberField); (JUSTIFICATION, optional_nullable (text JUSTIFICATION_MAX_SIZE));
   (NAME, required (text NAME_FIELD_LIMIT)); (FORCE, optional BooleanField); (REINSTALL, optional BooleanField);
   (PACKAGE, optional (text NAME_FIELD_LIMIT))].

Definition ClientPoolRestartOperation : schema :=
  [(TXN_TYPE, required (ConstantField POOL_RESTART)); (ACTION, required (ChooseField [START; CANCEL]));
   (DATETIME, optional (DatetimeStringField ["0"; ""]))].

Definition ClientValidatorInfoOperation : schema := [(TXN_TYPE, required (ConstantField VALIDATOR_INFO))].

Definition ClientPoolConfigOperation : schema :=
  [(TXN_TYPE, required (ConstantField POOL_CONFIG)); (WRITES, required BooleanField); (FORCE, optional BooleanField)].

Definition constraint_ids : list string :=
  [ROLE_CONSTRAINT_ID; AND_CONSTRAINT_ID; OR_CONSTRAINT_ID; FORBIDDEN_CONSTRAINT_ID].

Definition ConstraintEntityField : schema :=
  [(CONSTRAINT_ID, required (ChooseField constraint_ids)); (ROLE, required RoleField);
   (SIG_COUNT, required NonNegativeNumberField); (NEED_TO_BE_OWNER, optional BooleanField);
   (OFF_LEDGER_SIGNATURE, optional BooleanField); (METADATA, optional AnyMapField)].

Definition ConstraintListField : schema :=
  [(CONSTRAINT_ID, required (ChooseField constraint_ids));
   (AUTH_CONSTRAINTS, required (IterableField AnyField None None))].

Definition AuthRuleField : schema :=
  [(CONSTRAINT, required ConstraintField); (AUTH_ACTION, required (ChooseField [ADD_PREFIX; EDIT_PREFIX]));
   (AUTH_TYPE, required (text NAME_FIELD_LIMIT)); (FIELD, required (text NAME_FIELD_LIMIT));
   (OLD_VALUE, optional AuthRuleValueField); (NEW_VALUE, required AuthRuleValueField)].

Definition ClientAuthRuleOperation : schema :=
  (TXN_TYPE, required (ConstantField AUTH_RULE)) :: AuthRuleField.

Definition ClientAuthRulesOperation : schema :=
  [(TXN_TYPE, required (ConstantField AUTH_RULES));
   (RULES, required (IterableField (MessageField AuthRuleField) (Some 1%Z) None))].

Definition ClientGetAuthRuleOperation : schema :=
  [(TXN_TYPE, required (ConstantField GET_AUTH_RULE));
   (AUTH_ACTION, optional (ChooseField [ADD_PREFIX; EDIT_PREFIX]));
   (AUTH_TYPE, optional (text NAME_FIELD_LIMIT)); (FIELD, optional (text NAME_FIELD_LIMIT));
   (OLD_VALUE, optional AuthRuleValueField); (NEW_VALUE, optional AuthRuleValueField)].

Definition rich_schema_objects_schema (txn_type rs_type : string) : schema :=
  [(TXN_TYPE, required (ConstantField txn_type)); (RS_ID, required NonEmptyStringField);
   (RS_TYPE, required (ConstantField rs_type)); (RS_NAME, required (text NAME_FIELD_LIMIT));
   (RS_VERSION, required (VersionField "SchemaVersion")); (RS_CONTENT, required NonEmptyStringField);
   (OP_VER, optional plain_text)].

Definition ClientJsonLdContextOperation : schema :=
  rich_schema_objects_schema JSON_LD_CONTEXT RS_CONTEXT_TYPE_VALUE.
Definition ClientRichSchemaOperation : schema :=
  rich_schema_objects_schema RICH_SCHEMA RS_SCHEMA_TYPE_VALUE.
Definition ClientRichSchemaEncodingOperation : schema :=
  rich_schema_objects_schema RICH_SCHEMA_ENCODING RS_ENCODING_TYPE_VALUE.
Definition ClientRichSchemaMappingOperation : schema :=
  rich_schema_objects_schema RICH_SCHEMA_MAPPING RS_MAPPING_TYPE_VALUE.
Definition ClientRichSchemaCredDefOperation : schema :=
  rich_schema_objects_schema RICH_SCHEMA_CRED_DEF RS_CRED_DEF_TYPE_VALUE.
Definition ClientRichSchemaPresDefOperation : schema :=
  rich_schema_objects_schema RICH_SCHEMA_PRES_DEF RS_PRES_DEF_TYPE_VALUE.

Definition ClientGetRichSchemaObjectByIdOperation : schema :=
  [(TXN_TYPE, required (ConstantField GET_RICH_SCHEMA_OBJECT_BY_ID)); (RS_ID, required NonEmptyStringField)].

Definition ClientGetRichSchemaObjectByMetadataOperation : schema :=
  [(TXN_TYPE, required (ConstantField GET_RICH_SCHEMA_OBJECT_BY_METADATA)); (RS_TYPE, required NonEmptyStringField);
   (RS_NAME, required (text NAME_FIELD_LIMIT)); (RS_VERSION, required (VersionField "SchemaVersion"))].

(** [ClientOperationField._specific_operations] *)
Definition specific_operations : dict schema :=
  [(NYM, ClientNYMOperation); (SCHEMA, ClientSchemaOperation); (ATTRIB, ClientAttribOperation);
   (GET_ATTR, ClientGetAttribOperation); (CLAIM_DEF, ClientClaimDefSubmitOperation);
   (GET_CLAIM_DEF, ClientClaimDefGetOperation); (DISCLO, ClientDiscloOperation);
   (GET_NYM, ClientGetNymOperation); (GET_SCHEMA, ClientGetSchemaOperation);
   (POOL_UPGRADE, ClientPoolUpgradeOperation); (POOL_CONFIG, ClientPoolConfigOperation);
   (AUTH_RULE, ClientAuthRuleOperation); (AUTH_RULES, ClientAuthRulesOperation);
   (GET_AUTH_RULE, ClientGetAuthRuleOperation); (POOL_RESTART, ClientPoolRestartOperation);
   (VALIDATOR_INFO, ClientValidatorInfoOperation); (REVOC_REG_DEF, ClientRevocDefSubmitField);
   (REVOC_REG_ENTRY, ClientRevocRegEntrySubmitField); (GET_REVOC_REG_DEF, ClientGetRevocRegDefField);
   (GET_REVOC_REG, ClientGetRevocRegField); (GET_REVOC_REG_DELTA, ClientGetRevocRegDeltaField);
   (JSON_LD_CONTEXT, ClientJsonLdContextOperation); (RICH_SCHEMA, ClientRichSchemaOperation);
   (RICH_SCHEMA_ENCODING, ClientRichSchemaEncodingOperation);
   (RICH_SCHEMA_MAPPING, ClientRichSchemaMappingOperation);
   (RICH_SCHEMA_CRED_DEF, ClientRichSchemaCredDefOperation);
   (RICH_SCHEMA_PRES_DEF, ClientRichSchemaPresDefOperation);
   (GET_RICH_SCHEMA_OBJECT_BY_ID, ClientGetRichSchemaObjectByIdOperation);
   (GET_RICH_SCHEMA_OBJECT_BY_METADATA, ClientGetRichSchemaObjectByMetadataOperation)].
End Schemas.

(** ** What plenum promises about messages

    [field_check] is [FieldBase.validate] of a field of plenum: [None], or the
    text of the error.  [iterable_check] is that of an [IterableField], given the
    check of an element.  [walk] is [MessageValidator._validate_fields_with_schema],
    given the check of each field: it refuses anything but a dictionary, missing
    fields, fields that do not check and, when schemas are strict, unknown fields.
    The [raise_] functions are the errors the checks of this repository raise
    through plenum. *)
Abbreviation check := (val → res (option string)).

Class MessageBase := {
  schema_is_strict : bool;
  field_check : kind → check;
  iterable_check : option Z → option Z → check → check;
  walk : list (string * (bool * check)) → val → res unit;
  raise_missed_fields : list string → exn;
  raise_invalid_fields : string → val → string → exn;
  raise_invalid_message : string → exn;
  constant_accepted c v : field_check (ConstantField c) v = Ok None → v = VStr c;
  choice_accepted cs v : field_check (ChooseField cs) v = Ok None → ∃ s, v = VStr s ∧ s ∈ cs;
  identifier_accepted v : field_check IdentifierField v = Ok None → ∃ s, v = VStr s;
  text_accepted n v : field_check (LimitedLengthStringField n) v = Ok None → ∃ s, v = VStr s;
  iterable_accepted lo hi f v : iterable_check lo hi f v = Ok None →
    ∃ l, v = VList l ∧ Forall (λ x, f x = Ok None) l;
  walk_accepted fields v : walk fields v = Ok tt → ∃ d, v = VDict d ∧
    (∀ k f, (k, (false, f)) ∈ fields → dhas k d = true) ∧
    (∀ k o f x, dget k fields = Some (o, f) → dget k d = Some x → f x = Ok None) ∧
    (schema_is_strict = true → Forall (λ k, dhas k fields = true) (dkeys d))
}.

(** [k in v] for a text [k] *)
Definition py_contains (k : string) (v : val) : res bool :=
  match v with
  | VDict d => Ok (dhas k d)
  | VList l => Ok (existsb (λ x, py_eq x (VStr k)) l)
  | VStr s => Ok (py_in_str k s)
  | _ => Raise (TypeError "argument is not iterable")
  end.

(** [v[k]] for a text [k] *)
Definition py_getitem (k : string) (v : val) : res val :=
  match v with
  | VDict d => dgetitem k d
  | VList _ | VStr _ => Raise (TypeError "indices must be integers")
  | _ => Raise (TypeError "object is not subscriptable")
  end.

Section Validation.
Context {PL : PlenumLimits} {MB : MessageBase} (json_loads : val → res val).
Context (is_network_ip_address_valid is_network_port_valid : string → bool).

(** A field of a message, [None] accepted when the field is nullable. *)
Definition nullable_check (nullable : bool) (f : check) : check :=
  λ v, if nullable && is_none v then Ok None else f v.

(** *** Constraints of authorization rules *)

(** The fields of [ConstraintEntityField] and [ConstraintListField]: none holds a
    message. *)
Definition plain_fields (s : schema) : list (string * (bool * check)) :=
  map (λ '(k, (o, n, kd)),
         (k, (o, nullable_check n
                   match kd with
                   | IterableField inner lo hi => iterable_check lo hi (field_check inner)
                   | _ => field_check kd
                   end))) s.

(** The loop of [ConstraintListField._validate_message], with [validate] for the
    check of one constraint. *)
Definition each_constraint (validate : check) : list val → res unit :=
  fix go (l : list val) : res unit :=
    match l with
    | [] => Ok tt
    | x :: l' =>
        let! error_msg := validate x in
        match error_msg with
        | Some m => if str_truth m then Raise (raise_invalid_message m) else go l'
        | None => go l'
        end
    end.

(** [ConstraintField._specific_validation] of a text, the elements of a text or of
    a dictionary in place of a list. *)
Definition text_constraint (v : val) : res (option string) :=
  if negb (py_truth v)
  then Ok (Some "Fields auth_constraints and constraint are required and should not be an empty list.") else
  let! has := py_contains CONSTRAINT_ID v in
  if negb has then Ok (Some "Field constraint_id is required")
  else Raise (TypeError "string indices must be integers").

(** [ConstraintListField._validate_message]: the constraints of the dictionary,
    found by walking it. *)
Definition validate_constraints (validate : check) : dict val → res unit :=
  let empty := Raise (raise_invalid_message "Fields auth_constraints should not be an empty list.") in
  fix find (d : dict val) : res unit :=
    match d with
    | [] => empty
    | (k, x) :: d' =>
        if str_eqb k AUTH_CONSTRAINTS then
          if negb (py_truth x) then empty
          else match x with
               | VList l => each_constraint validate l
               | _ => let! l := py_iter x in each_constraint text_constraint l
               end
        else find d'
    end.

(** [ConstraintField._specific_validation], and [validate] of the two messages it
    hands the value to. *)
Fixpoint validate_constraint (v : val) : res (option string) :=
  if negb (py_truth v)
  then Ok (Some "Fields auth_constraints and constraint are required and should not be an empty list.") else
  let! has := py_contains CONSTRAINT_ID v in
  if negb has then Ok (Some "Field constraint_id is required") else
  let! id := py_getitem CONSTRAINT_ID v in
  if py_eq id (VStr FORBIDDEN_CONSTRAINT_ID) then Ok None
  else if py_eq id (VStr ROLE_CONSTRAINT_ID) then
    let! _ := walk (plain_fields ConstraintEntityField) v in Ok None
  else
    let! _ := walk (plain_fields ConstraintListField) v in
    match v with
    | VDict d => let! _ := validate_constraints validate_constraint d in Ok None
    | _ => Raise AttributeError
    end.

(** *** Messages *)

(** The check of a field of any kind: fields that are messages are walked in
    their turn. *)
Fixpoint kind_check (kd : kind) : check :=
  match kd with
  | ConstraintField => validate_constraint
  | IterableField inner lo hi => iterable_check lo hi (kind_check inner)
  | MessageField s =>
      λ v, let! _ := walk (map (λ '(k, (o, n, kd')), (k, (o, nullable_check n (kind_check kd')))) s) v in
           Ok None
  | _ => field_check kd
  end.

Definition fields_of (s : schema) : list (string * (bool * check)) :=
  map (λ '(k, (o, n, kd)), (k, (o, nullable_check n (kind_check kd)))) s.

(** [MessageValidator.validate]: the fields, and then the message as a whole. *)
Definition validate_message (s : schema) (hook : val → res unit) (v : val) : res unit :=
  let! _ := walk (fields_of s) v in hook v.

(** *** Attributes *)

(** [ClientAttribOperation._validate_field_set] *)
Definition validate_field_set (msg : val) : res unit :=
  let! present := res_mapM (λ f, py_contains f msg) [RAW; ENC; HASH] in
  let fields_n := length (List.filter id present) in
  if Nat.eqb fields_n 0 then Raise (raise_missed_fields [RAW; ENC; HASH])
  else if Nat.ltb 1 fields_n
  then Raise (raise_invalid_message "only one field from raw, enc, hash is expected")
  else Ok tt.

(** [ClientAttribOperation.__validate_endpoint_ha_field] *)
Definition validate_endpoint_ha_field (endpoint : val) : res unit :=
  match endpoint with
  | VNone => Ok tt
  | VDict d =>
      let ha := vget "ha" d in
      if is_none ha then Ok tt else
      let! colon := py_contains ":" ha in
      if negb colon
      then Raise (raise_invalid_fields ENDPOINT endpoint "invalid endpoint format ip_address:port") else
      match ha with
      | VStr s =>
          match py_split ":" s with
          | [ip; port] =>
              if negb (is_network_ip_address_valid ip)
              then Raise (raise_invalid_fields "ha" ha "invalid endpoint address")
              else if negb (is_network_port_valid port)
              then Raise (raise_invalid_fields "ha" ha "invalid endpoint port")
              else Ok tt
          | _ => Raise (ValueError "too many values to unpack (expected 2)")
          end
      | _ => Raise AttributeError
      end
  | _ => Raise (raise_invalid_fields ENDPOINT endpoint "should be a dict")
  end.

(** [ClientAttribOperation.__validate_raw_field] *)
Definition validate_raw_field (raw_field : val) : res unit :=
  let! raw := json_loads raw_field in
  match raw with
  | VDict d =>
      if negb (Nat.eqb (length d) 1)
      then Raise (raise_invalid_fields RAW raw "should contain one attribute") else
      match dget ENDPOINT d with
      | Some endpoint => validate_endpoint_ha_field endpoint
      | None => Ok tt
      end
  | _ => Raise (raise_invalid_fields RAW raw "should be a dict")
  end.

(** [ClientAttribOperation._validate_message] *)
Definition validate_attrib_message (msg : val) : res unit :=
  let! _ := validate_field_set msg in
  let! has := py_contains RAW msg in
  if has then let! raw := py_getitem RAW msg in validate_raw_field raw else Ok tt.

(** [_validate_message] of each operation of [_specific_operations]. *)
Definition message_hook (txn_type : string) : val → res unit :=
  if str_eqb txn_type ATTRIB then validate_attrib_message
  else if str_eqb txn_type GET_ATTR then validate_field_set
  else λ _, Ok tt.

(** [ClientOperationField.__init__]: the operations of plenum, updated with those
    of this repository. *)
Definition operations (plenum_operations : dict schema) : dict schema :=
  dupdate plenum_operations specific_operations.

(** *** Signatures *)

(** [Request.signingPayloadState], given plenum's: the value of an attribute is
    hashed before it is signed.  Python pops any of the keys present; when there is
    one, as the schema demands, it is the one found here. *)
Definition signingPayloadState (sha256_hex : string → string) (OPERATION : string)
    (super : option string → res (dict val)) (operation : dict val) (identifier : option string)
    : res (dict val) :=
  if py_eq (vget TXN_TYPE operation) (VStr ATTRIB) then
    let! d := super identifier in
    let! op := dgetitem OPERATION d in
    match op with
    | VDict op =>
        match List.find (λ k, dhas k op) [RAW; ENC; HASH] with
        | None => Raise (KeyError "pop from an empty set")
        | Some keyName =>
            let! v := dgetitem keyName op in
            match v with
            | VStr s => Ok (dset OPERATION (VDict (dset keyName (VStr (sha256_hex s)) op)) d)
            | _ => Raise AttributeError
            end
        end
    | _ => Raise AttributeError
    end
  else super identifier.
End Validation.

(** ** Lemmas *)

Section Accepted.
Context {PL : PlenumLimits} {MB : MessageBase}.

Lemma dget_fields_of s k o n kd :
  dget k s = Some (o, n, kd) → dget k (fields_of s) = Some (o, nullable_check n (kind_check kd)).
Proof.
  unfold fields_of. induction s as [|[j [[o' n'] kd']] s IH]; [done|]. cbn.
  destruct (str_eqb k j); [by intros [= -> -> ->]|exact IH].
Qed.

Lemma dget_plain_fields s k o n kd :
  dget k s = Some (o, n, kd) → dget k (plain_fields s) = Some (o, nullable_check n
    match kd with
    | IterableField inner lo hi => iterable_check lo hi (field_check inner)
    | _ => field_check kd
    end).
Proof.
  unfold plain_fields. induction s as [|[j [[o' n'] kd']] s IH]; [done|]. cbn [map dget].
  destruct (str_eqb k j); [by intros [= -> -> ->]|exact IH].
Qed.

(** A required field of an accepted message is there and checks. *)
Lemma required_field fields k f v :
  walk fields v = Ok tt → dget k fields = Some (false, f) →
  ∃ d x, v = VDict d ∧ dget k d = Some x ∧ f x = Ok None.
Proof.
  intros Hw Hk. apply walk_accepted in Hw as (d & -> & Hreq & Hok & _).
  specialize (Hreq k f (dget_Some_elem _ _ _ Hk)). unfold dhas in Hreq.
  destruct (dget k d) as [x|] eqn:E; [|done]. exists d, x. eauto.
Qed.

(** What a constraint that passes the schema parses to: a constraint, or an error
    the handler reports to the client; a keyword the constructors do not know gets
    through only when schemas are not strict. *)
Definition reported (r : res constraint) : Prop :=
  (∃ c, r = Ok c) ∨ (∃ m, r = Raise (ValueError m)) ∨ (∃ k, r = Raise (KeyError k)) ∨
  schema_is_strict = false ∧ r = Raise (TypeError "unexpected keyword argument").

Lemma mapM_reported (f : val → res constraint) l :
  Forall (λ x, reported (f x)) l →
  (∃ cs, res_mapM f l = Ok cs) ∨ (∃ m, res_mapM f l = Raise (ValueError m)) ∨
  (∃ k, res_mapM f l = Raise (KeyError k)) ∨
  schema_is_strict = false ∧ res_mapM f l = Raise (TypeError "unexpected keyword argument").
Proof.
  induction 1 as [|x l Hx _ IH]; simpl; [eauto|].
  destruct Hx as [(c & ->)|[(m & ->)|[(k & ->)|(Hs & ->)]]]; simpl; [|eauto..].
  destruct IH as [(cs & ->)|[(m & ->)|[(k & ->)|(Hs & ->)]]]; simpl; eauto 6.
Qed.

Lemma role_reported d : reported (role_from_dict d).
Proof.
  unfold role_from_dict, dgetitem, reported.
  destruct (dget ROLE d) as [role|]; simpl; [|eauto].
  destruct (dget SIG_COUNT d) as [sc|]; simpl; [|eauto].
  unfold new_AuthConstraint.
  assert (∀ r o, (∃ x, role_validation r o = Ok x) ∨ ∃ m, role_validation r o = Raise (ValueError m)) as Hr.
  { intros r o. unfold role_validation. apply or_comm.
    destruct r; cbn [res_bind]; [|eauto| |case_match; cbn [res_bind]|eauto..]; eauto;
      case_match; eauto. }
  match goal with |- context [role_validation ?r ?o] => destruct (Hr r o) as [[x ->]|[m ->]] end;
    simpl; eauto.
Qed.

(** The elements of a list of constraints that pass the schema. *)
Definition accepted_list (f : check) (v : val) : Prop :=
  match v with VList l => Forall (λ x, f x = Ok None ∨ ∃ m, f x = Ok (Some m) ∧ str_truth m = false) l
  | _ => True end.

Lemma each_constraint_accepted f l :
  each_constraint f l = Ok tt →
  Forall (λ x, f x = Ok None ∨ ∃ m, f x = Ok (Some m) ∧ str_truth m = false) l.
Proof.
  induction l as [|x l IH]; [done|]. cbn [each_constraint]. intros H.
  bind H as o Ho. destruct o as [m|].
  - destruct (str_truth m) eqn:E; [done|]. constructor; eauto.
  - constructor; eauto.
Qed.

Lemma validate_constraints_accepted f d :
  validate_constraints f d = Ok tt →
  ∃ x, dget AUTH_CONSTRAINTS d = Some x ∧ accepted_list f x.
Proof.
  induction d as [|[k x] d IH]; [done|]. cbn [validate_constraints dget].
  rewrite (str_eqb_sym AUTH_CONSTRAINTS).
  destruct (str_eqb k AUTH_CONSTRAINTS); [|exact IH].
  destruct (py_truth x); [|done]. cbn [negb]. intros H. exists x. split; [done|].
  destruct x; cbn; try done. by apply each_constraint_accepted.
Qed.

(** A check of a constraint never answers with an empty text. *)
Lemma constraint_error_text v m : validate_constraint v = Ok (Some m) → str_truth m = true.
Proof.
  intros H. destruct v as [| | | | |d]; cbn -[py_contains py_getitem walk plain_fields] in H;
    repeat (first [by injection H as <- | done | apply res_bind_Ok in H as (? & _ & H)
                  | match type of H with context [if ?b then _ else _] => destruct b end]).
Qed.

Definition parses (v : val) : Prop := validate_constraint v = Ok None → ∀ b, reported (create b v).

Definition list_parses (v : val) : Prop :=
  match v with VList l => Forall parses l | _ => True end.

Lemma children_reported b d x :
  Forall (λ kv, list_parses kv.2) d → dget AUTH_CONSTRAINTS d = Some x →
  accepted_list validate_constraint x → (∃ l, x = VList l) →
  (∃ cs, children_of (create b) d = Ok cs) ∨ (∃ m, children_of (create b) d = Raise (ValueError m)) ∨
  (∃ k, children_of (create b) d = Raise (KeyError k)) ∨
  schema_is_strict = false ∧ children_of (create b) d = Raise (TypeError "unexpected keyword argument").
Proof.
  intros Hd. induction Hd as [|[k y] d Hy _ IH]; [done|]. cbn [dget children_of].
  rewrite (str_eqb_sym AUTH_CONSTRAINTS).
  destruct (str_eqb k AUTH_CONSTRAINTS); [|exact IH]. intros [= ->] Hacc [l ->].
  apply mapM_reported. apply Forall_forall. intros z Hz. cbn in Hy, Hacc.
  rewrite Forall_forall in Hy, Hacc. apply Hy; [done|].
  destruct (Hacc z Hz) as [?|(m & Hm & Ht)]; [done|].
  apply constraint_error_text in Hm. congruence.
Qed.

Lemma list_keys d :
  Forall (λ k, dhas k (plain_fields ConstraintListField) = true) (dkeys d) → no_extra_keys d = true.
Proof.
  intros H. apply bool_decide_eq_true. eapply Forall_impl; [exact H|]. intros k. cbn.
  unfold dhas, ConstraintListField, plain_fields. cbn [map dget].
  destruct (str_eqb k CONSTRAINT_ID) eqn:E1; [apply str_eqb_eq in E1; eauto|].
  destruct (str_eqb k AUTH_CONSTRAINTS) eqn:E2; [apply str_eqb_eq in E2; eauto|done].
Qed.

Lemma list_create_reported b d :
  Forall (λ kv, list_parses kv.2) d →
  walk (plain_fields ConstraintListField) (VDict d) = Ok tt →
  validate_constraints validate_constraint d = Ok tt →
  (∀ id, dget CONSTRAINT_ID d = Some id → py_eq id (VStr FORBIDDEN_CONSTRAINT_ID) = false) →
  (∀ id, dget CONSTRAINT_ID d = Some id → py_eq id (VStr ROLE_CONSTRAINT_ID) = false) →
  reported (create b (VDict d)).
Proof.
  intros Hd Hw Hv Hf Hr. pose proof Hw as Hkeys. apply walk_accepted in Hkeys as (d' & [= <-] & _ & _ & Hstrict).
  destruct (required_field _ CONSTRAINT_ID _ _ Hw
    (dget_plain_fields ConstraintListField CONSTRAINT_ID false false _ eq_refl))
    as (d' & x & [= <-] & Hx & Hc).
  destruct (required_field _ AUTH_CONSTRAINTS _ _ Hw
    (dget_plain_fields ConstraintListField AUTH_CONSTRAINTS false false _ eq_refl))
    as (d' & xs & [= <-] & Hxs & Hc').
  apply iterable_accepted in Hc' as (l & -> & _). apply choice_accepted in Hc as (i & -> & Hi).
  destruct (validate_constraints_accepted _ _ Hv) as (x & Hx' & Hacc). rewrite Hxs in Hx'. injection Hx' as <-.
  specialize (Hf _ Hx). specialize (Hr _ Hx). cbn in Hf, Hr. cbn [create]. rewrite Hx, Hr.
  assert (∀ b', reported (let! cs := children_of (create b') d in
     if no_extra_keys d then Ok (AuthConstraintAnd cs) else Raise (TypeError "unexpected keyword argument")) ∧
     reported (let! cs := children_of (create b') d in
     if no_extra_keys d then Ok (AuthConstraintOr cs) else Raise (TypeError "unexpected keyword argument"))) as Hboth.
  { intros b'. destruct (children_reported b' d _ Hd Hxs Hacc) as [(cs & ->)|[(m & ->)|[(k & ->)|(Hs & ->)]]];
      [eauto| |split; unfold reported; cbn; eauto 6..].
    cbn [res_bind]. destruct (no_extra_keys d) eqn:E; [split; unfold reported; eauto|].
    assert (schema_is_strict = false) by (destruct schema_is_strict; [|done]; rewrite list_keys in E; auto).
    split; unfold reported; eauto 6. }
  unfold constraint_ids in Hi. rewrite !elem_of_cons in Hi.
  destruct Hi as [->|[->|[->|[->|Hi]]]]; [done|apply Hboth|apply Hboth|done|by apply not_elem_of_nil in Hi].
Qed.

Lemma only_dicts v : validate_constraint v = Ok None → ∃ d, v = VDict d.
Proof.
  intros H. destruct v as [| | | | |d]; [..|eauto]; cbn -[py_contains] in H;
    repeat (first [done | apply res_bind_Ok in H as (? & _ & H)
                  | match type of H with context [if ?b then _ else _] => destruct b end]).
Qed.

Lemma accepted_parses v : parses v ∧ list_parses v.
Proof.
  induction v as [| | | |l IH|d IH] using val_ind'; split; cbn [list_parses]; try done;
    try (intros H; by apply only_dicts in H as [? ?]).
  - by eapply Forall_impl; [exact IH|]; intros ? [].
  - intros H b. assert (Forall (λ kv, list_parses kv.2) d) as Hd by (by eapply Forall_impl; [exact IH|]; intros ? []).
    clear IH. cbn -[walk plain_fields py_truth] in H. destruct (py_truth (VDict d)); [|done]. cbn [negb] in H.
    unfold dhas, dgetitem in H. destruct (dget CONSTRAINT_ID d) as [i|] eqn:Hi; [|done]. cbn [negb res_bind] in H.
    destruct (py_eq i (VStr FORBIDDEN_CONSTRAINT_ID)) eqn:Hf.
    { destruct i as [| | |s| |]; try done. apply str_eqb_eq in Hf as ->. cbn [create]. rewrite Hi. by left; eexists. }
    destruct (py_eq i (VStr ROLE_CONSTRAINT_ID)) eqn:Hr.
    { destruct i as [| | |s| |]; try done. apply str_eqb_eq in Hr as ->. cbn [create]. rewrite Hi. apply role_reported. }
    bind H as u Hw. bind H as u' Hv. destruct u, u'.
    apply list_create_reported; [done..|congruence|congruence].
Qed.
End Accepted.

(** *** A reference for plenum's messages *)

Definition accept_if (b : bool) : res (option string) := Ok (if b then None else Some "invalid value").

Definition text_such (p : string → bool) (v : val) : bool := match v with VStr s => p s | _ => false end.

Definition ref_field_check (kd : kind) (v : val) : res (option string) :=
  match kd with
  | ConstantField c => accept_if (text_such (λ s, str_eqb s c) v)
  | ChooseField cs => accept_if (text_such (λ s, bool_decide (s ∈ cs)) v)
  | LimitedLengthStringField _ | IdentifierField => accept_if (text_such (λ _, true) v)
  | _ => Ok None
  end.

Definition ref_field (fields : list (string * (bool * check))) (_ : unit) (kv : string * val) : res unit :=
  match dget kv.1 fields with
  | Some (_, f) =>
      let! e := f kv.2 in
      match e with Some m => Raise (TypeError m) | None => Ok tt end
  | None => Raise (TypeError "unknown field")
  end.

Definition ref_walk (fields : list (string * (bool * check))) (v : val) : res unit :=
  match v with
  | VDict d =>
      if forallb (λ '(k, (optional, _)), optional || dhas k d) fields
      then res_fold (ref_field fields) tt d
      else Raise (TypeError "missed fields")
  | _ => Raise (TypeError "expected dict")
  end.

Definition ref_iterable (lo hi : option Z) (f : check) (v : val) : res (option string) :=
  match v with
  | VList l => let! es := res_mapM f l in accept_if (forallb (λ e, match e with None => true | _ => false end) es)
  | _ => Ok (Some "expected types 'list, tuple'")
  end.

Lemma text_such_accepted p v : accept_if (text_such p v) = Ok None → ∃ s, v = VStr s ∧ p s = true.
Proof. destruct v; try done. cbn. destruct (p s) eqn:E; [|done]. eauto. Qed.

Lemma ref_walk_fields fields d :
  res_fold (ref_field fields) tt d = Ok tt →
  Forall (λ kv, ∃ o f, dget kv.1 fields = Some (o, f) ∧ f kv.2 = Ok None) d.
Proof.
  induction d as [|[k x] d IH]; [done|]. cbn [res_fold]. intros H. bind H as u Hu. destruct u.
  unfold ref_field in Hu at 1. cbn in Hu. destruct (dget k fields) as [[o f]|] eqn:E; [|done].
  bind Hu as e He. destruct e; [done|]. constructor; [cbn; eauto|by apply IH].
Qed.

#[export] Program Instance ref_messages : MessageBase := {|
  schema_is_strict := true;
  field_check := ref_field_check;
  iterable_check := ref_iterable;
  walk := ref_walk;
  raise_missed_fields _ := TypeError "missed fields";
  raise_invalid_fields _ _ m := TypeError m;
  raise_invalid_message m := TypeError m
|}.
Next Obligation. intros c v (s & -> & ->%str_eqb_eq)%text_such_accepted. done. Qed.
Next Obligation. intros cs v (s & -> & Hs%bool_decide_eq_true)%text_such_accepted. eauto. Qed.
Next Obligation. intros v (s & -> & _)%text_such_accepted. eauto. Qed.
Next Obligation. intros n v (s & -> & _)%text_such_accepted. eauto. Qed.
Next Obligation.
  intros lo hi f v H. destruct v; try done. exists l. split; [done|]. cbn in H. bind H as es Hes.
  apply res_mapM_Forall2 in Hes. injection H as H.
  destruct (forallb _ es) eqn:E; [|done]. clear H. rewrite forallb_forall in E.
  induction Hes as [|x [m|] l es Hx _ IH]; [done|by specialize (E _ (or_introl eq_refl))|].
  constructor; [done|]. apply IH. intros e He. apply E. by right.
Qed.
Next Obligation.
  intros fields v H. destruct v as [| | | | |d]; try done. exists d. cbn in H.
  destruct (forallb _ fields) eqn:E; [|done]. apply ref_walk_fields in H. rewrite forallb_forall in E.
  split; [done|]. split; [|split].
  - intros k f Hk. by specialize (E _ (proj1 (list_elem_of_In _ _) Hk)).
  - intros k o f x Hk Hx. rewrite Forall_forall in H.
    destruct (H _ (dget_Some_elem _ _ _ Hx)) as (o' & f' & Hf & Hok). cbn in Hf, Hok. congruence.
  - intros _. unfold dkeys. rewrite Forall_fmap. eapply Forall_impl; [exact H|].
    intros [k x] (o & f & Hk & _). cbn in *. unfold dhas. by rewrite Hk.
Qed.

#[export] Instance ref_limits : PlenumLimits := {|
  ALIAS_FIELD_LIMIT := 256; DATA_FIELD_LIMIT := 1024; NONCE_FIELD_LIMIT := 512; NAME_FIELD_LIMIT := 256;
  JSON_FIELD_LIMIT := 5120; ENC_FIELD_LIMIT := 5120; RAW_FIELD_LIMIT := 5120;
  SIGNATURE_TYPE_FIELD_LIMIT := 16
|}.

(** ** Properties *)

Section AcceptedMessages.
Context {PL : PlenumLimits} {MB : MessageBase}.

(** A required field that is not a message, of an accepted operation. *)
Lemma accepted_field s hook d k kd :
  validate_message s hook (VDict d) = Ok tt → dget k s = Some (false, false, kd) →
  ∃ x, dget k d = Some x ∧ kind_check kd x = Ok None.
Proof.
  unfold validate_message. intros H Hk. bind H as u Hw. destruct u.
  destruct (required_field _ k _ _ Hw (dget_fields_of s k _ _ _ Hk)) as (d' & x & [= <-] & Hx & Hc).
  cbn in Hc. eauto.
Qed.

Lemma accepted_type s hook r t :
  validate_message s hook (VDict (operation r)) = Ok tt →
  dget TXN_TYPE s = Some (required (ConstantField t)) → validate_request_type t r = Ok tt.
Proof.
  intros H Ht. destruct (accepted_field _ _ _ _ _ H Ht) as (x & Hx & ->%constant_accepted).
  unfold validate_request_type. unfold vget. rewrite Hx. cbn. by rewrite str_eqb_refl.
Qed.

(** The outcome of a static validation is reported to the client; with schemas that
    are not strict an unknown key of a constraint is a [TypeError]. *)
Definition client_outcome (r : res unit) : Prop :=
  r = Ok tt ∨ (∃ idr q why, r = Raise (InvalidClientRequest idr q why)) ∨
  schema_is_strict = false ∧ r = Raise (TypeError "unexpected keyword argument").

Lemma check_auth_key_outcome idr q d m t :
  dget AUTH_TYPE d = Some (VStr t) → client_outcome (check_auth_key idr q d m).
Proof.
  intros Ht. unfold check_auth_key, get_auth_key, client_outcome.
  replace (vget AUTH_TYPE d) with (VStr t) by (unfold vget; by rewrite Ht). cbn [type_text res_bind].
  repeat case_match; eauto 8.
Qed.

Lemma rule_outcome idr q d m x t :
  dget CONSTRAINT d = Some x → validate_constraint x = Ok None →
  dget AUTH_TYPE d = Some (VStr t) → client_outcome (static_validation_for_rule idr q d m).
Proof.
  intros Hx Hc Ht. unfold static_validation_for_rule, create_constraint.
  replace (vget CONSTRAINT d) with x by (unfold vget; by rewrite Hx).
  destruct (proj1 (accepted_parses x) Hc true) as [(c & ->)|[(e & ->)|[(k & ->)|(Hs & ->)]]];
    [by eapply check_auth_key_outcome|unfold client_outcome; eauto 8..].
Qed.

Lemma accepted_rule s hook d :
  validate_message s hook (VDict d) = Ok tt →
  dget CONSTRAINT s = Some (required ConstraintField) →
  dget AUTH_TYPE s = Some (required (text NAME_FIELD_LIMIT)) →
  ∃ x t, dget CONSTRAINT d = Some x ∧ validate_constraint x = Ok None ∧ dget AUTH_TYPE d = Some (VStr t).
Proof.
  intros H Hc Ht. destruct (accepted_field _ _ _ _ _ H Hc) as (x & Hx & Hok).
  destruct (accepted_field _ _ _ _ _ H Ht) as (y & Hy & (t & ->)%text_accepted). eauto.
Qed.

Lemma rules_outcome idr q m l :
  Forall (λ rule, ∃ d, rule = VDict d ∧ client_outcome (static_validation_for_rule idr q d m)) l →
  client_outcome (res_fold (λ _ rule, let! d := rule_dict rule in static_validation_for_rule idr q d m) tt l).
Proof.
  induction 1 as [|? l (d & -> & Hd) _ IH]; [by left|]. cbn [res_fold rule_dict res_bind].
  destruct Hd as [->|[(i & j & why & ->)|[Hs ->]]]; [exact IH|unfold client_outcome; cbn; eauto 8..].
Qed.
End AcceptedMessages.

(** The same for one rule. *)
Theorem auth_rule_errors_reported {PL : PlenumLimits} {MB : MessageBase} json_loads ip port r m :
  validate_message ClientAuthRuleOperation (message_hook json_loads ip port AUTH_RULE)
    (VDict (operation r)) = Ok tt →
  client_outcome (auth_rule_static_validation r m).
Proof.
  intros H. destruct (accepted_rule _ _ _ H eq_refl eq_refl) as (x & t & Hx & Hc & Ht).
  unfold auth_rule_static_validation. rewrite (accepted_type _ _ _ AUTH_RULE H) by done.
  by eapply rule_outcome.
Qed.

(** Every fault of a change of the authorization rules is reported to the
    client: for an AUTH_RULES request whose operation passed the message schema,
    with its nested constraints checked at any depth, the static validation of
    the handler accepts or refuses with [InvalidClientRequest]; a
    [TypeError] of a constructor can escape only when schemas admit unknown keys. *)
Theorem auth_rules_errors_reported {PL : PlenumLimits} {MB : MessageBase} json_loads ip port r m :
  validate_message ClientAuthRulesOperation (message_hook json_loads ip port AUTH_RULES)
    (VDict (operation r)) = Ok tt →
  client_outcome (auth_rules_static_validation r m).
Proof.
  intros H. unfold auth_rules_static_validation. rewrite (accepted_type _ _ _ AUTH_RULES H) by done.
  destruct (accepted_field _ _ _ RULES _ H eq_refl) as (x & Hx & Hok).
  apply iterable_accepted in Hok as (l & -> & Hl). unfold vget. rewrite Hx. cbn [py_iter res_bind].
  apply rules_outcome. eapply Forall_impl; [exact Hl|]. intros rule Hr.
  change ((let! _ := walk (fields_of AuthRuleField) rule in Ok (None : option string)) = Ok None) in Hr.
  bind Hr as u Hw. destruct u.
  pose proof (walk_accepted _ _ Hw) as (d & -> & _). exists d. split; [done|].
  assert (validate_message AuthRuleField (λ _, Ok tt) (VDict d) = Ok tt) as Hv.
  { unfold validate_message. by rewrite Hw. }
  destruct (accepted_rule _ _ _ Hv eq_refl eq_refl) as (x & t & Hx' & Hc & Ht).
  by eapply rule_outcome.
Qed.

Definition sample_rule : val :=
  VDict [(CONSTRAINT, VDict [(CONSTRAINT_ID, VStr OR_CONSTRAINT_ID);
            (AUTH_CONSTRAINTS, VList [as_dict (RoleConstraint (Some TRUSTEE) 1 false);
                                      as_dict AuthConstraintForbidden])]);
         (AUTH_ACTION, VStr ADD_PREFIX); (AUTH_TYPE, VStr NYM); (FIELD, VStr ROLE);
         (NEW_VALUE, VStr TRUSTEE)].

Definition sample_rules_request : Request :=
  mkRequest (Some "T") (Some 1%Z) [(TXN_TYPE, VStr AUTH_RULES); (RULES, VList [sample_rule])]
    None None None.

Lemma auth_rules_errors_reported_witness :
  client_outcome (auth_rules_static_validation sample_rules_request []).
Proof. apply (auth_rules_errors_reported Ok (λ _, true) (λ _, true)). vm_compute. reflexivity. Defined.

(** An attribute accepted with raw data has no other data, and one key. *)
Lemma accepted_raw {PL : PlenumLimits} {MB : MessageBase} json_loads ip port d raw :
  validate_message ClientAttribOperation (message_hook json_loads ip port ATTRIB) (VDict d) = Ok tt →
  dget RAW d = Some raw →
  dget ENC d = None ∧ dget HASH d = None ∧ ∃ k x, json_loads raw = Ok (VDict [(k, x)]).
Proof.
  unfold validate_message. intros H Hraw. bind H as u _. clear u.
  change (validate_attrib_message json_loads ip port (VDict d) = Ok tt) in H.
  unfold validate_attrib_message, validate_field_set in H.
  cbn [res_mapM py_contains res_bind] in H. unfold dhas in H. rewrite Hraw in H.
  assert (dget ENC d = None ∧ dget HASH d = None) as [He Hh]
    by (destruct (dget ENC d), (dget HASH d); done).
  rewrite He, Hh in H. cbn [List.filter id length Nat.eqb Nat.ltb Nat.leb res_bind] in H.
  cbn [py_getitem] in H. unfold dgetitem in H. rewrite Hraw in H. cbn [res_bind] in H.
  unfold validate_raw_field in H. bind H as v Hv. destruct v as [| | | | |doc]; try done.
  destruct doc as [|[k x] [|]]; try done. eauto.
Qed.

(** C40. The attribute that is looked up is the attribute that is written.  Take an
    ATTRIB request with raw data that passed the message schema, and suppose that the
    serializer of the handlers (plenum's [JsonSerializer]) parses what [json.loads],
    which the schema uses, parses, to the same data.  The static validation accepts
    it, and when the dynamic validation does there is one path, of the DID and of the
    one attribute of the data, such that: the request was authorized as an addition
    when the state has no transaction at that path, and otherwise as an edit of the value
    found through it; the update writes at that path and nowhere else; and every
    later request accepted by the schema for the same DID and attribute is judged as
    an edit of exactly the text that was written, whoever sends it. *)
Theorem attribute_checked_is_written {PL : PlenumLimits} {MB : MessageBase} {bytes St CSt A root S}
    `{!Serializer bytes, !State bytes St, !State bytes CSt, !StateCodec bytes, !AttributeStore A,
      !OptimisticStore S root} {RL : Rlp}
    str_request sha256_hex sha256_hex_bytes json_loads deserialize serialize ip port r raw
    (state : St) (attrs : A) (c : S) (v v' : WriteRequestValidator (St := CSt)) txn seq_no :
  (∀ x d, json_loads x = Ok d → deserialize x = Ok d) →
  (∀ d, serialize d ≠ "") → (∀ s, sha256_hex s ≠ "") →
  let accepted r := validate_message ClientAttribOperation (message_hook json_loads ip port ATTRIB)
    (VDict (operation r)) = Ok tt in
  let dynamic := attrib_dynamic_validation str_request sha256_hex deserialize in
  let check c v (r : Request) owner raw old :=
    let is_owner := py_eq owner (opt_str (identifier r)) in
    validate_action str_request c v r
      match old with
      | None => AuthActionAdd ATTRIB (VStr RAW) raw is_owner
      | Some old => AuthActionEdit ATTRIB (VStr RAW) old raw is_owner
      end in
  accepted r → dget RAW (operation r) = Some raw →
  get_type txn = ATTRIB → get_payload_data txn = operation r → get_seq_no txn = Some seq_no →
  attrib_static_validation deserialize r = Ok tt ∧
  (dynamic state attrs c v r = Ok v' →
   ∃ nym k x owner h seq t old path value attrs',
     dget TARGET_NYM (operation r) = Some (VStr nym) ∧ json_loads raw = Ok (VDict [(k, x)]) ∧
     getOwnerFor c nym false = Ok owner ∧
     path = raw_attr_path sha256_hex nym k ∧ get_from_state_val state path = Ok (h, seq, t) ∧
     check c v r owner raw (if is_none seq then None else Some old) = Ok v' ∧
     (if py_truth h then ∃ s, h = VStr s ∧ as_get attrs s = Ok old else old = h) ∧
     attrib_update_state sha256_hex sha256_hex_bytes deserialize serialize state attrs txn =
       Ok (st_set state path value, attrs') ∧
     ∀ r2 raw2 x2 v2, accepted r2 → dget RAW (operation r2) = Some raw2 →
       dget TARGET_NYM (operation r2) = Some (VStr nym) → json_loads raw2 = Ok (VDict [(k, x2)]) →
       dynamic (st_set state path value) attrs' c v2 r2 =
         check c v2 r2 owner raw2 (Some (VStr (serialize (VDict [(k, x)]))))).
Proof.
  intros Hag Hser Hsha accepted dynamic check Hv Hraw Hty Hdata Hseq. subst accepted dynamic check. cbv zeta.
  destruct (accepted_raw _ _ _ _ _ Hv Hraw) as (He & Hh & k & x & Hk). pose proof (Hag _ _ Hk) as Hdoc.
  destruct (accepted_field _ _ _ TARGET_NYM _ Hv eq_refl) as (y & Hy & (nym & ->)%identifier_accepted).
  pose proof (accepted_type _ _ _ ATTRIB Hv eq_refl) as Ht. split.
  - unfold attrib_static_validation, validate_attrib_keys. rewrite Ht. cbn [res_bind List.filter].
    unfold dhas. rewrite Hraw, He, Hh. cbn [length Nat.eqb negb]. by rewrite Hdoc.
  - rewrite (dynamic_raw _ _ _ _ _ _ _ _ nym raw k x) by done. intros H.
    bind H as has Hhas. destruct has; cbn [negb] in H; [|done]. bind H as owner Ho.
    apply res_bind_Ok in H as ([[old seq] t] & Hg & H).
    destruct (get_attr_at _ _ _ _ _ _ _ _ Hg) as (h & Hst & Hold1 & Hold2).
    rewrite <- Hdata in Hy, Hraw, He, Hh.
    pose proof (raw_update sha256_hex sha256_hex_bytes deserialize serialize state attrs txn nym raw [] k x
      Hser Hty Hy Hraw He Hh Hdoc) as Hup.
    pose proof (raw_attribute_reads_back sha256_hex sha256_hex_bytes deserialize serialize state attrs txn nym raw
      [] k x Hsha Hser Hty Hy Hraw He Hh Hdoc) as (s' & a' & _ & Hup' & Hback & _).
    cbv zeta in *. rewrite Hup in Hup'. injection Hup' as <- <-. cbn [app] in Hback, Hup.
    exists nym, k, x, owner, h, seq, t, old. eexists _, _, _. rewrite <- Hdata. split_and!; try done.
    + by destruct (is_none seq).
    + destruct (py_truth h); eauto.
    + intros r2 raw2 x2 v2 Hv2 Hraw2 Hy2 Hk2.
      rewrite (dynamic_raw _ _ _ _ _ _ _ _ nym raw2 k x2);
        [|exact (accepted_type _ _ _ ATTRIB Hv2 eq_refl)|done|done|by apply Hag].
      rewrite Hhas. cbn [res_bind negb]. rewrite Ho. cbn [res_bind]. rewrite Hback. by rewrite Hseq.
Qed.

(** A trustee's cache and a request of the trustee for its own endpoint. *)
Definition attr_loads (v : val) : res val :=
  if py_eq v (VStr "raw") then Ok (VDict [("endpoint", VDict [("ha", VStr "10.0.0.1:80")])])
  else if py_eq v (VStr "gone") then Ok (VDict [("endpoint", VNone)]) else Raise JSONDecodeError.

Definition attr_request (raw : string) : Request :=
  mkRequest (Some "N") (Some 1%Z) [(TXN_TYPE, VStr ATTRIB); (TARGET_NYM, VStr "N"); (RAW, VStr raw)]
    (Some "s") None None.

Definition attr_cache : MapStore :=
  match IdrCache.set empty_store "N" (Some 1%Z) None None (Some TRUSTEE) (Some "kN") false with
  | Ok c => c
  | Raise _ => empty_store
  end.

Lemma attribute_checked_is_written_witness :
  let validator := default_validator (∅ : gmap string val) false in
  let sha s := "h" +:+ s in
  attrib_static_validation attr_loads (attr_request "raw") = Ok tt ∧
  ∃ path value attrs',
    attrib_update_state (bytes := val) sha (λ _, "h") attr_loads (λ _, "text") (∅ : gmap string val)
      (∅ : gmap string val) (mkTxn ATTRIB (operation (attr_request "raw")) (Some "N") None None None (Some 3%Z)
        (Some 4%Z)) = Ok (st_set (∅ : gmap string val) path value, attrs') ∧
    attrib_dynamic_validation (λ _, "") sha attr_loads (st_set (∅ : gmap string val) path value) attrs' attr_cache
      validator (attr_request "gone") =
    validate_action (λ _, "") attr_cache validator (attr_request "gone")
      (AuthActionEdit ATTRIB (VStr RAW) (VStr "text") (VStr "gone") true).
Proof.
  intros validator sha.
  assert (∃ v', attrib_dynamic_validation (bytes := val) (λ _, "") sha attr_loads (∅ : gmap string val)
    (∅ : gmap string val) attr_cache validator (attr_request "raw") = Ok v') as [v' Hd]
    by (eexists; vm_compute; reflexivity).
  destruct (attribute_checked_is_written (bytes := val) (St := gmap string val) (A := gmap string val) (λ _, "") sha
    (λ _, "h") attr_loads attr_loads (λ _, "text") (λ _, true) (λ _, true) (attr_request "raw") (VStr "raw") ∅ ∅
    attr_cache validator v' (mkTxn ATTRIB (operation (attr_request "raw")) (Some "N") None None None (Some 3%Z)
        (Some 4%Z)) 3) as [H1 H2];
    [done|discriminate|discriminate|vm_compute; reflexivity|reflexivity..|].
  split; [exact H1|]. destruct (H2 Hd) as (nym & k & x & owner & h & seq & t & old & path & value & attrs' & Hn & Hk &
    Ho & _ & _ & _ & _ & Hup & Hlater).
  exists path, value, attrs'. split; [exact Hup|].
  cbn in Hn. injection Hn as <-. vm_compute in Hk. injection Hk as <- <-. vm_compute in Ho. injection Ho as <-.
  apply (Hlater (attr_request "gone") (VStr "gone") VNone validator); [vm_compute; reflexivity|reflexivity..].
Defined.
