(* ===== verification/World.v ===== *)
(** * Programs that act on the machine

    The control tool and the package queries run shell commands and move files.
    Such a program is a function of the state of the machine: it returns a result,
    or an exception, and the machine as it left it; what was done before an
    exception stays done.

    The shell is a parameter: a command text takes the machine to another and ends
    with an output, with a return code that is not zero, or not at all (a timeout,
    a command that cannot be started).  Outputs are texts: they stand for what the
    bytes decode to, undecodable ones having become blanks. *)
From Stdlib Require Import Ascii.
From S2P Require Import Prelude PyValue Plenum Constants StateDomain IdrCache HandlerBase Upgrader PoolUpgrade.

Definition act (W A : Type) : Type := W → res A * W.

Section Acts.
Context {W : Type}.

Definition ret {A} (a : A) : act W A := λ w, (Ok a, w).
Definition raise {A} (e : exn) : act W A := λ w, (Raise e, w).
Definition lift {A} (r : res A) : act W A := λ w, (r, w).

Definition modify (f : W → W) : act W unit := λ w, (Ok tt, f w).

Definition act_bind {A B} (m : act W A) (k : A → act W B) : act W B :=
  λ w, match m w with
       | (Ok a, w') => k a w'
       | (Raise e, w') => (Raise e, w')
       end.

(** [try: m except ...: h], [h] for the exceptions it does not take being [raise]. *)
Definition catch {A} (m : act W A) (h : exn → act W A) : act W A :=
  λ w, match m w with
       | (Raise e, w') => h e w'
       | r => r
       end.

(** [for x in l: body] *)
Definition each {A} (f : A → act W unit) : list A → act W unit :=
  fix go (l : list A) : act W unit :=
    match l with
    | [] => ret tt
    | x :: l' => act_bind (f x) (λ _, go l')
    end.

(** [for x in l: body] over an accumulator *)
Definition act_fold {A B} (f : B → A → act W B) : B → list A → act W B :=
  fix go (acc : B) (l : list A) : act W B :=
    match l with
    | [] => ret acc
    | x :: l' => act_bind (f acc x) (λ acc', go acc' l')
    end.

(** [[f(x) for x in l]] *)
Definition act_mapM {A B} (f : A → act W B) : list A → act W (list B) :=
  fix go (l : list A) : act W (list B) :=
    match l with
    | [] => ret []
    | x :: l' => act_bind (f x) (λ y, act_bind (go l') (λ ys, ret (y :: ys)))
    end.
End Acts.

Notation "'let?' x ':=' m 'in' k" := (act_bind m (λ x, k))
  (at level 10, x pattern, m at level 100, k at level 200) : py_scope.

(** ** The shell *)

Inductive outcome :=
| Done (stdout : string)
| Exited (returncode : Z) (stdout stderr : string)
| NotRun (e : exn).

(** [shell] runs a command; [which] is whether a program is installed. *)
Class Shell (W : Type) := {
  shell : string → W → outcome * W;
  which : string → W → bool
}.

(** [re.split(";|&&", s, 1)[0]] *)
Fixpoint before_command_separator (s : string) : string :=
  match s with
  | "" => ""
  | String c s' =>
      if Ascii.eqb c ";" || String.prefix "&&" s then "" else String c (before_command_separator s')
  end.

(** [compose_cmd] of [indy_common/util.py]: the words of one command. *)
Definition compose_cmd (cmd : list string) : res string :=
  match py_join " " cmd with
  | "" => Raise IndexError
  | line => Ok (rstrip (before_command_separator (first_line line)))
  end.

(** [str.strip()] of an output *)
Fixpoint lstrip (s : string) : string :=
  match s with
  | "" => ""
  | String c s' => if is_space c then lstrip s' else s
  end.

Definition strip (s : string) : string := rstrip (lstrip s).

Section Commands.
Context {W : Type} `{!Shell W}.

(** [NodeControlUtil.run_shell_command]: a return code is ignored. *)
Definition run_shell_command (command : string) : act W string :=
  λ w, match shell command w with
       | (Done out, w') | (Exited _ out _, w') => (Ok (strip out), w')
       | (NotRun _, w') => (Raise (PyException ("command " +:+ command +:+ " failed")), w')
       end.

(** [NodeControlUtil.run_shell_script] *)
Definition run_shell_script (command : string) : act W unit :=
  λ w, match shell command w with
       | (Done _, w') => (Ok tt, w')
       | (Exited rc _ _, w') => (Raise (CalledProcessError rc "" ""), w')
       | (NotRun e, w') => (Raise e, w')
       end.

(** [NodeControlUtil.run_shell_script_extended], with both streams captured. *)
Definition run_shell_script_extended (command : string) : act W string :=
  λ w, match shell command w with
       | (Done out, w') => (Ok (strip out), w')
       | (Exited rc out err, w') => (Raise (ShellError rc out err), w')
       | (NotRun e, w') => (Raise e, w')
       end.

(** [run(compose_cmd(words))] *)
Definition command (words : list string) : act W string :=
  let? cmd := lift (compose_cmd words) in run_shell_command cmd.

Definition script (words : list string) : act W unit :=
  let? cmd := lift (compose_cmd words) in run_shell_script cmd.
End Commands.

(** A shell that keeps the commands it was given, and answers as it likes. *)
Definition logging_shell (answer : list string → string → outcome) (installed : string → bool)
    : Shell (list string) :=
  {| shell cmd log := (answer log cmd, log ++ [cmd]); which program _ := installed program |}.

(** ** Lemmas *)

Section act_lemmas.
Context {W : Type}.

Lemma act_bind_Ok {A B} (m : act W A) (k : A → act W B) w b w' :
  act_bind m k w = (Ok b, w') ↔ ∃ a w1, m w = (Ok a, w1) ∧ k a w1 = (Ok b, w').
Proof.
  unfold act_bind. destruct (m w) as [[a|e] w1]; split.
  - eauto.
  - by intros (? & ? & [= <- <-] & ?).
  - done.
  - by intros (? & ? & ? & ?).
Qed.

(** A catch-all handler that does not raise makes a program that does not raise. *)
Lemma catch_total {A} (m : act W A) h w :
  (∀ e w1, ∃ a w2, h e w1 = (Ok a, w2)) → ∃ a w', catch m h w = (Ok a, w').
Proof. intros Hh. unfold catch. destruct (m w) as [[a|e] w1]; eauto. Qed.
End act_lemmas.

(** *** Frames

    What a program cannot change: [frames R f] says that the machine after [f], also
    when it raises, is related by [R] to the machine before. *)
Section frames.
Context {W : Type} (R : relation W) `{!PreOrder R}.

Definition frames {A} (f : act W A) : Prop := ∀ w, R w (f w).2.

Lemma frames_ret {A} (a : A) : frames (ret a).
Proof. intros w. reflexivity. Qed.

Lemma frames_raise {A} e : frames (raise e : act W A).
Proof. intros w. reflexivity. Qed.

Lemma frames_lift {A} (r : res A) : frames (lift r).
Proof. intros w. reflexivity. Qed.

Lemma frames_lift_bind {A B} (a : A) (k : A → act W B) : frames (k a) → frames (act_bind (lift (Ok a)) k).
Proof. intros H w. apply H. Qed.

Lemma frames_bind {A B} (f : act W A) (k : A → act W B) :
  frames f → (∀ a, frames (k a)) → frames (act_bind f k).
Proof.
  intros Hf Hk w. unfold act_bind. specialize (Hf w). destruct (f w) as [[a|e] w1]; [|done].
  etransitivity; [exact Hf|]. apply Hk.
Qed.

Lemma frames_catch {A} (f : act W A) h : frames f → (∀ e, frames (h e)) → frames (catch f h).
Proof.
  intros Hf Hh w. unfold catch. specialize (Hf w). destruct (f w) as [[a|e] w1]; [done|].
  etransitivity; [exact Hf|]. apply Hh.
Qed.

Lemma frames_each {A} (f : A → act W unit) l : (∀ x, frames (f x)) → frames (each f l).
Proof.
  intros Hf. induction l as [|x l IH]; [apply frames_ret|]. by apply frames_bind.
Qed.

Lemma frames_command `{!Shell W} cmd :
  (∀ w, R w (shell cmd w).2) → frames (run_shell_command cmd) ∧ frames (run_shell_script cmd) ∧
  frames (run_shell_script_extended cmd).
Proof.
  intros H. unfold frames, run_shell_command, run_shell_script, run_shell_script_extended.
  repeat split; intros w; specialize (H w); by destruct (shell cmd w) as [[] ?].
Qed.
End frames.

(** *** Total correctness

    [runs f w Q]: from [w] the program returns, and [Q] holds of the result and of
    the machine it leaves. *)
Section runs.
Context {W : Type}.

Definition runs {A} (f : act W A) (w : W) (Q : A → W → Prop) : Prop := ∃ a w', f w = (Ok a, w') ∧ Q a w'.

Lemma runs_ret {A} (a : A) w (Q : A → W → Prop) : Q a w → runs (ret a) w Q.
Proof. intros H. by exists a, w. Qed.

Lemma runs_bind {A B} (f : act W A) (k : A → act W B) w Q P :
  runs f w P → (∀ a w', P a w' → runs (k a) w' Q) → runs (act_bind f k) w Q.
Proof.
  intros (a & w1 & Hf & Ha) Hk. destruct (Hk a w1 Ha) as (b & w2 & Hb & HQ).
  exists b, w2. split; [|done]. unfold act_bind. by rewrite Hf.
Qed.

Lemma runs_mono {A} (f : act W A) w (P Q : A → W → Prop) :
  runs f w P → (∀ a w', P a w' → Q a w') → runs f w Q.
Proof. intros (a & w1 & Hf & Ha) HQ. exists a, w1. eauto. Qed.

(** A loop, with an invariant of what is done and what is to be done. *)
Lemma runs_fold {A B} (f : B → A → act W B) (I : list A → list A → B → W → Prop) done l b w :
  I done l b w →
  (∀ done x l b w, I done (x :: l) b w → runs (f b x) w (I (done ++ [x]) l)) →
  runs (act_fold f b l) w (I (done ++ l) []).
Proof.
  intros H Hstep. revert done b w H. induction l as [|x l IH]; intros done b w H; cbn.
  - apply runs_ret. by rewrite app_nil_r.
  - eapply runs_bind; [by apply Hstep|]. intros b' w' H'. replace (done ++ x :: l) with ((done ++ [x]) ++ l)
      by by rewrite <-app_assoc. by apply IH.
Qed.

Lemma runs_each {A} (f : A → act W unit) (I : list A → list A → W → Prop) done l w :
  I done l w →
  (∀ done x l w, I done (x :: l) w → runs (f x) w (λ _, I (done ++ [x]) l)) →
  runs (each f l) w (λ _, I (done ++ l) []).
Proof.
  intros H Hstep. revert done w H. induction l as [|x l IH]; intros done w H; cbn.
  - apply runs_ret. by rewrite app_nil_r.
  - eapply runs_bind; [by apply Hstep|]. intros [] w' H'. replace (done ++ x :: l) with ((done ++ [x]) ++ l)
      by by rewrite <-app_assoc. by apply IH.
Qed.

(** A list of readings: nothing changes. *)
Lemma runs_mapM {A B} (f : A → act W B) (g : A → B) l w :
  (∀ x, x ∈ l → f x w = (Ok (g x), w)) → act_mapM f l w = (Ok (map g l), w).
Proof.
  induction l as [|x l IH]; intros H; cbn; [done|]. unfold act_bind.
  rewrite H by apply list_elem_of_here. rewrite IH; [done|]. intros y Hy. apply H. by apply list_elem_of_further.
Qed.
End runs.

(** *** Invariants

    [keeps P f Q]: the program keeps [P] of the machine, also when it raises, and what
    it returns has [Q]. *)
Section keeps.
Context {W : Type} (P : W → Prop).

Definition keeps {A} (f : act W A) (Q : A → Prop) : Prop :=
  ∀ w, P w → P (f w).2 ∧ ∀ a, (f w).1 = Ok a → Q a.

Lemma keeps_ret {A} (a : A) (Q : A → Prop) : Q a → keeps (ret a) Q.
Proof. intros H w Hw. split; [done|]. by intros ? [= <-]. Qed.

Lemma keeps_bind {A B} (f : act W A) (k : A → act W B) Q R :
  keeps f Q → (∀ a, Q a → keeps (k a) R) → keeps (act_bind f k) R.
Proof.
  intros Hf Hk w Hw. destruct (Hf w Hw) as [H1 H2]. unfold act_bind.
  destruct (f w) as [[a|e] w1]; [|done]. by apply Hk; [apply H2|].
Qed.

Lemma keeps_any {A} (f : act W A) : (∀ w, P w → P (f w).2) → keeps f (λ _, True).
Proof. intros H w Hw. split; [by apply H|done]. Qed.

Lemma keeps_fold {A B} (f : B → A → act W B) (Q : B → Prop) b l :
  Q b → (∀ b x, x ∈ l → Q b → keeps (f b x) Q) → keeps (act_fold f b l) Q.
Proof.
  revert b. induction l as [|x l IH]; intros b Hb Hf; cbn; [by apply keeps_ret|].
  eapply keeps_bind; [apply Hf; [apply list_elem_of_here|done]|].
  intros b' Hb'. apply IH; [done|]. intros; apply Hf; [by apply list_elem_of_further|done].
Qed.

Lemma keeps_each {A} (f : A → act W unit) l :
  (∀ x, x ∈ l → keeps (f x) (λ _, True)) → keeps (each f l) (λ _, True).
Proof.
  induction l as [|x l IH]; intros Hf; cbn; [by apply keeps_ret|].
  eapply keeps_bind; [apply Hf, list_elem_of_here|]. intros _ _. apply IH.
  intros; apply Hf; by apply list_elem_of_further.
Qed.

Lemma keeps_mapM {A B} (f : A → act W B) l :
  (∀ x, x ∈ l → keeps (f x) (λ _, True)) → keeps (act_mapM f l) (λ _, True).
Proof.
  induction l as [|x l IH]; intros Hf; cbn; [by apply keeps_ret|].
  eapply keeps_bind; [apply Hf, list_elem_of_here|]. intros y _.
  eapply keeps_bind; [apply IH; intros; apply Hf; by apply list_elem_of_further|].
  intros ys _. by apply keeps_ret.
Qed.
End keeps.

Create HintDb frames discriminated.
#[export] Hint Resolve frames_ret frames_raise frames_lift frames_bind frames_catch frames_each : frames.

(** The text holds no line break, no [;] and no [&&]. *)
Fixpoint one_command (s : string) : bool :=
  match s with
  | "" => true
  | String c s' =>
      negb (is_line_break c || Ascii.eqb c ";" || String.prefix "&&" s) && one_command s'
  end.

Lemma prefix_mono (sep a t : string) : String.prefix sep (a +:+ t) = false → String.prefix sep a = false.
Proof.
  revert sep. induction a as [|c a IH]; intros [|d sep]; simpl; try done.
  - by destruct t.
  - destruct (ascii_dec d c); [apply IH|done].
Qed.

Lemma one_command_prefix a t : one_command (a +:+ t) = true → one_command a = true.
Proof.
  induction a as [|c a IH]; [done|].
  change (String c a +:+ t) with (String c (a +:+ t)). cbn [one_command].
  rewrite !andb_true_iff, !negb_true_iff, !orb_false_iff. intros [[[H1 H2] H3] H4].
  repeat split; try done; [|by apply IH].
  apply (prefix_mono _ _ t). exact H3.
Qed.

Lemma rstrip_prefix s : ∃ t, s = rstrip s +:+ t.
Proof.
  induction s as [|c s [t IH]]; [by exists ""|]. cbn [rstrip].
  destruct (rstrip s) as [|d r] eqn:E; [destruct (is_space c); [by exists (String c s)|by exists s]|].
  exists t. rewrite IH at 1. done.
Qed.

Lemma cut_prefix s : ∃ t, s = before_command_separator s +:+ t.
Proof.
  induction s as [|c s [t IH]]; [by exists ""|]. cbn [before_command_separator].
  case_match; [by exists (String c s)|]. exists t. rewrite IH at 1. done.
Qed.

Lemma first_line_prefix s : ∃ t, s = first_line s +:+ t.
Proof.
  induction s as [|c s [t IH]]; [by exists ""|]. cbn [first_line].
  case_match; [by exists (String c s)|]. exists t. rewrite IH at 1. done.
Qed.

Lemma one_command_cut s : one_command (before_command_separator (first_line s)) = true.
Proof.
  induction s as [|c s IH]; [done|]. cbn [first_line]. destruct (is_line_break c) eqn:Hc; [done|].
  cbn [before_command_separator]. destruct (Ascii.eqb c ";") eqn:Hs; [done|].
  destruct (String.prefix "&&" (String c (first_line s))) eqn:Hp; [done|]. cbn [orb one_command].
  rewrite Hc, Hs, IH. destruct (cut_prefix (first_line s)) as [t Ht]. rewrite Ht in Hp.
  change (String c (before_command_separator (first_line s) +:+ t))
    with (String c (before_command_separator (first_line s)) +:+ t) in Hp.
  by rewrite (prefix_mono _ _ _ Hp).
Qed.

(** A composed command is one command: nothing after a line break, [;] or [&&]
    reaches the shell (a [|] does). *)
Theorem compose_cmd_single words cmd : compose_cmd words = Ok cmd → one_command cmd = true.
Proof.
  assert (∀ l, one_command (rstrip (before_command_separator (first_line l))) = true) as Hone.
  { intros l. destruct (rstrip_prefix (before_command_separator (first_line l))) as [t Ht].
    apply (one_command_prefix _ t). rewrite <- Ht. apply one_command_cut. }
  unfold compose_cmd. destruct (py_join " " words) as [|c line]; [done|]. intros [= <-]. exact (Hone (String c line)).
Qed.
