(* ===== verification/Versions.v ===== *)
(** * Versions

    [indy_common/version.py], [node_version.py] and [node_version_fallback.py]: the
    versions of the node and of other packages; and the class [DebianVersion] of
    [indy_node/utils/node_control_utils.py], the version of a package with a cached
    comparison.

    [NodeVersionFallback] is modelled whole.  [NodeVersion] adds restrictions to
    the PEP 440 parser of the [packaging] library, which is a parameter. *)
From Stdlib Require Import Ascii.
From S2P Require Import Prelude PyValue Plenum Constants StateDomain IdrCache HandlerBase Upgrader PoolUpgrade World.

(** ** NodeVersionFallback *)

Definition is_digit (c : ascii) : bool := match digit_value c with Some _ => true | None => false end.

(** The digits a text starts with, and the rest. *)
Fixpoint span_digits (s : string) : string * string :=
  match s with
  | "" => ("", "")
  | String c s' => if is_digit c then let '(d, r) := span_digits s' in (String c d, r) else ("", s)
  end.

(** [([0-9]+)] as an integer. *)
Definition number (s : string) : option (N * string) :=
  match span_digits s with
  | ("", _) => None
  | (d, r) => match parse_digits d 0 with Some n => Some (n, r) | None => None end
  end.

(** A text that must come next, and one that may. *)
Definition literal (t s : string) : option string :=
  if String.prefix t s then Some (String.substring (String.length t) (String.length s - String.length t) s)
  else None.

Definition maybe_dot (s : string) : string :=
  match s with String "." r => r | _ => s end.

(** [(?:\.?(dev|rc)\.?([0-9]+))?] up to the end. *)
Definition pre_release (s : string) : option (option (string * N)) :=
  match s with
  | "" => Some None
  | _ =>
      let s := maybe_dot s in
      let tag := match literal "dev" s with
                 | Some r => Some ("dev", r)
                 | None => match literal "rc" s with Some r => Some ("rc", r) | None => None end
                 end in
      match tag with
      | None => None
      | Some (t, r) => match number (maybe_dot r) with
                       | Some (n, "") => Some (Some (t, n))
                       | _ => None
                       end
      end
  end.

Record NodeVersionFallback := mkFallback {
  fv_major : N;
  fv_minor : N;
  fv_patch : N;
  fv_pre : option (string * N)
}.

(** [re_pep440.fullmatch] *)
Definition fullmatch_pep440 (version : string) : option NodeVersionFallback :=
  match number version with
  | Some (a, String "." r) =>
      match number r with
      | Some (b, String "." r) =>
          match number r with
          | Some (c, r) => match pre_release r with Some pre => Some (mkFallback a b c pre) | None => None end
          | None => None
          end
      | _ => None
      end
  | _ => None
  end.

Definition new_NodeVersionFallback (version : val) : res NodeVersionFallback :=
  match version with
  | VStr s =>
      match fullmatch_pep440 s with
      | Some v => Ok v
      | None => Raise (InvalidVersionError ("version '" +:+ s +:+ "' is invalid, expected N.N.N[[.]{dev|rc}[.]N]"))
      end
  | v => Raise (InvalidVersionError (py_str v))
  end.

Definition fv_release_parts (v : NodeVersionFallback) : list N := [fv_major v; fv_minor v; fv_patch v].

(** [release]: the three numbers. *)
Definition fv_release (v : NodeVersionFallback) : string := py_join "." (map pretty (fv_release_parts v)).

(** [public], and [full] and [__str__], which are [public]. *)
Definition fv_public (v : NodeVersionFallback) : string :=
  fv_release v +:+
  match fv_pre v with
  | None => ""
  | Some (tag, n) => (if str_eqb tag "dev" then "." else "") +:+ tag +:+ pretty n
  end.

Definition fv_eq (v w : NodeVersionFallback) : bool :=
  forallb (λ '(a, b), N.eqb a b) (combine (fv_release_parts v) (fv_release_parts w)) &&
  match fv_pre v, fv_pre w with
  | None, None => true
  | Some (t, n), Some (u, m) => str_eqb t u && N.eqb n m
  | _, _ => false
  end.

(** ** NodeVersion and the class of a package's source version *)

(** What [NodeVersion] reads of a parsed PEP 440 version. *)
Record Pep440 := mkPep440 {
  pep_pre : option (string * N);
  pep_post : option N;
  pep_epoch : N;
  pep_local : option string;
  pep_release : list N
}.

(** The truth value of [post], which is a number or [None]. *)
Definition number_truth (o : option N) : bool := match o with Some n => negb (N.eqb n 0) | None => false end.

Definition new_NodeVersion (parse : string → res Pep440) (version : string) : res Pep440 :=
  let! v := parse version in
  let! _ := match pep_pre v with
            | Some (phase, _) =>
                if negb (str_eqb phase "rc")
                then Raise (InvalidVersionError ("pre-release phase '" +:+ phase +:+ "' is unexpected"))
                else Ok tt
            | None => Ok tt
            end in
  if number_truth (pep_post v) then Raise (InvalidVersionError "post-release is unexpected")
  else if negb (N.eqb (pep_epoch v) 0) then Raise (InvalidVersionError "epoch is unexpected")
  else if str_truth (or_empty (pep_local v)) then Raise (InvalidVersionError "local version part is unexpected")
  else if negb (Nat.eqb (length (pep_release v)) 2 || Nat.eqb (length (pep_release v)) 3)
  then Raise (InvalidVersionError "release part should contain only 2 or 3 parts")
  else Ok v.

(** [SchemaVersion] and [TopPkgDefVersion]: dotted numbers of two or three parts
    ([DigitDotVersion] is plenum's). *)
Definition new_SchemaVersion {Ver} (DigitDotVersion : string → list nat → res Ver) (version : string) : res Ver :=
  DigitDotVersion version [2; 3].

Inductive version_cls := NodeVersion | TopPkgDefVersion.

#[export] Instance version_cls_eq_dec : EqDecision version_cls.
Proof. solve_decision. Defined.

Definition src_version_cls (pkg_name : string) : version_cls :=
  if str_eqb pkg_name APP_NAME then NodeVersion else TopPkgDefVersion.

(** ** DebianVersion *)

Definition is_alnum (c : ascii) : bool :=
  let n := nat_of_ascii c in
  (Nat.leb 48 n && Nat.leb n 57) || (Nat.leb 65 n && Nat.leb n 90) || (Nat.leb 97 n && Nat.leb n 122).

Definition version_char (c : ascii) : bool := is_alnum c || str_has c ".+-~".

Fixpoint all_chars (p : ascii → bool) (s : string) : bool :=
  match s with "" => true | String c s' => p c && all_chars p s' end.

(** [[0-9][a-zA-Z0-9.+\-~]*] *)
Definition match_upstream (s : string) : bool :=
  match s with "" => false | String c s' => is_digit c && all_chars version_char s' end.

(** [re.fullmatch(re_version, s)]: the epoch, one digit, and the rest. *)
Definition fullmatch_debian (s : string) : option (option string * string) :=
  match s with
  | String e (String ":" rest) =>
      if is_digit e && match_upstream rest then Some (Some (String e ""), rest) else None
  | _ => if match_upstream s then Some (None, s) else None
  end.

Fixpoint replace_char (a b : ascii) (s : string) : string :=
  match s with
  | "" => ""
  | String c s' => String (if bool_decide (c = a) then b else c) (replace_char a b s')
  end.

Section Debian.
Context {Ver : Type}.

Record DebianVersion := mkDebian {
  dv_full : string;
  dv_epoch : option string;
  dv_upstream : Ver;
  dv_revision : option string
}.

(** [_parse]: [upstream_cls] is the constructor of the upstream's class. *)
Definition parse_debian (version : string) (keep_tilde : bool) (upstream_cls : string → res Ver)
    : res (option string * option Ver * option string) :=
  match fullmatch_debian version with
  | None => Ok (None, None, None)
  | Some (epoch, upstream) =>
      let upstream := if keep_tilde then upstream else replace_char "~" "." upstream in
      let parts := py_split "-" upstream in
      let '(upstream, revision) :=
        if Nat.ltb 1 (length parts)
        then (py_join "-" (removelast parts), Some (List.last parts ""))
        else (upstream, None) in
      let! up := if str_truth upstream then let! u := upstream_cls upstream in Ok (Some u) else Ok None in
      Ok (epoch, up, revision)
  end.

Definition new_DebianVersion (version : string) (upstream_cls : string → res Ver) : res DebianVersion :=
  let! (epoch, upstream, revision) := parse_debian version false upstream_cls in
  match upstream with
  | None => Raise (InvalidVersionError (version +:+ " is not a valid debian version"))
  | Some u => Ok (mkDebian version epoch u revision)
  end.
End Debian.
Arguments DebianVersion : clear implicits.

(** The class attribute [cache] belongs to the process: the machine of
    [World] with the comparisons made so far. *)
Record Process (W : Type) := mkProcess {
  p_cache : gmap (string * string) Z;
  p_machine : W
}.
Arguments mkProcess {W} _ _.
Arguments p_cache {W} _.
Arguments p_machine {W} _.

#[export] Instance process_shell {W} `{!Shell W} : Shell (Process W) := {|
  shell cmd p := let '(o, w) := shell cmd (p_machine p) in (o, mkProcess (p_cache p) w);
  which program p := which program (p_machine p)
|}.

Definition dpkg_gt (v1 v2 : string) : list string := ["dpkg"; "--compare-versions"; v1; "gt"; v2].

Section Comparison.
Context {W : Type} `{!Shell W}.

(** [DebianVersion._cmp] *)
Definition debian_cmp_raw (v1 v2 : string) : act (Process W) Z :=
  if str_eqb v1 v2 then ret 0%Z else
  let? cmd := lift (compose_cmd (dpkg_gt v1 v2)) in
  catch (let? _ := run_shell_script_extended cmd in ret 1%Z)
    (λ e, match e with
          | ShellError _ _ stderr => if str_truth stderr then raise e else ret (-1)%Z
          | _ => raise e
          end).

Definition cache_get (k : string * string) : act (Process W) (option Z) :=
  λ p, (Ok (p_cache p !! k), p).
Definition cache_put (k : string * string) (z : Z) : act (Process W) unit :=
  λ p, (Ok tt, mkProcess (<[k := z]> (p_cache p)) (p_machine p)).

(** [DebianVersion.cmp] of two full versions. *)
Definition debian_cmp (v1 v2 : string) : act (Process W) Z :=
  let? known := cache_get (v1, v2) in
  match known with
  | Some z => ret z
  | None =>
      let? z := debian_cmp_raw v1 v2 in
      let? _ := cache_put (v1, v2) z in
      let? _ := cache_put (v2, v1) (z * -1)%Z in
      let? known := cache_get (v1, v2) in
      match known with Some z => ret z | None => raise (KeyError v1) end
  end.

(** [DebianVersion.clear_cache] *)
Definition clear_cache : act (Process W) unit := λ p, (Ok tt, mkProcess ∅ (p_machine p)).

(** [sorted(versions)], by comparisons: an element goes before the first one that
    is greater. *)
Context {Ver : Type}.

Fixpoint insert_version (v : DebianVersion Ver) (l : list (DebianVersion Ver))
    : act (Process W) (list (DebianVersion Ver)) :=
  match l with
  | [] => ret [v]
  | x :: l' =>
      let? c := debian_cmp (dv_full v) (dv_full x) in
      if Z.ltb c 0 then ret (v :: x :: l')
      else let? r := insert_version v l' in ret (x :: r)
  end.

Fixpoint sort_versions_onto (sorted l : list (DebianVersion Ver))
    : act (Process W) (list (DebianVersion Ver)) :=
  match l with
  | [] => ret sorted
  | v :: l' => let? s := insert_version v sorted in sort_versions_onto s l'
  end.

Definition sort_versions (l : list (DebianVersion Ver)) : act (Process W) (list (DebianVersion Ver)) :=
  sort_versions_onto [] l.
End Comparison.

(** ** Lemmas *)

(** *** Numbers in texts *)

Lemma parse_digits_all s acc n : parse_digits s acc = Some n → all_chars is_digit s = true.
Proof.
  revert acc. induction s as [|c s IH]; intros acc; [done|]. cbn [parse_digits all_chars].
  destruct (digit_value c) eqn:E; [|done]. intros H. unfold is_digit at 1. rewrite E. exact (IH _ H).
Qed.

Definition no_digit_first (s : string) : bool := match s with String c _ => negb (is_digit c) | "" => true end.

Lemma span_digits_app d r :
  all_chars is_digit d = true → no_digit_first r = true → span_digits (d +:+ r) = (d, r).
Proof.
  intros Hd Hr. induction d as [|c d IH].
  - destruct r as [|c r]; [done|]. cbn in Hr |- *. by destruct (is_digit c).
  - change (String c d +:+ r) with (String c (d +:+ r)). cbn in Hd |- *.
    apply andb_true_iff in Hd as [-> Hd]. by rewrite IH.
Qed.

Lemma number_pretty (n : N) r : no_digit_first r = true → number (pretty n +:+ r) = Some (n, r).
Proof.
  intros Hr. pose proof (parse_digits_pretty n) as Hp. unfold number.
  rewrite span_digits_app; [|by eapply parse_digits_all|done].
  destruct (pretty n) as [|c d] eqn:E; [|by rewrite Hp].
  destruct (pretty_N_nonempty n) as (c & s & E' & _). rewrite E in E'. discriminate E'.
Qed.

Lemma number_pretty_end (n : N) : number (pretty n) = Some (n, "").
Proof. rewrite <- (str_app_nil_r (pretty n)) at 1. by rewrite number_pretty. Qed.

Lemma maybe_dot_digit (n : N) r : maybe_dot (pretty n +:+ r) = pretty n +:+ r.
Proof.
  destruct (pretty n) as [|c d] eqn:E.
  - destruct (pretty_N_nonempty n) as (c & s & E' & _). rewrite E in E'. discriminate E'.
  - pose proof (parse_digits_pretty n) as Hp. rewrite E in Hp. apply parse_digits_all in Hp.
    cbn in Hp. apply andb_true_iff in Hp as [Hc _].
    change (String c d +:+ r) with (String c (d +:+ r)). cbn.
    destruct c as [[] [] [] [] [] [] [] []]; done.
Qed.

Lemma literal_app t s : literal t (t +:+ s) = Some s.
Proof.
  unfold literal. rewrite prefix_app, str_app_length. f_equal.
  replace (String.length t + String.length s - String.length t) with (String.length s) by lia.
  induction t as [|c t IH]; [|exact IH]. cbn. induction s as [|c s IH]; [done|]. cbn. by rewrite IH.
Qed.

Lemma pre_release_shown tag n :
  tag = "dev" ∨ tag = "rc" →
  pre_release ((if str_eqb tag "dev" then "." else "") +:+ tag +:+ pretty n) = Some (Some (tag, n)).
Proof.
  pose proof (maybe_dot_digit n "") as Hdot. rewrite str_app_nil_r in Hdot.
  intros Htag. transitivity
    (match match literal "dev" (tag +:+ pretty n) with
           | Some r => Some ("dev", r)
           | None => match literal "rc" (tag +:+ pretty n) with Some r => Some ("rc", r) | None => None end
           end with
     | None => None
     | Some (t, r) => match number (maybe_dot r) with Some (n, "") => Some (Some (t, n)) | _ => None end
     end); [by destruct Htag as [->| ->]|].
  destruct Htag as [->| ->].
  - by rewrite literal_app, Hdot, number_pretty_end.
  - change (literal "dev" ("rc" +:+ pretty n)) with (@None string).
    by rewrite literal_app, Hdot, number_pretty_end.
Qed.

(** Printing a version and reading it back gives the version. *)
Theorem fallback_version_roundtrip v :
  (∀ tag n, fv_pre v = Some (tag, n) → tag = "dev" ∨ tag = "rc") →
  new_NodeVersionFallback (VStr (fv_public v)) = Ok v.
Proof.
  intros Hpre. destruct v as [a b c pre]. cbn [fv_pre] in Hpre.
  unfold new_NodeVersionFallback, fv_public, fv_release, fullmatch_pep440.
  cbn -[number pretty pre_release]. rewrite !str_app_assoc.
  rewrite number_pretty by done. cbn -[number pretty pre_release]. rewrite !str_app_assoc.
  rewrite number_pretty by done. cbn -[number pretty pre_release].
  destruct pre as [[tag n]|].
  - rewrite number_pretty by (by destruct (Hpre tag n eq_refl) as [->| ->]).
    rewrite pre_release_shown by (by eapply Hpre). done.
  - by rewrite str_app_nil_r, number_pretty_end.
Qed.

(** *** The cached comparison *)

(** What [dpkg --compare-versions a gt b] answers about some versions. *)
Definition dpkg_answers {W} `{!Shell W} (known : string → Prop) (gt : string → string → bool) : Prop :=
  ∀ a b cmd (w : W), known a → known b → compose_cmd (dpkg_gt a b) = Ok cmd →
    ∃ w', shell cmd w = (if gt a b then Done "" else Exited 1 "" "", w').

(** Two different versions are comparable, and the order is transitive. *)
Class VersionOrder (known : string → Prop) (gt : string → string → bool) : Prop := {
  gt_total a b : known a → known b → a ≠ b → gt a b = negb (gt b a);
  gt_trans a b c : known a → known b → known c → gt a b = true → gt b c = true → gt a c = true
}.

Definition dcmp (gt : string → string → bool) (a b : string) : Z :=
  if str_eqb a b then 0 else if gt a b then 1 else -1.

Definition cache_ok (known : string → Prop) (gt : string → string → bool)
    (c : gmap (string * string) Z) : Prop :=
  ∀ a b z, known a → known b → c !! (a, b) = Some z → z = dcmp gt a b.

Section CachedComparison.
Context {W : Type} `{!Shell W} (known : string → Prop) (gt : string → string → bool).
Context (Hshell : dpkg_answers (W := W) known gt).
Implicit Types p : Process W.

Lemma compose_dpkg a b : ∃ cmd, compose_cmd (dpkg_gt a b) = Ok cmd.
Proof. unfold compose_cmd, dpkg_gt. cbn [py_join]. eexists. reflexivity. Qed.

Lemma debian_cmp_raw_answer a b p :
  known a → known b →
  ∃ w, debian_cmp_raw a b p = (Ok (dcmp gt a b), mkProcess (p_cache p) w).
Proof.
  intros Ha Hb. unfold debian_cmp_raw, dcmp. destruct (str_eqb a b) eqn:E; [by exists (p_machine p); destruct p|].
  destruct (compose_dpkg a b) as [cmd Hcmd]. rewrite Hcmd. unfold lift. cbn [act_bind].
  destruct (Hshell a b cmd (p_machine p) Ha Hb Hcmd) as [w' Hw].
  unfold catch, act_bind, run_shell_script_extended. cbn [shell process_shell]. rewrite Hw.
  exists w'. by destruct (gt a b).
Qed.

Context `{!VersionOrder known gt}.

Lemma dcmp_opp a b : known a → known b → dcmp gt b a = (dcmp gt a b * -1)%Z.
Proof.
  intros Ha Hb. unfold dcmp. rewrite (str_eqb_sym b a). destruct (str_eqb a b) eqn:E; [done|].
  apply str_eqb_neq in E. rewrite (gt_total a b Ha Hb E). by destruct (gt b a).
Qed.

(** The cache never changes an answer. *)
Lemma debian_cmp_answer a b p :
  known a → known b → cache_ok known gt (p_cache p) →
  ∃ p', debian_cmp a b p = (Ok (dcmp gt a b), p') ∧ cache_ok known gt (p_cache p').
Proof.
  intros Ha Hb Hc. unfold debian_cmp, cache_get, act_bind at 1.
  destruct (p_cache p !! (a, b)) as [z|] eqn:E; [rewrite (Hc _ _ _ Ha Hb E); by exists p|].
  destruct (debian_cmp_raw_answer a b p Ha Hb) as [w Hw]. unfold act_bind at 1. rewrite Hw.
  eexists. unfold act_bind, cache_put. cbn [p_cache p_machine].
  assert (<[(b, a) := (dcmp gt a b * -1)%Z]> (<[(a, b) := dcmp gt a b]> (p_cache p)) !! (a, b)
    = Some (dcmp gt a b)) as ->.
  { destruct (decide ((b, a) = (a, b))) as [Heq|Hne].
    - injection Heq as ->. rewrite lookup_insert_eq. unfold dcmp. by rewrite str_eqb_refl.
    - by rewrite lookup_insert_ne, lookup_insert_eq by done. }
  split; [done|]. cbn [p_cache]. intros x y z Hx Hy.
  rewrite !lookup_insert_Some. intros [[[= <- <-] <-]|[_ [[[= <- <-] <-]|[_ H]]]];
    [symmetry; by apply dcmp_opp|done|by apply Hc].
Qed.
End CachedComparison.

(** *** Sorting *)

Section Sorting.
Context {W : Type} `{!Shell W} (known : string → Prop) (gt : string → string → bool).
Context (Hshell : dpkg_answers (W := W) known gt).
Context `{!VersionOrder known gt} {Ver : Type}.
Implicit Types (p : Process W) (v x : DebianVersion Ver).

(** [v] is not above [x]. *)
Definition ver_le v x : Prop := gt (dv_full v) (dv_full x) = false.

Lemma dcmp_neg v x : Z.ltb (dcmp gt (dv_full v) (dv_full x)) 0 = true → ver_le v x.
Proof. unfold dcmp, ver_le. destruct (str_eqb _ _); [done|]. by destruct (gt _ _). Qed.

Lemma dcmp_nonneg v x :
  Z.ltb (dcmp gt (dv_full v) (dv_full x)) 0 = false →
  dv_full v = dv_full x ∨ gt (dv_full v) (dv_full x) = true.
Proof.
  unfold dcmp. destruct (str_eqb (dv_full v) (dv_full x)) eqn:E; [left; by apply str_eqb_eq|].
  destruct (gt _ _); [by right|done].
Qed.

Definition top (l : list (DebianVersion Ver)) (d : DebianVersion Ver) : DebianVersion Ver := List.last l d.

Fixpoint ascending (l : list (DebianVersion Ver)) : Prop :=
  match l with
  | [] => True
  | x :: l' => Forall (λ y, dv_full x = dv_full y ∨ gt (dv_full y) (dv_full x) = true) l' ∧ ascending l'
  end.

Abbreviation all_known := (Forall (λ x : DebianVersion Ver, known (dv_full x))).

Lemma insert_version_spec v l p :
  known (dv_full v) → all_known l → cache_ok known gt (p_cache p) → ascending l →
  ∃ l' p', insert_version v l p = (Ok l', p') ∧ cache_ok known gt (p_cache p') ∧
    l' ≡ₚ v :: l ∧ ascending l'.
Proof.
  intros Kv. revert p. induction l as [|x l IH]; intros p Hk Hc Hl; cbn [insert_version].
  - exists [v], p. repeat split; try done.
  - destruct Hl as [Hx Hl]. apply Forall_cons in Hk as [Kx Kl].
    destruct (debian_cmp_answer known gt Hshell (dv_full v) (dv_full x) p Kv Kx Hc)
      as (p1 & Hcmp & Hc1). unfold act_bind at 1. rewrite Hcmp.
    destruct (Z.ltb _ 0) eqn:E.
    + exists (v :: x :: l), p1. repeat split; try done.
      assert (gt (dv_full x) (dv_full v) = true) as Hxv.
      { apply dcmp_neg in E as E'. unfold ver_le in E'. rewrite (gt_total _ _ Kx Kv); [by rewrite E'|].
        intros Heq. unfold dcmp in E. rewrite Heq, str_eqb_refl in E. done. }
      constructor; [by right|]. rewrite Forall_forall in Hx, Kl |- *. intros y Hy.
      right. destruct (Hx y Hy) as [<-|Hyx]; [done|].
      exact (gt_trans _ _ _ (Kl y Hy) Kx Kv Hyx Hxv).
    + destruct (IH p1 Kl Hc1 Hl) as (l' & p2 & Hins & Hc2 & Hperm & Hasc).
      unfold act_bind. rewrite Hins. exists (x :: l'), p2. repeat split; try done.
      * rewrite Hperm. apply perm_swap.
      * rewrite Hperm. constructor; [|done]. apply dcmp_nonneg in E as [E|E]; [by left|by right].
Qed.

Lemma sort_versions_onto_spec l sorted p :
  all_known l → all_known sorted → cache_ok known gt (p_cache p) → ascending sorted →
  ∃ l' p', sort_versions_onto sorted l p = (Ok l', p') ∧ cache_ok known gt (p_cache p') ∧
    l' ≡ₚ l ++ sorted ∧ ascending l'.
Proof.
  revert sorted p. induction l as [|v l IH]; intros sorted p Kl Ks Hc Hs; cbn [sort_versions_onto].
  - by exists sorted, p.
  - apply Forall_cons in Kl as [Kv Kl].
    destruct (insert_version_spec v sorted p Kv Ks Hc Hs) as (s & p1 & Hins & Hc1 & Hperm & Hasc).
    unfold act_bind. rewrite Hins. assert (all_known s) as Ks' by (rewrite Hperm; by constructor).
    destruct (IH s p1 Kl Ks' Hc1 Hasc) as (l' & p2 & H & Hc2 & Hp & Ha). exists l', p2.
    repeat split; try done. rewrite Hp, Hperm. cbn. by rewrite Permutation_middle.
Qed.

Lemma ascending_last l d x :
  ascending l → x ∈ l → dv_full x = dv_full (top l d) ∨ gt (dv_full (top l d)) (dv_full x) = true.
Proof.
  revert x. induction l as [|y l IH]; intros x Hl Hx; [by apply not_elem_of_nil in Hx|].
  destruct Hl as [Hy Hl]. destruct l as [|z l].
  - apply elem_of_cons in Hx as [->|Hx]; [by left|by apply not_elem_of_nil in Hx].
  - change (top (y :: z :: l) d) with (top (z :: l) d).
    apply elem_of_cons in Hx as [->|Hx]; [|by apply IH].
    rewrite Forall_forall in Hy. apply Hy. unfold top.
    apply list_elem_of_In.
    destruct (@exists_last _ (z :: l)) as (l0 & e & ->); [done|]. rewrite last_last.
    apply in_or_app. right. by left.
Qed.
End Sorting.

(** ** Properties *)

(** Two versions that [dpkg] holds equal but are spelled differently have no
    answer of their own: whichever is asked about first is the smaller one, and the
    cache keeps that answer. *)
Theorem equal_versions_by_history {W} `{!Shell W} gt a b (p : Process W) :
  dpkg_answers (W := W) (λ s, s ∈ [a; b]) gt → a ≠ b → gt a b = false → gt b a = false → p_cache p = ∅ →
  (∃ p', (let? x := debian_cmp a b in let? y := debian_cmp b a in ret (x, y)) p = (Ok (-1, 1)%Z, p')) ∧
  (∃ p', (let? y := debian_cmp b a in let? x := debian_cmp a b in ret (x, y)) p = (Ok (1, -1)%Z, p')).
Proof.
  intros Hshell Hne Hab Hba Hempty.
  assert (∀ u v, u ∈ [a; b] → v ∈ [a; b] → u ≠ v → gt u v = false →
    ∃ p', debian_cmp u v p = (Ok (-1)%Z, p') ∧ debian_cmp v u p' = (Ok 1%Z, p')) as Hfirst.
  { intros u v Ku Kv Huv Hgt. destruct (debian_cmp_raw_answer _ gt Hshell u v p Ku Kv) as [w Hw].
    assert (dcmp gt u v = (-1)%Z) as Hd
      by (unfold dcmp; by rewrite (proj2 (str_eqb_neq u v) Huv), Hgt).
    unfold debian_cmp, cache_get, cache_put, act_bind. rewrite Hempty, lookup_empty, Hw, Hd, Hempty.
    cbn [p_cache p_machine]. rewrite lookup_insert_ne, lookup_insert_eq by congruence.
    eexists. split; [done|]. cbn [p_cache]. by rewrite lookup_insert_eq. }
  split.
  - destruct (Hfirst a b (list_elem_of_here _ _) (list_elem_of_further _ _ _ (list_elem_of_here _ _)) Hne Hab) as (p' & H1 & H2). exists p'. unfold act_bind. by rewrite H1, H2.
  - destruct (Hfirst b a (list_elem_of_further _ _ _ (list_elem_of_here _ _)) (list_elem_of_here _ _)
      (not_eq_sym Hne) Hba) as (p' & H1 & H2). exists p'. unfold act_bind.
    by rewrite H1, H2.
Qed.

(** A shell on which nothing is newer than anything else. *)
Definition quiet_shell : Shell unit := {| shell _ w := (Exited 1 "" "", w); which _ _ := true |}.

Lemma equal_versions_by_history_witness :
  let S := quiet_shell in
  let p : Process unit := mkProcess ∅ tt in
  (∃ p', (let? x := debian_cmp "1.0" "1.00" in let? y := debian_cmp "1.00" "1.0" in ret (x, y)) p
         = (Ok (-1, 1)%Z, p')) ∧
  (∃ p', (let? y := debian_cmp "1.00" "1.0" in let? x := debian_cmp "1.0" "1.00" in ret (x, y)) p
         = (Ok (1, -1)%Z, p')).
Proof.
  intros S p. apply (equal_versions_by_history (λ _ _, false) "1.0" "1.00" p);
    [|discriminate|reflexivity..]. intros a b cmd w _ _ _. by exists w.
Defined.
