(* ===== verification/Packages.v ===== *)
(** * The package manager

    [NodeControlUtil] of [indy_node/utils/node_control_utils.py]: the version and
    the dependencies of a package from the text [dpkg] and [apt-cache] print, the
    latest version that is available, the packages an upgrade must name.

    The commands are those of [World]'s shell.  The order in which Python iterates
    over a set of texts is not defined by the language: [SetOrder] gives some
    order. *)
From Stdlib Require Import Ascii.
From S2P Require Import Prelude PyValue Plenum Constants StateDomain IdrCache HandlerBase Upgrader PoolUpgrade World Versions.

Definition MAX_DEPS_DEPTH : nat := 6.

(** ** Texts *)

(** [s.replace(c, "")] *)
Fixpoint remove_char (a : ascii) (s : string) : string :=
  match s with
  | "" => ""
  | String c s' => if bool_decide (c = a) then remove_char a s' else String c (remove_char a s')
  end.

(** [s.strip(chars)] *)
Fixpoint lstrip_chars (chars s : string) : string :=
  match s with
  | "" => ""
  | String c s' => if str_has c chars then lstrip_chars chars s' else s
  end.

Fixpoint rstrip_chars (chars s : string) : string :=
  match s with
  | "" => ""
  | String c s' => match rstrip_chars chars s' with
                   | "" => if str_has c chars then "" else String c ""
                   | r => String c r
                   end
  end.

Definition strip_chars (chars s : string) : string := rstrip_chars chars (lstrip_chars chars s).

(** [s.split(c, maxsplit=1)]: the part before the first [c], and the rest if there
    is one. *)
Fixpoint split_once (a : ascii) (s : string) : string * option string :=
  match s with
  | "" => ("", None)
  | String c s' =>
      if bool_decide (c = a) then ("", Some s')
      else let '(l, r) := split_once a s' in (String c l, r)
  end.

Definition newline : string := String "010" "".

(** [s.split()] *)
Fixpoint words_go (acc s : string) : list string :=
  match s with
  | "" => if str_truth acc then [acc] else []
  | String c s' =>
      if is_space c then (if str_truth acc then acc :: words_go "" s' else words_go "" s')
      else words_go (acc +:+ String c "") s'
  end.

Definition words (s : string) : list string := words_go "" s.

(** ** Output of the package manager *)

(** [_parse_deps]: one package per alternative, a version constraint of any kind
    as an equality. *)
Definition parse_dep (pkg : string) : string :=
  let '(first, rest) := split_once " " (strip_chars " " pkg) in
  let name := strip_chars (" " +:+ newline) first in
  match rest with
  | None => name
  | Some r => name +:+ "=" +:+ strip_chars ("()<>= " +:+ newline) r
  end.

Definition parse_deps (deps : string) : list string :=
  map parse_dep (List.filter str_truth
    (py_split "," (remove_char ")" (remove_char "(" (replace_char "|" "," deps))))).

(** [_pkgs_dedup]: the first entry of each name. *)
Definition dep_name (d : string) : string := (split_once "=" d).1.

Fixpoint pkgs_dedup_from (processed deps : list string) : list string :=
  match deps with
  | [] => []
  | d :: deps' =>
      let rest := pkgs_dedup_from (dep_name d :: processed) deps' in
      if bool_decide (dep_name d ∈ processed) then rest else d :: rest
  end.

Definition pkgs_dedup (deps : list string) : list string := pkgs_dedup_from [] deps.

(** What the loop over the lines has read: the version of the only package, the
    dependencies, the number of packages. *)
Record PkgOutput := mkOutput {
  o_ver : option string;
  o_deps : list string;
  o_num : nat
}.

Definition after_colon (line : string) : string :=
  match (split_once ":" line).2 with Some r => strip_chars (" " +:+ newline) r | None => "" end.

Definition read_line (o : PkgOutput) (ln : string) : PkgOutput :=
  let act_line := strip_chars (" " +:+ newline) ln in
  let o := if String.prefix "Version:" act_line
           then let n := S (o_num o) in
                mkOutput (if Nat.ltb 1 n then None else Some (after_colon act_line)) (o_deps o) n
           else o in
  if String.prefix "Depends:" act_line
  then mkOutput (o_ver o) (o_deps o ++ parse_deps (after_colon act_line)) (o_num o) else o.

Section PkgManagerOutput.
Context {Ver : Type} (version_of : version_cls → string → res Ver).

(** [_parse_version_deps_from_pkg_mgr_output] *)
Definition parse_version_deps (output : string) (upstream_cls : option version_cls)
    : res (option (DebianVersion Ver) * list string) :=
  let o := foldl read_line (mkOutput None [] 0) (py_split newline output) in
  match o_ver o, upstream_cls with
  | Some ver, Some cls =>
      if negb (str_truth ver) then Ok (None, pkgs_dedup (o_deps o)) else
      match new_DebianVersion ver (version_of cls) with
      | Ok v => Ok (Some v, pkgs_dedup (o_deps o))
      | Raise (InvalidVersionError _) => Ok (None, [])
      | Raise e => Raise e
      end
  | _, _ => Ok (None, pkgs_dedup (o_deps o))
  end.
End PkgManagerOutput.

(** ** Queries *)

Class SetOrder := {
  set_list : list string → list string;
  set_list_NoDup l : NoDup (set_list l);
  set_list_elem l x : x ∈ set_list l ↔ x ∈ l
}.

(** Nested lists of package texts. *)
Inductive dep_tree :=
| Pkg (s : string)
| Deps (l : list dep_tree).

Section Queries.
Context {W : Type} {SH : Shell W} {Ver : Type} (version_of : version_cls → string → res Ver).
Context (ver_eqb : Ver → Ver → bool) {SO : SetOrder}.
Abbreviation M := (act (Process W)).

Definition package_exists (package : string) : M bool :=
  let? installed_packages :=
    command ["dpkg"; "--get-selections"; "|"; "grep"; "-v"; "deinstall"; "|"; "cut"; "-f1"] in
  ret (bool_decide (package ∈ py_split newline installed_packages)).

Definition get_curr_info (package : string) : M string :=
  if negb (str_truth package) then raise IndexError else
  let package := single_package package in
  let? exists_ := package_exists package in
  if negb exists_ then ret "" else command ["dpkg"; "-s"; package].

Definition curr_pkg_info (pkg_name : string) : M (option (DebianVersion Ver) * list string) :=
  let? package_info := get_curr_info pkg_name in
  lift (parse_version_deps version_of package_info (Some (src_version_cls pkg_name))).

Definition update_repo_keys : M unit :=
  script ["apt-key"; "adv"; "--keyserver"; "keyserver.ubuntu.com"; "--recv-keys"; "CE7709D068DB5E88"].

Definition update_apt_update_dependencies : M unit :=
  let? out := command ["apt"; "list"; "--upgradable"] in
  match List.find (py_in_str "libgnutls30") (py_split newline out) with
  | Some _ => script ["apt"; "--only-upgrade"; "install"; "-y"; "libgnutls30"]
  | None => ret tt
  end.

Definition update_package_cache : M unit :=
  let? cmd := lift (compose_cmd ["apt"; "update"]) in
  catch (run_shell_script cmd) (λ _,
    let? _ := update_repo_keys in
    let? _ := update_apt_update_dependencies in
    run_shell_script cmd).

(** The loop over the lines of [apt-cache show]: versions that do not parse are
    skipped, with an upstream only those of that upstream are kept. *)
Fixpoint candidates (upstream_cls : version_cls) (upstream : option Ver) (lines : list string)
    : res (list (DebianVersion Ver)) :=
  match lines with
  | [] => Ok []
  | v :: lines' =>
      match words v with
      | _ :: text :: _ =>
          match new_DebianVersion text (version_of upstream_cls) with
          | Raise (InvalidVersionError _) => candidates upstream_cls upstream lines'
          | Raise e => Raise e
          | Ok dv =>
              let! rest := candidates upstream_cls upstream lines' in
              Ok (if match upstream with None => true | Some u => ver_eqb (dv_upstream dv) u end
                  then dv :: rest else rest)
          end
      | _ => Raise IndexError
      end
  end.

(** [sorted(versions)[-1]], a failed comparison or an empty list being no version. *)
Definition latest (versions : list (DebianVersion Ver)) : M (option (DebianVersion Ver)) :=
  catch (let? l := sort_versions versions in
         match l with [] => raise IndexError | x :: _ => ret (Some (List.last l x)) end)
    (λ e, match e with IndexError | ShellError _ _ _ => ret None | _ => raise e end).

(** [get_latest_pkg_version]; [upstream] comes with its class. *)
Definition get_latest_pkg_version (pkg_name : string) (upstream : option (version_cls * Ver))
    (update_cache : bool) : M (option (DebianVersion Ver)) :=
  let upstream_cls := src_version_cls pkg_name in
  if match upstream with Some (cls, _) => negb (bool_decide (cls = upstream_cls)) | None => false end
  then raise (TypeError "'upstream' should be instance of the class of the package") else
  let? _ := if update_cache then update_package_cache else ret tt in
  let? output :=
    catch (let? cmd := lift (compose_cmd ["apt-cache"; "show"; pkg_name; "|"; "grep"; "-E"; "'^Version: '"]) in
           let? out := run_shell_script_extended cmd in ret (Some (strip out)))
      (λ e, match e with ShellError _ _ _ => ret None | _ => raise e end) in
  match output with
  | None | Some "" => ret None
  | Some out =>
      let? versions := lift (candidates upstream_cls (snd <$> upstream) (py_split newline out)) in
      latest versions
  end.

Definition get_info_from_package_manager (package : list string) : M string :=
  command ["apt-cache"; "show"; py_join " " package].

(** [get_deps_tree], [left] levels above [MAX_DEPS_DEPTH]. *)
Fixpoint deps_tree (left : nat) (package : list string) : M dep_tree :=
  let ret_ := set_list package in
  match left with
  | O => ret (Deps (map Pkg ret_))
  | S left' =>
      let? package_info := get_info_from_package_manager ret_ in
      let? (_, deps) := lift (parse_version_deps version_of package_info None) in
      let deps := set_list (List.filter (λ d, negb (bool_decide (d ∈ ret_))) deps) in
      let? sub := deps_tree left' deps in
      ret (Deps (map Pkg ret_ ++ [Deps [sub]]))
  end.

Definition get_deps_tree (package : list string) : M dep_tree := deps_tree MAX_DEPS_DEPTH package.

(** The version a dependency text asks for, none being empty. *)
Definition dep_pin (d : string) : res (string * string) :=
  if py_in_str "=" d then
    match py_split "=" d with
    | [p; v] => Ok (p, v)
    | _ => Raise (ValueError "too many values to unpack (expected 2)")
    end
  else Ok (d, "").

(** The body of the loop over the dependencies. *)
Definition note_held (hold_list : list string) (deps_map : dict string) (d : string) : res (dict string) :=
  let! (p, v) := dep_pin d in
  Ok (if bool_decide (p ∈ hold_list) &&
         match dget p deps_map with None => true | Some w => str_eqb w "" end
      then dset p v deps_map else deps_map).

(** [get_deps_tree_filtered], [left] levels above [MAX_DEPS_DEPTH]: what becomes of
    [deps_map], which the levels share. *)
Fixpoint held_deps (left : nat) (hold_list package : list string) (deps_map : dict string)
    : M (dict string) :=
  let ret_ := set_list package in
  match left with
  | O => ret deps_map
  | S left' =>
      let? package_info := get_info_from_package_manager ret_ in
      let? (_, deps) := lift (parse_version_deps version_of package_info None) in
      let deps := set_list (deps ++ ret_) in
      let? deps_map := lift (res_fold (note_held hold_list) deps_map deps) in
      held_deps left' hold_list deps deps_map
  end.

Definition show_dep (pv : string * string) : string :=
  if negb (str_eqb pv.2 "") then pv.1 +:+ "=" +:+ pv.2 else pv.1.

Definition get_deps_tree_filtered (package hold_list : list string) (deps_map : dict string)
    : M (list string) :=
  let? m := held_deps MAX_DEPS_DEPTH hold_list package deps_map in
  ret (map show_dep m).

(** [dep_tree_traverse] *)
Fixpoint dep_tree_traverse (t : dep_tree) (deps_so_far : list string) : list string :=
  match t with
  | Pkg s => if bool_decide (s ∈ deps_so_far) then deps_so_far else deps_so_far ++ [s]
  | Deps l => foldr (λ d acc, dep_tree_traverse d acc) deps_so_far l
  end.

Definition get_sys_holds : M (list string) :=
  λ p, if which "apt-mark" p
       then (let? out := command ["apt-mark"; "showhold"] in
             ret (List.filter str_truth (py_split newline (strip out)))) p
       else (Ok [], p).

Definition hold_packages (packages : list string) : M unit :=
  λ p, if which "apt-mark" p
       then script ["apt-mark"; "hold"; py_join " " packages] p
       else (Ok tt, p).
End Queries.

(** ** Lemmas *)

Section Latest.
Context {W : Type} `{!Shell W} (known : string → Prop) (gt : string → string → bool).
Context (Hshell : dpkg_answers (W := W) known gt) `{!VersionOrder known gt} {Ver : Type} (version_of : version_cls → string → res Ver).
Context (ver_eqb : Ver → Ver → bool).
Implicit Types (p : Process W) (v : DebianVersion Ver).

(** The greatest of some versions, none of an empty list. *)
Definition greatest (vs : list (DebianVersion Ver)) (r : option (DebianVersion Ver)) : Prop :=
  match r with
  | None => vs = []
  | Some v => v ∈ vs ∧ ∀ x, x ∈ vs → dv_full x = dv_full v ∨ gt (dv_full v) (dv_full x) = true
  end.

Lemma latest_greatest vs p :
  Forall (λ v, known (dv_full v)) vs →
  cache_ok known gt (p_cache p) →
  ∃ r p', latest vs p = (Ok r, p') ∧ cache_ok known gt (p_cache p') ∧ greatest vs r.
Proof.
  intros Hk Hc.
  destruct (sort_versions_onto_spec known gt Hshell vs [] p Hk (Forall_nil_2 _) Hc I) as (l & p' & Hs & Hc' & Hp & Ha).
  rewrite app_nil_r in Hp. unfold latest, catch, act_bind, sort_versions. rewrite Hs.
  destruct l as [|x l].
  - apply Permutation_nil_l in Hp. exists None, p'. by rewrite <- Hp.
  - exists (Some (List.last (x :: l) x)), p'. split; [done|]. split; [done|]. split.
    + rewrite <- Hp. apply list_elem_of_In. destruct (@exists_last _ (x :: l)) as (l0 & e & E); [done|].
      rewrite E, last_last. apply in_or_app. right. by left.
    + intros y Hy. rewrite <- Hp in Hy. exact (ascending_last gt (x :: l) x y Ha Hy).
Qed.

Lemma candidates_upstream cls up lines vs :
  candidates version_of ver_eqb cls (Some up) lines = Ok vs →
  Forall (λ v, ver_eqb (dv_upstream v) up = true) vs.
Proof.
  revert vs. induction lines as [|ln lines IH]; intros vs; cbn [candidates]; [by intros [= <-]|].
  destruct (words ln) as [|? [|text ?]]; try done.
  destruct (new_DebianVersion text (version_of cls)) as [dv|e].
  - intros H. bind H as rest Hr. injection H as <-. specialize (IH _ Hr).
    destruct (ver_eqb (dv_upstream dv) up) eqn:E; [by constructor|done].
  - destruct e; try done. apply IH.
Qed.
End Latest.

(** The texts of a tree, in the order it is written. *)
Fixpoint leaves (t : dep_tree) : list string :=
  match t with Pkg s => [s] | Deps l => concat (map leaves l) end.

Definition add_once (acc : list string) (s : string) : list string :=
  if bool_decide (s ∈ acc) then acc else acc ++ [s].

Fixpoint dep_tree_ind' (P : dep_tree → Prop) (HP : ∀ s, P (Pkg s))
    (HD : ∀ l, Forall P l → P (Deps l)) (t : dep_tree) {struct t} : P t.
Proof.
  destruct t as [s|l]; [done|]. apply HD. induction l; constructor; [by apply dep_tree_ind'|done].
Defined.

(** Walking a dependency tree collects its texts from the last to the first, each
    once: what is deepest comes first. *)
Theorem traverse_reversed_once t acc : dep_tree_traverse t acc = foldl add_once acc (rev (leaves t)).
Proof.
  revert acc. induction t as [s|l IH] using dep_tree_ind'; intros acc; [done|].
  cbn [dep_tree_traverse leaves]. induction IH as [|t l Ht _ IHl]; [done|].
  cbn [foldr map concat]. by rewrite IHl, Ht, rev_app_distr, foldl_app.
Qed.

(** *** Held packages *)

Section Held.
Context {Ver : Type} (version_of : version_cls → string → res Ver) {SO : SetOrder}.

(** At most one entry per package, and only of held ones. *)
Definition held_only (hold_list : list string) (m : dict string) : Prop :=
  NoDup (dkeys m) ∧ Forall (λ k, k ∈ hold_list) (dkeys m).

Lemma note_held_inv hold m d m' :
  held_only hold m → note_held hold m d = Ok m' → held_only hold m'.
Proof.
  intros [Hnd Hall] H. unfold note_held in H. bind H as pv _. destruct pv as [n v].
  injection H as <-. destruct (bool_decide (n ∈ hold)) eqn:E; [|done].
  cbn [andb]. destruct (match dget n m with None => true | Some w => str_eqb w "" end); [|done].
  apply bool_decide_eq_true in E. split; [by apply dset_NoDup|].
  rewrite dkeys_dset. case_match; [done|]. apply Forall_app. by repeat constructor.
Qed.

Lemma note_held_fold hold l m m' :
  held_only hold m → res_fold (note_held hold) m l = Ok m' → held_only hold m'.
Proof.
  revert m. induction l as [|d l IH]; intros m Hm; cbn [res_fold]; [by intros [= <-]|].
  intros H. bind H as m1 H1. eapply IH; [by eapply note_held_inv|done].
Qed.

Context (answer : list string → string → outcome) (installed : string → bool).
Abbreviation log_shell := (logging_shell answer installed).

(** One query of the package manager is one command. *)
Lemma query_logged package (p : Process (list string)) r p' :
  get_info_from_package_manager (SH := log_shell) package p = (r, p') →
  length (p_machine p') = S (length (p_machine p)).
Proof.
  unfold get_info_from_package_manager, command, act_bind, lift.
  assert (∃ cmd, compose_cmd ["apt-cache"; "show"; py_join " " package] = Ok cmd) as [cmd ->]
    by (unfold compose_cmd; cbn [py_join]; eexists; reflexivity).
  unfold run_shell_command. cbn [shell process_shell logging_shell].
  destruct (answer (p_machine p) cmd); intros [= <- <-]; cbn; rewrite length_app; cbn; lia.
Qed.

Lemma held_deps_bounded left hold package m (p : Process (list string)) r p' :
  held_deps (SH := log_shell) version_of left hold package m p = (r, p') →
  length (p_machine p') ≤ length (p_machine p) + left ∧
  ∀ m', r = Ok m' → length (p_machine p') = length (p_machine p) + left ∧
                    (held_only hold m → held_only hold m').
Proof.
  revert package m p. induction left as [|left IH]; intros package m p; cbn [held_deps].
  { intros [= <- <-]. split; [lia|]. intros m' [= <-]. split; [lia|done]. }
  unfold act_bind at 1. destruct (get_info_from_package_manager _ p) as [[info|e] p1] eqn:Hq;
    apply query_logged in Hq; [|intros [= <- <-]; split; [lia|done]].
  unfold act_bind at 1, lift at 1.
  destruct (parse_version_deps version_of info None) as [[? deps]|e]; [|intros [= <- <-]; split; [lia|done]].
  unfold act_bind at 1, lift.
  destruct (res_fold _ m _) as [m1|e] eqn:Hf; [|intros [= <- <-]; split; [lia|done]].
  intros H. apply IH in H as [Hle Hok]. split; [lia|]. intros m' Hr. destruct (Hok m' Hr) as [Hlen Hheld].
  split; [lia|]. intros Hm. apply Hheld. by eapply note_held_fold.
Qed.
End Held.

(** ** Properties *)

(** Resolving the dependencies of an upgrade is bounded, whatever the package
    manager answers: at most [MAX_DEPS_DEPTH] queries are made, exactly that many
    when a list is returned, and the list names only held packages, each at most
    once, so it is no longer than the list of held packages. *)
Theorem held_dependencies_bounded {Ver} (version_of : version_cls → string → res Ver) {SO : SetOrder}
    answer installed package hold_list (p : Process (list string)) r p' :
  get_deps_tree_filtered (SH := logging_shell answer installed) version_of package hold_list [] p = (r, p') →
  length (p_machine p') ≤ length (p_machine p) + MAX_DEPS_DEPTH ∧
  ∀ l, r = Ok l →
    length (p_machine p') = length (p_machine p) + MAX_DEPS_DEPTH ∧
    length l ≤ length hold_list ∧
    ∃ m, l = map show_dep m ∧ NoDup (dkeys m) ∧ Forall (λ k, k ∈ hold_list) (dkeys m).
Proof.
  unfold get_deps_tree_filtered, act_bind.
  destruct (held_deps _ _ hold_list package [] p) as [[m|e] p1] eqn:H;
    apply held_deps_bounded in H as [Hle Hok]; intros [= <- <-]; split; try done.
  intros l [= <-]. destruct (Hok m eq_refl) as [Hlen Hheld].
  destruct Hheld as [Hnd Hall]; [split; [apply NoDup_nil_2|done]|].
  split; [done|]. split; [|eauto].
  rewrite length_map, <- (length_map fst m). apply submseteq_length, NoDup_submseteq; [done|].
  by apply Forall_forall.
Qed.

(** The order of a set, for a witness: the order of first occurrence. *)
#[export] Program Instance dedup_order : SetOrder := {| set_list := remove_dups |}.
Next Obligation. intros l. apply NoDup_remove_dups. Qed.
Next Obligation. intros l x. apply elem_of_remove_dups. Qed.

Definition sample_apt (log : list string) (cmd : string) : outcome :=
  Done ("Version: 1.2.3" +:+ newline +:+ "Depends: indy-plenum (= 1.1.0), python3-zmq (>= 22.3.0), libsodium23").

Definition numbers_only (cls : version_cls) (s : string) : res string := Ok s.

Lemma held_dependencies_bounded_witness :
  ∃ p', get_deps_tree_filtered (SH := logging_shell sample_apt (λ _, true)) numbers_only
      ["indy-node=1.2.3"] ["indy-plenum"; "indy-node"] [] (mkProcess ∅ []) =
    (Ok ["indy-plenum=1.1.0"; "indy-node=1.2.3"], p') ∧
  length (p_machine p') = 0 + MAX_DEPS_DEPTH.
Proof.
  assert (∃ p', get_deps_tree_filtered (SH := logging_shell sample_apt (λ _, true)) numbers_only
      ["indy-node=1.2.3"] ["indy-plenum"; "indy-node"] [] (mkProcess ∅ []) =
    (Ok ["indy-plenum=1.1.0"; "indy-node=1.2.3"], p')) as [p' H] by (eexists; vm_compute; reflexivity).
  exists p'. split; [exact H|].
  exact (proj1 (proj2 (held_dependencies_bounded numbers_only sample_apt (λ _, true) _ _ _ _ _ H)
    _ eq_refl)).
Defined.

(** The version an upgrade installs is the greatest one available: from the
    versions [apt-cache] lists for the package, restricted to the upstream
    version that was asked for, [get_latest_pkg_version] returns one that no other is greater
    than, and none only if there is none; the cache of comparisons does not change the answer
    and stays true. *)
Theorem latest_version_greatest {W} {SH : Shell W} known gt {Ver} (version_of : version_cls → string → res Ver)
    ver_eqb `{!VersionOrder known gt} pkg_name upstream cmd out w vs (p : Process W) :
  dpkg_answers (W := W) known gt → cache_ok known gt (p_cache p) →
  (∀ u, upstream = Some u → u.1 = src_version_cls pkg_name) →
  compose_cmd ["apt-cache"; "show"; pkg_name; "|"; "grep"; "-E"; "'^Version: '"] = Ok cmd →
  shell cmd (p_machine p) = (Done out, w) →
  candidates version_of ver_eqb (src_version_cls pkg_name) (snd <$> upstream)
    (py_split newline (strip (strip out))) = Ok vs →
  Forall (λ v, known (dv_full v)) vs →
  ∃ r p', get_latest_pkg_version version_of ver_eqb pkg_name upstream false p = (Ok r, p') ∧
    cache_ok known gt (p_cache p') ∧ greatest gt vs r ∧
    ∀ v u, r = Some v → upstream = Some u → ver_eqb (dv_upstream v) u.2 = true.
Proof.
  intros Hdpkg Hc Hup Hcmd Hrun Hvs Hk. unfold get_latest_pkg_version.
  replace (match upstream with Some (cls, _) => negb (bool_decide (cls = src_version_cls pkg_name))
           | None => false end) with false.
  2:{ destruct upstream as [[cls u]|]; [|done]. specialize (Hup _ eq_refl). cbn in Hup. subst.
      by rewrite bool_decide_eq_true_2. }
  rewrite Hcmd. unfold act_bind, lift, ret, catch, run_shell_script_extended.
  cbn [shell process_shell]. rewrite Hrun.
  destruct (latest_greatest known gt Hdpkg vs (mkProcess (p_cache p) w) Hk Hc) as (r & p' & Hl & Hc' & Hg).
  exists r, p'. split.
  - destruct (strip (strip out)) eqn:E; [|by rewrite Hvs].
    cbn in Hvs. discriminate Hvs.
  - split; [done|]. split; [done|]. intros v [cls u] -> ->. destruct Hg as [Hv _].
    apply candidates_upstream in Hvs. rewrite Forall_forall in Hvs. by apply Hvs.
Qed.

Definition sample_known : list string := ["1.12.4"; "1.12.6"; "1.12.5"].

(** Versions of equal length in the order of their texts. *)
Definition text_gt (a b : string) : bool := match String.compare a b with Gt => true | _ => false end.

Definition sample_answer (cmd : string) : outcome :=
  if String.prefix "apt-cache" cmd
  then Done (py_join newline (map (λ v, "Version: " +:+ v) sample_known))
  else match words cmd with
       | [_; _; a; _; b] => if text_gt a b then Done "" else Exited 1 "" ""
       | _ => Exited 2 "" "bad command"
       end.

Definition sample_shell : Shell unit := {| shell cmd w := (sample_answer cmd, w); which _ _ := true |}.

Definition all_sample (p : string → bool) : bool := forallb p sample_known.

Lemma all_sample_spec p a : all_sample p = true → a ∈ sample_known → p a = true.
Proof. unfold all_sample. rewrite forallb_forall. intros H Ha. apply H. by apply list_elem_of_In. Qed.

Lemma sample_order : VersionOrder (λ a, a ∈ sample_known) text_gt.
Proof.
  split.
  - assert (all_sample (λ a, all_sample (λ b, str_eqb a b || eqb (text_gt a b) (negb (text_gt b a)))) = true)
      as H by (vm_compute; reflexivity).
    intros a b Ha Hb Hne. pose proof (all_sample_spec _ b (all_sample_spec _ a H Ha) Hb) as E. cbn in E.
    rewrite (proj2 (str_eqb_neq a b) Hne) in E. by apply eqb_prop.
  - assert (all_sample (λ a, all_sample (λ b, all_sample (λ c,
      negb (text_gt a b && text_gt b c) || text_gt a c))) = true) as H by (vm_compute; reflexivity).
    intros a b c Ha Hb Hc H1 H2.
    pose proof (all_sample_spec _ c (all_sample_spec _ b (all_sample_spec _ a H Ha) Hb) Hc) as E.
    cbn in E. by rewrite H1, H2 in E.
Qed.

Lemma sample_dpkg : dpkg_answers (Shell0 := sample_shell) (λ a, a ∈ sample_known) text_gt.
Proof.
  intros a b cmd w Ha Hb Hcmd. exists w. cbn [shell sample_shell]. f_equal.
  unfold sample_known in Ha, Hb. rewrite !elem_of_cons in Ha, Hb.
  destruct Ha as [->|[->|[->|Ha]]]; [..|by apply not_elem_of_nil in Ha];
    (destruct Hb as [->|[->|[->|Hb]]]; [..|by apply not_elem_of_nil in Hb]);
    vm_compute in Hcmd; injection Hcmd as <-; vm_compute; reflexivity.
Qed.

Lemma latest_version_greatest_witness :
  ∃ r p', get_latest_pkg_version (SH := sample_shell) numbers_only str_eqb "indy-node" None false
      (mkProcess ∅ tt) = (Ok r, p') ∧
    cache_ok (λ a, a ∈ sample_known) text_gt (p_cache p') ∧
    greatest text_gt (map (λ v, mkDebian v None v None) sample_known) r ∧
    ∀ v u, r = Some v → None = Some (u : version_cls * string) → str_eqb (dv_upstream v) u.2 = true.
Proof.
  pose proof sample_order as Ho.
  refine (latest_version_greatest (SH := sample_shell) _ text_gt numbers_only str_eqb "indy-node" None _ _ tt
    _ (mkProcess ∅ tt) sample_dpkg _ _ eq_refl eq_refl _ _).
  - intros a b z _ _ H. cbn [p_cache] in H. by rewrite lookup_empty in H.
  - discriminate.
  - vm_compute. reflexivity.
  - vm_compute. repeat constructor.
Defined.
