(* ===== verification/Migrations.v ===== *)
(** * Migrations

    [indy_node/utils/migration_tool.py]: which of the migration scripts that come
    with the node apply between two versions, in which order they run, and what
    happens when one fails.

    [compareVersions] ([Upgrader.compareVersions]) compares two version texts and
    raises on a text that is no version; the comparison is that of [NodeVersion],
    a parameter.  So are the name of the platform, the modules found in the
    migrations package and the place of the script files. *)
From S2P Require Import Prelude PyValue Plenum Constants StateDomain IdrCache HandlerBase Upgrader PoolUpgrade World.

Definition PLATFORM_PREFIX : dict string := [("Ubuntu", "deb")].

(** [_get_migration_versions]: [a_b_c_to_d_e_f] *)
Definition get_migration_versions (migration : string) : option (string * string) :=
  match py_split "_" migration with
  | [a; b; c; _; d; e; f] => Some (py_join "." [a; b; c], py_join "." [d; e; f])
  | _ => None
  end.

Section Relevant.
Context (compareVersions : string → string → res Z).

(** [_compare_migration_scripts] of two names that have versions. *)
Definition compare_migration_scripts (migration1 migration2 : string) : res Z :=
  match get_migration_versions migration1, get_migration_versions migration2 with
  | Some (o1, n1), Some (o2, n2) =>
      let! c := compareVersions o1 o2 in
      if Z.eqb c 0 then compareVersions n1 n2 else compareVersions o1 o2
  | _, _ => Raise (TypeError "expected string or bytes-like object")
  end.

(** [sorted(l, key=cmp_to_key(compare))] of a list whose last element is new: a
    stable insertion. *)
Fixpoint insert_migration (m : string) (l : list string) : res (list string) :=
  match l with
  | [] => Ok [m]
  | x :: l' =>
      let! c := compare_migration_scripts m x in
      if Z.ltb c 0 then Ok (m :: x :: l')
      else let! r := insert_migration m l' in Ok (x :: r)
  end.

(** Whether a script from [o] to [n] lies between the two versions, in the
    direction of the change. *)
Definition is_relevant (o n current_version new_version : string) : res bool :=
  let! up := compareVersions new_version current_version in
  if Z.leb 0 up then
    let! c := compareVersions o n in
    if Z.ltb 0 c then Ok false else
    let! c1 := compareVersions current_version o in
    if Z.leb c1 0 then let! c2 := compareVersions new_version n in Ok (Z.leb 0 c2) else Ok false
  else
    let! c := compareVersions n o in
    if Z.ltb 0 c then Ok false else
    let! c1 := compareVersions current_version o in
    if Z.leb 0 c1 then let! c2 := compareVersions new_version n in Ok (Z.leb c2 0) else Ok false.

(** [_get_relevant_migrations]: the list is kept sorted after each addition. *)
Definition add_if_relevant (current_version new_version : string) (acc : list string) (migration : string)
    : res (list string) :=
  match get_migration_versions migration with
  | Some (o, n) =>
      if negb (str_truth o) || negb (str_truth n) then Ok acc else
      let! b := is_relevant o n current_version new_version in
      if b then insert_migration migration acc else Ok acc
  | None => Ok acc
  end.

Definition get_relevant_migrations (migration_scripts : list string) (current_version new_version : string)
    : res (list string) :=
  res_fold (add_if_relevant current_version new_version) [] migration_scripts.
End Relevant.

Section Migrate.
Context {W : Type} {SH : Shell W} (compareVersions : string → string → res Z).
Context (linux_distribution : W → string) (iter_modules : string → list string).
Context (script_path : string → string → string).

(** [_get_current_platform] *)
Definition get_current_platform : act W string :=
  λ w, let name := linux_distribution w in
       if py_in_str "Ubuntu" name || py_in_str "ubuntu" name then (Ok "Ubuntu", w)
       else (Raise (PyException "Platform is not supported"), w).

(** [_call_migration_script] *)
Definition call_migration_script (migration_script current_platform : string) : act W unit :=
  let? prefix := lift (dgetitem current_platform PLATFORM_PREFIX) in
  let? cmd := lift (compose_cmd ["python3 " +:+ script_path prefix (migration_script +:+ ".py")]) in
  λ w, match shell cmd w with
       | (Done _, w') => (Ok tt, w')
       | (Exited rc _ _, w') =>
           (Raise (PyException ("Migration failed: script returned " +:+ str_int rc)), w')
       | (NotRun e, w') => (Raise e, w')
       end.

(** [_get_migration_scripts] *)
Definition get_migration_scripts (current_platform : string) : act W (list string) :=
  let? prefix := lift (dgetitem current_platform PLATFORM_PREFIX) in
  ret (iter_modules prefix).

(** [migrate]: the number of migrations performed. *)
Definition migrate (current_version new_version : string) : act W nat :=
  let? current_platform := get_current_platform in
  let? migration_scripts := get_migration_scripts current_platform in
  let? migration_scripts :=
    lift (get_relevant_migrations compareVersions migration_scripts current_version new_version) in
  let? _ := each (λ migration, call_migration_script migration current_platform) migration_scripts in
  ret (length migration_scripts).
End Migrate.

(** ** Lemmas *)

(** A comparison of versions: total, antisymmetric up to equality, transitive. *)
Class VersionComparison (c : string → string → Z) : Prop := {
  cmp_opp a b : c b a = (- c a b)%Z;
  cmp_trans a b d : (c a b ≤ 0)%Z → (c b d ≤ 0)%Z → (c a d ≤ 0)%Z;
  cmp_eq_l a b d : c a b = 0%Z → c a d = c b d
}.

Section Order.
Context (c : string → string → Z) `{!VersionComparison c}.
Abbreviation compareVersions := (λ a b, Ok (c a b)).

(** The order of two scripts, and that of a list. *)
Definition mcmp (o1 n1 o2 n2 : string) : Z := if Z.eqb (c o1 o2) 0 then c n1 n2 else c o1 o2.

Definition script_le (x y : string) : Prop :=
  match get_migration_versions x, get_migration_versions y with
  | Some (o1, n1), Some (o2, n2) => (mcmp o1 n1 o2 n2 ≤ 0)%Z
  | _, _ => False
  end.

Definition named (x : string) : Prop := ∃ v, get_migration_versions x = Some v.

Fixpoint in_order (l : list string) : Prop :=
  match l with [] => True | x :: l' => Forall (script_le x) l' ∧ in_order l' end.

Lemma cmp_eq_r a b d : c a b = 0%Z → c d a = c d b.
Proof. intros H. rewrite (cmp_opp (c := c) a d), (cmp_opp (c := c) b d). by rewrite (cmp_eq_l (c := c) a b d H). Qed.

Lemma mcmp_opp o1 n1 o2 n2 : mcmp o2 n2 o1 n1 = (- mcmp o1 n1 o2 n2)%Z.
Proof.
  unfold mcmp. rewrite (cmp_opp (c := c) o1 o2), (cmp_opp (c := c) n1 n2).
  destruct (Z.eqb_spec (c o1 o2) 0), (Z.eqb_spec (- c o1 o2) 0); lia.
Qed.

Lemma mcmp_trans o1 n1 o2 n2 o3 n3 :
  (mcmp o1 n1 o2 n2 ≤ 0)%Z → (mcmp o2 n2 o3 n3 ≤ 0)%Z → (mcmp o1 n1 o3 n3 ≤ 0)%Z.
Proof.
  unfold mcmp. pose proof (cmp_trans (c := c) o1 o2 o3) as Ht. pose proof (cmp_trans (c := c) n1 n2 n3) as Hn.
  destruct (Z.eqb_spec (c o1 o2) 0) as [E1|E1].
  - rewrite (cmp_eq_l (c := c) o1 o2 o3 E1). destruct (Z.eqb_spec (c o2 o3) 0); lia.
  - destruct (Z.eqb_spec (c o2 o3) 0) as [E2|E2].
    + rewrite <- (cmp_eq_r o2 o3 o1 E2). destruct (Z.eqb_spec (c o1 o2) 0); lia.
    + intros H1 H2. destruct (Z.eqb_spec (c o1 o3) 0) as [E3|E3]; [|lia].
      pose proof (cmp_eq_r o1 o3 o2 E3) as E. rewrite (cmp_opp (c := c) o1 o2) in E. lia.
Qed.

Lemma script_le_trans x y z : script_le x y → script_le y z → script_le x z.
Proof.
  unfold script_le. destruct (get_migration_versions x) as [[o1 n1]|], (get_migration_versions y) as [[o2 n2]|],
    (get_migration_versions z) as [[o3 n3]|]; try done. apply mcmp_trans.
Qed.

Lemma compare_scripts_ok x y o1 n1 o2 n2 :
  get_migration_versions x = Some (o1, n1) → get_migration_versions y = Some (o2, n2) →
  compare_migration_scripts compareVersions x y = Ok (mcmp o1 n1 o2 n2).
Proof.
  intros Hx Hy. unfold compare_migration_scripts, mcmp. rewrite Hx, Hy. cbn [res_bind].
  by destruct (Z.eqb (c o1 o2) 0).
Qed.

Lemma insert_migration_spec m l :
  named m → Forall named l → in_order l →
  ∃ l', insert_migration compareVersions m l = Ok l' ∧ l' ≡ₚ m :: l ∧ in_order l'.
Proof.
  intros [[o n] Hm]. induction l as [|x l IH]; intros Hn Hl; cbn [insert_migration].
  - exists [m]. repeat split; try done.
  - apply Forall_cons in Hn as [[[o' n'] Hx] Hn]. destruct Hl as [Hle Hl].
    rewrite (compare_scripts_ok m x o n o' n' Hm Hx). cbn [res_bind].
    destruct (Z.ltb_spec (mcmp o n o' n') 0) as [Hlt|Hge].
    + exists (m :: x :: l). repeat split; try done.
      assert (script_le m x) as Hmx by (unfold script_le; rewrite Hm, Hx; lia).
      constructor; [done|]. eapply Forall_impl; [exact Hle|]. intros y. by apply script_le_trans.
    + destruct (IH Hn Hl) as (l' & -> & Hp & Ho). exists (x :: l'). cbn [res_bind]. repeat split; try done.
      * rewrite Hp. apply perm_swap.
      * rewrite Hp. constructor; [|done]. unfold script_le. rewrite Hm, Hx, mcmp_opp. lia.
Qed.

(** Whether a script applies. *)
Definition applies (current_version new_version m : string) : bool :=
  match get_migration_versions m with
  | Some (o, n) =>
      str_truth o && str_truth n &&
      if Z.leb 0 (c new_version current_version)
      then Z.leb (c o n) 0 && Z.leb (c current_version o) 0 && Z.leb 0 (c new_version n)
      else Z.leb (c n o) 0 && Z.leb 0 (c current_version o) && Z.leb (c new_version n) 0
  | None => false
  end.

Lemma is_relevant_ok o n cur new m :
  get_migration_versions m = Some (o, n) → str_truth o = true → str_truth n = true →
  is_relevant compareVersions o n cur new = Ok (applies cur new m).
Proof.
  intros Hm Ho Hn. unfold is_relevant, applies. rewrite Hm, Ho, Hn. cbn [res_bind andb].
  assert (∀ z, Z.leb z 0 = negb (Z.ltb 0 z)) as Hz
    by (intros z; destruct (Z.leb_spec z 0), (Z.ltb_spec 0 z); simpl; lia).
  destruct (Z.leb 0 (c new cur)).
  - rewrite (Hz (c o n)). destruct (Z.ltb 0 (c o n)); [done|]. cbn [negb andb].
    destruct (Z.leb (c cur o) 0); done.
  - rewrite (Hz (c n o)). destruct (Z.ltb 0 (c n o)); [done|]. cbn [negb andb].
    destruct (Z.leb 0 (c cur o)); done.
Qed.

Lemma applies_named cur new m : applies cur new m = true → named m.
Proof. unfold applies, named. destruct (get_migration_versions m); [eauto|done]. Qed.

(** The scripts chosen are those that apply, in order. *)
Lemma relevant_spec scripts cur new :
  ∃ l, get_relevant_migrations compareVersions scripts cur new = Ok l ∧
    l ≡ₚ List.filter (applies cur new) scripts ∧ in_order l.
Proof.
  unfold get_relevant_migrations.
  assert (∀ acc, Forall named acc → in_order acc →
    ∃ l, res_fold (add_if_relevant compareVersions cur new) acc scripts = Ok l ∧
      l ≡ₚ List.filter (applies cur new) scripts ++ acc ∧ in_order l) as H.
  { induction scripts as [|m scripts IH]; intros acc Hn Ho; [by exists acc|]. cbn [res_fold List.filter].
    assert (add_if_relevant compareVersions cur new acc m =
      if applies cur new m then insert_migration compareVersions m acc else Ok acc) as ->.
    { unfold add_if_relevant. destruct (get_migration_versions m) as [[o n]|] eqn:Hm;
        [|unfold applies; by rewrite Hm].
      destruct (str_truth o) eqn:H1; cbn [negb orb];
        [|unfold applies; by rewrite Hm, H1].
      destruct (str_truth n) eqn:H2; cbn [negb orb];
        [|unfold applies; by rewrite Hm, H1, H2].
      by rewrite (is_relevant_ok o n cur new m Hm H1 H2). }
    destruct (applies cur new m) eqn:Ha; [|by apply IH].
    apply applies_named in Ha. destruct (insert_migration_spec m acc Ha Hn Ho) as (acc' & -> & Hp & Ho').
    cbn [res_bind]. destruct (IH acc') as (l & Hl & Hlp & Hlo); [rewrite Hp; by constructor|done|].
    exists l. repeat split; [done| |done]. rewrite Hlp, Hp. cbn. by rewrite Permutation_middle. }
  destruct (H [] (Forall_nil_2 _) I) as (l & Hl & Hp & Ho). exists l. by rewrite app_nil_r in Hp.
Qed.
End Order.

(** The command of a script. *)
Definition script_command (script_path : string → string → string) (prefix m : string) : string :=
  match compose_cmd ["python3 " +:+ script_path prefix (m +:+ ".py")] with Ok s => s | Raise _ => "" end.

Section Runs.
Context (answer : list string → string → outcome) (installed : string → bool).
Context (script_path : string → string → string).
Abbreviation log_shell := (logging_shell answer installed).

(** The exception a command ends in: none when it is done. *)
Definition failure (o : outcome) : option exn :=
  match o with
  | Done _ => None
  | Exited rc _ _ => Some (PyException ("Migration failed: script returned " +:+ str_int rc))
  | NotRun e => Some e
  end.

(** Each of a list of commands, given one after the other, succeeds. *)
Definition succeeded (log cmds : list string) : Prop :=
  ∀ i cmd, cmds !! i = Some cmd → failure (answer (log ++ take i cmds) cmd) = None.

(** What running commands in order, up to the first that fails, comes to. *)
Definition runs_until_failure (cmds log log' : list string) (r : res unit) : Prop :=
  (r = Ok tt ∧ log' = log ++ cmds ∧ succeeded log cmds) ∨
  ∃ i cmd e, cmds !! i = Some cmd ∧ log' = log ++ take (S i) cmds ∧ succeeded log (take i cmds) ∧
    failure (answer (log ++ take i cmds) cmd) = Some e ∧ r = Raise e.

Lemma succeeded_cons log cmd cmds :
  failure (answer log cmd) = None → succeeded (log ++ [cmd]) cmds → succeeded log (cmd :: cmds).
Proof.
  intros Hc Hs [|i] c H; cbn in H |- *; [injection H as <-; by rewrite app_nil_r|].
  specialize (Hs i c H). by rewrite <- app_assoc in Hs.
Qed.

Lemma call_script_logged m log :
  call_migration_script (SH := log_shell) script_path m "Ubuntu" log =
    (match failure (answer log (script_command script_path "deb" m)) with None => Ok tt | Some e => Raise e end,
     log ++ [script_command script_path "deb" m]).
Proof.
  unfold call_migration_script, act_bind, lift.
  change (dgetitem "Ubuntu" PLATFORM_PREFIX) with (Ok "deb" : res string). cbn [res_bind].
  unfold script_command. destruct (compose_cmd _) as [cmd|e] eqn:E; [|unfold compose_cmd in E; discriminate E].
  cbn [shell logging_shell]. by destruct (answer log cmd).
Qed.

Lemma scripts_logged l log r log' :
  each (λ m, call_migration_script (SH := log_shell) script_path m "Ubuntu") l log = (r, log') →
  runs_until_failure (map (script_command script_path "deb") l) log log' r.
Proof.
  revert log. induction l as [|m l IH]; intros log; cbn [each map].
  - intros [= <- <-]. left. rewrite app_nil_r. split; [done|]. split; [done|]. by intros i c [=].
  - unfold act_bind. rewrite call_script_logged. set (cmd := script_command script_path "deb" m).
    destruct (failure (answer log cmd)) as [e|] eqn:Ef.
    + intros [= <- <-]. right. exists 0, cmd, e. cbn. rewrite app_nil_r. do 2 (split; [done|]).
      split; [by intros i c [=]|done].
    + intros H. apply IH in H as [(-> & -> & Hs)|(i & c & e & Hc & -> & Hs & Hf & ->)].
      * left. rewrite <- app_assoc. split; [done|]. split; [done|]. by apply succeeded_cons.
      * right. exists (S i), c, e. rewrite <- !app_assoc in *. cbn in *. do 2 (split; [done|]).
        split; [by apply succeeded_cons|done].
Qed.
End Runs.

(** ** Properties *)

(** C18. A migration runs the scripts that lie between the two versions, each
    once, in the order of the versions they start from and then of those they lead
    to, and stops at the first that fails.  On an Ubuntu machine, whatever its
    commands answer: when every command of the list succeeds they were all given,
    and [migrate] returns their number; else those up to the first that fails were
    given, and [migrate] raises what that command failed with (for a return code,
    "Migration failed").  On any other platform it raises and runs nothing. *)
Theorem migrate_runs_in_order (c : string → string → Z) `{!VersionComparison c} answer installed
    name modules script_path cur new log r log' :
  migrate (SH := logging_shell answer installed) (λ a b, Ok (c a b)) (λ _, name) modules script_path
    cur new log = (r, log') →
  if py_in_str "Ubuntu" name || py_in_str "ubuntu" name then
    ∃ l r0, l ≡ₚ List.filter (applies c cur new) (modules "deb") ∧ in_order c l ∧
      runs_until_failure answer (map (script_command script_path "deb") l) log log' r0 ∧
      r = match r0 with Ok _ => Ok (length l) | Raise e => Raise e end
  else r = Raise (PyException "Platform is not supported") ∧ log' = log.
Proof.
  destruct (relevant_spec c (modules "deb") cur new) as (l & Hl & Hp & Ho).
  unfold migrate, act_bind at 1, get_current_platform.
  destruct (py_in_str "Ubuntu" name || py_in_str "ubuntu" name); [|by intros [= <- <-]].
  unfold act_bind at 1, get_migration_scripts, lift.
  change (dgetitem "Ubuntu" PLATFORM_PREFIX) with (Ok "deb" : res string).
  unfold act_bind at 1, ret at 1. unfold act_bind at 1. rewrite Hl. unfold act_bind.
  destruct (each _ l log) as [r0 log1] eqn:He. apply scripts_logged in He. intros H. exists l, r0.
  destruct r0 as [[]|e]; by injection H as <- <-.
Qed.

(** The weight of a version text [a.b.c]. *)
Definition weight (s : string) : Z :=
  foldl (λ acc t, acc * 1000 + match py_int t with Ok z => z | Raise _ => 0 end)%Z 0%Z (py_split "." s).

Definition weight_cmp (a b : string) : Z := (weight a - weight b)%Z.

#[export] Instance weight_comparison : VersionComparison weight_cmp.
Proof. split; unfold weight_cmp; lia. Qed.

Definition sample_modules (prefix : string) : list string :=
  ["helper_1_0_2_to_1_0_3"; "1_0_3_to_1_0_4"; "1_0_2_to_1_0_3"; "1_0_9_to_1_1_0"].

Lemma migrate_runs_in_order_witness :
  ∃ l r0, l ≡ₚ List.filter (applies weight_cmp "1.0.2" "1.0.4") (sample_modules "deb") ∧
    in_order weight_cmp l ∧
    runs_until_failure (λ log _, match log with [] => Done "" | _ => Exited 1 "" "" end)
      (map (script_command (λ p s, p +:+ "/" +:+ s) "deb") l) []
      ["python3 deb/1_0_2_to_1_0_3.py"; "python3 deb/1_0_3_to_1_0_4.py"] r0 ∧
    Raise (PyException "Migration failed: script returned 1") =
      match r0 with Ok _ => Ok (length l) | Raise e => Raise e end.
Proof.
  refine (migrate_runs_in_order weight_cmp (λ log _, match log with [] => Done "" | _ => Exited 1 "" "" end)
    (λ _, true) "Ubuntu" sample_modules (λ p s, p +:+ "/" +:+ s) "1.0.2" "1.0.4" [] _ _ _).
  vm_compute. reflexivity.
Defined.

(** Going back to an earlier version the scripts also run by ascending original
    version: the one that starts where the other ends comes first. *)
Theorem downgrade_scripts_reversed :
  get_relevant_migrations (λ a b, Ok (weight_cmp a b)) ["1_0_3_to_1_0_2"; "1_0_2_to_1_0_1"] "1.0.3" "1.0.1"
  = Ok ["1_0_2_to_1_0_1"; "1_0_3_to_1_0_2"].
Proof. vm_compute. reflexivity. Qed.
