(* ===== verification/InstanceSet.v ===== *)
(** * The instance set of a test pool

    [pool_automation/roles/aws_manage/library/stateful_set.py]: the Ansible module that
    brings the cloud instances of a pool to a given number, spread over regions.  It
    looks for the instances of the pool by their tags, keeps one for each expected
    number, terminates the others, launches what is missing and tags it.

    The cloud is a parameter: what an account holds by instance id, and what the calls
    do to it, as the EC2 reference describes them ([Ec2], [Ec2Laws]).  Attributes of an
    instance are read from the account, since boto3 drops what it has cached when an
    action is called on an instance. *)
From Stdlib Require Import Ascii.
From S2P Require Import Prelude PyValue Plenum Constants StateDomain IdrCache HandlerBase RevocEntryHandler Upgrader PoolUpgrade World.

(** ** Data *)

Record HostInfo := mkHostInfo {
  tag_id : option string;
  public_ip : option string;
  user : string
}.

Record InstanceParams := mkInstanceParams {
  project : string;
  namespace : string;
  group : string;
  add_tags : dict string;
  key_name : string;
  security_group : string;
  type_name : string;
  market_spot : bool;
  spot_max_price : option string;
  ebs_volume_size : option Z;
  ebs_volume_type : option string
}.

Record ManageResults := mkManageResults {
  changed : bool;
  active : list HostInfo;
  terminated : list HostInfo
}.

Record AWSRegion := mkAWSRegion {
  code : string;
  location : string;
  expensive : bool
}.

Definition AWS_REGIONS : list AWSRegion := [
  mkAWSRegion "us-east-1" "US East (N. Virginia)" false;
  mkAWSRegion "us-east-2" "US East (Ohio)" false;
  mkAWSRegion "us-west-1" "US West (N. California)" false;
  mkAWSRegion "us-west-2" "US West (Oregon)" false;
  mkAWSRegion "ca-central-1" "Canada (Central)" false;
  mkAWSRegion "eu-central-1" "EU (Frankfurt)" false;
  mkAWSRegion "eu-west-1" "EU (Ireland)" false;
  mkAWSRegion "eu-west-2" "EU (London)" false;
  mkAWSRegion "eu-west-3" "EU (Paris)" false;
  mkAWSRegion "ap-northeast-1" "Asia Pacific (Tokyo)" false;
  mkAWSRegion "ap-northeast-2" "Asia Pacific (Seoul)" false;
  mkAWSRegion "ap-southeast-1" "Asia Pacific (Singapore)" false;
  mkAWSRegion "ap-southeast-2" "Asia Pacific (Sydney)" false;
  mkAWSRegion "ap-south-1" "Asia Pacific (Mumbai)" false;
  mkAWSRegion "sa-east-1" "South America (Sao Paulo)" true
].

(** [AWS_REGIONS.keys()] *)
Definition region_codes : list string := map code AWS_REGIONS.

(** ** The cloud *)

Record Inst := mkInst {
  inst_region : string;
  inst_state : string;
  inst_tags : dict string;
  spot_instance_request_id : option string;
  public_ip_address : option string
}.

(** What [create_instances] is given. *)
Record LaunchSpec := mkLaunchSpec {
  ImageId : option string;
  KeyName : string;
  SecurityGroups : list string;
  InstanceType : string;
  MinCount : nat;
  MaxCount : nat;
  TagSpecifications : list (string * list (string * string));
  BlockDeviceMappings : option (string * dict val);
  InstanceMarketOptions : option (string * dict val)
}.

(** [account] is what is there, by instance id, whatever its state; [describe] lists the
    ids of a region that have all of some tags; [images] gives the creation dates and ids
    of the images a region has for an owner and a name. *)
Class Ec2 (W : Type) := {
  account : W → gmap string Inst;
  describe : string → dict string → W → list string;
  images : string → string → string → W → list (string * string);
  create_instances : string → LaunchSpec → act W (list string);
  terminate_instance : string → act W unit;
  create_tags : string → dict string → act W unit;
  waiter_wait : string → string → list string → act W unit;
  cancel_spot_instance_requests : string → string → act W unit
}.

(** ** Operations without effects *)

(** [sorted(images, key=...)[-1].image_id]: of the latest, the last one listed. *)
Definition newer (best : option (string * string)) (i : string * string) : option (string * string) :=
  match best with
  | None => Some i
  | Some b => if decide (String.le b.1 i.1) then Some i else best
  end.

Definition find_ubuntu_ami (l : list (string * string)) : option string := snd <$> foldl newer None l.

Definition gone (state : string) : bool :=
  str_eqb state "terminated" || str_eqb state "shutting-down".

(** [zip(range(count), cycle(regions))], and [result[region].append(str(i + 1))] *)
Definition valid_instances (regions : list string) (count : Z) : dict (list string) :=
  foldl (λ result i,
           match regions !! (i `mod` length regions) with
           | Some region => dset region (default [] (dget region result) ++ [str_int (Z.of_nat i + 1)]) result
           | None => result
           end) [] (seq 0 (Z.to_nat count)).

(** [valid_region_ids[region]] of the [defaultdict]. *)
Definition region_ids (regions : list string) (count : Z) (region : string) : list string :=
  default [] (dget region (valid_instances regions count)).

Fixpoint get_tag (tags : dict string) (name : string) : option string :=
  match tags with
  | [] => None
  | (k, v) :: tags' => if str_eqb k name then Some v else get_tag tags' name
  end.

(** [valid_ids.remove(tag_id)] *)
Fixpoint remove_first (x : string) (l : list string) : list string :=
  match l with
  | [] => []
  | y :: l' => if str_eqb x y then l' else y :: remove_first x l'
  end.

Definition is_upper (c : ascii) : bool := (65 <=? nat_of_ascii c) && (nat_of_ascii c <=? 90).
Definition is_lower (c : ascii) : bool := (97 <=? nat_of_ascii c) && (nat_of_ascii c <=? 122).
Definition is_digit (c : ascii) : bool := (48 <=? nat_of_ascii c) && (nat_of_ascii c <=? 57).

(** [_camel_to_snake_re1.sub(r'\1_\2', s)] for ["(.)([A-Z][a-z]+)"]; [inside] while
    the small letters of a match are read. *)
Fixpoint camel_re1 (inside : bool) (s : string) : string :=
  match s with
  | "" => ""
  | String a s' =>
      if inside && is_lower a then String a (camel_re1 true s')
      else match s' with
           | String u ((String l _) as s'') =>
               if negb (Ascii.eqb a "010") && is_upper u && is_lower l
               then String a (String "_" (String u (camel_re1 true s'')))
               else String a (camel_re1 false s')
           | _ => String a (camel_re1 false s')
           end
  end.

(** [_camel_to_snake_re2.sub(r'\1_\2', s)] for ["([a-z0-9])([A-Z])"] *)
Fixpoint camel_re2 (s : string) : string :=
  match s with
  | "" => ""
  | String a s' =>
      match s' with
      | String u s'' =>
          if (is_lower a || is_digit a) && is_upper u
          then String a (String "_" (String u (camel_re2 s'')))
          else String a (camel_re2 s')
      | "" => String a ""
      end
  end.

Definition camel_to_snake (s : string) : string := py_lower (camel_re2 (camel_re1 false s)).

(** [getattr(params, name)] *)
Definition params_getattr (params : InstanceParams) (name : string) : res val :=
  let opt {A} (f : A → val) o := match o with Some x => f x | None => VNone end in
  match dget name [
    ("project", VStr (project params)); ("namespace", VStr (namespace params)); ("group", VStr (group params));
    ("add_tags", VDict (map (λ kv, (kv.1, VStr kv.2)) (add_tags params)));
    ("key_name", VStr (key_name params)); ("security_group", VStr (security_group params));
    ("type_name", VStr (type_name params)); ("market_spot", VBool (market_spot params));
    ("spot_max_price", opt VStr (spot_max_price params)); ("ebs_volume_size", opt VInt (ebs_volume_size params));
    ("ebs_volume_type", opt VStr (ebs_volume_type params))] with
  | Some v => Ok v
  | None => Raise AttributeError
  end.

Definition get_options (params : InstanceParams) (opts_list : list string) (prefix : string) : res (dict val) :=
  res_fold (λ out opt,
    let! v := params_getattr params (prefix +:+ camel_to_snake opt) in
    Ok (match v with VNone => out | _ => dset opt v out end)) [] opts_list.

Definition spot_opts_list : list string := ["MaxPrice"].
Definition ebs_opts_list : list string := ["VolumeSize"; "VolumeType"].

Definition launch_tags (params : InstanceParams) : list (string * string) :=
  [("Project", project params); ("Namespace", namespace params); ("Group", group params)] ++ add_tags params.

Definition launch_spec (image : option string) (params : InstanceParams) (count : nat) : res LaunchSpec :=
  let! ebs_options := get_options params ebs_opts_list "ebs_" in
  let! market :=
    if market_spot params
    then let! spot := get_options params spot_opts_list "spot_" in Ok (Some ("spot", spot))
    else Ok None in
  Ok (mkLaunchSpec image (key_name params) [security_group params] (type_name params) count count
        (map (λ rc_type, (rc_type, launch_tags params)) ["instance"; "volume"])
        (match ebs_options with [] => None | _ => Some ("/dev/sda1", ebs_options) end) market).

(** [s.zfill(3)] of a text without a sign. *)
Definition zfill (width : nat) (s : string) : string :=
  foldr (λ _ acc, "0" +:+ acc) s (seq 0 (width - String.length s)).

Definition name_tag (params : InstanceParams) (id : string) : string :=
  py_lower (py_join "-" [project params; namespace params; group params; zfill 3 id]).

(** ** Operations on the cloud *)

Section Manage.
Context {W : Type} `{!Ec2 W}.
(** The order in which a dictionary of Python 2 lists its items. *)
Context (iteritems : dict (list string) → dict (list string)).

(** An attribute of an instance; the call fails for one that is not there. *)
Definition attribute {A} (f : Inst → A) (i : string) : act W A :=
  λ w, match account w !! i with
       | Some x => (Ok (f x), w)
       | None => (Raise (PyException "InvalidInstanceID.NotFound"), w)
       end.

Definition ubuntu_owner : string := "099720109477".
Definition ubuntu_name : string := "ubuntu/images/hvm-ssd/ubuntu-xenial-16.04-amd64-server*".

Definition image_of (region : string) (w : W) : option string :=
  find_ubuntu_ami (images region ubuntu_owner ubuntu_name w).

Definition find_instances (region project namespace : string) (group : option string) : act W (list string) :=
  λ w,
    let filters := [("Project", project); ("Namespace", namespace)] ++
                   match group with Some g => [("Group", g)] | None => [] end in
    (let? l := act_mapM (λ i, let? s := attribute inst_state i in ret (i, s)) (describe region filters w) in
     ret (map fst (filter (λ p : string * string, gone p.2 = false) l))) w.

(** [AwsEC2Waiter.add_instance], with the region given. *)
Definition add_instance (i region : string) (awaited : dict (list string)) : dict (list string) :=
  dset region (default [] (dget region awaited) ++ [i]) awaited.

(** [AwsEC2Waiter.wait]: what is still awaited. *)
Definition wait (ev_name : string) (update : bool) (awaited : dict (list string)) : act W (dict (list string)) :=
  act_fold (λ left '(region, insts),
    let? _ := waiter_wait ev_name region insts in
    let? _ := if update then each (attribute (λ _, tt)) insts else ret tt in
    ret (ddel region left)) awaited (iteritems awaited).

(** [AwsEC2Terminator.terminate] *)
Definition terminate (i region : string) (awaited : dict (list string)) : act W (dict (list string)) :=
  let? _ := terminate_instance i in
  let? request := attribute spot_instance_request_id i in
  let? _ := match request with
            | Some id => if str_truth id then cancel_spot_instance_requests region id else ret tt
            | None => ret tt
            end in
  ret (add_instance i region awaited).

(** [AwsEC2Launcher.launch]: the new instances, and what is awaited. *)
Definition launch (params : InstanceParams) (count : nat) (region : string) (awaited : dict (list string))
    : act W (list string * dict (list string)) :=
  λ w,
    (let? spec := lift (launch_spec (image_of region w) params count) in
     let? insts := create_instances region spec in
     ret (insts, foldl (λ acc i, add_instance i region acc) awaited insts)) w.

Definition host_info (i : string) : act W HostInfo :=
  attribute (λ x, mkHostInfo (get_tag (inst_tags x) "ID") (public_ip_address x) "ubuntu") i.

(** The variables of [manage_instances]. *)
Record Managing := mkManaging {
  hosts : list string;
  to_terminate : list HostInfo;
  tag_ids : list (string * string);
  has_changed : bool;
  launched : dict (list string);
  stopped : dict (list string)
}.

(** The body of [for inst in instances]. *)
Definition sort_instance (region : string) (acc : list string * Managing) (i : string)
    : act W (list string * Managing) :=
  let '(valid_ids, m) := acc in
  let? t := attribute (λ x, get_tag (inst_tags x) "ID") i in
  match t with
  | Some t' =>
      if existsb (str_eqb t') valid_ids
      then ret (remove_first t' valid_ids,
                mkManaging (hosts m ++ [i]) (to_terminate m) (tag_ids m) (has_changed m)
                  (add_instance i region (launched m)) (stopped m))
      else
        let? h := host_info i in
        let? st := terminate i region (stopped m) in
        ret (valid_ids, mkManaging (hosts m) (to_terminate m ++ [h]) (tag_ids m) true (launched m) st)
  | None =>
      let? h := host_info i in
      let? st := terminate i region (stopped m) in
      ret (valid_ids, mkManaging (hosts m) (to_terminate m ++ [h]) (tag_ids m) true (launched m) st)
  end.

(** The body of [for region in AWS_REGIONS.keys()]. *)
Definition manage_region (params : InstanceParams) (ids : string → list string) (m : Managing) (region : string)
    : act W Managing :=
  let? insts := find_instances region (project params) (namespace params) (Some (group params)) in
  let? (valid_ids, m1) := act_fold (sort_instance region) (ids region, m) insts in
  match valid_ids with
  | [] => ret m1
  | _ =>
      let? (new, la) := launch params (length valid_ids) region (launched m1) in
      let pairs := zip new valid_ids in
      ret (mkManaging (hosts m1 ++ map fst pairs) (to_terminate m1) (tag_ids m1 ++ pairs)
             (has_changed m1 || negb (bool_decide (pairs = []))) la (stopped m1))
  end.

Definition tag_instance (params : InstanceParams) (p : string * string) : act W unit :=
  create_tags p.1 [("Name", name_tag params p.2); ("ID", p.2)].

Definition manage_instances (regions : list string) (params : InstanceParams) (count : Z) : act W ManageResults :=
  let? m := act_fold (manage_region params (region_ids regions count)) (mkManaging [] [] [] false [] []) region_codes in
  let? _ := wait "instance_running" true (launched m) in
  let? _ := each (tag_instance params) (tag_ids m) in
  let? _ := wait "instance_terminated" true (stopped m) in
  let? act := act_mapM host_info (hosts m) in
  ret (mkManageResults (has_changed m) act (to_terminate m)).
End Manage.

(** ** What the calls do *)

Definition settled (x y : Inst) : Prop :=
  inst_region x = inst_region y ∧ inst_tags x = inst_tags y ∧ gone (inst_state x) = gone (inst_state y).

#[export] Instance settled_equiv : Equivalence settled.
Proof. unfold settled. split; [done|intros ?? ?; naive_solver|intros ??? ??; naive_solver congruence]. Qed.

(** Nothing happened to [i], but that a pending instance is running by now, or one that
    is shutting down has terminated. *)
Definition kept {W} `{!Ec2 W} (w w' : W) (i : string) : Prop :=
  option_Forall2 settled (account w !! i) (account w' !! i).

Definition same {W} `{!Ec2 W} (w w' : W) : Prop := ∀ i, kept w w' i.

(** The EC2 reference: what is listed, what each call changes, also when it fails. *)
Class Ec2Laws (W : Type) `{!Ec2 W} := {
  describe_NoDup r fs (w : W) : NoDup (describe r fs w);
  describe_spec r fs (w : W) i :
    i ∈ describe r fs w ↔
    ∃ x, account w !! i = Some x ∧ inst_region x = r ∧ ∀ k v, (k, v) ∈ fs → dget k (inst_tags x) = Some v;
  create_old r spec (w : W) i : is_Some (account w !! i) → kept w (create_instances r spec w).2 i;
  create_new r spec (w : W) l w' :
    create_instances r spec w = (Ok l, w') →
    (MinCount spec = MaxCount spec → length l = MinCount spec) ∧ NoDup l ∧
    (∀ i, i ∈ l → account w !! i = None ∧
       ∃ x, account w' !! i = Some x ∧ inst_region x = r ∧ gone (inst_state x) = false ∧
            ∀ ts, dget "instance" (TagSpecifications spec) = Some ts → inst_tags x = ts) ∧
    (∀ i, i ∉ l → account w !! i = None → account w' !! i = None);
  terminate_others i (w : W) j : i ≠ j → kept w (terminate_instance i w).2 j;
  terminate_one i (w : W) x w' :
    account w !! i = Some x → terminate_instance i w = (Ok tt, w') →
    ∃ y, account w' !! i = Some y ∧ inst_region y = inst_region x ∧ inst_tags y = inst_tags x ∧
         gone (inst_state y) = true;
  tags_others i ts (w : W) j : i ≠ j → kept w (create_tags i ts w).2 j;
  tags_one i ts (w : W) x w' :
    account w !! i = Some x → create_tags i ts w = (Ok tt, w') →
    ∃ y, account w' !! i = Some y ∧ inst_region y = inst_region x ∧
         inst_tags y = dupdate (inst_tags x) ts ∧ gone (inst_state y) = gone (inst_state x);
  wait_same ev r l (w : W) : same w (waiter_wait ev r l w).2;
  cancel_same r id (w : W) : same w (cancel_spot_instance_requests r id w).2
}.

(** A cloud that has the image everywhere and refuses nothing. *)
Class Ec2Up (W : Type) `{!Ec2 W} := {
  images_there r (w : W) : r ∈ region_codes → images r ubuntu_owner ubuntu_name w ≠ [];
  create_Ok r spec (w : W) : is_Some (ImageId spec) → ∃ l w', create_instances r spec w = (Ok l, w');
  terminate_Ok i (w : W) : is_Some (account w !! i) → ∃ w', terminate_instance i w = (Ok tt, w');
  tags_Ok i ts (w : W) : is_Some (account w !! i) → ∃ w', create_tags i ts w = (Ok tt, w');
  wait_Ok ev r l (w : W) : (∀ i, i ∈ l → is_Some (account w !! i)) → ∃ w', waiter_wait ev r l w = (Ok tt, w');
  cancel_Ok r id (w : W) : ∃ w', cancel_spot_instance_requests r id w = (Ok tt, w')
}.

(** ** The goal *)

(** The instances of the set: those with its tags. *)
Definition in_set (params : InstanceParams) (x : Inst) : Prop :=
  dget "Project" (inst_tags x) = Some (project params) ∧
  dget "Namespace" (inst_tags x) = Some (namespace params) ∧
  dget "Group" (inst_tags x) = Some (group params).

Section Goal.
Context {W : Type} `{!Ec2 W}.
Implicit Types w : W.

Definition mine params (r : string) w (i : string) : Prop :=
  ∃ x, account w !! i = Some x ∧ inst_region x = r ∧ in_set params x ∧ gone (inst_state x) = false.

Definition id_tag w (i : string) : option string :=
  account w !! i ≫= λ x, get_tag (inst_tags x) "ID".

(** In every region, the live instances of the set carry exactly the expected numbers. *)
Definition converged (regions : list string) params (count : Z) w : Prop :=
  ∀ r, r ∈ region_codes →
    ∃ l, NoDup l ∧ (∀ i, i ∈ l ↔ mine params r w i) ∧
         (id_tag w <$> l) ≡ₚ (Some <$> region_ids regions count r).
End Goal.

(** ** Lemmas: the numbers *)

Lemma get_tag_dget tags k : get_tag tags k = dget k tags.
Proof. induction tags as [|[k' v] tags IH]; cbn; [done|]. by rewrite str_eqb_sym, IH. Qed.

Definition numbers (l : list nat) : list string := (λ i : nat, str_int (Z.of_nat i + 1)) <$> l.

(** The numbers of a region, in order: one in every [length regions]. *)
Lemma region_ids_filter regions count r :
  region_ids regions count r =
  numbers (filter (λ i, regions !! (i `mod` length regions) = Some r) (seq 0 (Z.to_nat count))).
Proof.
  unfold region_ids, valid_instances. induction (Z.to_nat count) as [|n IH]; [done|].
  rewrite seq_S, foldl_app, filter_app. unfold numbers in *. rewrite fmap_app, <-IH. cbn [foldl Nat.add].
  destruct (regions !! (n `mod` length regions)) as [r'|] eqn:E.
  - destruct (decide (r' = r)) as [->|Hr].
    + rewrite filter_cons_True by done. by rewrite dget_dset_eq.
    + rewrite filter_cons_False by congruence. by rewrite dget_dset_ne, app_nil_r.
  - rewrite filter_cons_False by congruence. by rewrite app_nil_r.
Qed.

Lemma filter_partition {A} (key : A → option string) R l :
  NoDup R → (∀ x, x ∈ l → ∃ r, r ∈ R ∧ key x = Some r) →
  concat ((λ r, filter (λ x, key x = Some r) l) <$> R) ≡ₚ l.
Proof.
  intros HR. revert l. induction HR as [|r R Hr HR IH]; intros l Hl.
  - destruct l as [|x l]; [done|]. destruct (Hl x) as (? & []%not_elem_of_nil & _). apply list_elem_of_here.
  - cbn. etransitivity; [|apply (filter_app_complement (λ x, key x = Some r))]. apply Permutation_app_head.
    rewrite <-(IH (filter (λ x, ¬ key x = Some r) l)).
    + apply reflexive_eq. f_equal. apply list_fmap_ext. intros n r' Hn. rewrite list_filter_filter.
      apply list_filter_iff. intros x. apply list_elem_of_lookup_2 in Hn. naive_solver.
    + intros x [Hx Hin]%list_elem_of_filter. destruct (Hl x Hin) as (r' & [->|?]%elem_of_cons & ?); naive_solver.
Qed.

Lemma fmap_concat {A B} (f : A → B) (ls : list (list A)) : f <$> concat ls = concat ((λ l : list A, f <$> l) <$> ls).
Proof. induction ls as [|l ls IH]; cbn; [done|]. by rewrite fmap_app, IH. Qed.

Lemma region_codes_NoDup : NoDup region_codes.
Proof. apply (bool_decide_unpack _). by vm_compute. Qed.

(** Over all regions: each of 1 .. [count] once, if the regions given are known. *)
Lemma all_numbers regions count :
  regions ≠ [] → (∀ r, r ∈ regions → r ∈ region_codes) →
  concat (region_ids regions count <$> region_codes) ≡ₚ numbers (seq 0 (Z.to_nat count)).
Proof.
  intros Hne Hin. set (key i := regions !! (i `mod` length regions)).
  unfold numbers. rewrite <-(filter_partition key region_codes (seq 0 (Z.to_nat count)) region_codes_NoDup).
  - rewrite fmap_concat, <-list_fmap_compose. apply reflexive_eq. f_equal.
    apply list_fmap_ext. intros n r _. apply region_ids_filter.
  - intros i _. unfold key. destruct (lookup_lt_is_Some_2 regions (i `mod` length regions)) as [r Hr].
    { apply Nat.mod_upper_bound. by destruct regions. }
    exists r. split; [|done]. apply Hin. by eapply list_elem_of_lookup_2.
Qed.

Lemma remove_first_perm x l : x ∈ l → x :: remove_first x l ≡ₚ l.
Proof.
  induction l as [|y l IH]; cbn; intros Hx; [by apply not_elem_of_nil in Hx|].
  destruct (str_eqb x y) eqn:E; [apply str_eqb_eq in E as ->; done|].
  apply str_eqb_neq in E. rewrite Permutation_swap, IH; [done|set_solver].
Qed.

Lemma launch_spec_Ok image params count :
  ∃ spec, launch_spec image params count = Ok spec ∧ ImageId spec = image ∧ MinCount spec = count ∧
    MaxCount spec = count ∧ dget "instance" (TagSpecifications spec) = Some (launch_tags params).
Proof.
  destruct params as [? ? ? ? ? ? ? [] [] [] []]; eexists; (split; [reflexivity|]); repeat split.
Qed.

Lemma find_ubuntu_ami_Some l : l ≠ [] → is_Some (find_ubuntu_ami l).
Proof.
  intros Hl. unfold find_ubuntu_ami. apply fmap_is_Some.
  assert (∀ l b, is_Some (foldl newer (Some b) l)) as Hgo.
  { clear l Hl. intros l. induction l as [|i l IH]; intros b; cbn; [done|]. by case_decide. }
  destruct l as [|i l]; [done|]. apply (Hgo l i).
Qed.

(** ** Lemmas: readings *)

Section Readings.
Context {W : Type} `{!Ec2 W, !Ec2Laws W}.
Implicit Types w : W.

Lemma attribute_world {A} (f : Inst → A) i w : (attribute f i w).2 = w.
Proof. unfold attribute. by destruct (account w !! i). Qed.

Lemma attribute_Some {A} (f : Inst → A) i x w : account w !! i = Some x → attribute f i w = (Ok (f x), w).
Proof. unfold attribute. by intros ->. Qed.

(** The live instances of the set in a region, each once. *)
Lemma find_instances_spec params r w :
  ∃ l, find_instances r (project params) (namespace params) (Some (group params)) w = (Ok l, w) ∧
       NoDup l ∧ ∀ i, i ∈ l ↔ mine params r w i.
Proof.
  unfold find_instances. set (fs := _ ++ _). set (state i := default "" (inst_state <$> account w !! i)).
  eexists. split.
  { unfold act_bind at 1. rewrite (runs_mapM _ (λ i, (i, state i))); [reflexivity|].
    intros i (x & Hx & _)%describe_spec. unfold act_bind. rewrite (attribute_Some _ _ _ _ Hx).
    unfold state. by rewrite Hx. }
  assert (∀ l : list string, map fst (filter (λ p : string * string, gone p.2 = false) (map (λ i, (i, state i)) l)) =
          filter (λ i, gone (state i) = false) l) as ->.
  { intros l. induction l as [|i l IH]; [done|]. cbn [map]. rewrite !filter_cons. cbn [snd].
    case_decide; cbn; by rewrite IH. }
  split; [apply NoDup_filter, describe_NoDup|]. intros i. rewrite list_elem_of_filter, describe_spec.
  unfold mine, in_set, state. split.
  - intros (Hg & x & Hx & Hr & Hfs). rewrite Hx in Hg. exists x. repeat split; try done; apply Hfs; set_solver.
  - intros (x & Hx & Hr & (Hp & Hn & Hgr) & Hg). rewrite Hx. split; [done|]. exists x. repeat split; try done.
    intros k v Hkv. subst fs. set_solver.
Qed.
End Readings.

(** ** Lemmas: instances outside the set *)

Section Outside.
Context {W : Type} `{!Ec2 W, !Ec2Laws W} (iteritems : dict (list string) → dict (list string)).
Context (params : InstanceParams) (i0 : string) (x0 : Inst).
Context (Hout : ¬ (in_set params x0 ∧ gone (inst_state x0) = false)).
Implicit Types w : W.

Definition untouched w : Prop := ∃ y, account w !! i0 = Some y ∧ settled x0 y.

Lemma kept_untouched w w' : kept w w' i0 → untouched w → untouched w'.
Proof.
  intros Hk (y & Hy & Hs). unfold kept in Hk. rewrite Hy in Hk. inversion Hk as [? z Hz Ez E|]; subst.
  exists z. split; [done|]. by etransitivity.
Qed.

Lemma attribute_keeps {A} (f : Inst → A) i : keeps untouched (attribute f i) (λ _, True).
Proof. apply keeps_any. intros w. by rewrite attribute_world. Qed.

Lemma find_instances_keeps r :
  keeps untouched (find_instances r (project params) (namespace params) (Some (group params))) (λ l, i0 ∉ l).
Proof.
  intros w Hw. destruct (find_instances_spec params r w) as (l & -> & _ & Hl). split; [done|].
  intros ? [= <-] Hin. apply Hl in Hin as (x & Hx & _ & (Hp & Hn & Hg) & Hgone).
  destruct Hw as (y & Hy & _ & Htags & Hst). rewrite Hx in Hy. injection Hy as ->.
  apply Hout. unfold in_set. by rewrite Htags, Hst.
Qed.

Lemma terminate_keeps i r aw : i ≠ i0 → keeps untouched (terminate i r aw) (λ _, True).
Proof.
  intros Hi. eapply keeps_bind.
  { apply keeps_any. intros w. apply kept_untouched. by apply terminate_others. }
  intros _ _. eapply keeps_bind; [apply attribute_keeps|]. intros request _. eapply keeps_bind.
  - instantiate (1 := λ _, True). destruct request as [id|]; [destruct (str_truth id)|]; try by apply keeps_ret.
    apply keeps_any. intros w. apply kept_untouched. apply cancel_same.
  - intros _ _. by apply keeps_ret.
Qed.

Definition clean (m : Managing) : Prop := i0 ∉ (tag_ids m).*1.

Lemma sort_instance_keeps r acc i :
  i ≠ i0 → clean acc.2 → keeps untouched (sort_instance r acc i) (λ acc, clean acc.2).
Proof.
  destruct acc as [valid m]. intros Hi Hm. eapply keeps_bind; [apply attribute_keeps|]. intros t _.
  assert (keeps untouched (let? h := host_info i in let? st := terminate i r (stopped m) in
    ret (valid, mkManaging (hosts m) (to_terminate m ++ [h]) (tag_ids m) true (launched m) st))
    (λ acc, clean acc.2)) as Hstop.
  { eapply keeps_bind; [apply attribute_keeps|]. intros h _.
    eapply keeps_bind; [by apply terminate_keeps|]. intros st _. by apply keeps_ret. }
  destruct t as [t|]; [|done]. destruct (existsb (str_eqb t) valid); [by apply keeps_ret|done].
Qed.

Lemma launch_keeps n r aw : keeps untouched (launch params n r aw) (λ p, i0 ∉ p.1).
Proof.
  intros w Hw. unfold launch. destruct (launch_spec_Ok (image_of r w) params n) as (spec & Hspec & _).
  unfold act_bind at 1, lift. rewrite Hspec. unfold act_bind.
  assert (untouched (create_instances r spec w).2) as Hc.
  { eapply kept_untouched; [|exact Hw]. apply create_old. destruct Hw as (y & -> & _). by eexists. }
  destruct (create_instances r spec w) as [[l|e] w1] eqn:E; cbn; [|by split].
  split; [done|]. intros a [= <-] Hin. cbn in Hin.
  destruct (create_new _ _ _ _ _ E) as (_ & _ & Hnew & _). destruct (Hnew i0 Hin) as [Hnone _].
  destruct Hw as (y & Hy & _). by rewrite Hy in Hnone.
Qed.

Lemma manage_region_keeps ids m r :
  clean m → keeps untouched (manage_region params ids m r) clean.
Proof.
  intros Hm. eapply keeps_bind; [apply find_instances_keeps|]. intros l Hl.
  eapply keeps_bind.
  { apply (keeps_fold _ _ (λ acc, clean acc.2)); [done|]. intros acc i Hi Hacc.
    apply sort_instance_keeps; [|done]. by intros ->. }
  intros [valid m1] Hm1. destruct valid as [|v valid]; [by apply keeps_ret|].
  eapply keeps_bind; [apply launch_keeps|]. intros [new la] Hnew. apply keeps_ret.
  unfold clean. cbn -[zip]. rewrite fmap_app. intros [Hin|Hin]%elem_of_app; [by apply Hm1|].
  apply Hnew. apply list_elem_of_fmap in Hin as ([i t] & -> & Hin). by apply elem_of_zip_l in Hin.
Qed.

Lemma wait_keeps ev update aw : keeps untouched (wait iteritems ev update aw) (λ _, True).
Proof.
  apply (keeps_fold _ _ (λ _, True)); [done|]. intros left [r l] _ _. eapply keeps_bind.
  { apply keeps_any. intros w. apply kept_untouched, wait_same. }
  intros _ _. eapply keeps_bind; [|intros _ _; by apply keeps_ret].
  instantiate (1 := λ _, True). destruct update; [|by apply keeps_ret].
  apply keeps_each. intros; apply attribute_keeps.
Qed.

Lemma manage_keeps regions count : keeps untouched (manage_instances iteritems regions params count) (λ _, True).
Proof.
  eapply keeps_bind.
  { apply (keeps_fold _ _ clean); [by apply not_elem_of_nil|]. intros m r _. apply manage_region_keeps. }
  intros m Hm. eapply keeps_bind; [apply wait_keeps|]. intros _ _. eapply keeps_bind.
  { apply keeps_each. intros [i t] Hi. apply keeps_any. intros w. apply kept_untouched, tags_others. cbn.
    intros ->. apply Hm. apply list_elem_of_fmap. by exists (i0, t). }
  intros _ _. eapply keeps_bind; [apply wait_keeps|]. intros _ _. eapply keeps_bind.
  { apply keeps_mapM. intros; apply attribute_keeps. }
  intros act _. by apply keeps_ret.
Qed.
End Outside.

(** ** Lemmas: convergence *)

Section Converge.
Context {W : Type} `{!Ec2 W, !Ec2Laws W, !Ec2Up W} (iteritems : dict (list string) → dict (list string)).
Context (Hitems : ∀ d, iteritems d ≡ₚ d) (params : InstanceParams).
Implicit Types w : W.

(** Nothing is lost, and no instance changes its region or its tags. *)
Definition grows w w' : Prop :=
  ∀ i x, account w !! i = Some x →
    ∃ y, account w' !! i = Some y ∧ inst_region y = inst_region x ∧ inst_tags y = inst_tags x.

(** Outside of a region, and of what is new in it, nothing changes. *)
Record within (r : string) w w' : Prop := {
  within_grows : grows w w';
  within_others i x : account w !! i = Some x → inst_region x ≠ r → kept w w' i;
  within_new i y : account w !! i = None → account w' !! i = Some y → inst_region y = r
}.

Lemma kept_Some w w' i x :
  kept w w' i → account w !! i = Some x → ∃ y, account w' !! i = Some y ∧ settled x y.
Proof. unfold kept. intros Hk Hx. rewrite Hx in Hk. inversion Hk; subst. eauto. Qed.

Lemma kept_sym w w' i : kept w w' i → kept w' w i.
Proof. unfold kept. by intros []; constructor. Qed.

Lemma same_grows w w' : same w w' → grows w w'.
Proof. intros Hs i x Hx. destruct (kept_Some _ _ _ _ (Hs i) Hx) as (y & Hy & Hr & Ht & _). eauto. Qed.

#[global] Instance grows_preorder : PreOrder grows.
Proof.
  split; [intros w i x Hx; eauto|]. intros w1 w2 w3 H1 H2 i x Hx.
  destruct (H1 i x Hx) as (y & Hy & Hr & Ht). destruct (H2 i y Hy) as (z & Hz & Hr' & Ht').
  exists z. by rewrite Hr', Ht'.
Qed.

#[global] Instance same_equiv : Equivalence (same (W := W)).
Proof.
  split.
  - intros w i. unfold kept. destruct (account w !! i); by constructor.
  - intros w w' H i. apply kept_sym, H.
  - intros w1 w2 w3 H1 H2 i. specialize (H1 i). specialize (H2 i). unfold kept in *.
    destruct H1; inversion H2; subst; constructor. by etransitivity.
Qed.

#[global] Instance within_preorder r : PreOrder (within r).
Proof.
  split.
  - intros w. split; [done| |congruence]. intros; apply (same_equiv.(Equivalence_Reflexive) w).
  - intros w1 w2 w3 [g1 o1 n1] [g2 o2 n2]. split; [by etransitivity| |].
    + intros i x Hx Hr. pose proof (o1 i x Hx Hr) as K1. destruct (g1 i x Hx) as (y & Hy & Hry & _).
      pose proof (o2 i y Hy ltac:(congruence)) as K2. unfold kept in *.
      rewrite Hx, Hy in *. destruct (account w3 !! i); inversion K1; inversion K2; subst; constructor.
      by etransitivity.
    + intros i z Hn Hz. destruct (account w2 !! i) as [y|] eqn:Hy; [|by eapply n2].
      destruct (g2 i y Hy) as (z' & Hz' & Hr & _). rewrite Hz in Hz'. injection Hz' as <-.
      rewrite Hr. by eapply n1.
Qed.

Lemma same_within r w w' : same w w' → within r w w'.
Proof.
  intros Hs. split; [by apply same_grows|intros; apply Hs|]. intros i y Hn Hy.
  pose proof (Hs i) as Hk. unfold kept in Hk. rewrite Hn, Hy in Hk. inversion Hk.
Qed.

Lemma mine_kept r w w' i : kept w w' i → mine params r w i → mine params r w' i.
Proof.
  intros Hk (x & Hx & Hr & Hs & Hg). destruct (kept_Some _ _ _ _ Hk Hx) as (y & Hy & Er & Et & Eg).
  exists y. unfold in_set in *. by rewrite <-Et, <-Er, <-Eg.
Qed.

Lemma mine_same r w w' i : same w w' → mine params r w i ↔ mine params r w' i.
Proof. intros Hs. split; apply mine_kept; [|apply kept_sym]; apply Hs. Qed.

Lemma mine_within r r' w w' i : within r w w' → r ≠ r' → mine params r' w i ↔ mine params r' w' i.
Proof.
  intros [Hg Ho Hn] Hne. split.
  - intros Hm. eapply mine_kept; [|exact Hm]. destruct Hm as (x & Hx & Hr & _). apply (Ho i x Hx). congruence.
  - intros Hm. destruct Hm as (y & Hy & Hr & Hrest). destruct (account w !! i) as [x|] eqn:Hx.
    + destruct (Hg i x Hx) as (y' & Hy' & Hr' & _). rewrite Hy in Hy'. injection Hy' as <-.
      apply (mine_kept r' w'); [apply kept_sym; eapply Ho; eauto; congruence|]. by exists y.
    + pose proof (Hn i y Hx Hy). congruence.
Qed.

Lemma id_tag_grows w w' i : grows w w' → is_Some (account w !! i) → id_tag w' i = id_tag w i.
Proof.
  intros Hg [x Hx]. destruct (Hg i x Hx) as (y & Hy & _ & Ht). unfold id_tag. rewrite Hx, Hy. cbn. by rewrite Ht.
Qed.

Lemma mine_Some r w i : mine params r w i → is_Some (account w !! i).
Proof. intros (x & -> & _). by eexists. Qed.

Lemma grows_Some w w' i : grows w w' → is_Some (account w !! i) → is_Some (account w' !! i).
Proof. intros Hg [x Hx]. destruct (Hg i x Hx) as (y & -> & _). by eexists. Qed.

(** What is awaited is there. *)
Definition there w (d : dict (list string)) : Prop :=
  ∀ r l i, (r, l) ∈ d → i ∈ l → is_Some (account w !! i).

Lemma there_grows w w' d : grows w w' → there w d → there w' d.
Proof. intros Hg Hd r l i Hl Hi. eapply grows_Some; eauto. Qed.

Lemma there_add w d i r : there w d → is_Some (account w !! i) → there w (add_instance i r d).
Proof.
  intros Hd Hi r' l j. unfold add_instance.
  assert (∀ v d', (r', l) ∈ dset r v d' → (r', l) ∈ d' ∨ l = v) as Hset.
  { intros v d'. induction d' as [|[k u] d' IH]; cbn; [set_solver|]. destruct (str_eqb r k); set_solver. }
  intros [Hl|Hl]%Hset Hj; [by eapply Hd|]. subst l. apply elem_of_app in Hj as [Hj|Hj]; [|set_solver].
  destruct (dget r d) as [v|] eqn:E; cbn in Hj; [|set_solver]. apply dget_Some_elem in E. by eapply Hd.
Qed.

Lemma there_add_list w d l r :
  there w d → (∀ i, i ∈ l → is_Some (account w !! i)) → there w (foldl (λ acc i, add_instance i r acc) d l).
Proof.
  revert d. induction l as [|i l IH]; intros d Hd Hl; cbn; [done|].
  apply IH; [|set_solver]. apply there_add; set_solver.
Qed.

Lemma wait_runs ev aw w : there w aw → runs (wait iteritems ev true aw) w (λ _ w', same w w').
Proof.
  intros Haw. unfold wait. eapply runs_mono.
  - apply (runs_fold _ (λ _ l _ w1, same w w1 ∧ there w1 l) []).
    + split; [done|]. intros r l i Hl. eapply Haw. by rewrite <-Hitems.
    + intros _ [r l] todo left w1 [Hs Hth]. cbv beta iota.
      destruct (wait_Ok ev r l w1) as [w2 Hw2]; [intros; eapply Hth; [apply list_elem_of_here|done]|].
      pose proof (wait_same ev r l w1) as Hs2. rewrite Hw2 in Hs2. cbn in Hs2.
      assert (each (attribute (λ _, tt)) l w2 = (Ok tt, w2)) as He.
      { assert (∀ i, i ∈ l → is_Some (account w2 !! i)) as Hl.
        { intros i Hi. eapply grows_Some; [by apply same_grows|]. eapply Hth; [apply list_elem_of_here|done]. }
        clear -Hl. induction l as [|i l IH]; cbn; [done|]. destruct (Hl i) as [x Hx]; [apply list_elem_of_here|].
        unfold act_bind. rewrite (attribute_Some _ _ _ _ Hx). apply IH. set_solver. }
      exists (ddel r left), w2. unfold act_bind. rewrite Hw2, He. split; [done|].
      split; [by etransitivity|]. eapply there_grows; [by apply same_grows|]. intros r' l' j Hl'.
      eapply Hth. by apply list_elem_of_further.
  - by intros _ w' [? _].
Qed.

(** A terminated instance leaves the set; the others stay as they are. *)
Lemma terminate_runs i r aw w :
  mine params r w i →
  runs (terminate i r aw) w (λ aw' w',
    aw' = add_instance i r aw ∧ within r w w' ∧ ¬ mine params r w' i ∧ ∀ j, i ≠ j → kept w w' j).
Proof.
  intros (x & Hx & Hr & Hset & Hlive). unfold terminate.
  destruct (terminate_Ok i w) as [w1 H1]; [by eexists|].
  destruct (terminate_one _ _ _ _ Hx H1) as (y & Hy & Hry & Hty & Hgy).
  assert (∀ j, i ≠ j → kept w w1 j) as Hk1.
  { intros j Hj. pose proof (terminate_others i w j Hj) as K. by rewrite H1 in K. }
  assert (within r w w1) as Hw1.
  { split.
    - intros j z Hz. destruct (decide (i = j)) as [<-|Hj].
      + rewrite Hx in Hz. injection Hz as <-. eauto.
      + destruct (kept_Some _ _ _ _ (Hk1 j Hj) Hz) as (u & Hu & ? & ? & _). eauto.
    - intros j z Hz Hrz. apply Hk1. intros <-. congruence.
    - intros j z Hn Hz. pose proof (Hk1 j ltac:(congruence)) as K. unfold kept in K. rewrite Hn, Hz in K.
      inversion K. }
  assert (∃ w2, (match spot_instance_request_id y with
      | Some id => if str_truth id then cancel_spot_instance_requests r id else ret tt
      | None => ret tt end) w1 = (Ok tt, w2) ∧ same w1 w2) as (w2 & H2 & Hs2).
  { destruct (spot_instance_request_id y) as [id|]; [|by exists w1]. destruct (str_truth id); [|by exists w1].
    destruct (cancel_Ok r id w1) as [w2 H2]. exists w2. split; [done|].
    pose proof (cancel_same r id w1) as K. by rewrite H2 in K. }
  exists (add_instance i r aw), w2. unfold act_bind. rewrite H1, (attribute_Some _ _ _ _ Hy), H2.
  split; [done|]. split; [done|]. split; [etransitivity; [exact Hw1|by apply same_within]|]. split.
  - intros Hm. apply (mine_same r w1 w2 i Hs2) in Hm as (y' & Hy' & _ & _ & Hg). congruence.
  - intros j Hj. specialize (Hs2 j). specialize (Hk1 j Hj). unfold kept in *.
    destruct Hk1; inversion Hs2; subst; constructor. by etransitivity.
Qed.

(** *** One region *)

(** What is known while the instances of a region are sorted: [keep] are the ones kept
    with their numbers. *)
Record sorting (r : string) (ids : list string) m0 w0 (keep : list (string * string))
    (seen todo : list string) (acc : list string * Managing) w : Prop := {
  so_within : within r w0 w;
  so_no_new i : account w0 !! i = None → account w !! i = None;
  so_ids : keep.*2 ++ acc.1 ≡ₚ ids;
  so_nodup : NoDup (seen ++ todo);
  so_keep : keep.*1 `sublist_of` seen;
  so_mine i : mine params r w i ↔ i ∈ keep.*1 ∨ i ∈ todo;
  so_tags i t : (i, t) ∈ keep → id_tag w i = Some t;
  so_hosts : hosts acc.2 = hosts m0 ++ keep.*1;
  so_tag_ids : tag_ids acc.2 = tag_ids m0;
  so_launched : there w (launched acc.2);
  so_stopped : there w (stopped acc.2)
}.

Lemma sorting_new r ids m0 w0 keep seen i todo acc w :
  sorting r ids m0 w0 keep seen (i :: todo) acc w →
  mine params r w i ∧ i ∉ keep.*1 ∧ i ∉ todo ∧ NoDup ((seen ++ [i]) ++ todo).
Proof.
  intros [_ _ _ Hnd Hkeep Hmine _ _ _ _ _]. assert (Hnd' := Hnd). apply NoDup_app in Hnd' as (_ & Hd & [Hi _]%NoDup_cons).
  split; [apply Hmine; set_solver|]. split.
  - intros Hin. apply (elem_of_sublist _ _ _ Hin) in Hkeep. apply (Hd i Hkeep), list_elem_of_here.
  - split; [done|]. by rewrite <-app_assoc.
Qed.

(** The instance has one of the numbers that are left: it is kept. *)
Lemma sorting_keep r ids m0 w0 keep seen i todo valid m w t :
  sorting r ids m0 w0 keep seen (i :: todo) (valid, m) w → t ∈ valid → id_tag w i = Some t →
  sorting r ids m0 w0 (keep ++ [(i, t)]) (seen ++ [i]) todo
    (remove_first t valid, mkManaging (hosts m ++ [i]) (to_terminate m) (tag_ids m) (has_changed m)
       (add_instance i r (launched m)) (stopped m)) w.
Proof.
  intros Hs Ht Htag. destruct (sorting_new _ _ _ _ _ _ _ _ _ _ Hs) as (Hm & _ & _ & Hnd').
  destruct Hs as [Hwi Hnn Hids Hnd Hkeep Hmine Htags Hho Hti Hla Hst]. cbn [fst snd] in *.
  split; cbn [fst snd hosts tag_ids launched stopped]; try done.
  - rewrite fmap_app, <-app_assoc. cbn. by rewrite remove_first_perm.
  - rewrite fmap_app. by apply sublist_app.
  - intros j. rewrite Hmine, fmap_app. cbn. set_solver.
  - intros j u [Hj|Hj]%elem_of_app; [by apply Htags|]. by apply list_elem_of_singleton in Hj as [= -> ->].
  - by rewrite Hho, fmap_app, app_assoc.
  - apply there_add; [done|by eapply mine_Some].
Qed.

(** It has not: it is terminated. *)
Lemma sorting_stop r ids m0 w0 keep seen i todo valid m w :
  sorting r ids m0 w0 keep seen (i :: todo) (valid, m) w →
  runs (let? h := host_info i in let? st := terminate i r (stopped m) in
    ret (valid, mkManaging (hosts m) (to_terminate m ++ [h]) (tag_ids m) true (launched m) st)) w
    (sorting r ids m0 w0 keep (seen ++ [i]) todo).
Proof.
  intros Hs. destruct (sorting_new _ _ _ _ _ _ _ _ _ _ Hs) as (Hm & Hik & Hit & Hnd').
  destruct Hs as [Hwi Hnn Hids Hnd Hkeep Hmine Htags Hho Hti Hla Hst]. cbn [fst snd] in *.
  assert (Hm' := Hm). destruct Hm' as (x & Hx & _).
  unfold runs. unfold act_bind at 1. unfold host_info. rewrite (attribute_Some _ _ _ _ Hx).
  eapply runs_bind; [by apply terminate_runs|]. intros aw w' (-> & Hw' & Hgone & Hoth). apply runs_ret.
  assert (grows w w') as Hg by apply Hw'.
  split; cbn [fst snd hosts tag_ids launched stopped]; try done.
  - by etransitivity.
  - intros j Hj. specialize (Hnn j Hj). pose proof (Hoth j ltac:(congruence)) as K.
    unfold kept in K. rewrite Hnn in K. by inversion K.
  - by apply sublist_inserts_r.
  - intros j. destruct (decide (i = j)) as [<-|Hj]; [tauto|]. split.
    + intros Hmj. assert (mine params r w j) as Hj' by (eapply mine_kept; [by apply kept_sym, Hoth|done]).
      apply Hmine in Hj'. set_solver.
    + intros Hj'. eapply mine_kept; [by apply Hoth|]. apply Hmine. set_solver.
  - intros j u Hj. rewrite (id_tag_grows w w'); [by apply Htags|done|]. apply (mine_Some r), Hmine. left.
    apply list_elem_of_fmap. by exists (j, u).
  - by eapply there_grows.
  - apply there_add; [by eapply there_grows|]. eapply grows_Some; [done|by eexists].
Qed.

Lemma sort_instance_runs r ids m0 w0 keep seen i todo acc w :
  sorting r ids m0 w0 keep seen (i :: todo) acc w →
  runs (sort_instance r acc i) w (λ acc' w', ∃ keep', sorting r ids m0 w0 keep' (seen ++ [i]) todo acc' w').
Proof.
  destruct acc as [valid m]. intros Hs. destruct (sorting_new _ _ _ _ _ _ _ _ _ _ Hs) as [(x & Hx & _) _].
  unfold sort_instance, runs. unfold act_bind at 1. rewrite (attribute_Some _ _ _ _ Hx).
  pose proof (sorting_stop _ _ _ _ _ _ _ _ _ _ _ Hs) as Hstop.
  eapply (runs_mono _ _ _ (λ acc' w', ∃ keep', sorting r ids m0 w0 keep' (seen ++ [i]) todo acc' w')) in Hstop; [|eauto].
  destruct (get_tag (inst_tags x) "ID") as [t|] eqn:Et; [|exact Hstop].
  destruct (existsb (str_eqb t) valid) eqn:Ev; [|exact Hstop].
  apply existsb_exists in Ev as (t' & Hin & <-%str_eqb_eq). apply list_elem_of_In in Hin.
  eexists _, _. split; [done|]. eexists. apply sorting_keep; [done|done|]. unfold id_tag. by rewrite Hx.
Qed.

(** A region is done: [l] are its live instances with their numbers, which they carry or
    will be given. *)
Record region_ok w (pending : list (string * string)) (ids : list string) (r : string)
    (l : list (string * string)) : Prop := {
  ro_ids : l.*2 ≡ₚ ids;
  ro_nodup : NoDup l.*1;
  ro_mine i : mine params r w i ↔ i ∈ l.*1;
  ro_tags i t : (i, t) ∈ l → (i, t) ∈ pending ∨ (i ∉ pending.*1 ∧ id_tag w i = Some t)
}.

Lemma region_ok_later w w' pending new ids r r' l :
  within r w w' → r ≠ r' → (∀ i, i ∈ new.*1 → account w !! i = None) →
  region_ok w pending ids r' l → region_ok w' (pending ++ new) ids r' l.
Proof.
  intros Hw Hne Hnew [Hids Hnd Hmine Htags]. split; [done|done| |].
  - intros i. by rewrite <-(mine_within r r' w w').
  - intros i t Hit. assert (i ∈ l.*1) as Hi by (apply list_elem_of_fmap; by exists (i, t)).
    apply Hmine, mine_Some in Hi. destruct (Htags i t Hit) as [?|[Hp Ht]]; [set_solver|]. right. split.
    + rewrite fmap_app. intros [?|Hin]%elem_of_app; [done|]. apply Hnew in Hin. destruct Hi; congruence.
    + rewrite (id_tag_grows w w'); [done|apply Hw|done].
Qed.

Lemma regions_ok_later w w' pending new ids r seen L :
  within r w w' → r ∉ seen → (∀ i, i ∈ new.*1 → account w !! i = None) →
  Forall2 (λ r l, region_ok w pending (ids r) r l) seen L →
  Forall2 (λ r l, region_ok w' (pending ++ new) (ids r) r l) seen L.
Proof.
  intros Hw Hr Hnew HL. induction HL as [|r' l' seen' L' Hok HL IH]; constructor.
  - eapply region_ok_later; [exact Hw|set_solver|done|done].
  - apply IH. set_solver.
Qed.

(** New instances of a region, in a set that has the ones of [keep]. *)
Lemma launch_runs n r aw w :
  r ∈ region_codes → there w aw →
  runs (launch params n r aw) w (λ p w',
    length p.1 = n ∧ NoDup p.1 ∧ within r w w' ∧ there w' p.2 ∧
    (∀ i, i ∈ p.1 → account w !! i = None) ∧ (∀ i, mine params r w' i ↔ mine params r w i ∨ i ∈ p.1)).
Proof.
  intros Hr Haw. unfold launch.
  destruct (launch_spec_Ok (image_of r w) params n) as (spec & Hspec & Himg & Hmin & Hmax & Htags).
  destruct (create_Ok r spec w) as (new & w' & Hc).
  { rewrite Himg. by apply find_ubuntu_ami_Some, images_there. }
  destruct (create_new _ _ _ _ _ Hc) as (Hlen & Hnd & Hnew & Hnone).
  assert (∀ i, is_Some (account w !! i) → kept w w' i) as Hold.
  { intros i Hi. pose proof (create_old r spec w i Hi) as K. by rewrite Hc in K. }
  assert (within r w w') as Hwi.
  { split.
    - intros i x Hx. destruct (kept_Some w w' i x) as (y & ? & ? & ? & ?); [apply Hold; by eexists|done|eauto].
    - intros i x Hx _. apply Hold. by eexists.
    - intros i y Hn Hy. destruct (decide (i ∈ new)) as [Hi|Hi]; [|by rewrite (Hnone i Hi Hn) in Hy].
      destruct (Hnew i Hi) as (_ & x & Hx & Hreg & _). congruence. }
  eexists (new, _), w'. unfold runs, act_bind, lift. rewrite Hspec, Hc. split; [done|]. cbn [fst snd].
  split; [rewrite Hlen; congruence|]. split; [done|]. split; [done|]. split.
  { apply there_add_list; [by eapply there_grows; [apply Hwi|]|].
    intros i Hi. destruct (Hnew i Hi) as (_ & x & -> & _). by eexists. }
  split; [intros i Hi; by apply Hnew|]. intros i. split.
  - intros Hm. destruct (decide (i ∈ new)) as [Hi|Hi]; [by right|left].
    eapply mine_kept; [apply kept_sym, Hold|exact Hm]. destruct (account w !! i) eqn:E; [by eexists|].
    apply mine_Some in Hm as [x Hx]. by rewrite (Hnone i Hi E) in Hx.
  - intros [Hm|Hi]; [eapply mine_kept; [apply Hold; by eapply mine_Some|done]|].
    destruct (Hnew i Hi) as (_ & x & Hx & Hreg & Hg & Ht). exists x. unfold in_set. by rewrite (Ht _ Htags).
Qed.

Lemma zip_fst {A B} (l : list A) (k : list B) : length l = length k → (zip l k).*1 = l.
Proof. intros H. apply fst_zip. lia. Qed.

Lemma zip_snd {A B} (l : list A) (k : list B) : length l = length k → (zip l k).*2 = k.
Proof. intros H. apply snd_zip. lia. Qed.

(** What is known between the regions. *)
Record managed (ids : string → list string) (seen todo : list string) (L : list (list (string * string))) m w
    : Prop := {
  ma_codes r : r ∈ todo → r ∈ region_codes;
  ma_nodup : NoDup (seen ++ todo);
  ma_regions : Forall2 (λ r l, region_ok w (tag_ids m) (ids r) r l) seen L;
  ma_hosts : hosts m = (concat L).*1;
  ma_tag_ids : NoDup (tag_ids m).*1;
  ma_pending i : i ∈ (tag_ids m).*1 → ∃ x, account w !! i = Some x ∧ inst_region x ∈ seen;
  ma_launched : there w (launched m);
  ma_stopped : there w (stopped m)
}.

Lemma sort_region_runs r ids seen todo L m w :
  managed ids seen (r :: todo) L m w →
  ∃ l, find_instances r (project params) (namespace params) (Some (group params)) w = (Ok l, w) ∧
  runs (act_fold (sort_instance r) (ids r, m) l) w (λ acc w', ∃ keep, sorting r (ids r) m w keep l [] acc w').
Proof.
  intros [Hco Hnd HL Hho Hti Hpe Hla Hst].
  destruct (find_instances_spec params r w) as (l & Hl & Hlnd & Hlm). exists l. split; [done|].
  apply (runs_fold _ (λ seen todo acc w', ∃ keep, sorting r (ids r) m w keep seen todo acc w') []).
  - exists []. split; cbn; try done; [|set_solver|by rewrite app_nil_r].
    intros i. rewrite <-Hlm. set_solver.
  - intros seen' i todo' acc w' [keep Hs]. by eapply sort_instance_runs.
Qed.

(** The region is done once there is an instance for each number that was left. *)
Lemma region_done r ids seen todo L m w l keep valid m1 w1 new w2 ch la :
  managed ids seen (r :: todo) L m w → sorting r (ids r) m w keep l [] (valid, m1) w1 →
  length new = length valid → NoDup new → within r w1 w2 → there w2 la →
  (∀ i, i ∈ new → account w1 !! i = None) → (∀ i, mine params r w2 i ↔ mine params r w1 i ∨ i ∈ new) →
  managed ids (seen ++ [r]) todo (L ++ [keep ++ zip new valid])
    (mkManaging (hosts m1 ++ map fst (zip new valid)) (to_terminate m1) (tag_ids m1 ++ zip new valid) ch la (stopped m1)) w2.
Proof.
  intros [Hco Hnd HL Hho Hti Hpe Hla Hst] [Swi Snn Sids Snd Skeep Smine Stags Sho Sti Sla Sst] Hlen Hnew Hwi Hla2 Hfresh Hm2.
  cbn [fst snd] in *. assert (within r w w2) as Hw by by etransitivity.
  assert (∀ i, i ∈ new → account w !! i = None) as Hfresh0.
  { intros i Hi. apply Hfresh in Hi. destruct (account w !! i) as [x|] eqn:E; [|done].
    destruct (within_grows _ _ _ Swi i x E) as (y & Hy & _). congruence. }
  assert (r ∉ seen) as Hr by (apply NoDup_app in Hnd as (_ & Hd & _); intros Hin; by apply (Hd r Hin), list_elem_of_here).
  assert (∀ i, i ∈ keep.*1 → mine params r w1 i) as Hk by (intros i Hi; apply Smine; by left).
  assert (∀ i, mine params r w2 i → i ∉ (tag_ids m).*1) as Hnp.
  { intros i (x & Hx & Hrx & _) Hin. destruct (Hpe i Hin) as (x0 & Hx0 & Hs).
    destruct (within_grows _ _ _ Hw i x0 Hx0) as (y & Hy & Hry & _). congruence. }
  assert (∀ i, i ∈ keep.*1 → i ∉ new) as Hdis.
  { intros i Hi Hn. apply Hk, mine_Some in Hi as [x Hx]. by rewrite (Hfresh i Hn) in Hx. }
  assert (NoDup keep.*1) as Hkn by (eapply sublist_NoDup; [|exact Skeep]; by rewrite app_nil_r in Snd).
  split; cbn [hosts tag_ids launched stopped].
  - intros r' Hr'. apply Hco. by apply list_elem_of_further.
  - by rewrite <-app_assoc.
  - rewrite Sti. apply Forall2_app.
    + eapply regions_ok_later; try done. intros i. rewrite zip_fst by done. apply Hfresh0.
    + constructor; [|constructor]. split.
      * rewrite fmap_app, zip_snd by done. done.
      * rewrite fmap_app, zip_fst by done. apply NoDup_app. naive_solver.
      * intros i. rewrite Hm2, Smine, fmap_app, zip_fst by done. set_solver.
      * intros i t [Hi|Hi]%elem_of_app; [right|set_solver].
        assert (i ∈ keep.*1) as Hik by (apply list_elem_of_fmap; by exists (i, t)). split.
        -- rewrite fmap_app, zip_fst by done. intros [Hin|Hin]%elem_of_app; [|by apply (Hdis i)].
           apply (Hnp i); [|done]. apply Hm2. left. by apply Hk.
        -- rewrite (id_tag_grows w1 w2); [by apply Stags|apply Hwi|]. by eapply mine_Some, Hk.
  - rewrite concat_app, Sho, Hho, fmap_app. cbn. by rewrite app_nil_r, fmap_app, <-app_assoc.
  - rewrite Sti, fmap_app, zip_fst by done. apply NoDup_app. split; [done|]. split; [|done].
    intros i Hi Hn. destruct (Hpe i Hi) as (x & Hx & _). by rewrite (Hfresh0 i Hn) in Hx.
  - intros i. rewrite Sti, fmap_app, zip_fst by done. intros [Hi|Hi]%elem_of_app.
    + destruct (Hpe i Hi) as (x & Hx & Hs). destruct (within_grows _ _ _ Hw i x Hx) as (y & Hy & Hry & _).
      exists y. rewrite Hry. set_solver.
    + assert (mine params r w2 i) as (x & Hx & Hrx & _) by (apply Hm2; by right). exists x. set_solver.
  - done.
  - eapply there_grows; [apply Hwi|done].
Qed.

Lemma manage_region_runs ids seen r todo L m w :
  managed ids seen (r :: todo) L m w →
  runs (manage_region params ids m r) w (λ m' w', ∃ L', managed ids (seen ++ [r]) todo L' m' w').
Proof.
  intros Hm. destruct (sort_region_runs _ _ _ _ _ _ _ Hm) as (l & Hl & Hsort).
  unfold manage_region. unfold runs. unfold act_bind at 1. rewrite Hl.
  eapply runs_bind; [exact Hsort|]. intros [valid m1] w1 [keep Hs]. cbv beta iota.
  destruct valid as [|v valid].
  - apply runs_ret. eexists.
    pose proof (region_done _ _ _ _ _ _ _ _ _ _ _ _ [] w1 (has_changed m1) (launched m1) Hm Hs) as Hd.
    cbn [zip map app zip_with] in Hd. rewrite !app_nil_r in Hd. destruct m1. eapply Hd; try done.
    + constructor.
    + apply Hs.
    + intros i []%not_elem_of_nil.
    + intros i. set_solver.
  - eapply runs_bind; [apply launch_runs; [apply Hm, list_elem_of_here|apply Hs]|].
    intros [new la] w2 (Hlen & Hnd & Hwi & Hla & Hfresh & Hm2). apply runs_ret. eexists. by eapply region_done.
Qed.

(** A tagged instance has its number, and is in the set it was in. *)
Lemma tag_runs i t w :
  is_Some (account w !! i) →
  runs (tag_instance params (i, t)) w (λ _ w',
    (∀ r j, mine params r w j ↔ mine params r w' j) ∧ id_tag w' i = Some t ∧ ∀ j, i ≠ j → kept w w' j).
Proof.
  intros [x Hx]. unfold tag_instance. cbn [fst snd].
  destruct (tags_Ok i [("Name", name_tag params t); ("ID", t)] w) as [w' Hw']; [by eexists|].
  destruct (tags_one _ _ _ _ _ Hx Hw') as (y & Hy & Hr & Ht & Hg).
  assert (∀ j, i ≠ j → kept w w' j) as Hk.
  { intros j Hj. pose proof (tags_others i [("Name", name_tag params t); ("ID", t)] w j Hj) as K. by rewrite Hw' in K. }
  assert (∀ k, k ≠ "Name" → k ≠ "ID" → dget k (inst_tags y) = dget k (inst_tags x)) as Hkeep.
  { intros k H1 H2. rewrite Ht. cbn. by rewrite !dget_dset_ne by done. }
  exists tt, w'. split; [done|]. split; [|split; [|done]].
  - intros r j. destruct (decide (i = j)) as [<-|Hj].
    + unfold mine, in_set. rewrite Hx, Hy. split; intros (z & [= <-] & H); eexists; (split; [done|]);
        rewrite ?Hr, ?Hg, ?Hkeep in * by done; done.
    + split; apply mine_kept; [|apply kept_sym]; by apply Hk.
  - unfold id_tag. rewrite Hy. cbn. rewrite get_tag_dget, Ht. cbn. apply dget_dset_eq.
Qed.

Lemma kept_is_Some w w' i : kept w w' i → is_Some (account w !! i) → is_Some (account w' !! i).
Proof. intros Hk [x Hx]. destruct (kept_Some _ _ _ _ Hk Hx) as (y & -> & _). by eexists. Qed.

Lemma kept_id_tag w w' i : kept w w' i → id_tag w' i = id_tag w i.
Proof. unfold kept, id_tag. intros []; cbn; [|done]. by destruct H as (_ & -> & _). Qed.

Lemma kept_trans w1 w2 w3 i : kept w1 w2 i → kept w2 w3 i → kept w1 w3 i.
Proof. unfold kept. intros [] H2; inversion H2; subst; constructor. by etransitivity. Qed.

Lemma each_tag_runs ts w :
  NoDup ts.*1 → (∀ i, i ∈ ts.*1 → is_Some (account w !! i)) →
  runs (each (tag_instance params) ts) w (λ _ w',
    (∀ r i, mine params r w i ↔ mine params r w' i) ∧
    (∀ i t, (i, t) ∈ ts → id_tag w' i = Some t) ∧ (∀ i, i ∉ ts.*1 → kept w w' i)).
Proof.
  revert w. induction ts as [|[i t] ts IH]; intros w Hnd Hsome; cbn [each].
  - apply runs_ret. split; [done|]. split; [set_solver|]. intros i _. apply (same_equiv.(Equivalence_Reflexive) w).
  - apply NoDup_cons in Hnd as [Hi Hnd]. eapply runs_bind; [apply tag_runs, Hsome, list_elem_of_here|].
    intros [] w1 (Hm1 & Ht1 & Hk1). eapply runs_mono; [apply IH; [done|]|].
    + intros j Hj. eapply kept_is_Some; [apply Hk1; by intros <-|]. apply Hsome. by apply list_elem_of_further.
    + intros [] w2 (Hm2 & Ht2 & Hk2). split; [|split].
      * intros r j. by rewrite Hm1.
      * intros j u [[= -> ->]|Hj]%elem_of_cons; [|by apply Ht2]. by rewrite (kept_id_tag w1 w2); [|apply Hk2].
      * intros j Hj. apply not_elem_of_cons in Hj as [Hj Hj']. eapply kept_trans; [by apply Hk1|by apply Hk2].
Qed.

(** *** All regions *)

Lemma id_tags_list w (l : list (string * string)) :
  (∀ i t, (i, t) ∈ l → id_tag w i = Some t) → id_tag w <$> l.*1 = Some <$> l.*2.
Proof.
  induction l as [|[i t] l IH]; intros H; [done|]. cbn. f_equal; [apply H, list_elem_of_here|].
  apply IH. intros; apply H. by apply list_elem_of_further.
Qed.

(** The regions when the pending numbers have been given. *)
Lemma tagged_regions pending ids seen L w w1 :
  (∀ r i, mine params r w i ↔ mine params r w1 i) → (∀ i t, (i, t) ∈ pending → id_tag w1 i = Some t) →
  (∀ i, i ∉ pending.*1 → id_tag w1 i = id_tag w i) →
  Forall2 (λ r l, region_ok w pending (ids r) r l) seen L →
  Forall2 (λ r l, region_ok w1 [] (ids r) r l) seen L.
Proof.
  intros Hm Ht Hk HL. eapply Forall2_impl; [exact HL|]. intros r l [Hids Hnd Hmine Htags]. split; [done|done| |].
  - intros i. by rewrite <-Hm.
  - intros i t Hit. right. split; [set_solver|]. destruct (Htags i t Hit) as [?|[Hp Hi]]; [by apply Ht|].
    by rewrite Hk.
Qed.

Lemma regions_converged regions count L w :
  Forall2 (λ r l, region_ok w [] (region_ids regions count r) r l) region_codes L → converged regions params count w.
Proof.
  intros HL r Hr. apply list_elem_of_lookup_1 in Hr as [n Hn].
  destruct (Forall2_lookup_l _ _ _ _ _ HL Hn) as (l & _ & [Hids Hnd Hmine Htags]).
  exists l.*1. split; [done|]. split; [intros i; by rewrite Hmine|].
  rewrite id_tags_list; [by rewrite Hids|]. intros i t Hit. destruct (Htags i t Hit) as [?|[_ ?]]; [set_solver|done].
Qed.

Lemma regions_active ids rs L w :
  Forall2 (λ r l, region_ok w [] (ids r) r l) rs L →
  (id_tag w <$> (concat L).*1) ≡ₚ (Some <$> concat (ids <$> rs)) ∧
  (∀ i, i ∈ (concat L).*1 → is_Some (account w !! i)).
Proof.
  induction 1 as [|r l rs L [Hids Hnd Hmine Htags] HL [IH1 IH2]]; cbn; [split; [done|set_solver]|].
  rewrite !fmap_app. split.
  - rewrite IH1. apply Permutation_app_tail. rewrite id_tags_list; [by rewrite Hids|].
    intros i t Hit. destruct (Htags i t Hit) as [?|[_ ?]]; [set_solver|done].
  - intros i [Hi|Hi]%elem_of_app; [|by apply IH2]. by eapply mine_Some, Hmine.
Qed.

Lemma host_infos w l :
  (∀ i, i ∈ l → is_Some (account w !! i)) →
  ∃ hs, act_mapM host_info l w = (Ok hs, w) ∧ tag_id <$> hs = id_tag w <$> l.
Proof.
  intros Hl. set (g i := match account w !! i with
    | Some x => mkHostInfo (get_tag (inst_tags x) "ID") (public_ip_address x) "ubuntu"
    | None => mkHostInfo None None "" end).
  exists (map g l). split.
  - apply runs_mapM. intros i Hi. destruct (Hl i Hi) as [x Hx]. unfold host_info.
    rewrite (attribute_Some _ _ _ _ Hx). unfold g. by rewrite Hx.
  - clear Hl. induction l as [|i l IH]; cbn; [done|]. f_equal; [|done]. unfold g, id_tag. by destruct (account w !! i).
Qed.

Lemma manage_runs regions count w :
  runs (manage_instances iteritems regions params count) w (λ out w',
    converged regions params count w' ∧
    (tag_id <$> active out) ≡ₚ (Some <$> concat (region_ids regions count <$> region_codes))).
Proof.
  unfold manage_instances. set (ids := region_ids regions count). eapply runs_bind.
  { apply (runs_fold _ (λ seen todo m w, ∃ L, managed ids seen todo L m w) []).
    - exists []. split; cbn; [done|apply region_codes_NoDup|apply Forall2_nil_2|done|apply NoDup_nil_2|by intros i ?%not_elem_of_nil|..];
      by intros r l i ?%not_elem_of_nil.
    - intros seen r todo m w1 [L Hm]. by eapply manage_region_runs. }
  intros m w1 [L [_ _ HL Hho Hti Hpe Hla Hst]]. cbn [app] in *.
  eapply runs_bind; [by apply wait_runs|]. intros ? w2 Hs2. cbv beta in Hs2. eapply runs_bind.
  { apply each_tag_runs; [done|]. intros i Hi. eapply grows_Some; [by apply same_grows|].
    destruct (Hpe i Hi) as (x & -> & _). by eexists. }
  intros ? w3 (Hm3 & Ht3 & Hk3). eapply runs_bind.
  { apply wait_runs. intros r l i Hl Hi. assert (is_Some (account w2 !! i)) as Hsome.
    { eapply grows_Some; [by apply same_grows|]. by eapply Hst. }
    destruct (decide (i ∈ (tag_ids m).*1)) as [Hin|Hin]; [|eapply kept_is_Some; [by apply Hk3|done]].
    apply list_elem_of_fmap in Hin as ([j t] & -> & Hin). specialize (Ht3 _ _ Hin). unfold id_tag in Ht3.
    cbn. destruct (account w3 !! j); [by eexists|done]. }
  intros ? w4 Hs4. cbv beta in Hs4.
  assert (Forall2 (λ r l, region_ok w4 [] (ids r) r l) region_codes L) as HL4.
  { eapply (tagged_regions (tag_ids m) ids _ _ w1 w4); [..|exact HL].
    - intros r i. by rewrite (mine_same r w1 w2 i Hs2), Hm3, (mine_same r w3 w4 i Hs4).
    - intros i t Hit. rewrite (kept_id_tag w3 w4); [by apply Ht3|apply Hs4].
    - intros i Hi. rewrite (kept_id_tag w3 w4), (kept_id_tag w2 w3), (kept_id_tag w1 w2); auto. }
  destruct (regions_active _ _ _ _ HL4) as [Hact Hsome].
  destruct (host_infos w4 (hosts m)) as (hs & Hhs & Htag); [by rewrite Hho|].
  unfold runs, act_bind, ret. rewrite Hhs. eexists _, _. split; [done|].
  split; [by eapply regions_converged|]. cbn [active]. by rewrite Htag, Hho.
Qed.

(** *** A set that has converged *)

Record idle w (m : Managing) : Prop := {
  id_changed : has_changed m = false;
  id_terminated : to_terminate m = [];
  id_tag_ids : tag_ids m = [];
  id_hosts i : i ∈ hosts m → is_Some (account w !! i);
  id_launched : there w (launched m);
  id_stopped : stopped m = []
}.

Lemma sort_instance_idle r acc i todo w :
  (id_tag w <$> (i :: todo)) ≡ₚ (Some <$> acc.1) → idle w acc.2 →
  runs (sort_instance r acc i) w (λ acc' w', w' = w ∧ (id_tag w <$> todo) ≡ₚ (Some <$> acc'.1) ∧ idle w acc'.2).
Proof.
  destruct acc as [valid m]. cbn [fst snd]. intros Hp [Hc Ht Hti Hh Hl Hs]. rewrite fmap_cons in Hp.
  assert (id_tag w i ∈ (Some <$> valid)) as Hin by (rewrite <-Hp; apply list_elem_of_here).
  apply list_elem_of_fmap in Hin as (t & Et & Hin). unfold id_tag in Et at 1.
  destruct (account w !! i) as [x|] eqn:Hx; [cbn in Et|done].
  unfold sort_instance, runs, act_bind. rewrite (attribute_Some _ _ _ _ Hx), Et.
  replace (existsb (str_eqb t) valid) with true.
  2:{ symmetry. apply existsb_exists. exists t. split; [by apply list_elem_of_In|apply str_eqb_refl]. }
  eexists _, _. split; [done|]. cbn [fst snd]. split; [done|]. split.
  - apply (Permutation_cons_inv (a := Some t)). rewrite <-fmap_cons, remove_first_perm by done.
    rewrite <-Hp. unfold id_tag at 2. rewrite Hx. cbn. by rewrite Et.
  - split; cbn; try done.
    + intros j [Hj|Hj]%elem_of_app; [by apply Hh|]. apply list_elem_of_singleton in Hj as ->. by eexists.
    + apply there_add; [done|by eexists].
Qed.

Lemma manage_region_idle regions count m r w :
  r ∈ region_codes → converged regions params count w → idle w m →
  runs (manage_region params (region_ids regions count) m r) w (λ m' w', w' = w ∧ idle w m').
Proof.
  intros Hr Hc Hm. destruct (Hc r Hr) as (l0 & Hnd0 & Hl0 & Hp0).
  destruct (find_instances_spec params r w) as (l & Hl & Hnd & Hlm).
  assert (l ≡ₚ l0) as Hll by (apply NoDup_Permutation; [done|done|]; intros i; by rewrite Hl0).
  unfold manage_region, runs. unfold act_bind at 1. rewrite Hl. eapply runs_bind.
  { apply (runs_fold _ (λ _ todo acc w', w' = w ∧ (id_tag w <$> todo) ≡ₚ (Some <$> acc.1) ∧ idle w acc.2) []).
    - cbn [fst snd]. by rewrite Hll.
    - intros seen i todo acc w' (-> & Hp & Hi). by apply sort_instance_idle. }
  intros [valid m1] w1 (-> & Hp & Hi). cbn [fst snd] in *. destruct valid as [|v valid]; [by apply runs_ret|].
  by apply Permutation_nil_cons in Hp.
Qed.

Lemma manage_idle regions count w :
  converged regions params count w →
  runs (manage_instances iteritems regions params count) w (λ out w',
    changed out = false ∧ terminated out = [] ∧ same w w').
Proof.
  intros Hc. unfold manage_instances. eapply runs_bind.
  { apply (runs_fold _ (λ _ todo m w', w' = w ∧ idle w m ∧ ∀ r, r ∈ todo → r ∈ region_codes) []).
    - split; [done|]. split; [|done]. split; try done; [by intros i ?%not_elem_of_nil|by intros r l i ?%not_elem_of_nil].
    - intros seen r todo m w' (-> & Hi & Hr). eapply runs_mono; [apply manage_region_idle; [|done..]|].
      + apply Hr, list_elem_of_here.
      + intros m' w' (-> & Hi'). split; [done|]. split; [done|]. intros; apply Hr. by apply list_elem_of_further. }
  intros m w' (-> & [Hch Hte Hti Hh Hla Hst] & _). eapply runs_bind; [by apply wait_runs|].
  intros ? w1 Hs1. cbv beta in Hs1. rewrite Hti. cbn [each]. eapply runs_bind; [by apply (runs_ret _ _ (λ _ w', w' = w1))|].
  intros ? w2 ->. eapply runs_bind; [apply wait_runs|].
  { rewrite Hst. by intros r l i ?%not_elem_of_nil. }
  intros ? w3 Hs3. cbv beta in Hs3. assert (same w w3) as Hs by by etransitivity.
  destruct (host_infos w3 (hosts m)) as (hs & Hhs & _).
  { intros i Hi. eapply kept_is_Some; [apply Hs|by apply Hh]. }
  unfold runs, act_bind, ret. rewrite Hhs. eexists _, _. by split.
Qed.
End Converge.

(** ** Properties *)

(** The instances of other pools, and those that are gone already, are not touched:
    whatever the cloud holds, whichever calls fail and wherever the run stops, an
    instance that does not carry the project, the namespace and the group of the set is
    afterwards where it was, with the tags it had, and live if it was live. *)
Theorem set_leaves_others_alone {W} `{!Ec2 W, !Ec2Laws W} iteritems regions params count (w : W) i x :
  account w !! i = Some x → ¬ (in_set params x ∧ gone (inst_state x) = false) →
  ∃ y, account (manage_instances iteritems regions params count w).2 !! i = Some y ∧ settled x y.
Proof. intros Hx Hout. apply (manage_keeps iteritems params i x Hout regions count w). by exists x. Qed.

(** C22. For a list of at least one region, all of them regions the tool knows, and an
    EC2 that shows the effect of a call at once and refuses none (the laws of [Ec2Laws]
    and [Ec2Up]): from any state of the cloud, for instance one that an interrupted run
    has left behind, a run returns with the set as it should be: in
    every region the live instances of the set carry exactly the numbers of the region,
    each once, and the numbers of the hosts it reports are 1 to [count].  A second run
    reports no change, terminates nothing and changes nothing. *)
Theorem set_converges {W} `{!Ec2 W, !Ec2Laws W, !Ec2Up W} iteritems regions params count (w : W) :
  (∀ d, iteritems d ≡ₚ d) → regions ≠ [] → (∀ r, r ∈ regions → r ∈ region_codes) →
  ∃ out w', manage_instances iteritems regions params count w = (Ok out, w') ∧
    converged regions params count w' ∧
    (tag_id <$> active out) ≡ₚ (Some <$> numbers (seq 0 (Z.to_nat count))) ∧
    ∃ out' w'', manage_instances iteritems regions params count w' = (Ok out', w'') ∧
      changed out' = false ∧ terminated out' = [] ∧ same w' w''.
Proof.
  intros Hit Hne Hr. destruct (manage_runs iteritems Hit params regions count w) as (out & w' & Hm & Hc & Hact).
  exists out, w'. split; [done|]. split; [done|]. split; [by rewrite Hact, all_numbers|].
  by apply manage_idle.
Qed.

(** *** A cloud of an account that does what it is told *)

Definition with_state (st : string) (x : Inst) : Inst :=
  mkInst (inst_region x) st (inst_tags x) (spot_instance_request_id x) (public_ip_address x).

Definition with_tags (ts : dict string) (x : Inst) : Inst :=
  mkInst (inst_region x) (inst_state x) (dupdate (inst_tags x) ts) (spot_instance_request_id x) (public_ip_address x).

Definition has_tags (fs : dict string) (x : Inst) : Prop :=
  Forall (λ kv, dget kv.1 (inst_tags x) = Some kv.2) fs.

Definition new_instance (r : string) (spec : LaunchSpec) : Inst :=
  mkInst r "running" (default [] (dget "instance" (TagSpecifications spec))) None None.

#[export] Instance map_ec2 : Ec2 (gmap string Inst) := {|
  account w := w;
  describe r fs w := (filter (λ p : string * Inst, inst_region p.2 = r ∧ has_tags fs p.2) (map_to_list w)).*1;
  images _ _ _ _ := [("2019-04-01", "ami-1")];
  create_instances r spec w :=
    let new := fresh_list (MinCount spec) (dom w) in
    (Ok new, list_to_map ((λ i, (i, new_instance r spec)) <$> new) ∪ w);
  terminate_instance i w := (Ok tt, alter (with_state "shutting-down") i w);
  create_tags i ts w := (Ok tt, alter (with_tags ts) i w);
  waiter_wait _ _ _ w := (Ok tt, w);
  cancel_spot_instance_requests _ _ w := (Ok tt, w)
|}.

Lemma map_same (w : gmap string Inst) i : option_Forall2 settled (w !! i) (w !! i).
Proof. destruct (w !! i); by constructor. Qed.

Lemma map_new (r : string) spec new i :
  (list_to_map ((λ i, (i, new_instance r spec)) <$> new) : gmap string Inst) !! i =
  if decide (i ∈ new) then Some (new_instance r spec) else None.
Proof.
  induction new as [|j new IH]; cbn; [done|]. destruct (decide (i = j)) as [->|Hi].
  - rewrite lookup_insert_eq. rewrite decide_True by apply list_elem_of_here. done.
  - rewrite lookup_insert_ne, IH by done. repeat case_decide; set_solver.
Qed.

Lemma NoDup_fst_filter {A} (P : string * A → Prop) `{!∀ p, Decision (P p)} l : NoDup l.*1 → NoDup (filter P l).*1.
Proof.
  induction l as [|[i x] l IH]; intros Hl; [done|]. apply NoDup_cons in Hl as [Hi Hl]. rewrite filter_cons.
  case_decide; [|by apply IH]. cbn. constructor; [|by apply IH]. intros Hin. apply Hi.
  apply list_elem_of_fmap in Hin as (p & -> & [_ Hp]%list_elem_of_filter). apply list_elem_of_fmap. by exists p.
Qed.

#[export] Instance map_ec2_laws : Ec2Laws (gmap string Inst).
Proof.
  split; cbn.
  - intros r fs w. apply NoDup_fst_filter, NoDup_fst_map_to_list.
  - intros r fs w i. rewrite list_elem_of_fmap. unfold has_tags. split.
    + intros ([j x] & -> & [[Hr Hf] Hin]%list_elem_of_filter). apply elem_of_map_to_list in Hin. exists x.
      split; [done|]. split; [done|]. intros k v Hkv. rewrite Forall_forall in Hf. by apply (Hf (k, v)).
    + intros (x & Hx & Hr & Hf). exists (i, x). split; [done|]. apply list_elem_of_filter.
      split; [|by apply elem_of_map_to_list]. split; [done|]. apply Forall_forall. intros [k v]. apply Hf.
  - intros r spec w i [x Hx]. unfold kept. cbn. rewrite lookup_union, map_new. rewrite decide_False.
    { rewrite Hx. by constructor. }
    intros Hin%fresh_list_is_fresh. apply Hin, elem_of_dom. by eexists.
  - intros r spec w l w' [= <- <-]. split; [by rewrite length_fresh_list|]. split; [apply NoDup_fresh_list|]. split.
    + intros i Hi. split; [by apply not_elem_of_dom, (fresh_list_is_fresh _ _ _ Hi)|].
      exists (new_instance r spec). rewrite lookup_union, map_new, decide_True by done.
      split; [by destruct (w !! i)|]. split; [done|]. split; [done|]. intros ts Hts. cbn. by rewrite Hts.
    + intros i Hi Hn. by rewrite lookup_union, map_new, decide_False, Hn.
  - intros i w j Hij. unfold kept. cbn. rewrite lookup_alter_ne by done. apply map_same.
  - intros i w x w' Hx [= <-]. rewrite lookup_alter_eq, Hx. by eexists.
  - intros i ts w j Hij. unfold kept. cbn. rewrite lookup_alter_ne by done. apply map_same.
  - intros i ts w x w' Hx [= <-]. rewrite lookup_alter_eq, Hx. by eexists.
  - intros ev r l w i. apply map_same.
  - intros r id w i. apply map_same.
Qed.

#[export] Instance map_ec2_up : Ec2Up (gmap string Inst).
Proof. split; cbn; eauto. Qed.

Definition sample_params : InstanceParams :=
  mkInstanceParams "Evernym" "ns" "nodes" [] "key" "group" "t2.micro" false None None None.

(** An account with an instance of another group, and a second instance number 1. *)
Definition sample_cloud : gmap string Inst :=
  let tags g id := [("Project", "Evernym"); ("Namespace", "ns"); ("Group", g); ("ID", id)] in
  <["i-1" := mkInst "us-east-1" "running" (tags "nodes" "1") None None]>
  (<["i-2" := mkInst "us-east-1" "running" (tags "nodes" "1") None None]>
  {["i-3" := mkInst "us-east-1" "running" (tags "clients" "1") None None]}).

Lemma set_leaves_others_alone_witness :
  ∃ y, account (manage_instances (λ d, d) ["us-east-1"] sample_params 1 sample_cloud).2 !! "i-3" = Some y ∧
    gone (inst_state y) = false.
Proof.
  destruct (set_leaves_others_alone (λ d, d) ["us-east-1"] sample_params 1 sample_cloud "i-3"
    (mkInst "us-east-1" "running" [("Project", "Evernym"); ("Namespace", "ns"); ("Group", "clients"); ("ID", "1")] None None))
    as (y & Hy & _ & _ & Hg).
  - reflexivity.
  - intros [(_ & _ & Hgr) _]. vm_compute in Hgr. discriminate.
  - exists y. split; [exact Hy|]. rewrite <-Hg. reflexivity.
Defined.

Lemma set_converges_witness :
  ∃ out w', manage_instances (λ d, d) ["us-east-1"; "eu-west-1"] sample_params 3 sample_cloud = (Ok out, w') ∧
    (tag_id <$> active out) ≡ₚ [Some "1"; Some "2"; Some "3"].
Proof.
  destruct (set_converges (λ d, d) ["us-east-1"; "eu-west-1"] sample_params 3 sample_cloud)
    as (out & w' & Hm & _ & Hact & _); [reflexivity|discriminate| |exists out, w'; split; [exact Hm|exact Hact]].
  intros r Hr. apply (bool_decide_unpack _). apply elem_of_cons in Hr as [->|Hr]; [by vm_compute|].
  apply list_elem_of_singleton in Hr as ->. by vm_compute.
Defined.
