(* ===== verification/ControlTool.v ===== *)
(** * The node control tool

    [indy_node/utils/node_control_tool.py]: the process beside the node that
    receives upgrade and restart messages, runs the upgrade script, backs up and
    migrates the node's data, and goes back to the previous package when an
    upgrade fails.

    The machine has files and directories next to whatever the shell works on:
    shell commands may change all of it.  Files are named by their full path.  An
    archive is a file that holds the relative paths and texts of the files it was
    made of; directories without files are not archived. *)
From Stdlib Require Import Ascii.
From S2P Require Import Prelude PyValue Plenum Constants StateDomain IdrCache HandlerBase Upgrader PoolUpgrade World Versions Packages Migrations.

Definition BACKUP_FORMAT : string := "zip".
Definition BACKUP_NUM : Z := 10.
Definition TMP_DIR : string := "/tmp/.indy_tmp".
Definition MESSAGE_TYPE : string := "message_type".
Definition UPGRADE_MESSAGE : string := "upgrade".
Definition RESTART_MESSAGE : string := "restart".

(** ** Files *)

Inductive content :=
| Text (s : string)
| Archive (members : list (string * string)).

Record File := mkFile {
  f_content : content;
  f_mtime : Z
}.

(** [m_sys] is what else the shell works on. *)
Record Machine (S : Type) := mkMachine {
  m_files : gmap string File;
  m_dirs : gset string;
  m_time : Z;
  m_sys : S
}.
Arguments mkMachine {S} _ _ _ _.
Arguments m_files {S} _.
Arguments m_dirs {S} _.
Arguments m_time {S} _.
Arguments m_sys {S} _.

Definition with_files {S} (m : Machine S) (fs : gmap string File) : Machine S :=
  mkMachine fs (m_dirs m) (m_time m) (m_sys m).

(** [os.path.join] and [os.path.dirname] *)
Definition ends_with_slash (s : string) : bool :=
  match String.get (String.length s - 1) s with Some c => Ascii.eqb c "/" | None => false end.

Definition dir_prefix (dir : string) : string :=
  if str_eqb dir "" || ends_with_slash dir then dir else dir +:+ "/".

Definition path_join (a b : string) : string :=
  if String.prefix "/" b then b else dir_prefix a +:+ b.

Definition dirname (p : string) : string := py_join "/" (removelast (py_split "/" p)).

(** The part of a path below a directory. *)
Definition below (dir p : string) : option string :=
  match literal (dir_prefix dir) p with
  | Some rel => if String.prefix "/" rel || str_eqb rel "" then None else Some rel
  | None => None
  end.

Section FileOperations.
Context {S : Type}.
Abbreviation M := (act (Machine S)).
Implicit Types m : Machine S.

Definition write_file (p : string) (f : File) : M unit :=
  λ m, if bool_decide (dirname p ∈ m_dirs m) then (Ok tt, with_files m (<[p := f]> (m_files m)))
       else (Raise (OSError "No such file or directory"), m).

(** [shutil.copy2]: the time of the file is kept. *)
Definition copy2 (src dst : string) : M unit :=
  λ m, match m_files m !! src with
       | None => (Raise (OSError "No such file or directory"), m)
       | Some f => if str_eqb src dst then (Raise (OSError "are the same file"), m)
                   else write_file dst f m
       end.

(** The texts of the files below a directory. *)
Definition members_of (root : string) (fs : gmap string File) : list (string * string) :=
  omap (λ '(p, f), match below root p, f_content f with
                   | Some rel, Text s => Some (rel, s)
                   | _, _ => None
                   end) (map_to_list fs).

(** [shutil.make_archive], which makes the directory of the archive if needed. *)
Definition make_archive (base_name format root : string) : M unit :=
  λ m, if bool_decide (root ∈ m_dirs m)
       then let p := base_name +:+ "." +:+ format in
            (Ok tt, mkMachine (<[p := mkFile (Archive (members_of root (m_files m))) (m_time m)]> (m_files m))
                      ({[dirname p]} ∪ m_dirs m) (m_time m) (m_sys m))
       else (Raise (OSError "No such file or directory"), m).

(** [shutil.unpack_archive]: every member is written, other files stay.  The disk
    does not fail, and no member has the path of a directory or a file in the place
    of one of its directories. *)
Definition unpack_member (dir : string) (time : Z) (fs : gmap string File) (member : string * string)
    : gmap string File :=
  <[path_join dir member.1 := mkFile (Text member.2) time]> fs.

Definition unpack_archive (p dir : string) : M unit :=
  λ m, match m_files m !! p with
       | Some {| f_content := Archive members |} =>
           (Ok tt, mkMachine (foldl (unpack_member dir (m_time m)) (m_files m) members)
                     (foldl (λ ds mb, {[dirname (path_join dir mb.1)]} ∪ ds) (m_dirs m) members)
                     (m_time m) (m_sys m))
       | _ => (Raise (OSError "is not a zip file"), m)
       end.

(** [shutil.rmtree(dir, ignore_errors=True)] *)
Definition rmtree (dir : string) : M unit :=
  λ m, (Ok tt, mkMachine (filter (λ pf, below dir pf.1 = None) (m_files m))
                 (filter (λ d, d ≠ dir ∧ below dir d = None) (m_dirs m)) (m_time m) (m_sys m)).

(** [os.listdir]: the names of the files of a directory (directories are listed
    too, and dropped by the caller). *)
Definition listdir (dir : string) : M (list string) :=
  λ m, if bool_decide (dir ∈ m_dirs m)
       then (Ok (omap (λ '(p, _), match below dir p with
                                  | Some rel => if py_in_str "/" rel then None else Some rel
                                  | None => None
                                  end) (map_to_list (m_files m))), m)
       else (Raise (OSError "No such file or directory"), m).

Definition isfile (p : string) m : bool := bool_decide (is_Some (m_files m !! p)).
Definition getmtime (p : string) m : Z := match m_files m !! p with Some f => f_mtime f | None => 0 end.

(** [os.remove] *)
Definition remove_file (p : string) : M unit :=
  λ m, if isfile p m then (Ok tt, with_files m (delete p (m_files m)))
       else (Raise (OSError "No such file or directory"), m).
End FileOperations.

(** A program of the machine run in a process. *)
Definition on_machine {W A} (f : act W A) : act (Process W) A :=
  λ p, let '(r, w) := f (p_machine p) in (r, mkProcess (p_cache p) w).

(** ** The tool *)

Record NodeControlTool := mkTool {
  test_mode : bool;
  hold_ext : list string;
  backup_dir : string;
  backup_target : string;
  tmp_dir : string;
  backup_format : string;
  files_to_preserve : list string;
  backup_num : Z;
  backup_name_prefix : string;
  PACKAGES_TO_HOLD : list string
}.

(** What the constructor reads of the configuration. *)
Record ToolConfig := mkToolConfig {
  tc_backup_dir : string;
  tc_genesis_dir : string;
  tc_version_and_log_files : list string;
  tc_network_name : string;
  tc_packages_to_hold : list string
}.

Definition or_default (o : option string) (d : string) : string :=
  match o with Some s => if str_truth s then s else d | None => d end.

(** [NodeControlTool.__init__], without the socket and the log file. *)
Definition new_NodeControlTool (config : ToolConfig) (format : string) (test : bool)
    (target : option string) (preserve : option (list string)) (dir prefix : option string) (num : Z)
    (hold : string) : NodeControlTool :=
  mkTool test (py_split " " hold) (or_default dir (tc_backup_dir config))
    (or_default target (tc_genesis_dir config)) TMP_DIR format
    match preserve with Some (x :: l) => x :: l | _ => tc_version_and_log_files config end
    num (or_default prefix (tc_network_name config +:+ "_backup_")) (tc_packages_to_hold config).

(** [l[n:]] *)
Definition slice_from {A} (n : Z) (l : list A) : list A :=
  if Z.leb 0 n then drop (Z.to_nat n) l else drop (Z.to_nat (Z.of_nat (length l) + n)) l.

(** A stable sort by decreasing time. *)
Fixpoint insert_newest (time : string → Z) (x : string) (l : list string) : list string :=
  match l with
  | [] => [x]
  | y :: l' => if Z.ltb (time y) (time x) then x :: l else y :: insert_newest time x l'
  end.

Definition newest_first (time : string → Z) (l : list string) : list string :=
  foldl (λ acc x, insert_newest time x acc) [] l.

Section Tool.
Context {S : Type} {SH : Shell (Machine S)} {SO : SetOrder} {Ver : Type}.
Context (version_of : version_cls → string → res Ver) (ver_eqb : Ver → Ver → bool).
Context (release : Ver → string) (metadata_version : res Ver).
Context (compareVersions : string → string → res Z) (linux_distribution : Machine S → string).
Context (iter_modules : string → list string) (script_path : string → string → string).
Context (json_loads : string → res val) (tool : NodeControlTool).
Abbreviation M := (act (Process (Machine S))).

(** *** Scripts *)

Definition get_deps_list (package : string) : M string :=
  let? _ := update_package_cache in
  let? holded := get_sys_holds in
  match holded with
  | [] => ret package
  | _ =>
      let app_holded := set_list (PACKAGES_TO_HOLD tool ++ hold_ext tool ++ holded) in
      let? deps_list := get_deps_tree_filtered version_of [package] app_holded [] in
      let deps_list := if bool_decide (package ∈ deps_list) then deps_list else deps_list ++ [package] in
      ret (py_join " " deps_list)
  end.

Definition quoted (s : string) : string := String dquote (s +:+ String dquote "").

Definition upgrade_script : string :=
  if test_mode tool then "upgrade_indy_node_test" else "upgrade_indy_node".

Definition call_upgrade_script (pkg_name : string) (pkg_ver : DebianVersion Ver) : M unit :=
  let? deps := get_deps_list (pkg_name +:+ "=" +:+ dv_full pkg_ver) in
  script [upgrade_script; quoted deps].

Definition call_restart_node_script : M unit := script ["restart_indy_node"].

(** *** Backups *)

Definition backup_name (src_ver : string) : string :=
  path_join (backup_dir tool) (backup_name_prefix tool +:+ src_ver).

Definition backup_name_ext (src_ver : string) : string := backup_name src_ver +:+ "." +:+ backup_format tool.

Definition create_backup (src_ver : string) : act (Machine S) unit :=
  make_archive (backup_name src_ver) (backup_format tool) (backup_target tool).

(** [try: copy2(...) except IOError: log] *)
Definition try_copy (src_dir dst_dir file_path : string) : act (Machine S) unit :=
  catch (copy2 (path_join src_dir file_path) (path_join dst_dir file_path))
    (λ e, match e with OSError _ => ret tt | _ => raise e end).

Definition restore_from_backup (src_ver : string) : act (Machine S) unit :=
  let? _ := each (try_copy (backup_target tool) (tmp_dir tool)) (files_to_preserve tool) in
  let? _ := unpack_archive (backup_name_ext src_ver) (backup_target tool) in
  let? _ := each (try_copy (tmp_dir tool) (backup_target tool)) (files_to_preserve tool) in
  rmtree (tmp_dir tool).

Definition is_backup (m : Machine S) (p : string) : bool :=
  isfile p m && py_in_str (backup_name_prefix tool) p.

Definition get_backups : act (Machine S) (list string) :=
  let? names := listdir (backup_dir tool) in
  λ m, let files := List.filter (is_backup m) (map (path_join (backup_dir tool)) names) in
       (Ok (newest_first (λ p, getmtime p m) files), m).

Definition remove_old_backups : act (Machine S) unit :=
  let? files := get_backups in
  each remove_file (slice_from (backup_num tool) files).

(** *** Migration *)

Definition do_migration (curr_src_ver new_src_ver : string) : act (Machine S) unit :=
  let? _ := migrate compareVersions linux_distribution iter_modules script_path curr_src_ver new_src_ver in
  ret tt.

(** [_migrate]: the data is restored when the migration fails. *)
Definition migrate_data (curr_src_ver new_src_ver : string) : act (Machine S) unit :=
  let? _ := catch (let? _ := create_backup curr_src_ver in do_migration curr_src_ver new_src_ver)
              (λ e, let? _ := restore_from_backup curr_src_ver in raise e) in
  remove_old_backups.

(** *** Upgrade *)

(** [Upgrader.get_src_version()] and [get_src_version(nocache=True)] *)
Definition installed_src_version : M (option Ver) :=
  let? (v, _) := curr_pkg_info version_of APP_NAME in
  ret (match v with Some dv => Some (dv_upstream dv) | None => None end).

(** The body of the [try] of [_do_upgrade].  [if migrate:] tests the imported
    function, and is always taken. *)
Definition attempt (pkg_name : string) (cur_node_src_ver : Ver) (new_pkg_ver : DebianVersion Ver) : M unit :=
  let? _ := call_upgrade_script pkg_name new_pkg_ver in
  let? new_node_src_ver := installed_src_version in
  match new_node_src_ver with
  | None => raise AttributeError
  | Some v =>
      let? _ := on_machine (migrate_data (release cur_node_src_ver) (release v)) in
      call_restart_node_script
  end.

(** [_do_upgrade]: the call made for a rollback asks for none. *)
Definition do_upgrade_once (pkg_name : string) (new_pkg_ver : DebianVersion Ver) (failed : M unit) : M unit :=
  let? cur_node_src_ver := lift metadata_version in
  catch (attempt pkg_name cur_node_src_ver new_pkg_ver) (λ _, failed).

Definition do_upgrade (pkg_name : string) (curr_pkg_ver new_pkg_ver : DebianVersion Ver) (rollback : bool)
    : M unit :=
  do_upgrade_once pkg_name new_pkg_ver
    (if rollback then do_upgrade_once pkg_name curr_pkg_ver (ret tt) else ret tt).

(** [_upgrade]: the new version comes with its class. *)
Definition upgrade (new_src_ver : version_cls * Ver) (pkg_name : string) (rollback : bool) : M unit :=
  let? (curr_pkg_ver, _) := curr_pkg_info version_of pkg_name in
  match curr_pkg_ver with
  | None => ret tt
  | Some curr_pkg_ver =>
      let? new_pkg_ver := get_latest_pkg_version version_of ver_eqb pkg_name (Some new_src_ver) true in
      match new_pkg_ver with
      | None => ret tt
      | Some new_pkg_ver => do_upgrade pkg_name curr_pkg_ver new_pkg_ver rollback
      end
  end.

(** *** Messages *)

(** [_restart]: the message joins ["Restart fail: "] with the first argument of
    the exception, which for a script that failed is its return code. *)
Definition restart : M unit :=
  catch call_restart_node_script
    (λ e, match e with
          | CalledProcessError _ _ _ => raise (TypeError "can only concatenate str (not int) to str")
          | _ => ret tt
          end).

(** The body of the [try] of [_process_data]. *)
Definition handle_message (data : string) : M unit :=
  let? command := lift (json_loads data) in
  match command with
  | VDict d =>
      let? t := lift (dgetitem MESSAGE_TYPE d) in
      if py_eq t (VStr UPGRADE_MESSAGE) then
        let? pkg_name := lift (dgetitem "pkg_name" d) in
        let? version := lift (dgetitem "version" d) in
        match pkg_name, version with
        | VStr pkg_name, VStr version =>
            let cls := src_version_cls pkg_name in
            match version_of cls version with
            | Ok v => upgrade (cls, v) pkg_name true
            | Raise (InvalidVersionError _) => ret tt
            | Raise e => raise e
            end
        | _, _ => raise (TypeError "expected string or bytes-like object")
        end
      else if py_eq t (VStr RESTART_MESSAGE) then restart
      else ret tt
  | _ => raise (TypeError "indices must be integers")
  end.

(** [_process_data] *)
Definition process_data (data : string) : M unit := catch (handle_message data) (λ _, ret tt).

(** *** The loop of [start] *)

(** A socket that [select] reports, with what the calls on it give: the server's
    socket, whose [accept] gives a connection or raises, and a connection, whose
    [recv] gives data, nothing at the end, or raises, and whose [getpeername],
    called to log the data, can raise as well. *)
Inductive socket_event :=
| ServerReady (accepted : res nat)
| ConnectionReady (connection : nat) (received : res string) (peer : res unit).

(** [readers.remove(s)] *)
Fixpoint remove_reader (s : nat) (readers : list nat) : res (list nat) :=
  match readers with
  | [] => Raise (ValueError "list.remove(x): x not in list")
  | x :: readers' => if Nat.eqb x s then Ok readers'
                     else let! r := remove_reader s readers' in Ok (x :: r)
  end.

(** One round for one socket, with the connections among the readers.  None of the
    calls on the socket is inside a [try]. *)
Definition on_event (readers : list nat) (ev : socket_event) : M (list nat) :=
  match ev with
  | ServerReady accepted => let? connection := lift accepted in ret (readers ++ [connection])
  | ConnectionReady c received peer =>
      let? data := lift received in
      if str_truth data then
        let? _ := lift peer in
        let? _ := process_data data in ret readers
      else lift (remove_reader c readers)
  end.

(** The loop; it has no end of its own, since the server's socket stays among the
    readers. *)
Fixpoint serve (readers : list nat) (evs : list socket_event) : M (list nat) :=
  match evs with
  | [] => ret readers
  | ev :: evs' => let? readers := on_event readers ev in serve readers evs'
  end.

Definition start (evs : list socket_event) : M (list nat) :=
  let? _ := hold_packages (PACKAGES_TO_HOLD tool ++ hold_ext tool) in
  serve [] evs.
End Tool.

(** ** Lemmas *)

(** *** Paths *)

Lemma substring_skip (a b : string) n :
  String.substring (String.length a) n (a +:+ b) = String.substring 0 n b.
Proof. induction a as [|c a IH]; [done|]. exact IH. Qed.

Lemma prefix_split (t s : string) : String.prefix t s = true → ∃ r, s = t +:+ r.
Proof.
  revert s. induction t as [|c t IH]; intros s; [by exists s|].
  destruct s as [|d s]; [done|]. cbn. destruct (ascii_dec c d) as [->|]; [|done].
  intros H. destruct (IH s H) as [r ->]. by exists r.
Qed.

Lemma literal_split t s r : literal t s = Some r → s = t +:+ r.
Proof.
  unfold literal. destruct (String.prefix t s) eqn:E; [|done].
  destruct (prefix_split _ _ E) as [r' ->]. intros H.
  pose proof (literal_app t r') as H'. unfold literal in H'. rewrite E in H'. congruence.
Qed.

Lemma below_join dir p rel : below dir p = Some rel → path_join dir rel = p.
Proof.
  unfold below, path_join. destruct (literal (dir_prefix dir) p) as [r|] eqn:E; [|done].
  apply literal_split in E. destruct (String.prefix "/" r) eqn:Hr; [done|]. cbn [orb].
  destruct (str_eqb r ""); [done|]. intros [= <-]. by rewrite Hr.
Qed.

(** *** Sorting by time *)

Section Newest.
Context (time : string → Z).

Fixpoint descending (l : list string) : Prop :=
  match l with [] => True | x :: l' => Forall (λ y, time y ≤ time x)%Z l' ∧ descending l' end.

Lemma insert_newest_perm x l : insert_newest time x l ≡ₚ x :: l.
Proof.
  induction l as [|y l IH]; [done|]. cbn. destruct (Z.ltb _ _); [done|]. rewrite IH. apply perm_swap.
Qed.

Lemma insert_newest_descending x l : descending l → descending (insert_newest time x l).
Proof.
  induction l as [|y l IH]; [by repeat split|]. intros [Hy Hl]. cbn.
  destruct (Z.ltb_spec (time y) (time x)).
  - split; [|by split]. constructor; [lia|]. eapply Forall_impl; [exact Hy|]. cbn. lia.
  - split; [|by apply IH]. rewrite insert_newest_perm. constructor; [lia|done].
Qed.

Lemma newest_first_perm l : newest_first time l ≡ₚ l.
Proof.
  unfold newest_first. rewrite <- (app_nil_l l) at 2. generalize (@nil string) as acc.
  induction l as [|x l IH]; intros acc; cbn; [by rewrite app_nil_r|].
  rewrite IH, insert_newest_perm. cbn. by rewrite Permutation_middle.
Qed.

Lemma newest_first_descending l : descending (newest_first time l).
Proof.
  unfold newest_first. assert (descending []) as H by done. revert H. generalize (@nil string) as acc.
  induction l as [|x l IH]; intros acc Hacc; cbn; [done|]. apply IH. by apply insert_newest_descending.
Qed.

Lemma descending_split n l x y :
  descending l → x ∈ take n l → y ∈ drop n l → (time y ≤ time x)%Z.
Proof.
  revert n. induction l as [|z l IH]; intros n Hl Hx Hy.
  - destruct n; by apply not_elem_of_nil in Hx.
  - destruct Hl as [Hz Hl]. destruct n as [|n]; [by apply not_elem_of_nil in Hx|]. cbn in Hx, Hy.
    apply elem_of_cons in Hx as [->|Hx]; [|by eapply IH].
    rewrite Forall_forall in Hz. apply Hz. rewrite <- (take_drop n l). apply elem_of_app. by right.
Qed.
End Newest.

(** *** Backups *)

Section Backups.
Context {S : Type} (tool : NodeControlTool).
Implicit Types m : Machine S.

(** The files of the backup directory with the prefix. *)
Definition backup_path (p : string) : bool :=
  match below (backup_dir tool) p with
  | Some rel => negb (py_in_str "/" rel) && py_in_str (backup_name_prefix tool) p
  | None => false
  end.

Definition backup_files m : list string := List.filter backup_path (map fst (map_to_list (m_files m))).

Lemma listed_backups (test : string → bool) (l : list (string * File)) :
  List.filter test
    (map (path_join (backup_dir tool))
       (omap (λ '(p, _), match below (backup_dir tool) p with
                         | Some rel => if py_in_str "/" rel then None else Some rel
                         | None => None
                         end) l)) =
  List.filter (λ p, match below (backup_dir tool) p with
                    | Some rel => negb (py_in_str "/" rel) && test p
                    | None => false
                    end) (map fst l).
Proof.
  induction l as [|[p f] l IH]; [done|]. cbn [omap list_omap map fst List.filter].
  destruct (below (backup_dir tool) p) as [rel|] eqn:E; [|exact IH].
  destruct (py_in_str "/" rel); cbn [negb andb]; [exact IH|].
  cbn [map List.filter]. rewrite (below_join _ _ _ E). destruct (test p); [f_equal|]; exact IH.
Qed.

Lemma get_backups_ok m :
  backup_dir tool ∈ m_dirs m →
  get_backups tool m = (Ok (newest_first (λ p, getmtime p m) (backup_files m)), m).
Proof.
  intros Hd. unfold get_backups, act_bind, listdir. rewrite bool_decide_eq_true_2 by done.
  rewrite listed_backups. do 3 f_equal. unfold backup_files.
  assert (Forall (λ p, isfile p m = true) (map fst (map_to_list (m_files m)))) as Hall.
  { apply Forall_forall. intros p ([q f] & -> & Hq)%list_elem_of_fmap. apply elem_of_map_to_list in Hq.
    unfold isfile. apply bool_decide_eq_true. cbn. rewrite Hq. eauto. }
  induction Hall as [|p l Hp _ IH]; [done|]. cbn [List.filter]. unfold backup_path at 1, is_backup at 1.
  rewrite Hp, IH. by destruct (below (backup_dir tool) p).
Qed.

Lemma backup_files_elem m p : p ∈ backup_files m ↔ backup_path p = true ∧ is_Some (m_files m !! p).
Proof.
  unfold backup_files. rewrite list_elem_of_In, filter_In, <- list_elem_of_In.
  assert (p ∈ map fst (map_to_list (m_files m)) ↔ is_Some (m_files m !! p)) as ->; [|tauto].
  change (map fst (map_to_list (m_files m))) with ((map_to_list (m_files m)).*1).
  rewrite list_elem_of_fmap. split.
  - intros ([q f] & -> & Hq%elem_of_map_to_list). cbn. eauto.
  - intros [f Hf]. exists (p, f). split; [done|by apply elem_of_map_to_list].
Qed.

Lemma backup_files_NoDup m : NoDup (backup_files m).
Proof.
  unfold backup_files.
  apply NoDup_ListNoDup. apply List.NoDup_filter. apply NoDup_ListNoDup. apply NoDup_fst_map_to_list.
Qed.

(** Removing distinct files that exist. *)
Lemma remove_files l m :
  NoDup l → Forall (λ p, is_Some (m_files m !! p)) l →
  each remove_file l m = (Ok tt, with_files m (foldr delete (m_files m) (rev l))).
Proof.
  revert m. induction l as [|p l IH]; intros m Hnd Hall; cbn [each].
  - by destruct m.
  - apply NoDup_cons in Hnd as [Hp Hnd]. apply Forall_cons in Hall as [Hex Hall].
    unfold act_bind, remove_file at 1. unfold isfile. rewrite bool_decide_eq_true_2 by done.
    rewrite IH; [|done|].
    + cbn [rev]. rewrite foldr_app. done.
    + rewrite Forall_forall in Hall |- *. intros q Hq. cbn [with_files m_files].
      rewrite lookup_delete_ne by (intros ->; done). by apply Hall.
Qed.

Lemma foldr_delete_lookup (fs : gmap string File) l p :
  foldr delete fs l !! p = if bool_decide (p ∈ l) then None else fs !! p.
Proof.
  induction l as [|q l IH]; [done|]. cbn [foldr]. destruct (decide (q = p)) as [->|Hne].
  - rewrite lookup_delete_eq, bool_decide_eq_true_2 by (by left). done.
  - rewrite lookup_delete_ne, IH by done.
    destruct (decide (p ∈ l)).
    + rewrite !bool_decide_eq_true_2 by (try right; done). done.
    + rewrite !bool_decide_eq_false_2; [done|intros [->|]%elem_of_cons; done|done].
Qed.

Lemma removed_backups m l :
  (0 ≤ backup_num tool)%Z → backup_dir tool ∈ m_dirs m →
  l = newest_first (λ p, getmtime p m) (backup_files m) →
  let m' := with_files m (foldr delete (m_files m) (rev (drop (Z.to_nat (backup_num tool)) l))) in
  remove_old_backups tool m = (Ok tt, m') ∧ backup_files m' ≡ₚ take (Z.to_nat (backup_num tool)) l.
Proof.
  intros Hn Hd -> m'. set (n := Z.to_nat (backup_num tool)) in *.
  set (l := newest_first (λ p, getmtime p m) (backup_files m)) in *.
  assert (l ≡ₚ backup_files m) as Hp by apply newest_first_perm.
  assert (NoDup l) as Hnd by (rewrite Hp; apply backup_files_NoDup).
  pose proof Hnd as Hnd'. rewrite <- (take_drop n l) in Hnd'. apply NoDup_app in Hnd' as (Ht & Hdis & Hdr).
  split.
  - unfold remove_old_backups, act_bind. rewrite get_backups_ok by done. fold l.
    unfold slice_from. rewrite (proj2 (Z.leb_le 0 _) Hn). fold n. apply remove_files; [done|].
    apply Forall_forall. intros p Hpd.
    assert (p ∈ backup_files m) as Hin
      by (rewrite <- Hp, <- (take_drop n l); apply elem_of_app; by right).
    by apply backup_files_elem in Hin as [_ ?].
  - apply NoDup_Permutation; [apply backup_files_NoDup|done|]. intros p.
    rewrite backup_files_elem. unfold m'. cbn [with_files m_files]. rewrite foldr_delete_lookup.
    assert (p ∈ take n l ∨ p ∈ drop n l ↔ backup_path p = true ∧ is_Some (m_files m !! p)) as Hl.
    { rewrite <- elem_of_app, take_drop, Hp. apply backup_files_elem. }
    case_bool_decide as E; rewrite list_elem_of_In, <- in_rev, <- list_elem_of_In in E.
    + split; [by intros [_ [? ?]]|]. intros Ht'. by apply (Hdis p) in Ht'.
    + rewrite <- Hl. split; [by intros [|]|by left].
Qed.
End Backups.

(** *** Backup and restore *)

Lemma members_of_elem root (fs : gmap string File) rel s :
  (rel, s) ∈ members_of root fs ↔
  ∃ p f, fs !! p = Some f ∧ below root p = Some rel ∧ f_content f = Text s.
Proof.
  unfold members_of. rewrite list_elem_of_omap. split.
  - intros ([p f] & Hp & H). apply elem_of_map_to_list in Hp. exists p, f.
    destruct (below root p), (f_content f); try done. by injection H as -> ->.
  - intros (p & f & Hf & Hb & Hc). exists (p, f). rewrite elem_of_map_to_list, Hb, Hc. done.
Qed.

(** Writing members of which those at a path all have the same text. *)
Lemma unpack_lookup dir time members fs p s :
  (∃ rel, (rel, s) ∈ members ∧ path_join dir rel = p) →
  (∀ rel t, (rel, t) ∈ members → path_join dir rel = p → t = s) →
  foldl (unpack_member dir time) fs members !! p = Some (mkFile (Text s) time).
Proof.
  intros Hex Hall. induction members as [|[rel t] members IH] using rev_ind.
  { destruct Hex as (? & H & _). by apply not_elem_of_nil in H. }
  rewrite foldl_app. cbn [foldl unpack_member fst snd].
  destruct (decide (path_join dir rel = p)) as [E|E].
  - unfold unpack_member. cbn [fst snd]. rewrite E, lookup_insert_eq. do 3 f_equal.
    apply (Hall rel); [apply elem_of_app; right; by left|done].
  - unfold unpack_member at 1. cbn [fst snd]. rewrite lookup_insert_ne by done. apply IH.
    + destruct Hex as (rel' & [H|H]%elem_of_app & Hj); [eauto|].
      apply list_elem_of_singleton in H. injection H as -> ->. done.
    + intros rel' t' Ht. apply Hall. apply elem_of_app. by left.
Qed.

Section Restore.
Context {S : Type}.
Implicit Types m : Machine S.

(** Copies that may fail change only the files they copy to. *)
Lemma try_copy_ok src dst f m :
  ∃ m', try_copy src dst f m = (Ok tt, m') ∧ m_dirs m' = m_dirs m ∧ m_time m' = m_time m ∧
    ∀ p, p ≠ path_join dst f → m_files m' !! p = m_files m !! p.
Proof.
  unfold try_copy, catch, copy2, write_file. destruct (m_files m !! path_join src f); [|by exists m].
  destruct (str_eqb _ _); [by exists m|]. case_bool_decide; [|by exists m].
  eexists. split; [done|]. split; [done|]. split; [done|]. intros p Hp. cbn. by rewrite lookup_insert_ne.
Qed.

Lemma try_copies_ok src dst l m :
  ∃ m', each (try_copy src dst) l m = (Ok tt, m') ∧ m_dirs m' = m_dirs m ∧ m_time m' = m_time m ∧
    ∀ p, Forall (λ f, p ≠ path_join dst f) l → m_files m' !! p = m_files m !! p.
Proof.
  revert m. induction l as [|f l IH]; intros m; cbn [each]; [by exists m|].
  destruct (try_copy_ok src dst f m) as (m1 & H1 & Hd & Ht & Hf). unfold act_bind. rewrite H1.
  destruct (IH m1) as (m2 & H2 & Hd2 & Ht2 & Hf2). exists m2. rewrite Hd2, Ht2. repeat split; try done.
  intros p [Hp Hl]%Forall_cons. by rewrite Hf2, Hf.
Qed.

(** What a restore brings back. *)
Lemma restore_lookup (tool : NodeControlTool) m ver members time p s :
  m_files m !! backup_name_ext tool ver = Some (mkFile (Archive members) time) →
  Forall (λ f, backup_name_ext tool ver ≠ path_join (tmp_dir tool) f) (files_to_preserve tool) →
  (∃ rel, (rel, s) ∈ members ∧ path_join (backup_target tool) rel = p) →
  (∀ rel t, (rel, t) ∈ members → path_join (backup_target tool) rel = p → t = s) →
  Forall (λ f, p ≠ path_join (backup_target tool) f) (files_to_preserve tool) →
  below (tmp_dir tool) p = None →
  ∃ m' f, restore_from_backup tool ver m = (Ok tt, m') ∧ m_files m' !! p = Some f ∧ f_content f = Text s.
Proof.
  intros Harch Htmp Hex Hall Hpres Hbelow. unfold restore_from_backup, act_bind.
  destruct (try_copies_ok (backup_target tool) (tmp_dir tool) (files_to_preserve tool) m)
    as (m1 & -> & _ & _ & Hf1).
  unfold unpack_archive. rewrite Hf1, Harch by done.
  match goal with |- context [each _ _ ?m2] => set (mu := m2) end.
  destruct (try_copies_ok (tmp_dir tool) (backup_target tool) (files_to_preserve tool) mu)
    as (m3 & -> & _ & _ & Hf3).
  eexists _, (mkFile (Text s) (m_time m1)). split; [reflexivity|]. split; [|reflexivity]. cbn [m_files].
  rewrite map_lookup_filter_Some. split; [|exact Hbelow].
  rewrite Hf3 by done. apply unpack_lookup; done.
Qed.
End Restore.

Lemma created_backup {S} tool (m : Machine S) ver :
  backup_target tool ∈ m_dirs m →
  ∃ m' time, create_backup tool ver m = (Ok tt, m') ∧
    m_files m' !! backup_name_ext tool ver =
      Some (mkFile (Archive (members_of (backup_target tool) (m_files m))) time).
Proof.
  intros Hd. unfold create_backup, make_archive. rewrite bool_decide_eq_true_2 by done.
  eexists _, (m_time m). split; [reflexivity|]. cbn [m_files]. apply lookup_insert_eq.
Qed.

(** A migration that ends without an exception made a backup and ran. *)
Lemma migration_ran {S} {SH : Shell (Machine S)} compareVersions linux_distribution iter_modules script_path
    tool cur new (m m1 : Machine S) :
  catch (let? _ := create_backup tool cur in
         do_migration compareVersions linux_distribution iter_modules script_path cur new)
    (λ e, let? _ := restore_from_backup tool cur in raise e) m = (Ok tt, m1) →
  ∃ mb, create_backup tool cur m = (Ok tt, mb) ∧
    do_migration compareVersions linux_distribution iter_modules script_path cur new mb = (Ok tt, m1).
Proof.
  unfold catch. intros H.
  match type of H with context [match ?x with _ => _ end] => destruct x as [[[]|e] w] eqn:E end.
  - injection H as ->. apply act_bind_Ok in E as ([] & mb & ? & ?). by exists mb.
  - by apply act_bind_Ok in H as (? & ? & _ & ?).
Qed.

Lemma cleaning_needs_dir {S} tool (m m' : Machine S) :
  remove_old_backups tool m = (Ok tt, m') → backup_dir tool ∈ m_dirs m.
Proof.
  unfold remove_old_backups, get_backups, listdir, act_bind. by case_bool_decide.
Qed.

(** What the cleaning leaves. *)
Lemma cleaning_spec {S} (tool : NodeControlTool) (m : Machine S) :
  (0 ≤ backup_num tool)%Z → backup_dir tool ∈ m_dirs m →
  ∃ m' l l', get_backups tool m = (Ok l, m) ∧ remove_old_backups tool m = (Ok tt, m') ∧
    get_backups tool m' = (Ok l', m') ∧
    (Z.of_nat (length l') ≤ backup_num tool)%Z ∧
    (length l' = length l ∨ Z.of_nat (length l') = backup_num tool) ∧
    (∀ k d, k ∈ l' → d ∈ l → d ∉ l' → (getmtime d m ≤ getmtime k m)%Z) ∧
    (∀ p, p ∉ l → m_files m' !! p = m_files m !! p).
Proof.
  intros Hn Hd. destruct (removed_backups tool m _ Hn Hd eq_refl) as [Hrm Hp].
  set (l := newest_first (λ p, getmtime p m) (backup_files tool m)) in *.
  set (n := Z.to_nat (backup_num tool)) in *.
  eexists _, l, _. split; [by apply get_backups_ok|]. split; [exact Hrm|].
  split; [by apply get_backups_ok|].
  match goal with |- context [newest_first ?t (backup_files tool ?m')] =>
    set (l' := newest_first t (backup_files tool m')) end.
  assert (l' ≡ₚ take n l) as Hl' by (unfold l'; by rewrite newest_first_perm, Hp).
  assert (length l' = min n (length l)) as Hlen by (rewrite (Permutation_length Hl'); apply length_take).
  split; [lia|]. split; [lia|]. split.
  - intros k d Hk Hdl Hdn. rewrite Hl' in Hk, Hdn. apply (descending_split (λ p, getmtime p m) n l k d);
      [apply newest_first_descending|done|].
    rewrite <- (take_drop n l) in Hdl. apply elem_of_app in Hdl as [|]; done.
  - intros p Hpl. cbn [with_files m_files]. rewrite foldr_delete_lookup, bool_decide_eq_false_2; [done|].
    rewrite list_elem_of_In, <- in_rev, <- list_elem_of_In. intros Hpd. apply Hpl.
    rewrite <- (take_drop n l). apply elem_of_app. by right.
Qed.

(** A migration changes the machine through the shell only. *)
Lemma migrate_frames {W} {SH : Shell W} (R : relation W) `{!PreOrder R} compareVersions linux_distribution
    iter_modules script_path cur new :
  (∀ file cmd w, compose_cmd ["python3 " +:+ file] = Ok cmd → R w (shell cmd w).2) →
  frames R (migrate compareVersions linux_distribution iter_modules script_path cur new).
Proof.
  intros Hsh. unfold migrate, get_migration_scripts.
  assert (frames R (get_current_platform linux_distribution)) as Hp.
  { intros w. unfold get_current_platform. by destruct (_ || _). }
  repeat (apply frames_bind; [done|..|intros ?]); auto with frames.
  apply frames_each; [done|]. intros m. unfold call_migration_script.
  apply frames_bind; [done|by auto with frames|]. intros prefix.
  destruct (compose_cmd _) as [cmd|e] eqn:E; [|intros w; reflexivity].
  apply frames_lift_bind. intros w. specialize (Hsh _ cmd w E).
  by destruct (shell cmd w) as [[] ?].
Qed.

(** ** Properties *)

(** C17. Old backups are removed and new ones kept: after a migration that
    succeeds at most [backup_num] backups remain, for a [backup_num] that is not
    negative; they are the newest of those there were when the scripts had run, none
    is removed when there were not more than that, and nothing else is deleted by the
    cleaning.  (After a migration that fails there is no cleaning.) *)
Theorem backups_bounded {S} {SH : Shell (Machine S)} compareVersions linux_distribution
    iter_modules script_path (tool : NodeControlTool) cur new (m m' : Machine S) :
  (0 ≤ backup_num tool)%Z →
  migrate_data compareVersions linux_distribution iter_modules script_path tool cur new m = (Ok tt, m') →
  ∃ mb m1 l l', create_backup tool cur m = (Ok tt, mb) ∧
    do_migration compareVersions linux_distribution iter_modules script_path cur new mb = (Ok tt, m1) ∧
    get_backups tool m1 = (Ok l, m1) ∧ get_backups tool m' = (Ok l', m') ∧
    (Z.of_nat (length l') ≤ backup_num tool)%Z ∧
    (length l' = length l ∨ Z.of_nat (length l') = backup_num tool) ∧
    (∀ k d, k ∈ l' → d ∈ l → d ∉ l' → (getmtime d m1 ≤ getmtime k m1)%Z) ∧
    (∀ p, p ∉ l → m_files m' !! p = m_files m1 !! p).
Proof.
  intros Hn H. unfold migrate_data in H. apply act_bind_Ok in H as ([] & m1 & H1 & Hrm).
  apply migration_ran in H1 as (mb & Hb & Hmig).
  assert (backup_dir tool ∈ m_dirs m1) as Hd by (by eapply cleaning_needs_dir).
  destruct (cleaning_spec tool m1 Hn Hd) as (m2 & l & l' & Hl & Hm2 & Hrest).
  assert (m' = m2) as -> by congruence. by exists mb, m1, l, l'.
Qed.

(** C16. A migration that fails gives the data back: whatever the scripts did to
    the data directory before one of them failed, every text file that was below it is
    there again with the text it had (the files to preserve, and files in the
    temporary directory, aside), as long as the scripts left the new backup alone.
    Packing and unpacking do not fail in the model, and a script does not put a
    directory where a file was. *)
Theorem failed_migration_restores {S} {SH : Shell (Machine S)} compareVersions linux_distribution
    iter_modules script_path tool cur new e p f s rel m m1 :
  let arch := backup_name_ext tool cur in
  (∀ cmd w, m_files (shell cmd w).2 !! arch = m_files w !! arch) →
  backup_target tool ∈ m_dirs m →
  do_migration compareVersions linux_distribution iter_modules script_path cur new
    (create_backup tool cur m).2 = (Raise e, m1) →
  m_files m !! p = Some f → f_content f = Text s → below (backup_target tool) p = Some rel →
  Forall (λ f, p ≠ path_join (backup_target tool) f ∧ arch ≠ path_join (tmp_dir tool) f)
    (files_to_preserve tool) →
  below (tmp_dir tool) p = None →
  ∃ m' f', migrate_data compareVersions linux_distribution iter_modules script_path tool cur new m
      = (Raise e, m') ∧ m_files m' !! p = Some f' ∧ f_content f' = Text s.
Proof.
  intros arch Hshell Hroot Hfail Hp Hs Hrel Hpres Htmp.
  apply Forall_and in Hpres as [Hpres Harch].
  set (fr := λ w w' : Machine S, m_files w' !! arch = m_files w !! arch).
  assert (PreOrder fr) as Hpre by (split; unfold fr; congruence).
  assert (frames fr (do_migration compareVersions linux_distribution iter_modules script_path cur new)) as Hfr.
  { apply frames_bind; [done| |by auto with frames]. apply migrate_frames; [done|]. intros. apply Hshell. }
  destruct (created_backup tool m cur Hroot) as (mb & time & Hcb & Harc). rewrite Hcb in Hfail. cbn [snd] in Hfail.
  specialize (Hfr mb). rewrite Hfail in Hfr. unfold fr in Hfr. cbn in Hfr.
  destruct (restore_lookup tool m1 cur (members_of (backup_target tool) (m_files m)) time p s)
    as (m' & f' & Hr & Hf' & Hc'); [exact (eq_trans Hfr Harc)|done| | |done|done|].
  - exists rel. split; [|by apply below_join]. apply members_of_elem. eauto.
  - intros rel' t (q & g & Hq & Hb & Hg)%members_of_elem Hj. apply below_join in Hb. congruence.
  - exists m', f'. split; [|done]. unfold migrate_data, act_bind at 1, catch, act_bind. rewrite Hcb, Hfail.
    rewrite Hr. done.
Qed.

(** *** A sample machine *)

Definition sample_config : ToolConfig :=
  mkToolConfig "/backup" "/data" ["upgrade_log"] "sandbox" ["indy-plenum"; "indy-node"].

Definition sample_tool (num : Z) : NodeControlTool :=
  new_NodeControlTool sample_config BACKUP_FORMAT false None None None None num "".

(** The installed version and the number of restarts so far. *)
Definition sample_effect (fail_script : bool) (cmd : string) (m : Machine (string * nat))
    : outcome * Machine (string * nat) :=
  let set_sys s := mkMachine (m_files m) (m_dirs m) (m_time m) s in
  if String.prefix "upgrade_indy_node" cmd then
    (Done "", set_sys (if py_in_str "1.0.3" cmd then "1.0.3" else "1.0.2", (m_sys m).2))
  else if String.prefix "dpkg --get" cmd then (Done "indy-node", m)
  else if String.prefix "dpkg -s" cmd then (Done ("Version: " +:+ (m_sys m).1), m)
  else if String.prefix "python3" cmd then
    (if fail_script then Exited 1 "" "" else Done "",
     with_files m (<["/data/txns" := mkFile (Text "migrated") (m_time m)]> (m_files m)))
  else if String.prefix "restart" cmd then
    (match (m_sys m).2 with O => Exited 1 "" "" | _ => Done "" end, set_sys ((m_sys m).1, S (m_sys m).2))
  else (Done "", m).

Definition sample_machine_shell (fail_script : bool) : Shell (Machine (string * nat)) :=
  {| shell := sample_effect fail_script; which _ _ := true |}.

Definition sample_machine : Machine (string * nat) :=
  mkMachine {[ "/data/txns" := mkFile (Text "old") 1;
               "/data/upgrade_log" := mkFile (Text "scheduled") 1;
               "/backup/sandbox_backup_1.0.0.zip" := mkFile (Archive []) 1;
               "/backup/sandbox_backup_1.0.1.zip" := mkFile (Archive []) 5 ]}
    {[ "/data"; "/backup" ]} 9 ("1.0.2", O).

Definition text_of (m : Machine (string * nat)) (p : string) : option content := f_content <$> m_files m !! p.

Definition sample_scripts (prefix : string) : list string := ["1_0_2_to_1_0_3"].
Definition sample_path (prefix script : string) : string := prefix +:+ "/" +:+ script.

Lemma backups_bounded_witness :
  ∃ m' l', migrate_data (SH := sample_machine_shell false) (λ a b, Ok (weight_cmp a b)) (λ _, "Ubuntu")
      sample_scripts sample_path (sample_tool 1) "1.0.2" "1.0.3" sample_machine = (Ok tt, m') ∧
    get_backups (sample_tool 1) m' = (Ok l', m') ∧ (Z.of_nat (length l') ≤ 1)%Z.
Proof.
  assert (∃ m', migrate_data (SH := sample_machine_shell false) (λ a b, Ok (weight_cmp a b)) (λ _, "Ubuntu")
      sample_scripts sample_path (sample_tool 1) "1.0.2" "1.0.3" sample_machine = (Ok tt, m')) as [m' H]
    by (eexists; vm_compute; reflexivity).
  destruct (backups_bounded (SH := sample_machine_shell false) (λ a b, Ok (weight_cmp a b)) (λ _, "Ubuntu")
    sample_scripts sample_path (sample_tool 1) "1.0.2" "1.0.3" sample_machine m' ltac:(discriminate) H)
    as (mb & m1 & l & l' & _ & _ & _ & Hl & Hlen & _).
  exists m', l'. exact (conj H (conj Hl Hlen)).
Defined.

Lemma failed_migration_restores_witness :
  ∃ m' f', migrate_data (SH := sample_machine_shell true) (λ a b, Ok (weight_cmp a b)) (λ _, "Ubuntu")
      sample_scripts sample_path (sample_tool 10) "1.0.2" "1.0.3" sample_machine
    = (Raise (PyException "Migration failed: script returned 1"), m') ∧
    m_files m' !! "/data/txns" = Some f' ∧ f_content f' = Text "old".
Proof.
  eapply (failed_migration_restores (SH := sample_machine_shell true) (λ a b, Ok (weight_cmp a b))
    (λ _, "Ubuntu") sample_scripts sample_path (sample_tool 10) "1.0.2" "1.0.3" _ "/data/txns"
    (mkFile (Text "old") 1) "old" "txns" sample_machine).
  - intros cmd w. cbn [shell sample_machine_shell]. unfold sample_effect. repeat case_match; try done.
    all: cbn [snd with_files m_files]; apply lookup_insert_ne; vm_compute; discriminate.
  - vm_compute. set_solver.
  - vm_compute. reflexivity.
  - vm_compute. reflexivity.
  - reflexivity.
  - vm_compute. reflexivity.
  - repeat constructor; vm_compute; discriminate.
  - vm_compute. reflexivity.
Defined.

(** *** Messages *)

(** The messages, the connections opened and those closed in a sequence of events. *)
Definition data_of (evs : list socket_event) : list string :=
  omap (λ ev, match ev with
              | ConnectionReady _ (Ok data) _ => if str_truth data then Some data else None
              | _ => None
              end) evs.

Definition opened (evs : list socket_event) : list nat :=
  omap (λ ev, match ev with ServerReady (Ok c) => Some c | _ => None end) evs.

Definition closed (evs : list socket_event) : list nat :=
  omap (λ ev, match ev with
              | ConnectionReady c (Ok data) _ => if str_truth data then None else Some c
              | _ => None
              end) evs.

(** The exception of the calls on the socket, if any. *)
Definition socket_error (ev : socket_event) : option exn :=
  match ev with
  | ServerReady (Raise e) | ConnectionReady _ (Raise e) _ => Some e
  | ConnectionReady _ (Ok data) (Raise e) => if str_truth data then Some e else None
  | _ => None
  end.

(** What [select] reports: connections that were opened and not closed before. *)
Fixpoint reported (readers : list nat) (evs : list socket_event) : Prop :=
  match evs with
  | [] => True
  | ServerReady accepted :: evs' =>
      reported (match accepted with Ok c => readers ++ [c] | Raise _ => readers end) evs'
  | ConnectionReady c received _ :: evs' =>
      c ∈ readers ∧
      reported (match received with
                | Ok data => if str_truth data then readers else List.filter (λ d, negb (Nat.eqb d c)) readers
                | Raise _ => readers
                end) evs'
  end.

Lemma remove_reader_ok c readers :
  NoDup readers → c ∈ readers →
  remove_reader c readers = Ok (List.filter (λ d, negb (Nat.eqb d c)) readers).
Proof.
  induction readers as [|x l IH]; intros Hnd Hc; [by apply not_elem_of_nil in Hc|].
  apply NoDup_cons in Hnd as [Hx Hnd]. cbn. destruct (Nat.eqb_spec x c) as [->|Hne]; cbn.
  - f_equal. clear -Hx. induction l as [|y l IH]; [done|]. apply not_elem_of_cons in Hx as [Hy Hx]. cbn.
    rewrite (proj2 (Nat.eqb_neq y c)) by done. cbn. f_equal. by apply IH.
  - apply elem_of_cons in Hc as [->|Hc]; [done|]. by rewrite IH.
Qed.

Lemma elem_of_filter_ne (c x : nat) l : x ∈ List.filter (λ d, negb (Nat.eqb d c)) l ↔ x ∈ l ∧ x ≠ c.
Proof.
  rewrite list_elem_of_In, filter_In, <- list_elem_of_In, negb_true_iff, Nat.eqb_neq. done.
Qed.

(** The loop while the calls on the sockets succeed. *)
Lemma serve_ok {S} {SH : Shell (Machine S)} {SO : SetOrder} {Ver}
    (version_of : version_cls → string → res Ver) ver_eqb release metadata_version compareVersions
    linux_distribution iter_modules script_path json_loads tool evs rest : ∀ readers p,
  let handle := process_data version_of ver_eqb release metadata_version compareVersions
    linux_distribution iter_modules script_path json_loads tool in
  let serve := serve version_of ver_eqb release metadata_version compareVersions
    linux_distribution iter_modules script_path json_loads tool in
  NoDup (readers ++ opened evs) → Forall (λ ev, socket_error ev = None) evs → reported readers evs →
  ∃ readers', serve readers (evs ++ rest) p =
      serve readers' rest (foldl (λ q data, (handle data q).2) p (data_of evs)) ∧
    ∀ c, c ∈ readers' ↔ (c ∈ readers ∨ c ∈ opened evs) ∧ c ∉ closed evs.
Proof.
  intros readers p handle serve'. revert readers p.
  assert (∀ data q, ∃ q', handle data q = (Ok tt, q')) as Htot.
  { intros data q. destruct (catch_total (handle_message version_of ver_eqb release metadata_version
      compareVersions linux_distribution iter_modules script_path json_loads tool data) (λ _, ret tt) q)
      as ([] & q' & H); [intros; by eexists _, _|]. by exists q'. }
  induction evs as [|ev evs IH]; intros readers p Hnd Hok Hrep.
  { exists readers. split; [done|]. intros c. cbn. rewrite !elem_of_nil. tauto. }
  apply Forall_cons in Hok as [Hev Hok].
  destruct ev as [[c|e]|c [data|e] peer]; try discriminate Hev; cbn [reported] in Hrep.
  - destruct (IH (readers ++ [c]) p) as (r' & Hr & Hc); [by rewrite <- app_assoc|done|done|].
    exists r'. split; [exact Hr|]. intros x. rewrite Hc. cbn. rewrite elem_of_app, !elem_of_cons, elem_of_nil. tauto.
  - destruct Hrep as [Hin Hrep]. cbn [socket_error] in Hev.
    assert (serve' readers ((ConnectionReady c (Ok data) peer :: evs) ++ rest) p =
      (let? readers := on_event version_of ver_eqb release metadata_version compareVersions
         linux_distribution iter_modules script_path json_loads tool readers (ConnectionReady c (Ok data) peer) in
       serve' readers (evs ++ rest)) p) as -> by done.
    cbn [on_event]. unfold act_bind at 1. unfold lift at 1.
    destruct (str_truth data) eqn:Ed.
    + destruct peer as [[]|e]; [|done]. destruct (Htot data p) as [q Hq].
      destruct (IH readers q Hnd Hok Hrep) as (r' & Hr & Hc). exists r'. cbn. rewrite Ed.
      split; [|exact Hc]. cbn. unfold act_bind, lift. fold handle. rewrite Hq. cbn. exact Hr.
    + rewrite remove_reader_ok by (done || exact (proj1 (proj1 (NoDup_app _ _) Hnd))).
      destruct (IH (List.filter (λ d, negb (Nat.eqb d c)) readers) p) as (r' & Hr & Hc).
      { apply NoDup_app in Hnd as (H1 & H2 & H3). apply NoDup_app. split; [|split; [|done]].
        - by apply NoDup_ListNoDup, List.NoDup_filter, NoDup_ListNoDup.
        - intros x [Hx _]%elem_of_filter_ne. by apply H2. }
      { done. }
      { done. }
      exists r'. cbn. rewrite Ed. split; [exact Hr|]. intros x. rewrite Hc, elem_of_filter_ne, elem_of_cons.
      apply NoDup_app in Hnd as (_ & Hdis & _). split; [|naive_solver].
      intros [[[? ?]|Ho] Hx]; [naive_solver|]. split; [by right|]. intros [->|?]; [|done].
      by apply (Hdis c Hin).
Qed.

(** A reset connection ends the loop: nothing around [recv] catches the error. *)
Lemma reset_ends_loop {S} {SH : Shell (Machine S)} {SO : SetOrder} {Ver}
    (version_of : version_cls → string → res Ver) ver_eqb release metadata_version compareVersions
    linux_distribution iter_modules script_path json_loads tool readers c e peer evs p :
  serve version_of ver_eqb release metadata_version compareVersions linux_distribution iter_modules script_path
    json_loads tool readers (ConnectionReady c (Raise e) peer :: evs) p = (Raise e, p).
Proof. reflexivity. Qed.

(** C24. The tool serves its messages until a call on a socket raises.  After its
    packages are held, and while [accept], [recv] and [getpeername] succeed, it
    handles every message, in the order of arrival and whatever the message is or
    does (a command that cannot be read, an upgrade or a restart that fails), and
    then goes on; the connections it listens to are exactly those that were opened
    and have not closed.  The first of those calls that raises ends the program
    with that exception, after the messages before it were handled: a connection
    that is reset stops the tool.  ([select] reports open connections only, and an
    open connection has a number of its own.) *)
Theorem serves_every_message {S} {SH : Shell (Machine S)} {SO : SetOrder} {Ver}
    (version_of : version_cls → string → res Ver) ver_eqb release metadata_version compareVersions
    linux_distribution iter_modules script_path json_loads tool evs p p1 :
  let handle := process_data version_of ver_eqb release metadata_version compareVersions
    linux_distribution iter_modules script_path json_loads tool in
  let start := start version_of ver_eqb release metadata_version compareVersions
    linux_distribution iter_modules script_path json_loads tool in
  hold_packages (PACKAGES_TO_HOLD tool ++ hold_ext tool) p = (Ok tt, p1) →
  NoDup (opened evs) → Forall (λ ev, socket_error ev = None) evs → reported [] evs →
  (∃ readers, start evs p = (Ok readers, foldl (λ q data, (handle data q).2) p1 (data_of evs)) ∧
    ∀ c, c ∈ readers ↔ c ∈ opened evs ∧ c ∉ closed evs) ∧
  (∀ ev e rest, socket_error ev = Some e →
    start (evs ++ ev :: rest) p = (Raise e, foldl (λ q data, (handle data q).2) p1 (data_of evs))).
Proof.
  intros handle start' Hhold Hnd Hok Hrep. unfold start', start, act_bind. rewrite Hhold. split.
  - destruct (serve_ok version_of ver_eqb release metadata_version compareVersions
      linux_distribution iter_modules script_path json_loads tool evs [] [] p1 Hnd Hok Hrep)
      as (r & Hr & Hc). rewrite app_nil_r in Hr. exists r. split; [exact Hr|]. intros c. rewrite Hc.
    rewrite elem_of_nil. tauto.
  - intros ev e rest He. destruct (serve_ok version_of ver_eqb release metadata_version compareVersions
      linux_distribution iter_modules script_path json_loads tool evs (ev :: rest) [] p1 Hnd Hok Hrep)
      as (r & Hr & _). etransitivity; [exact Hr|].
    destruct ev as [[c|e1]|c [data|e1] peer]; try discriminate He; try (injection He as <-; done).
    cbn [socket_error] in He. cbn [serve on_event]. unfold act_bind, lift.
    destruct peer as [?|e2]; [discriminate He|]. destruct (str_truth data); [|discriminate He].
    by injection He as <-.
Qed.

(** Two connections; one sends a message that is no JSON and closes, the other is
    reset. *)
Definition sample_events : list socket_event :=
  [ServerReady (Ok 1); ServerReady (Ok 2); ConnectionReady 1 (Ok "{") (Ok tt);
   ConnectionReady 1 (Ok "") (Ok tt)].

Lemma serves_every_message_witness :
  let SH := sample_machine_shell false in
  let run := start (SH := SH) (λ _, Ok) str_eqb id (Ok "1.0.2")
    (λ a b, Ok (weight_cmp a b)) (λ _, "Ubuntu") sample_scripts sample_path
    (λ _, Raise (ValueError "Expecting value")) (sample_tool 10) in
  (∃ readers p', run sample_events (mkProcess ∅ sample_machine) = (Ok readers, p') ∧
    ∀ c, c ∈ readers ↔ c ∈ [1; 2] ∧ c ∉ [1]) ∧
  ∃ p', run (sample_events ++ [ConnectionReady 2 (Raise (OSError "Connection reset by peer")) (Ok tt)])
    (mkProcess ∅ sample_machine) = (Raise (OSError "Connection reset by peer"), p').
Proof.
  intros SH run.
  destruct (serves_every_message (SH := SH) (λ _, Ok) str_eqb id (Ok "1.0.2")
    (λ a b, Ok (weight_cmp a b)) (λ _, "Ubuntu") sample_scripts sample_path
    (λ _, Raise (ValueError "Expecting value")) (sample_tool 10) sample_events
    (mkProcess ∅ sample_machine) (mkProcess ∅ sample_machine))
    as [(readers & H1 & H2) H3].
  - reflexivity.
  - apply (bool_decide_unpack _). reflexivity.
  - repeat constructor.
  - cbn. rewrite !elem_of_cons. tauto.
  - split; [eexists _, _; split; [exact H1|exact H2]|].
    eexists. apply (H3 _ (OSError "Connection reset by peer")). reflexivity.
Defined.

(** A failed restart is reported as a fault of the report: the message is joined
    from a text and the return code. *)
Theorem restart_failure_masked {S} {SH : Shell (Machine S)} (p : Process (Machine S)) rc out err w :
  shell "restart_indy_node" (p_machine p) = (Exited rc out err, w) →
  restart p = (Raise (TypeError "can only concatenate str (not int) to str"), mkProcess (p_cache p) w).
Proof.
  intros H. unfold restart, catch, call_restart_node_script, script, act_bind.
  change (lift (compose_cmd ["restart_indy_node"]) p)
    with (Ok "restart_indy_node" : res string, p). cbn.
  unfold run_shell_script. cbn [shell process_shell]. by rewrite H.
Qed.

Lemma restart_failure_masked_witness :
  restart (SH := sample_machine_shell true) (mkProcess ∅ sample_machine) =
    (Raise (TypeError "can only concatenate str (not int) to str"),
     mkProcess ∅ (sample_effect true "restart_indy_node" sample_machine).2).
Proof.
  refine (restart_failure_masked (SH := sample_machine_shell true) (mkProcess ∅ sample_machine) 1 "" ""
    (sample_effect true "restart_indy_node" sample_machine).2 _). vm_compute. reflexivity.
Defined.

(** The files to preserve are not preserved: the temporary directory they are
    copied to is never made, both copies fail, and the restore leaves the files of
    the backup. *)
Theorem preserved_file_lost :
  let m := (create_backup (sample_tool 10) "1.0.2" sample_machine).2 in
  let m1 := with_files m (<["/data/upgrade_log" := mkFile (Text "scheduled, started") 10]> (m_files m)) in
  ∃ m2, restore_from_backup (sample_tool 10) "1.0.2" m1 = (Ok tt, m2) ∧
    text_of m2 "/data/upgrade_log" = Some (Text "scheduled").
Proof. eexists. split; vm_compute; reflexivity. Qed.

(** A rollback after a successful migration keeps the migrated data, and replaces
    the backup of the data before the migration with one of the data after it: the
    version the tool migrates from is that of its own process, so the rollback
    migrates from the old version to the old version. *)
Theorem rollback_loses_backup :
  let v s := mkDebian s None s None in
  let archive m := text_of m "/backup/sandbox_backup_1.0.2.zip" in
  ∃ p, do_upgrade (SH := sample_machine_shell false) (λ _, Ok) id (Ok "1.0.2")
      (λ a b, Ok (weight_cmp a b)) (λ _, "Ubuntu") sample_scripts sample_path (sample_tool 10)
      "indy-node" (v "1.0.2") (v "1.0.3") true (mkProcess ∅ sample_machine) = (Ok tt, p) ∧
    m_sys (p_machine p) = ("1.0.2", 2) ∧
    text_of (p_machine p) "/data/txns" = Some (Text "migrated") ∧
    ∃ l, archive (p_machine p) = Some (Archive l) ∧ ("txns", "migrated") ∈ l ∧ ("txns", "old") ∉ l.
Proof.
  eexists. split; [vm_compute; reflexivity|]. split; [reflexivity|]. split; [vm_compute; reflexivity|].
  eexists. split; [vm_compute; reflexivity|]. split; [set_solver|].
  rewrite !elem_of_cons, elem_of_nil. intros [[=]|[[=]|[]]].
Qed.

(** *** Upgrade attempts *)

Lemma compose_prefix words cmd : compose_cmd words = Ok cmd → ∃ t, py_join " " words = cmd +:+ t.
Proof.
  assert (∀ l, ∃ t, l = rstrip (before_command_separator (first_line l)) +:+ t) as H.
  { intros l. destruct (first_line_prefix l) as [t1 H1]. destruct (cut_prefix (first_line l)) as [t2 H2].
    destruct (rstrip_prefix (before_command_separator (first_line l))) as [t3 H3].
    exists (t3 +:+ t2 +:+ t1). rewrite <- !str_app_assoc, <- H3, <- H2. exact H1. }
  unfold compose_cmd. destruct (py_join " " words) as [|c line]; [done|]. intros [= <-].
  exact (H (String c line)).
Qed.

Definition is_upgrade (cmd : string) : bool := String.prefix "upgrade_indy_node" cmd.

(** A command whose first word does not start as the upgrade script's does. *)
Lemma not_upgrade c w ws cmd :
  compose_cmd (String c w :: ws) = Ok cmd → c ≠ "u"%char → is_upgrade cmd = false.
Proof.
  intros H Hc. apply compose_prefix in H as [t Ht]. destruct cmd as [|d cmd]; [done|].
  assert (c = d) as <- by (destruct ws; cbn in Ht; congruence).
  unfold is_upgrade. cbn [String.prefix]. destruct (ascii_dec _ c) as [E|E]; [by destruct Hc|done].
Qed.

(** A shell that keeps the commands it was given, and does anything else to the
    machine. *)
Definition logging_machine (effect : string → Machine (list string) → outcome * Machine (list string))
    (installed : string → bool) : Shell (Machine (list string)) :=
  {| shell cmd m := let '(o, m1) := effect cmd m in
                    (o, mkMachine (m_files m1) (m_dirs m1) (m_time m1) (m_sys m ++ [cmd]));
     which program _ := installed program |}.

Section Attempts.
Context (effect : string → Machine (list string) → outcome * Machine (list string)).
Context (installed : string → bool).
#[local] Instance attempts_shell : Shell (Machine (list string)) := logging_machine effect installed.
Context {SO : SetOrder} {Ver : Type} (version_of : version_cls → string → res Ver).
Context (release : Ver → string) (metadata_version : res Ver).
Context (compareVersions : string → string → res Z) (linux_distribution : Machine (list string) → string).
Context (iter_modules : string → list string) (script_path : string → string → string).
Context (tool : NodeControlTool).

Definition upgrades_of (m : Machine (list string)) : list string := List.filter is_upgrade (m_sys m).

Definition same_upgrades (m m' : Machine (list string)) : Prop := upgrades_of m' = upgrades_of m.
Definition same_upgrades_p (p p' : Process (Machine (list string))) : Prop :=
  same_upgrades (p_machine p) (p_machine p').

#[local] Instance same_upgrades_pre : PreOrder same_upgrades.
Proof. split; unfold same_upgrades; congruence. Qed.
#[local] Instance same_upgrades_p_pre : PreOrder same_upgrades_p.
Proof. split; unfold same_upgrades_p, same_upgrades; congruence. Qed.

Lemma shell_log cmd m : upgrades_of (shell cmd m).2 = upgrades_of m ++ (if is_upgrade cmd then [cmd] else []).
Proof.
  cbn [shell attempts_shell logging_machine]. destruct (effect cmd m) as [o m1]. unfold upgrades_of. cbn.
  by rewrite List.filter_app.
Qed.

Lemma quiet_shell_machine cmd m : is_upgrade cmd = false → same_upgrades m (shell cmd m).2.
Proof. intros H. unfold same_upgrades. by rewrite shell_log, H, app_nil_r. Qed.

Lemma quiet_shell_process cmd p : is_upgrade cmd = false → same_upgrades_p p (shell cmd p).2.
Proof.
  intros H. unfold same_upgrades_p. cbn [shell process_shell].
  pose proof (quiet_shell_machine cmd (p_machine p) H) as Hq. by destruct (shell cmd (p_machine p)).
Qed.

Lemma quiet_words c w ws :
  c ≠ "u"%char →
  frames same_upgrades_p (command (String c w :: ws)) ∧ frames same_upgrades_p (script (String c w :: ws)).
Proof.
  intros Hc. unfold command, script. destruct (compose_cmd (String c w :: ws)) as [cmd|e] eqn:E.
  - pose proof (not_upgrade _ _ _ _ E Hc) as Hq.
    destruct (frames_command same_upgrades_p cmd (λ p, quiet_shell_process cmd p Hq)) as (H1 & H2 & _).
    split; intros p; unfold act_bind, lift; [apply H1|apply H2].
  - split; intros p; reflexivity.
Qed.

Lemma quiet_command c w ws : c ≠ "u"%char → frames same_upgrades_p (command (String c w :: ws)).
Proof. intros H. by apply quiet_words. Qed.

Lemma quiet_script c w ws : c ≠ "u"%char → frames same_upgrades_p (script (String c w :: ws)).
Proof. intros H. by apply quiet_words. Qed.

(** [quiet]: none of the steps of a program runs an upgrade script. *)
Ltac quiet :=
  repeat first
    [ assumption
    | apply quiet_command; discriminate
    | apply quiet_script; discriminate
    | apply frames_bind; [exact same_upgrades_p_pre| |intros ?]
    | apply frames_ret; exact same_upgrades_p_pre
    | apply frames_raise; exact same_upgrades_p_pre
    | apply frames_lift; exact same_upgrades_p_pre
    | apply frames_catch; [exact same_upgrades_p_pre| |intros ?]
    | progress case_match ].

Lemma quiet_get_curr_info package : frames same_upgrades_p (get_curr_info package).
Proof. unfold get_curr_info, package_exists. quiet. Qed.

Lemma quiet_installed : frames same_upgrades_p (installed_src_version version_of).
Proof.
  unfold installed_src_version, curr_pkg_info. pose proof (quiet_get_curr_info APP_NAME). quiet.
Qed.

Lemma quiet_update_cache : frames same_upgrades_p update_package_cache.
Proof.
  unfold update_package_cache, update_repo_keys, update_apt_update_dependencies.
  destruct (frames_command same_upgrades_p "apt update" (λ p, quiet_shell_process "apt update" p eq_refl))
    as (_ & H & _).
  change (compose_cmd ["apt"; "update"]) with (Ok "apt update" : res string).
  apply frames_lift_bind. quiet.
Qed.

Lemma quiet_curr_pkg_info pkg : frames same_upgrades_p (curr_pkg_info version_of pkg).
Proof. unfold curr_pkg_info. pose proof (quiet_get_curr_info pkg). quiet. Qed.

Lemma quiet_debian_cmp v1 v2 : frames same_upgrades_p (debian_cmp v1 v2).
Proof.
  assert (frames same_upgrades_p (debian_cmp_raw v1 v2)) as Hraw.
  { unfold debian_cmp_raw. destruct (str_eqb v1 v2); [quiet|].
    destruct (compose_cmd (dpkg_gt v1 v2)) as [cmd|e] eqn:E; [|intros p; reflexivity].
    apply frames_lift_bind. assert (frames same_upgrades_p (run_shell_script_extended cmd)).
    { apply frames_command. intros p. apply quiet_shell_process. eapply not_upgrade; [exact E|discriminate]. }
    quiet. }
  assert (∀ k z, frames same_upgrades_p (cache_put (W := Machine (list string)) k z)) as Hput
    by (intros k z p; reflexivity).
  assert (∀ k, frames same_upgrades_p (cache_get (W := Machine (list string)) k)) as Hget
    by (intros k p; reflexivity).
  unfold debian_cmp. repeat first [ exact Hraw | apply Hput | apply Hget | progress quiet ].
Qed.

Lemma quiet_sort_versions (l : list (DebianVersion Ver)) : frames same_upgrades_p (sort_versions l).
Proof.
  assert (∀ (v : DebianVersion Ver) l, frames same_upgrades_p (insert_version v l)) as Hins.
  { intros v l0. induction l0 as [|x l0 IH]; cbn [insert_version]; [quiet|].
    pose proof (quiet_debian_cmp (dv_full v) (dv_full x)). quiet. }
  unfold sort_versions. generalize (@nil (DebianVersion Ver)) as acc. induction l as [|v l IH]; intros acc;
    cbn [sort_versions_onto]; [quiet|]. apply frames_bind; [exact same_upgrades_p_pre|apply Hins|intros ?; apply IH].
Qed.

Lemma quiet_latest ver_eqb pkg upstream :
  frames same_upgrades_p (get_latest_pkg_version version_of ver_eqb pkg upstream true).
Proof.
  unfold get_latest_pkg_version. pose proof quiet_update_cache.
  destruct (match upstream with Some (cls, _) => _ | None => false end); [quiet|].
  apply frames_bind; [exact same_upgrades_p_pre|done|intros _].
  apply frames_bind; [exact same_upgrades_p_pre| |].
  - apply frames_catch; [exact same_upgrades_p_pre| |intros e; quiet].
    destruct (compose_cmd ["apt-cache"; "show"; pkg; "|"; "grep"; "-E"; "'^Version: '"]) as [cmd|e] eqn:E;
      [|intros w; reflexivity].
    apply frames_lift_bind. apply frames_bind; [exact same_upgrades_p_pre| |intros ?; quiet].
    apply frames_command. intros p. apply quiet_shell_process. eapply not_upgrade; [exact E|discriminate].
  - intros out. unfold latest. quiet; apply quiet_sort_versions.
Qed.

Lemma quiet_sys_holds : frames same_upgrades_p get_sys_holds.
Proof.
  intros p. unfold get_sys_holds. destruct (which "apt-mark" p); [|reflexivity]. revert p.
  change (frames same_upgrades_p (let? out := command ["apt-mark"; "showhold"] in
    ret (List.filter str_truth (py_split newline (strip out))))). quiet.
Qed.

Lemma quiet_held left hold package m : frames same_upgrades_p (held_deps version_of left hold package m).
Proof.
  revert package m. induction left as [|left IH]; intros package m; cbn [held_deps]; [quiet|].
  unfold get_info_from_package_manager. quiet. apply IH.
Qed.

(** The packages an upgrade names include the one that was asked for. *)
Lemma get_deps_list_spec package :
  frames same_upgrades_p (get_deps_list version_of tool package) ∧
  ∀ p deps p', get_deps_list version_of tool package p = (Ok deps, p') →
    ∃ l, package ∈ l ∧ deps = py_join " " l.
Proof.
  split.
  - unfold get_deps_list, get_deps_tree_filtered. pose proof quiet_update_cache. pose proof quiet_sys_holds.
    quiet; apply quiet_held.
  - intros p deps p' H. unfold get_deps_list in H.
    apply act_bind_Ok in H as (_ & p1 & _ & H). apply act_bind_Ok in H as (holded & p2 & _ & H).
    destruct holded as [|h holded].
    + injection H as <- <-. exists [package]. split; [by left|done].
    + apply act_bind_Ok in H as (l & p3 & _ & H). injection H as <- <-. eexists. split; [|done].
      case_bool_decide; [done|]. apply elem_of_app. right. by left.
Qed.

(** Operations on files do not run commands. *)
Definition same_sys (m m' : Machine (list string)) : Prop := m_sys m' = m_sys m.

#[local] Instance same_sys_pre : PreOrder same_sys.
Proof. split; unfold same_sys; congruence. Qed.

Lemma sys_upgrades {A} (f : act (Machine (list string)) A) : frames same_sys f → frames same_upgrades f.
Proof. intros H m. specialize (H m). unfold same_sys in H. unfold same_upgrades, upgrades_of. by rewrite H. Qed.

Lemma sys_file_ops :
  (∀ b f r, frames same_sys (make_archive b f r)) ∧ (∀ s d f, frames same_sys (try_copy s d f)) ∧
  (∀ p d, frames same_sys (unpack_archive p d)) ∧ (∀ d, frames same_sys (rmtree d)) ∧
  frames same_sys (get_backups tool) ∧ (∀ p, frames same_sys (remove_file p)).
Proof.
  repeat split; intros; intros m; unfold same_sys.
  - unfold make_archive. by case_bool_decide.
  - unfold try_copy, catch, copy2, write_file. repeat case_match; simplify_eq; try done.
  - unfold unpack_archive. repeat case_match; done.
  - unfold get_backups, act_bind, listdir. by case_bool_decide.
  - unfold remove_file. by destruct (isfile p m).
Qed.

Lemma quiet_migrate_data cur new :
  frames same_upgrades (migrate_data compareVersions linux_distribution iter_modules script_path tool cur new).
Proof.
  destruct sys_file_ops as (Har & Hcp & Hun & Hrm & Hgb & Hdel).
  assert (frames same_upgrades (restore_from_backup tool cur)) as Hrestore.
  { apply sys_upgrades. unfold restore_from_backup.
    repeat (apply frames_bind; [exact same_sys_pre|..|intros ?]); auto using frames_each with typeclass_instances. }
  assert (frames same_upgrades (create_backup tool cur)) by (apply sys_upgrades, Har).
  assert (frames same_upgrades (remove_old_backups tool)).
  { apply sys_upgrades. apply frames_bind; [exact same_sys_pre|done|]. intros l.
    apply frames_each; [exact same_sys_pre|done]. }
  assert (frames same_upgrades (do_migration compareVersions linux_distribution iter_modules script_path cur new)).
  { apply frames_bind; [exact same_upgrades_pre| |intros ?; apply frames_ret; exact same_upgrades_pre].
    apply migrate_frames; [exact same_upgrades_pre|]. intros file cmd w H1. apply quiet_shell_machine.
    eapply not_upgrade; [exact H1|discriminate]. }
  unfold migrate_data. repeat (first [ done
    | apply frames_bind; [exact same_upgrades_pre|..|intros ?]
    | apply frames_catch; [exact same_upgrades_pre|..|intros ?]
    | apply frames_raise; exact same_upgrades_pre ]).
Qed.

(** The command that installs a version of a package. *)
Definition installs (pkg_name : string) (v : DebianVersion Ver) (cmd : string) : Prop :=
  ∃ l, pkg_name +:+ "=" +:+ dv_full v ∈ l ∧
    compose_cmd [upgrade_script tool; quoted (py_join " " l)] = Ok cmd.

Definition up_to_one (pkg_name : string) (v : DebianVersion Ver) (cmds : list string) : Prop :=
  cmds = [] ∨ ∃ cmd, cmds = [cmd] ∧ installs pkg_name v cmd.

Lemma call_upgrade_installs pkg v p :
  ∃ cmds, upgrades_of (p_machine (call_upgrade_script version_of tool pkg v p).2) =
      upgrades_of (p_machine p) ++ cmds ∧ up_to_one pkg v cmds.
Proof.
  unfold call_upgrade_script, act_bind.
  destruct (get_deps_list_spec (pkg +:+ "=" +:+ dv_full v)) as [Hq Hspec]. specialize (Hq p).
  destruct (get_deps_list version_of tool _ p) as [[deps|e] p1] eqn:E; cbn [snd] in Hq |- *;
    [|exists []; rewrite app_nil_r; split; [exact Hq|by left]].
  destruct (Hspec _ _ _ E) as (l & Hl & ->). unfold same_upgrades_p, same_upgrades in Hq. rewrite <- Hq.
  unfold script, act_bind, lift.
  destruct (compose_cmd [upgrade_script tool; quoted (py_join " " l)]) as [cmd|e] eqn:Hc;
    [|exists []; rewrite app_nil_r; split; [done|by left]].
  exists (if is_upgrade cmd then [cmd] else []). split.
  - rewrite <- shell_log. unfold run_shell_script. cbn [shell process_shell].
    by destruct (shell cmd (p_machine p1)) as [[] ?].
  - destruct (is_upgrade cmd); [right|by left]. exists cmd. split; [done|]. by exists l.
Qed.

(** One attempt installs one version at most once. *)
Lemma attempt_installs pkg cur v p :
  ∃ cmds, upgrades_of (p_machine (attempt version_of release compareVersions linux_distribution iter_modules
               script_path tool pkg cur v p).2) = upgrades_of (p_machine p) ++ cmds ∧ up_to_one pkg v cmds.
Proof.
  unfold attempt. destruct (call_upgrade_installs pkg v p) as (cmds & Hu & Hc). exists cmds. split; [|done].
  rewrite <- Hu. unfold act_bind at 1.
  destruct (call_upgrade_script version_of tool pkg v p) as [[u|e] p1]; [|done]. cbn [snd].
  match goal with |- upgrades_of (p_machine (?f p1).2) = _ => assert (frames same_upgrades_p f) as Hf end;
    [|exact (Hf p1)].
  pose proof quiet_installed. unfold call_restart_node_script. quiet.
  match goal with |- frames _ (on_machine ?f) => assert (frames same_upgrades f) as Hm
    by apply quiet_migrate_data end.
  intros q. specialize (Hm (p_machine q)). unfold on_machine.
  match type of Hm with context [migrate_data ?a ?b ?c ?d ?e ?f ?g ?h] => destruct (migrate_data a b c d e f g h) end.
  exact Hm.
Qed.
End Attempts.

(** An upgrade to a version with the way back. *)
Lemma do_upgrade_installs effect installed {SO : SetOrder} {Ver}
    (version_of : version_cls → string → res Ver) release metadata_version compareVersions
    linux_distribution iter_modules script_path tool pkg curr new p r p' :
  let SH := logging_machine effect installed in
  do_upgrade (SH := SH) version_of release metadata_version compareVersions linux_distribution
    iter_modules script_path tool pkg curr new true p = (r, p') →
  ∃ first second, upgrades_of (p_machine p') = upgrades_of (p_machine p) ++ first ++ second ∧
    up_to_one tool pkg new first ∧ up_to_one tool pkg curr second ∧
    (∀ ver p1, metadata_version = Ok ver →
      attempt (SH := SH) version_of release compareVersions linux_distribution iter_modules script_path tool
        pkg ver new p = (Ok tt, p1) → second = [] ∧ p' = p1).
Proof.
  intros SH. unfold do_upgrade, do_upgrade_once, act_bind, lift.
  destruct metadata_version as [ver|e]; [|intros [= <- <-]; exists [], []; rewrite app_nil_r;
    repeat split; try (by left); discriminate].
  unfold catch at 1. intros H.
  destruct (attempt_installs effect installed version_of release compareVersions linux_distribution
    iter_modules script_path tool pkg ver new p) as (c1 & H1 & Hc1).
  unfold attempts_shell in H1. fold SH in H1.
  destruct (attempt version_of release compareVersions linux_distribution iter_modules script_path tool pkg
    ver new p) as [[[]|e] p1] eqn:E1; cbn [snd] in H1.
  - injection H as <- <-. exists c1, []. rewrite app_nil_r. split; [done|]. split; [done|].
    split; [by left|]. intros ver' p2 [= <-] H2. split; congruence.
  - destruct (attempt_installs effect installed version_of release compareVersions linux_distribution
      iter_modules script_path tool pkg ver curr p1) as (c2 & H2 & Hc2).
    unfold attempts_shell in H2. fold SH in H2. exists c1, c2. rewrite app_assoc, <- H1, <- H2.
    unfold catch in H.
    destruct (attempt version_of release compareVersions linux_distribution iter_modules script_path tool pkg
      ver curr p1) as [[[]|e'] p2]; injection H as <- <-;
      (split; [done|]; split; [done|]; split; [done|]; intros ver' q [= <-] Hq; congruence).
Qed.

(** C15. An upgrade installs at most twice.  Whatever the machine does, one
    upgrade request runs the upgrade script at most once for the new version, the
    latest package of the version asked for, and, only when that attempt raised, at
    most once for the version that was installed when the request was taken up; each
    command names the package with the version meant.  Without an installed version
    or such a package it runs none. *)
Theorem upgrade_attempts_bounded effect installed {SO : SetOrder} {Ver}
    (version_of : version_cls → string → res Ver) ver_eqb release metadata_version compareVersions
    linux_distribution iter_modules script_path tool wanted pkg p r p' :
  let SH := logging_machine effect installed in
  upgrade (SH := SH) version_of ver_eqb release metadata_version compareVersions linux_distribution
    iter_modules script_path tool wanted pkg true p = (r, p') →
  upgrades_of (p_machine p') = upgrades_of (p_machine p) ∨
  ∃ curr deps p0 new p1 first second,
    curr_pkg_info (SH := SH) version_of pkg p = (Ok (Some curr, deps), p0) ∧
    get_latest_pkg_version (SH := SH) version_of ver_eqb pkg (Some wanted) true p0 = (Ok (Some new), p1) ∧
    upgrades_of (p_machine p') = upgrades_of (p_machine p) ++ first ++ second ∧
    up_to_one tool pkg new first ∧ up_to_one tool pkg curr second ∧
    (∀ ver p2, metadata_version = Ok ver →
      attempt (SH := SH) version_of release compareVersions linux_distribution iter_modules script_path tool
        pkg ver new p1 = (Ok tt, p2) → second = [] ∧ p' = p2).
Proof.
  intros SH H. unfold upgrade, act_bind in H.
  pose proof (quiet_curr_pkg_info effect installed version_of pkg p) as Q0.
  unfold attempts_shell in Q0. fold SH in Q0. unfold same_upgrades_p, same_upgrades in Q0.
  destruct (curr_pkg_info version_of pkg p) as [[[[curr|] deps]|e] p0] eqn:E0; cbn [snd] in Q0;
    [|left; by injection H as <- <-..].
  pose proof (quiet_latest effect installed version_of ver_eqb pkg (Some wanted) p0) as Q1.
  unfold attempts_shell in Q1. fold SH in Q1. unfold same_upgrades_p, same_upgrades in Q1.
  destruct (get_latest_pkg_version version_of ver_eqb pkg (Some wanted) true p0) as [[[new|]|e] p1] eqn:E1;
    cbn [snd] in Q1; [|left; injection H as <- <-; congruence..].
  right. apply do_upgrade_installs in H as (first & second & H1 & H2).
  exists curr, deps, p0, new, p1, first, second. do 2 (split; [done|]). split; [|exact H2].
  by rewrite H1, Q1, Q0.
Qed.

(** A machine on which a restart fails once: the new version is installed, and
    then the old one again. *)
Definition flaky_effect (cmd : string) (m : Machine (list string)) : outcome * Machine (list string) :=
  if String.prefix "dpkg --get" cmd then (Done "indy-node", m)
  else if String.prefix "dpkg -s" cmd then (Done "Version: 1.0.2", m)
  else if String.prefix "apt-cache" cmd then (Done "Version: 1.0.3", m)
  else if String.prefix "restart" cmd && negb (existsb (String.prefix "restart") (m_sys m))
  then (Exited 1 "" "", m) else (Done "", m).

Definition flaky_machine : Machine (list string) := mkMachine ∅ {[ "/data"; "/backup" ]} 9 [].

Lemma upgrade_attempts_bounded_witness :
  let SH := logging_machine flaky_effect (λ _, true) in
  ∃ p', upgrade (SH := SH) (λ _, Ok) str_eqb id (Ok "1.0.2") (λ a b, Ok (weight_cmp a b)) (λ _, "Ubuntu")
      sample_scripts sample_path (sample_tool 10) (NodeVersion, "1.0.3") "indy-node" true
      (mkProcess ∅ flaky_machine) = (Ok tt, p') ∧
    length (upgrades_of (p_machine p')) = 2 ∧
    ∃ curr new first second, upgrades_of (p_machine p') = [] ++ first ++ second ∧
      up_to_one (Ver := string) (sample_tool 10) "indy-node" new first ∧
      up_to_one (Ver := string) (sample_tool 10) "indy-node" curr second.
Proof.
  intros SH.
  assert (∃ p', upgrade (SH := SH) (λ _, Ok) str_eqb id (Ok "1.0.2") (λ a b, Ok (weight_cmp a b))
      (λ _, "Ubuntu") sample_scripts sample_path (sample_tool 10) (NodeVersion, "1.0.3") "indy-node" true
      (mkProcess ∅ flaky_machine) = (Ok tt, p') ∧ length (upgrades_of (p_machine p')) = 2)
    as (p' & H & Hlen) by (eexists; split; vm_compute; reflexivity).
  exists p'. split; [exact H|]. split; [exact Hlen|].
  destruct (upgrade_attempts_bounded flaky_effect (λ _, true) (λ _, Ok) str_eqb id (Ok "1.0.2")
    (λ a b, Ok (weight_cmp a b)) (λ _, "Ubuntu") sample_scripts sample_path (sample_tool 10)
    (NodeVersion, "1.0.3") "indy-node" _ _ _ H)
    as [H0|(curr & deps & p0 & new & p1 & first & second & _ & _ & H1 & H2 & H3 & _)].
  - exfalso. rewrite H0 in Hlen. discriminate Hlen.
  - exists curr, new, first, second. exact (conj H1 (conj H2 H3)).
Defined.
