(* ===== verification/EnvFiles.v ===== *)
(** * The environment file of a node

    [/etc/indy/indy.env] holds lines [KEY=value] that the services of the node are
    started with.  [update_indy_env] of [indy_common/migration/helper.py] and the
    migration scripts change it: they set a key, append the addresses that are missing,
    and read the name of the node.  Files are those of the machine of the control tool. *)
From Stdlib Require Import Ascii.
From S2P Require Import Prelude PyValue Plenum Constants StateDomain IdrCache HandlerBase Upgrader PoolUpgrade World Versions Packages Migrations ControlTool.

Definition ENV_FILE_PATH : string := "/etc/indy/indy.env".
Definition ENV_FILE_PATH_TMP : string := ENV_FILE_PATH +:+ "_tmp".

Definition newline : ascii := "010".
Definition nl : string := String newline "".

(** ** Lines *)

(** [file.readlines()]: the lines with the line break that ends them; the last one may
    have none. *)
Fixpoint readlines (s : string) : list string :=
  match s with
  | "" => []
  | String c s' =>
      if Ascii.eqb c newline then nl :: readlines s'
      else match readlines s' with
           | [] => [String c ""]
           | l :: ls => String c l :: ls
           end
  end.

(** [line.split('=')[0].strip()] *)
Definition line_key (line : string) : string := strip (hd "" (py_split "=" line)).

(** ["{}={}\n".format(key, val)] *)
Definition env_line (key val : string) : string := key +:+ "=" +:+ val +:+ nl.

(** [line.find(sub) != -1] *)
Definition line_has (sub line : string) : bool := py_in_str sub line.

Section Env.
Context {S : Type}.
Abbreviation M := (act (Machine S)).
Implicit Types m : Machine S.

(** ** Reading and writing texts *)

(** [open(path, "r")] and the text; archives are no text files. *)
Definition read_text (p : string) : M string :=
  λ m, match m_files m !! p with
       | Some {| f_content := Text s |} => (Ok s, m)
       | Some _ => (Raise (ValueError "invalid start byte"), m)
       | None => (Raise (OSError "No such file or directory"), m)
       end.

(** [open(path, "w")] and the text written to it. *)
Definition write_text (p s : string) : M unit :=
  λ m, write_file p (mkFile (Text s) (m_time m)) m.

(** [open(path, "a")] *)
Definition append_text (p s : string) : M unit :=
  λ m, match m_files m !! p with
       | Some {| f_content := Text old |} => write_text p (old +:+ s) m
       | Some _ => (Raise (ValueError "invalid start byte"), m)
       | None => write_text p s m
       end.

(** [shutil.copy]: the copy is new. *)
Definition copy (src dst : string) : M unit :=
  λ m, match m_files m !! src with
       | None => (Raise (OSError "No such file or directory"), m)
       | Some f => if str_eqb src dst then (Raise (OSError "are the same file"), m)
                   else write_file dst (mkFile (f_content f) (m_time m)) m
       end.

(** [shutil.move] of a file to the name of a file. *)
Definition move_file (src dst : string) : M unit :=
  let? _ := copy2 src dst in remove_file src.

(** ** Operations *)

Definition update_lines (key val : string) (lines : list string) : list string :=
  map (λ line, if str_eqb key (line_key line) then env_line key val else line) lines.

Definition has_key (key : string) (lines : list string) : bool :=
  existsb (λ line, str_eqb key (line_key line)) lines.

Definition update_indy_env (key val : string) : M unit :=
  let? _ := copy ENV_FILE_PATH ENV_FILE_PATH_TMP in
  let? text := read_text ENV_FILE_PATH in
  let? _ := write_text ENV_FILE_PATH_TMP (String.concat "" (update_lines key val (readlines text))) in
  if negb (has_key key (readlines text))
  then let? _ := append_text ENV_FILE_PATH (nl +:+ env_line key val) in remove_file ENV_FILE_PATH_TMP
  else move_file ENV_FILE_PATH_TMP ENV_FILE_PATH.

(** [get_node_name] of the migration scripts. *)
Fixpoint node_name_of (lines : list string) : res (option string) :=
  match lines with
  | [] => Ok None
  | line :: lines' =>
      if line_has "NODE_NAME" line
      then match py_split "=" line with
           | _ :: v :: _ => Ok (Some (strip v))
           | _ => Raise IndexError
           end
      else node_name_of lines'
  end.

Definition get_node_name : M (option string) :=
  λ m, if isfile ENV_FILE_PATH m
       then (let? text := read_text ENV_FILE_PATH in lift (node_name_of (readlines text))) m
       else (Ok None, m).

(** [1_2_273_to_1_2_274.py] *)
Definition migrate_env_273 : M unit := append_text ENV_FILE_PATH (nl +:+ "CLIENT_CONNECTIONS_LIMIT=15360").

(** [1_4_500_to_1_4_501.py] and [1_6_703_to_1_6_704.py] *)
Definition migrate_env_500 : M unit := update_indy_env "CLIENT_CONNECTIONS_LIMIT" "10000".
Definition migrate_env_703 : M unit := update_indy_env "CLIENT_CONNECTIONS_LIMIT" "500".

(** [1_3_433_to_1_3_434.py] *)
Definition node_ip_key : string := "NODE_IP".
Definition client_ip_key : string := "NODE_CLIENT_IP".

Definition are_ips_present_in_env : M (bool * bool) :=
  let? text := read_text ENV_FILE_PATH in
  ret (has_key node_ip_key (readlines text), has_key client_ip_key (readlines text)).

Definition append_ips_to_env (node_ip client_ip : option string) : M unit :=
  match node_ip, client_ip with
  | None, None => ret tt
  | _, _ =>
      append_text ENV_FILE_PATH
        (nl +:+ match node_ip with Some ip => env_line node_ip_key ip | None => "" end +:+
         match client_ip with Some ip => env_line client_ip_key ip | None => "" end)
  end.

Definition migrate_ips : M bool :=
  let? (node_ip_present, client_ip_present) := are_ips_present_in_env in
  let node_ip := if node_ip_present then None else Some "0.0.0.0" in
  let client_ip := if client_ip_present then None else Some "0.0.0.0" in
  if node_ip_present && client_ip_present then ret true
  else catch (let? _ := append_ips_to_env node_ip client_ip in ret true) (λ _, ret false).
End Env.
