(* ===== verification/LedgerMigration.v ===== *)
(** * The migrations of the ledger

    [data/migrations/deb/1_3_428_to_1_3_429.py], which rewrites every transaction log of a
    node in the new transaction format and gives registry definitions and entries the ids
    that hold the tag of the credential definition, and
    [data/migrations/deb/1_3_396_to_1_3_397.py], which copies the databases of a node from
    LevelDB to RocksDB.

    The key-value storages and the directories they are in are a parameter ([Stores]):
    what database is at a path, and what the calls do to it ([StoreLaws]).  Every call may
    fail.  The transaction format of plenum, its serializers and the lists of transaction
    types of the former request handlers are parameters too. *)
From Stdlib Require Import Ascii.
From S2P Require Import Prelude PyValue Plenum Constants StateDomain IdrCache HandlerBase Upgrader PoolUpgrade World Versions Packages Migrations ControlTool EnvFiles.

(** ** Storages *)

Abbreviation DB := (gmap string string).

(** [db_at] is the database at a path; [iterator] lists one in the order of its keys. *)
Class Stores (W : Type) := {
  db_at : W → string → option DB;
  path_exists : string → W → bool;
  iterator : DB → list (string * string);
  open_storage : string → bool → act W unit;
  storage_put : string → string → string → act W unit;
  close_storage : string → act W unit;
  rm_tree : string → act W unit;
  move_tree : string → string → act W unit;
  make_dir : string → act W unit;
  set_own_perm : string → string → act W unit;
  tar_add : string → string → string → act W unit
}.

(** [p] is the directory [d] or something in it. *)
Definition under (d p : string) : bool := str_eqb d p || String.prefix (d +:+ "/") p.

Class StoreLaws (W : Type) `{!Stores W} := {
  iterator_spec db : iterator db ≡ₚ map_to_list db;
  open_others p ro (w : W) q : p ≠ q ∨ ro = true → db_at (open_storage p ro w).2 q = db_at w q;
  open_Ok p ro (w w' : W) :
    open_storage p ro w = (Ok tt, w') →
    if ro then is_Some (db_at w p) else db_at w' p = Some (default ∅ (db_at w p));
  put_others p k v (w : W) q : p ≠ q → db_at (storage_put p k v w).2 q = db_at w q;
  put_Ok p k v (w w' : W) db :
    db_at w p = Some db → storage_put p k v w = (Ok tt, w') → db_at w' p = Some (<[k := v]> db);
  close_same p (w : W) q : db_at (close_storage p w).2 q = db_at w q;
  rm_others d (w : W) q : under d q = false → db_at (rm_tree d w).2 q = db_at w q;
  rm_Ok d (w w' : W) q : rm_tree d w = (Ok tt, w') → under d q = true → db_at w' q = None;
  move_others a b (w : W) q : under a q = false → under b q = false → db_at (move_tree a b w).2 q = db_at w q;
  move_there a b (w : W) s :
    (∀ q, under b q = true → db_at w q = None) → under a b = false → under b a = false → s = "" ∨ String.prefix "/" s = true →
    (move_tree a b w).1 = Ok tt →
    db_at (move_tree a b w).2 (b +:+ s) = db_at w (a +:+ s) ∧ db_at (move_tree a b w).2 (a +:+ s) = None;
  move_failed a b (w : W) e :
    (∀ q, under b q = true → db_at w q = None) → under a b = false → under b a = false →
    (move_tree a b w).1 = Raise e →
    (∀ q, under a q = true → db_at (move_tree a b w).2 q = db_at w q) ∨
    (∀ s, s = "" ∨ String.prefix "/" s = true → db_at (move_tree a b w).2 (b +:+ s) = db_at w (a +:+ s));
  mkdir_same p (w : W) q : db_at (make_dir p w).2 q = db_at w q;
  perm_same u p (w : W) q : db_at (set_own_perm u p w).2 q = db_at w q;
  tar_same a d n (w : W) q : db_at (tar_add a d n w).2 q = db_at w q
}.

Definition ledger_types : list string := ["pool"; "domain"; "config"].

(** [except Exception], which [sys.exit] passes. *)
Definition except_false {W} (m : act W bool) : act W bool :=
  catch m (λ e, match e with SystemExit _ => raise e | _ => ret false end).

(** [for x in l: if not f(x): return False], then [return True] *)
Definition all_of {W A} (f : A → act W bool) : list A → act W bool :=
  fix go (l : list A) : act W bool :=
    match l with
    | [] => ret true
    | x :: l' => let? ok := f x in if ok then go l' else ret false
    end.

(** ** The ids of registries *)

Definition ID : string := "id".

(** [None] is the result [False]. *)
Definition add_tag_into_cred_def_id (d : dict val) : res (option (dict val)) :=
  match vget CRED_DEF_ID d with
  | VStr old_cred_def_id =>
      if negb (str_truth old_cred_def_id) then Ok None else
      match py_split ":" old_cred_def_id with
      | [did; marker; sig_type; schema_seq_no] =>
          let new_cred_def_id :=
            make_state_path_for_claim_def (VStr did) (VStr schema_seq_no) (VStr sig_type) (VStr CLAIM_DEF_TAG_DEFAULT) in
          let d1 := dset CRED_DEF_ID (VStr new_cred_def_id) d in
          let rev_type := vget REVOC_TYPE d1 in
          let rev_tag := vget TAG d1 in
          if negb (py_truth rev_type && py_truth rev_tag) then Ok None else
          Ok (Some (dset ID (VStr (make_state_path_for_revoc_def (VStr did) (VStr new_cred_def_id) rev_type rev_tag)) d1))
      | _ => Ok None
      end
  | v => if py_truth v then Raise AttributeError else Ok None
  end.

(** [l[-n]] *)
Definition from_end {A} (n : nat) (l : list A) : res A :=
  match nth_error (rev l) (n - 1) with Some x => Ok x | None => Raise IndexError end.

Definition add_cred_def_id_into_entry (d : dict val) : res (option (dict val)) :=
  match vget REVOC_REG_DEF_ID d with
  | VStr old_revoc_reg_def_id =>
      if negb (str_truth old_revoc_reg_def_id) then Ok None else
      let path_elems := py_split ":" old_revoc_reg_def_id in
      let did := hd "" path_elems in
      let cred_def_id := py_join ":" (take (length path_elems - 4) (drop 2 path_elems)) in
      let! rev_tag := from_end 1 path_elems in
      let! rev_type := from_end 2 path_elems in
      Ok (Some (dset REVOC_REG_DEF_ID
        (VStr (make_state_path_for_revoc_def (VStr did) (VStr (cred_def_id +:+ ":" +:+ CLAIM_DEF_TAG_DEFAULT))
                 (VStr rev_type) (VStr rev_tag))) d))
  | v => if py_truth v then Raise AttributeError else Ok None
  end.

(** ** The new format of transactions *)

(** A transaction in the format of plenum, with what the migration adds to it. *)
Record NewTxn := mkNewTxn {
  nt_txn : Txn;
  nt_protocol_version : option Z;
  nt_digest : option string;
  nt_txn_id : option string
}.

Definition set_digest (t : NewTxn) (digest : option string) : NewTxn :=
  mkNewTxn (nt_txn t) (nt_protocol_version t) digest (nt_txn_id t).

Definition append_txn_metadata (t : NewTxn) (txn_id : string) : NewTxn :=
  mkNewTxn (nt_txn t) (nt_protocol_version t) (nt_digest t) (Some txn_id).

(** The transaction types of the request handlers of that time, and the id that plenum
    gives the pool ledger. *)
Record TypeLists := mkTypeLists {
  pool_ledger_id : Z;
  pool_types : list string;
  domain_write_types : list string;
  domain_query_types : list string;
  config_types : list string
}.

Record MigrationConfig := mkMigrationConfig {
  seqNoDbName : string;
  attrDbName : string;
  stateTsDbName : string;
  stateSignatureDbName : string
}.

Definition mem (s : string) (l : list string) : bool := existsb (str_eqb s) l.

Definition DOMAIN_LEDGER_ID : Z := 1.
Definition CONFIG_LEDGER_ID : Z := 2.

Definition get_ledger_id_by_txn_type (types : TypeLists) (txn_type : string) : res Z :=
  if mem txn_type (pool_types types) then Ok (pool_ledger_id types)
  else if mem txn_type (domain_write_types types ++ domain_query_types types) then Ok DOMAIN_LEDGER_ID
  else if mem txn_type (config_types types) then Ok CONFIG_LEDGER_ID
  else Raise (SystemExit 1).

Section TxnLog.
Context {W : Type} `{!Stores W} {bytes : Type} `{!Serializer bytes}.
(** [ledger_txn_serializer], [transform_to_new_format], and the hexadecimal digest of
    [serialize_msg_for_signing] of a request. *)
Context (deserialize : string → res (dict val)) (serialize : NewTxn → string).
Context (transform_to_new_format : dict val → Z → res NewTxn) (request_digest : dict val → string).
Context (hexlify sha256_digest sha256_hex : string → string).
Context (raw_deserialize : val → res val) (raw_serialize : val → string).
(** [ReqIdrToTxn.delimiter] *)
Context (delimiter : string) (types : TypeLists) (config : MigrationConfig).
Implicit Types w : W.

(** The ids of one transaction in the old format. *)
Definition update_ids (d : dict val) : res (option (dict val)) :=
  let! o := if py_eq (vget TXN_TYPE d) (VStr REVOC_REG_DEF) then add_tag_into_cred_def_id d else Ok (Some d) in
  match o with
  | None => Ok None
  | Some d' =>
      if py_eq (vget TXN_TYPE d') (VStr REVOC_REG_ENTRY) then add_cred_def_id_into_entry d' else Ok (Some d')
  end.

(** [put_into_seq_no_db] without the call: the digest and the line to record. *)
Definition seq_no_record (t : NewTxn) : res (option (string * string)) :=
  let txn := nt_txn t in
  match get_req_id txn with
  | None => Ok None
  | Some req_id =>
      let operation := dset TXN_TYPE (VStr (get_type txn)) (get_payload_data txn) in
      let dct := [("identifier", opt_str (get_from txn)); ("reqId", VInt req_id); ("operation", VDict operation)] ++
                 match nt_protocol_version t with Some v => [("protocolVersion", VInt v)] | None => [] end in
      let! ledger_id := get_ledger_id_by_txn_type types (get_type txn) in
      Ok (Some (request_digest dct, str_int ledger_id +:+ delimiter +:+ py_str (opt_int (get_seq_no txn))))
  end.

(** [AttributeStore.get] *)
Definition attr_store_get (attrs : DB) (key : val) : res string :=
  match key with
  | VStr k => match attrs !! k with Some v => Ok v | None => Raise (KeyError k) end
  | _ => Raise (TypeError "")
  end.

Definition path_only (r : res (string * option bytes)) : res (option string) :=
  let! p := r in Ok (Some p.1).

Definition gen_txn_path (attrs : DB) (txn : Txn) : res (option string) :=
  let txn_type := get_type txn in
  if negb (mem txn_type (domain_write_types types)) then Ok None
  else if str_eqb txn_type NYM then
    match vget TARGET_NYM (get_payload_data txn) with
    | VStr nym => Ok (Some (hexlify (make_state_path_for_nym sha256_digest nym)))
    | _ => Raise AttributeError
    end
  else if str_eqb txn_type ATTRIB then
    let attr_data := get_payload_data txn in
    if dhas RAW attr_data || dhas ENC attr_data then
      let attr_type := if dhas RAW attr_data then RAW else ENC in
      let! key := dgetitem attr_type attr_data in
      let! attr := attr_store_get attrs key in
      let! path := prepare_attr_path sha256_hex raw_deserialize raw_serialize
                     (with_payload_data txn (dset attr_type (VStr attr) attr_data)) in
      Ok (Some path)
    else if dhas HASH attr_data then
      let! path := prepare_attr_path sha256_hex raw_deserialize raw_serialize txn in Ok (Some path)
    else Ok None
  else if str_eqb txn_type SCHEMA then path_only (prepare_schema_for_state txn true)
  else if str_eqb txn_type CLAIM_DEF then path_only (prepare_claim_def_for_state txn true)
  else if str_eqb txn_type REVOC_REG_DEF then path_only (prepare_revoc_def_for_state txn true)
  else if str_eqb txn_type REVOC_REG_ENTRY then path_only (prepare_revoc_reg_entry_for_state txn true)
  else Ok None.

(** The digest and the transaction id, for a transaction that has a request id. *)
Definition add_metadata (attrs : DB) (t : NewTxn) (digest : option string) : res NewTxn :=
  if py_truth (opt_int (get_req_id (nt_txn t))) then
    let t1 := set_digest t digest in
    let! txn_id := gen_txn_path attrs (nt_txn t1) in
    Ok (match txn_id with Some i => if str_truth i then append_txn_metadata t1 i else t1 | None => t1 end)
  else Ok t.

(** The body of the loop; [false] is [return False]. *)
Definition migrate_entry (attr_path seq_path new_path : string) (kv : string * string) : act W bool :=
  let? d := lift (deserialize kv.2) in
  let? o := lift (update_ids d) in
  match o with
  | None => ret false
  | Some d' =>
      let? seq_no := lift (py_int kv.1) in
      let? t := lift (transform_to_new_format d' seq_no) in
      let? record := lift (seq_no_record t) in
      let? _ := match record with
                | Some (digest, line) => storage_put seq_path digest line
                | None => ret tt
                end in
      let? attrs := (λ w, (Ok (default ∅ (db_at w attr_path)), w)) in
      let? t' := lift (add_metadata attrs t (fst <$> record)) in
      let? _ := storage_put new_path kv.1 (serialize t') in
      ret true
  end.

Definition migrate_txn_log (db_dir db_name : string) : act W bool :=
  let new_db_name := db_name +:+ "_new" in
  let old_path := path_join db_dir db_name in
  let new_path := path_join db_dir new_db_name in
  let seq_path := path_join db_dir (seqNoDbName config +:+ "_new") in
  let attr_path := path_join db_dir (attrDbName config) in
  let? _ := open_storage attr_path false in
  let? seq_open := except_false (let? _ := open_storage seq_path false in ret true) in
  if negb seq_open then ret false else
  let? src_open := except_false (let? _ := open_storage old_path true in ret true) in
  if negb src_open then ret false else
  let? dest_open := except_false (let? _ := open_storage new_path false in ret true) in
  if negb dest_open then ret false else
  let? done := except_false (λ w,
    all_of (migrate_entry attr_path seq_path new_path) (iterator (default ∅ (db_at w old_path))) w) in
  if negb done then ret false else
  let? _ := close_storage old_path in
  let? _ := close_storage new_path in
  let? _ := close_storage seq_path in
  let? _ := close_storage attr_path in
  let? removed := except_false (let? _ := rm_tree old_path in ret true) in
  if negb removed then ret false else
  let? moved := except_false (let? _ := move_tree new_path old_path in ret true) in
  if negb moved then ret false else
  let? _ := except_false (let? _ := set_own_perm "indy" old_path in ret true) in
  ret true.

(** The result is [None] when the old database is replaced. *)
Definition rename_seq_no_db (db_dir : string) : act W (option bool) :=
  let old_seqno_path := path_join db_dir (seqNoDbName config) in
  let new_seqno_path := path_join db_dir (seqNoDbName config +:+ "_new") in
  let? removed := except_false (let? _ := rm_tree old_seqno_path in ret true) in
  if negb removed then ret (Some false) else
  let? moved := except_false (let? _ := move_tree new_seqno_path old_seqno_path in ret true) in
  if negb moved then ret (Some false) else
  let? _ := set_own_perm "indy" old_seqno_path in ret None.

Definition migrate_txn_logs (ledger_dir : string) : act W bool :=
  all_of (λ ledger_type, migrate_txn_log ledger_dir (ledger_type +:+ "_transactions")) ledger_types.

(** [if os.path.exists(db): shutil.rmtree(db)] *)
Definition remove_if_exists (db : string) : act W unit :=
  λ w, if path_exists db w then rm_tree db w else (Ok tt, w).

Definition migrate_hash_stores (ledger_dir : string) : act W bool :=
  let? _ := each (λ t, let? _ := remove_if_exists (path_join ledger_dir (t +:+ "_merkleLeaves")) in
                       remove_if_exists (path_join ledger_dir (t +:+ "_merkleNodes"))) ledger_types in ret true.

Definition migrate_states (ledger_dir : string) : act W bool :=
  let? _ := each (λ t, remove_if_exists (path_join ledger_dir (t +:+ "_state"))) ledger_types in ret true.

Definition migrate_ts_store (ledger_dir : string) : act W bool :=
  let? _ := each (λ _, remove_if_exists (path_join ledger_dir (stateTsDbName config))) ledger_types in ret true.

Definition migrate_bls_signature_store (ledger_dir : string) : act W bool :=
  let? _ := each (λ _, remove_if_exists (path_join ledger_dir (stateSignatureDbName config))) ledger_types in ret true.

Definition archive_old_ledger (node_name ledger_dir : string) : act W unit :=
  tar_add (path_join "/tmp" (node_name +:+ "_old_txn_ledger.tar.gz")) ledger_dir node_name.

(** [migrate_all], for the node name and the ledger directory of [NodeConfigHelper]. *)
Definition migrate_all (node_name : option string) (ledger_dir_of : string → string) : act W bool :=
  match node_name with
  | None => ret false
  | Some name =>
      let ledger_dir := ledger_dir_of name in
      let? _ := except_false (let? _ := archive_old_ledger name ledger_dir in ret true) in
      let? logs := migrate_txn_logs ledger_dir in
      if negb logs then ret false else
      let? _ := rename_seq_no_db ledger_dir in
      let? hashes := migrate_hash_stores ledger_dir in
      if negb hashes then ret false else
      let? states := migrate_states ledger_dir in
      if negb states then ret false else
      let? ts := migrate_ts_store ledger_dir in
      if negb ts then ret false else
      migrate_bls_signature_store ledger_dir
  end.
End TxnLog.

(** ** From LevelDB to RocksDB *)

Section Storages.
Context {W : Type} `{!Stores W}.

(** The databases of the two engines are told apart by the directory they are in. *)
Definition migrate_storage (level_db_dir rocks_db_dir db_name : string) : act W bool :=
  let src := path_join level_db_dir db_name in
  let dst := path_join rocks_db_dir db_name in
  let? src_open := except_false (let? _ := open_storage src true in ret true) in
  if negb src_open then ret false else
  let? dst_open := except_false (let? _ := open_storage dst false in ret true) in
  if negb dst_open then ret false else
  let? done := except_false (λ w,
    (let? _ := each (λ kv, storage_put dst kv.1 kv.2) (iterator (default ∅ (db_at w src))) in ret true) w) in
  if negb done then ret false else
  let? _ := close_storage src in
  let? _ := close_storage dst in
  ret true.

Definition storage_names : list string :=
  map (λ ledger_type, ledger_type +:+ "_transactions") ledger_types ++
  ["attr_db"; "idr_cache_db"; "seq_no_db"; "state_signature"].

Definition migrate_storages (leveldb_ledger_dir rocksdb_ledger_dir : string) : act W bool :=
  all_of (migrate_storage leveldb_ledger_dir rocksdb_ledger_dir) storage_names.

Definition archive_leveldb_ledger (node_name leveldb_ledger_dir : string) : act W unit :=
  tar_add (path_join "/tmp" (node_name +:+ "_ledger_leveldb.tar.gz")) leveldb_ledger_dir node_name.

(** [migrate_all] of [1_3_396_to_1_3_397.py], for the directories of [NodeConfigHelper]. *)
Definition migrate_to_rocksdb (node_name : option string) (ledger_dir_of : string → string) (ledger_data_dir : string)
    : act W bool :=
  match node_name with
  | None => ret false
  | Some name =>
      let leveldb_ledger_dir := ledger_dir_of name in
      let rocksdb_ledger_dir := path_join ledger_data_dir (name +:+ "_rocksdb") in
      λ w,
      if path_exists rocksdb_ledger_dir w then (Ok false, w) else
      (let? made := except_false (let? _ := make_dir rocksdb_ledger_dir in ret true) in
       if negb made then ret false else
       let? storages := migrate_storages leveldb_ledger_dir rocksdb_ledger_dir in
       if negb storages then let? _ := rm_tree rocksdb_ledger_dir in ret false else
       let? _ := except_false (let? _ := archive_leveldb_ledger name leveldb_ledger_dir in ret true) in
       let? removed := except_false (let? _ := rm_tree leveldb_ledger_dir in ret true) in
       if negb removed then let? _ := rm_tree rocksdb_ledger_dir in ret false else
       let? moved := except_false (let? _ := move_tree rocksdb_ledger_dir leveldb_ledger_dir in ret true) in
       if negb moved then let? _ := rm_tree rocksdb_ledger_dir in ret false else
       let? _ := set_own_perm "indy" leveldb_ledger_dir in
       ret true) w
  end.
End Storages.

(** ** Lemmas: programs *)

Section steps.
Context {W : Type} (Q : res bool → W → Prop).

Definition leaves (m : act W bool) (w : W) : Prop := Q (m w).1 (m w).2.

Lemma plain_step {A} (f : act W A) k w :
  (∀ e, (f w).1 = Raise e → Q (Raise e) (f w).2) → (∀ a w', f w = (Ok a, w') → leaves (k a) w') →
  leaves (act_bind f k) w.
Proof. unfold leaves, act_bind. intros He Hk. destruct (f w) as [[a|e] w']; cbn in *; auto. Qed.

(** [try: f() except Exception: return False] *)
Lemma guard_step (f : act W unit) k w :
  (∀ r, (f w).1 ≠ Ok tt → r ≠ Ok true → Q r (f w).2) → (∀ w', f w = (Ok tt, w') → leaves k w') →
  leaves (let? b := except_false (let? _ := f in ret true) in if negb b then ret false else k) w.
Proof.
  unfold leaves, act_bind, except_false, catch. intros He Hk. destruct (f w) as [[[]|e] w'] eqn:E; cbn in *; [by apply Hk|].
  destruct e; cbn; by apply He.
Qed.

(** A call that does not fail is done, whatever would follow its failure. *)
Lemma sure_step (f : act W unit) (k k' : act W bool) w :
  (f w).1 = Ok tt → (∀ w', f w = (Ok tt, w') → leaves k w') →
  leaves (let? b := except_false (let? _ := f in ret true) in if negb b then k' else k) w.
Proof.
  unfold leaves, act_bind, except_false, catch. intros He Hk. destruct (f w) as [[[]|e] w'] eqn:E; [by apply Hk|done].
Qed.

Lemma guard_bool (f : act W bool) k w :
  (∀ r, r ≠ Ok true → Q r (f w).2) → (∀ w', f w = (Ok true, w') → leaves k w') →
  leaves (let? b := except_false f in if negb b then ret false else k) w.
Proof.
  unfold leaves, act_bind, except_false, catch. intros He Hk. destruct (f w) as [[[]|e] w'] eqn:E; cbn in *;
    [by apply Hk|by apply He|]. destruct e; cbn; by apply He.
Qed.

(** [try: f() except Exception: ...] without an early return. *)
Lemma try_step (f : act W unit) k w :
  (∀ r, (f w).1 ≠ Ok tt → r ≠ Ok true → Q r (f w).2) → (∀ w', (f w).2 = w' → leaves k w') →
  leaves (let? _ := except_false (let? _ := f in ret true) in k) w.
Proof.
  unfold leaves, act_bind, except_false, catch. intros He Hk. destruct (f w) as [[[]|e] w'] eqn:E; cbn in *; [by apply Hk|].
  destruct e; cbn; try (by apply Hk); by apply He.
Qed.
End steps.

Lemma prefix_app_both x a b : String.prefix (x +:+ a) (x +:+ b) = String.prefix a b.
Proof. induction x as [|c x IH]; cbn; [done|]. destruct (ascii_dec c c); [done|congruence]. Qed.

Lemma under_app x a b : under (x +:+ a) (x +:+ b) = under a b.
Proof.
  unfold under. f_equal.
  - destruct (str_eqb a b) eqn:E; [apply str_eqb_eq in E as ->; apply str_eqb_refl|].
    apply str_eqb_neq in E. apply str_eqb_neq. by intros ?%str_app_inj_l.
  - by rewrite str_app_assoc, prefix_app_both.
Qed.

Lemma path_join_app d x : String.prefix "/" x = false → path_join d x = dir_prefix d +:+ x.
Proof. unfold path_join. by intros ->. Qed.

(** The four databases of a transaction log are different, and neither the old nor the
    new log is in the other. *)
Definition names_apart (config : MigrationConfig) (db_name : string) : bool :=
  let names := [attrDbName config; seqNoDbName config +:+ "_new"; db_name; db_name +:+ "_new"] in
  forallb (λ n, negb (String.prefix "/" n)) names &&
  forallb (λ n, negb (under db_name n) || str_eqb n db_name) names &&
  forallb (λ n, negb (under (db_name +:+ "_new") n) || str_eqb n (db_name +:+ "_new")) names &&
  bool_decide (NoDup names).

Record apart (attr seq old new : string) : Prop := {
  ap_attr : attr ≠ old ∧ attr ≠ new ∧ seq ≠ attr;
  ap_seq : seq ≠ old ∧ seq ≠ new;
  ap_old_new : under old new = false;
  ap_new_old : under new old = false;
  ap_new : new ≠ old;
  ap_under : under old attr = false ∧ under new attr = false
}.

Lemma names_apart_paths config d n :
  names_apart config n = true →
  apart (path_join d (attrDbName config)) (path_join d (seqNoDbName config +:+ "_new")) (path_join d n)
    (path_join d (n +:+ "_new")).
Proof.
  unfold names_apart. cbn [forallb]. rewrite !andb_true_iff, !negb_true_iff, !orb_true_iff, !negb_true_iff, !str_eqb_eq.
  intros (((Hs & Ho) & Hn) & Hd%bool_decide_eq_true). destruct Hs as (Ha & Hq & Hp & Hpn & _).
  rewrite !path_join_app by done.
  apply NoDup_cons in Hd as [H1 Hd]. apply NoDup_cons in Hd as [H2 Hd]. apply NoDup_cons in Hd as [H3 _].
  rewrite !not_elem_of_cons in *.
  split; rewrite ?under_app; repeat split; try (by intros ?%str_app_inj_l; naive_solver).
  - destruct Ho as (_ & _ & _ & [?|E] & _); [done|]. naive_solver.
  - destruct Hn as (_ & _ & [?|E] & _); [done|]. naive_solver.
  - destruct Ho as ([?|E] & _); [done|]. naive_solver.
  - destruct Hn as ([?|E] & _); [done|]. naive_solver.
Qed.

(** ** Lemmas: one transaction log *)

Section LogLemmas.
Context {W : Type} `{!Stores W, !StoreLaws W} {bytes : Type} `{!Serializer bytes}.
Context (deserialize : string → res (dict val)) (serialize : NewTxn → string).
Context (transform_to_new_format : dict val → Z → res NewTxn) (request_digest : dict val → string).
Context (hexlify sha256_digest sha256_hex : string → string).
Context (raw_deserialize : val → res val) (raw_serialize : val → string).
Context (delimiter : string) (types : TypeLists) (config : MigrationConfig).
Implicit Types w : W.

Notation entry := (migrate_entry deserialize serialize transform_to_new_format request_digest hexlify sha256_digest
  sha256_hex raw_deserialize raw_serialize delimiter types).
Notation metadata := (add_metadata hexlify sha256_digest sha256_hex raw_deserialize raw_serialize types).

(** What a transaction becomes: [None] where the script stops. *)
Definition new_value (attrs : DB) (k v : string) : res (option string) :=
  let! d := deserialize v in
  let! o := update_ids d in
  match o with
  | None => Ok None
  | Some d' =>
      let! seq_no := py_int k in
      let! t := transform_to_new_format d' seq_no in
      let! record := seq_no_record request_digest delimiter types t in
      let! t' := metadata attrs t (fst <$> record) in
      Ok (Some (serialize t'))
  end.

(** The new log has all transactions of [db]; what it had before stays under other keys. *)
Definition complete (attrs db stale new : DB) : Prop :=
  ∀ k, match db !! k with
       | Some v => ∃ v', new_value attrs k v = Ok (Some v') ∧ new !! k = Some v'
       | None => new !! k = stale !! k
       end.

Variables (attr seq old new : string) (Hap : apart attr seq old new).

Lemma entry_old kv w : db_at (entry attr seq new kv w).2 old = db_at w old.
Proof.
  destruct Hap as [(Ha1 & Ha2 & Ha3) (Hs1 & Hs2) _ _ Hne _].
  unfold migrate_entry, act_bind, lift, ret. destruct (deserialize kv.2) as [d|]; [|done]. cbn.
  destruct (update_ids d) as [[d'|]|]; [|done..]. destruct (py_int kv.1) as [n|]; [|done].
  destruct (transform_to_new_format d' n) as [t|]; [|done]. destruct (seq_no_record _ _ _ t) as [record|]; [|done].
  assert (∀ w1, db_at w1 old = db_at w old → db_at
    (match metadata (default ∅ (db_at w1 attr)) t (fst <$> record) with
     | Ok a => match storage_put new kv.1 (serialize a) w1 with
               | (Ok _, w') => (Ok true, w')
               | (Raise e, w') => (Raise e, w') end
     | Raise e => (Raise e, w1) end).2 old = db_at w old) as Hk.
  { intros w1 E. destruct (metadata _ _ _) as [t'|]; [|done].
    pose proof (put_others new kv.1 (serialize t') w1 old Hne) as E'.
    destruct (storage_put new kv.1 (serialize t') w1) as [[]?]; cbn in *; congruence. }
  destruct record as [[digest line]|]; [|by apply Hk].
  pose proof (put_others seq digest line w old Hs1) as E. destruct (storage_put seq digest line w) as [[[]|] w1]; cbn in *; [|done].
  by apply Hk.
Qed.

(** An entry that is migrated is in the new log with its new value. *)
Lemma entry_Ok k v w w' attrs n :
  db_at w attr = Some attrs → db_at w new = Some n → entry attr seq new (k, v) w = (Ok true, w') →
  ∃ v', new_value attrs k v = Ok (Some v') ∧ db_at w' new = Some (<[k := v']> n) ∧ db_at w' attr = Some attrs.
Proof.
  destruct Hap as [(Ha1 & Ha2 & Ha3) (Hs1 & Hs2) _ _ Hne _]. intros Hat Hn H. unfold new_value, migrate_entry in *. cbn [fst snd] in *.
  apply act_bind_Ok in H as (d & ? & [= Hd <-] & H). rewrite Hd. cbn [res_bind].
  apply act_bind_Ok in H as (o & ? & [= Ho <-] & H). rewrite Ho. cbn [res_bind]. destruct o as [d'|]; [|discriminate].
  apply act_bind_Ok in H as (z & ? & [= Hz <-] & H). rewrite Hz. cbn [res_bind].
  apply act_bind_Ok in H as (t & ? & [= Ht <-] & H). rewrite Ht. cbn [res_bind].
  apply act_bind_Ok in H as (r & ? & [= Hr <-] & H). rewrite Hr. cbn [res_bind].
  apply act_bind_Ok in H as (u & w1 & Hp & H).
  assert (db_at w1 attr = Some attrs ∧ db_at w1 new = Some n) as [Hat1 Hn1].
  { destruct r as [[digest line]|]; [|by injection Hp as _ <-].
    pose proof (put_others seq digest line w attr Ha3) as E1.
    pose proof (put_others seq digest line w new Hs2) as E2. rewrite Hp in E1, E2. cbn in *. by rewrite E1, E2. }
  apply act_bind_Ok in H as (a & ? & [= Ha <-] & H). rewrite Hat1 in Ha. cbn in Ha. subst a.
  apply act_bind_Ok in H as (t' & ? & [= Hm <-] & H). rewrite Hm. cbn [res_bind].
  apply act_bind_Ok in H as ([] & w2 & Hp2 & H). injection H as <-. eexists. split; [done|]. split.
  - by eapply put_Ok.
  - pose proof (put_others new k (serialize t') w1 attr) as E. rewrite Hp2 in E. cbn in E. rewrite E; [done|]. congruence.
Qed.

Lemma entries_old l w : db_at (all_of (entry attr seq new) l w).2 old = db_at w old.
Proof.
  revert w. induction l as [|kv l IH]; intros w; [done|]. cbn. unfold act_bind at 1.
  pose proof (entry_old kv w) as E. destruct (entry attr seq new kv w) as [[[]|] w1]; cbn in *; [|done..].
  by rewrite IH.
Qed.

Lemma entries_Ok l w w' attrs n :
  NoDup l.*1 → db_at w attr = Some attrs → db_at w new = Some n →
  all_of (entry attr seq new) l w = (Ok true, w') →
  ∃ n', db_at w' new = Some n' ∧
    (∀ k v, (k, v) ∈ l → ∃ v', new_value attrs k v = Ok (Some v') ∧ n' !! k = Some v') ∧
    (∀ k, k ∉ l.*1 → n' !! k = n !! k).
Proof.
  revert w n. induction l as [|[k v] l IH]; intros w n Hnd Hat Hn H.
  - injection H as <-. exists n. split; [done|]. split; [|done]. by intros ?? ?%not_elem_of_nil.
  - apply NoDup_cons in Hnd as [Hk Hnd]. cbn in H. apply act_bind_Ok in H as (b & w1 & He & H).
    destruct b; [|discriminate]. destruct (entry_Ok _ _ _ _ _ _ Hat Hn He) as (v' & Hv & Hn1 & Hat1).
    destruct (IH _ _ Hnd Hat1 Hn1 H) as (n' & Hn' & Hin & Hout). exists n'. split; [done|]. split.
    + intros k0 v0 [[= -> ->]|?]%elem_of_cons; [|by apply Hin]. exists v'. split; [done|].
      rewrite Hout by done. apply lookup_insert_eq.
    + intros k0 [Hne Hk0]%not_elem_of_cons. rewrite Hout by done. by apply lookup_insert_ne.
Qed.

(** All entries of the old log. *)
Lemma log_complete db w w' attrs n :
  db_at w attr = Some attrs → db_at w new = Some n →
  all_of (entry attr seq new) (iterator db) w = (Ok true, w') →
  ∃ n', db_at w' new = Some n' ∧ complete attrs db n n'.
Proof.
  intros Hat Hn H. assert (NoDup (iterator db).*1) as Hnd by (rewrite iterator_spec; apply NoDup_fst_map_to_list).
  destruct (entries_Ok _ _ _ _ _ Hnd Hat Hn H) as (n' & Hn' & Hin & Hout). exists n'. split; [done|]. intros k.
  destruct (db !! k) as [v|] eqn:E.
  - apply Hin. rewrite iterator_spec. by apply elem_of_map_to_list.
  - apply Hout. intros ([k0 v] & -> & Hv)%list_elem_of_fmap. rewrite iterator_spec in Hv.
    apply elem_of_map_to_list in Hv. cbn in E. congruence.
Qed.
End LogLemmas.

(** What a migration of a log leaves behind: the old log, or a complete new one. *)
Definition log_kept {W} `{!Stores W} (fin : DB → Prop) (old new : string) (db : DB) (r : res bool) (w : W) : Prop :=
  (r = Ok true → ∃ n, fin n ∧ db_at w old = Some n) ∧
  (db_at w old = Some db ∨ ∃ n, fin n ∧ (db_at w new = Some n ∨ db_at w old = Some n)).

(** The end of it: the old log is removed and the new one takes its place. *)
Lemma replace_log {W} `{!Stores W, !StoreLaws W} (fin : DB → Prop) attr seq old new db n (k : act W bool) w :
  apart attr seq old new → db_at w new = Some n → fin n →
  (∀ w1, db_at w1 old = Some n → leaves (log_kept fin old new db) k w1) →
  leaves (log_kept fin old new db)
    (let? removed := except_false (let? _ := rm_tree old in ret true) in
     if negb removed then ret false else
     let? moved := except_false (let? _ := move_tree new old in ret true) in
     if negb moved then ret false else k) w.
Proof.
  intros [_ _ Hon Hno Hne _] Hn Hd Hk. apply guard_step.
  - intros r _ Hr. split; [done|]. right. exists n. split; [done|]. left. by rewrite rm_others.
  - intros w1 H1. assert (db_at w1 new = Some n) as Hn1.
    { pose proof (rm_others old w new Hon) as E. rewrite H1 in E. cbn in E. congruence. }
    assert (∀ q, under old q = true → db_at w1 q = None) as Hgone by (intros q Hq; by eapply rm_Ok).
    apply guard_step.
    + intros r He Hr. split; [done|]. right. exists n. split; [done|].
      destruct (move_tree new old w1).1 as [[]|e] eqn:E; [done|].
      destruct (move_failed new old w1 e Hgone Hno Hon E) as [Hs|Hs].
      * left. rewrite Hs; [done|]. unfold under. by rewrite str_eqb_refl.
      * right. specialize (Hs "" (or_introl eq_refl)). rewrite !str_app_nil_r in Hs. congruence.
    + intros w2 H2. apply Hk. destruct (move_there new old w1 "" Hgone Hno Hon (or_introl eq_refl)) as [E _]; [by rewrite H2|].
      rewrite H2, !str_app_nil_r in E. cbn in E. congruence.
Qed.

(** The databases are opened. *)
Lemma open_logs {W} `{!Stores W, !StoreLaws W} fin attr seq old new db (k : act W bool) w :
  apart attr seq old new → db_at w old = Some db →
  (∀ w', db_at w' attr = Some (default ∅ (db_at w attr)) → db_at w' old = Some db →
         db_at w' new = Some (default ∅ (db_at w new)) → leaves (log_kept fin old new db) k w') →
  leaves (log_kept fin old new db)
    (let? _ := open_storage attr false in
     let? seq_open := except_false (let? _ := open_storage seq false in ret true) in
     if negb seq_open then ret false else
     let? src_open := except_false (let? _ := open_storage old true in ret true) in
     if negb src_open then ret false else
     let? dest_open := except_false (let? _ := open_storage new false in ret true) in
     if negb dest_open then ret false else k) w.
Proof.
  intros [(Ha1 & Ha2 & Ha3) (Hs1 & Hs2) _ _ Hne _] Hdb Hk.
  assert (∀ r w', r ≠ Ok true → db_at w' old = Some db → log_kept fin old new db r w') as Hkeep
    by (intros r w' Hr Hw'; split; [done|by left]).
  assert (∀ p ro w1, p ≠ old ∨ ro = true → db_at w1 old = Some db → db_at (open_storage p ro w1).2 old = Some db) as Hold
    by (intros p ro w1 Hp Hw1; by rewrite open_others).
  apply plain_step; [intros e _; by apply Hkeep; [|apply Hold; auto]|]. intros [] w1 H1.
  pose proof (open_Ok _ _ _ _ H1) as A1. pose proof (λ q, open_others attr false w q) as E1. rewrite H1 in E1. cbn in *.
  apply guard_step; [intros r _ Hr; apply Hkeep; [done|]; apply Hold; [auto|]; rewrite E1; auto|]. intros w2 H2.
  pose proof (λ q, open_others seq false w1 q) as E2. rewrite H2 in E2. cbn in *.
  apply guard_step; [intros r _ Hr; apply Hkeep; [done|]; apply Hold; [auto|]; rewrite E2, E1; auto|]. intros w3 H3.
  pose proof (λ q, open_others old true w2 q) as E3. rewrite H3 in E3. cbn in *.
  apply guard_step; [intros r _ Hr; apply Hkeep; [done|]; apply Hold; [auto|]; rewrite E3, E2, E1; auto|]. intros w4 H4.
  pose proof (open_Ok _ _ _ _ H4) as A4. pose proof (λ q, open_others new false w3 q) as E4. rewrite H4 in E4. cbn in *.
  apply Hk.
  - rewrite E4, E3, E2; auto.
  - rewrite E4, E3, E2, E1; auto.
  - rewrite A4, E3, E2, E1; auto.
Qed.

(** The databases are closed. *)
Lemma close_logs {W} `{!Stores W, !StoreLaws W} (Q : res bool → W → Prop) a b c d (k : act W bool) w :
  (∀ r w', r ≠ Ok true → (∀ q, db_at w' q = db_at w q) → Q r w') → (∀ w', (∀ q, db_at w' q = db_at w q) → leaves Q k w') →
  leaves Q (let? _ := close_storage a in let? _ := close_storage b in let? _ := close_storage c in
            let? _ := close_storage d in k) w.
Proof.
  intros HQ Hk. apply plain_step; [intros e _; apply HQ; [done|]; intros q; apply close_same|]. intros [] w1 H1.
  pose proof (close_same a w) as E1. rewrite H1 in E1. cbn in E1.
  apply plain_step; [intros e _; apply HQ; [done|]; intros q; rewrite close_same; auto|]. intros [] w2 H2.
  pose proof (close_same b w1) as E2. rewrite H2 in E2. cbn in E2.
  apply plain_step; [intros e _; apply HQ; [done|]; intros q; rewrite close_same, E2; auto|]. intros [] w3 H3.
  pose proof (close_same c w2) as E3. rewrite H3 in E3. cbn in E3.
  apply plain_step; [intros e _; apply HQ; [done|]; intros q; rewrite close_same, E3, E2; auto|]. intros [] w4 H4.
  pose proof (close_same d w3) as E4. rewrite H4 in E4. cbn in E4.
  apply Hk. intros q. by rewrite E4, E3, E2.
Qed.

Section LogTheorem.
Context {W : Type} `{!Stores W, !StoreLaws W} {bytes : Type} `{!Serializer bytes}.
Context (deserialize : string → res (dict val)) (serialize : NewTxn → string).
Context (transform_to_new_format : dict val → Z → res NewTxn) (request_digest : dict val → string).
Context (hexlify sha256_digest sha256_hex : string → string).
Context (raw_deserialize : val → res val) (raw_serialize : val → string).
Context (delimiter : string) (types : TypeLists) (config : MigrationConfig).
Implicit Types w : W.

Lemma migrate_txn_log_kept db_dir db_name w db :
  let attr := path_join db_dir (attrDbName config) in
  let old := path_join db_dir db_name in
  let new := path_join db_dir (db_name +:+ "_new") in
  names_apart config db_name = true → db_at w old = Some db →
  leaves (log_kept (complete deserialize serialize transform_to_new_format request_digest hexlify sha256_digest
      sha256_hex raw_deserialize raw_serialize delimiter types (default ∅ (db_at w attr)) db (default ∅ (db_at w new)))
      old new db)
    (migrate_txn_log deserialize serialize transform_to_new_format request_digest hexlify sha256_digest
      sha256_hex raw_deserialize raw_serialize delimiter types config db_dir db_name) w.
Proof.
  intros attr old new Hnames Hdb. pose proof (names_apart_paths config db_dir db_name Hnames) as Hap. unfold migrate_txn_log.
  eapply open_logs; [exact Hap|done|]. intros w1 A1 O1 N1.
  fold attr old new in A1, O1, N1, Hap |- *. set (seq := path_join db_dir (seqNoDbName config +:+ "_new")) in *.
  apply guard_bool; rewrite O1; cbn [default].
  { intros r Hr. split; [done|]. left. rewrite entries_old; [done|]. exact Hap. }
  intros w2 H2.
  destruct (log_complete _ _ _ _ _ _ _ _ _ _ _ _ _ _ _ Hap _ _ _ _ _ A1 N1 H2) as (n & N2 & Hfin).
  apply close_logs.
  { intros r w' Hr E. split; [done|]. right. exists n. split; [exact Hfin|]. left. by rewrite E. }
  intros w3 E3. eapply replace_log; [exact Hap|by rewrite E3|exact Hfin|]. intros w4 O4. apply try_step.
  - intros r _ Hr. split; [done|]. right. exists n. split; [exact Hfin|]. right. by rewrite perm_same.
  - intros w5 <-. split; [|right]; exists n; (split; [exact Hfin|]); [|right]; cbn; by rewrite perm_same.
Qed.
End LogTheorem.

(** ** Lemmas: other databases *)

Section OtherPaths.
Context {W : Type} `{!Stores W, !StoreLaws W} (q : string).

Definition same_at (w w' : W) : Prop := db_at w' q = db_at w q.

#[export] Instance same_at_preorder : PreOrder same_at.
Proof. split; [done|]. intros ??? H1 H2. unfold same_at in *. congruence. Qed.

Lemma frames_except f : frames same_at f → frames same_at (except_false f).
Proof. intros Hf. apply frames_catch; [apply _|done|]. intros []; (apply frames_raise || apply frames_ret); apply _. Qed.

Lemma frames_all_of {A} (f : A → act W bool) l : (∀ x, frames same_at (f x)) → frames same_at (all_of f l).
Proof.
  intros Hf. induction l as [|x l IH]; [apply frames_ret; apply _|]. cbn.
  apply frames_bind; [apply _|apply Hf|]. intros []; [done|apply frames_ret; apply _].
Qed.

Lemma frames_at {A} (f : A → act W bool) (g : W → A) : (∀ a, frames same_at (f a)) → frames same_at (λ w, f (g w) w).
Proof. intros Hf w. apply Hf. Qed.

Lemma frames_open p ro : p ≠ q → frames same_at (open_storage p ro).
Proof. intros Hp w. unfold same_at. rewrite open_others; auto. Qed.

Lemma frames_put p k v : p ≠ q → frames same_at (storage_put p k v).
Proof. intros Hp w. by apply put_others. Qed.

Lemma frames_close p : frames same_at (close_storage p).
Proof. intros w. apply close_same. Qed.

Lemma frames_rm d : under d q = false → frames same_at (rm_tree d).
Proof. intros Hd w. by apply rm_others. Qed.

Lemma frames_move a b : under a q = false → under b q = false → frames same_at (move_tree a b).
Proof. intros Ha Hb w. by apply move_others. Qed.

Lemma frames_mkdir p : frames same_at (make_dir p).
Proof. intros w. apply mkdir_same. Qed.

Lemma frames_perm u p : frames same_at (set_own_perm u p).
Proof. intros w. apply perm_same. Qed.

Lemma frames_tar a d n : frames same_at (tar_add a d n).
Proof. intros w. apply tar_same. Qed.

Lemma frames_remove d : under d q = false → frames same_at (remove_if_exists d).
Proof. intros Hd w. unfold remove_if_exists. destruct (path_exists d w); [by apply frames_rm|done]. Qed.
End OtherPaths.

Create HintDb stores discriminated.
#[export] Hint Resolve frames_open frames_put frames_close frames_rm frames_move frames_mkdir frames_perm frames_tar
  frames_remove frames_except : stores.

(** Through the calls of a program. *)
Ltac frame_calls :=
  repeat lazymatch goal with
  | |- frames _ (act_bind _ _) => apply frames_bind; [apply _| |intros ?]
  | |- frames _ (except_false _) => apply frames_except
  | |- frames _ (ret _) => apply frames_ret; apply _
  | |- frames _ (lift _) => apply frames_lift; apply _
  | |- frames _ (if ?b then _ else _) => destruct b
  | |- frames _ (each _ _) => apply frames_each; [apply _|intros ?]
  | |- frames _ (all_of _ _) => apply frames_all_of; intros ?
  end; eauto with stores.

Lemma under_neq d q : under d q = false → d ≠ q.
Proof. intros H ->. unfold under in H. by rewrite str_eqb_refl in H. Qed.

Section OtherLogs.
Context {W : Type} `{!Stores W, !StoreLaws W} {bytes : Type} `{!Serializer bytes}.
Context (deserialize : string → res (dict val)) (serialize : NewTxn → string).
Context (transform_to_new_format : dict val → Z → res NewTxn) (request_digest : dict val → string).
Context (hexlify sha256_digest sha256_hex : string → string).
Context (raw_deserialize : val → res val) (raw_serialize : val → string).
Context (delimiter : string) (types : TypeLists) (config : MigrationConfig).
Implicit Types w : W.

Notation entry := (migrate_entry deserialize serialize transform_to_new_format request_digest hexlify sha256_digest
  sha256_hex raw_deserialize raw_serialize delimiter types).
Notation txn_log := (migrate_txn_log deserialize serialize transform_to_new_format request_digest hexlify sha256_digest
      sha256_hex raw_deserialize raw_serialize delimiter types config).

Lemma entry_frame attr seq new q kv : seq ≠ q → new ≠ q → frames (same_at q) (entry attr seq new kv).
Proof.
  intros Hs Hn. unfold migrate_entry. frame_calls. destruct a0 as [d'|]; frame_calls.
  - destruct a2 as [[]|]; frame_calls.
  - intros w. done.
Qed.

Lemma txn_log_frame db_dir db_name q :
  path_join db_dir (attrDbName config) ≠ q → path_join db_dir (seqNoDbName config +:+ "_new") ≠ q →
  under (path_join db_dir db_name) q = false → under (path_join db_dir (db_name +:+ "_new")) q = false →
  frames (same_at q) (txn_log db_dir db_name).
Proof.
  intros Ha Hs Ho Hn. pose proof (under_neq _ _ Ho). pose proof (under_neq _ _ Hn). unfold migrate_txn_log. frame_calls.
  apply (frames_at q (λ db, all_of (entry _ _ _) (iterator db))). intros db. apply frames_all_of.
  intros kv. by apply entry_frame.
Qed.
(** The attribute store is opened, and not changed otherwise. *)
Lemma txn_log_attr db_dir db_name w w' :
  names_apart config db_name = true → txn_log db_dir db_name w = (Ok true, w') →
  db_at w' (path_join db_dir (attrDbName config)) = Some (default ∅ (db_at w (path_join db_dir (attrDbName config)))).
Proof.
  intros Hnames H. destruct (names_apart_paths config db_dir db_name Hnames) as [(Ha1 & Ha2 & Ha3) _ _ _ _ (Hu1 & Hu2)].
  unfold migrate_txn_log in H. apply act_bind_Ok in H as ([] & w1 & Hopen & H). rewrite <-(open_Ok _ _ _ _ Hopen).
  set (attr := path_join db_dir (attrDbName config)) in *.
  assert (same_at attr w1 w') as E; [|exact E]. rewrite <-(f_equal snd H : _ = w').
  match goal with |- same_at attr w1 (?m w1).2 => enough (frames (same_at attr) m) as Hf by apply Hf end.
  assert (path_join db_dir db_name ≠ attr) by done. assert (path_join db_dir (db_name +:+ "_new") ≠ attr) by done.
  frame_calls. apply (frames_at attr (λ db, all_of (entry _ _ _) (iterator db))). intros db. apply frames_all_of.
  intros kv. by apply entry_frame.
Qed.
End OtherLogs.

(** ** Lemmas: all logs *)

Definition log_name (ledger_type : string) : string := ledger_type +:+ "_transactions".

(** The names of what the script removes beside the logs. *)
Definition removed_names (config : MigrationConfig) : list string :=
  [seqNoDbName config; seqNoDbName config +:+ "_new"; stateTsDbName config; stateSignatureDbName config] ++
  flat_map (λ t, [t +:+ "_merkleLeaves"; t +:+ "_merkleNodes"; t +:+ "_state"]) ledger_types.

(** The names of the databases keep them apart from the logs. *)
Definition config_apart (config : MigrationConfig) : bool :=
  forallb (λ t, names_apart config (log_name t)) ledger_types &&
  forallb (λ d, negb (String.prefix "/" d) &&
    forallb (λ t, negb (under d (log_name t)) && negb (under d (log_name t +:+ "_new"))) ledger_types) (removed_names config).

Lemma logs_apart d t t' :
  t ∈ ledger_types → t' ∈ ledger_types → t ≠ t' →
  let old t := path_join d (log_name t) in
  let new t := path_join d (log_name t +:+ "_new") in
  under (old t) (old t') = false ∧ under (old t) (new t') = false ∧
  under (new t) (old t') = false ∧ under (new t) (new t') = false.
Proof.
  intros Ht Ht' Hne. cbv zeta.
  assert (String.prefix "/" (log_name t) = false ∧ String.prefix "/" (log_name t +:+ "_new") = false ∧
          String.prefix "/" (log_name t') = false ∧ String.prefix "/" (log_name t' +:+ "_new") = false) as (? & ? & ? & ?)
    by (unfold ledger_types in *; set_solver).
  rewrite !path_join_app, !under_app by done. unfold ledger_types in *.
  repeat (apply elem_of_cons in Ht as [->|Ht]; [|]); [..|by apply not_elem_of_nil in Ht];
  repeat (apply elem_of_cons in Ht' as [->|Ht']; [|]); try (by apply not_elem_of_nil in Ht');
  try congruence; by vm_compute.
Qed.

Section AllLogs.
Context {W : Type} `{!Stores W, !StoreLaws W} {bytes : Type} `{!Serializer bytes}.
Context (deserialize : string → res (dict val)) (serialize : NewTxn → string).
Context (transform_to_new_format : dict val → Z → res NewTxn) (request_digest : dict val → string).
Context (hexlify sha256_digest sha256_hex : string → string).
Context (raw_deserialize : val → res val) (raw_serialize : val → string).
Context (delimiter : string) (types : TypeLists) (config : MigrationConfig).
Implicit Types w : W.

Notation txn_log := (migrate_txn_log deserialize serialize transform_to_new_format request_digest hexlify sha256_digest
      sha256_hex raw_deserialize raw_serialize delimiter types config).

Definition same_paths w w' : Prop := ∀ q, db_at w' q = db_at w q.

(** What is kept of the log of type [t], from the machine [w] on. *)
Definition type_kept (d : string) w (t : string) (r : res bool) w' : Prop :=
  let at_ n := default ∅ (db_at w (path_join d n)) in
  log_kept (complete deserialize serialize transform_to_new_format request_digest hexlify sha256_digest
      sha256_hex raw_deserialize raw_serialize delimiter types (at_ (attrDbName config)) (at_ (log_name t))
      (at_ (log_name t +:+ "_new")))
    (path_join d (log_name t)) (path_join d (log_name t +:+ "_new")) (at_ (log_name t)) r w'.

Lemma type_kept_ext d w w1 t r w' w'' :
  (∀ n, n ∈ [attrDbName config; log_name t; log_name t +:+ "_new"] →
        default ∅ (db_at w1 (path_join d n)) = default ∅ (db_at w (path_join d n))) →
  (∀ n, n ∈ [log_name t; log_name t +:+ "_new"] → db_at w'' (path_join d n) = db_at w' (path_join d n)) →
  type_kept d w1 t r w' → type_kept d w t r w''.
Proof.
  intros H1 H2. unfold type_kept, log_kept. rewrite !H1, !H2 by set_solver. done.
Qed.

(** The logs of other types are not touched. *)
Lemma other_log_frame d t t' n :
  t ∈ ledger_types → t' ∈ ledger_types → t ≠ t' → names_apart config (log_name t') = true →
  n ∈ [log_name t'; log_name t' +:+ "_new"] → frames (same_at (path_join d n)) (txn_log d (log_name t)).
Proof.
  intros Hl Hl' Hne Hn' Hn. destruct (names_apart_paths config d _ Hn') as [(Ha1 & Ha2 & _) (Hs1 & Hs2) _ _ _ _].
  destruct (logs_apart d t t' Hl Hl' Hne) as (U1 & U2 & U3 & U4).
  apply elem_of_cons in Hn as [->|Hn]; [by apply txn_log_frame|].
  apply list_elem_of_singleton in Hn as ->. by apply txn_log_frame.
Qed.

Lemma logs_frame ts t0 d w :
  t0 ∈ ledger_types → names_apart config (log_name t0) = true → (∀ t, t ∈ ts → t ∈ ledger_types ∧ t ≠ t0) →
  db_at (all_of (λ t, txn_log d (log_name t)) ts w).2 (path_join d (log_name t0)) = db_at w (path_join d (log_name t0)).
Proof.
  intros Hl0 Hn0. revert w. induction ts as [|t ts IH]; intros w Hts; [done|]. destruct (Hts t) as [Hl Hne]; [apply list_elem_of_here|].
  pose proof (other_log_frame d t t0 (log_name t0) Hl Hl0 Hne Hn0 (list_elem_of_here _ _) w) as E. unfold same_at in E.
  cbn. unfold act_bind. destruct (txn_log d (log_name t) w) as [[[]|e] w1]; cbn in *; [|done..].
  rewrite <-E. apply IH. intros; apply Hts. by apply list_elem_of_further.
Qed.

Lemma all_logs_kept d ts w :
  NoDup ts → (∀ t, t ∈ ts → t ∈ ledger_types ∧ names_apart config (log_name t) = true ∧
                            is_Some (db_at w (path_join d (log_name t)))) →
  ∀ t, t ∈ ts → type_kept d w t (all_of (λ t, txn_log d (log_name t)) ts w).1 (all_of (λ t, txn_log d (log_name t)) ts w).2.
Proof.
  revert w. induction ts as [|t0 ts IH]; intros w Hnd Hts t Ht; [by apply not_elem_of_nil in Ht|].
  apply NoDup_cons in Hnd as [Ht0 Hnd]. destruct (Hts t0) as (Hl0 & Hn0 & [db0 Hdb0]); [apply list_elem_of_here|].
  pose proof (migrate_txn_log_kept deserialize serialize transform_to_new_format request_digest hexlify sha256_digest
    sha256_hex raw_deserialize raw_serialize delimiter types config d (log_name t0) w db0 Hn0 Hdb0) as Hk0.
  assert (∀ t, t ∈ ts → ∀ n, n ∈ [log_name t; log_name t +:+ "_new"] →
    frames (same_at (path_join d n)) (txn_log d (log_name t0))) as Hfr.
  { intros t1 Ht1 n Hn. destruct (Hts t1) as (Hl1 & Hn1 & _); [by apply list_elem_of_further|].
    eapply other_log_frame; try done. by intros <-. }
  assert (∀ r w1, (txn_log d (log_name t0) w) = (r, w1) → r ≠ Ok true → t ∈ ts → type_kept d w t r w1) as Hstop.
  { intros r w1 E Hr Hin. split; [done|]. left. rewrite <-(f_equal snd E : _ = w1).
    rewrite (Hfr t Hin (log_name t)) by set_solver. by destruct (Hts t Ht) as (_ & _ & [db ->]). }
  unfold leaves in Hk0. cbn [all_of]. unfold act_bind.
  change ((fix go (l : list string) : act W bool := match l with
    | [] => ret true
    | x :: l' => act_bind (txn_log d (log_name x)) (λ ok : bool, if ok then go l' else ret false) end) ts)
    with (all_of (λ t, txn_log d (log_name t)) ts).
  destruct (txn_log d (log_name t0) w) as [[[]|e] w1] eqn:E0; cbn [fst snd negb] in *.
  2,3: (apply elem_of_cons in Ht as [->|Ht]; [unfold type_kept; rewrite Hdb0; exact Hk0|by apply Hstop]).
  assert (∀ t, t ∈ ts → ∀ n, n ∈ [log_name t; log_name t +:+ "_new"] →
    db_at w1 (path_join d n) = db_at w (path_join d n)) as Hsame.
  { intros t1 Ht1 n Hn. rewrite <-(f_equal snd E0 : _ = w1). by apply (Hfr t1 Ht1 n Hn). }
  apply elem_of_cons in Ht as [->|Ht].
  - destruct Hk0 as [(n & Hc & Hn) _]; [done|]. unfold type_kept. rewrite Hdb0. cbn [default].
    assert (db_at (all_of (λ t, txn_log d (log_name t)) ts w1).2 (path_join d (log_name t0)) = Some n) as Hfin.
    { rewrite <-Hn. apply logs_frame; [done|done|]. intros t1 Ht1.
      destruct (Hts t1) as (Hl1 & _); [by apply list_elem_of_further|]. split; [done|]. by intros ->. }
    split; [intros _|right]; exists n; (split; [exact Hc|]); [|right]; exact Hfin.
  - eapply (type_kept_ext d w w1 t); [| |apply IH].
    + intros n [->|Hn]%elem_of_cons; [by rewrite (txn_log_attr _ _ _ _ _ _ _ _ _ _ _ _ _ _ _ _ Hn0 E0)|].
      by rewrite (Hsame t Ht n Hn).
    + done.
    + done.
    + intros t1 Ht1. destruct (Hts t1) as (Hl1 & Hn1 & Hs1); [by apply list_elem_of_further|].
      rewrite (Hsame t1 Ht1) by set_solver. done.
    + done.
Qed.
(** A member of a list that is written out, by its index. *)
Ltac in_list n :=
  lazymatch n with
  | S ?m => first [apply (list_elem_of_lookup_2 _ m); reflexivity | in_list m]
  end.

Lemma config_names :
  config_apart config = true →
  (∀ t, t ∈ ledger_types → names_apart config (log_name t) = true) ∧
  (∀ d t n q, t ∈ ledger_types → n ∈ removed_names config → q ∈ [log_name t; log_name t +:+ "_new"] →
              under (path_join d n) (path_join d q) = false).
Proof.
  unfold config_apart. rewrite andb_true_iff, !forallb_forall. intros [H1 H2].
  assert (∀ t, t ∈ ledger_types → names_apart config (log_name t) = true) as Hn
    by (intros t Ht; apply H1; by apply list_elem_of_In).
  split; [done|]. intros d t n q Ht Hn' Hq. apply list_elem_of_In in Hn'. specialize (H2 n Hn').
  apply andb_true_iff in H2 as [Hs%negb_true_iff H2]. rewrite forallb_forall in H2. specialize (H2 t).
  rewrite <-list_elem_of_In, andb_true_iff, !negb_true_iff in H2. destruct (H2 Ht) as [U1 U2].
  specialize (Hn t Ht). unfold names_apart in Hn. cbn [forallb] in Hn.
  rewrite !andb_true_iff, !negb_true_iff in Hn. destruct Hn as [[[(_ & _ & Hp & Hpn & _) _] _] _].
  apply elem_of_cons in Hq as [->|Hq]; [|apply list_elem_of_singleton in Hq as ->]; by rewrite !path_join_app, under_app.
Qed.

Notation all_ := (migrate_all deserialize serialize transform_to_new_format request_digest hexlify sha256_digest
      sha256_hex raw_deserialize raw_serialize delimiter types config).

(** What follows the logs does not touch them. *)
Lemma rest_frame d q t :
  config_apart config = true → t ∈ ledger_types → q ∈ [log_name t; log_name t +:+ "_new"] →
  frames (same_at (path_join d q)) (let? _ := rename_seq_no_db config d in
    let? hashes := migrate_hash_stores d in if negb hashes then ret false else
    let? states := migrate_states d in if negb states then ret false else
    let? ts := migrate_ts_store config d in if negb ts then ret false else
    migrate_bls_signature_store config d).
Proof.
  intros Hc Ht Hq. destruct (config_names Hc) as [_ Hu].
  assert (∀ n, n ∈ removed_names config → frames (same_at (path_join d q)) (remove_if_exists (path_join d n))) as Hrm.
  { intros n Hn. apply frames_remove. by eapply Hu. }
  assert (∀ t, t ∈ ledger_types → t +:+ "_merkleLeaves" ∈ removed_names config ∧
    t +:+ "_merkleNodes" ∈ removed_names config ∧ t +:+ "_state" ∈ removed_names config) as Hin
    by (intros t1 [i Hi]%list_elem_of_lookup_1; destruct i as [|[|[|i]]]; [..|discriminate]; injection Hi as <-;
        repeat split; in_list 13).
  assert (seqNoDbName config ∈ removed_names config ∧ seqNoDbName config +:+ "_new" ∈ removed_names config ∧
    stateTsDbName config ∈ removed_names config ∧ stateSignatureDbName config ∈ removed_names config) as (I1 & I2 & I3 & I4)
    by (repeat split; in_list 4).
  assert (∀ (f : string → act W unit), (∀ t, t ∈ ledger_types → frames (same_at (path_join d q)) (f t)) →
    frames (same_at (path_join d q)) (each f ledger_types)) as Heach.
  { intros f Hf. cbn. frame_calls; apply Hf; in_list 3. }
  unfold rename_seq_no_db, migrate_hash_stores, migrate_states, migrate_ts_store, migrate_bls_signature_store.
  repeat first [apply frames_bind; [apply _| |intros ?]|apply frames_except|apply frames_ret; apply _|
    apply Heach; intros ??|match goal with |- frames _ (if ?b then _ else _) => destruct b end]; eauto with stores.
  all: try (apply frames_rm || apply frames_move || apply Hrm); try (eapply Hu; [exact Ht| |exact Hq]); try done; in_list 13.
Qed.

Lemma migrate_all_kept name ledger_dir_of w :
  config_apart config = true →
  (∀ t, t ∈ ledger_types → is_Some (db_at w (path_join (ledger_dir_of name) (log_name t)))) →
  ∀ t, t ∈ ledger_types → leaves (type_kept (ledger_dir_of name) w t) (all_ (Some name) ledger_dir_of) w.
Proof.
  intros Hc Hlogs t Ht. set (d := ledger_dir_of name) in *. destruct (config_names Hc) as [Hnames _].
  assert (∀ w1, same_paths w w1 → ∀ t, t ∈ ledger_types → is_Some (db_at w1 (path_join d (log_name t)))) as Hthere
    by (intros w1 Hw1 t1 Ht1; rewrite Hw1; by apply Hlogs).
  cbn [migrate_all]. fold d. apply try_step.
  { intros r _ Hr. split; [done|]. left. unfold archive_old_ledger. rewrite tar_same. by destruct (Hlogs t Ht) as [db ->]. }
  intros w1 <-. set (w1 := (archive_old_ledger name d w).2).
  assert (same_paths w w1) as Hw1 by (intros q; apply tar_same).
  assert (NoDup ledger_types) as Hnd by (apply (bool_decide_unpack _); by vm_compute).
  pose proof (all_logs_kept d ledger_types w1 Hnd) as Hk.
  assert (type_kept d w t (migrate_txn_logs deserialize serialize transform_to_new_format request_digest hexlify sha256_digest
      sha256_hex raw_deserialize raw_serialize delimiter types config d w1).1 (migrate_txn_logs deserialize serialize
      transform_to_new_format request_digest hexlify sha256_digest
      sha256_hex raw_deserialize raw_serialize delimiter types config d w1).2) as Hlog.
  { eapply type_kept_ext; [| |apply Hk]; [by intros n _; rewrite Hw1|done| |done].
    intros t1 Ht1. split; [done|]. split; [by apply Hnames|by apply Hthere]. }
  clear Hk. apply plain_step; [by intros e E; rewrite <-E|]. intros [] w2 E2; rewrite E2 in Hlog; [|exact Hlog].
  cbn [negb fst snd] in *. destruct Hlog as [Hlog _]. destruct (Hlog eq_refl) as (n & Hfin & Hn).
  pose proof (rest_frame d (log_name t) t Hc Ht ltac:(in_list 1) w2) as E. unfold same_at in E. rewrite Hn in E.
  split; [intros _|right]; exists n; (split; [exact Hfin|]); [|right]; exact E.
Qed.
End AllLogs.

(** ** Lemmas: ids *)

Lemma no_colon_sep x tail : no_colon x = true → sep_free ":" x tail = true.
Proof.
  induction x as [|c x IH]; intros Hx; [done|]. apply no_colon_cons in Hx as [Hc Hx].
  cbn [sep_free]. rewrite IH by done. rewrite andb_true_r.
  change (String c x +:+ tail) with (String c (x +:+ tail)). cbn [String.prefix].
  destruct (ascii_dec ":" c); [congruence|done].
Qed.

(** Splitting a path gives its parts back. *)
Lemma split_path l x : Forall (λ p, no_colon p = true) (l ++ [x]) → py_split ":" (py_join ":" (l ++ [x])) = l ++ [x].
Proof.
  intros Hl. apply Forall_app in Hl as [Hl Hx]. apply py_split_join; [done| |].
  - eapply Forall_impl; [exact Hl|]. intros p. apply no_colon_sep.
  - apply no_colon_sep. by inversion Hx.
Qed.

(** The id of a credential definition before the migration: it has no tag. *)
Definition old_cred_def_id (did sig_type schema_seq_no : string) : string :=
  path_of [VStr did; VStr MARKER_CLAIM_DEF; VStr sig_type; VStr schema_seq_no].

Lemma py_join_app sep m x l : m ≠ [] → py_join sep (m ++ x :: l) = py_join sep m +:+ sep +:+ py_join sep (x :: l).
Proof.
  intros Hm. induction m as [|y m IH]; [done|]. destruct m as [|z m]; [done|].
  cbn [app] in *. change (py_join sep (y :: z :: m ++ x :: l)) with (y +:+ sep +:+ py_join sep (z :: m ++ x :: l)).
  rewrite IH by done. change (py_join sep (y :: z :: m)) with (y +:+ sep +:+ py_join sep (z :: m)).
  by rewrite !str_app_assoc.
Qed.

Lemma add_tag_spec d did sig seq type tag :
  no_colon did = true → no_colon sig = true → no_colon seq = true →
  vget CRED_DEF_ID d = VStr (old_cred_def_id did sig seq) → vget REVOC_TYPE d = VStr type → vget TAG d = VStr tag →
  type ≠ "" → tag ≠ "" →
  let cred_def_id := make_state_path_for_claim_def (VStr did) (VStr seq) (VStr sig) (VStr CLAIM_DEF_TAG_DEFAULT) in
  add_tag_into_cred_def_id d =
  Ok (Some (dset ID (VStr (make_state_path_for_revoc_def (VStr did) (VStr cred_def_id) (VStr type) (VStr tag)))
              (dset CRED_DEF_ID (VStr cred_def_id) d))).
Proof.
  intros Hd Hs Hq Hc Ht Hg Ht0 Hg0 cred_def_id. unfold add_tag_into_cred_def_id. rewrite Hc.
  assert (str_truth (old_cred_def_id did sig seq) = true) as ->
    by (destruct did; reflexivity).
  assert (py_split ":" (old_cred_def_id did sig seq) = [did; MARKER_CLAIM_DEF; sig; seq]) as ->
    by (apply (split_path [did; MARKER_CLAIM_DEF; sig] seq); by repeat constructor).
  cbn [negb]. fold cred_def_id. unfold vget in *. rewrite !dget_dset_ne by done. rewrite Ht, Hg.
  rewrite !(proj2 (py_truth_str _)) by done. done.
Qed.

Lemma add_cred_spec e did cred_def type tag :
  Forall (λ p, no_colon p = true) cred_def → cred_def ≠ [] →
  no_colon did = true → no_colon type = true → no_colon tag = true →
  vget REVOC_REG_DEF_ID e =
    VStr (make_state_path_for_revoc_def (VStr did) (VStr (py_join ":" cred_def)) (VStr type) (VStr tag)) →
  add_cred_def_id_into_entry e =
  Ok (Some (dset REVOC_REG_DEF_ID
    (VStr (make_state_path_for_revoc_def (VStr did) (VStr (py_join ":" cred_def +:+ ":" +:+ CLAIM_DEF_TAG_DEFAULT))
             (VStr type) (VStr tag))) e)).
Proof.
  intros Hcd Hne Hd Ht Hg He. unfold add_cred_def_id_into_entry. rewrite He.
  set (id := make_state_path_for_revoc_def _ _ _ _).
  assert (str_truth id = true) as -> by (destruct did; reflexivity).
  assert (id = py_join ":" (([did; MARKER_REVOC_DEF] ++ cred_def ++ [type]) ++ [tag])) as ->.
  { subst id. rewrite <-app_assoc, <-app_assoc. destruct cred_def as [|c0 cd]; [done|].
    change ((c0 :: cd) ++ [type] ++ [tag]) with (c0 :: cd ++ [type; tag]). rewrite py_join_app by done.
    change (c0 :: cd ++ [type; tag]) with ((c0 :: cd) ++ type :: [tag]). rewrite py_join_app by done.
    unfold make_state_path_for_revoc_def, path_of. generalize (py_join ":" (c0 :: cd)). intros c.
    cbn [map py_str py_join]. by rewrite !str_app_assoc. }
  rewrite split_path by (rewrite !Forall_app; repeat constructor; done).
  rewrite <-app_assoc, <-app_assoc. cbn [negb]. rewrite !length_app. cbn [length].
  replace (2 + (length cred_def + (1 + 1)) - 4) with (length cred_def) by lia.
  cbn [app drop]. rewrite drop_0, take_app_length. unfold from_end.
  assert (rev (did :: MARKER_REVOC_DEF :: cred_def ++ [type; tag]) = tag :: type :: rev (did :: MARKER_REVOC_DEF :: cred_def)) as ->.
  { change (did :: MARKER_REVOC_DEF :: cred_def ++ [type; tag]) with ((did :: MARKER_REVOC_DEF :: cred_def) ++ [type; tag]).
    by rewrite rev_app_distr. }
  reflexivity.
Qed.

(** ** A file system of databases *)

(** [fails] are the calls that are refused. *)
Definition fun_stores (fails : string → bool) : Stores (string → option DB) :=
  let call (name : string) (f : (string → option DB) → string → option DB) : act (string → option DB) unit :=
    λ w, if fails name then (Raise (OSError name), w) else (Ok tt, f w) in
  {|
    db_at w p := w p;
    path_exists p w := if w p then true else false;
    iterator db := map_to_list db;
    open_storage p ro w :=
      if ro then (if w p then Ok tt else Raise (OSError "no database"), w)
      else (Ok tt, λ q, if str_eqb p q then Some (default ∅ (w p)) else w q);
    storage_put p k v := call "put" (λ w q, if str_eqb p q then insert k v <$> w q else w q);
    close_storage _ w := (Ok tt, w);
    rm_tree d := call "rmtree" (λ w q, if under d q then None else w q);
    move_tree a b := call "move" (λ w q, match literal b q with
                                         | Some s => if str_eqb s "" || String.prefix "/" s then w (a +:+ s)
                                                     else if under a q then None else w q
                                         | None => if under a q then None else w q
                                         end);
    make_dir _ w := (Ok tt, w);
    set_own_perm _ _ w := (Ok tt, w);
    tar_add _ _ _ := call "tar" (λ w, w)
  |}.

Lemma under_app_tail d s : s = "" ∨ String.prefix "/" s = true → under d (d +:+ s) = true.
Proof.
  unfold under. intros [->|Hs]; [by rewrite str_app_nil_r, str_eqb_refl|]. apply orb_true_iff. right.
  by rewrite prefix_app_both.
Qed.

Lemma under_split a b s s' :
  a +:+ s = b +:+ s' → s = "" ∨ String.prefix "/" s = true → s' = "" ∨ String.prefix "/" s' = true →
  under a b = true ∨ under b a = true.
Proof.
  assert (∀ d b t u, u = String d b +:+ t → u = "" ∨ String.prefix "/" u = true → under "" (String d b) = true) as Hroot.
  { intros d b0 t u -> [Hs|Hs]; [done|]. change (String d b0 +:+ t) with (String d (b0 +:+ t)) in Hs.
    cbn [String.prefix] in Hs. unfold under. apply orb_true_iff. right. change ("" +:+ "/") with "/". cbn [String.prefix].
    destruct (ascii_dec "/" d); [by destruct b0|done]. }
  revert b. induction a as [|c a IH]; intros b H Hs Hs'.
  - left. destruct b as [|d b]; [done|]. by eapply Hroot.
  - destruct b as [|d b].
    + right. symmetry in H. by eapply Hroot.
    + injection H as <- H. change (String c a) with (String c "" +:+ a). change (String c b) with (String c "" +:+ b).
      rewrite !under_app. by apply IH.
Qed.

Lemma fun_store_laws fails : @StoreLaws _ (fun_stores fails).
Proof.
  assert (∀ s, str_eqb s "" || String.prefix "/" s = true ↔ s = "" ∨ String.prefix "/" s = true) as Hb
    by (intros s; by rewrite orb_true_iff, str_eqb_eq).
  split; cbn.
  - done.
  - intros p ro w q Hp. destruct ro; [done|]. cbn. destruct Hp as [Hp|]; [|done].
    by rewrite (proj2 (str_eqb_neq _ _) Hp).
  - intros p ro w w'. destruct ro.
    + intros [= H <-]. by destruct (w p).
    + intros [= <-]. by rewrite str_eqb_refl.
  - intros p k v w q Hp. destruct (fails "put"); [done|]. cbn. by rewrite (proj2 (str_eqb_neq _ _) Hp).
  - intros p k v w w' db Hdb. destruct (fails "put"); [done|]. intros [= <-]. by rewrite str_eqb_refl, Hdb.
  - done.
  - intros d w q Hq. destruct (fails "rmtree"); [done|]. cbn. by rewrite Hq.
  - intros d w w' q. destruct (fails "rmtree"); [done|]. intros [= <-] Hq. by rewrite Hq.
  - intros a b w q Ha Hbq. destruct (fails "move"); [done|]. cbn. rewrite Ha.
    destruct (literal b q) as [s|] eqn:E; [|done]. destruct (str_eqb s "" || String.prefix "/" s) eqn:Es; [|done].
    apply literal_split in E as ->. apply Hb in Es. by rewrite under_app_tail in Hbq.
  - intros a b w s Hgone Hab Hba Hs. destruct (fails "move"); [done|]. intros _. cbn. rewrite literal_app.
    rewrite (proj2 (Hb s) Hs). split; [done|]. destruct (literal b (a +:+ s)) as [s'|] eqn:E; [|by rewrite under_app_tail].
    destruct (str_eqb s' "" || String.prefix "/" s') eqn:Es; [|by rewrite under_app_tail].
    apply literal_split in E. apply Hb in Es. destruct (under_split _ _ _ _ E Hs Es); congruence.
  - intros a b w e _ _ _. destruct (fails "move"); [|done]. by left.
  - done.
  - done.
  - intros a d n w q. by destruct (fails "tar").
Qed.

(** ** Lemmas: from LevelDB to RocksDB *)

(** A directory name that [os.path.join] puts a slash behind. *)
Definition plain (d : string) : bool := negb (str_eqb d "") && negb (ends_with_slash d).

Lemma path_join_plain d n : plain d = true → String.prefix "/" n = false → path_join d n = d +:+ "/" +:+ n.
Proof.
  unfold plain. rewrite andb_true_iff, !negb_true_iff. intros [H1 H2] Hn. unfold path_join, dir_prefix.
  rewrite Hn, H1, H2. cbn [orb]. by rewrite str_app_assoc.
Qed.

Lemma storage_names_plain n : n ∈ storage_names → String.prefix "/" n = false.
Proof.
  intros Hn. assert (Forall (λ n, String.prefix "/" n = false) storage_names) as H by (repeat constructor).
  rewrite Forall_forall in H. by apply H.
Qed.

Lemma storage_names_NoDup : NoDup storage_names.
Proof. apply (bool_decide_unpack _). by vm_compute. Qed.

Section Rocks.
Context {W : Type} `{!Stores W, !StoreLaws W} (l r : string).
Context (Hl : plain l = true) (Hr : plain r = true) (Hlr : under l r = false) (Hrl : under r l = false).
Implicit Types w : W.

Lemma under_path d n : plain d = true → n ∈ storage_names → under d (path_join d n) = true.
Proof.
  intros Hd Hn. rewrite path_join_plain by (done || by apply storage_names_plain). apply under_app_tail. right. apply prefix_app.
Qed.

(** Directories that are apart have no path in common. *)
Lemma under_apart_name a b n :
  plain a = true → plain b = true → under a b = false → under b a = false → String.prefix "/" n = false →
  under a (path_join b n) = false.
Proof.
  intros Ha Hb Hab Hba Hn. rewrite path_join_plain by done.
  destruct (under a (b +:+ "/" +:+ n)) eqn:E; [|done]. exfalso. unfold under in E. apply orb_true_iff in E.
  assert (∃ s, a +:+ s = b +:+ "/" +:+ n ∧ (s = "" ∨ String.prefix "/" s = true)) as (s & Es & Hs).
  { destruct E as [E|E].
    - apply str_eqb_eq in E. exists "". rewrite str_app_nil_r. auto.
    - apply prefix_split in E as [s Es]. exists ("/" +:+ s). rewrite Es, str_app_assoc. split; [done|]. right. apply prefix_app. }
  destruct (under_split a b s ("/" +:+ n) Es Hs (or_intror (prefix_app "/" n))); congruence.
Qed.

Lemma under_apart a b n :
  plain a = true → plain b = true → under a b = false → under b a = false → n ∈ storage_names →
  under a (path_join b n) = false.
Proof. intros Ha Hb Hab Hba Hn. apply under_apart_name; try done. by apply storage_names_plain. Qed.

Lemma paths_differ n n' : n ∈ storage_names → n' ∈ storage_names → path_join r n ≠ path_join l n'.
Proof.
  intros Hn Hn' E. pose proof (under_path r n Hr Hn) as H. rewrite E in H.
  by rewrite (under_apart r l n' Hr Hl Hrl Hlr Hn') in H.
Qed.

Lemma put_all p kvs db w w' :
  db_at w p = Some db → each (λ kv, storage_put p kv.1 kv.2) kvs w = (Ok tt, w') →
  db_at w' p = Some (foldl (λ m kv, <[kv.1 := kv.2]> m) db kvs).
Proof.
  revert w db. induction kvs as [|[k v] kvs IH]; intros w db Hdb H; [by injection H as <-|].
  cbn in H. apply act_bind_Ok in H as ([] & w1 & Hp & H). cbn. eapply IH; [|exact H]. by eapply put_Ok.
Qed.

Lemma fold_inserts kvs (db src : DB) :
  NoDup kvs.*1 → (∀ k v, (k, v) ∈ kvs ↔ src !! k = Some v) →
  foldl (λ m kv, <[kv.1 := kv.2]> m) db kvs = src ∪ db.
Proof.
  revert db src. induction kvs as [|[k v] kvs IH]; intros db src Hnd Hin; cbn.
  - assert (src = ∅) as -> by (apply map_eq; intros k; rewrite lookup_empty; apply eq_None_not_Some; intros [v Hv%Hin];
      by apply not_elem_of_nil in Hv). by rewrite (left_id_L ∅ (∪)).
  - apply NoDup_cons in Hnd as [Hk Hnd]. rewrite (IH _ (delete k src) Hnd).
    + assert (src !! k = Some v) as Hv by (apply Hin, list_elem_of_here).
      rewrite <-(insert_delete_id src k v Hv) at 2. rewrite <-insert_union_l.
      rewrite <-insert_union_r; [done|]. apply lookup_delete_eq.
    + intros k' v'. destruct (decide (k = k')) as [<-|Hne].
      * rewrite lookup_delete_eq. split; [|done]. intros Hin'. exfalso. apply Hk, list_elem_of_fmap. by exists (k, v').
      * rewrite lookup_delete_ne by done. rewrite <-Hin. set_solver.
Qed.

(** The copy of one database, into a new one. *)
Lemma migrate_storage_Ok n w w' db :
  n ∈ storage_names → db_at w (path_join l n) = Some db → db_at w (path_join r n) = None →
  migrate_storage l r n w = (Ok true, w') → db_at w' (path_join r n) = Some db.
Proof.
  intros Hn Hdb Hnone H.
  assert (leaves (λ res w', res = Ok true → db_at w' (path_join r n) = Some db) (migrate_storage l r n) w) as Hk.
  2:{ unfold leaves in Hk. rewrite H in Hk. by apply Hk. }
  clear H w'. pose proof (paths_differ n n Hn Hn) as Hne. unfold migrate_storage.
  apply guard_step; [done|]. intros w1 H1. pose proof (λ q, open_others (path_join l n) true w q (or_intror eq_refl)) as E1.
  rewrite H1 in E1. cbn in E1. apply guard_step; [done|]. intros w2 H2.
  pose proof (open_Ok _ _ _ _ H2) as D2. rewrite E1, Hnone in D2. cbn in D2.
  pose proof (open_others (path_join r n) false w1 (path_join l n) (or_introl Hne)) as S2. rewrite H2 in S2. cbn in S2.
  rewrite E1, Hdb in S2. apply guard_bool; [done|]. rewrite S2. cbn [default]. intros w3 H3.
  apply act_bind_Ok in H3 as ([] & w3' & H3 & [= ->]).
  pose proof (put_all _ _ _ _ _ D2 H3) as D3. rewrite (fold_inserts _ _ db) in D3.
  2:{ rewrite iterator_spec. apply NoDup_fst_map_to_list. }
  2:{ intros k v. rewrite iterator_spec. apply elem_of_map_to_list. }
  rewrite (right_id_L ∅ (∪)) in D3.
  apply plain_step; [done|]. intros [] w4 H4. pose proof (close_same (path_join l n) w3 (path_join r n)) as E4.
  rewrite H4 in E4. cbn in E4. apply plain_step; [done|]. intros [] w5 H5 _. cbn.
  pose proof (close_same (path_join r n) w4 (path_join r n)) as E5. rewrite H5 in E5. cbn in E5. congruence.
Qed.

Lemma migrate_storage_frame n q : path_join r n ≠ q → frames (same_at q) (migrate_storage l r n).
Proof.
  intros Hq w. unfold same_at.
  assert (frames (same_at q) (open_storage (path_join l n) true)) as Hro by (intros w1; unfold same_at; rewrite open_others; auto).
  enough (frames (same_at q) (migrate_storage l r n)) as Hf by apply Hf.
  unfold migrate_storage. frame_calls.
  apply (frames_at q (λ db, let? _ := each (λ kv, storage_put (path_join r n) kv.1 kv.2) (iterator db) in ret true)).
  intros db. frame_calls.
Qed.

(** All databases. *)
Lemma migrate_storages_frame q ns : (∀ n, n ∈ ns → path_join r n ≠ q) → frames (same_at q) (all_of (migrate_storage l r) ns).
Proof.
  induction ns as [|n ns IH]; intros Hq; [apply frames_ret; apply _|]. cbn.
  apply frames_bind; [apply _|apply migrate_storage_frame, Hq, list_elem_of_here|]. intros []; [|apply frames_ret; apply _].
  apply IH. intros; apply Hq. by apply list_elem_of_further.
Qed.

Lemma migrate_storages_Ok ns w w' :
  NoDup ns → (∀ n, n ∈ ns → n ∈ storage_names ∧ is_Some (db_at w (path_join l n)) ∧ db_at w (path_join r n) = None) →
  all_of (migrate_storage l r) ns w = (Ok true, w') →
  ∀ n, n ∈ ns → db_at w' (path_join r n) = db_at w (path_join l n).
Proof.
  revert w. induction ns as [|n0 ns IH]; intros w Hnd Hns H n Hn; [by apply not_elem_of_nil in Hn|].
  apply NoDup_cons in Hnd as [Hn0 Hnd]. cbn in H. apply act_bind_Ok in H as (b & w1 & H0 & H). destruct b; [|discriminate].
  destruct (Hns n0) as (Hs0 & [db0 Hdb0] & Hnone0); [apply list_elem_of_here|].
  assert (∀ n n', n ∈ storage_names → n' ∈ storage_names → n ≠ n' → path_join r n ≠ path_join r n') as Hdiff.
  { intros n1 n2 H1 H2 Hne. rewrite !path_join_plain by (done || by apply storage_names_plain). by intros ?%str_app_inj_l%str_app_inj_l. }
  assert (∀ n, n ∈ ns → n ∈ storage_names) as Hin by (intros n1 ?; apply Hns; by apply list_elem_of_further).
  apply elem_of_cons in Hn as [->|Hn].
  - rewrite Hdb0, <-(migrate_storage_Ok n0 w w1 db0) by done. rewrite <-(f_equal snd H : _ = w').
    apply migrate_storages_frame. intros n1 Hn1. apply Hdiff; [by apply Hin|done|]. by intros <-.
  - pose proof (λ q Hq, migrate_storage_frame n0 q Hq w) as Hf. rewrite H0 in Hf. unfold same_at in Hf. cbn in Hf.
    rewrite (IH w1 Hnd) by (done || (intros n1 Hn1; destruct (Hns n1) as (? & ? & ?); [by apply list_elem_of_further|];
      rewrite !Hf; [done|apply Hdiff; [done..|by intros <-]|by apply paths_differ])).
    apply Hf. apply paths_differ; [done|by apply Hin].
Qed.
End Rocks.

(** ** Lemmas: the ids of one transaction *)

Lemma update_ids_other o :
  py_eq (vget TXN_TYPE o) (VStr REVOC_REG_DEF) = false →
  py_eq (vget TXN_TYPE o) (VStr REVOC_REG_ENTRY) = false → update_ids o = Ok (Some o).
Proof. intros H1 H2. unfold update_ids. rewrite H1. cbn [res_bind]. by rewrite H2. Qed.

Lemma update_ids_def d :
  vget TXN_TYPE d = VStr REVOC_REG_DEF → update_ids d = add_tag_into_cred_def_id d.
Proof.
  intros H. unfold update_ids. rewrite H. cbn [py_eq]. rewrite str_eqb_refl.
  destruct (add_tag_into_cred_def_id d) as [[d'|]|e] eqn:E; cbn [res_bind]; try done.
  assert (vget TXN_TYPE d' = VStr REVOC_REG_DEF) as ->; [|done]. rewrite <- H. revert E.
  unfold add_tag_into_cred_def_id, vget at 1. intros E. repeat case_match; simplify_eq.
  unfold vget. by rewrite !dget_dset_ne.
Qed.

Lemma update_ids_entry e :
  vget TXN_TYPE e = VStr REVOC_REG_ENTRY → update_ids e = add_cred_def_id_into_entry e.
Proof.
  intros H. unfold update_ids. rewrite H. cbn [py_eq]. 
  change (str_eqb REVOC_REG_ENTRY REVOC_REG_DEF) with false. cbn [res_bind]. rewrite H. cbn [py_eq].
  by rewrite str_eqb_refl.
Qed.

(** ** Properties *)

(** C20. Registry definitions and their entries stay together, when the author, the
    signature type, the schema's number, the registry's type and its tag have no colon,
    and type and tag are not empty: after the migration of the ids, a definition has the
    id of its credential definition with the tag, and the id the domain handler computes
    for it; an entry that named the registry before names that id now.  Other fields,
    and transactions of other types, are not changed.  (The registry is of the author of
    the credential definition.  A tag with a colon, which the schema admits, and a
    registry of another author break the link: see below.) *)
Theorem registry_ids_stay_linked d e did sig seq type tag :
  no_colon did = true → no_colon sig = true → no_colon seq = true → no_colon type = true → no_colon tag = true →
  type ≠ "" → tag ≠ "" → did ≠ "" →
  vget TXN_TYPE d = VStr REVOC_REG_DEF → vget TXN_TYPE e = VStr REVOC_REG_ENTRY →
  vget CRED_DEF_ID d = VStr (old_cred_def_id did sig seq) → vget REVOC_TYPE d = VStr type → vget TAG d = VStr tag →
  vget REVOC_REG_DEF_ID e =
    VStr (make_state_path_for_revoc_def (VStr did) (VStr (old_cred_def_id did sig seq)) (VStr type) (VStr tag)) →
  (∃ d' e' id, update_ids d = Ok (Some d') ∧ update_ids e = Ok (Some e') ∧
    vget CRED_DEF_ID d' = VStr (make_state_path_for_claim_def (VStr did) (VStr seq) (VStr sig) (VStr CLAIM_DEF_TAG_DEFAULT)) ∧
    vget ID d' = VStr id ∧ vget REVOC_REG_DEF_ID e' = VStr id ∧
    (∀ txn, (∀ k, k ∈ [CRED_DEF_ID; REVOC_TYPE; TAG] → vget k (get_payload_data txn) = vget k d') →
            get_from txn = Some did →
            prepare_revoc_def_for_state (bytes := val) txn true = Ok (id, None)) ∧
    (∀ k, k ≠ CRED_DEF_ID → k ≠ ID → dget k d' = dget k d) ∧ (∀ k, k ≠ REVOC_REG_DEF_ID → dget k e' = dget k e)) ∧
  (∀ o, py_eq (vget TXN_TYPE o) (VStr REVOC_REG_DEF) = false →
        py_eq (vget TXN_TYPE o) (VStr REVOC_REG_ENTRY) = false → update_ids o = Ok (Some o)).
Proof.
  intros Hd Hs Hq Ht Hg Ht0 Hg0 Hd0 Td Te Hc Hty Hta He. split; [|apply update_ids_other].
  pose proof (add_tag_spec d did sig seq type tag) as Hdef.
  pose proof (add_cred_spec e did [did; MARKER_CLAIM_DEF; sig; seq] type tag) as Hent.
  cbv zeta in Hdef. rewrite update_ids_def, (update_ids_entry e Te), Hdef, Hent by (try done; repeat constructor; done).
  clear Hdef Hent.
  assert (py_join ":" [did; MARKER_CLAIM_DEF; sig; seq] +:+ ":" +:+ CLAIM_DEF_TAG_DEFAULT =
          make_state_path_for_claim_def (VStr did) (VStr seq) (VStr sig) (VStr CLAIM_DEF_TAG_DEFAULT)) as ->
    by (unfold make_state_path_for_claim_def, path_of; cbn [map py_str py_join]; by rewrite !str_app_assoc).
  set (cred := make_state_path_for_claim_def _ _ _ _). set (id := make_state_path_for_revoc_def _ _ _ _).
  assert (py_truth (VStr cred) = true) as Hcred by (apply py_truth_str; by destruct did).
  eexists _, _, id. split; [done|]. split; [done|]. unfold vget in *.
  split; [by rewrite dget_dset_ne, dget_dset_eq|]. split; [by rewrite dget_dset_eq|]. split; [by rewrite dget_dset_eq|].
  split; [|split; [intros k H1 H2; by rewrite !dget_dset_ne|intros k H1; by rewrite dget_dset_ne]].
  intros txn Hp Hf. unfold prepare_revoc_def_for_state. unfold vget. rewrite !Hp, Hf by set_solver.
  unfold opt_str, py_assert.
  rewrite (dget_dset_ne ID CRED_DEF_ID), dget_dset_eq, !(dget_dset_ne _ REVOC_TYPE), !(dget_dset_ne _ TAG) by done.
  destruct (dget REVOC_TYPE d) as [x|], (dget TAG d) as [y|]; try discriminate. subst x y.
  rewrite Hcred, !(proj2 (py_truth_str _)) by done. done.
Qed.

Lemma registry_ids_stay_linked_witness :
  let old := "did:3:CL:7" in
  let d := [(TXN_TYPE, VStr REVOC_REG_DEF); (CRED_DEF_ID, VStr old); (REVOC_TYPE, VStr "CL_ACCUM"); (TAG, VStr "t1")] in
  let e := [(TXN_TYPE, VStr REVOC_REG_ENTRY); (REVOC_REG_DEF_ID, VStr "did:4:did:3:CL:7:CL_ACCUM:t1")] in
  ∃ d' e', update_ids d = Ok (Some d') ∧ update_ids e = Ok (Some e') ∧
    vget ID d' = vget REVOC_REG_DEF_ID e'.
Proof.
  cbv zeta. destruct (registry_ids_stay_linked
    [(TXN_TYPE, VStr REVOC_REG_DEF); (CRED_DEF_ID, VStr "did:3:CL:7"); (REVOC_TYPE, VStr "CL_ACCUM"); (TAG, VStr "t1")]
    [(TXN_TYPE, VStr REVOC_REG_ENTRY); (REVOC_REG_DEF_ID, VStr "did:4:did:3:CL:7:CL_ACCUM:t1")]
    "did" "CL" "7" "CL_ACCUM" "t1")
    as ((d' & e' & id & Hd & He & _ & H1 & H2 & _) & _); try reflexivity; try discriminate.
  exists d', e'. split; [exact Hd|]. split; [exact He|]. by rewrite H1, H2.
Defined.

(** A tag with a colon: the entry's id is cut at the last two colons, and its new id has
    the tag of the credential definition inside that of the registry. *)
Lemma registry_tag_with_colon :
  ∃ d' e', add_tag_into_cred_def_id
      [(CRED_DEF_ID, VStr "did:3:CL:7"); (REVOC_TYPE, VStr "CL_ACCUM"); (TAG, VStr "a:b")] = Ok (Some d') ∧
    add_cred_def_id_into_entry [(REVOC_REG_DEF_ID, VStr "did:4:did:3:CL:7:CL_ACCUM:a:b")] = Ok (Some e') ∧
    vget ID d' = VStr "did:4:did:3:CL:7:tag:CL_ACCUM:a:b" ∧
    vget REVOC_REG_DEF_ID e' = VStr "did:4:did:3:CL:7:CL_ACCUM:tag:a:b".
Proof. eexists _, _. repeat split; reflexivity. Qed.

(** A registry of another author: the id in the migrated definition is not the one that
    its entries get. *)
Lemma registry_of_another_author :
  ∃ d' e', add_tag_into_cred_def_id
      [(CRED_DEF_ID, VStr "did:3:CL:7"); (REVOC_TYPE, VStr "CL_ACCUM"); (TAG, VStr "t1")] = Ok (Some d') ∧
    add_cred_def_id_into_entry [(REVOC_REG_DEF_ID, VStr "other:4:did:3:CL:7:CL_ACCUM:t1")] = Ok (Some e') ∧
    vget ID d' = VStr "did:4:did:3:CL:7:tag:CL_ACCUM:t1" ∧
    vget REVOC_REG_DEF_ID e' = VStr "other:4:did:3:CL:7:tag:CL_ACCUM:t1".
Proof. eexists _, _. repeat split; reflexivity. Qed.

(** C19. No transaction is lost: wherever the migration to the new format stops, whichever
    calls fail, each of the three logs is still the old one at its place, or is complete
    in the new format, at the temporary place or at its place; if the script succeeds it
    is complete at its place.  Complete means that every entry of the old log is there
    under its number with what the format makes of it, and nothing new besides. *)
Theorem migration_keeps_ledgers {W} `{!Stores W, !StoreLaws W} {bytes} `{!Serializer bytes}
    deserialize serialize transform_to_new_format request_digest hexlify sha256_digest sha256_hex
    raw_deserialize raw_serialize delimiter types config name ledger_dir_of (w : W) r w' :
  let d := ledger_dir_of name in
  config_apart config = true →
  (∀ t, t ∈ ledger_types → is_Some (db_at w (path_join d (log_name t)))) →
  migrate_all deserialize serialize transform_to_new_format request_digest hexlify sha256_digest sha256_hex
    raw_deserialize raw_serialize delimiter types config (Some name) ledger_dir_of w = (r, w') →
  ∀ t, t ∈ ledger_types →
    type_kept deserialize serialize transform_to_new_format request_digest hexlify sha256_digest sha256_hex
      raw_deserialize raw_serialize delimiter types config d w t r w'.
Proof.
  intros d Hc Hlogs H t Ht.
  pose proof (migrate_all_kept deserialize serialize transform_to_new_format request_digest hexlify sha256_digest sha256_hex
    raw_deserialize raw_serialize delimiter types config name ledger_dir_of w Hc Hlogs t Ht) as K.
  unfold leaves in K. by rewrite H in K.
Qed.

(** C21. The copy to RocksDB loses nothing of what it copies: the three transaction logs
    and the four databases of attributes, identities, request numbers and state
    signatures.  As long as the old ledger directory can be removed and the new one can
    take its place, wherever the script stops for other reasons, and also when it
    succeeds, each of these seven has the contents it had.  Nothing else is kept: after a
    success any other database directly in the ledger directory (a state, a hash store)
    is gone, to be built again by the node.  (The ledger directory and the temporary one
    are not inside each other, the seven databases are there, and the temporary
    directory holds none before.) *)
Theorem rocksdb_copy_is_complete {W} `{!Stores W, !StoreLaws W} name ledger_dir_of data_dir (w : W) n :
  let l := ledger_dir_of name in
  let r := path_join data_dir (name +:+ "_rocksdb") in
  plain l = true → plain r = true → under l r = false → under r l = false →
  (∀ q, under r q = true → db_at w q = None) →
  (∀ n, n ∈ storage_names → is_Some (db_at w (path_join l n))) →
  (∀ w1 : W, (rm_tree l w1).1 = Ok tt) → (∀ w1 : W, (move_tree r l w1).1 = Ok tt) →
  n ∈ storage_names →
  let w' := (migrate_to_rocksdb (Some name) ledger_dir_of data_dir w).2 in
  db_at w' (path_join l n) = db_at w (path_join l n) ∧
  ((migrate_to_rocksdb (Some name) ledger_dir_of data_dir w).1 = Ok true →
   ∀ x, x ∉ storage_names → String.prefix "/" x = false → db_at w' (path_join l x) = None).
Proof.
  intros l r Hl Hr Hlr Hrl Hfresh Hlogs Hrm Hmv Hn. unfold migrate_to_rocksdb. fold l r.
  destruct (path_exists r w); [split; done|].
  assert (∀ n, n ∈ storage_names → under r (path_join l n) = false) as Hout by (intros n1 ?; by apply under_apart).
  assert (∀ n, n ∈ storage_names → under l (path_join r n) = false) as Hout' by (intros n1 ?; by apply under_apart).
  match goal with |- db_at (?m w).2 _ = _ ∧ _ =>
    pose (Q := λ (r : res bool) w', db_at w' (path_join l n) = db_at w (path_join l n) ∧
      (r = Ok true → ∀ x, x ∉ storage_names → String.prefix "/" x = false → db_at w' (path_join l x) = None));
    enough (leaves Q m w) as Hk by exact Hk end.
  apply (guard_step Q); [intros; split; [apply mkdir_same|done]|]. intros w1 H1.
  assert (same_paths w w1) as S1 by (intros q; rewrite <-(f_equal snd H1 : _ = w1); apply mkdir_same).
  assert (∀ n, n ∈ storage_names → db_at (migrate_storages l r w1).2 (path_join l n) = db_at w (path_join l n)) as S2.
  { intros n1 Hn1. unfold migrate_storages. rewrite (migrate_storages_frame l r (path_join l n1)); [by apply S1|].
    intros n2 Hn2. by apply paths_differ. }
  apply (plain_step Q); [intros e _; split; [by apply S2|done]|]. intros b w2 H2. pose proof (S2 n Hn) as S2n. rewrite H2 in S2n. cbn in S2n.
  destruct b; cbn [negb].
  2:{ apply (plain_step Q); [intros e _; split; [by rewrite rm_others, S2n by auto|done]|]. intros [] w3 H3. unfold leaves, Q. cbn.
      split; [|done]. rewrite <-(f_equal snd H3 : _ = w3). by rewrite rm_others, S2n by auto. }
  assert (∀ x, x ∉ storage_names → String.prefix "/" x = false → db_at w2 (path_join r x) = None) as X2.
  { intros x Hx Hpx. rewrite <-(f_equal snd H2 : _ = w2). unfold migrate_storages.
    rewrite (migrate_storages_frame l r (path_join r x)).
    - rewrite S1. apply Hfresh. rewrite path_join_plain by done. apply under_app_tail. right. apply prefix_app.
    - intros n1 Hn1. rewrite !path_join_plain by (done || by apply storage_names_plain).
      intros E%str_app_inj_l%str_app_inj_l. by subst. }
  assert (db_at w2 (path_join r n) = db_at w (path_join l n)) as R2.
  { rewrite <-(S1 (path_join l n)). eapply (migrate_storages_Ok l r Hl Hr Hlr Hrl storage_names w1 w2); [apply storage_names_NoDup| |done|done].
    intros n1 Hn1. rewrite !S1. split; [done|]. split; [by apply Hlogs|]. apply Hfresh. by apply under_path. }
  apply (try_step Q); [intros res _ Hres; split; [unfold archive_leveldb_ledger; rewrite tar_same; exact S2n|done]|]. intros w3 H3.
  assert (db_at w3 (path_join r n) = db_at w (path_join l n)) as R3 by (rewrite <-H3; unfold archive_leveldb_ledger; by rewrite tar_same).
  assert (∀ q, db_at w3 q = db_at w2 q) as T3 by (intros q; rewrite <-H3; apply tar_same).
  apply (sure_step Q); [apply Hrm|]. intros w4 H4.
  assert (db_at w4 (path_join r n) = db_at w (path_join l n)) as R4.
  { rewrite <-(f_equal snd H4 : _ = w4). by rewrite rm_others by auto. }
  assert (∀ q, under l q = true → db_at w4 q = None) as G4 by (intros q Hq; by eapply rm_Ok).
  apply (sure_step Q); [apply Hmv|]. intros w5 H5.
  assert (∀ x, String.prefix "/" x = false → db_at w5 (path_join l x) = db_at w4 (path_join r x)) as M5.
  { intros x Hx. rewrite <-(f_equal snd H5 : _ = w5). rewrite !path_join_plain by done.
    apply move_there; try done. right. apply prefix_app. }
  assert (db_at w5 (path_join l n) = db_at w (path_join l n)) as L5
    by (rewrite <-R4; by apply M5, storage_names_plain).
  assert (∀ x, x ∉ storage_names → String.prefix "/" x = false → db_at w5 (path_join l x) = None) as X5.
  { intros x Hx Hpx. rewrite M5 by done. rewrite <-(f_equal snd H4 : _ = w4), rm_others, T3; [by apply X2|].
    by apply under_apart_name. }
  apply (plain_step Q); [intros e _; split; [by rewrite perm_same|done]|]. intros [] w6 H6. unfold leaves, Q. cbn.
  rewrite <-(f_equal snd H6 : _ = w6). split; [by rewrite perm_same|]. intros _ x Hx Hpx. rewrite perm_same. by apply X5.
Qed.

(** A node with an entry in each log, whose calls to remove a tree are refused. *)
Definition sample_names : MigrationConfig := mkMigrationConfig "seq_no_db" "attr_db" "state_ts_db" "state_signature".

Definition sample_ledger (ledger_dir : string) : string → option DB := λ p,
  if existsb (λ n, str_eqb p (path_join ledger_dir n)) storage_names then Some {["1" := "{}"]} else None.

Definition sample_transform (d : dict val) (n : Z) : res NewTxn :=
  Ok (mkNewTxn (mkTxn NYM [(TARGET_NYM, VStr "T")] (Some "T") (Some 7%Z) None None (Some n) None) None None None).

Definition sample_types : TypeLists := mkTypeLists 0 ["0"] [NYM; ATTRIB] [] ["111"].

Definition refuses (name : string) : string → bool := str_eqb name.

Lemma migration_keeps_ledgers_witness :
  ∃ r w', migrate_all (Stores0 := fun_stores (refuses "rmtree")) (bytes := val) (λ _, Ok []) (λ t, "new") sample_transform (λ _, "digest")
      (λ s, s) (λ s, s) (λ s, s) Ok py_str "~" sample_types sample_names (Some "N") (λ _, "/data/N")
      (sample_ledger "/data/N") = (r, w') ∧ r = Ok false ∧ w' "/data/N/pool_transactions" = Some {["1" := "{}"]} ∧
      w' "/data/N/pool_transactions_new" = Some {["1" := "new"]}.
Proof.
  destruct (migrate_all (Stores0 := fun_stores (refuses "rmtree")) (bytes := val) (λ _, Ok []) (λ t, "new") sample_transform (λ _, "digest")
      (λ s, s) (λ s, s) (λ s, s) Ok py_str "~" sample_types sample_names (Some "N") (λ _, "/data/N")
      (sample_ledger "/data/N")) as [r w'] eqn:E.
  pose proof (@migration_keeps_ledgers _ (fun_stores (refuses "rmtree")) (fun_store_laws _) val _ (λ _, Ok []) (λ t, "new") sample_transform
    (λ _, "digest") (λ s, s) (λ s, s) (λ s, s) Ok py_str "~" sample_types sample_names "N" (λ _, "/data/N")
    (sample_ledger "/data/N") r w') as K.
  cbv zeta in K. specialize (K ltac:(vm_compute; reflexivity)).
  assert (∀ t, t ∈ ledger_types → is_Some (sample_ledger "/data/N" (path_join "/data/N" (log_name t)))) as Hall.
  { intros t [i Hi]%list_elem_of_lookup_1; destruct i as [|[|[|i]]]; [..|discriminate]; injection Hi as <-; by eexists. }
  destruct (K Hall E "pool" (list_elem_of_here _ _)) as [_ _].
  exists r, w'. split; [reflexivity|].
  rewrite <-(f_equal fst E : _ = r), <-(f_equal snd E : _ = w'). vm_compute. repeat split; reflexivity.
Defined.

Lemma rocksdb_copy_is_complete_witness :
  db_at (Stores := fun_stores (refuses "put")) (migrate_to_rocksdb (Stores0 := fun_stores (refuses "put")) (Some "N") (λ _, "/data/N") "/data"
    (sample_ledger "/data/N")).2 "/data/N/attr_db" = Some {["1" := "{}"]}.
Proof.
  refine (eq_trans (proj1 (@rocksdb_copy_is_complete _ (fun_stores (refuses "put")) (fun_store_laws _) "N" (λ _, "/data/N") "/data"
    (sample_ledger "/data/N") "attr_db" _ _ _ _ _ _ _ _ _)) _); try reflexivity.
  - intros q Hq. unfold db_at, fun_stores, sample_ledger.
    destruct (existsb (λ n, str_eqb q (path_join "/data/N" n)) storage_names) eqn:E; [exfalso|reflexivity].
    apply existsb_exists in E as (n & Hn & ->%str_eqb_eq). apply list_elem_of_In in Hn.
    rewrite under_apart in Hq; try reflexivity; [discriminate|exact Hn].
  - intros n Hn. exists {["1" := "{}"]}. unfold db_at, fun_stores, sample_ledger.
    replace (existsb _ _) with true; [reflexivity|]. symmetry. apply existsb_exists. exists n.
    split; [by apply list_elem_of_In|apply str_eqb_refl].
  - apply (list_elem_of_lookup_2 _ 3). reflexivity.
Defined.

(** When the new ledger cannot take its place, it is removed too; the old one is gone by
    then, and the archive may be missing. *)
Definition failed_move : res bool * (string → option DB) :=
  migrate_to_rocksdb (Stores0 := fun_stores (λ name, str_eqb name "move" || str_eqb name "tar")) (Some "N")
    (λ _, "/data/N") "/data" (sample_ledger "/data/N").

Lemma rocksdb_move_failure_loses_ledger :
  failed_move.1 = Ok false ∧
  Forall (λ n, is_Some (sample_ledger "/data/N" (path_join "/data/N" n)) ∧
               failed_move.2 (path_join "/data/N" n) = None ∧ failed_move.2 (path_join "/data/N_rocksdb" n) = None)
    storage_names.
Proof.
  split; [vm_compute; reflexivity|].
  repeat (apply Forall_cons; split; [split; [by eexists|split; vm_compute; reflexivity]|]). apply Forall_nil_2.
Qed.
