(* ===== verification/Restarter.v ===== *)
(** * The restarter and the action requests

    [indy_node/server/restarter.py] with [restart_log.py] and what it inherits from
    [node_maintainer.py], and the handlers of the two requests that are answered
    without being ordered: [pool_restart_handler.py] and
    [validator_info_handler.py] of [action_req_handlers].

    A POOL_RESTART request restarts the node at once, schedules a restart or
    cancels the one that is scheduled.  A datetime is a time in microseconds and
    whether it has a time zone; comparing one that has with one that has none
    raises.  Parsing of dates, the action queue and the control tool are
    parameters, as in [Upgrader].  A request is an act on the restarter: a schedule
    that was cancelled before an exception stays cancelled.  The two readings of the
    clock in one request are one. *)
From S2P Require Import Prelude PyValue Plenum Constants AuthActions AuthConstraints Authorizer AuthorizerSpec AuthStrategy AuthMap StateDomain IdrCache HandlerBase Upgrader PoolUpgrade World.

Definition DATETIME : string := "datetime".
Definition REQ_ID : string := "reqId".

Record Datetime := mkDatetime { dt_time : Z; dt_aware : bool }.

(** [RestartLogData.when]; only aware times are ever scheduled. *)
Inductive RTask :=
| CallRestartAgent (when : Z) (failTimeout : val)
| RestartTimeout (when : Z).

(** Messages to the control tool that nothing waits for, and calls of the
    callback given to the restarter. *)
Inductive REffect := RestartNow | RestartStartCallback.

Section Restarter.
Context {Q : Type} `{!ActionQueue Q RTask} (parse_date : string → res Datetime).

Record RState := mkRState {
  r_scheduled : option Z;
  r_log : list (ActionLogEvent Z);
  r_queue : Q;
  r_sends : list (Z * val);
  r_effects : list REffect
}.
Implicit Types s : RState.

Definition r_append (now : Z) (ev : ActionLogEvents) (when : Z) s : RState :=
  mkRState (r_scheduled s) (log_append now ev when (r_log s)) (r_queue s) (r_sends s) (r_effects s).

Definition r_emit (e : REffect) s : RState :=
  mkRState (r_scheduled s) (r_log s) (r_queue s) (r_sends s) (r_effects s ++ [e]).

(** ** Start-up *)

(** [_is_action_started] *)
Definition restart_started s : bool :=
  match last_event (r_log s) with
  | Some e => bool_decide (ev_type e = started)
  | None => false
  end.

(** [_update_action_log_for_started_action]: the node runs again, so the restart
    succeeded. *)
Definition update_log_for_started (now : Z) s : RState :=
  match last_event (r_log s) with
  | Some e => r_append now succeeded (data e) s
  | None => s
  end.

Definition new_Restarter (now : Z) (log : list (ActionLogEvent Z)) (q : Q) : RState :=
  let s := mkRState None log q [] [] in
  if restart_started s then update_log_for_started now s else s.

(** ** Scheduling *)

(** [_unscheduleAction] *)
Definition r_unschedule s : RState :=
  mkRState None (r_log s) (aq_reset (r_queue s)) (r_sends s) (r_effects s).

(** [_cancelScheduledRestart] *)
Definition cancelScheduledRestart (now : Z) s : RState :=
  match r_scheduled s with
  | None => s
  | Some when => r_append now cancelled when (r_unschedule s)
  end.

(** [_scheduleRestart] *)
Definition scheduleRestart (now when : Z) (failTimeout : val) s : RState :=
  let s := r_append now scheduled when s in
  let delay := if Z.ltb now when then (when - now)%Z else 0%Z in
  mkRState (Some when) (r_log s) (aq_schedule (r_queue s) (CallRestartAgent when failTimeout) delay)
    (r_sends s) (r_effects s).

(** [requestRestart]: [now >= when] compares an aware time with [when]. *)
Definition requestRestart (now : Z) (when : option Datetime) (fail_timeout : val) : act RState unit :=
  λ s,
  if match r_scheduled s, when with
     | Some w, Some d => dt_aware d && Z.eqb w (dt_time d)
     | _, _ => false
     end
  then ret tt s else
  (let? _ := modify (cancelScheduledRestart now) in
   match when with
   | None => modify (r_emit RestartNow)
   | Some d =>
       if negb (dt_aware d)
       then raise (TypeError "can't compare offset-naive and offset-aware datetimes")
       else if Z.leb (dt_time d) now then modify (r_emit RestartNow)
       else modify (scheduleRestart now (dt_time d)
              (if is_none fail_timeout then defaultActionTimeout else fail_timeout))
   end) s.

(** The time a request asks for: none for a restart at once. *)
Definition requested_time (op : dict val) : res (option Datetime) :=
  match dget DATETIME op with
  | None => Ok None
  | Some VNone => Ok None
  | Some (VStr t) => if str_eqb t "0" || str_eqb t "" then Ok None
                     else let! d := parse_date t in Ok (Some d)
  | Some _ => Raise (TypeError "Parser must be a string or character stream")
  end.

(** [handleRestartRequest] *)
Definition handleRestartRequest (now : Z) (req : Request) : act RState unit :=
  let txn := operation req in
  let? t := lift (dgetitem TXN_TYPE txn) in
  if negb (py_eq t (VStr POOL_RESTART)) then ret tt else
  let? action := lift (dgetitem ACTION txn) in
  if py_eq action (VStr START) then
    let? when := lift (requested_time txn) in
    requestRestart now when (get_default TIMEOUT defaultActionTimeout txn)
  else if py_eq action (VStr CANCEL) then
    λ s, match r_scheduled s with Some _ => modify (cancelScheduledRestart now) s | None => ret tt s end
  else ret tt.

(** ** The restart itself *)

(** [_callRestartAgent] *)
Definition callRestartAgent (now when : Z) (failTimeout : val) s : RState :=
  let s := r_emit RestartStartCallback (r_append now started when s) in
  mkRState None (r_log s) (r_queue s) (r_sends s ++ [(when, failTimeout)]) (r_effects s).

(** [_action_failed] takes its arguments by keyword only, and is called with a
    positional one. *)
Definition r_action_failed {A} : res A :=
  Raise (TypeError "_action_failed() takes 1 positional argument but 2 were given").

(** [_sendUpdateRequest] *)
Definition sendUpdateRequest (attempt : nat → bool) (when : Z) (failTimeout : val) s : res RState :=
  if send_attempts attempt 0 retry_limit then
    let! delay := get_timeout failTimeout in
    Ok (mkRState (r_scheduled s) (r_log s) (aq_schedule (r_queue s) (RestartTimeout when) (delay * 1000000))
          (r_sends s) (r_effects s))
  else r_action_failed.

(** [_declareTimeoutExceeded] *)
Definition r_declareTimeoutExceeded (when : Z) s : res RState :=
  if match last_event (r_log s) with
     | Some e => bool_decide (ev_type e = failed) && Z.eqb (data e) when
     | None => false
     end
  then Ok s else r_action_failed.

(** ** The handlers *)

(** [generate_action_result] of [utils.py] *)
Definition generate_action_result (request : Request) : dict val :=
  dupdate (operation request)
    [(IDENTIFIER, opt_str (identifier request)); (REQ_ID, opt_int (reqId request))].

Definition pool_restart_static_validation (request : Request) : res unit :=
  validate_request_type POOL_RESTART request.

Definition pool_restart_process_action (now : Z) (request : Request) : act RState (dict val) :=
  let? _ := lift (validate_request_type POOL_RESTART request) in
  let? _ := handleRestartRequest now request in
  ret (generate_action_result request).
End Restarter.

Section ActionHandlers.
Context {bytes CSt root S : Type} `{!Serializer bytes, !State bytes CSt}.
Context `{!OptimisticStore S root} {RL : Rlp} (str_request : Request → string).
Notation Validator := (WriteRequestValidator (St := CSt)).

Definition pool_restart_dynamic_validation (c : S) (v : Validator) (request : Request) : res Validator :=
  let! _ := validate_request_type POOL_RESTART request in
  validate_action str_request c v request
    (AuthActionAdd POOL_RESTART (VStr ACTION) (vget ACTION (operation request)) true).

Definition validator_info_dynamic_validation (c : S) (v : Validator) (request : Request) : res Validator :=
  let! _ := validate_request_type VALIDATOR_INFO request in
  validate_action str_request c v request (AuthActionAdd VALIDATOR_INFO star star true).

(** [info], [_generate_software_info()], [extractions] and [node_disk_size] are
    those of plenum's info tool. *)
Definition validator_info_process_action (info software extractions disk : dict val) (request : Request)
    : res (dict val) :=
  let! _ := validate_request_type VALIDATOR_INFO request in
  let data := dupdate (dupdate (dupdate (dset "Memory_profiler" (VList []) info) software) extractions) disk in
  Ok (dset DATA (VDict data) (generate_action_result request)).
End ActionHandlers.

(** ** Specification: the log, and the restart that waits *)

Definition is_restart_call (t : RTask) : Prop :=
  match t with CallRestartAgent _ _ => True | RestartTimeout _ => False end.

#[export] Instance is_restart_call_dec t : Decision (is_restart_call t).
Proof. destruct t; simpl; apply _. Defined.

Section Steps.
Context {Q : Type} `{!ActionQueue Q RTask} (parse_date : string → res Datetime).
Notation RState := (RState (Q := Q)).

Definition r_with_queue (q : Q) (s : RState) : RState :=
  mkRState (r_scheduled s) (r_log s) q (r_sends s) (r_effects s).

Definition r_with_sends (l : list (Z * val)) (s : RState) : RState :=
  mkRState (r_scheduled s) (r_log s) (r_queue s) l (r_effects s).

(** The state an operation that may raise leaves. *)
Definition state_of (r : res RState) (s : RState) : RState := match r with Ok s' => s' | Raise _ => s end.

(** What happens to a restarter: requests, whether they raise or not, the callbacks
    of the queue, the answer of the control tool, a start of the node. *)
Inductive r_step : RState → RState → Prop :=
| r_step_request now req s r s' : handleRestartRequest parse_date now req s = (r, s') → r_step s s'
| r_step_call now w f q' l1 l2 s :
    aqStash (r_queue s) = l1 ++ CallRestartAgent w f :: l2 → aqStash q' = l1 ++ l2 →
    r_step s (callRestartAgent now w f (r_with_queue q' s))
| r_step_timeout w q' l1 l2 s :
    (aqStash q' = aqStash (r_queue s) ∨
     aqStash (r_queue s) = l1 ++ RestartTimeout w :: l2 ∧ aqStash q' = l1 ++ l2) →
    r_step s (state_of (r_declareTimeoutExceeded w (r_with_queue q' s)) (r_with_queue q' s))
| r_step_send attempt w f l1 l2 s :
    r_sends s = l1 ++ (w, f) :: l2 →
    r_step s (state_of (sendUpdateRequest attempt w f (r_with_sends (l1 ++ l2) s)) (r_with_sends (l1 ++ l2) s))
| r_step_start now q s : aqStash q = [] → r_step s (new_Restarter now (r_log s) q).

Inductive r_reachable : RState → Prop :=
| r_reach_new now q : aqStash q = [] → r_reachable (new_Restarter now [] q)
| r_reach_step s s' : r_reachable s → r_step s s' → r_reachable s'.

Definition restart_calls (q : Q) : list RTask := filter is_restart_call (aqStash q).

Record RInv (s : RState) : Prop := {
  r_last w : r_scheduled s = Some w →
    ∃ e, last_event (r_log s) = Some e ∧ ev_type e = scheduled ∧ data e = w;
  r_calls : match r_scheduled s with
            | Some w => ∃ f, restart_calls (r_queue s) = [CallRestartAgent w f]
            | None => restart_calls (r_queue s) = []
            end;
  r_legal : legal (r_log s)
}.

Lemma r_idle s : r_scheduled s = None → restart_calls (r_queue s) = [] → legal (r_log s) → RInv s.
Proof. intros Hs Hc Hl. split; rewrite ?Hs; done. Qed.

Lemma r_same s s' :
  r_scheduled s' = r_scheduled s → r_log s' = r_log s →
  restart_calls (r_queue s') = restart_calls (r_queue s) → RInv s → RInv s'.
Proof. intros H1 H2 H3 [Hl Hc Hg]. split; rewrite ?H1, ?H2, ?H3; done. Qed.

Lemma r_reset_calls q : restart_calls (aq_reset q) = [].
Proof. unfold restart_calls. by rewrite aq_reset_empty. Qed.

Lemma r_cancel_inv now s : RInv s → RInv (cancelScheduledRestart now s) ∧
  r_scheduled (cancelScheduledRestart now s) = None.
Proof.
  intros [Hl Hc Hg]. unfold cancelScheduledRestart. destruct (r_scheduled s) as [w|] eqn:E; [|split; [by apply r_idle|done]].
  split; [|done]. apply r_idle; [done|apply r_reset_calls|]. cbn. apply legal_append; [done|].
  destruct (Hl w eq_refl) as (e & ? & ? & ?). by exists e.
Qed.

Lemma r_schedule_inv now w f s :
  RInv s → r_scheduled s = None → (now < w)%Z → RInv (scheduleRestart now w f s).
Proof.
  intros [_ Hc Hg] Hn Hw. rewrite Hn in Hc. unfold scheduleRestart. rewrite (proj2 (Z.ltb_lt _ _) Hw).
  split; simpl.
  - intros w' [= <-]. rewrite last_append. by eexists.
  - exists f. unfold restart_calls in *. rewrite aq_schedule_later, filter_app, Hc by lia. done.
  - by apply legal_append.
Qed.

Lemma r_request_inv now when f s r s' :
  requestRestart now when f s = (r, s') → RInv s → RInv s'.
Proof.
  unfold requestRestart. intros H Hinv.
  destruct (match r_scheduled s, when with Some w, Some d => _ | _, _ => false end);
    [injection H as _ <-; exact Hinv|].
  unfold act_bind, modify in H. destruct (r_cancel_inv now s Hinv) as [Hi Hn].
  destruct when as [d|].
  - destruct (dt_aware d); cbn [negb] in H; [|injection H as _ <-; done].
    destruct (Z.leb_spec (dt_time d) now); injection H as _ <-.
    + by apply (r_same (cancelScheduledRestart now s)).
    + by apply r_schedule_inv.
  - injection H as _ <-. by apply (r_same (cancelScheduledRestart now s)).
Qed.

Lemma r_handle_inv now req s r s' :
  handleRestartRequest parse_date now req s = (r, s') → RInv s → RInv s'.
Proof.
  intros H Hinv. unfold handleRestartRequest, act_bind, lift in H.
  destruct (dgetitem TXN_TYPE (operation req)); [|injection H as _ <-; done].
  destruct (negb _); [injection H as _ <-; done|].
  destruct (dgetitem ACTION (operation req)) as [a0|]; [|injection H as _ <-; done].
  destruct (py_eq a0 (VStr START)).
  - destruct (requested_time parse_date (operation req)); [by eapply r_request_inv|injection H as _ <-; done].
  - destruct (py_eq a0 (VStr CANCEL)); [|injection H as _ <-; done].
    destruct (r_scheduled s); injection H as _ <-; [by apply r_cancel_inv|done].
Qed.

Lemma r_new_inv now log q : aqStash q = [] → legal log → RInv (new_Restarter now log q).
Proof.
  intros Hq Hl. unfold new_Restarter, restart_started, update_log_for_started. cbn [r_log].
  assert (restart_calls q = []) as Hc by (unfold restart_calls; by rewrite Hq).
  destruct (last_event log) as [e|] eqn:E; [|by apply r_idle].
  case_bool_decide; [|by apply r_idle]. apply r_idle; [done..|]. cbn. apply legal_append; [done|]. by exists e.
Qed.

Lemma r_call_inv now w f q' l1 l2 s :
  aqStash (r_queue s) = l1 ++ CallRestartAgent w f :: l2 → aqStash q' = l1 ++ l2 →
  RInv s → r_scheduled s = Some w ∧ RInv (callRestartAgent now w f (r_with_queue q' s)).
Proof.
  intros Hq Hq' [Hl Hc Hg]. unfold restart_calls in Hc. rewrite Hq in Hc.
  change (CallRestartAgent w f :: l2) with ([CallRestartAgent w f] ++ l2) in Hc.
  rewrite !filter_app in Hc. simpl in Hc.
  destruct (r_scheduled s) as [w'|] eqn:E; [|by destruct (filter is_restart_call l1)].
  destruct Hc as [f' Hc].
  assert (filter is_restart_call l1 = [] ∧ filter is_restart_call l2 = [] ∧ w = w') as (H1 & H2 & <-).
  { destruct (filter is_restart_call l1) as [|x [|y l]]; simpl in Hc; simplify_eq; done. }
  split; [done|]. apply r_idle; [done| |].
  - cbn. unfold restart_calls. by rewrite Hq', filter_app, H1, H2.
  - cbn. apply legal_append; [done|]. destruct (Hl w eq_refl) as (e & ? & ? & ?). by exists e.
Qed.

Lemma r_step_inv s s' : r_step s s' → RInv s → RInv s'.
Proof.
  intros H Hinv. destruct H as [now req s r s' H|now w f q' l1 l2 s Hq Hq'|w q' l1 l2 s Hq|attempt w f l1 l2 s Hs
    |now q s Hq].
  - by eapply r_handle_inv.
  - by eapply r_call_inv.
  - assert (RInv (r_with_queue q' s)) as Hi.
    { apply (r_same s); try done. cbn. unfold restart_calls.
      destruct Hq as [->|[-> ->]]; [done|]. by rewrite !filter_app. }
    unfold r_declareTimeoutExceeded.
    match goal with |- context [if ?b then _ else _] => destruct b end; done.
  - assert (RInv (r_with_sends (l1 ++ l2) s)) as Hi by (by apply (r_same s)).
    unfold sendUpdateRequest. destruct (send_attempts attempt 0 retry_limit); [|done].
    destruct (get_timeout f) as [delay|]; [|done]. cbn [res_bind state_of].
    apply (r_same s); try done. cbn. unfold restart_calls. destruct (Z.lt_ge_cases 0 (delay * 1000000)).
    + rewrite aq_schedule_later, filter_app by done. cbn. by rewrite app_nil_r.
    + by rewrite aq_schedule_now.
  - apply r_new_inv; [done|apply Hinv].
Qed.

Lemma r_reachable_inv s : r_reachable s → RInv s.
Proof. induction 1 as [now q Hq|s s' _ IH H]; [by apply r_new_inv|by eapply r_step_inv]. Qed.
End Steps.

(** ** Properties *)

(** C25. A restart that was announced is neither lost nor doubled: after any
    sequence of requests (also ones that raise), callbacks, answers of the control tool
    and node starts, the queue holds exactly one restart callback when a restart is
    scheduled, for the time announced last in the log, and none when nothing
    is scheduled; running that callback starts the restart of that time and hands it to the
    control tool; the log stays in the legal order. *)
Theorem scheduled_restart_waits {Q} `{!ActionQueue Q RTask} parse_date (s : RState (Q := Q)) :
  r_reachable parse_date s →
  legal (r_log s) ∧
  match r_scheduled s with
  | None => restart_calls (r_queue s) = []
  | Some w =>
      ∃ f e l1 l2, restart_calls (r_queue s) = [CallRestartAgent w f] ∧
        last_event (r_log s) = Some e ∧ ev_type e = scheduled ∧ data e = w ∧
        aqStash (r_queue s) = l1 ++ CallRestartAgent w f :: l2 ∧
        ∀ now q', aqStash q' = l1 ++ l2 →
          ∃ s', r_step parse_date s s' ∧ r_log s' = log_append now started w (r_log s) ∧
            r_sends s' = r_sends s ++ [(w, f)] ∧ r_scheduled s' = None ∧ restart_calls (r_queue s') = []
  end.
Proof.
  intros Hr. pose proof (r_reachable_inv parse_date s Hr) as Hi. pose proof Hi as [Hl Hc Hg]. split; [done|].
  destruct (r_scheduled s) as [w|] eqn:E; [|done]. destruct Hc as [f Hc].
  destruct (Hl w eq_refl) as (e & He & Hty & Hd).
  assert (CallRestartAgent w f ∈ aqStash (r_queue s)) as Hin.
  { assert (CallRestartAgent w f ∈ restart_calls (r_queue s)) as H by (rewrite Hc; by left).
    unfold restart_calls in H. by apply list_elem_of_filter in H as [_ ?]. }
  apply list_elem_of_split in Hin as (l1 & l2 & Hq).
  exists f, e, l1, l2. do 5 (split; [done|]). intros now q' Hq'.
  exists (callRestartAgent now w f (r_with_queue q' s)).
  split; [by eapply r_step_call|]. split; [done|]. split; [done|]. split; [done|].
  destruct (r_call_inv now w f q' l1 l2 s Hq Hq' Hi) as [_ [_ Hc' _]]. exact Hc'.
Qed.

Definition restart_request (action time : string) : Request :=
  mkRequest (Some "T") (Some 1%Z)
    [(TXN_TYPE, VStr POOL_RESTART); (ACTION, VStr action); (DATETIME, VStr time)] (Some "s") None None.

Definition clock_times (t : string) : res Datetime :=
  let! z := py_int t in Ok (mkDatetime z true).

Definition restart_scheduled : RState (Q := list RTask) :=
  (handleRestartRequest clock_times 10 (restart_request START "50") (new_Restarter 5 [] [])).2.

Lemma scheduled_restart_waits_witness :
  legal (r_log restart_scheduled) ∧ r_scheduled restart_scheduled = Some 50%Z ∧
  match r_scheduled restart_scheduled with
  | None => restart_calls (r_queue restart_scheduled) = []
  | Some w => ∃ f, restart_calls (r_queue restart_scheduled) = [CallRestartAgent w f]
  end.
Proof.
  destruct (scheduled_restart_waits clock_times restart_scheduled) as [H1 H2].
  - apply (r_reach_step _ (new_Restarter 5 [] [])); [by apply r_reach_new|].
    apply (r_step_request _ 10 (restart_request START "50") _ (Ok tt)). vm_compute. reflexivity.
  - split; [exact H1|]. split; [vm_compute; reflexivity|].
    change (r_scheduled restart_scheduled) with (Some 50%Z) in H2 |- *.
    destruct H2 as (f & e & l1 & l2 & H2 & _). by exists f.
Defined.

(** Only a trustee restarts the pool: under the default rules a POOL_RESTART
    request that passes the validation was signed by its author as a trustee, and
    what is then done to the restarter is answered with the request's own
    operation, author and number. *)
Theorem restart_needs_trustee {bytes CSt root S Q} `{!Serializer bytes, !State bytes CSt,
    !OptimisticStore S root} {RL : Rlp} `{!ActionQueue Q RTask} str_request parse_date
    (c : S) (cs : CSt) metrics r author v' now (s : RState (Q := Q)) result s' :
  cache_wf c → identifier r = Some author →
  action_clean (AuthActionAdd POOL_RESTART (VStr ACTION) (vget ACTION (operation r)) true) = true →
  pool_restart_dynamic_validation str_request c (default_validator cs metrics) r = Ok v' →
  pool_restart_process_action parse_date now r s = (Ok result, s') →
  signed_with_role (λ i, getRole c i false) r author (Some TRUSTEE) ∧
  dget IDENTIFIER result = Some (VStr author) ∧ dget REQ_ID result = Some (opt_int (reqId r)) ∧
  ∀ k, k ≠ IDENTIFIER → k ≠ REQ_ID → dget k result = dget k (operation r).
Proof.
  intros Hwf Hid Hcl H Hp. unfold pool_restart_dynamic_validation in H. bind H as u _.
  destruct (validate_action_default str_request c cs metrics r _ v' Hcl H) as [_ [res Hres]].
  pose proof (getRole_cache c Hwf) as HRC. split.
  - destruct (validate_default_passes (λ i, getRole c i false) str_request (λ am k,
      negb (str_eqb (ad_txn_type am) POOL_RESTART) || is_one_trustee k) cs metrics r author _ [] res
      ltac:(vm_compute; reflexivity) Hid Hcl Hres) as (am & k & Hm & HP & Hs).
    apply def_matches_true in Hm as (_ & Hm & _). rewrite <- Hm in HP. cbn [negb orb] in HP.
    exact (is_one_trustee_signed _ _ _ _ _ HP Hs).
  - unfold pool_restart_process_action in Hp. apply act_bind_Ok in Hp as (u1 & s1 & _ & Hp).
    apply act_bind_Ok in Hp as (u2 & s2 & _ & Hp). injection Hp as <- _.
    unfold generate_action_result, dupdate. cbn [foldl fst snd]. rewrite Hid. cbn [opt_str].
    split; [by rewrite dget_dset_ne, dget_dset_eq by done|]. split; [by rewrite dget_dset_eq|].
    intros k H1 H2. by rewrite !dget_dset_ne by congruence.
Qed.

Lemma restart_needs_trustee_witness :
  signed_with_role (λ i, getRole trustee_cache i false) (restart_request START "50") "T" (Some TRUSTEE) ∧
  dget IDENTIFIER (generate_action_result (restart_request START "50")) = Some (VStr "T") ∧
  dget REQ_ID (generate_action_result (restart_request START "50")) = Some (VInt 1) ∧
  ∀ k, k ≠ IDENTIFIER → k ≠ REQ_ID →
    dget k (generate_action_result (restart_request START "50")) = dget k (operation (restart_request START "50")).
Proof.
  assert (∃ v', pool_restart_dynamic_validation (λ _, "") trustee_cache
    (default_validator (∅ : gmap string val) false) (restart_request START "50") = Ok v') as [v' H]
    by (eexists; vm_compute; reflexivity).
  refine (restart_needs_trustee (λ _, "") clock_times trustee_cache (∅ : gmap string val) false
    (restart_request START "50") "T" v' 10 (new_Restarter (Q := list RTask) 5 [] []) _ restart_scheduled
    _ eq_refl eq_refl H _).
  - apply (set_wf empty_store "T" (Some 1%Z) None None (Some TRUSTEE) (Some "kT") false);
      [exact empty_store_wf|discriminate|reflexivity].
  - vm_compute. reflexivity.
Defined.

(** A restart that fails is not reported: the report raises, the schedule is not
    cleared and the callback for failures is not called. *)
Theorem restart_failure_raises {Q} `{!ActionQueue Q RTask} attempt w f (s : RState (Q := Q)) :
  send_attempts attempt 0 retry_limit = false →
  sendUpdateRequest attempt w f s =
    Raise (TypeError "_action_failed() takes 1 positional argument but 2 were given").
Proof. intros H. unfold sendUpdateRequest. by rewrite H. Qed.

Lemma restart_failure_raises_witness :
  sendUpdateRequest (λ _, false) 50 (VInt 10) restart_scheduled =
    Raise (TypeError "_action_failed() takes 1 positional argument but 2 were given").
Proof. apply restart_failure_raises. reflexivity. Defined.
