(* ===== verification/ActionLog.v ===== *)
(** * The log files

    [indy_node/server/action_log.py] with [upgrade_log.py] and [restart_log.py]: each
    event of the upgrader or the restarter is a row of a tab-separated file that is
    read back when the node starts.

    The CSV writer and reader of the standard library are modelled for the dialect
    the code uses (minimal quoting with double quotes, rows ended by CR LF).
    Printing and parsing of times (dateutil) and of versions (plenum) are
    parameters. *)
From Stdlib Require Import Ascii.
From S2P Require Import Prelude PyValue Plenum Constants StateDomain IdrCache HandlerBase Upgrader PoolUpgrade World Versions.

Definition tab : ascii := "009".
Definition cr : ascii := "013".
Definition lf : ascii := "010".
Definition crlf : string := String cr (String lf "").

(** ** [csv.writer(...).writerow] *)

Definition is_special (c : ascii) : bool :=
  bool_decide (c = tab) || bool_decide (c = dquote) || bool_decide (c = cr) || bool_decide (c = lf).

Fixpoint has_special (s : string) : bool :=
  match s with "" => false | String c s' => is_special c || has_special s' end.

(** Quotes are doubled. *)
Fixpoint double_quotes (s : string) : string :=
  match s with
  | "" => ""
  | String c s' => if bool_decide (c = dquote) then String c (String c (double_quotes s'))
                   else String c (double_quotes s')
  end.

Definition csv_field (f : string) : string :=
  if has_special f then String dquote (double_quotes f +:+ String dquote "") else f.

(** A row of one empty field is quoted. *)
Definition writerow (row : list string) : string :=
  match row with
  | [""] => String dquote (String dquote crlf)
  | _ => py_join (String tab "") (map csv_field row) +:+ crlf
  end.

(** ** [csv.reader([row])] *)

Inductive reader_state := StartRecord | StartField | InField | InQuoted | QuoteInQuoted | EatNewline.

Definition is_newline (c : ascii) : bool := bool_decide (c = cr) || bool_decide (c = lf).

Fixpoint csv_go (st : reader_state) (field : string) (fields : list string) (s : string)
    : res (list string) :=
  match s with
  | "" =>
      match st with
      | StartRecord | EatNewline => Ok fields
      | StartField => Ok (fields ++ [""])
      | InField | InQuoted | QuoteInQuoted => Ok (fields ++ [field])
      end
  | String c s' =>
      match st with
      | StartRecord | StartField =>
          if is_newline c
          then csv_go EatNewline "" (match st with StartField => fields ++ [""] | _ => fields end) s'
          else if bool_decide (c = dquote) then csv_go InQuoted "" fields s'
          else if bool_decide (c = tab) then csv_go StartField "" (fields ++ [""]) s'
          else csv_go InField (String c "") fields s'
      | InField =>
          if is_newline c then csv_go EatNewline "" (fields ++ [field]) s'
          else if bool_decide (c = tab) then csv_go StartField "" (fields ++ [field]) s'
          else csv_go InField (field +:+ String c "") fields s'
      | InQuoted =>
          if bool_decide (c = dquote) then csv_go QuoteInQuoted field fields s'
          else csv_go InQuoted (field +:+ String c "") fields s'
      | QuoteInQuoted =>
          if bool_decide (c = dquote) then csv_go InQuoted (field +:+ String c "") fields s'
          else if bool_decide (c = tab) then csv_go StartField "" (fields ++ [field]) s'
          else if is_newline c then csv_go EatNewline "" (fields ++ [field]) s'
          else csv_go InField (field +:+ String c "") fields s'
      | EatNewline =>
          if is_newline c then csv_go EatNewline "" fields s'
          else Raise (PyException "new-line character seen in unquoted field")
      end
  end.

Definition csv_read (row : string) : res (list string) := csv_go StartRecord "" [] row.

(** ** Lines of a file opened with [newline='']: the ends are kept *)

Fixpoint file_lines (acc s : string) : list string :=
  match s with
  | "" => if str_truth acc then [acc] else []
  | String c s' =>
      if bool_decide (c = lf) then (acc +:+ String c "") :: file_lines "" s'
      else if bool_decide (c = cr) then
        match s' with
        | String d s'' =>
            if bool_decide (d = lf) then (acc +:+ String c (String d "")) :: file_lines "" s''
            else (acc +:+ String c "") :: file_lines "" s'
        | "" => [acc +:+ String c ""]
        end
      else file_lines (acc +:+ String c "") s'
  end.

(** ** Events *)

(** The names of [ActionLogEvents]. *)
Definition event_names : dict ActionLogEvents :=
  [("scheduled", scheduled); ("started", started); ("succeeded", succeeded); ("failed", failed);
   ("cancelled", cancelled)].

Definition event_name (e : ActionLogEvents) : string :=
  match e with
  | scheduled => "scheduled"
  | started => "started"
  | succeeded => "succeeded"
  | failed => "failed"
  | cancelled => "cancelled"
  end.

(** A class of event data: [_items] as texts, and the constructor from texts. *)
Class LogData (D : Type) := {
  data_items : D → list string;
  data_class : list string → res D
}.

Section Events.
Context {D : Type} `{!LogData D} (show_time : Z → string) (parse_dt : string → res Z).

(** [ActionLogEvent.pack] *)
Definition pack (e : ActionLogEvent D) : string :=
  writerow ([show_time (ts e); event_name (ev_type e)] ++ data_items (data e)).

(** [ActionLogEvent.__init__] of the fields of a row; [now] is the clock. *)
Definition new_ActionLogEvent (now : Z) (fields : list string) : res (ActionLogEvent D) :=
  match fields with
  | t :: ev :: d =>
      match d with
      | [] => Raise (TypeError "missing required positional argument")
      | _ =>
          let! time := if str_truth t then parse_dt t else Ok now in
          let! ev := match dget ev event_names with
                     | Some e => Ok e
                     | None => Raise (ValueError ("Unknown event " +:+ ev))
                     end in
          let! d := data_class d in
          Ok (mkEvent D time ev d)
      end
  | _ => Raise (TypeError "missing required positional argument")
  end.

(** [ActionLogEvent.unpack] *)
Definition unpack (now : Z) (row : string) : res (ActionLogEvent D) :=
  let! fields := csv_read row in new_ActionLogEvent now fields.

(** [ActionLog._load] of the text of the file, [None] when there is none. *)
Definition load (now : Z) (file : option string) : res (list (ActionLogEvent D)) :=
  match file with
  | None => Ok []
  | Some text => res_mapM (unpack now) (file_lines "" text)
  end.

(** [ActionLog._append]: the row at the end of the file, the event at the end of
    the list. *)
Definition append_event (now : Z) (ev : ActionLogEvents) (d : D)
    (log : option string * list (ActionLogEvent D)) : option string * list (ActionLogEvent D) :=
  let event := mkEvent D now ev d in
  (Some (match log.1 with Some t => t | None => "" end +:+ pack event), log.2 ++ [event]).
End Events.

(** ** Event data *)

(** [RestartLogData]: the time. *)
Definition restart_data (show_time : Z → string) (parse_dt : string → res Z) : LogData Z := {|
  data_items w := [show_time w];
  data_class fields := match fields with
                       | [w] => parse_dt w
                       | _ => Raise (TypeError "takes 2 positional arguments")
                       end
|}.

(** [UpgradeLogData]: time, version, identifier and package, the last one being
    optional; the class of the version depends on the package. *)
Definition upgrade_data {Ver} (show_time : Z → string) (parse_dt : string → res Z)
    (show_version : Ver → string) (version_of : version_cls → string → res Ver)
    : LogData (UpgradeLogData Ver) := {|
  data_items d := [show_time (when d); show_version (version d); upgrade_id d; py_str (pkg_name d)];
  data_class fields :=
    let make w v i p :=
      let! w := parse_dt w in
      let! v := version_of (src_version_cls p) v in
      Ok (mkUpgradeLogData Ver w v i (VStr p)) in
    match fields with
    | [w; v; i] => make w v i APP_NAME
    | [w; v; i; p] => make w v i p
    | _ => Raise (TypeError "takes from 4 to 5 positional arguments")
    end
|}.

(** ** Lemmas *)

(** No CR and no LF. *)
Fixpoint one_line (s : string) : bool :=
  match s with "" => true | String c s' => negb (is_newline c) && one_line s' end.

Lemma read_quoted f acc fields rest c :
  c ≠ dquote →
  csv_go InQuoted acc fields (double_quotes f +:+ String dquote (String c rest)) =
  csv_go QuoteInQuoted (acc +:+ f) fields (String c rest).
Proof.
  intros Hc. revert acc. induction f as [|d f IH]; intros acc; cbn [double_quotes].
  - rewrite str_app_nil_r. change ("" +:+ String dquote (String c rest)) with (String dquote (String c rest)).
    cbn [csv_go]. by rewrite bool_decide_eq_true_2.
  - case_bool_decide as E.
    + subst d. change (String dquote (String dquote (double_quotes f)) +:+ String dquote (String c rest))
        with (String dquote (String dquote (double_quotes f +:+ String dquote (String c rest)))).
      cbn [csv_go]. rewrite !bool_decide_eq_true_2 by done. rewrite IH, str_app_assoc. done.
    + change (String d (double_quotes f) +:+ String dquote (String c rest))
        with (String d (double_quotes f +:+ String dquote (String c rest))).
      cbn [csv_go]. rewrite bool_decide_eq_false_2 by done. rewrite IH, str_app_assoc. done.
Qed.

Lemma read_plain f acc fields rest c :
  has_special f = false → c = tab ∨ is_newline c = true →
  csv_go InField acc fields (f +:+ String c rest) = csv_go InField (acc +:+ f) fields (String c rest).
Proof.
  intros Hf Hc. revert acc Hf. induction f as [|d f IH]; intros acc Hf; [by rewrite str_app_nil_r|].
  cbn [has_special] in Hf. unfold is_special in Hf. rewrite !orb_false_iff in Hf.
  destruct Hf as [[[[H1 H2] H3] H4] Hf].
  change (String d f +:+ String c rest) with (String d (f +:+ String c rest)). cbn [csv_go].
  unfold is_newline. rewrite H3, H4, H1. cbn [orb]. rewrite IH by done. by rewrite str_app_assoc.
Qed.

(** What follows a field ends it. *)
Lemma read_field f fields rest :
  csv_go StartField "" fields (csv_field f +:+ String tab rest) = csv_go StartField "" (fields ++ [f]) rest.
Proof.
  unfold csv_field. destruct (has_special f) eqn:E.
  - change (String dquote (double_quotes f +:+ String dquote "") +:+ String tab rest)
      with (String dquote ((double_quotes f +:+ String dquote "") +:+ String tab rest)).
    cbn [csv_go]. change (is_newline dquote) with false. rewrite bool_decide_eq_true_2 by done.
    rewrite str_app_assoc. change (String dquote "" +:+ String tab rest) with (String dquote (String tab rest)).
    rewrite read_quoted by done. done.
  - destruct f as [|d f]; [done|]. cbn [has_special] in E. unfold is_special in E.
    rewrite !orb_false_iff in E. destruct E as [[[[H1 H2] H3] H4] Hf].
    change (String d f +:+ String tab rest) with (String d (f +:+ String tab rest)). cbn [csv_go].
    unfold is_newline. rewrite H3, H4, H2, H1. cbn [orb]. rewrite read_plain by eauto. done.
Qed.

Lemma read_last f fields : csv_go StartField "" fields (csv_field f +:+ crlf) = Ok (fields ++ [f]).
Proof.
  unfold csv_field. destruct (has_special f) eqn:E.
  - change (String dquote (double_quotes f +:+ String dquote "") +:+ crlf)
      with (String dquote ((double_quotes f +:+ String dquote "") +:+ crlf)).
    cbn [csv_go]. change (is_newline dquote) with false. rewrite bool_decide_eq_true_2 by done.
    rewrite str_app_assoc. change (String dquote "" +:+ crlf) with (String dquote (String cr (String lf ""))).
    rewrite read_quoted by done. done.
  - destruct f as [|d f]; [done|]. cbn [has_special] in E. unfold is_special in E.
    rewrite !orb_false_iff in E. destruct E as [[[[H1 H2] H3] H4] Hf].
    change (String d f +:+ crlf) with (String d (f +:+ String cr (String lf ""))). cbn [csv_go].
    unfold is_newline at 1. rewrite H3, H4, H2, H1. cbn [orb]. rewrite read_plain by eauto. done.
Qed.

Lemma read_row init last fields :
  csv_go StartField "" fields (py_join (String tab "") (map csv_field (init ++ [last])) +:+ crlf) =
  Ok (fields ++ init ++ [last]).
Proof.
  revert fields. induction init as [|f init IH]; intros fields; [apply read_last|].
  cbn [app map py_join]. destruct (map csv_field (init ++ [last])) as [|g gs] eqn:E;
    [by destruct init|]. rewrite !str_app_assoc.
  change (String tab "" +:+ py_join (String tab "") (g :: gs) +:+ crlf)
    with (String tab (py_join (String tab "") (g :: gs) +:+ crlf)).
  rewrite read_field, IH. by rewrite <- app_assoc.
Qed.

Lemma one_line_app a b : one_line (a +:+ b) = one_line a && one_line b.
Proof.
  induction a as [|c a IH]; [done|]. change (String c a +:+ b) with (String c (a +:+ b)). cbn [one_line].
  by rewrite IH, andb_assoc.
Qed.

Lemma one_line_double f : one_line (double_quotes f) = one_line f.
Proof.
  induction f as [|c f IH]; [done|]. cbn [double_quotes]. case_bool_decide; cbn [one_line]; rewrite IH; [|done].
  by destruct (negb (is_newline c)).
Qed.

Lemma one_line_field f : one_line f = true → one_line (csv_field f) = true.
Proof.
  intros H. unfold csv_field. destruct (has_special f); [|done].
  change (one_line (double_quotes f +:+ String dquote "") = true).
  rewrite one_line_app, one_line_double, H. done.
Qed.

Lemma one_line_join fs :
  Forall (λ f, one_line f = true) fs → one_line (py_join (String tab "") (map csv_field fs)) = true.
Proof.
  induction 1 as [|f fs Hf _ IH]; [done|]. cbn [map py_join].
  destruct (map csv_field fs) as [|g gs]; [by apply one_line_field|].
  rewrite one_line_app, one_line_field by done. exact IH.
Qed.

Lemma file_lines_row r acc rest :
  one_line r = true → file_lines acc (r +:+ crlf +:+ rest) = (acc +:+ r +:+ crlf) :: file_lines "" rest.
Proof.
  revert acc. induction r as [|c r IH]; intros acc H; [done|].
  cbn [one_line] in H. apply andb_true_iff in H as [Hc Hr]. unfold is_newline in Hc.
  rewrite negb_true_iff, orb_false_iff in Hc. destruct Hc as [H1 H2].
  change (String c r +:+ crlf +:+ rest) with (String c (r +:+ crlf +:+ rest)). cbn [file_lines].
  rewrite H1, H2, IH by done. by rewrite str_app_assoc.
Qed.

(** Rows of at least two fields without line breaks are read back. *)
Lemma csv_roundtrip f fs :
  fs ≠ [] → Forall (λ f, one_line f = true) (f :: fs) → csv_read (writerow (f :: fs)) = Ok (f :: fs).
Proof.
  intros Hne Hall. destruct (exists_last Hne) as (init & last & ->).
  assert (∀ l, csv_go StartRecord "" [] (py_join (String tab "") (map csv_field (f :: init ++ [last])) +:+ crlf) = l →
    csv_read (writerow (f :: init ++ [last])) = l) as Hw by (intros l <-; by destruct f, init).
  apply Hw. clear Hw. pose proof (read_row (f :: init) last []) as Hr.
  pose proof (one_line_join _ Hall) as Hone. cbn [app] in Hr. rewrite <- Hr.
  cbn [map py_join] in Hone |- *.
  destruct (map csv_field (init ++ [last])) as [|g gs] eqn:E; [by destruct init|].
  set (row := csv_field f +:+ String tab "" +:+ py_join (String tab "") (g :: gs)) in *.
  destruct row as [|c row'] eqn:Hrow.
  - exfalso. unfold row in Hrow. by destruct (csv_field f).
  - change (String c row' +:+ crlf) with (String c (row' +:+ crlf)). cbn [csv_go].
    cbn [one_line] in Hone. apply andb_true_iff in Hone as [Hc _]. apply negb_true_iff in Hc. by rewrite Hc.
Qed.

Section Roundtrip.
Context {D : Type} `{!LogData D} (show_time : Z → string) (parse_dt : string → res Z).
Context (time_roundtrip : ∀ t, parse_dt (show_time t) = Ok t) (time_shown : ∀ t, show_time t ≠ "").
Context (time_line : ∀ t, one_line (show_time t) = true).

(** Data that survives: its texts have no line breaks and give the data back. *)
Definition storable_data (d : D) : Prop :=
  data_items d ≠ [] ∧ Forall (λ f, one_line f = true) (data_items d) ∧ data_class (data_items d) = Ok d.

Lemma pack_row e :
  storable_data (data e) →
  one_line (py_join (String tab "")
    (map csv_field ([show_time (ts e); event_name (ev_type e)] ++ data_items (data e)))) = true ∧
  pack show_time e = py_join (String tab "")
    (map csv_field ([show_time (ts e); event_name (ev_type e)] ++ data_items (data e))) +:+ crlf.
Proof.
  intros (_ & Hd & _). split; [|unfold pack, writerow; by destruct (show_time (ts e))].
  apply one_line_join. repeat constructor; [done|by destruct (ev_type e)|done].
Qed.

Lemma event_unpack_pack now e : storable_data (data e) → unpack parse_dt now (pack show_time e) = Ok e.
Proof.
  intros Hs. pose proof Hs as (Hne & Hd & Hc). unfold unpack, pack. cbn [app].
  rewrite csv_roundtrip; [|done|].
  - cbn [res_bind new_ActionLogEvent]. destruct (data_items (data e)) as [|x l] eqn:E; [done|].
    replace (str_truth (show_time (ts e))) with true.
    + rewrite time_roundtrip. cbn [res_bind]. destruct e as [t ev d].
      cbn [ev_type ts data] in *. replace (dget (event_name ev) event_names) with (Some ev) by (by destruct ev).
      cbn [res_bind]. by rewrite Hc.
    + symmetry. apply negb_true_iff, str_eqb_neq, time_shown.
  - repeat constructor; [done|by destruct (ev_type e)|done].
Qed.

Lemma load_rows now evs :
  Forall (λ e, storable_data (data e)) evs →
  res_mapM (unpack parse_dt now) (file_lines "" (py_join "" (map (pack show_time) evs))) = Ok evs.
Proof.
  assert (∀ l, py_join "" l = foldr String.append "" l) as Hj.
  { intros l. induction l as [|x l IH]; [done|]. cbn [py_join foldr]. destruct l as [|y l].
    - cbn. by rewrite str_app_nil_r.
    - rewrite IH. done. }
  rewrite Hj. induction 1 as [|e evs He _ IH]; [done|]. cbn [map foldr].
  destruct (pack_row e He) as [Hone Hp]. rewrite Hp. rewrite str_app_assoc, file_lines_row by done.
  change ("" +:+ ?x) with x. rewrite <- Hp. cbn [res_mapM].
  rewrite event_unpack_pack by done. cbn [res_bind]. by rewrite IH.
Qed.
End Roundtrip.

(** A log to which events were appended, from the start. *)
Definition log_after {D} `{!LogData D} (show_time : Z → string) (evs : list (Z * ActionLogEvents * D))
    : option string * list (ActionLogEvent D) :=
  foldl (λ log '(now, ev, d), append_event show_time now ev d log) (None, []) evs.

Lemma join_snoc l x : py_join "" (l ++ [x]) = py_join "" l +:+ x.
Proof.
  induction l as [|y l IH]; [done|]. cbn [app py_join].
  destruct l as [|z l]; [done|]. cbn [app] in IH |- *. rewrite IH. cbn [py_join].
  by rewrite !str_app_assoc.
Qed.

Lemma log_after_file {D} `{!LogData D} show_time (evs : list (Z * ActionLogEvents * D)) :
  (log_after show_time evs).2 = map (λ '(now, ev, d), mkEvent D now ev d) evs ∧
  match (log_after show_time evs).1 with Some t => t | None => "" end =
    py_join "" (map (pack show_time) (log_after show_time evs).2) ∧
  ((log_after show_time evs).1 = None → evs = []).
Proof.
  induction evs as [|[[now ev] d] evs IH] using rev_ind; [done|].
  destruct IH as (H1 & H2 & _). unfold log_after. rewrite foldl_app. fold (log_after show_time evs).
  cbn [foldl append_event fst snd]. split; [by rewrite H1, map_app|]. split; [|done].
  rewrite H2, map_app. cbn [map]. by rewrite join_snoc.
Qed.

(** ** Properties *)

(** C26. The log survives a restart: whatever events were appended, reading the
    file gives the same events in the same order, with tabs and quotes in their
    texts, as long as no text has a line break, the time format reads back, and
    the items of every event's data are not empty and make the same data again. *)
Theorem action_log_roundtrip {D} `{!LogData D} show_time parse_dt now
    (evs : list (Z * ActionLogEvents * D)) :
  (∀ t, parse_dt (show_time t) = Ok t ∧ show_time t ≠ "" ∧ one_line (show_time t) = true) →
  Forall (λ e, storable_data e.2) evs →
  load parse_dt now (log_after show_time evs).1 = Ok (log_after show_time evs).2.
Proof.
  intros Ht Hd. destruct (log_after_file show_time evs) as (H1 & H2 & H3).
  destruct (log_after show_time evs).1 as [text|]; cbn [load].
  - rewrite H2. apply load_rows; [apply Ht..|]. rewrite H1. apply Forall_map.
    eapply Forall_impl; [exact Hd|]. by intros [[? ?] ?].
  - by rewrite H1, H3.
Qed.

(** Times and versions as numerals. *)
Definition sample_upgrade_data : LogData (UpgradeLogData Z) :=
  upgrade_data str_int py_int str_int (λ _, py_int).

Lemma sample_upgrade_storable w v i p :
  Forall (λ f, one_line f = true) [str_int w; str_int v; i; p] →
  storable_data (LogData0 := sample_upgrade_data) (mkUpgradeLogData Z w v i (VStr p)).
Proof.
  intros H. split; [done|]. split; [exact H|]. cbn. by rewrite !py_int_str.
Qed.

Lemma digits_one_line s acc n : parse_digits s acc = Some n → one_line s = true.
Proof.
  revert acc. induction s as [|c s IH]; intros acc; [done|]. cbn.
  destruct c as [[] [] [] [] [] [] [] []]; try discriminate; intros H; exact (IH _ H).
Qed.

Lemma numeral_line z : str_int z ≠ "" ∧ one_line (str_int z) = true.
Proof.
  assert (∀ n : N, pretty n ≠ "" ∧ one_line (pretty n) = true) as Hn.
  { intros n. split; [destruct (pretty_N_nonempty n) as (c & s & -> & _); done|].
    exact (digits_one_line _ _ _ (parse_digits_pretty n)). }
  unfold str_int. destruct z as [|p|p]; [done|exact (Hn (N.pos p))|].
  change (pretty (Z.neg p)) with (String "-" (pretty (N.pos p))). split; [done|]. exact (proj2 (Hn (N.pos p))).
Qed.

Definition sample_log : list (Z * ActionLogEvents * UpgradeLogData Z) :=
  [(5%Z, scheduled, mkUpgradeLogData Z 50 2%Z "11" (VStr (String tab "indy-node")));
   (50%Z, started, mkUpgradeLogData Z 50 2%Z "11" (VStr (String dquote "indy-node")))].

Lemma action_log_roundtrip_witness :
  load (LogData0 := sample_upgrade_data) py_int 60 (log_after (LogData0 := sample_upgrade_data) str_int sample_log).1 =
    Ok (log_after (LogData0 := sample_upgrade_data) str_int sample_log).2.
Proof.
  apply (action_log_roundtrip (LogData0 := sample_upgrade_data)).
  - intros t. split; [apply py_int_str|apply numeral_line].
  - constructor; [|constructor; [|constructor]]; apply sample_upgrade_storable; repeat constructor.
Defined.

(** A line break in the name of a package makes the log unreadable: the event is
    written, and the node that starts again cannot load the file. *)
Theorem line_break_breaks_log :
  let LD := sample_upgrade_data in
  let name := "indy-node" +:+ String lf "x" in
  let log := log_after str_int [(5%Z, scheduled, mkUpgradeLogData Z 50 2%Z "11" (VStr name))] in
  single_package name = APP_NAME ∧ load py_int 60 log.1 = Raise (TypeError "missing required positional argument").
Proof. vm_compute. split; reflexivity. Qed.
