(* ===== verification/Authn.v ===== *)
(** * Authentication

    [indy_node/server/client_authn.py] and [node_authn.py]: the key that a request's
    signature is checked with, and the text that is signed.

    For a DID that is known the key is the one of the identity cache; a request can
    bring its own key only when it is the NYM that creates its author.  What plenum
    reads of a request ([get_request_type], [nym_ident_is_dest],
    [get_target_verkey]) is that of [utils.py] of plenum's request handlers: the
    type, the author, the target and the key of a NYM. *)
From S2P Require Import Prelude PyValue Plenum Constants AuthActions AuthConstraints StateDomain IdrCache HandlerBase CompatSet CompatSetSpec Revocation NymHandler DefinitionHandlers AttribHandler AuthRules FlagHandler RevocEntryHandler Upgrader RichSchema ReadHandlers MessageSchemas.

Definition OPERATION : string := "operation".

(** ** The key of a client *)

(** What plenum reads of a request. *)
Class RequestReader := {
  get_request_type : Request → val;
  nym_ident_is_dest : Request → bool;
  get_target_verkey : Request → option string;
  request_type_is r : get_request_type r = vget TXN_TYPE (operation r);
  ident_is_dest_true r : nym_ident_is_dest r = true →
    ∃ i, identifier r = Some i ∧ vget TARGET_NYM (operation r) = VStr i;
  target_verkey_is r k : get_target_verkey r = Some k → vget VERKEY (operation r) = VStr k
}.

Section LedgerBasedAuthNr.
Context {root S : Type} `{!OptimisticStore S root} {RL : Rlp} {RR : RequestReader}.

Definition nym_specific_auth (request : Request) : option string :=
  if nym_ident_is_dest request then get_target_verkey request else None.

(** The dictionary [specific_verkey_validation] has one key, NYM. *)
Definition get_verkey_specific (request : Request) : option string :=
  if py_eq (get_request_type request) (VStr NYM) then nym_specific_auth request else None.

(** [LedgerBasedAuthNr.getVerkey]; an empty key counts as none. *)
Definition authn_getVerkey (c : S) (ident : string) (request : Request) : res (option string) :=
  match getVerkey c ident false with
  | Raise (KeyError _) =>
      match get_verkey_specific request with
      | Some k => if str_truth k then Ok (Some k) else Ok None
      | None => Ok None
      end
  | r => r
  end.
End LedgerBasedAuthNr.

(** ** The text that is signed *)

Section SerializeForSig.
Context {text : Type} (sha256_hex : string → string) (super_serialize : dict val → res text).

(** [LedgerBasedAuthNr.serializeForSig], with plenum's as [super_serialize]. *)
Definition serializeForSig (msg : dict val) : res text :=
  let! op := dgetitem OPERATION msg in
  match op with
  | VDict op =>
      if py_eq (vget TXN_TYPE op) (VStr ATTRIB) then
        match List.find (λ k, dhas k op) [RAW; ENC; HASH] with
        | None => Raise (KeyError "pop from an empty set")
        | Some keyName =>
            let! v := dgetitem keyName op in
            match v with
            | VStr s => super_serialize (dset OPERATION (VDict (dset keyName (VStr (sha256_hex s)) op)) msg)
            | _ => Raise AttributeError
            end
        end
      else super_serialize msg
  | _ => Raise AttributeError
  end.
End SerializeForSig.

(** ** The key of a node *)

(** The loop of [NodeAuthNr.getVerkey] over the pool ledger. *)
Fixpoint node_verkey_loop (ident : string) (txns : list Txn) (verkey : val) (found : bool)
    : res (val * bool) :=
  match txns with
  | [] => Ok (verkey, found)
  | txn :: txns' =>
      let txn_data := get_payload_data txn in
      let! target := dgetitem TARGET_NYM txn_data in
      if py_eq target (VStr ident)
      then node_verkey_loop ident txns'
             (if py_truth (vget VERKEY txn_data) then vget VERKEY txn_data else verkey) true
      else node_verkey_loop ident txns' verkey found
  end.

(** [NodeAuthNr.getVerkey] *)
Definition node_getVerkey (ledger : list Txn) (ident : string) : res val :=
  let! (verkey, found) := node_verkey_loop ident ledger VNone false in
  if negb found then Raise (UnknownIdentifier ident)
  else Ok (if py_truth verkey then verkey else VStr ident).

(** ** Lemmas *)

(** The transactions of a node that set a key. *)
Definition keys_of (ident : string) (ledger : list Txn) : list val :=
  List.filter py_truth
    (map (λ t, vget VERKEY (get_payload_data t))
       (List.filter (λ t, py_eq (vget TARGET_NYM (get_payload_data t)) (VStr ident)) ledger)).

Lemma last_cons_default {A} (x : A) l d : List.last (x :: l) d = List.last l x.
Proof. revert x. induction l as [|y l IH]; intros x; [done|]. cbn in IH |- *. by destruct l. Qed.

Lemma node_verkey_loop_spec ident txns verkey found :
  Forall (λ t, dhas TARGET_NYM (get_payload_data t) = true) txns →
  node_verkey_loop ident txns verkey found =
    Ok (List.last (keys_of ident txns) verkey,
        found || existsb (λ t, py_eq (vget TARGET_NYM (get_payload_data t)) (VStr ident)) txns).
Proof.
  intros H. revert verkey found. induction H as [|t txns Ht _ IH]; intros verkey found; cbn [node_verkey_loop];
    [by rewrite orb_false_r|].
  unfold dhas in Ht. unfold dgetitem, keys_of. cbn [List.filter existsb].
  destruct (dget TARGET_NYM (get_payload_data t)) as [x|] eqn:Ex; [|done]. cbn [res_bind].
  assert (vget TARGET_NYM (get_payload_data t) = x) as -> by (unfold vget; by rewrite Ex).
  destruct (py_eq x (VStr ident)).
  - rewrite IH. cbn [map List.filter orb]. rewrite orb_true_r.
    destruct (py_truth (vget VERKEY (get_payload_data t))); [|done].
    by rewrite last_cons_default.
  - rewrite IH. done.
Qed.

(** ** Properties *)

(** The key that authenticates a client is the key of the ledger: once a DID
    was written, its key is used whatever a request contains; a DID that is not
    known is authenticated only by the NYM that creates it, sent by itself,
    with the key that NYM sets. *)
Theorem client_key_from_ledger {root S} `{!OptimisticStore S root} {RL : Rlp} {RR : RequestReader}
    (c c' : S) idr n t ta role verkey r k :
  verkey ≠ Some unsetVerkey →
  IdrCache.set c idr (Some n) t ta role verkey false = Ok c' →
  authn_getVerkey c' idr r = Ok verkey ∧
  (∀ idr', get c idr' false = Raise (KeyError idr') → authn_getVerkey c idr' r = Ok (Some k) →
    vget TXN_TYPE (operation r) = VStr NYM ∧ vget VERKEY (operation r) = VStr k ∧
    ∃ i, identifier r = Some i ∧ vget TARGET_NYM (operation r) = VStr i).
Proof.
  intros Hv Hset. split.
  - unfold authn_getVerkey, getVerkey. by rewrite (get_set _ _ _ _ _ _ _ _ _ Hv Hset).
  - intros idr' Hmiss. unfold authn_getVerkey, getVerkey. rewrite Hmiss. cbn [res_bind].
    unfold get_verkey_specific, nym_specific_auth. rewrite request_type_is.
    destruct (vget TXN_TYPE (operation r)) as [| | |ty| |]; try done. cbn [py_eq].
    destruct (str_eqb ty NYM) eqn:E; [|done]. apply str_eqb_eq in E as ->.
    destruct (nym_ident_is_dest r) eqn:Hd; [|done].
    destruct (get_target_verkey r) as [k'|] eqn:Hk; [|done]. destruct (str_truth k'); [|done].
    intros [= ->]. split; [done|]. split; [by apply target_verkey_is|by apply ident_is_dest_true].
Qed.

Definition ident_is_target (r : Request) : bool :=
  match identifier r, vget TARGET_NYM (operation r) with
  | Some i, VStr d => str_eqb i d
  | _, _ => false
  end.

Definition target_key (r : Request) : option string :=
  match vget VERKEY (operation r) with VStr k => Some k | _ => None end.

#[export] Program Instance ref_reader : RequestReader := {|
  get_request_type r := vget TXN_TYPE (operation r);
  nym_ident_is_dest := ident_is_target;
  get_target_verkey := target_key
|}.
Next Obligation. done. Qed.
Next Obligation.
  unfold ident_is_target. intros r H. destruct (identifier r) as [i|]; [|done].
  destruct (vget TARGET_NYM (operation r)) as [| | |d| |]; try done. apply str_eqb_eq in H as ->. eauto.
Qed.
Next Obligation. unfold target_key. intros r k H. destruct (vget VERKEY (operation r)); by simplify_eq. Qed.

Definition self_nym (did key : string) : Request :=
  mkRequest (Some did) (Some 1%Z) [(TXN_TYPE, VStr NYM); (TARGET_NYM, VStr did); (VERKEY, VStr key)] None None None.

Lemma client_key_from_ledger_witness :
  ∃ c', IdrCache.set empty_store "D" (Some 1%Z) None None None (Some "ledgerkey") false = Ok c' ∧
    authn_getVerkey c' "D" (self_nym "D" "otherkey") = Ok (Some "ledgerkey") ∧
    authn_getVerkey empty_store "D" (self_nym "D" "otherkey") = Ok (Some "otherkey").
Proof.
  assert (∃ c', IdrCache.set empty_store "D" (Some 1%Z) None None None (Some "ledgerkey") false = Ok c')
    as [c' H] by (eexists; vm_compute; reflexivity).
  exists c'. split; [exact H|]. split; [|vm_compute; reflexivity].
  exact (proj1 (client_key_from_ledger empty_store c' "D" 1 None None None (Some "ledgerkey")
    (self_nym "D" "otherkey") "k" ltac:(discriminate) H)).
Defined.

(** The node checks the text the client signed: for every request, an
    attribute's with its data hashed and any other's as it is, serializing the
    received message gives what serializing the client's signing state gives. *)
Theorem signed_text_agrees {text} sha256_hex (serialize : dict val → res text) super idr op d :
  super idr = Ok d → dget OPERATION d = Some (VDict op) →
  serializeForSig sha256_hex serialize d =
    (let! state := signingPayloadState sha256_hex OPERATION super op idr in serialize state).
Proof.
  intros Hs Ho. unfold serializeForSig, signingPayloadState, dgetitem. rewrite Hs, Ho. cbn [res_bind].
  destruct (py_eq (vget TXN_TYPE op) (VStr ATTRIB)); [|done].
  rewrite Ho. cbn [res_bind]. destruct (List.find _ _) as [keyName|]; [|done].
  destruct (dget keyName op) as [v|]; [|done]. cbn [res_bind]. by destruct v.
Qed.

Lemma signed_text_agrees_witness :
  let op := [(TXN_TYPE, VStr ATTRIB); (TARGET_NYM, VStr "D"); (RAW, VStr "data")] in
  let d := [(IDENTIFIER, VStr "D"); (OPERATION, VDict op)] in
  serializeForSig (λ s, "h" +:+ s) (λ d, Ok (VDict d)) d =
    Ok (VDict [(IDENTIFIER, VStr "D");
               (OPERATION, VDict [(TXN_TYPE, VStr ATTRIB); (TARGET_NYM, VStr "D"); (RAW, VStr "hdata")])]).
Proof.
  intros op d. rewrite (signed_text_agrees (λ s, "h" +:+ s) (λ d, Ok (VDict d)) (λ _, Ok d) None op d eq_refl eq_refl).
  vm_compute. reflexivity.
Defined.

(** The key of a node is the last one a transaction of the pool ledger gave it, its
    identifier when none did, and unknown when it has no transaction. *)
Theorem node_key_is_last ledger ident :
  Forall (λ t, dhas TARGET_NYM (get_payload_data t) = true) ledger →
  node_getVerkey ledger ident =
    if existsb (λ t, py_eq (vget TARGET_NYM (get_payload_data t)) (VStr ident)) ledger
    then Ok (List.last (keys_of ident ledger) (VStr ident))
    else Raise (UnknownIdentifier ident).
Proof.
  intros H. unfold node_getVerkey. rewrite node_verkey_loop_spec by done. cbn [res_bind orb].
  destruct (existsb _ ledger); [|done]. cbn [negb]. f_equal.
  destruct (keys_of ident ledger) as [|x l] eqn:E; [done|].
  assert (Forall (λ v, py_truth v = true) (x :: l)) as Hall.
  { rewrite <- E. apply Forall_forall. intros v Hv. apply list_elem_of_In in Hv.
    unfold keys_of in Hv. by apply filter_In in Hv as [_ ?]. }
  rewrite !last_cons_default. destruct (exists_last (l := x :: l)) as (l0 & z & Hz); [done|].
  assert (List.last l x = z) as -> by (rewrite <- (last_cons_default x l VNone), Hz; apply last_last).
  rewrite Hz in Hall. apply Forall_app in Hall as [_ Hz']. apply Forall_cons in Hz' as [-> _]. done.
Qed.

Lemma node_key_is_last_witness :
  let t key := mkTxn NODE [(TARGET_NYM, VStr "N"); (VERKEY, key)] None None None None None None in
  node_getVerkey [t (VStr "k1"); t (VStr "k2"); t VNone] "N" = Ok (VStr "k2").
Proof. intros t. apply (node_key_is_last [t (VStr "k1"); t (VStr "k2"); t VNone] "N"). repeat constructor. Defined.
