(* ===== verification/Agreements.v ===== *)
(** * Author agreements and frozen ledgers

    [config_req_handlers/txn_author_agreement_handler.py], [..._aml_handler.py],
    [..._disable_handler.py], [ledgers_freeze_handler.py]: the node adds to plenum's
    handlers who may use them; and [txn_author_agreement_handler_v1.py], which
    replays the agreements of the first version of the transaction.

    Where an agreement is in the state is plenum's [StaticTAAHelper]: a class. *)
From S2P Require Import Prelude PyValue Plenum Constants AuthActions AuthConstraints Authorizer AuthorizerSpec AuthStrategy AuthMap StateDomain IdrCache HandlerBase Upgrader PoolUpgrade.

Definition TXN_AUTHOR_AGREEMENT_TEXT : string := "text".
Definition TXN_AUTHOR_AGREEMENT_VERSION : string := "version".

(** [StaticTAAHelper]: the digest of an agreement, the three paths it is found by,
    and the lookup of a digest, of the latest agreement when no version is asked. *)
Class TaaHelper (bytes St : Type) `{!State bytes St} := {
  taa_digest : val → val → res bytes;
  state_path_taa_digest : bytes → string;
  state_path_taa_latest : string;
  state_path_taa_version : val → string;
  get_taa_digest : St → val → option bytes;
  get_taa_digest_latest s : get_taa_digest s VNone = st_get s state_path_taa_latest;
  get_taa_digest_version s v : v ≠ VNone → get_taa_digest s v = st_get s (state_path_taa_version v);
  taa_digest_latest d : state_path_taa_digest d ≠ state_path_taa_latest;
  taa_digest_version d v : state_path_taa_digest d ≠ state_path_taa_version v;
  taa_latest_version v : state_path_taa_latest ≠ state_path_taa_version v
}.

Section Handlers.
Context {bytes CSt root S : Type} `{!Serializer bytes, !State bytes CSt, !StateCodec bytes, !TaaHelper bytes CSt}.
Context `{!OptimisticStore S root} {RL : Rlp} (str_request : Request → string).
Notation Validator := (WriteRequestValidator (St := CSt)).

(** [TxnAuthorAgreementHandler.authorize] *)
Definition taa_authorize (state : CSt) (c : S) (v : Validator) (request : Request) : res Validator :=
  let version := vget TXN_AUTHOR_AGREEMENT_VERSION (operation request) in
  match get_taa_digest state version with
  | None => validate_action str_request c v request (AuthActionAdd TXN_AUTHOR_AGREEMENT star star true)
  | Some _ => validate_action str_request c v request (AuthActionEdit TXN_AUTHOR_AGREEMENT star star star true)
  end.

(** [TxnAuthorAgreementAmlHandler.authorize] *)
Definition taa_aml_authorize (c : S) (v : Validator) (request : Request) : res Validator :=
  validate_action str_request c v request (AuthActionAdd TXN_AUTHOR_AGREEMENT_AML star star true).

(** [TxnAuthorAgreementDisableHandler.authorize] *)
Definition taa_disable_authorize (c : S) (v : Validator) (request : Request) : res Validator :=
  validate_action str_request c v request (AuthActionAdd TXN_AUTHOR_AGREEMENT_DISABLE star star true).

(** [LedgersFreezeHandler.authorize] *)
Definition ledgers_freeze_authorize (c : S) (v : Validator) (request : Request) : res Validator :=
  validate_action str_request c v request (AuthActionEdit LEDGERS_FREEZE star star star true).

(** *** The first version *)


(** [TxnAuthorAgreementHandlerV1.dynamic_validation] *)
Definition taa_v1_dynamic_validation (request : Request) : res unit := Ok tt.

(** [_update_txn_author_agreement] *)
Definition update_txn_author_agreement (state : CSt) (seq_no txn_time : option Z) (text version : val)
    : res CSt :=
  let! digest := taa_digest text version in
  let data := encode_state_value (VDict [(TXN_AUTHOR_AGREEMENT_TEXT, text);
                                         (TXN_AUTHOR_AGREEMENT_VERSION, version)]) seq_no txn_time in
  let state := st_set state (state_path_taa_digest digest) data in
  let state := st_set state state_path_taa_latest digest in
  Ok (st_set state (state_path_taa_version version) digest).

(** [TxnAuthorAgreementHandlerV1.update_state] *)
Definition taa_v1_update_state (state : CSt) (txn : Txn) : res CSt :=
  let! _ := validate_type TXN_AUTHOR_AGREEMENT (get_type txn) in
  let payload := get_payload_data txn in
  let text := vget TXN_AUTHOR_AGREEMENT_TEXT payload in
  let! version := dgetitem TXN_AUTHOR_AGREEMENT_VERSION payload in
  update_txn_author_agreement state (get_seq_no txn) (get_txn_time txn) text version.
End Handlers.

(** ** Lemmas *)

(** A quorum of trustees. *)
Definition is_trustee_quorum (n : Z) (c : constraint) : bool :=
  match c with
  | AuthConstraint (Some r) (VInt z) _ VNone _ => str_eqb r TRUSTEE && Z.eqb z n
  | _ => false
  end.

Definition is_agreement (ty : string) : bool :=
  str_eqb ty TXN_AUTHOR_AGREEMENT || str_eqb ty TXN_AUTHOR_AGREEMENT_AML ||
  str_eqb ty TXN_AUTHOR_AGREEMENT_DISABLE.

Section default_rules.
Context {bytes CSt root S : Type} `{!Serializer bytes, !State bytes CSt, !OptimisticStore S root} {RL : Rlp}.
Context (str_request : Request → string) (c : S) (cs : CSt) (metrics : bool) (r : Request) (author : string).
Context (Hwf : cache_wf c) (Hid : identifier r = Some author).
Let role := λ i, getRole c i false.

Lemma agreement_action_trustee a v' :
  action_clean a = true → is_agreement (ad_txn_type (action_def a)) = true →
  validate_action str_request c (default_validator cs metrics) r a = Ok v' →
  signed_with_role role r author (Some TRUSTEE).
Proof.
  intros Hcl Hty H. destruct (validate_action_default str_request c cs metrics r _ v' Hcl H) as [_ [res Hres]].
  pose proof (getRole_cache c Hwf) as HRC.
  destruct (validate_default_passes role str_request (λ am k,
    negb (is_agreement (ad_txn_type am)) || is_one_trustee k) cs metrics r author _ [] res
    ltac:(vm_compute; reflexivity) Hid Hcl Hres) as (am & k & Hm & HP & Hs).
  apply def_matches_true in Hm as (_ & Hm & _). rewrite <- Hm, Hty in HP.
  exact (is_one_trustee_signed _ _ _ _ _ HP Hs).
Qed.

Lemma freeze_quorum v' :
  NoDup (signers r) → ledgers_freeze_authorize str_request c (default_validator cs metrics) r = Ok v' →
  ∃ voters, NoDup voters ∧ (3 ≤ length voters)%nat ∧
    ∀ i, i ∈ voters → i ∈ signers r ∧ has_role role i (Some TRUSTEE).
Proof.
  intros Hnd H.
  destruct (validate_action_default str_request c cs metrics r
    (AuthActionEdit LEDGERS_FREEZE star star star true) v' eq_refl H) as [_ [res Hres]].
  pose proof (getRole_cache c Hwf) as HRC.
  destruct (validate_default_passes role str_request (λ am k,
    negb (str_eqb (ad_txn_type am) LEDGERS_FREEZE) || is_trustee_quorum 3 k) cs metrics r author
    (AuthActionEdit LEDGERS_FREEZE star star star true) [] res
    ltac:(vm_compute; reflexivity) Hid eq_refl Hres) as (am & k & Hm & HP & Hs).
  apply def_matches_true in Hm as (_ & Hm & _). rewrite <- Hm in HP. cbn [negb orb] in HP.
  clear H Hres. destruct k as [|[role'|] sc n o m| |]; try done. cbn [is_trustee_quorum] in HP.
  destruct sc; try done. destruct o; try done. apply andb_true_iff in HP as [->%str_eqb_eq ->%Z.eqb_eq].
  destruct Hs as (z & [= <-] & (_ & _ & Hw) & _). cbn [py_truth] in Hw.
  destruct (has_signature r) eqn:Hsig.
  - unfold sig_weight in Hw. rewrite Hsig in Hw. destruct (_ || _) in Hw; simpl in Hw; lia.
  - destruct (quorum_voters role r author (Some TRUSTEE) 3 _ Hsig Hnd ltac:(discriminate) Hw eq_refl)
      as (vs & H1 & H2 & H3). exists vs. split; [done|]. split; [lia|done].
Qed.
End default_rules.

(** ** Properties *)

(** Who changes the agreements and the set of ledgers: under the default
    rules a request for a new, a changed or a disabled author agreement or for a new
    list of acceptance mechanisms that is authorized was signed by a trustee, and a
    request to freeze ledgers by three different ones. *)
Theorem agreement_needs_trustee {bytes CSt root S} `{!Serializer bytes, !State bytes CSt, !TaaHelper bytes CSt,
    !OptimisticStore S root} {RL : Rlp} str_request (state : CSt) (c : S) cs metrics r author v' :
  cache_wf c → identifier r = Some author →
  let v := default_validator cs metrics in
  let role := λ i, getRole c i false in
  (taa_authorize str_request state c v r = Ok v' ∨ taa_aml_authorize str_request c v r = Ok v' ∨
   taa_disable_authorize str_request c v r = Ok v' → signed_with_role role r author (Some TRUSTEE)) ∧
  (NoDup (signers r) → ledgers_freeze_authorize str_request c v r = Ok v' →
    ∃ voters, NoDup voters ∧ (3 ≤ length voters)%nat ∧
      ∀ i, i ∈ voters → i ∈ signers r ∧ has_role role i (Some TRUSTEE)).
Proof.
  intros Hwf Hid v role. split; [|exact (freeze_quorum str_request c cs metrics r author Hwf Hid v')].
  pose proof (agreement_action_trustee str_request c cs metrics r author Hwf Hid) as Ht.
  intros [H|[H|H]]; [|by eapply Ht; [..|exact H]..].
  unfold taa_authorize in H. destruct (get_taa_digest _ _); by eapply Ht; [..|exact H].
Qed.

(** A reference helper: the digest of an agreement is its text and version. *)
#[export] Program Instance ref_taa : TaaHelper val (gmap string val) := {|
  taa_digest text version := Ok (VStr (py_str text +:+ py_str version));
  state_path_taa_digest d := "d" +:+ py_str d;
  state_path_taa_latest := "latest";
  state_path_taa_version v := "v" +:+ py_str v;
  get_taa_digest s v := st_get s (if is_none v then "latest" else "v" +:+ py_str v)
|}.
Next Obligation. done. Qed.
Next Obligation. intros s v H. by destruct v. Qed.
Next Obligation. done. Qed.
Next Obligation. done. Qed.
Next Obligation. done. Qed.

Definition add_trustee (c : MapStore) (i : string) : MapStore :=
  match IdrCache.set c i (Some 1%Z) None None (Some TRUSTEE) (Some "k") false with
  | Ok c' => c'
  | Raise _ => c
  end.

Definition three_trustees : MapStore := foldl add_trustee empty_store ["A"; "B"; "C"].

Definition freeze_request : Request :=
  mkRequest (Some "A") (Some 1%Z) [(TXN_TYPE, VStr LEDGERS_FREEZE)] None
    (Some [("A", "s1"); ("B", "s2"); ("C", "s3")]) None.

Lemma add_trustee_wf c i : cache_wf c → cache_wf (add_trustee c i).
Proof.
  intros H. unfold add_trustee. destruct (IdrCache.set _ _ _ _ _ _ _ _) eqn:E; [|done].
  by apply (set_wf c i (Some 1%Z) None None (Some TRUSTEE) (Some "k") false).
Qed.

Lemma three_trustees_wf : cache_wf three_trustees.
Proof. do 3 apply add_trustee_wf. exact empty_store_wf. Qed.

Lemma agreement_needs_trustee_witness :
  ∃ voters, NoDup voters ∧ (3 ≤ length voters)%nat ∧
    ∀ i, i ∈ voters → i ∈ ["A"; "B"; "C"] ∧ has_role (λ i, getRole three_trustees i false) i (Some TRUSTEE).
Proof.
  assert (∃ v', ledgers_freeze_authorize (λ _, "") three_trustees
    (default_validator (∅ : gmap string val) false) freeze_request = Ok v') as [v' H]
    by (eexists; vm_compute; reflexivity).
  destruct (agreement_needs_trustee (bytes := val) (λ _, "") (∅ : gmap string val) three_trustees ∅ false freeze_request "A" v'
    three_trustees_wf eq_refl) as [_ Hf].
  apply Hf; [|exact H]. apply (bool_decide_unpack _). reflexivity.
Defined.

(** An agreement that is replayed can be read: after an agreement of the first
    version is written, its digest is the one of its version and the latest one,
    the digest's record has its text, version, number and time, and a request for
    the same version is then a change of an agreement, not a new one. *)
Theorem agreement_read_back {bytes CSt root S} `{!Serializer bytes, !State bytes CSt, !StateCodec bytes,
    !TaaHelper bytes CSt, !OptimisticStore S root} {RL : Rlp} str_request (c : S) v r (state state' : CSt) txn version :
  taa_v1_update_state state txn = Ok state' →
  vget TXN_AUTHOR_AGREEMENT_VERSION (get_payload_data txn) = version → version ≠ VNone →
  vget TXN_AUTHOR_AGREEMENT_VERSION (operation r) = version →
  (∃ digest, taa_digest (vget TXN_AUTHOR_AGREEMENT_TEXT (get_payload_data txn)) version = Ok digest ∧
    get_taa_digest state' version = Some digest ∧ get_taa_digest state' VNone = Some digest ∧
    get_from_state_val state' (state_path_taa_digest digest) =
      Ok (VDict [(TXN_AUTHOR_AGREEMENT_TEXT, vget TXN_AUTHOR_AGREEMENT_TEXT (get_payload_data txn));
                 (TXN_AUTHOR_AGREEMENT_VERSION, version)], opt_int (get_seq_no txn), opt_int (get_txn_time txn))) ∧
  taa_authorize str_request state' c v r =
    validate_action str_request c v r (AuthActionEdit TXN_AUTHOR_AGREEMENT star star star true).
Proof.
  intros H Hv Hne Hr. unfold taa_v1_update_state in H. bind H as u _. bind H as ver Hver.
  unfold vget in Hv. unfold dgetitem in Hver.
  destruct (dget TXN_AUTHOR_AGREEMENT_VERSION (get_payload_data txn)); [|done]. injection Hver as <-. subst version.
  unfold update_txn_author_agreement in H. bind H as digest Hd. injection H as <-.
  unfold taa_authorize. rewrite Hr, (get_taa_digest_version _ _ Hne), st_get_set_eq. split; [|done].
  exists digest. split; [done|]. split; [done|]. split.
  - rewrite get_taa_digest_latest, st_get_set_ne, st_get_set_eq; [done|].
    apply not_eq_sym, taa_latest_version.
  - rewrite get_from_state_set_ne by apply not_eq_sym, taa_digest_version.
    rewrite get_from_state_set_ne by apply not_eq_sym, taa_digest_latest. apply get_from_state_set.
Qed.

Definition agreement_txn : Txn :=
  mkTxn TXN_AUTHOR_AGREEMENT [(TXN_AUTHOR_AGREEMENT_TEXT, VStr "be nice"); (TXN_AUTHOR_AGREEMENT_VERSION, VStr "1")]
    (Some "T") (Some 1%Z) None None (Some 4%Z) (Some 100%Z).

Definition agreement_request : Request :=
  mkRequest (Some "T") (Some 2%Z) (get_payload_data agreement_txn) (Some "s") None None.

Lemma agreement_read_back_witness :
  ∃ state', taa_v1_update_state (∅ : gmap string val) agreement_txn = Ok state' ∧
    taa_authorize (λ _, "") state' trustee_cache (default_validator ∅ false) agreement_request =
      validate_action (λ _, "") trustee_cache (default_validator ∅ false) agreement_request
        (AuthActionEdit TXN_AUTHOR_AGREEMENT star star star true).
Proof.
  assert (∃ state', taa_v1_update_state (∅ : gmap string val) agreement_txn = Ok state') as [state' H]
    by (eexists; vm_compute; reflexivity).
  exists state'. split; [exact H|].
  exact (proj2 (agreement_read_back (bytes := val) (λ _, "") trustee_cache (default_validator ∅ false) agreement_request
    ∅ state' agreement_txn (VStr "1") H eq_refl ltac:(discriminate) eq_refl)).
Defined.
