(* ===== verification/Node.v ===== *)
(** * The node

    [indy_node/server/node.py], the batch handlers [config_batch_handler.py] and
    [idr_cache_batch_handler.py], and the forced requests of the POOL_UPGRADE and
    POOL_CONFIG handlers: how the parts are put together.

    The node passes committed configuration transactions to the upgrader and the
    pool configuration, tells the other nodes when its upgrade starts and how it
    ended, and takes part of what plenum's node does: which requests need a quorum,
    which nodes' messages are let in, which transactions may be written.  What
    plenum's node does is a parameter ([super_...]); requests that are sent or
    propagated are lists of the state. *)
From S2P Require Import Prelude PyValue Plenum Constants AuthActions AuthConstraints AuthStrategy AuthMap StateDomain IdrCache HandlerBase AttribHandler Upgrader PoolUpgrade World Restarter.

Definition SIG : string := "signature".
Definition COMPLETE : string := "complete".
Definition FAIL : string := "fail".
Definition IN_PROGRESS : string := "in_progress".
Definition OPERATION_KEY : string := "operation".

Section Node.
Context {Ver Q : Type} (ver_eqb : Ver → Ver → bool) (src_version : val → val → option Ver).
Context (curr_pkg_info : val → option Ver * list string) (parse_date : string → res Z).
Context (is_forced : Txn → bool) `{!ActionQueue Q (Task Ver)} (config : Config) (nodeId : string).
Notation UState := (UState (Ver := Ver) (Q := Q)).
Notation handle := (handleUpgradeTxn ver_eqb src_version parse_date is_forced config nodeId).

(** What the node's own code reads and writes: its upgrader, the pool configuration,
    the requests that were sent, propagated and are in work. *)
Record NodeState := mkNode {
  nd_upgrader : UState;
  nd_writes : val;
  nd_sent : list Request;
  nd_propagated : list (Request * string);
  nd_processing : list (string * string)
}.

Definition set_upgrader (u : UState) (n : NodeState) : NodeState :=
  mkNode u (nd_writes n) (nd_sent n) (nd_propagated n) (nd_processing n).
Definition set_writes (w : val) (n : NodeState) : NodeState :=
  mkNode (nd_upgrader n) w (nd_sent n) (nd_propagated n) (nd_processing n).
Definition send (r : Request) (n : NodeState) : NodeState :=
  mkNode (nd_upgrader n) (nd_writes n) (nd_sent n ++ [r]) (nd_propagated n) (nd_processing n).
Definition recordAndPropagate (r : Request) (frm : string) (n : NodeState) : NodeState :=
  mkNode (nd_upgrader n) (nd_writes n) (nd_sent n) (nd_propagated n ++ [(r, frm)]) (nd_processing n).
Definition startedProcessingReq (key frm : string) (n : NodeState) : NodeState :=
  mkNode (nd_upgrader n) (nd_writes n) (nd_sent n) (nd_propagated n) ((key, frm) :: nd_processing n).

(** ** Configuration transactions *)

(** The body of the loop of [ConfigBatchHandler.commit_batch]. *)
Definition commit_config_txn (now : Z) (txn : Txn) : act NodeState unit :=
  if is_forced txn then ret tt else
  let? _ := (λ n, match handle now txn (nd_upgrader n) with
                  | Ok u => (Ok tt, set_upgrader u n)
                  | Raise e => (Raise e, n)
                  end) in
  λ n, match handleConfigTxn (nd_writes n) txn with
       | Ok w => (Ok tt, set_writes w n)
       | Raise e => (Raise e, n)
       end.

(** [ConfigBatchHandler.commit_batch] on the transactions plenum committed. *)
Definition config_commit_batch (now : Z) (committed_txns : list Txn) : act NodeState (list Txn) :=
  let? _ := each (commit_config_txn now) committed_txns in ret committed_txns.

Context (super_apply_forced : Request → res unit) (req_to_txn : Request → Txn).

(** [PoolUpgradeHandler.apply_forced_request] *)
Definition upgrade_apply_forced_request (now : Z) (req : Request) : act NodeState unit :=
  let? _ := lift (super_apply_forced req) in
  λ n, match handle now (req_to_txn req) (nd_upgrader n) with
       | Ok u => (Ok tt, set_upgrader u n)
       | Raise e => (Raise e, n)
       end.

(** [PoolConfigHandler.apply_forced_request] *)
Definition config_apply_forced_request (req : Request) : act NodeState unit :=
  let? _ := lift (super_apply_forced req) in
  λ n, match handleConfigTxn (nd_writes n) (req_to_txn req) with
       | Ok w => (Ok tt, set_writes w n)
       | Raise e => (Raise e, n)
       end.

Definition can_write_txn (writes : val) (txn_type : string) : bool :=
  py_truth writes || bool_decide (txn_type ∈ [POOL_UPGRADE; POOL_CONFIG; AUTH_RULE; AUTH_RULES]).

(** ** Reports about upgrades *)

Context (ver_full : Ver → string) (signMsg : val → val) (signRequest : Request → Request).
Context (request_key : Request → string) (name : string).

Definition node_upgrade_op (action : string) (version : Ver) : dict val :=
  let data := VDict [(ACTION, VStr action); (VERSION, VStr (ver_full version))] in
  dset SIG (signMsg data) [(TXN_TYPE, VStr NODE_UPGRADE); (DATA, data)].

(** The request both reports sign, note and send. *)
Definition send_node_upgrade (action : string) (version : Ver) : act NodeState unit :=
  let request := signRequest (mkRequest None None (node_upgrade_op action version) None None None) in
  let? _ := modify (startedProcessingReq (request_key request) name) in
  modify (send request).

Definition acknowledge_upgrade : act NodeState unit :=
  λ n,
  let u := nd_upgrader n in
  if negb (should_notify_about_upgrade u) then ret tt n else
  match lastActionEventInfo u with
  | None => (Raise AttributeError, n)
  | Some e =>
      (let? _ := send_node_upgrade (if didLastExecutedUpgradeSucceeded ver_eqb curr_pkg_info u
                                    then COMPLETE else FAIL) (version (data e)) in
       modify (λ n, set_upgrader (notified_about_action_result (nd_upgrader n)) n)) n
  end.

(** [notify_upgrade_start], the callback of the upgrader. *)
Definition notify_upgrade_start : act NodeState unit :=
  λ n,
  match scheduledAction (nd_upgrader n) with
  | None => (Raise AttributeError, n)
  | Some a => send_node_upgrade IN_PROGRESS (version a) n
  end.

(** [postConfigLedgerCaughtUp] *)
Definition postConfigLedgerCaughtUp (super : act NodeState unit) (now : Z) (ledger : list Txn)
    : act NodeState unit :=
  let? _ := (λ n, match config_processLedger (nd_writes n) ledger with
                  | Ok w => (Ok tt, set_writes w n)
                  | Raise e => (Raise e, n)
                  end) in
  let? _ := (λ n, match processLedger ver_eqb src_version parse_date is_forced config nodeId now ledger
                          (nd_upgrader n) with
                  | Ok u => (Ok tt, set_upgrader u n)
                  | Raise e => (Raise e, n)
                  end) in
  let? _ := super in
  acknowledge_upgrade.

(** ** Messages of other nodes *)

Context (node_authenticate : val → option string → val → res unit).

(** The check of a NODE_UPGRADE request; whatever it raises ends the processing. *)
Definition node_request_authentic (request : Request) : res unit :=
  let! data := dgetitem DATA (operation request) in
  let! sig := dgetitem SIG (operation request) in
  node_authenticate data (identifier request) sig.

Definition processNodeRequest (request : Request) (frm : string) : act NodeState unit :=
  let? ty := lift (dgetitem TXN_TYPE (operation request)) in
  if py_eq ty (VStr NODE_UPGRADE) && negb (is_Ok (node_request_authentic request)) then ret tt else
  let? _ := modify (λ n, if bool_decide (request_key request ∈ map fst (nd_processing n)) then n
                         else startedProcessingReq (request_key request) frm n) in
  modify (recordAndPropagate request frm).

(** [x.get(OPERATION, {}).get(TXN_TYPE)] *)
Definition operation_type (msg : dict val) : res val :=
  match get_default OPERATION_KEY (VDict []) msg with
  | VDict op => Ok (vget TXN_TYPE op)
  | _ => Raise AttributeError
  end.

(** [validateNodeMsg] *)
Definition validateNodeMsg {M} (client_request_class : dict val → res M)
    (super_validate : dict val → string → res (M * string)) (msg : dict val) (frm : string) : res (M * string) :=
  if forallb (λ k, dhas k msg) [OPERATION_KEY; "identifier"; "reqId"] then
    let! ty := operation_type msg in
    if py_eq ty (VStr NODE_UPGRADE)
    then let! m := client_request_class msg in Ok (m, frm)
    else super_validate msg frm
  else super_validate msg frm.

(** [authNr]: the authenticator of a request. *)
Definition authNr {A} (nodeAuthNr : A) (super_authNr : dict val → res A) (req : dict val) : res A :=
  let! ty := operation_type req in
  if py_eq ty (VStr NODE_UPGRADE) then Ok nodeAuthNr else super_authNr req.

(** [is_request_need_quorum], as a truth value. *)
Definition is_request_need_quorum (super_need_quorum : dict val → bool) (msg_dict : dict val) : res bool :=
  let! op := match dget OPERATION_KEY msg_dict with
             | None => Ok None
             | Some (VDict op) => Ok (Some op)
             | Some _ => Raise AttributeError
             end in
  let txn_type := match op with Some op => vget TXN_TYPE op | None => VNone end in
  let is_force := match op with Some op => get_default FORCE (VBool false) op | None => VBool false end in
  let is_force_upgrade := str_eqb (py_str is_force) "True" && py_eq txn_type (VStr POOL_UPGRADE) in
  Ok (py_truth txn_type && negb is_force_upgrade && super_need_quorum msg_dict).

(** [prod]: the work that was done, with the upgrader's and the restarter's. *)
Definition prod (super_prod upgrader_service restarter_service : act NodeState Z) : act NodeState Z :=
  let? c := super_prod in
  let? u := upgrader_service in
  let? r := restarter_service in
  ret (c + u + r)%Z.
End Node.

(** ** Restarts, attributes, rules, batches *)

(** [on_inconsistent_3pc_state] *)
Definition on_inconsistent_3pc_state {RQ} `{!ActionQueue RQ RTask} (timeout now : Z) : act (RState (Q := RQ)) unit :=
  requestRestart now (Some (mkDatetime (now + timeout) true)) VNone.

(** [update_txn_with_extra_data]: the attribute's data in place of its hash. *)
Definition update_txn_with_extra_data {A} `{!AttributeStore A} (attributeStore : A) (txn : Txn) : res Txn :=
  if str_eqb (get_type txn) ATTRIB then
    let txn_data := get_payload_data txn in
    let key := if negb (is_none (vget RAW txn_data)) then Some RAW
               else if negb (is_none (vget ENC txn_data)) then Some ENC else None in
    match key with
    | Some key =>
        match vget key txn_data with
        | VStr h => let! v := as_get attributeStore h in Ok (with_payload_data txn (dset key v txn_data))
        | _ => Raise AttributeError
        end
    | None => Ok txn
    end
  else Ok txn.

(** [add_auth_rules_to_config_state] *)
Definition add_auth_rules_to_config_state {bytes St} `{!Serializer bytes, !State bytes St}
    (auth_map : dict constraint) (state : St) : St :=
  foldl (λ state '(rule_id, auth_constraint),
    if match st_get state rule_id with Some b => bytes_truth b | None => false end then state
    else st_set state rule_id (serialize_constraint (Some auth_constraint))) state auth_map.

Section Batches.
Context {S root : Type} `{!OptimisticStore S root} `{!EqDecision root} (b58decode : string → res root).

(** [IdrCacheBatchHandler.commit_batch]: the root arrives as text. *)
Definition cache_commit_batch (c : S) (state_root : string) : res S :=
  let! r := b58decode state_root in onBatchCommitted c r.

(** [IdrCacheBatchHandler.post_batch_applied] *)
Definition cache_post_batch_applied (c : S) (state_root : root) : S := currentBatchCreated c state_root.

(** [IdrCacheBatchHandler.post_batch_rejected] *)
Definition cache_post_batch_rejected (c : S) : S := batchRejected c.

(** [preLedgerCatchUp] and [postLedgerCatchUp]: plenum's part before and after. *)
Definition check_no_uncommitted (c : S) (when : string) : res unit :=
  match okv_first_batch c with
  | Some _ => Raise (LogicError ("idr cache has uncommitted txns " +:+ when))
  | None => Ok tt
  end.

Definition preLedgerCatchUp (super : S → res S) (c : S) : res S :=
  let! c := super c in
  let! _ := check_no_uncommitted c "before catching up ledger" in Ok c.

Definition postLedgerCatchUp (super : S → res S) (c : S) : res S :=
  let! _ := check_no_uncommitted c "after catching up ledger" in super c.
End Batches.

(** ** Lemmas *)

Section upgrader_log.
Context {Ver Q : Type} (ver_eqb : Ver → Ver → bool) (src_version : val → val → option Ver).
Context (curr_pkg_info : val → option Ver * list string) (parse_date : string → res Z).
Context (is_forced : Txn → bool) `{!ActionQueue Q (Task Ver)} (config : Config) (nodeId : string).
Notation UState := (UState (Ver := Ver) (Q := Q)).

(** What a report needs: when there is something to report there is an entry. *)
Definition reportable (s : UState) : Prop :=
  should_notify_about_upgrade s = true → actionLog s ≠ [].

(** An upgrader that keeps the flag and only appends to its log stays so. *)
Definition extends (s s' : UState) : Prop :=
  should_notify_about_upgrade s' = should_notify_about_upgrade s ∧ ∃ l, actionLog s' = actionLog s ++ l.

#[local] Instance extends_preorder : PreOrder extends.
Proof.
  split; [intros s; split; [done|exists []; by rewrite app_nil_r]|].
  intros s1 s2 s3 [? [l1 H1]] [? [l2 H2]]. split; [congruence|]. exists (l1 ++ l2).
  by rewrite H2, H1, app_assoc.
Qed.

Lemma extends_reportable s s' : extends s s' → reportable s → reportable s'.
Proof. intros [Hf [l Hl]] H. unfold reportable. rewrite Hf, Hl. intros ?%H E. by apply app_eq_nil in E as [? _]. Qed.

Lemma cancel_extends now j s : extends s (cancelScheduledUpgrade now j s).
Proof.
  unfold cancelScheduledUpgrade. destruct (scheduledAction s); [|reflexivity]. split; [done|by eexists].
Qed.

Lemma handle_extends now txn s s' :
  handleUpgradeTxn ver_eqb src_version parse_date is_forced config nodeId now txn s = Ok s' → extends s s'.
Proof.
  intros H. unfold handleUpgradeTxn in H. destruct (negb _); [by injection H as <-|].
  bind H as a _. bind H as v _. destruct (src_version _ _) as [ver|]; [|by injection H as <-].
  destruct (py_eq a (VStr START)).
  - unfold handle_start in H. bind H as sc _. bind H as d _.
    destruct (dget nodeId d) as [wv|]; [|by injection H as <-].
    match type of H with (if ?b then _ else _) = _ => destruct b; [by injection H as <-|] end.
    bind H as w _. destruct (scheduledAction s) as [b|].
    + destruct (data_eqb _ _ _); injection H as <-; [done|].
      etransitivity; [apply cancel_extends|]. split; [done|by eexists].
    + injection H as <-. split; [done|by eexists].
  - destruct (py_eq a (VStr CANCEL)); [|by injection H as <-].
    destruct (scheduledAction s) as [b|]; [|by injection H as <-].
    destruct (ver_eqb _ _); injection H as <-; [apply cancel_extends|done].
Qed.

Lemma ledger_extends now ledger s s' :
  processLedger ver_eqb src_version parse_date is_forced config nodeId now ledger s = Ok s' → extends s s'.
Proof.
  intros H. unfold processLedger in H. bind H as st Hst.
  destruct st as [t|]; [|by injection H as <-]. bind H as n _.
  bind H as c _. destruct c; [by injection H as <-|]. by eapply handle_extends.
Qed.

Lemma new_reportable now log q : reportable (new_Upgrader ver_eqb curr_pkg_info now log q).
Proof.
  unfold new_Upgrader, process_action_log_for_first_run. destruct (is_action_started _) eqn:E; [|done].
  unfold is_action_started, update_action_log_for_started_action, lastActionEventInfo in *. cbn [actionLog] in *.
  destruct (last_event log) as [e|] eqn:El; [|done]. intros _. destruct log; [done|]. by destruct (negb _).
Qed.

Lemma reachable_reportable s :
  reachable ver_eqb src_version curr_pkg_info parse_date is_forced config nodeId s → reportable s.
Proof.
  induction 1 as [now q _|s s' _ IH H]; [apply new_reportable|].
  destruct H as [now txn s s' _ H|now ledger s s' _ H|now d f q' l1 l2 s _ _
    |d q' l1 l2 s _|attempt d f l1 l2 s s' _ H|s|now q s _].
  - by eapply extends_reportable; [eapply handle_extends|].
  - by eapply extends_reportable; [eapply ledger_extends|].
  - apply (extends_reportable s); [|done]. split; [done|by eexists].
  - unfold declareTimeoutExceeded. match goal with |- reportable (if ?b then _ else _) => destruct b end; done.
  - unfold sendUpgradeRequest in H. destruct (send_attempts attempt 0 retry_limit).
    + by apply res_bind_Ok in H as (delay & _ & [= <-]).
    + by injection H as <-.
  - done.
  - apply new_reportable.
Qed.
End upgrader_log.

(** A batch is committed by handling the transactions that are not forced in order. *)
Lemma commit_config_txns {Ver Q} ver_eqb (src_version : val → val → option Ver) parse_date is_forced
    `{!ActionQueue Q (Task Ver)} config nodeId now txns (n n' : NodeState) :
  each (commit_config_txn ver_eqb src_version parse_date is_forced config nodeId now) txns n = (Ok tt, n') →
  let written := List.filter (λ t, negb (is_forced t)) txns in
  res_fold (λ u t, handleUpgradeTxn ver_eqb src_version parse_date is_forced config nodeId now t u)
    (nd_upgrader n) written = Ok (nd_upgrader n') ∧
  config_processLedger (nd_writes n) written = Ok (nd_writes n') ∧ (written = [] → n' = n).
Proof.
  cbn zeta. revert n. induction txns as [|t txns IH]; intros n H; [by injection H as <-|].
  cbn [each] in H. apply act_bind_Ok in H as ([] & n1 & H1 & H). cbn [List.filter].
  unfold commit_config_txn in H1. destruct (is_forced t) eqn:Ef; cbn [negb].
  { injection H1 as <-. by apply IH. }
  apply act_bind_Ok in H1 as ([] & n2 & H2 & H1).
  destruct (handleUpgradeTxn _ _ _ _ _ _ _ _ _) as [u|] eqn:Hu; [|done]. injection H2 as <-.
  destruct (handleConfigTxn _ _) as [w|] eqn:Hw; [|done]. injection H1 as <-. cbn [set_upgrader nd_writes] in Hw.
  destruct (IH (set_writes w (set_upgrader u n)) H) as (H1 & H2 & _).
  split; [cbn [res_fold]; by rewrite Hu|]. split; [|done]. unfold config_processLedger in *. cbn [res_fold].
  assert ((if str_eqb (get_type t) POOL_CONFIG then handleConfigTxn (nd_writes n) t else Ok (nd_writes n)) =
    Ok w) as ->; [|exact H2].
  destruct (str_eqb (get_type t) POOL_CONFIG) eqn:E; [done|]. unfold handleConfigTxn in Hw. by rewrite E in Hw.
Qed.

Lemma handle_all_reachable {Ver Q} ver_eqb (src_version : val → val → option Ver) curr_pkg_info parse_date
    is_forced `{!ActionQueue Q (Task Ver)} config nodeId now txns (u u' : UState (Ver := Ver) (Q := Q)) :
  reachable ver_eqb src_version curr_pkg_info parse_date is_forced config nodeId u →
  (∀ t, t ∈ txns → is_forced t = false → asks_for_future parse_date nodeId now t) →
  res_fold (λ u t, handleUpgradeTxn ver_eqb src_version parse_date is_forced config nodeId now t u) u
    (List.filter (λ t, negb (is_forced t)) txns) = Ok u' →
  reachable ver_eqb src_version curr_pkg_info parse_date is_forced config nodeId u'.
Proof.
  revert u. induction txns as [|t txns IH]; intros u Hr Hf H; [by injection H as <-|]. cbn [List.filter] in H.
  destruct (is_forced t) eqn:Ef; cbn [negb] in H; [apply (IH u Hr); [|done]; intros; apply Hf; [by right|done]|].
  cbn [res_fold] in H. apply res_bind_Ok in H as (u1 & H1 & H). apply (IH u1); [| |done].
  - eapply reach_step; [exact Hr|]. eapply step_txn; [|exact H1]. apply Hf; [by left|done].
  - intros; apply Hf; [by right|done].
Qed.

(** ** Properties *)

(** C31. Committing and replaying agree: when the commit of a batch of
    configuration transactions returns, it returns the batch; the pool configuration
    is what reading the transactions from the ledger on start-up gives and the
    upgrader has handled them in their order, the forced ones apart, which were
    applied when they arrived (a batch of forced ones changes nothing); whether a
    transaction may be written follows the last POOL_CONFIG that is not forced.  If
    moreover the transactions that are not forced ask this node only for upgrades
    after the commit (their time was ahead when they were validated; the commit does
    not check it again), the upgrader stays in a state it can be in. *)
Theorem config_commit_replay {Ver Q} ver_eqb (src_version : val → val → option Ver) curr_pkg_info parse_date
    is_forced `{!ActionQueue Q (Task Ver)} config nodeId now txns txns' (n n' : NodeState) :
  config_commit_batch ver_eqb src_version parse_date is_forced config nodeId now txns n = (Ok txns', n') →
  let written := List.filter (λ t, negb (is_forced t)) txns in
  txns' = txns ∧
  config_processLedger (nd_writes n) written = Ok (nd_writes n') ∧
  res_fold (λ u t, handleUpgradeTxn ver_eqb src_version parse_date is_forced config nodeId now t u)
    (nd_upgrader n) written = Ok (nd_upgrader n') ∧
  (Forall (λ t, is_forced t = true) txns → n' = n) ∧
  (∀ l1 t l2 w ty, written = l1 ++ t :: l2 →
    get_type t = POOL_CONFIG → dget WRITES (get_payload_data t) = Some w →
    Forall (λ u, get_type u ≠ POOL_CONFIG) l2 →
    ty ∉ [POOL_UPGRADE; POOL_CONFIG; AUTH_RULE; AUTH_RULES] → can_write_txn (nd_writes n') ty = py_truth w) ∧
  (reachable ver_eqb src_version curr_pkg_info parse_date is_forced config nodeId (nd_upgrader n) →
   (∀ t, t ∈ txns → is_forced t = false → asks_for_future parse_date nodeId now t) →
   reachable ver_eqb src_version curr_pkg_info parse_date is_forced config nodeId (nd_upgrader n')).
Proof.
  intros H. unfold config_commit_batch in H. apply act_bind_Ok in H as ([] & n1 & H & [= <- <-]).
  destruct (commit_config_txns _ _ _ _ _ _ _ _ _ _ H) as (H1 & H2 & H3). cbn zeta in *.
  split; [done|]. split; [exact H2|]. split; [exact H1|]. split; [|split].
  - intros Hall. apply H3. clear -Hall. induction Hall as [|t txns Ht _ IH]; [done|]. cbn [List.filter]. by rewrite Ht.
  - intros l1 t l2 w ty Hl Ht Hw Hl2 Hty. rewrite Hl in H2.
    assert (∃ w0, config_processLedger (nd_writes n) l1 = Ok w0) as Hw0.
    { unfold config_processLedger in *. rewrite res_fold_app in H2. apply res_bind_Ok in H2 as (w0 & ? & _). eauto. }
    rewrite (config_last_wins _ _ _ _ _ Ht Hw Hw0 Hl2) in H2. injection H2 as ->.
    unfold can_write_txn. by rewrite bool_decide_eq_false_2, orb_false_r.
  - intros Hr Hf. by apply (handle_all_reachable _ _ _ _ _ _ _ _ _ _ _ Hr Hf).
Qed.

Definition idle_node : NodeState (Ver := Z) (Q := list (Task Z)) :=
  mkNode (new_Upgrader Z.eqb (λ _, (Some 1%Z, [])) 5 [] []) (VBool true) [] [] [].

Definition stop_writes : Txn :=
  mkTxn POOL_CONFIG [(WRITES, VBool false)] (Some "T") (Some 3%Z) None None (Some 3%Z) (Some 10%Z).

(** A forced upgrade whose time is past: it was handled when it arrived. *)
Definition past_forced : Txn := upgrade_txn 7 START 3 "1".

Definition third_forced (t : Txn) : bool := py_eq (vget VERSION (get_payload_data t)) (VInt 3).

Lemma config_commit_replay_witness :
  let batch := [past_forced; upgrade_txn 1 START 2 "50"; stop_writes] in
  ∃ n', config_commit_batch Z.eqb int_version sample_parse third_forced sample_config "N1" 10
      batch idle_node = (Ok batch, n') ∧
    scheduledAction (nd_upgrader n') ≠ None ∧ can_write_txn (nd_writes n') NYM = false ∧
    reachable Z.eqb int_version (λ _, (Some 1%Z, [])) sample_parse third_forced sample_config "N1"
      (nd_upgrader n').
Proof.
  intros batch.
  assert (∃ n', config_commit_batch Z.eqb int_version sample_parse third_forced sample_config "N1" 10
      batch idle_node = (Ok batch, n') ∧
      scheduledAction (nd_upgrader n') ≠ None) as (n' & H & Hn)
    by (eexists; split; [vm_compute; reflexivity|discriminate]).
  exists n'. split; [exact H|]. split; [exact Hn|].
  destruct (config_commit_replay Z.eqb int_version (λ _, (Some 1%Z, [])) sample_parse third_forced sample_config
    "N1" 10 batch batch idle_node n' H) as (_ & _ & _ & _ & Hw & Hr). split.
  - apply (Hw [upgrade_txn 1 START 2 "50"] stop_writes [] (VBool false) NYM); try reflexivity; [constructor|].
    apply (bool_decide_unpack _). vm_compute. reflexivity.
  - apply Hr; [by apply reach_new|]. intros t Ht Hf d v w Hd Hv Hw'.
    repeat (apply elem_of_cons in Ht as [->|Ht]); [discriminate Hf| | |by apply not_elem_of_nil in Ht];
      vm_compute in Hd; [|discriminate].
    injection Hd as <-. vm_compute in Hv. injection Hv as <-. vm_compute in Hw'. injection Hw' as <-. lia.
Defined.

Lemma last_upgrade_succeeded {Ver Q} ver_eqb (curr_pkg_info : val → option Ver * list string)
    (u : UState (Q := Q)) e :
  last (actionLog u) = Some e →
  didLastExecutedUpgradeSucceeded ver_eqb curr_pkg_info u = true ↔
    ∃ cur, (curr_pkg_info (pkg_name (data e))).1 = Some cur ∧ ver_eqb cur (version (data e)) = true.
Proof.
  intros E. unfold didLastExecutedUpgradeSucceeded, lastActionEventInfo, last_event. rewrite E.
  destruct ((curr_pkg_info _).1) as [cur|]; split.
  - eauto.
  - by intros (? & [= <-] & ?).
  - done.
  - by intros (? & ? & _).
Qed.

(** Upgrades are reported: when a node has caught up and its last upgrade ended,
    exactly one NODE_UPGRADE is sent, about the version of the last entry of the
    upgrade log and COMPLETE exactly when that version is installed; the report never
    fails for want of an entry and is not sent twice.  And a waiting upgrade
    that starts is announced with the version that was scheduled. *)
Theorem upgrade_reported {Ver Q} ver_eqb (src_version : val → val → option Ver) curr_pkg_info parse_date
    is_forced `{!ActionQueue Q (Task Ver)} config nodeId ver_full signMsg signRequest key name (n : NodeState) :
  reachable ver_eqb src_version curr_pkg_info parse_date is_forced config nodeId (nd_upgrader n) →
  let acknowledge := acknowledge_upgrade ver_eqb curr_pkg_info ver_full signMsg signRequest key name in
  let report action ver :=
    signRequest (mkRequest None None (node_upgrade_op ver_full signMsg action ver) None None None) in
  (∃ n', acknowledge n = (Ok tt, n') ∧ acknowledge n' = (Ok tt, n') ∧
    if should_notify_about_upgrade (nd_upgrader n) then
      ∃ e action, last_event (actionLog (nd_upgrader n)) = Some e ∧
        nd_sent n' = nd_sent n ++ [report action (version (data e))] ∧
        (action = COMPLETE ∨ action = FAIL) ∧
        (action = COMPLETE ↔ ∃ cur, (curr_pkg_info (pkg_name (data e))).1 = Some cur ∧
                                    ver_eqb cur (version (data e)) = true)
    else n' = n) ∧
  (∀ d f, CallUpgradeAgent d f ∈ aqStash (queue (nd_upgrader n)) →
    ∃ n', notify_upgrade_start ver_full signMsg signRequest key name n = (Ok tt, n') ∧
      nd_sent n' = nd_sent n ++ [report IN_PROGRESS (version d)]).
Proof.
  intros Hr acknowledge report. split.
  - pose proof (reachable_reportable _ _ _ _ _ _ _ _ Hr) as Hrep. unfold reportable in Hrep.
    subst acknowledge. unfold acknowledge_upgrade at 1. destruct (should_notify_about_upgrade _) eqn:Ef.
    + specialize (Hrep eq_refl). unfold lastActionEventInfo, last_event.
      destruct (last (actionLog (nd_upgrader n))) as [e|] eqn:El.
      2:{ by apply last_None in El. }
      cbn [negb]. eexists. split; [reflexivity|]. split; [reflexivity|].
      exists e. eexists. split; [reflexivity|]. split; [reflexivity|].
      rewrite <- (last_upgrade_succeeded _ _ _ _ El).
      destruct (didLastExecutedUpgradeSucceeded _ _ _); split; eauto; done.
    + exists n. split; [reflexivity|]. split; [|done]. unfold acknowledge_upgrade. by rewrite Ef.
  - intros d f Hin. apply reachable_inv in Hr. destruct (up_calls _ Hr) as [Hc|(d' & f' & Hs & Hc)];
      assert (CallUpgradeAgent d f ∈ calls (queue (nd_upgrader n))) as Hin'
        by (unfold calls; by apply list_elem_of_filter); rewrite Hc in Hin'; [by apply not_elem_of_nil in Hin'|].
    apply list_elem_of_singleton in Hin'. injection Hin' as -> _.
    unfold notify_upgrade_start. rewrite Hs. by eexists.
Qed.

(** An upgrade of node "N1" to version 2 that was started, and the node after it. *)
Definition upgrade_done : UpgradeLogData Z := mkUpgradeLogData Z 50 2%Z "11" (VStr APP_NAME).
Definition upgrade_log : list (ActionLogEvent (UpgradeLogData Z)) :=
  [mkEvent _ 10 scheduled upgrade_done; mkEvent _ 50 started upgrade_done].
Definition version_2 (_ : val) : option Z * list string := (Some 2%Z, []).
Definition upgraded_node : NodeState (Ver := Z) (Q := list (Task Z)) :=
  mkNode (new_Upgrader Z.eqb version_2 55 upgrade_log []) (VBool true) [] [] [].

Definition run_start (n : UState (Ver := Z) (Q := list (Task Z))) : UState :=
  callUpgradeAgent 50 upgrade_done (VInt 10) (with_queue [] n).

Lemma upgraded_reachable :
  reachable Z.eqb int_version version_2 sample_parse (λ _, false) sample_config "N1" (nd_upgrader upgraded_node).
Proof.
  set (t := upgrade_txn 1 START 2 "50").
  assert (∃ s : UState (Ver := Z) (Q := list (Task Z)),
    handleUpgradeTxn Z.eqb int_version sample_parse (λ _, false) sample_config "N1" 10 t
      (new_Upgrader Z.eqb version_2 5 [] []) = Ok s ∧ aqStash (queue s) = [CallUpgradeAgent upgrade_done (VInt 10)] ∧
    actionLog (run_start s) = upgrade_log) as (s & Hs & Hq & Hl)
    by (eexists; split; [vm_compute; reflexivity|split; vm_compute; reflexivity]).
  assert (nd_upgrader upgraded_node = new_Upgrader Z.eqb version_2 55 (actionLog (run_start s)) []) as ->
    by (by rewrite Hl).
  eapply reach_step; [|by apply step_restart].
  eapply reach_step; [|apply (step_call _ _ _ _ _ _ _ 50 upgrade_done (VInt 10) [] [] []); [exact Hq|done]].
  eapply reach_step; [by apply (reach_new _ _ _ _ _ _ _ 5)|]. eapply step_txn; [|exact Hs].
  intros d v w Hd Hv Hw. vm_compute in Hd. injection Hd as <-. vm_compute in Hv. injection Hv as <-.
  vm_compute in Hw. injection Hw as <-. lia.
Qed.

Definition show_version (v : Z) : string := str_int v.
Definition unsigned (v : val) : val := VStr "sig".

Lemma upgrade_reported_witness :
  ∃ n', acknowledge_upgrade Z.eqb version_2 show_version unsigned id (λ _, "key") "N1" upgraded_node = (Ok tt, n') ∧
    nd_sent n' = [mkRequest None None (node_upgrade_op show_version unsigned COMPLETE 2%Z) None None None].
Proof.
  destruct (upgrade_reported Z.eqb int_version version_2 sample_parse (λ _, false) sample_config "N1"
    show_version unsigned id (λ _, "key") "N1" upgraded_node upgraded_reachable) as [(n' & H & _) _].
  exists n'. split; [exact H|]. vm_compute in H. injection H as <-. vm_compute. reflexivity.
Defined.

(** The report after catching up can be about the wrong upgrade: the ledger is
    processed first, and when it schedules the next upgrade the last entry of the log
    is that one.  A node that has upgraded to version 2 reports that it failed to
    upgrade to version 3, which is only scheduled, and nothing about version 2. *)
Example next_upgrade_reported_failed :
  ∃ n', postConfigLedgerCaughtUp Z.eqb int_version version_2 sample_parse (λ _, false) sample_config "N1"
      show_version unsigned id (λ _, "key") "N1" (ret tt) 60
      [upgrade_txn 1 START 2 "50"; upgrade_txn 2 START 3 "90"] upgraded_node = (Ok tt, n') ∧
    nd_sent n' = [mkRequest None None (node_upgrade_op show_version unsigned FAIL 3%Z) None None None] ∧
    option_map (λ d, version d) (scheduledAction (nd_upgrader n')) = Some 3%Z.
Proof. eexists. split; [vm_compute; reflexivity|]. split; vm_compute; reflexivity. Qed.

(** Only authentic reports of other nodes are spread: a request another node
    sends is propagated, under the name of its sender, at most once, and a
    NODE_UPGRADE only when the signature in it was checked against the author's key
    over its data; otherwise nothing changes. *)
Theorem node_request_checked {Ver Q} key authenticate request frm (n n' : NodeState (Ver := Ver) (Q := Q)) r :
  processNodeRequest key authenticate request frm n = (r, n') →
  n' = n ∨
  (nd_propagated n' = nd_propagated n ++ [(request, frm)] ∧ nd_upgrader n' = nd_upgrader n ∧
   (∃ frm', (key request, frm') ∈ nd_processing n') ∧
   (vget TXN_TYPE (operation request) = VStr NODE_UPGRADE →
     ∃ data sig, dget DATA (operation request) = Some data ∧ dget SIG (operation request) = Some sig ∧
       authenticate data (identifier request) sig = Ok tt)).
Proof.
  unfold processNodeRequest, act_bind, lift, dgetitem, vget. intros H.
  destruct (dget TXN_TYPE (operation request)) as [ty|]; [|by injection H as _ <-; left].
  destruct (_ && _) eqn:E; injection H as _ <-; [by left|right].
  split; [by case_bool_decide|]. split; [by case_bool_decide|]. split.
  - case_bool_decide as Hin; cbn.
    + apply list_elem_of_fmap in Hin as ([k f] & -> & Hin). eauto.
    + exists frm. by left.
  - intros ->. cbn [py_eq] in E. rewrite str_eqb_refl in E. apply negb_false_iff in E.
    unfold node_request_authentic, dgetitem in E.
    destruct (dget DATA (operation request)) as [d|]; [|done].
    destruct (dget SIG (operation request)) as [sig|]; [|done]. cbn [res_bind] in E.
    exists d, sig. destruct (authenticate d (identifier request) sig) as [[]|]; done.
Qed.

Lemma node_request_checked_witness :
  let r := mkRequest (Some "N2") None (node_upgrade_op show_version unsigned COMPLETE 2%Z) None None None in
  let n' := (processNodeRequest (λ _, "key") (λ _ _ _, Ok tt) r "N2" idle_node).2 in
  n' = idle_node ∨
  (nd_propagated n' = [(r, "N2")] ∧ nd_upgrader n' = nd_upgrader idle_node ∧
   (∃ frm', ("key", frm') ∈ nd_processing n') ∧
   (vget TXN_TYPE (operation r) = VStr NODE_UPGRADE →
     ∃ data sig, dget DATA (operation r) = Some data ∧ dget SIG (operation r) = Some sig ∧
       (λ _ _ _, Ok tt : res unit) data (identifier r) sig = Ok tt)).
Proof.
  intros r n'. apply (node_request_checked (λ _, "key") (λ _ _ _, Ok tt) r "N2" idle_node n' (Ok tt)).
  reflexivity.
Defined.

(** The data of an attribute survives the ledger: the transaction that is kept
    has the hash of a raw attribute in place of its data, and adding the extra data
    to it, with the attribute store the transaction left, gives back the data as the
    node serializes it, and nothing else changes. *)
Theorem attribute_restored {bytes St A} `{!Serializer bytes, !State bytes St, !StateCodec bytes,
    !AttributeStore A} sha256_hex sha256_hex_bytes raw_deserialize raw_serialize
    (state state' : St) (attrs attrs' : A) txn ltxn nym raw doc k x :
  (∀ d, raw_serialize d ≠ "") →
  get_type txn = ATTRIB → dget TARGET_NYM (get_payload_data txn) = Some (VStr nym) →
  dget RAW (get_payload_data txn) = Some raw →
  dget ENC (get_payload_data txn) = None → dget HASH (get_payload_data txn) = None →
  raw_deserialize raw = Ok (VDict (doc ++ [(k, x)])) →
  attrib_update_state sha256_hex sha256_hex_bytes raw_deserialize raw_serialize state attrs txn = Ok (state', attrs') →
  transform_txn_for_ledger sha256_hex sha256_hex_bytes raw_deserialize raw_serialize txn = Ok ltxn →
  let text := VStr (raw_serialize (VDict (doc ++ [(k, x)]))) in
  ∃ txn', update_txn_with_extra_data attrs' ltxn = Ok txn' ∧
    dget RAW (get_payload_data txn') = Some text ∧
    (∀ j, j ≠ RAW → dget j (get_payload_data txn') = dget j (get_payload_data txn)) ∧
    with_payload_data txn' (get_payload_data txn) = txn.
Proof.
  intros Hser Hty Hnym Hraw Henc Hhash Hdoc Hup Htr text.
  pose proof (parse_raw raw_deserialize raw_serialize _ raw doc k x Hraw Henc Hhash Hdoc) as Hparse.
  rewrite (raw_update _ _ _ _ state attrs txn nym raw doc k x) in Hup by done. injection Hup as _ <-.
  unfold transform_txn_for_ledger in Htr. rewrite Hparse in Htr. cbn [res_bind] in Htr.
  rewrite bool_decide_eq_true_2 in Htr by by left. injection Htr as <-.
  unfold hashed_value_of. rewrite (proj2 (py_truth_str _) (Hser _)).
  unfold update_txn_with_extra_data, vget. cbn [with_payload_data get_type get_payload_data].
  rewrite Hty, str_eqb_refl, !dget_dset_eq. cbn [is_none negb hash_of]. rewrite dget_dset_eq, as_get_set_eq.
  cbn [res_bind]. eexists. split; [reflexivity|]. cbn [with_payload_data get_payload_data].
  rewrite dget_dset_eq. split; [done|]. split; [|by destruct txn].
  intros j Hj. by rewrite !dget_dset_ne by done.
Qed.

Lemma attribute_restored_witness :
  ∃ state' attrs' ltxn txn',
    attrib_update_state (λ s, "h" +:+ s) (λ _, "h") (λ _, Ok two_keys) (λ _, "text")
      (∅ : gmap string val) (∅ : gmap string val) sample_attr_txn = Ok (state', attrs') ∧
    transform_txn_for_ledger (λ s, "h" +:+ s) (λ _ : val, "h") (λ _, Ok two_keys) (λ _, "text")
      sample_attr_txn = Ok ltxn ∧
    update_txn_with_extra_data attrs' ltxn = Ok txn' ∧ dget RAW (get_payload_data txn') = Some (VStr "text").
Proof.
  assert (∃ state' attrs' ltxn,
    attrib_update_state (λ s, "h" +:+ s) (λ _, "h") (λ _, Ok two_keys) (λ _, "text")
      (∅ : gmap string val) (∅ : gmap string val) sample_attr_txn = Ok (state', attrs') ∧
    transform_txn_for_ledger (λ s, "h" +:+ s) (λ _ : val, "h") (λ _, Ok two_keys) (λ _, "text")
      sample_attr_txn = Ok ltxn) as (state' & attrs' & ltxn & H1 & H2)
    by (eexists _, _, _; split; vm_compute; reflexivity).
  exists state', attrs', ltxn.
  destruct (attribute_restored (λ s, "h" +:+ s) (λ _, "h") (λ _, Ok two_keys) (λ _, "text") ∅ state' ∅ attrs'
    sample_attr_txn ltxn "O" (VStr "json") [("endpoint", VStr "here")] "name" (VStr "there")
    ltac:(intros; discriminate) eq_refl eq_refl eq_refl eq_refl eq_refl eq_refl H1 H2) as (txn' & H3 & H4 & _).
  exists txn'. exact (conj H1 (conj H2 (conj H3 H4))).
Defined.

(** The rules written by [add_auth_rules_to_config_state] are not read: they are kept
    under the identifier of the rule, and the policy of the configuration ledger looks
    under a path with a marker, so what it decides stays as it was. *)
Theorem seeded_rules_not_read {bytes St} `{!Serializer bytes, !State bytes St} m (state : St) metrics n action_id :
  Forall (λ k, ∀ j, k ≠ make_state_path_for_auth_rule j) (dkeys m) →
  ledger_get_auth_constraint m (add_auth_rules_to_config_state m state) metrics n action_id =
    ledger_get_auth_constraint m state metrics n action_id.
Proof.
  intros Hm. assert (∀ j, st_get (add_auth_rules_to_config_state m state) (make_state_path_for_auth_rule j) =
    st_get state (make_state_path_for_auth_rule j)) as Hget.
  { intros j. unfold add_auth_rules_to_config_state, dkeys in *. revert state.
    induction m as [|[k c] m IH]; intros state; [done|]. apply Forall_cons in Hm as [Hk Hm]. cbn [foldl].
    rewrite IH by done. match goal with |- st_get (if ?b then _ else _) _ = _ => destruct b end; [done|].
    apply st_get_set_ne. by apply Hk. }
  unfold ledger_get_auth_constraint, get_from_state.
  destruct (find_auth_constraint_key _ _) as [[k|]|]; cbn [res_bind]; [|done..].
  by rewrite Hget.
Qed.

Lemma seeded_rules_not_read_witness :
  ledger_get_auth_constraint auth_map (add_auth_rules_to_config_state auth_map (∅ : gmap string val)) false 0
    "0--ADD--*--*--*" = ledger_get_auth_constraint auth_map (∅ : gmap string val) false 0 "0--ADD--*--*--*".
Proof.
  apply (seeded_rules_not_read auth_map (∅ : gmap string val) false 0 "0--ADD--*--*--*").
  apply Forall_forall. intros k Hk j ->.
  assert (forallb (λ k, negb (String.prefix "1:" k)) (dkeys auth_map) = true) as H by (vm_compute; reflexivity).
  rewrite forallb_forall in H. apply list_elem_of_In in Hk. apply H in Hk. vm_compute in Hk. destruct j; discriminate Hk.
Defined.
