(* ===== verification/Bootstrap.v ===== *)
(** * What a node registers

    [indy_node/server/node_bootstrap.py]: the stores, the validator of writes and the
    request handlers a node hands to the managers of plenum, in the order of the calls.

    The calls are data here: a list of registrations.  What a manager does with them is
    plenum's.  The properties compare the list with the tables of the other components:
    the message schemas and the default authorization rules. *)
From S2P Require Import Prelude PyValue Plenum Constants AuthActions AuthConstraints AuthMap StateDomain FlagHandler RichSchema ReadHandlers MessageSchemas.

(** ** Handlers *)

Inductive Handler :=
| NodeHandler
| NymHandler | AttributeHandler | SchemaHandler | ClaimDefHandler | RevocRegDefHandler | RevocRegEntryHandler
| JsonLdContextHandler | RichSchemaHandler | RichSchemaEncodingHandler | RichSchemaMappingHandler
| RichSchemaCredDefHandler | RichSchemaPresDefHandler | IdrCacheNymHandler
| GetNymHandler | GetAttributeHandler | GetSchemaHandler | GetClaimDefHandler | GetRevocRegDefHandler
| GetRevocRegHandler | GetRevocRegDeltaHandler | GetRichSchemaObjectByIdHandler | GetRichSchemaObjectByMetadataHandler
| AuthRuleHandler | AuthRuleHandler191 | AuthRulesHandler | PoolConfigHandler | PoolUpgradeHandler
| TxnAuthorAgreementAmlHandler | TxnAuthorAgreementHandler | TxnAuthorAgreementHandlerV1
| TxnAuthorAgreementDisableHandler | NodeUpgradeHandler | LedgersFreezeHandler | FlagRequestHandler
| GetAuthRuleHandler | GetTxnAuthorAgreementAmlHandler | GetTxnAuthorAgreementHandler | GetFrozenLedgersHandler
| GetFlagRequestHandler
| PoolRestartHandler | ValidatorInfoHandler.

#[export] Instance Handler_eq_dec : EqDecision Handler.
Proof. solve_decision. Defined.

(** The transaction type a handler is constructed with; plenum's own query handlers have
    theirs from plenum. *)
Definition txn_type (h : Handler) : option string :=
  match h with
  | NodeHandler => Some NODE
  | NymHandler | IdrCacheNymHandler => Some NYM
  | AttributeHandler => Some ATTRIB
  | SchemaHandler => Some SCHEMA
  | ClaimDefHandler => Some CLAIM_DEF
  | RevocRegDefHandler => Some REVOC_REG_DEF
  | RevocRegEntryHandler => Some REVOC_REG_ENTRY
  | JsonLdContextHandler => Some JSON_LD_CONTEXT
  | RichSchemaHandler => Some RICH_SCHEMA
  | RichSchemaEncodingHandler => Some RICH_SCHEMA_ENCODING
  | RichSchemaMappingHandler => Some RICH_SCHEMA_MAPPING
  | RichSchemaCredDefHandler => Some RICH_SCHEMA_CRED_DEF
  | RichSchemaPresDefHandler => Some RICH_SCHEMA_PRES_DEF
  | GetNymHandler => Some GET_NYM
  | GetAttributeHandler => Some GET_ATTR
  | GetSchemaHandler => Some GET_SCHEMA
  | GetClaimDefHandler => Some GET_CLAIM_DEF
  | GetRevocRegDefHandler => Some GET_REVOC_REG_DEF
  | GetRevocRegHandler => Some GET_REVOC_REG
  | GetRevocRegDeltaHandler => Some GET_REVOC_REG_DELTA
  | GetRichSchemaObjectByIdHandler => Some GET_RICH_SCHEMA_OBJECT_BY_ID
  | GetRichSchemaObjectByMetadataHandler => Some GET_RICH_SCHEMA_OBJECT_BY_METADATA
  | AuthRuleHandler | AuthRuleHandler191 => Some AUTH_RULE
  | AuthRulesHandler => Some AUTH_RULES
  | PoolConfigHandler => Some POOL_CONFIG
  | PoolUpgradeHandler => Some POOL_UPGRADE
  | TxnAuthorAgreementAmlHandler => Some TXN_AUTHOR_AGREEMENT_AML
  | TxnAuthorAgreementHandler | TxnAuthorAgreementHandlerV1 => Some TXN_AUTHOR_AGREEMENT
  | TxnAuthorAgreementDisableHandler => Some TXN_AUTHOR_AGREEMENT_DISABLE
  | NodeUpgradeHandler => Some NODE_UPGRADE
  | LedgersFreezeHandler => Some LEDGERS_FREEZE
  | FlagRequestHandler => Some FLAG
  | GetAuthRuleHandler => Some GET_AUTH_RULE
  | GetTxnAuthorAgreementAmlHandler | GetTxnAuthorAgreementHandler | GetFrozenLedgersHandler => None
  | GetFlagRequestHandler => Some GET_FLAG
  | PoolRestartHandler => Some POOL_RESTART
  | ValidatorInfoHandler => Some VALIDATOR_INFO
  end.

Inductive BatchHandler := IdrCacheBatchHandler | ConfigBatchHandler.

(** ** Registrations *)

(** The managers of plenum. *)
Inductive Manager := write_manager | read_manager | action_manager.

#[export] Instance Manager_eq_dec : EqDecision Manager.
Proof. solve_decision. Defined.

(** [with_validator]: the handler is given the node's validator of writes. *)
Inductive Registration :=
| register_req_handler (m : Manager) (h : Handler) (with_validator : bool)
| register_req_handler_with_version (h : Handler) (version : string) (with_validator : bool)
| register_action_handler (h : Handler) (with_validator : bool)
| register_batch_handler (h : BatchHandler).

Inductive Store := IDR_CACHE_LABEL | ATTRIB_LABEL.

(** [NodeBootstrap], the calls in their order. *)
Definition init_storages : list Store := [IDR_CACHE_LABEL; ATTRIB_LABEL].

Definition register_pool_req_handlers : list Registration := [register_req_handler write_manager NodeHandler true].

Definition register_idr_cache_nym_handler : list Registration :=
  [register_req_handler write_manager IdrCacheNymHandler false].

Definition register_domain_req_handlers : list Registration :=
  [register_req_handler write_manager NymHandler true;
   register_req_handler write_manager AttributeHandler true;
   register_req_handler write_manager SchemaHandler true;
   register_req_handler write_manager ClaimDefHandler true;
   register_req_handler write_manager RevocRegDefHandler true;
   register_req_handler write_manager RevocRegEntryHandler true;
   register_req_handler write_manager JsonLdContextHandler true;
   register_req_handler write_manager RichSchemaHandler true;
   register_req_handler write_manager RichSchemaEncodingHandler true;
   register_req_handler write_manager RichSchemaMappingHandler true;
   register_req_handler write_manager RichSchemaCredDefHandler true;
   register_req_handler write_manager RichSchemaPresDefHandler true] ++
  register_idr_cache_nym_handler ++
  [register_req_handler read_manager GetNymHandler false;
   register_req_handler read_manager GetAttributeHandler false;
   register_req_handler read_manager GetSchemaHandler false;
   register_req_handler read_manager GetClaimDefHandler false;
   register_req_handler read_manager GetRevocRegDefHandler false;
   register_req_handler read_manager GetRevocRegHandler false;
   register_req_handler read_manager GetRevocRegDeltaHandler false;
   register_req_handler read_manager GetRichSchemaObjectByIdHandler false;
   register_req_handler read_manager GetRichSchemaObjectByMetadataHandler false].

Definition register_config_req_handlers : list Registration :=
  [register_req_handler write_manager AuthRuleHandler true;
   register_req_handler write_manager AuthRulesHandler true;
   register_req_handler write_manager PoolConfigHandler true;
   register_req_handler write_manager PoolUpgradeHandler true;
   register_req_handler write_manager TxnAuthorAgreementAmlHandler true;
   register_req_handler write_manager TxnAuthorAgreementHandler true;
   register_req_handler write_manager TxnAuthorAgreementDisableHandler true;
   register_req_handler write_manager NodeUpgradeHandler false;
   register_req_handler write_manager LedgersFreezeHandler true;
   register_req_handler write_manager FlagRequestHandler true;
   register_req_handler read_manager GetAuthRuleHandler true;
   register_req_handler read_manager GetTxnAuthorAgreementAmlHandler false;
   register_req_handler read_manager GetTxnAuthorAgreementHandler false;
   register_req_handler read_manager GetFrozenLedgersHandler false;
   register_req_handler read_manager GetFlagRequestHandler false;
   register_req_handler_with_version AuthRuleHandler191 "1.9.1" true;
   register_req_handler_with_version TxnAuthorAgreementHandlerV1 "1" true].

Definition register_action_req_handlers : list Registration :=
  [register_action_handler PoolRestartHandler true; register_action_handler ValidatorInfoHandler true].

Definition register_idr_cache_batch_handler : list Registration := [register_batch_handler IdrCacheBatchHandler].

(** [plenum] are the batch handlers plenum registers for the domain ledger. *)
Definition register_domain_batch_handlers (plenum : list Registration) : list Registration :=
  plenum ++ register_idr_cache_batch_handler.

Definition register_config_batch_handlers : list Registration := [register_batch_handler ConfigBatchHandler].

Definition registrations : list Registration :=
  register_pool_req_handlers ++ register_domain_req_handlers ++ register_config_req_handlers ++
  register_action_req_handlers.

(** ** Views *)

Definition of_manager (m : Manager) (r : Registration) : option (Handler * bool) :=
  match r with
  | register_req_handler m' h v => if decide (m = m') then Some (h, v) else None
  | register_action_handler h v => if decide (m = action_manager) then Some (h, v) else None
  | _ => None
  end.

(** The handlers of a manager for a type, in the order of registration. *)
Definition handlers_for (m : Manager) (t : string) : list Handler :=
  filter (λ h, txn_type h = Some t) (omap (λ r, fst <$> of_manager m r) registrations).

Definition types_of (m : Manager) : list string := omap (λ r, of_manager m r ≫= λ hv, txn_type hv.1) registrations.

(** The types of the rules of the default authorization map. *)
Definition action_type (a : AuthAction) : string :=
  match a with ActionAdd t _ _ _ | ActionEdit t _ _ _ _ => t end.

Definition rule_types : list string := map (λ ac, action_type ac.1) auth_map_entries.

(** The types that requests come with. *)
Definition handled : list string := types_of write_manager ++ types_of read_manager ++ types_of action_manager.

(** The handlers that are given the validator of writes. *)
Definition validated (m : Manager) (t : string) : list Handler :=
  filter (λ h, txn_type h = Some t)
    (omap (λ r, of_manager m r ≫= λ hv : Handler * bool, if hv.2 then Some hv.1 else None) registrations).


(** ** Properties *)

(** The tables of the node fit together.  Every type of the default authorization
    rules has a handler for writes or actions that is given the validator of writes, and
    every such type but NODE_UPGRADE, whose requests come from nodes, has a rule.  A type
    has one handler, but NYM: there the cache follows the NYM handler.  Every operation
    with a message schema has a handler, but DISCLO. *)
Theorem tables_fit :
  (∀ t, t ∈ rule_types → ∃ h, validated write_manager t ++ validated action_manager t = [h]) ∧
  (∀ t, t ∈ types_of write_manager ++ types_of action_manager → t ∈ rule_types ∨ t = NODE_UPGRADE) ∧
  handlers_for write_manager NYM = [NymHandler; IdrCacheNymHandler] ∧
  (∀ t, t ∈ handled → t ≠ NYM → length (filter (λ u, u = t) handled) = 1) ∧
  (∀ t, t ∈ dkeys specific_operations → t ∈ handled ∨ t = DISCLO).
Proof.
  split; [|split; [|split; [|split]]].
  - intros t Ht. assert (length (validated write_manager t ++ validated action_manager t) = 1) as Hlen.
    { revert t Ht. apply Forall_forall, (bool_decide_unpack _). by vm_compute. }
    destruct (validated write_manager t ++ validated action_manager t) as [|h [|]]; try done. by exists h.
  - apply Forall_forall, (bool_decide_unpack _). by vm_compute.
  - by vm_compute.
  - intros t Ht Hne. assert (t = NYM ∨ length (filter (λ u, u = t) handled) = 1) as [?|?]; [|done|done].
    clear Hne. revert t Ht. apply Forall_forall, (bool_decide_unpack _). by vm_compute.
  - apply Forall_forall, (bool_decide_unpack _). by vm_compute.
Qed.
