(* ===== verification/LegacyAuth.v ===== *)
(** * The former authoriser and the identities of clients

    [indy_common/auth.py]: a fixed map from actions to roles, which the handlers asked
    before the authorization rules were kept on the ledger; the NYM handler still uses
    its list of roles.  [indy_common/identity.py]: the identity a client makes NYM and
    GET_NYM requests for.

    The theorems compare the map with the default authorization rules, for requests that
    only their author signs, and show that what a client makes passes the validation of
    the node. *)
From S2P Require Import Prelude PyValue Plenum Constants AuthActions AuthConstraints Authorizer AuthorizerSpec AuthStrategy AuthMap StateDomain IdrCache HandlerBase NymHandler.

(** ** The map *)

(** A role is [None] for an identity owner. *)
Abbreviation role := (option string).

Definition OWNER : string := "<owner>".

Definition py_format_role (r : role) : string := match r with Some s => s | None => "None" end.

Definition T : role := Some TRUSTEE.
Definition S' : role := Some STEWARD.
Definition E' : role := Some ENDORSER.

Definition generate_auth_map (valid_roles : list role) : list (string * list (role * list string)) :=
  [(NYM +:+ "_role__" +:+ TRUSTEE, [(T, [])]);
   (NYM +:+ "_role__" +:+ STEWARD, [(T, [])]);
   (NYM +:+ "_role__" +:+ ENDORSER, [(T, []); (S', [])]);
   (NYM +:+ "_role__", [(T, []); (S', []); (E', [])]);
   (NYM +:+ "_role_" +:+ TRUSTEE +:+ "_", [(T, [])]);
   (NYM +:+ "_role_" +:+ STEWARD +:+ "_", [(T, [])]);
   (NYM +:+ "_role_" +:+ ENDORSER +:+ "_", [(T, [])]);
   (SCHEMA +:+ "_<any>_<any>_<any>", [(T, []); (S', []); (E', [])]);
   (CLAIM_DEF +:+ "_<any>_<any>_<any>", [(T, [OWNER]); (S', [OWNER]); (E', [OWNER])]);
   (NYM +:+ "_verkey_<any>_<any>", map (λ r, (r, [OWNER])) valid_roles);
   (NODE +:+ "_services__[VALIDATOR]", [(S', [OWNER])]);
   (NODE +:+ "_services_[VALIDATOR]_[]", [(T, []); (S', [OWNER])]);
   (NODE +:+ "_services_[]_[VALIDATOR]", [(T, []); (S', [OWNER])]);
   (NODE +:+ "_node_ip_<any>_<any>", [(S', [OWNER])]);
   (NODE +:+ "_node_port_<any>_<any>", [(S', [OWNER])]);
   (NODE +:+ "_client_ip_<any>_<any>", [(S', [OWNER])]);
   (NODE +:+ "_client_port_<any>_<any>", [(S', [OWNER])]);
   (NODE +:+ "_blskey_<any>_<any>", [(S', [OWNER])]);
   (POOL_UPGRADE +:+ "_action__start", [(T, [])]);
   (POOL_UPGRADE +:+ "_action_start_cancel", [(T, [])]);
   (POOL_RESTART +:+ "_action_<any>_<any>", [(T, [])]);
   (POOL_CONFIG +:+ "_action_<any>_<any>", [(T, [])]);
   (VALIDATOR_INFO +:+ "_<any>_<any>_<any>", [(T, []); (S', [])]);
   (LEDGERS_FREEZE +:+ "_<any>_<any>_<any>", [(T, [])])].

Definition ValidRoles : list role := [T; S'; E'; Some NETWORK_MONITOR; None].

(** [Roles[roleName].value] *)
Definition getRoleFromName (roleName : string) : res role :=
  if str_truth roleName
  then match dget roleName Roles with Some r => Ok r | None => Raise (KeyError roleName) end
  else Ok None.

Definition isValidRoleName (roleName : string) : bool :=
  if str_truth roleName then is_Ok (getRoleFromName roleName) else true.

Fixpoint without_char (c : Ascii.ascii) (s : string) : string :=
  match s with
  | "" => ""
  | String a s' => if Ascii.eqb a c then without_char c s' else String a (without_char c s')
  end.

(** [str(v)] without quotes of either kind, and nothing for [None]. *)
Definition unquoted (v : val) : string :=
  match v with VNone => "" | _ => without_char squote (without_char dquote (py_str v)) end.

Fixpoint role_details (r : role) (roles : list (role * list string)) : option (list string) :=
  match roles with
  | [] => None
  | (r', d) :: roles' => if bool_decide (r = r') then Some d else role_details r roles'
  end.

(** The answer is [None] where the code returns the value of [isActorOwnerOfSubject] that
    was not given. *)
Definition authorised (typ : string) (actorRole : role) (field : option string) (oldVal newVal : val)
    (isActorOwnerOfSubject : option bool) : res (option bool * string) :=
  let auth_map := generate_auth_map ValidRoles in
  let f := or_empty field in
  let key := py_join "_" [typ; f; unquoted oldVal; unquoted newVal] in
  let any_value := py_join "_" [typ; f; "<any>"; "<any>"] in
  let any_field := py_join "_" [typ; "<any>"; "<any>"; "<any>"] in
  match match dget key auth_map with
        | Some roles => Some roles
        | None => match dget any_value auth_map with
                  | Some roles => Some roles
                  | None => dget any_field auth_map
                  end
        end with
  | None => Ok (Some false, "key '" +:+ key +:+ "' not found in authorized map")
  | Some roles =>
      match role_details actorRole roles with
      | None =>
          let! names := res_mapM (λ p : role * list string, nameFromValue p.1) roles in
          let! name := nameFromValue actorRole in
          Ok (Some false, name +:+ " not in allowed roles " +:+ py_str (VList (map VStr names)))
      | Some [] => Ok (Some true, "")
      | Some details =>
          let r := if existsb (str_eqb OWNER) details then isActorOwnerOfSubject else Some false in
          Ok (r, match r with Some true => "" | _ => "Only owner is allowed" end)
      end
  end.

(** ** Identities *)

(** [seqNo] and [last_synced] are kept for the caller. *)
Record Identity := mkIdentity {
  id_identifier : string;
  id_verkey : option string;
  id_endorser : option string;
  id_role : option string;
  id_last_synced : option Z;
  id_seqNo : option Z
}.

Definition NULL : string := "null".

Definition correctRole (r : option string) : option string :=
  match r with Some s => if str_eqb s NULL then None else Some s | None => None end.

Definition is_valid_role (r : role) : bool := bool_decide (r ∈ ValidRoles).

(** The constructor; [DidIdentity] of plenum gives the identifier and the key. *)
Definition new_Identity (identifier : string) (endorser verkey r : option string) (last_synced seq_no : option Z)
    : res Identity :=
  if is_valid_role (correctRole r)
  then Ok (mkIdentity identifier verkey endorser r last_synced seq_no)
  else Raise AttributeError.

(** The setter of [role]. *)
Definition set_role (i : Identity) (r : option string) : res Identity :=
  if is_valid_role (correctRole r)
  then Ok (mkIdentity (id_identifier i) (id_verkey i) (id_endorser i) r (id_last_synced i) (id_seqNo i))
  else Raise AttributeError.

Definition set_verkey (i : Identity) (v : option string) : Identity :=
  mkIdentity (id_identifier i) v (id_endorser i) (id_role i) (id_last_synced i) (id_seqNo i).

Definition op (i : Identity) : dict val :=
  [(TXN_TYPE, VStr NYM); (TARGET_NYM, VStr (id_identifier i))] ++
  match id_verkey i with
  | Some v => [(VERKEY, if str_eqb v "" then VNone else VStr v)]
  | None => []
  end ++
  match id_role i with
  | Some r => if str_truth r then [(ROLE, opt_str (correctRole (Some r)))] else []
  | None => []
  end.

Definition op_for_get (i : Identity) : dict val := [(TARGET_NYM, VStr (id_identifier i)); (TXN_TYPE, VStr GET_NYM)].

Definition no_seq_no (i : Identity) : bool := match id_seqNo i with Some n => Z.eqb n 0 | None => true end.

Definition ledgerRequest (i : Identity) : option Request :=
  if no_seq_no i then Some (mkRequest (id_endorser i) None (op i) None None None) else None.

Definition getRequest (i : Identity) (requestAuthor : string) : option Request :=
  if no_seq_no i then Some (mkRequest (Some requestAuthor) None (op_for_get i) None None None) else None.

(** ** Lemmas: requests with one signature *)

(** The role as the identity cache gives it. *)
Definition stored_role (r : role) : string := or_empty r.

Definition role_matches (actor : role) (role : option string) : bool :=
  match role with None => bool_decide (actor = None) | Some r => str_eqb r "*" || bool_decide (actor = Some r) end.

(** Whether a rule lets a request pass that only its author signs. *)
Fixpoint allows (actor : role) (owner : bool) (c : constraint) : bool :=
  match c with
  | AuthConstraintForbidden => false
  | AuthConstraint role (VInt n) need_to_be_owner off_ledger _ =>
      (negb (py_truth need_to_be_owner) || owner) &&
      Z.leb n (if py_truth off_ledger || role_matches actor role then 1 else 0)
  | AuthConstraint _ _ _ _ _ => false
  | AuthConstraintAnd cs => forallb (allows actor owner) cs
  | AuthConstraintOr cs => existsb (allows actor owner) cs
  end.

(** Signed by the author alone. *)
Definition single (r : Request) (author : string) : Prop :=
  identifier r = Some author ∧ has_signature r = true ∧ signers r = [] ∧ endorser r = None.

Lemma allows_satisfies getRole `{!RoleCache getRole} r author a actor c :
  single r author → role_of getRole author = Some (stored_role actor) →
  allows actor (action_is_owner a) c = true → satisfies getRole r author a c.
Proof.
  intros (Hid & Hsig & Hno & Hend) Hrole. induction c as [|role n need off m|cs IH|cs IH] using constraint_ind'; cbn; intros Hc.
  - done.
  - destruct n as [| |n| | |]; try discriminate. apply andb_true_iff in Hc as [Hown Hn%Z.leb_le].
    exists n. split; [done|]. split.
    + split; [|split].
      * intros Hneed. by rewrite Hneed in Hown.
      * intros _. split; [right; by rewrite Hrole|]. by rewrite Hno.
      * unfold sig_weight. rewrite Hsig. destruct (py_truth off); [done|]. cbn [orb] in *.
        destruct (role_matches actor role) eqn:Em; [|case_bool_decide; lia].
        rewrite bool_decide_true; [done|]. unfold role_matches, has_role in *. rewrite Hrole.
        destruct role as [r0|]; [|by apply bool_decide_eq_true in Em as ->].
        destruct (str_eqb r0 "*"); [done|]. by apply bool_decide_eq_true in Em as ->.
    + unfold endorser_ok, endorsed. rewrite Hend, Hno. tauto.
  - induction IH as [|c cs Hh _ IHcs]; cbn in *; [done|]. apply andb_true_iff in Hc as [H1 H2]. split; [by apply Hh|by apply IHcs].
  - induction IH as [|c cs Hh _ IHcs]; cbn in *; [done|]. apply orb_true_iff in Hc as [H1|H2]; [left; by apply Hh|right; by apply IHcs].
Qed.

(** ** Lemmas: the two maps *)

(** The parts of an action as the former authoriser is asked about it. *)
Definition legacy_value (s : string) : val :=
  if str_eqb s "" then VNone else if str_eqb s "*" then VStr "<any>" else VStr s.

Definition legacy_field (s : string) : string := if str_eqb s "*" then "<any>" else s.

Definition legacy_answer (a : AuthAction) (actor : role) (owner : bool) : res (option bool * string) :=
  match a with
  | ActionAdd t f v _ => authorised t actor (Some (legacy_field f)) VNone (legacy_value v) (Some owner)
  | ActionEdit t f o v _ => authorised t actor (Some (legacy_field f)) (legacy_value o) (legacy_value v) (Some owner)
  end.

Definition with_owner (a : AuthAction) (owner : bool) : AuthAction :=
  match a with
  | ActionAdd t f v _ => ActionAdd t f v owner
  | ActionEdit t f o v _ => ActionEdit t f o v owner
  end.

Definition legacy_allows (a : AuthAction) (actor : role) (owner : bool) : bool :=
  match legacy_answer a actor owner with Ok (Some true, _) => true | _ => false end.

(** Where the former map allowed more: it did not tell an edit from an addition. *)
Definition legacy_exceptions : list AuthAction :=
  [edit_schema; edit_frozen_ledgers; edit_role_action IDENTITY_OWNER IDENTITY_OWNER].

#[export] Instance AuthAction_eq_dec : EqDecision AuthAction.
Proof. solve_decision. Defined.

(** The former map allows nothing that the rules forbid, but for the entries left out. *)
Definition entry_fits (ac : AuthAction * constraint) : bool :=
  bool_decide (ac.1 ∈ legacy_exceptions) ||
  forallb (λ actor, forallb (λ owner, implb (legacy_allows ac.1 actor owner) (allows actor owner ac.2)) [true; false]) ValidRoles.

Lemma entries_fit : forallb entry_fits auth_map_entries = true.
Proof. by vm_compute. Qed.

Lemma entries_typed : forallb (λ ac, typed_check ac.2) auth_map_entries = true.
Proof. by vm_compute. Qed.

(** The two lists of roles are the same. *)
Lemma is_valid_role_spec o : is_valid_role o = isValidRole (opt_str o).
Proof.
  unfold is_valid_role. destruct (bool_decide_reflect (o ∈ ValidRoles)) as [Hin|Hout]; symmetry.
  - unfold ValidRoles in Hin. rewrite !elem_of_cons in Hin.
    destruct Hin as [->|[->|[->|[->|[->|Hn]]]]]; try reflexivity. by apply not_elem_of_nil in Hn.
  - destruct (isValidRole (opt_str o)) eqn:E; [|done]. exfalso. apply Hout.
    unfold isValidRole, NymHandler.ValidRoles in E. destruct o as [s|]; [|by apply (list_elem_of_lookup_2 _ 4)].
    cbn in E. rewrite !orb_true_iff, !str_eqb_eq in E. destruct E as [->|[->|[->|[->|E]]]]; try done.
    + by apply (list_elem_of_lookup_2 _ 0).
    + by apply (list_elem_of_lookup_2 _ 1).
    + by apply (list_elem_of_lookup_2 _ 2).
    + by apply (list_elem_of_lookup_2 _ 3).
Qed.

(** An operation has no fields besides the four. *)
Lemma op_other i k : k ≠ TXN_TYPE → k ≠ TARGET_NYM → k ≠ VERKEY → k ≠ ROLE → dget k (op i) = None.
Proof.
  intros H1 H2 H3 H4. destruct i as [n v e r l q]. unfold op.
  destruct v as [v|], r as [s|]; cbn -[TXN_TYPE TARGET_NYM VERKEY ROLE];
    rewrite ?(proj2 (str_eqb_neq _ _)) by done; try done; destruct (str_truth s); cbn -[TXN_TYPE TARGET_NYM VERKEY ROLE];
    by rewrite ?(proj2 (str_eqb_neq _ _)) by done.
Qed.

(** ** Properties *)

(** C34. The default rules are no stricter than the map they replace: what the former
    authoriser allowed an actor of some role, on any action of the default rules but the
    editing of schemas, the freezing of ledgers and a role that stays empty, the composite authorizer lets pass
    under the rule of that action, for a request that the actor alone signs. *)
Theorem default_rules_keep_permissions getRole `{!RoleCache getRole} r author a c actor owner m :
  (a, c) ∈ auth_map_entries → a ∉ legacy_exceptions → actor ∈ ValidRoles →
  legacy_answer a actor owner = Ok (Some true, m) →
  single r author → role_of getRole author = Some (stored_role actor) →
  authorize getRole default_authorizers r (with_owner a owner) c = Ok (true, "").
Proof.
  intros Hin Hs Hv Hl Hr Hrole. pose proof entries_fit as Hfit. pose proof entries_typed as Hty.
  rewrite forallb_forall in Hfit, Hty. apply list_elem_of_In in Hin. specialize (Hfit _ Hin). specialize (Hty _ Hin).
  cbn [snd] in Hty.
  destruct (authorize_grants getRole r author (with_owner a owner) c (proj1 Hr) (typed_check_sound c Hty))
    as [[-> _]|(reason & _ & Hno)]; [done|]. exfalso. apply Hno.
  apply (allows_satisfies getRole r author (with_owner a owner) actor c Hr Hrole). unfold entry_fits in Hfit. apply orb_true_iff in Hfit as [Hd%bool_decide_eq_true|Hfit].
  { done. }
  rewrite forallb_forall in Hfit. specialize (Hfit actor ltac:(by apply list_elem_of_In)). rewrite forallb_forall in Hfit.
  specialize (Hfit owner ltac:(destruct owner; cbn; tauto)). cbn [fst snd] in Hfit. unfold legacy_allows in Hfit. rewrite Hl in Hfit.
  cbn [implb] in Hfit. by destruct a.
Qed.

Lemma default_rules_keep_permissions_witness :
  authorize small_ledger default_authorizers (mkRequest (Some "S") (Some 1%Z) [] (Some "sig") None None)
    (with_owner promote_node true) trustee_or_owner_steward = Ok (true, "").
Proof.
  refine (default_rules_keep_permissions small_ledger (mkRequest (Some "S") (Some 1%Z) [] (Some "sig") None None) "S"
    promote_node trustee_or_owner_steward S' true "" _ _ _ eq_refl _ eq_refl).
  - apply (list_elem_of_lookup_2 _ 31). reflexivity.
  - apply (bool_decide_unpack _). vm_compute. reflexivity.
  - apply (list_elem_of_lookup_2 _ 1). reflexivity.
  - repeat split; reflexivity.
Defined.

(** Where the former map allowed more. *)
Lemma legacy_edits_schemas :
  legacy_answer edit_schema E' false = Ok (Some true, "") ∧ allows E' true no_one_constraint = false.
Proof. by vm_compute. Qed.

(** What a client makes of an identity with a name passes the static validation of
    the NYM handler: a role that is set is one the handler knows, the role [null] takes
    the role away, and without a role the request leaves the role as it is.  A role the
    handler does not know is refused when the identity is made. *)
Theorem identity_request_valid identifier endorser verkey r last_synced seq_no json_loads :
  all_space identifier = false →
  match new_Identity identifier endorser verkey r last_synced seq_no with
  | Ok i =>
      ∀ request, ledgerRequest i = Some request →
        NymHandler.static_validation json_loads request = Ok tt ∧
        dget TARGET_NYM (operation request) = Some (VStr identifier) ∧
        dget ROLE (operation request) =
          match r with
          | Some s => if str_truth s then Some (if str_eqb s NULL then VNone else VStr s) else None
          | None => None
          end
  | Raise e => e = AttributeError ∧ isValidRole (opt_str (correctRole r)) = false
  end.
Proof.
  intros Hid. unfold new_Identity.
  rewrite (is_valid_role_spec (correctRole r)). destruct (isValidRole (opt_str (correctRole r))) eqn:E; [|done].
  intros request. unfold ledgerRequest. destruct (no_seq_no _); [|done]. intros [= <-].
  assert (dget ROLE (op (mkIdentity identifier verkey endorser r last_synced seq_no)) =
    match r with
    | Some s => if str_truth s then Some (if str_eqb s NULL then VNone else VStr s) else None
    | None => None
    end) as Hrole.
  { unfold op. destruct verkey as [v|], r as [s|]; cbn; try done; destruct (str_truth s); try done;
      cbn; by destruct (str_eqb s NULL). }
  split; [|split; [done|exact Hrole]].
  unfold NymHandler.static_validation, validate_request_type, validate_diddoc, vget. cbn [operation].
  pose proof (op_other (mkIdentity identifier verkey endorser r last_synced seq_no)) as Hother.
  rewrite Hrole, !(Hother DIDDOC_CONTENT), !(Hother NYM_VERSION) by done.
  assert (dget TARGET_NYM (op (mkIdentity identifier verkey endorser r last_synced seq_no)) = Some (VStr identifier)) as -> by done.
  rewrite Hid. unfold correctRole in E.
  assert (isValidRole (match (match r with
    | Some s => if str_truth s then Some (if str_eqb s NULL then VNone else VStr s) else None
    | None => None end) with Some v => v | None => VNone end) = true) as ->.
  { destruct r as [s|]; [|done]. destruct (str_truth s); [|done]. by destruct (str_eqb s NULL). }
  done.
Qed.

Lemma identity_request_valid_witness :
  ∃ i request, new_Identity "did" (Some "E") (Some "key") (Some NULL) None None = Ok i ∧ ledgerRequest i = Some request ∧
    NymHandler.static_validation (λ _, Ok VNone) request = Ok tt ∧ dget ROLE (operation request) = Some VNone.
Proof.
  pose proof (identity_request_valid "did" (Some "E") (Some "key") (Some NULL) None None (λ _, Ok VNone) eq_refl) as H.
  cbn in H. eexists _, _. split; [reflexivity|]. split; [reflexivity|].
  destruct (H _ eq_refl) as (H1 & _ & H2). split; [exact H1|exact H2].
Defined.
