(* ===== verification/FileTree.v ===== *)
(** * Files and directories

    The part of Python's [os] and [shutil] that the older migrations use, over a tree of
    files and directories.  A path is the list of its names; the tree says for each path
    whether it is a directory or a file with its text.  Permissions and times are left
    out, so a call fails only for what is there and what is not. *)
From S2P Require Import Prelude PyValue Plenum Constants StateDomain IdrCache HandlerBase Upgrader PoolUpgrade World.

Abbreviation path := (list string).

Inductive Entry := EFile (content : string) | EDir.

#[export] Instance Entry_eq_dec : EqDecision Entry.
Proof. solve_decision. Defined.

Abbreviation FS := (@gmap path (@list_eq_dec string String.eq_dec) (@list_countable string String.eq_dec String.countable) Entry).

(** The path [q] relative to [p]. *)
Fixpoint below (p q : path) : option path :=
  match p, q with
  | [], _ => Some q
  | x :: p', y :: q' => if str_eqb x y then below p' q' else None
  | _ :: _, [] => None
  end.

(** The root is always there. *)
Definition entry (p : path) (s : FS) : option Entry := match p with [] => Some EDir | _ => s !! p end.

Definition exists_ (p : path) (s : FS) : bool := bool_decide (is_Some (entry p s)).
Definition isdir (p : path) (s : FS) : bool := bool_decide (entry p s = Some EDir).
Definition isfile (p : path) (s : FS) : bool := match entry p s with Some (EFile _) => true | _ => false end.

Definition parent (p : path) : path := removelast p.
Definition basename (p : path) : string := default "" (last p).

Definition FileNotFoundError : exn := OSError "No such file or directory".
Definition FileExistsError : exn := OSError "File exists".
Definition NotADirectoryError : exn := OSError "Not a directory".
Definition IsADirectoryError : exn := OSError "Is a directory".

(** What is under [a], put under [b]. *)
Definition graft (a b : path) (s : FS) : FS :=
  list_to_map (omap (λ qe, (λ r, (b ++ r, qe.2)) <$> below a qe.1) (map_to_list s)).

(** The tree without what is under [a]. *)
Definition prune (a : path) (s : FS) : FS := filter (λ qe, below a qe.1 = None) s.

(** ** Operations *)

Abbreviation M := (act FS).

(** The error of an operation on a directory, or file, that is not one. *)
Definition no_dir (p : path) (s : FS) : exn := if exists_ p s then NotADirectoryError else FileNotFoundError.
Definition no_file (p : path) (s : FS) : exn := if exists_ p s then IsADirectoryError else FileNotFoundError.

Definition names_in (p : path) (s : FS) : list string :=
  omap (λ qe, match below p qe.1 with Some [n] => Some n | _ => None end) (map_to_list s).

Definition listdir (p : path) : M (list string) := λ s,
  if isdir p s then (Ok (names_in p s), s) else (Raise (no_dir p s), s).

Definition mkdir (p : path) : M unit := λ s,
  if exists_ p s then (Raise FileExistsError, s)
  else if isdir (parent p) s then (Ok tt, <[p := EDir]> s) else (Raise (no_dir (parent p) s), s).

(** The directories above [p], the topmost one first. *)
Definition ancestors (p : path) : list path := map (λ n, take n p) (seq 1 (length p - 1)).

(** [os.makedirs(p, exist_ok)] *)
Definition makedirs (p : path) (exist_ok : bool) : M unit :=
  let? _ := each (λ q s, if exists_ q s then (Ok tt, s) else mkdir q s) (ancestors p) in
  λ s, if exist_ok && isdir p s then (Ok tt, s) else mkdir p s.

Definition rmtree (p : path) : M unit := λ s,
  if isdir p s then (Ok tt, prune p s) else (Raise (no_dir p s), s).

Definition remove_file (p : path) : M unit := λ s,
  if isfile p s then (Ok tt, delete p s) else (Raise (no_file p s), s).

(** [os.rename]: a file replaces a file, a directory an empty directory. *)
Definition rename (a b : path) : M unit := λ s,
  if negb (exists_ a s) then (Raise FileNotFoundError, s)
  else if bool_decide (a = b) then (Ok tt, s)
  else match below a b with
       | Some _ => (Raise (OSError "Invalid argument"), s)
       | None =>
           let move := (Ok tt, graft a b s ∪ prune a (prune b s)) in
           match entry b s with
           | None => if isdir (parent b) s then move else (Raise (no_dir (parent b) s), s)
           | Some (EFile _) => if isfile a s then move else (Raise NotADirectoryError, s)
           | Some EDir => if isfile a s then (Raise IsADirectoryError, s)
                          else match names_in b s with
                               | [] => move
                               | _ => (Raise (OSError "Directory not empty"), s)
                               end
           end
       end.

(** [shutil.copytree]; a directory is not copied into itself. *)
Definition copytree (a b : path) : M unit := λ s,
  if isdir a s
  then match makedirs b false s with
       | (Ok _, s') => (Ok tt, graft a b s ∪ s')
       | (Raise e, s') => (Raise e, s')
       end
  else (Raise (no_dir a s), s).

(** The text of [a] as the file [b]. *)
Definition copyfile (a b : path) : M unit := λ s,
  match entry a s with
  | Some (EFile t) =>
      if bool_decide (a = b) then (Raise (OSError "are the same file"), s)
      else if isdir b s then (Raise IsADirectoryError, s)
      else if isdir (parent b) s then (Ok tt, <[b := EFile t]> s) else (Raise (no_dir (parent b) s), s)
  | _ => (Raise (no_file a s), s)
  end.

(** [shutil.copy2]: into a directory under the same name. *)
Definition copy2 (a b : path) : M unit := λ s,
  copyfile a (if isdir b s then b ++ [basename a] else b) s.

(** [open(p).read()] *)
Definition read_file (p : path) : M string := λ s,
  match entry p s with Some (EFile t) => (Ok t, s) | _ => (Raise (no_file p s), s) end.

(** [open(p, "w")] and the text written. *)
Definition write_file (p : path) (text : string) : M unit := λ s,
  match entry p s with
  | Some (EFile _) => (Ok tt, <[p := EFile text]> s)
  | Some EDir => (Raise IsADirectoryError, s)
  | None => if isdir (parent p) s then (Ok tt, <[p := EFile text]> s) else (Raise (no_dir (parent p) s), s)
  end.

(** [open(p, "a")] and the text written. *)
Definition append_file (p : path) (text : string) : M unit := λ s,
  match entry p s with
  | Some (EFile t) => (Ok tt, <[p := EFile (t +:+ text)]> s)
  | Some EDir => (Raise IsADirectoryError, s)
  | None => if isdir (parent p) s then (Ok tt, <[p := EFile text]> s) else (Raise (no_dir (parent p) s), s)
  end.

(** A condition on the tree. *)
Definition when {A : Type} (b : FS → bool) (m n : M A) : M A := λ s, if b s then m s else n s.

(** ** Lemmas: paths *)

Lemma below_app p r : below p (p ++ r) = Some r.
Proof. induction p as [|x p IH]; cbn [below app]; [done|]. by rewrite str_eqb_refl. Qed.

Lemma below_Some p q r : below p q = Some r ↔ q = p ++ r.
Proof.
  split; [|intros ->; apply below_app]. revert q. induction p as [|x p IH]; intros q; cbn [below app]; [by intros [= ->]|].
  destruct q as [|y q]; [done|]. destruct (str_eqb x y) eqn:E; [|done]. apply str_eqb_eq in E as ->. by intros ->%IH.
Qed.

Lemma below_None p q : below p q = None ↔ ∀ r, q ≠ p ++ r.
Proof.
  split.
  - intros H r ->. by rewrite below_app in H.
  - intros H. destruct (below p q) as [r|] eqn:E; [|done]. apply below_Some in E. by destruct (H r).
Qed.

Lemma below_refl p : below p p = Some [].
Proof. apply below_Some. by rewrite app_nil_r. Qed.

(** Different entries of a directory have nothing in common. *)
Lemma below_sibling d (m n : string) r : m ≠ n → below (d ++ [m]) (d ++ n :: r) = None.
Proof. intros H. apply below_None. intros r' Heq. rewrite <-app_assoc in Heq. apply app_inv_head in Heq. by injection Heq as -> _. Qed.

Lemma entry_lookup (p : path) (s : FS) : p ≠ [] → entry p s = s !! p.
Proof. by destruct p. Qed.

(** ** Lemmas: trees *)

Lemma graft_elem a b (s : FS) q e :
  (q, e) ∈ omap (λ qe, (λ r, (b ++ r, qe.2)) <$> below a qe.1) (map_to_list s) ↔ ∃ r, q = b ++ r ∧ s !! (a ++ r) = Some e.
Proof.
  rewrite list_elem_of_omap. split.
  - intros ([q0 e0] & Hin & Hr). apply elem_of_map_to_list in Hin. cbn in Hr. destruct (below a q0) as [r|] eqn:E; [|done].
    apply below_Some in E as ->. injection Hr as <- <-. by exists r.
  - intros (r & -> & H). exists (a ++ r, e). split; [by apply elem_of_map_to_list|]. cbn. by rewrite below_app.
Qed.

Lemma graft_NoDup a b (s : FS) : NoDup (omap (λ qe, (λ r, (b ++ r, qe.2)) <$> below a qe.1) (map_to_list s)).*1.
Proof.
  pose proof (NoDup_fst_map_to_list s) as Hnd. induction (map_to_list s) as [|[q e] l IH]; [constructor|].
  cbn in Hnd. apply NoDup_cons in Hnd as [Hq Hl]. cbn. destruct (below a q) as [r|] eqn:E; cbn; [|by apply IH].
  apply NoDup_cons. split; [|by apply IH]. intros ([q' e'] & Heq & Hin)%list_elem_of_fmap. cbn in Heq. subst q'.
  apply list_elem_of_omap in Hin as ([q2 e2] & Hin & Hr). cbn in Hr. destruct (below a q2) as [r2|] eqn:E2; [|done].
  injection Hr as Hr _. apply app_inv_head in Hr as ->. apply below_Some in E, E2. subst. apply Hq.
  apply list_elem_of_fmap. by exists (a ++ r, e2).
Qed.

Lemma lookup_graft a b (s : FS) q : graft a b s !! q = match below b q with Some r => s !! (a ++ r) | None => None end.
Proof.
  unfold graft. destruct (below b q) as [r|] eqn:E.
  - apply below_Some in E as ->. destruct (s !! (a ++ r)) as [e|] eqn:H.
    + apply elem_of_list_to_map; [apply graft_NoDup|]. apply graft_elem. by exists r.
    + apply not_elem_of_list_to_map. intros ([q' e'] & Heq & Hin)%list_elem_of_fmap. cbn in Heq. subst q'.
      apply graft_elem in Hin as (r' & Hr & He). apply app_inv_head in Hr as ->. congruence.
  - apply not_elem_of_list_to_map. intros ([q' e'] & Heq & Hin)%list_elem_of_fmap. cbn in Heq. subst q'.
    apply graft_elem in Hin as (r' & -> & He). by rewrite below_app in E.
Qed.

Lemma lookup_prune a (s : FS) q : prune a s !! q = match below a q with Some _ => None | None => s !! q end.
Proof.
  unfold prune. destruct (s !! q) as [e|] eqn:H; destruct (below a q) as [r|] eqn:E.
  - apply map_lookup_filter_None. right. intros x _ Hx. cbn in Hx. by rewrite E in Hx.
  - by apply map_lookup_filter_Some.
  - apply map_lookup_filter_None. by left.
  - apply map_lookup_filter_None. by left.
Qed.

Lemma names_in_elem p (s : FS) n : n ∈ names_in p s ↔ is_Some (s !! (p ++ [n])).
Proof.
  unfold names_in. rewrite list_elem_of_omap. split.
  - intros ([q e] & Hin & H). apply elem_of_map_to_list in Hin. cbn in H. destruct (below p q) as [[|x [|]]|] eqn:E; try done.
    apply below_Some in E as ->. injection H as <-. by eexists.
  - intros [e He]. exists (p ++ [n], e). split; [by apply elem_of_map_to_list|]. cbn. by rewrite below_app.
Qed.

(** ** Lemmas: operations *)

(** [p] and [q] are not one within the other. *)
Definition apart (p q : path) : Prop := below p q = None ∧ below q p = None.

Lemma apart_app p q r : apart p q → apart p (q ++ r).
Proof.
  intros [H1 H2]. split; [|apply below_None; intros r' ->; rewrite <-app_assoc, below_app in H2; done].
  revert q H1 H2. induction p as [|x p IH]; intros q H1 H2; [done|]. destruct q as [|y q]; [done|]. cbn [app below] in *.
  destruct (str_eqb x y) eqn:E; [|done]. rewrite str_eqb_sym, E in H2. by apply IH.
Qed.

(** Paths an operation keeps. *)
Section Keep.
Context (keep : path → Prop).

Definition kept (s s' : FS) : Prop := ∀ q, keep q → s' !! q = s !! q.

#[export] Instance kept_preorder : PreOrder kept.
Proof. split; [by intros s q|]. intros s1 s2 s3 H1 H2 q Hq. by rewrite H2, H1. Qed.

Lemma kept_insert p e s : ¬ keep p → kept s (<[p := e]> s).
Proof. intros Hp q Hq. apply lookup_insert_ne. by intros ->. Qed.

Lemma keeps_mkdir p : ¬ keep p → frames kept (mkdir p).
Proof.
  intros Hp s. unfold mkdir. destruct (exists_ p s); [done|]. destruct (isdir (parent p) s); [|done]. by apply kept_insert.
Qed.

Lemma keeps_makedirs p b : ¬ keep p → Forall (λ q, ¬ keep q) (ancestors p) → frames kept (makedirs p b).
Proof.
  intros Hp Ha. unfold makedirs. apply frames_bind; [apply _| |intros _ s; destruct (b && _); [done|by apply keeps_mkdir]].
  induction Ha as [|q l Hq _ IH]; [by intros s|]. cbn [each]. apply frames_bind; [apply _| |done].
  intros s. destruct (exists_ q s); [done|by apply keeps_mkdir].
Qed.

Lemma keeps_listdir p : frames kept (listdir p).
Proof. intros s. unfold listdir. by destruct (isdir p s). Qed.

Lemma keeps_rmtree p : (∀ r, ¬ keep (p ++ r)) → frames kept (rmtree p).
Proof.
  intros Hp s. unfold rmtree. destruct (isdir p s); [|done]. intros q Hq. cbn. rewrite lookup_prune.
  destruct (below p q) as [r|] eqn:E; [|done]. apply below_Some in E as ->. by destruct (Hp r).
Qed.

Lemma keeps_remove_file p : ¬ keep p → frames kept (remove_file p).
Proof.
  intros Hp s. unfold remove_file. destruct (isfile p s); [|done]. intros q Hq. apply lookup_delete_ne. by intros ->.
Qed.

Lemma kept_graft a b s t : (∀ r, ¬ keep (b ++ r)) → kept s t → kept s (graft a b s ∪ t).
Proof.
  intros Hb Ht q Hq. rewrite <-(Ht q Hq). apply lookup_union_r. rewrite lookup_graft.
  destruct (below b q) as [r|] eqn:E; [|done]. apply below_Some in E as ->. by destruct (Hb r).
Qed.

Lemma kept_prune a s t : (∀ r, ¬ keep (a ++ r)) → kept s t → kept s (prune a t).
Proof.
  intros Ha Ht q Hq. rewrite lookup_prune. destruct (below a q) as [r|] eqn:E; [|by apply Ht].
  apply below_Some in E as ->. by destruct (Ha r).
Qed.

Lemma keeps_rename a b : (∀ r, ¬ keep (a ++ r)) → (∀ r, ¬ keep (b ++ r)) → frames kept (rename a b).
Proof.
  intros Ha Hb s. unfold rename. destruct (negb _); [done|]. case_bool_decide; [done|]. destruct (below a b); [done|].
  assert (kept s (graft a b s ∪ prune a (prune b s))) as Hmv.
  { apply kept_graft; [done|]. by apply kept_prune, kept_prune. }
  destruct (entry b s) as [[]|].
  - by destruct (isfile a s).
  - destruct (isfile a s); [done|]. by destruct (names_in b s).
  - by destruct (isdir (parent b) s).
Qed.

Lemma keeps_copytree a b : Forall (λ q, ¬ keep q) (ancestors b) → (∀ r, ¬ keep (b ++ r)) → frames kept (copytree a b).
Proof.
  intros Ha Hb s. unfold copytree. destruct (isdir a s); [|done].
  assert (¬ keep b) as Hb' by (rewrite <-(app_nil_r b); apply Hb).
  pose proof (keeps_makedirs b false Hb' Ha s) as H. destruct (makedirs b false s) as [[u|e] s']; [|done].
  by apply kept_graft.
Qed.

Lemma keeps_copyfile a b : ¬ keep b → frames kept (copyfile a b).
Proof.
  intros Hb s. unfold copyfile. destruct (entry a s) as [[t|]|]; [|done..]. case_bool_decide; [done|].
  destruct (isdir b s); [done|]. destruct (isdir (parent b) s); [|done]. by apply kept_insert.
Qed.

Lemma keeps_copy2 a b : ¬ keep b → ¬ keep (b ++ [basename a]) → frames kept (copy2 a b).
Proof. intros Hb Hb' s. unfold copy2. destruct (isdir b s); by apply keeps_copyfile. Qed.

Lemma keeps_read_file p : frames kept (read_file p).
Proof. intros s. unfold read_file. by destruct (entry p s) as [[]|]. Qed.

Lemma keeps_append_file p t : ¬ keep p → frames kept (append_file p t).
Proof.
  intros Hp s. unfold append_file. destruct (entry p s) as [[]|]; [by apply kept_insert|done|].
  destruct (isdir (parent p) s); [|done]. by apply kept_insert.
Qed.

Lemma keeps_when {A : Type} b (m n : M A) : frames kept m → frames kept n → frames kept (when b m n).
Proof. intros Hm Hn s. unfold when. by destruct (b s). Qed.
End Keep.

(** *** Copies *)

Lemma makedirs_child p s :
  p ≠ [] → (∀ q, q ∈ ancestors p → isdir q s = true) → isdir (parent p) s = true → exists_ p s = false →
  makedirs p false s = (Ok tt, <[p := EDir]> s).
Proof.
  intros Hp Ha Hd He. unfold makedirs, act_bind.
  assert (each (λ q s, if exists_ q s then (Ok tt, s) else mkdir q s) (ancestors p) s = (Ok tt, s)) as ->.
  { induction (ancestors p) as [|q l IH]; [done|]. cbn [each]. unfold act_bind.
    assert (exists_ q s = true) as ->.
    { pose proof (Ha q (list_elem_of_here _ _)) as H. unfold isdir in H. apply bool_decide_eq_true in H.
      unfold exists_. rewrite H. by apply bool_decide_eq_true. }
    apply IH. intros q' Hq'. apply Ha. by apply list_elem_of_further. }
  cbn [andb]. unfold mkdir. by rewrite He, Hd.
Qed.

(** A directory copied to a place where nothing is. *)
Lemma copytree_Ok a b s :
  a ≠ [] → b ≠ [] → (∀ q, q ∈ ancestors b → isdir q s = true) → isdir (parent b) s = true → isdir a s = true →
  (∀ r, s !! (b ++ r) = None) →
  ∃ s', copytree a b s = (Ok tt, s') ∧ ∀ q, s' !! q = match below b q with Some r => s !! (a ++ r) | None => s !! q end.
Proof.
  intros Ha Hb Hanc Hpar Hdir Hno. unfold copytree. rewrite Hdir.
  assert (exists_ b s = false) as He.
  { unfold exists_. rewrite entry_lookup by done. specialize (Hno []). rewrite app_nil_r in Hno. rewrite Hno.
    by apply bool_decide_eq_false, is_Some_None. }
  rewrite makedirs_child by done. eexists. split; [done|]. intros q.
  destruct (below b q) as [r|] eqn:E.
  - apply below_Some in E as ->. destruct (s !! (a ++ r)) as [e|] eqn:H.
    + apply lookup_union_Some_l. by rewrite lookup_graft, below_app.
    + rewrite lookup_union_r by (by rewrite lookup_graft, below_app). destruct r as [|x r].
      * rewrite app_nil_r in H. unfold isdir in Hdir. rewrite entry_lookup, H in Hdir by done. done.
      * rewrite lookup_insert_ne; [apply Hno|]. intros Heq. apply (f_equal length) in Heq. rewrite length_app in Heq. cbn in Heq. lia.
  - rewrite lookup_union_r by (by rewrite lookup_graft, E). apply lookup_insert_ne. intros <-. by rewrite below_refl in E.
Qed.

(** Every entry is in a directory. *)
Definition wf_tree (s : FS) : Prop := ∀ p n, is_Some (s !! (p ++ [n])) → entry p s = Some EDir.

Lemma wf_absent s p r : wf_tree s → p ≠ [] → s !! p = None → s !! (p ++ r) = None.
Proof.
  intros Hs Hp Hno. induction r as [|n r IH] using rev_ind; [by rewrite app_nil_r|].
  destruct (s !! (p ++ r ++ [n])) as [e|] eqn:E; [|done]. rewrite app_assoc in E.
  assert (entry (p ++ r) s = Some EDir) as H by (eapply Hs; rewrite E; by eexists).
  rewrite entry_lookup, IH in H; [done|]. intros [? _]%app_nil. done.
Qed.

Lemma wf_ancestors s p q : wf_tree s → is_Some (entry p s) → q ∈ ancestors p → isdir q s = true.
Proof.
  intros Hs Hp Hq. unfold ancestors in Hq. apply list_elem_of_fmap in Hq as (k & -> & Hk%list_elem_of_In%in_seq).
  destruct p as [|x p]; [cbn in Hk; lia|].
  assert (∀ j, k ≤ length (x :: p) - j → j ≤ length (x :: p) → is_Some (entry (take (length (x :: p) - j) (x :: p)) s)) as H.
  { induction j as [|j IH]; intros H1 H2; [by rewrite Nat.sub_0_r, take_ge by lia|].
    assert (is_Some (entry (take (length (x :: p) - j) (x :: p)) s)) as H by (apply IH; lia).
    destruct (lookup_lt_is_Some_2 (x :: p) (length (x :: p) - S j) ltac:(lia)) as [n Hn].
    replace (length (x :: p) - j) with (S (length (x :: p) - S j)) in H by lia. rewrite (take_S_r _ _ n) in H by done.
    rewrite entry_lookup in H by (by intros []%app_nil). rewrite (Hs _ _ H). by eexists. }
  specialize (H (length (x :: p) - S k)). replace (length (x :: p) - (length (x :: p) - S k)) with (S k) in H by lia.
  specialize (H ltac:(lia) ltac:(lia)). destruct (lookup_lt_is_Some_2 (x :: p) k ltac:(lia)) as [n Hn].
  rewrite (take_S_r _ _ n) in H by done. rewrite entry_lookup in H by (by intros []%app_nil).
  apply bool_decide_eq_true. exact (Hs _ _ H).
Qed.

(** *** New directories *)

Lemma isdir_lookup p s : p ≠ [] → isdir p s = true ↔ s !! p = Some EDir.
Proof. intros Hp. unfold isdir. by rewrite entry_lookup, bool_decide_eq_true by done. Qed.

Lemma take_inj {A} (p : list A) i j : i ≤ length p → j ≤ length p → take i p = take j p → i = j.
Proof. intros Hi Hj H. apply (f_equal length) in H. rewrite !length_take in H. lia. Qed.

Lemma parent_take p i : i < length p → parent (take (S i) p) = take i p.
Proof. intros Hi. unfold parent. apply removelast_firstn. lia. Qed.

(** One directory, whether it is there or not. *)
Lemma mkdir_missing p s :
  p ≠ [] → s !! p = None ∨ s !! p = Some EDir → isdir (parent p) s = true →
  (if exists_ p s then (Ok tt, s) else mkdir p s) = (Ok tt, <[p := EDir]> s).
Proof.
  intros Hp Hs Hd. unfold exists_. rewrite entry_lookup by done. destruct Hs as [H|H]; rewrite H.
  - unfold mkdir, exists_. by rewrite entry_lookup, H, Hd by done.
  - case_bool_decide as E; [|destruct E; by eexists]. by rewrite insert_id.
Qed.

(** The directories from one to another, each in the one before it. *)
Lemma mkdirs_runs p s i k :
  isdir (take i p) s = true → i + k < length p →
  (∀ j, i < j ≤ i + k → s !! take j p = None ∨ s !! take j p = Some EDir) →
  ∃ s', each (λ q s, if exists_ q s then (Ok tt, s) else mkdir q s) (map (λ n, take n p) (seq (S i) k)) s = (Ok tt, s') ∧
    isdir (take (i + k) p) s' = true ∧ (∀ j, i < j ≤ i + k → s' !! take j p = Some EDir) ∧
    (∀ q, (∀ j, i < j ≤ i + k → q ≠ take j p) → s' !! q = s !! q).
Proof.
  revert i s. induction k as [|k IH]; intros i s Hd Hk Hs.
  - exists s. rewrite Nat.add_0_r. split; [done|]. split; [done|]. split; [intros j Hj; lia|done].
  - assert (take (S i) p ≠ []) as Hne by (destruct p; [cbn in Hk; lia|done]).
    cbn [seq map each]. unfold act_bind. rewrite mkdir_missing; [|done|apply Hs; lia|by rewrite parent_take by lia].
    destruct (IH (S i) (<[take (S i) p := EDir]> s)) as (s' & H1 & H2 & H3 & H4).
    + by rewrite isdir_lookup, lookup_insert_eq.
    + lia.
    + intros j Hj. rewrite lookup_insert_ne; [apply Hs; lia|]. intros H%take_inj; lia.
    + exists s'. split; [done|]. split; [by replace (i + S k) with (S i + k) by lia|]. split.
      * intros j Hj. destruct (decide (j = S i)) as [->|]; [|apply H3; lia].
        rewrite H4, lookup_insert_eq; [done|]. intros j' Hj' H%take_inj; lia.
      * intros q Hq. rewrite H4 by (intros j Hj; apply Hq; lia). rewrite lookup_insert_ne; [done|].
        intros H. apply (Hq (S i)); [lia|done].
Qed.

(** [makedirs] where no file is in the way. *)
Lemma makedirs_runs p s :
  p ≠ [] → s !! p = None → (∀ q, q ∈ ancestors p → s !! q = None ∨ s !! q = Some EDir) →
  ∃ s', makedirs p false s = (Ok tt, s') ∧ s' !! p = Some EDir ∧ (∀ q, q ∈ ancestors p → s' !! q = Some EDir) ∧
    (∀ q, q ≠ p → q ∉ ancestors p → s' !! q = s !! q).
Proof.
  intros Hp Hno Hs. assert (0 < length p) as Hl by (destruct p; [done|cbn; lia]).
  assert (∀ j, 0 < j ≤ 0 + (length p - 1) → take j p ∈ ancestors p) as Hin.
  { intros j Hj. apply list_elem_of_fmap. exists j. split; [done|]. apply list_elem_of_In, in_seq. lia. }
  assert (∀ q, q ∈ ancestors p → ∃ j, 0 < j ≤ 0 + (length p - 1) ∧ q = take j p) as Hanc.
  { intros q (j & -> & Hj%list_elem_of_In%in_seq)%list_elem_of_fmap. exists j. split; [lia|done]. }
  destruct (mkdirs_runs p s 0 (length p - 1)) as (s1 & H1 & H2 & H3 & H4); [done|lia|intros j Hj; apply Hs, Hin, Hj|].
  assert (s1 !! p = None) as Hno1.
  { rewrite H4; [done|]. intros j Hj H. apply (f_equal length) in H. rewrite length_take in H. lia. }
  exists (<[p := EDir]> s1). split; [|split; [apply lookup_insert_eq|split]].
  - unfold makedirs, act_bind, ancestors. rewrite H1. cbn [andb]. unfold mkdir, exists_. rewrite entry_lookup, Hno1 by done.
    replace (parent p) with (take (0 + (length p - 1)) p); [by rewrite H2|].
    rewrite <-(parent_take p (0 + (length p - 1))) by lia. f_equal. apply take_ge. lia.
  - intros q (j & Hj & ->)%Hanc. rewrite lookup_insert_ne; [by apply H3|]. intros H. apply (f_equal length) in H. rewrite length_take in H. lia.
  - intros q Hq Hq'. rewrite lookup_insert_ne by done. apply H4. intros j Hj ->. by apply Hq', Hin.
Qed.
