(* ===== verification/ClientUtil.v ===== *)
(** * Helpers of clients

    [indy_common/util.py]: the part of a message that is signed, encryption of a value with
    a key that is given in hexadecimal, nonces, the first element with a property, and the
    polling for the replies to a request.  [compose_cmd] is in [World].

    Cryptography, the client and plenum's [isHex] are arguments.  A text stands for its
    UTF-8 bytes, so that encoding a text is the identity. *)
From Stdlib Require Import Ascii.
From S2P Require Import Prelude PyValue Plenum.

(** ** Signatures *)

(** [getMsgWithoutSig] *)
Fixpoint getMsgWithoutSig (sigFieldName : string) (msg : dict val) : dict val :=
  match msg with
  | [] => []
  | (k, v) :: msg' => if str_eqb k sigFieldName then getMsgWithoutSig sigFieldName msg' else (k, v) :: getMsgWithoutSig sigFieldName msg'
  end.

Section Verify.
Context (isHex : string → bool) (cryptonymToHex : string → res string).
Context (serialize_msg_for_signing : dict val → res string) (b58decode : string → res string).
Context (verifier : string → res (string → string → bool)).

Definition verifySig (identifier signature : string) (msg : dict val) : res bool :=
  let! key := if negb (isHex identifier) then cryptonymToHex identifier else Ok identifier in
  let! ser := serialize_msg_for_signing msg in
  let! sig := b58decode signature in
  let! vr := verifier key in
  Ok (vr sig ser).
End Verify.

(** ** Hexadecimal *)

Definition byte_to_hex (c : ascii) : string :=
  let n := nat_of_ascii c in String (hex_digit (n / 16)) (String (hex_digit (n mod 16)) "").

(** [bytes.hex()] *)
Fixpoint to_hex (s : string) : string :=
  match s with EmptyString => "" | String c s' => byte_to_hex c +:+ to_hex s' end.

Definition hex_value (c : ascii) : option nat :=
  let n := nat_of_ascii c in
  if (48 <=? n) && (n <=? 57) then Some (n - 48)
  else if (97 <=? n) && (n <=? 102) then Some (n - 87)
  else if (65 <=? n) && (n <=? 70) then Some (n - 55)
  else None.

(** [bytearray.fromhex(s)] of a text without blanks. *)
Fixpoint from_hex (s : string) : res string :=
  let err := Raise (ValueError "non-hexadecimal number found in fromhex() arg") in
  match s with
  | EmptyString => Ok ""
  | String a (String b s') =>
      match hex_value a, hex_value b with
      | Some m, Some n => let! t := from_hex s' in Ok (String (ascii_of_nat (16 * m + n)) t)
      | _, _ => err
      end
  | _ => err
  end.

(** ** Encryption *)

Inductive Data := Text (s : string) | Bytes (s : string).

Definition encode (d : Data) : string := match d with Text s | Bytes s => s end.

(** [libnacl.secret.SecretBox]: the key a box has when it is made with one or without,
    what it makes of a text, and of what it made. *)
Class SecretBox := {
  box_key : option string → res string;
  encrypt : string → string → string;
  decrypt : string → string → res string
}.

Section Symmetric.
Context `{!SecretBox} (isHex : Data → bool) (decode : string → res string).

Definition getSymmetricallyEncryptedVal (v : Data) (secretKey : option Data) : res (string * string) :=
  let! key := match secretKey with
              | Some d =>
                  if str_truth (encode d) then
                    if isHex d then let! k := from_hex (encode d) in box_key (Some k)
                    else match d with
                         | Bytes k => box_key (Some k)
                         | Text _ => Raise (PyException "Secret key must be either in hex or bytes")
                         end
                  else box_key None
              | None => box_key None
              end in
  Ok (to_hex (encrypt key (encode v)), to_hex key).

Definition getSymmetricallyDecryptedVal (v secretKey : Data) : res string :=
  let! c := if isHex v then from_hex (encode v) else Ok (encode v) in
  let! k := if isHex secretKey then from_hex (encode secretKey) else Ok (encode secretKey) in
  let! key := box_key (Some k) in
  let! m := decrypt key c in decode m.
End Symmetric.

(** ** Nonces *)

(** [getNonce]: one digit for each number that was chosen. *)
Fixpoint getNonce (choices : list nat) : string :=
  match choices with [] => "" | n :: l => String (hex_digit (n mod 16)) (getNonce l) end.

Fixpoint parse_hex (s : string) (acc : N) : option N :=
  match s with
  | EmptyString => Some acc
  | String c s' => match hex_value c with Some n => parse_hex s' (acc * 16 + N.of_nat n)%N | None => None end
  end.

(** [getNonceForProof]: [int(nonce, 16)] of a numeral of digits, which is what [getNonce]
    makes. *)
Definition getNonceForProof (nonce : string) : res N :=
  match nonce with
  | EmptyString => Raise (ValueError "invalid literal for int() with base 16")
  | _ => match parse_hex nonce 0 with Some n => Ok n | None => Raise (ValueError "invalid literal for int() with base 16") end
  end.

(** [getIndex] *)
Fixpoint index_from {A} (predicate : A → bool) (items : list A) (i : nat) : Z :=
  match items with
  | [] => -1
  | v :: items' => if predicate v then Z.of_nat i else index_from predicate items' (S i)
  end.

Definition getIndex {A} (predicate : A → bool) (items : list A) : Z := index_from predicate items 0.

(** ** Replies *)

(** What a client knows of a request: the reply with its status, and the errors by
    sender. *)
Class Client (C : Type) := {
  getReply : string → Z → C → val * string;
  getAllReplies : string → Z → C → list (string * val)
}.

Definition is_none (v : val) : bool := match v with VNone => true | _ => false end.

Section Replies.
Context {C : Type} `{!Client C}.

(** [get_reply_if_confirmed]; the error is that of the last sender. *)
Definition get_reply_if_confirmed (identifier : string) (request_id : Z) (client : C) : val * val :=
  let '(reply, status) := getReply identifier request_id client in
  if str_eqb status "CONFIRMED" then (reply, VNone) else
  match last (getAllReplies identifier request_id client) with
  | None => (VNone, VNone)
  | Some (_, error_reason) => (reply, error_reason)
  end.

(** A call of [ensureReqCompleted]: it is to be called again, it calls the callback with
    the arguments, or there is no callback. *)
Inductive Polled :=
| Again
| Called (reply err : val) (args : list val) (kwargs : dict val)
| Completed.

Definition ensureReqCompleted (identifier : string) (request_id : Z) (clbk : bool) (pargs : option (list val))
    (kwargs : option (dict val)) (cond : option (C → bool)) (client : C) : Polled :=
  let '(reply, err) := get_reply_if_confirmed identifier request_id client in
  if is_none err && is_none reply &&
     match cond with None => true | Some c => negb (c client) end
  then Again
  else if clbk then
    match pargs, kwargs with
    | Some a, Some k => Called reply err a k
    | Some a, None => Called reply err a []
    | None, Some k => Called reply err [] k
    | None, None => Called reply err [] []
    end
  else Completed.

(** The calls as the client goes through its states: each one is scheduled by the one
    before. *)
Fixpoint polls (call : C → Polled) (states : list C) : list Polled :=
  match states with
  | [] => []
  | c :: states' => match call c with Again => Again :: polls call states' | p => [p] end
  end.
End Replies.

(** ** Lemmas *)

Lemma hex_value_digit n : n < 16 → hex_value (hex_digit n) = Some n.
Proof. intros H. do 16 (destruct n as [|n]; [done|]). lia. Qed.

Lemma from_to_hex s : from_hex (to_hex s) = Ok s.
Proof.
  induction s as [|c s IH]; [done|]. cbn [to_hex byte_to_hex String.append from_hex].
  pose proof (nat_ascii_bounded c) as Hc. pose proof (Nat.div_mod_eq (nat_of_ascii c) 16) as Hd.
  assert (nat_of_ascii c / 16 < 16) as H1 by (apply Nat.Div0.div_lt_upper_bound; lia).
  assert (nat_of_ascii c mod 16 < 16) as H2 by (apply Nat.mod_upper_bound; lia).
  rewrite !hex_value_digit by done. cbn [String.append]. rewrite IH. cbn [res_bind].
  by rewrite <-Hd, ascii_nat_embedding.
Qed.

Lemma parse_hex_nonce l : ∀ acc, ∃ n, parse_hex (getNonce l) acc = Some n ∧ (n < (acc + 1) * 16 ^ N.of_nat (length l))%N.
Proof.
  induction l as [|c l IH]; intros acc; [exists acc; cbn; split; [done|lia]|]. cbn [getNonce parse_hex].
  assert (c mod 16 < 16) as Hc by (apply Nat.mod_upper_bound; lia). rewrite hex_value_digit by done.
  destruct (IH (acc * 16 + N.of_nat (c mod 16))%N) as (n & Hn & Hb). exists n. split; [done|].
  cbn [length]. rewrite Nat2N.inj_succ, N.pow_succ_r' by lia.
  assert ((acc * 16 + N.of_nat (c mod 16) + 1) * 16 ^ N.of_nat (length l) ≤ (acc + 1) * 16 * 16 ^ N.of_nat (length l))%N
    by (apply N.mul_le_mono_r; lia). lia.
Qed.

(** ** Properties *)

(** A text that was encrypted is decrypted with the key that came with it, whether that key
    was given, in hexadecimal or as bytes, or made for it. *)
Theorem encryption_roundtrip {Hb : SecretBox} isHex decode t key enc sk :
  (∀ b, isHex (Text (to_hex b)) = true) →
  (∀ o k, box_key o = Ok k → box_key (Some k) = Ok k) → (∀ k m, decrypt k (encrypt k m) = Ok m) → (decode t = Ok t) →
  getSymmetricallyEncryptedVal isHex (Text t) key = Ok (enc, sk) →
  getSymmetricallyDecryptedVal isHex decode (Text enc) (Text sk) = Ok t.
Proof.
  intros Hhex Hkey Hbox Ht H. unfold getSymmetricallyEncryptedVal in H.
  assert (∃ o k, box_key o = Ok k ∧ enc = to_hex (encrypt k t) ∧ sk = to_hex k) as (o & k & Hk & -> & ->).
  { match type of H with res_bind ?m _ = _ => destruct m as [k|] eqn:E; [|done] end. injection H as <- <-.
    destruct key as [d|]; [|by exists None, k].
    destruct (str_truth (encode d)); [|by exists None, k]. destruct (isHex d).
    - destruct (from_hex (encode d)) as [b|]; [|done]. by exists (Some b), k.
    - destruct d as [b|b]; [done|]. by exists (Some b), k. }
  unfold getSymmetricallyDecryptedVal. rewrite !Hhex. cbn [encode]. rewrite !from_to_hex. cbn [res_bind].
  rewrite (Hkey o k Hk). cbn [res_bind]. by rewrite Hbox.
Qed.

(** A box that only adds its key, as an instance: keys have two characters. *)
#[export] Instance toy_box : SecretBox := {
  box_key o := match o with
               | None => Ok "k0"
               | Some k => if Nat.eqb (String.length k) 2 then Ok k else Raise (ValueError "Invalid key")
               end;
  encrypt k m := k +:+ m;
  decrypt k c := if String.prefix k c then Ok (String.substring (String.length k) (String.length c - String.length k) c)
                 else Raise (ValueError "Failed to decrypt message")
}.

Lemma prefix_append (a b : string) : String.prefix a (a +:+ b) = true.
Proof. induction a as [|c a IH]; [by destruct b|]. cbn. rewrite IH. by destruct (ascii_dec c c). Qed.

Lemma substring_after (a b : string) : String.substring (String.length a) (String.length (a +:+ b) - String.length a) (a +:+ b) = b.
Proof.
  induction a as [|c a IH]; [|exact IH]. cbn [String.length String.append]. rewrite Nat.sub_0_r.
  induction b as [|d b IH]; [done|]. cbn. by rewrite IH.
Qed.

Lemma encryption_roundtrip_witness :
  ∃ enc sk, getSymmetricallyEncryptedVal (λ _, true) (Text "secret") (Some (Text "6b31")) = Ok (enc, sk) ∧
    getSymmetricallyDecryptedVal (λ _, true) Ok (Text enc) (Text sk) = Ok "secret".
Proof.
  eexists _, _. split; [by vm_compute|].
  refine (encryption_roundtrip (λ _, true) Ok "secret" (Some (Text "6b31")) _ _ _ _ _ _ _); try done.
  - intros [k|] k' H; cbn in *; [|by injection H as <-]. destruct (Nat.eqb (String.length k) 2) eqn:E; [|done].
    injection H as <-. by rewrite E.
  - intros k m. cbn. rewrite prefix_append. by rewrite substring_after.
Defined.

(** A nonce is a numeral with as many digits as were chosen. *)
Theorem nonce_is_a_numeral l :
  l ≠ [] → ∃ n, getNonceForProof (getNonce l) = Ok n ∧ (n < 16 ^ N.of_nat (length l))%N.
Proof.
  intros Hl. destruct (parse_hex_nonce l 0) as (n & Hn & Hb). exists n. split; [|lia].
  destruct l as [|c l]; [done|]. unfold getNonceForProof. cbn [getNonce] in *. by rewrite Hn.
Qed.

Lemma nonce_is_a_numeral_witness : ∃ n, getNonceForProof (getNonce [1; 15; 0]) = Ok n ∧ (n < 16 ^ 3)%N.
Proof. by apply (nonce_is_a_numeral [1; 15; 0]). Defined.

(** The index is that of the first element with the property, or -1 without one. *)
Theorem getIndex_first {A} (predicate : A → bool) (items : list A) :
  match getIndex predicate items with
  | Zpos _ | Z0 => ∃ i v, getIndex predicate items = Z.of_nat i ∧ items !! i = Some v ∧ predicate v = true ∧
                     Forall (λ u, predicate u = false) (take i items)
  | Zneg _ => getIndex predicate items = (-1)%Z ∧ Forall (λ u, predicate u = false) items
  end.
Proof.
  unfold getIndex.
  assert (∀ k, (∃ i v, index_from predicate items k = Z.of_nat (k + i) ∧ items !! i = Some v ∧ predicate v = true ∧
      Forall (λ u, predicate u = false) (take i items)) ∨
    index_from predicate items k = (-1)%Z ∧ Forall (λ u, predicate u = false) items) as H.
  { induction items as [|v items IH]; intros k; [by right|]. cbn [index_from]. destruct (predicate v) eqn:E.
    - left. exists 0, v. rewrite Nat.add_0_r. by repeat split.
    - destruct (IH (S k)) as [(i & u & -> & Hi & Hu & Hf)|[-> Hf]].
      + left. exists (S i), u. replace (k + S i) with (S k + i) by lia. repeat split; [done..|]. by constructor.
      + right. split; [done|]. by constructor. }
  destruct (H 0) as [(i & v & -> & Hi & Hv & Hf)|[-> Hf]]; [|done].
  destruct (Z.of_nat (0 + i)) eqn:E; [| |lia]; rewrite <-E; exists i, v; by rewrite Nat.add_0_l.
Qed.

(** The callback is called once: at the first state of the client with a reply, an error, or
    for which the condition holds. *)
Theorem callback_once {C} (call : C → Polled) states :
  ∃ k, Forall (λ c, call c = Again) (take k states) ∧
    polls call states = replicate k Again ++ match states !! k with Some c => [call c] | None => [] end ∧
    match states !! k with Some c => call c ≠ Again | None => True end.
Proof.
  induction states as [|c states IH]; [by exists 0|]. cbn [polls]. destruct (call c) eqn:E.
  - destruct IH as (k & H1 & -> & H2). exists (S k). cbn. split; [by constructor|]. by split.
  - exists 0. cbn. rewrite E. by repeat split.
  - exists 0. cbn. rewrite E. by repeat split.
Qed.
