(* ===== verification/NodeStart.v ===== *)
(** * The start of a node

    The configuration of a node ([indy_common/config.py], [indy_common/config_util.py]), the
    directories it gives ([indy_common/config_helper.py], [indy_node/server/config_helper.py],
    the constructor of [indy_node/server/node.py]), the plugins a node is started with
    ([indy_node/utils/node_runner.py]) and the information it reports
    ([indy_node/server/validator_info_tool.py]).

    A configuration is a dictionary of its names.  Plenum's configuration, the files of
    the operator, [importlib], plenum's information and [chroot_if_needed] are arguments. *)
From Stdlib Require Import Ascii.
From S2P Require Import Prelude PyValue Plenum Constants StateDomain IdrCache HandlerBase Upgrader PoolUpgrade World AuthActions AuthConstraints AuthStrategy Versions Packages Migrations ControlTool.

Abbreviation Config := (dict val).

(** ** The values of the configuration *)

Definition ha (port : Z) : val := VList [VStr "127.0.0.1"; VInt port].

(** The names of [indy_common/config.py] in order; the enumerations are plenum's and the
    logging levels are those of [logging]. *)
Definition indy_config (custom_boot rocksdb_hash_store rocksdb : val) (rocksdb_default_config : dict val) : Config :=
  [("nodeReg", VDict [("Alpha", ha 9701); ("Beta", ha 9703); ("Gamma", ha 9705); ("Delta", ha 9707)]);
   ("cliNodeReg", VDict [("AlphaC", ha 9702); ("BetaC", ha 9704); ("GammaC", ha 9706); ("DeltaC", ha 9708)]);
   ("GENERAL_CONFIG_DIR", VStr "/etc/indy/");
   ("GENERAL_CONFIG_FILE", VStr "indy_config.py");
   ("NETWORK_CONFIG_FILE", VStr "indy_config.py");
   ("USER_CONFIG_FILE", VStr "indy_config.py");
   ("configTransactionsFile", VStr "config_transactions");
   ("logFilePath", VStr "cli.log");
   ("outFilePath", VStr "cli_output.log");
   ("clientBootStrategy", custom_boot);
   ("hashStore", VDict [("type", rocksdb_hash_store)]);
   ("primaryStorage", VNone);
   ("configStateStorage", rocksdb);
   ("idrCacheStorage", rocksdb);
   ("attrStorage", rocksdb);
   ("configStateDbName", VStr "config_state");
   ("attrDbName", VStr "attr_db");
   ("idrCacheDbName", VStr "idr_cache_db");
   ("rocksdb_attr_db_config", VDict rocksdb_default_config);
   ("rocksdb_idr_cache_db_config", VDict rocksdb_default_config);
   ("db_attr_db_config", VDict rocksdb_default_config);
   ("db_idr_cache_db_config", VDict rocksdb_default_config);
   ("PluginsToLoad", VList []);
   ("lastRunVersionFile", VStr "last_version");
   ("nextVersionFile", VStr "next_version");
   ("MinSepBetweenNodeUpgrades", VInt 300);
   ("upgradeLogFile", VStr "upgrade_log");
   ("restartLogFile", VStr "restart_log");
   ("lastVersionFilePath", VStr "last_version_file");
   ("controlServiceHost", VStr "127.0.0.1");
   ("controlServicePort", VStr "30003");
   ("agentLoggingLevel", VInt 20);
   ("logLevel", VInt 20);
   ("INCONSISTENCY_WATCHER_NETWORK_TIMEOUT", VInt 90);
   ("UPGRADE_ENTRY", VStr "indy-node");
   ("PACKAGES_TO_HOLD", VList (map VStr
      ["indy-plenum"; "indy-node"; "python3-ioflo"; "python3-orderedset"; "python3-base58"; "python3-prompt-toolkit";
       "python3-rlp"; "python3-sha3"; "python3-libnacl"; "python3-six"; "python3-portalocker"; "python3-sortedcontainers";
       "python3-dateutil"; "python3-semver"; "python3-psutil"; "python3-pyzmq"; "python3-jsonpickle"; "python3-rocksdb";
       "python3-pympler"; "python3-packaging"; "python3-timeout-decorator"; "python3-distro"]));
   ("authPolicy", VInt CONFIG_LEDGER_AUTH_POLICY);
   ("SCHEMA_ATTRIBUTES_LIMIT", VInt 125);
   ("CONTEXT_SIZE_LIMIT", VInt 131072);
   ("JSON_LD_LIMIT", VInt 131072);
   ("DIDDOC_CONTENT_SIZE_LIMIT", VInt (10 * 1024));
   ("ENABLE_RICH_SCHEMAS", VBool false);
   ("REV_STRATEGY_USE_COMPAT_ORDERING", VBool false)].

(** ** Where the configuration comes from *)

Section Configuration.
(** [extend_with_default_external_config] of a configuration, for a general and a user
    directory: what it leaves, and the exception it ends with. *)
Context (indy : Config).
Context (extend : option string → option string → Config → option exn * Config).

(** [_getConfig] *)
Definition read_config (plenum_config_func : option string → res Config) (general_config_dir user_config_dir : option string)
    (ignore_external_config_update_errors : bool) : res Config :=
  let! config := plenum_config_func general_config_dir in
  let '(e, config) := extend general_config_dir user_config_dir (dupdate config indy) in
  match e with
  | Some ex => if negb ignore_external_config_update_errors then Raise ex else Ok config
  | None => Ok config
  end.

(** [getConfig] over the global [CONFIG]. *)
Definition getConfig (plenum_config : option string → res Config) (general_config_dir user_config_dir : option string)
    : act (option Config) Config := λ CONFIG,
  match CONFIG with
  | Some c => (Ok c, CONFIG)
  | None => match read_config plenum_config general_config_dir user_config_dir false with
            | Ok c => (Ok c, Some c)
            | Raise e => (Raise e, None)
            end
  end.

Definition getConfigOnce (plenum_config_once : option string → res Config) (general_config_dir user_config_dir : option string)
    (ignore_external_config_update_errors : bool) : res Config :=
  read_config plenum_config_once general_config_dir user_config_dir ignore_external_config_update_errors.

(** The part of [invalidate_config_caches] that is this cache. *)
Definition invalidate_config_caches : act (option Config) unit := λ _, (Ok tt, None).
End Configuration.

(** ** Directories *)

Definition attribute (k : string) (config : Config) : res val :=
  match dget k config with Some v => Ok v | None => Raise AttributeError end.

Definition text_of (v : val) : res string :=
  match v with VStr s => Ok s | _ => Raise (TypeError "expected str, bytes or os.PathLike object") end.

(** [os.path.join] of values *)
Definition join_path (first : val) (rest : list val) : res string :=
  let! s := text_of first in res_fold (λ p v, let! t := text_of v in Ok (path_join p t)) s rest.

Section ConfigHelper.
Context (chroot_if_needed : string → string) (config : Config).

(** The directory [key] of the configuration with the name of the network, and what comes
    after it. *)
Definition network_dir (key : string) (rest : list string) : res string :=
  let! base := attribute key config in
  let! network := attribute "NETWORK_NAME" config in
  let! p := join_path base (network :: map VStr rest) in
  Ok (chroot_if_needed p).

Definition plain_dir (key : string) : res string :=
  let! base := attribute key config in
  let! p := text_of base in
  Ok (chroot_if_needed p).

Definition log_dir : res string := network_dir "LOG_DIR" [].
Definition genesis_dir : res string := network_dir "GENESIS_DIR" [].
Definition keys_dir : res string := network_dir "KEYS_DIR" ["keys"].
Definition ledger_base_dir : res string := plain_dir "LEDGER_DIR".
Definition ledger_data_dir : res string := network_dir "LEDGER_DIR" ["data"].
Definition log_base_dir : res string := plain_dir "LOG_DIR".
Definition backup_dir : res string := plain_dir "BACKUP_DIR".
Definition node_info_dir : res string := network_dir "NODE_INFO_DIR" [].

(** [NodeConfigHelper.ledger_dir] of the helper made for a name. *)
Definition ledger_dir (name : option string) : res string :=
  match name with None => Raise AssertionError | Some n => network_dir "LEDGER_DIR" ["data"; n] end.
End ConfigHelper.

(** [a or b]: [b] is evaluated only when it is needed. *)
Definition or_else (a : option string) (b : res string) : res string :=
  match a with Some s => if str_truth s then Ok s else b | None => b end.

(** The directories of the constructor of [Node]; the directory of plugins is plenum's. *)
Record NodeDirs := mkNodeDirs {
  nd_ledger : string;
  nd_keys : string;
  nd_genesis : string;
  nd_plugins : string;
  nd_info : string
}.

Definition node_dirs (chroot_if_needed : string → string) (config : Config) (plugins_default : res string) (name : string)
    (ledger keys genesis plugins info : option string) : res NodeDirs :=
  let! l := or_else ledger (ledger_dir chroot_if_needed config (Some name)) in
  let! k := or_else keys (keys_dir chroot_if_needed config) in
  let! g := or_else genesis (genesis_dir chroot_if_needed config) in
  let! p := or_else plugins plugins_default in
  let! i := or_else info (node_info_dir chroot_if_needed config) in
  Ok (mkNodeDirs l k g p i).

(** [create_config_dirs]: the directory it makes in [base_dir]. *)
Fixpoint lstrip_slash (s : string) : string :=
  match s with String "/"%char s' => lstrip_slash s' | _ => s end.

Definition create_config_dirs (general_config_dir base_dir : string) : string :=
  path_join base_dir (if String.prefix "/" general_config_dir then lstrip_slash general_config_dir else general_config_dir).

(** ** Plugins *)

Section Runner.
Context {N : Type}.
(** [importlib.import_module] of a name, whether what it raises is an [ImportError], and
    the [integrate_plugin_in_node] of the main module of a plugin. *)
Context (import_module : string → res unit) (is_import_error : exn → bool) (integrate_plugin_in_node : string → N → res N).

Definition integrate_plugin (node : N) (plugin_name : string) : res N :=
  let! _ := import_module plugin_name in
  let! _ := import_module (plugin_name +:+ ".main") in
  integrate_plugin_in_node plugin_name node.

Definition integrate (plugin_root : string) (enabled_plugins : list string) (node : N) : res N :=
  match import_module plugin_root with
  | Raise e => if is_import_error e
               then Raise (PyException ("Incorrect plugin root " +:+ plugin_root +:+ ". No such package found"))
               else Raise e
  | Ok _ => res_fold integrate_plugin node enabled_plugins
  end.

(** [run_node]: the log file, and the node that is run in the loop. *)
Definition run_node (chroot_if_needed : string → string) (config : Config) (make_node : string → res N) (name : string)
    (plugin_root : string) (enabled_plugins : list string) : res (string * N) :=
  let! dir := log_dir chroot_if_needed config in
  let! node := make_node name in
  let! node := integrate plugin_root enabled_plugins node in
  Ok (path_join dir (name +:+ ".log"), node).
End Runner.

(** ** What a node reports *)

Section Info.
Context (POOL_LEDGER_ID DOMAIN_LEDGER_ID CONFIG_LEDGER_ID AUDIT_LEDGER_ID : Z).

Definition std_ledgers : list Z := [POOL_LEDGER_ID; DOMAIN_LEDGER_ID; CONFIG_LEDGER_ID; AUDIT_LEDGER_ID].

(** The ledgers of plugins, by id and size; an id as the text it has in JSON. *)
Definition other_ledgers (registry : list (Z * Z)) : dict val :=
  foldl (λ d il, if existsb (Z.eqb il.1) std_ledgers then d else dset (str_int il.1) (VInt il.2) d) [] registry.

(** [d[k]] changed by [f]. *)
Definition update_item (k : string) (f : val → res val) (v : val) : res val :=
  match v with
  | VDict d => match dget k d with
               | Some x => let! y := f x in Ok (VDict (dset k y d))
               | None => Raise (KeyError k)
               end
  | _ => Raise (TypeError "object is not subscriptable")
  end.

Definition dict_has (k : string) (v : val) : res bool :=
  match v with
  | VDict d => Ok (dhas k d)
  | VList l => Ok (existsb (py_eq (VStr k)) l)
  | VStr s => Ok (py_in_str k s)
  | _ => Raise (TypeError "argument is not iterable")
  end.

Definition update_with (d : dict val) (v : val) : res val :=
  match v with VDict c => Ok (VDict (dupdate c d)) | _ => Raise AttributeError end.

(** [info]: plenum's information with the time as a text and the sizes of the ledgers of
    plugins. *)
Definition validator_info (format_time : val → res string) (registry : list (Z * Z)) (super_info : dict val) : res (dict val) :=
  let! ts := dgetitem "timestamp" super_info in
  let! ts_str := format_time ts in
  let info := dset "Update_time" (VStr ts_str) super_info in
  match dget "Node_info" info with
  | None => Ok info
  | Some node_info =>
      let! has := dict_has "Metrics" node_info in
      if has then
        let! node_info' := update_item "Metrics" (update_item "transaction-count" (update_with (other_ledgers registry))) node_info in
        Ok (dset "Node_info" node_info' info)
      else Ok info
  end.

(** [_generate_software_info], without plenum's decorator, which makes [None] of a failure: the
    version of the package, and that of the package of upgrades if it can be imported. *)
Definition software_info (node_pkg_version : string) (UPGRADE_ENTRY : string) (import_version : string → option val)
    (sfv : val) : res val :=
  update_item "Software" (λ s,
    let! s := update_with [("indy-node", VStr node_pkg_version)] s in
    let! s := update_with [("sovrin", VStr "unknown")] s in
    match import_version UPGRADE_ENTRY with
    | Some v => update_with [(UPGRADE_ENTRY, v)] s
    | None => Ok s
    end) sfv.
End Info.

(** ** Lemmas *)

Lemma str_int_inj i j : str_int i = str_int j → i = j.
Proof. unfold str_int. apply pretty_Z_inj. Qed.

Lemma other_ledgers_app p d c a reg il :
  other_ledgers p d c a (reg ++ [il]) =
    if existsb (Z.eqb il.1) (std_ledgers p d c a) then other_ledgers p d c a reg
    else dset (str_int il.1) (VInt il.2) (other_ledgers p d c a reg).
Proof. unfold other_ledgers. by rewrite foldl_app. Qed.

Lemma other_ledgers_NoDup p d c a reg : NoDup (dkeys (other_ledgers p d c a reg)).
Proof.
  induction reg as [|il reg IH] using rev_ind; [constructor|]. rewrite other_ledgers_app.
  destruct (existsb _ _); [done|by apply dset_NoDup].
Qed.

(** The sizes that are added to the counts: those of the ledgers that are not plenum's. *)
Lemma other_ledgers_spec p d c a reg id size :
  NoDup reg.*1 → (id, size) ∈ reg →
  dget (str_int id) (other_ledgers p d c a reg) = if existsb (Z.eqb id) (std_ledgers p d c a) then None else Some (VInt size).
Proof.
  induction reg as [|[i n] reg IH] using rev_ind; [by intros _ ?%not_elem_of_nil|]. rewrite fmap_app, other_ledgers_app. cbn [fst snd].
  intros [Hnd [Hout _]]%NoDup_app Hin. apply elem_of_app in Hin as [Hin|Hin].
  - assert (i ≠ id) as Hne.
    { intros ->. apply (Hout id); [apply list_elem_of_fmap; by exists (id, size)|by apply list_elem_of_here]. }
    destruct (existsb (Z.eqb i) _); [by apply IH|]. rewrite dget_dset_ne; [by apply IH|]. by intros ?%str_int_inj.
  - apply list_elem_of_singleton in Hin as [= -> ->]. destruct (existsb (Z.eqb i) _) eqn:E; [|by rewrite dget_dset_eq].
    assert (∀ reg', (∀ q, q ∈ reg'.*1 → q ≠ i) → dget (str_int i) (other_ledgers p d c a reg') = None) as H.
    { induction reg' as [|[j m] reg' IH'] using rev_ind; [done|]. rewrite fmap_app, other_ledgers_app. cbn [fst snd]. intros Hq.
      destruct (existsb (Z.eqb j) _); [apply IH'; intros q Hq'; apply Hq, elem_of_app; by left|].
      rewrite dget_dset_ne; [apply IH'; intros q Hq'; apply Hq, elem_of_app; by left|].
      intros ->%str_int_inj. apply (Hq i); [|done]. apply elem_of_app. right. by apply list_elem_of_here. }
    apply H. intros q Hq ->. apply (Hout i Hq). by apply list_elem_of_here.
Qed.

Lemma res_fold_plugins {N} (f : N → string → res N) l : ∀ node node',
  res_fold f node l = Ok node' → ∃ nodes, length nodes = length l ∧
    (∀ i p, l !! i = Some p → ∃ m m', (node :: nodes) !! i = Some m ∧ (node :: nodes) !! S i = Some m' ∧ f m p = Ok m') ∧
    last (node :: nodes) = Some node'.
Proof.
  induction l as [|p l IH]; intros node node' H; cbn in H; [injection H as ->; by exists []|].
  destruct (f node p) as [n1|] eqn:E; [|done]. destruct (IH n1 node' H) as (nodes & Hl & Hs & Hlast). exists (n1 :: nodes).
  split; [cbn; lia|]. split; [|done]. intros [|i] q Hq; [injection Hq as <-; by exists node, n1|]. by apply Hs.
Qed.

(** ** Properties *)

(** The names of the package win over plenum's, and what neither the package nor the files
    of the operator say stays plenum's. *)
Theorem configuration_precedence indy extend plenum general user ignore c0 c k :
  plenum general = Ok c0 → read_config indy extend plenum general user ignore = Ok c → NoDup (dkeys indy) →
  (∀ d, dget k (extend general user d).2 = dget k d) →
  dget k c = match dget k indy with Some v => Some v | None => dget k c0 end.
Proof.
  intros Hp Hc Hnd Hk. unfold read_config in Hc. rewrite Hp in Hc. cbn [res_bind] in Hc. specialize (Hk (dupdate c0 indy)).
  destruct (extend general user (dupdate c0 indy)) as [[e|] d]; cbn [snd] in Hk.
  - destruct ignore; [|done]. injection Hc as <-. rewrite Hk. by apply dget_dupdate.
  - injection Hc as <-. rewrite Hk. by apply dget_dupdate.
Qed.

(** The first configuration that could be read stays: later calls return it whatever
    directories they name, until the cache is dropped; a failure is not kept. *)
Theorem configuration_is_kept indy extend plenum g u g' u' s :
  let '(r, s1) := getConfig indy extend plenum g u s in
  match r with
  | Ok c => s1 = Some c ∧ getConfig indy extend plenum g' u' s1 = (Ok c, s1)
  | Raise _ => s1 = None ∧ s = None
  end.
Proof.
  unfold getConfig. destruct s as [c|]; [done|]. by destruct (read_config indy extend plenum g u false).
Qed.

(** A node that starts has the plugins integrated one after the other in the order of the
    configuration, each into the node the one before it left. *)
Theorem plugins_in_order {N} import_module is_import_error integrate_in (root : string) plugins (node node' : N) :
  integrate import_module is_import_error integrate_in root plugins node = Ok node' →
  ∃ nodes, length nodes = length plugins ∧ last (node :: nodes) = Some node' ∧
    ∀ i p, plugins !! i = Some p → import_module p = Ok tt ∧ import_module (p +:+ ".main") = Ok tt ∧
      ∃ m m', (node :: nodes) !! i = Some m ∧ (node :: nodes) !! S i = Some m' ∧ integrate_in p m = Ok m'.
Proof.
  unfold integrate. destruct (import_module root) as [[]|e]; [|by destruct (is_import_error e)]. intros H.
  destruct (res_fold_plugins _ _ _ _ H) as (nodes & Hl & Hs & Hlast). exists nodes. split; [done|]. split; [done|].
  intros i p Hp. destruct (Hs i p Hp) as (m & m' & H1 & H2 & H3). unfold integrate_plugin in H3.
  destruct (import_module p) as [[]|]; [|done]. cbn [res_bind] in H3. destruct (import_module (p +:+ ".main")) as [[]|]; [|done].
  split; [done|]. split; [done|]. by exists m, m'.
Qed.

(** A node reports the size of every ledger of a plugin and leaves the counts of its own
    ledgers, and all the rest, to plenum. *)
Theorem info_counts p d c a format_time registry info info' node_info metrics counts :
  validator_info p d c a format_time registry info = Ok info' →
  dget "Node_info" info = Some (VDict node_info) → dget "Metrics" node_info = Some (VDict metrics) →
  dget "transaction-count" metrics = Some (VDict counts) → NoDup registry.*1 →
  ∃ node_info' metrics' counts', dget "Node_info" info' = Some (VDict node_info') ∧
    dget "Metrics" node_info' = Some (VDict metrics') ∧ dget "transaction-count" metrics' = Some (VDict counts') ∧
    (∀ id size, (id, size) ∈ registry →
       dget (str_int id) counts' = if existsb (Z.eqb id) (std_ledgers p d c a) then dget (str_int id) counts else Some (VInt size)) ∧
    (∀ k, k ≠ "Node_info" → k ≠ "Update_time" → dget k info' = dget k info) ∧
    (∀ k, k ≠ "Metrics" → dget k node_info' = dget k node_info) ∧
    (∀ k, k ≠ "transaction-count" → dget k metrics' = dget k metrics).
Proof.
  intros H Hn Hm Ht Hnd. unfold validator_info in H. destruct (dgetitem "timestamp" info) as [ts|]; [|done]. cbn [res_bind] in H.
  destruct (format_time ts) as [t|]; [|done]. cbn [res_bind] in H. rewrite dget_dset_ne, Hn in H by done.
  cbn [dict_has res_bind] in H. unfold dhas in H. rewrite Hm in H. unfold update_item, update_with in H. rewrite Hm in H. cbn [res_bind] in H.
  rewrite Ht in H. cbn [res_bind] in H. injection H as <-. eexists _, _, _.
  split; [by rewrite dget_dset_eq|]. split; [by rewrite dget_dset_eq|]. split; [by rewrite dget_dset_eq|].
  split; [|split; [|split]].
  - intros id size Hin. rewrite dget_dupdate; [|].
    + rewrite (other_ledgers_spec p d c a registry id size Hnd Hin). by destruct (existsb _ _).
    + apply other_ledgers_NoDup.
  - intros k H1 H2. by rewrite !dget_dset_ne.
  - intros k H1. by rewrite dget_dset_ne.
  - intros k H1. by rewrite dget_dset_ne.
Qed.

(** *** Networks *)

Fixpoint slash_free (s : string) : bool :=
  match s with String c s' => negb (Ascii.eqb c "/") && slash_free s' | EmptyString => true end.

Lemma slash_free_inj a b x y : slash_free a = true → slash_free b = true → a +:+ "/" +:+ x = b +:+ "/" +:+ y → a = b.
Proof.
  revert b. induction a as [|c a IH]; intros b Ha Hb H; cbn in *.
  - destruct b as [|d b]; [done|]. cbn in *. injection H as <- H. done.
  - apply andb_true_iff in Ha as [Hc Ha]. destruct b as [|d b]; cbn in *; injection H as -> H; [done|].
    apply andb_true_iff in Hb as [_ Hb]. f_equal. by apply (IH b).
Qed.

Lemma slash_free_end a b : slash_free b = true → b ≠ "" → ends_with_slash (a +:+ b) = false.
Proof.
  intros Hb Hne. induction a as [|c a IH].
  - cbn [String.append]. induction b as [|d b IH]; [done|]. cbn in Hb. apply andb_true_iff in Hb as [Hd Hb].
    destruct b as [|e b]; [cbn; by destruct (Ascii.eqb d "/")|]. specialize (IH Hb ltac:(done)).
    unfold ends_with_slash in *. cbn [String.length String.get Nat.sub] in *. rewrite Nat.sub_0_r in IH. exact IH.
  - unfold ends_with_slash in *. cbn [String.append String.length]. rewrite Nat.sub_succ, Nat.sub_0_r.
    destruct (String.length (a +:+ b)) as [|n] eqn:E.
    + rewrite str_app_length in E. destruct b; [done|]. cbn in E. lia.
    + cbn [String.get]. rewrite Nat.sub_succ, Nat.sub_0_r in IH. exact IH.
Qed.

Lemma slash_free_prefix b : slash_free b = true → String.prefix "/" b = false.
Proof. destruct b as [|c b]; [done|]. cbn [slash_free]. intros [Hc _]%andb_true_iff. cbn [String.prefix]. destruct (ascii_dec "/" c) as [<-|Hne]; [done|]. done. Qed.

(** A path that goes on after the name of a network. *)
Lemma join_network base network (rest : list string) r :
  slash_free network = true → network ≠ "" → rest ≠ [] → Forall (λ x, slash_free x = true ∧ x ≠ "") rest →
  join_path (VStr base) (VStr network :: map VStr rest) = Ok r →
  ∃ x, r = dir_prefix base +:+ network +:+ "/" +:+ x.
Proof.
  intros Hn Hne Hr Hall. unfold join_path. cbn [text_of res_bind res_fold]. assert (∀ p, path_join p network = dir_prefix p +:+ network) as -> by (intros p; unfold path_join; by rewrite slash_free_prefix).
  set (start := dir_prefix base +:+ network).
  assert (∀ l p, Forall (λ x, slash_free x = true ∧ x ≠ "") l → (∃ x, p = start +:+ "/" +:+ x) →
    res_fold (λ p v, let! t := text_of v in Ok (path_join p t)) p (map VStr l) = Ok r → ∃ x, r = start +:+ "/" +:+ x) as H.
  { induction l as [|x l IH]; intros p Hl [y Hy] H; cbn in H; [injection H as <-; by exists y|]. inversion Hl as [|? ? [Hx1 Hx2] Hl']; subst.
    refine (IH _ Hl' _ H). unfold path_join. rewrite slash_free_prefix by done. unfold dir_prefix. destruct (_ || _).
    - exists (y +:+ x). by rewrite !str_app_assoc.
    - exists (y +:+ "/" +:+ x). by rewrite !str_app_assoc. }
  destruct rest as [|x rest]; [done|]. inversion Hall as [|? ? [Hx1 Hx2] Hall']; subst. cbn [map res_fold text_of res_bind]. intros Hfold.
  assert (∃ z, r = start +:+ "/" +:+ z) as [z ->]; [|exists z; unfold start; by rewrite str_app_assoc].
  refine (H rest _ Hall' _ Hfold). exists x. unfold path_join. rewrite slash_free_prefix by done. unfold dir_prefix at 1.
  assert (start ≠ "") as Hs by (unfold start; intros Hs; apply (f_equal String.length) in Hs; rewrite str_app_length in Hs; destruct network; [done|cbn in Hs; lia]).
  assert (str_eqb start "" = false) as -> by (by apply str_eqb_neq).
  unfold start at 1. rewrite slash_free_end by done. cbn [orb]. by rewrite str_app_assoc.
Qed.

(** Nodes of different networks that share a machine and its configuration have different
    directories for their ledgers. *)
Theorem networks_keep_apart chroot config base n1 n2 name d1 d2 :
  Inj (=) (=) chroot → dget "LEDGER_DIR" config = Some (VStr base) → n1 ≠ n2 →
  Forall (λ x, slash_free x = true ∧ x ≠ "") [n1; n2; name] →
  ledger_dir chroot (dset "NETWORK_NAME" (VStr n1) config) (Some name) = Ok d1 →
  ledger_dir chroot (dset "NETWORK_NAME" (VStr n2) config) (Some name) = Ok d2 → d1 ≠ d2.
Proof.
  intros Hinj Hbase Hn Hall. unfold ledger_dir, network_dir, attribute.
  rewrite (dget_dset_ne _ _ (VStr n1)), (dget_dset_ne _ _ (VStr n2)), !dget_dset_eq, Hbase by done. cbn [res_bind].
  inversion Hall as [|? ? [H1 H1'] Hall']; subst. inversion Hall' as [|? ? [H2 H2'] Hall'']; subst.
  assert (Forall (λ x, slash_free x = true ∧ x ≠ "") ["data"; name]) as Hrest by (constructor; [done|done]).
  destruct (join_path (VStr base) (VStr n1 :: map VStr ["data"; name])) as [p1|] eqn:E1; [|done]. destruct (join_path (VStr base) (VStr n2 :: map VStr ["data"; name])) as [p2|] eqn:E2; [|done].
  cbn [res_bind]. intros Hd1 Hd2 Heq. assert (chroot p1 = chroot p2) as Hp by congruence. apply Hinj in Hp as ->.
  destruct (join_network _ _ ["data"; name] _ H1 H1' ltac:(done) Hrest E1) as [x Hx]. destruct (join_network _ _ ["data"; name] _ H2 H2' ltac:(done) Hrest E2) as [y Hy].
  rewrite Hx in Hy. apply str_app_inj_l in Hy. by apply Hn, (slash_free_inj n1 n2 x y).
Qed.

Lemma networks_keep_apart_witness :
  let config := [("LEDGER_DIR", VStr "/var/lib/indy")] in
  ledger_dir id (dset "NETWORK_NAME" (VStr "live") config) (Some "Alpha") = Ok "/var/lib/indy/live/data/Alpha" ∧
  "/var/lib/indy/live/data/Alpha" ≠ "/var/lib/indy/sandbox/data/Alpha".
Proof.
  cbv zeta. split; [by vm_compute|].
  apply (networks_keep_apart id [("LEDGER_DIR", VStr "/var/lib/indy")] "/var/lib/indy" "live" "sandbox" "Alpha").
  - intros x y H. exact H.
  - by vm_compute.
  - done.
  - repeat (constructor; [by split|]). constructor.
  - by vm_compute.
  - by vm_compute.
Defined.
