(* ===== verification/Directories.v ===== *)
(** * The migrations of directories

    The scripts of [data/migrations/deb] that move the files of a node: 1_1_150 (from the
    home of sovrin to that of indy), 1_2_188 (to /etc, /var/lib and /var/log), 1_2_233
    (the data of the nodes up by one directory), 1_9_1 (the config state removed), the
    files of helper_1_0_96 and disabled_1_0_97, and [Setup] of
    [indy_common/setup_util.py], which copies the genesis files.

    They run over a tree of files ([FileTree]).  The configuration, the execution of a
    configuration file, owners and permissions, ledgers and their serializers are
    arguments. *)
From S2P Require Import Prelude PyValue Plenum Constants StateDomain IdrCache HandlerBase Upgrader PoolUpgrade World Versions Packages Migrations ControlTool EnvFiles FileTree.

Abbreviation M := (act FS).

(** [except FileNotFoundError]: nothing to visit. *)
Definition listdir_or_nothing (p : path) : M (list string) :=
  catch (FileTree.listdir p) (λ e, if bool_decide (e = FileNotFoundError) then ret [] else raise e).

Definition ext_copytree (src dst : path) : M unit := when (isdir dst) (ret tt) (copytree src dst).

(** [s.replace(old, new)] for an [old] that is not empty. *)
Definition py_replace (old new s : string) : string := py_join new (py_split old s).

(** ** 1_1_150_to_1_1_151.py *)

Definition rename_if_exists (dir : path) (old_name new_name : string) : M unit :=
  when (exists_ (dir ++ [old_name])) (rename (dir ++ [old_name]) (dir ++ [new_name])) (ret tt).

Definition ends_with (suffix s : string) : bool :=
  str_eqb (String.substring (String.length s - String.length suffix) (String.length suffix) s) suffix &&
  (String.length suffix <=? String.length s).

Definition rename_request_files (requests_dir : path) : M unit :=
  let? names := FileTree.listdir requests_dir in
  each (λ n, when (λ s, FileTree.isfile (requests_dir ++ [n]) s && ends_with ".sovrin" n)
    (rename (requests_dir ++ [n])
       (requests_dir ++ [String.substring 0 (String.length n - String.length ".sovrin") n +:+ ".indy"]))
    (ret tt)) names.

Definition sovrin_dir : path := ["home"; "sovrin"; ".sovrin"].
Definition indy_dir : path := ["home"; "indy"; ".indy"].

(** [migrate]; [chown] is the command that gives the files to indy. *)
Definition migrate_home (chown : M unit) : M unit :=
  let? _ := when (isdir indy_dir) (FileTree.rmtree indy_dir) (ret tt) in
  let? _ := copytree sovrin_dir indy_dir in
  let? _ := rename_if_exists indy_dir ".sovrin" ".indy" in
  let? _ := rename_if_exists indy_dir "sovrin.env" "indy.env" in
  let? _ := rename_if_exists indy_dir "sovrin_config.py" "indy_config.py" in
  let? _ := when (isdir (indy_dir ++ ["sample"])) (rename_request_files (indy_dir ++ ["sample"])) (ret tt) in
  chown.

(** [os.path.join(base, name)] for a name from a configuration, which may be absolute, have
    several parts, and go up: the path the system resolves it to. *)
Definition resolve_part (p : path) (part : string) : path :=
  if str_eqb part "" || str_eqb part "." then p
  else if str_eqb part ".." then removelast p else p ++ [part].

Definition join_name (base : path) (name : string) : path :=
  foldl resolve_part (if String.prefix "/" name then [] else base) (py_split "/" name).

(** ** 1_2_188_to_1_2_189.py *)

Definition var_lib_indy : path := ["var"; "lib"; "indy"].
Definition etc_indy : path := ["etc"; "indy"].
Definition var_log_indy : path := ["var"; "log"; "indy"].
Definition cli_networks : path := ["home"; "indy"; ".indy-cli"; "networks"].

Definition networks : list string := ["sandbox"; "live"; "local"].

Definition copy_if_exists (old new1 new2 : path) : M unit :=
  when (exists_ old) (let? _ := FileTree.copy2 old new1 in FileTree.copy2 old new2) (ret tt).

Definition migrate_network_genesis (old_base new_base new_cli : path) (suffix : string) : M unit :=
  let new_txn_dir := new_base ++ [suffix] in
  let new_cli_dir := new_cli ++ [suffix] in
  let? _ := makedirs new_txn_dir true in
  let? _ := makedirs new_cli_dir true in
  let? _ := copy_if_exists (old_base ++ ["domain_transactions_" +:+ suffix +:+ "_genesis"])
              (new_txn_dir ++ ["domain_transactions_genesis"]) (new_cli_dir ++ ["domain_transactions_genesis"]) in
  copy_if_exists (old_base ++ ["pool_transactions_" +:+ suffix +:+ "_genesis"])
    (new_txn_dir ++ ["pool_transactions_genesis"]) (new_cli_dir ++ ["pool_transactions_genesis"]).

Definition migrate_genesis_txn (old_base new_base new_cli : path) : M unit :=
  each (migrate_network_genesis old_base new_base new_cli) networks.

Definition network_from_txn_file_name (file_name : string) : string :=
  let l := default "" (last (py_split "_" file_name)) in
  if existsb (str_eqb l) ["live"; "local"; "sandbox"] then l else "sandbox".

(** The attributes of the old configuration that the script looks for. *)
Record OldConfig := mkOldConfig {
  poolTransactionsFile : option string;
  domainTransactionsFile : option string;
  current_env : option string
}.

Definition network_name_of (old_cfg : OldConfig) : string :=
  match poolTransactionsFile old_cfg, domainTransactionsFile old_cfg, current_env old_cfg with
  | Some f, _, _ => network_from_txn_file_name f
  | None, Some f, _ => network_from_txn_file_name f
  | None, None, Some e => if str_eqb e "test" then "sandbox" else e
  | None, None, None => "sandbox"
  end.

(** The lines of the old file that are kept. *)
Definition general_line (line : string) : bool :=
  negb (String.prefix "current_env" line) && negb (String.prefix "poolTransactionsFile" line) &&
  negb (String.prefix "domainTransactionsFile" line).

Definition migrate_general_config (old new : path) (network_name : string) : M unit :=
  let? text := read_file old in
  append_file new (nl +:+ String.concat "" (List.filter general_line (readlines text)) +:+
                   "NETWORK_NAME = '" +:+ network_name +:+ "'" +:+ nl).

Definition without_network (dname : string) : string :=
  py_replace "_local" "" (py_replace "_live" "" (py_replace "_sandbox" "" dname)).

Definition rebuilt_dirs : list string := ["pool_state"; "domain_state"; "config_state"; "idr_cache_db"].

Definition remove_network_from_dir_name (root_dir : path) : M unit :=
  let? visit_dirs := listdir_or_nothing root_dir in
  each (λ dname,
    let _dname := without_network dname in
    let? _ := if str_eqb _dname dname then ret tt else rename (root_dir ++ [dname]) (root_dir ++ [_dname]) in
    if existsb (str_eqb _dname) rebuilt_dirs then FileTree.rmtree (root_dir ++ [_dname]) else ret tt) visit_dirs.

Definition not_keys : list string := ["data"; "__pycache__"; "wallets"; "sample"; "plugins"].

Section Home.
(** The old configuration file executed, and the owner of directories. *)
Context (exec_config : string → res OldConfig) (own : list path → M unit).

Definition old_base_dir : path := indy_dir.

Definition get_network_name : M string :=
  let? text := read_file (old_base_dir ++ ["indy_config.py"]) in
  let? cfg := lift (exec_config text) in
  ret (network_name_of cfg).

Definition migrate_node_dir (network_name node_name : string) : M unit :=
  let new_node_data_dir := join_name var_lib_indy network_name ++ ["data"; "nodes"] in
  let to_path := new_node_data_dir ++ [node_name] in
  let? _ := ext_copytree (old_base_dir ++ ["data"; "nodes"] ++ [node_name]) to_path in
  remove_network_from_dir_name to_path.

Definition migrate_other (network_name fs_name : string) : M unit :=
  let full_path := old_base_dir ++ [fs_name] in
  if py_in_str "_info" fs_name then FileTree.copy2 full_path (join_name var_lib_indy network_name)
  else if py_in_str ".log" fs_name then FileTree.copy2 full_path (join_name var_log_indy network_name)
  else when (λ s, isdir full_path s && negb (existsb (str_eqb fs_name) not_keys))
         (ext_copytree full_path (join_name var_lib_indy network_name ++ ["keys"] ++ [fs_name])) (ret tt).

(** [migrate_all], and the permissions after it. *)
Definition migrate_to_system_dirs : M unit :=
  let? network_name := get_network_name in
  let? _ := makedirs etc_indy true in
  let? _ := migrate_general_config (old_base_dir ++ ["indy_config.py"]) (etc_indy ++ ["indy_config.py"]) network_name in
  let? _ := FileTree.copy2 (old_base_dir ++ ["indy.env"]) (etc_indy ++ ["indy.env"]) in
  let? _ := makedirs cli_networks true in
  let? _ := migrate_genesis_txn old_base_dir var_lib_indy cli_networks in
  let? visit_dirs := listdir_or_nothing (old_base_dir ++ ["data"; "nodes"]) in
  let? _ := each (migrate_node_dir network_name) visit_dirs in
  let? _ := makedirs (join_name var_log_indy network_name) true in
  let? _ := makedirs (join_name var_lib_indy network_name ++ ["keys"]) true in
  let? visit_dirs := listdir_or_nothing old_base_dir in
  let? _ := each (migrate_other network_name) visit_dirs in
  own [etc_indy; var_lib_indy; var_log_indy; ["home"; "indy"; ".indy-cli"]].
End Home.

(** ** 1_2_233_to_1_2_234.py *)

Section Nodes.
Context (ledger_data_dir general_config_path indy_config_file : path) (own : list path → M unit).

Definition old_nodes_data_dir : path := ledger_data_dir ++ ["nodes"].

Definition migrate_nodes_data : M unit :=
  let? visit_dirs := listdir_or_nothing old_nodes_data_dir in
  let? _ := each (λ n, ext_copytree (old_nodes_data_dir ++ [n]) (ledger_data_dir ++ [n])) visit_dirs in
  let? _ := FileTree.rmtree old_nodes_data_dir in
  own [ledger_data_dir].

Definition missing_line (line : string) : bool :=
  negb (String.prefix "NETWORK_NAME" line) && negb (str_eqb line ("# Current network" +:+ nl)).

Definition migrate_config : M unit :=
  when (λ s, negb (exists_ general_config_path s)) (ret tt)
    (when (λ s, negb (FileTree.isfile general_config_path s)) (ret tt)
       (let? text := read_file indy_config_file in
        append_file general_config_path (nl +:+ String.concat "" (List.filter missing_line (readlines text))))).

Definition migrate_nodes_all : M unit := let? _ := migrate_config in migrate_nodes_data.
End Nodes.

(** ** 1_9_1_to_1_9_2.py *)

Section ConfigState.
Context (ledger_dir : string → path) (network_name configStateDbName configStateTsDbName : string).

Definition env_file : path := etc_indy ++ ["indy.env"].

(** The value of the first line with the key; [None] is a message and no name. *)
Fixpoint node_name_in (lines : list string) : res (option string) :=
  match lines with
  | [] => Ok None
  | line :: lines' =>
      if py_in_str "NODE_NAME" line
      then match py_split "=" line with
           | _ :: v :: _ => Ok (Some (strip v))
           | _ => Raise IndexError
           end
      else node_name_in lines'
  end.

Definition get_node_name : M (option string) :=
  when (exists_ env_file) (let? text := read_file env_file in lift (node_name_in (readlines text))) (ret None).

(** [remove_dir]: what [rmtree] raises is no [shutil.Error]. *)
Definition remove_dir (p : path) : M bool := let? _ := FileTree.rmtree p in ret true.

Definition migrate_config_state : M bool :=
  let? node_name := get_node_name in
  match node_name with
  | None => ret false
  | Some name =>
      if negb (str_eqb "net3" network_name) then ret false else
      let state := ledger_dir name ++ [configStateDbName] in
      let ts_db := ledger_dir name ++ [configStateTsDbName] in
      when (λ s, negb (exists_ ts_db s)) (ret false)
        (when (λ s, negb (exists_ state s)) (ret false)
           (let? ok := remove_dir ts_db in
            if negb ok then ret false else
            let? ok := remove_dir state in
            ret ok))
  end.
End ConfigState.

(** ** helper_1_0_96_to_1_0_97.py and disabled_1_0_97_to_1_0_96.py *)

Definition remove_if_exists (p : path) : M unit := when (exists_ p) (FileTree.remove_file p) (ret tt).
Definition rmtree_if_exists (p : path) : M unit := when (exists_ p) (FileTree.rmtree p) (ret tt).

(** [migrate_all_hash_stores]: the hash stores are deleted; [open_ledger] opens the ledger
    with the file of that name, which makes them again. *)
Definition migrate_all_hash_stores (open_ledger : string → M unit) (ledger_files : list string) (node_dir : path) : M unit :=
  let? _ := rmtree_if_exists (node_dir ++ ["_merkleNodes"]) in
  let? _ := rmtree_if_exists (node_dir ++ ["_merkleLeaves"]) in
  let? _ := each (λ n, remove_if_exists (node_dir ++ [n]))
              ["_merkleNodes.bin"; "_merkleLeaves.bin"; "config_merkleNodes.bin"; "config_merkleLeaves.bin"] in
  each open_ledger ledger_files.

Definition migrate_all_states (node_dir : path) : M unit :=
  each (λ n, FileTree.rmtree (node_dir ++ [n])) ["pool_state"; "domain_state"; "config_state"].

Section GenesisFormat.
(** The lines of a file without what the ledger package leaves out, and its serializers,
    the compact one with the fields of a transaction. *)
Context (clean_lines : string → list string).
Context (compact_des json_des : string → res (dict val)) (compact_ser json_ser : dict val → res string).

Definition old_domain_genesis (base : path) (suffix : string) : path := base ++ ["transactions_" +:+ suffix].
Definition old_pool_genesis (base : path) (suffix : string) : path := base ++ ["pool_transactions_" +:+ suffix].
Definition new_domain_genesis (base : path) (suffix : string) : path := base ++ ["domain_transactions_" +:+ suffix +:+ "_genesis"].
Definition new_pool_genesis (base : path) (suffix : string) : path := base ++ ["pool_transactions_" +:+ suffix +:+ "_genesis"].

(** The file [dst] made of the lines of [src]. *)
Definition convert_lines (convert : string → res string) (src dst : path) : M unit :=
  let? text := read_file src in
  let? _ := FileTree.write_file dst "" in
  each (λ line, let? out := lift (convert line) in append_file dst out) (clean_lines text).

Definition to_json_line (line : string) : res string :=
  let! txn := compact_des line in
  let! out := json_ser (filter (λ kv : string * val, py_truth kv.2 = true) txn) in Ok (out +:+ nl).

Definition upgrade_genesis (base : path) (suffix : string) : M unit :=
  let? _ := remove_if_exists (new_domain_genesis base suffix) in
  let? _ := remove_if_exists (new_pool_genesis base suffix) in
  let? _ := when (exists_ (old_domain_genesis base suffix))
    (let? _ := convert_lines to_json_line (old_domain_genesis base suffix) (new_domain_genesis base suffix) in
     FileTree.remove_file (old_domain_genesis base suffix)) (ret tt) in
  when (exists_ (old_pool_genesis base suffix))
    (rename (old_pool_genesis base suffix) (new_pool_genesis base suffix)) (ret tt).

Definition to_compact_line (line : string) : res string :=
  let! txn := json_des line in compact_ser txn.

Definition downgrade_genesis (base : path) (suffix : string) : M unit :=
  let? _ := remove_if_exists (old_domain_genesis base suffix) in
  let? _ := remove_if_exists (old_pool_genesis base suffix) in
  let? _ := when (exists_ (new_domain_genesis base suffix))
    (let? _ := convert_lines to_compact_line (new_domain_genesis base suffix) (old_domain_genesis base suffix) in
     FileTree.remove_file (new_domain_genesis base suffix)) (ret tt) in
  when (exists_ (new_pool_genesis base suffix))
    (rename (new_pool_genesis base suffix) (old_domain_genesis base suffix)) (ret tt).

(** [migrate_genesis_txn] of the two scripts. *)
Definition upgrade_all_genesis (base : path) : M unit := each (upgrade_genesis base) ["sandbox"; "live"; "local"].
Definition downgrade_all_genesis (base : path) : M unit := each (downgrade_genesis base) ["sandbox"; "live"; "local"].
End GenesisFormat.

(** ** setup_util.py *)

Inductive LedgerKey := PoolLedger | DomainLedger.

(** The files of the environments "local", "test" and "live". *)
Definition env_files (key : LedgerKey) : list string :=
  match key with
  | PoolLedger => ["pool_transactions_local"; "pool_transactions_sandbox"; "pool_transactions_live"]
  | DomainLedger => ["domain_transactions_local"; "domain_transactions_sandbox"; "domain_transactions_live"]
  end.

Section Setup.
Context (genesis_txn_file : string → string) (data_dir base_dir : path).

Definition setup_txn (force : bool) (file_name : string) : M unit :=
  let src := data_dir ++ [file_name] in
  let dest := base_dir ++ [genesis_txn_file file_name] in
  when (λ s, negb (exists_ src s)) (ret tt)
    (when (λ s, exists_ dest s && negb force) (ret tt) (copyfile src dest)).

Definition setupTxns (key : LedgerKey) (force : bool) : M unit := each (setup_txn force) (env_files key).

Definition setupCommon : M unit := setupTxns PoolLedger false.
Definition setupNode : M unit := setupTxns DomainLedger false.

(** The sample requests of the package, whose directory is [sample_dir]: [*.indy] leaves
    out names that begin with a dot. *)
Definition setupSampleInvites (sample_dir : path) : M unit :=
  let sidir := base_dir ++ ["sample"] in
  let? _ := makedirs sidir true in
  let? files := (λ s, (Ok (List.filter (λ n, negb (String.prefix "." n) && ends_with ".indy" n) (names_in sample_dir s)), s)) in
  each (λ n, when (FileTree.isfile (sample_dir ++ [n])) (copy2 (sample_dir ++ [n]) sidir) (ret tt)) files.

Definition setupClient (sample_dir : path) : M unit := setupSampleInvites sample_dir.
End Setup.

(** ** Lemmas *)

(** What is in the directory [src]. *)
Definition inside (src q : path) : Prop := is_Some (below src q).

Lemma not_inside src b r : apart src b → ¬ inside src (b ++ r).
Proof. intros H [x Hx]. destruct (apart_app src b r H) as [H1 _]. congruence. Qed.

Lemma not_inside_self src b : apart src b → ¬ inside src b.
Proof. intros H. rewrite <-(app_nil_r b). by apply not_inside. Qed.

Lemma not_inside_ancestors src b : apart src b → Forall (λ q, ¬ inside src q) (ancestors b).
Proof.
  intros [H1 H2]. apply Forall_forall. intros q Hq [r Hr]. apply below_Some in Hr.
  unfold ancestors in Hq. apply list_elem_of_fmap in Hq as (n & -> & _).
  rewrite <-(take_drop n b), Hr, <-app_assoc, below_app in H1. done.
Qed.

#[export] Hint Resolve not_inside not_inside_self not_inside_ancestors apart_app : keeps.
#[export] Hint Resolve keeps_mkdir keeps_makedirs keeps_listdir keeps_rmtree keeps_remove_file keeps_rename keeps_copytree
  keeps_copyfile keeps_copy2 keeps_read_file keeps_append_file : keeps.

(** A name without a slash is one part, and leads to a directory that has nothing in
    common with the old one. *)
Lemma split_without sep t : py_in_str sep t = false → py_split sep t = [t].
Proof.
  intros Ht. unfold py_split. rewrite split_go_last; [done|].
  induction t as [|c t IH]; [done|]. cbn [py_in_str] in Ht. apply orb_false_iff in Ht as [Hp Ht].
  cbn [sep_free]. rewrite str_app_nil_r, Hp. by apply IH.
Qed.

Lemma no_slash_join base name :
  py_in_str "/" name = false → base ≠ [] → 
  join_name base name = base ∨ join_name base name = removelast base ∨ join_name base name = base ++ [name].
Proof.
  intros Hn Hb. unfold join_name. rewrite (split_without "/" name Hn). cbn [foldl].
  assert (String.prefix "/" name = false) as ->.
  { destruct name; [done|]. cbn [py_in_str] in Hn. by apply orb_false_iff in Hn as [? _]. }
  unfold resolve_part. destruct (_ || _); [by left|]. destruct (str_eqb name ".."); auto.
Qed.

Lemma no_slash_apart name :
  py_in_str "/" name = false →
  apart old_base_dir (join_name var_lib_indy name) ∧ apart old_base_dir (join_name var_log_indy name).
Proof.
  intros Hn. split.
  - destruct (no_slash_join var_lib_indy name Hn) as [->|[->| ->]]; [done|by split..].
  - destruct (no_slash_join var_log_indy name Hn) as [->|[->| ->]]; [done|by split..].
Qed.

(** Programs that keep the directory [src]. *)
Section Kept.
Context (src : path).
Abbreviation R := (kept (inside src)).

Lemma kept_ret {A : Type} (a : A) : frames R (ret a).
Proof. by intros s. Qed.

Lemma keeps_lift {A : Type} (r : res A) : frames R (lift r).
Proof. by intros s. Qed.

Lemma keeps_listdir_or_nothing p : frames R (listdir_or_nothing p).
Proof. apply frames_catch; [apply _|apply keeps_listdir|]. intros e. by case_bool_decide. Qed.

Lemma keeps_ext_copytree a b : apart src b → frames R (ext_copytree a b).
Proof. intros Hb. apply keeps_when; [apply kept_ret|]. apply keeps_copytree; [by apply not_inside_ancestors|eauto with keeps]. Qed.

Lemma keeps_rename_if_exists d m n : apart src d → frames R (rename_if_exists d m n).
Proof. intros Hd. apply keeps_when; [|apply kept_ret]. apply keeps_rename; intros r; apply not_inside; eauto with keeps. Qed.

Lemma keeps_rename_request_files d : apart src d → frames R (rename_request_files d).
Proof.
  intros Hd. apply frames_bind; [apply _|apply keeps_listdir|]. intros names. apply frames_each; [apply _|]. intros n.
  apply keeps_when; [|apply kept_ret]. apply keeps_rename; intros r; apply not_inside; eauto with keeps.
Qed.

Lemma keeps_copy_into a b : apart src b → frames R (FileTree.copy2 a b).
Proof. intros Hb. apply keeps_copy2; eauto with keeps. Qed.

Lemma keeps_genesis old new cli : apart src new → apart src cli → frames R (migrate_genesis_txn old new cli).
Proof.
  intros Hn Hc. apply frames_each; [apply _|]. intros suffix. unfold migrate_network_genesis.
  assert (∀ o m, frames R (copy_if_exists o (new ++ [suffix] ++ [m]) (cli ++ [suffix] ++ [m]))) as Hcp.
  { intros o m. apply keeps_when; [|apply kept_ret]. apply frames_bind; [apply _|apply keeps_copy_into; by apply apart_app|].
    intros _. apply keeps_copy_into. by apply apart_app. }
  apply frames_bind; [apply _|apply keeps_makedirs; eauto with keeps|]. intros _.
  apply frames_bind; [apply _|apply keeps_makedirs; eauto with keeps|]. intros _. rewrite <-!app_assoc.
  apply frames_bind; [apply _|apply Hcp|]. intros _. apply Hcp.
Qed.

Lemma keeps_remove_network d : apart src d → frames R (remove_network_from_dir_name d).
Proof.
  intros Hd. apply frames_bind; [apply _|apply keeps_listdir_or_nothing|]. intros l. apply frames_each; [apply _|]. intros n.
  apply frames_bind; [apply _| |].
  - destruct (str_eqb _ _); [apply kept_ret|]. apply keeps_rename; intros r; apply not_inside; eauto with keeps.
  - intros _. destruct (existsb _ _); [|apply kept_ret]. apply keeps_rmtree. intros r. apply not_inside. eauto with keeps.
Qed.
End Kept.

(** ** Properties *)

(** The new home is made of the old one, which stays as it is, whatever fails. *)
Theorem home_migration_keeps_old chown s q :
  (∀ s, (chown s).2 = s) → inside sovrin_dir q → (migrate_home chown s).2 !! q = s !! q.
Proof.
  intros Hown Hq. revert q Hq. change (kept (inside sovrin_dir) s (migrate_home chown s).2). revert s.
  assert (apart sovrin_dir indy_dir) as Ha by (by split).
  repeat (apply frames_bind; [apply _| |intros _]).
  - apply keeps_when; [|apply kept_ret]. apply keeps_rmtree. eauto with keeps.
  - apply keeps_copytree; eauto with keeps.
  - by apply keeps_rename_if_exists.
  - by apply keeps_rename_if_exists.
  - by apply keeps_rename_if_exists.
  - apply keeps_when; [|apply kept_ret]. apply keeps_rename_request_files. eauto with keeps.
  - intros s. by rewrite Hown.
Qed.

(** C23. The move of a node's files to the system directories loses nothing of the old
    directory: whichever step fails, every file and directory in it is there as before.
    The name of the network, which the old configuration may give, must not lead into
    the old directory or to one above it; no name without a slash does.  (One with a
    slash can: see below.) *)
Theorem system_migration_keeps_old exec_config own s q :
  (∀ l s, (own l s).2 = s) → inside old_base_dir q →
  (∀ text cfg, exec_config text = Ok cfg →
    let network := network_name_of cfg in
    py_in_str "/" network = false ∨
    apart old_base_dir (join_name var_lib_indy network) ∧ apart old_base_dir (join_name var_log_indy network)) →
  (migrate_to_system_dirs exec_config own s).2 !! q = s !! q.
Proof.
  intros Hown Hq Hnet. revert q Hq. change (kept (inside old_base_dir) s (migrate_to_system_dirs exec_config own s).2). revert s.
  assert (apart old_base_dir var_lib_indy ∧ apart old_base_dir etc_indy ∧ apart old_base_dir var_log_indy ∧
    apart old_base_dir cli_networks) as (Hv & He & Hl & Hc) by (by repeat split).
  intros s. unfold migrate_to_system_dirs, act_bind at 1.
  assert (get_network_name exec_config s = ((get_network_name exec_config s).1, s)) as Hs.
  { unfold get_network_name, act_bind, read_file, lift, ret. destruct (entry _ s) as [[text|]|]; [|done..].
    by destruct (exec_config text). }
  destruct (get_network_name exec_config s) as [[network|e] s1] eqn:Hname; injection Hs as ->; [|done].
  assert (apart old_base_dir (join_name var_lib_indy network) ∧ apart old_base_dir (join_name var_log_indy network))
    as [Hnv Hnl].
  { unfold get_network_name in Hname. apply act_bind_Ok in Hname as (text & w & _ & Hname).
    apply act_bind_Ok in Hname as (cfg & w1 & Hcfg & Hname). injection Hname as <- _. injection Hcfg as Hcfg _.
    destruct (Hnet text cfg Hcfg) as [Hslash|H]; [by apply no_slash_apart|exact H]. }
  clear Hname Hnet. match goal with |- kept _ _ (?m s).2 => revert s; change (frames (kept (inside old_base_dir)) m) end.
  apply frames_bind; [apply _|apply keeps_makedirs; eauto with keeps|intros _].
  apply frames_bind; [apply _| |intros _].
  { apply frames_bind; [apply _|apply keeps_read_file|]. intros text. apply keeps_append_file. eauto with keeps. }
  apply frames_bind; [apply _|apply keeps_copy_into; eauto with keeps|intros _].
  apply frames_bind; [apply _|apply keeps_makedirs; eauto with keeps|intros _].
  apply frames_bind; [apply _|by apply keeps_genesis|intros _].
  apply frames_bind; [apply _|apply keeps_listdir_or_nothing|intros nodes].
  apply frames_bind; [apply _| |intros _].
  { apply frames_each; [apply _|]. intros n. apply frames_bind; [apply _|apply keeps_ext_copytree; eauto with keeps|].
    intros _. apply keeps_remove_network. eauto with keeps. }
  apply frames_bind; [apply _|apply keeps_makedirs; eauto with keeps|intros _].
  apply frames_bind; [apply _|apply keeps_makedirs; eauto with keeps|intros _].
  apply frames_bind; [apply _|apply keeps_listdir_or_nothing|intros names].
  apply frames_bind; [apply _| |intros _; intros s1; by rewrite Hown].
  apply frames_each; [apply _|]. intros n. unfold migrate_other.
  destruct (py_in_str "_info" n); [apply keeps_copy_into; eauto with keeps|].
  destruct (py_in_str ".log" n); [apply keeps_copy_into; eauto with keeps|].
  apply keeps_when; [|apply kept_ret]. apply keeps_ext_copytree. eauto with keeps.
Qed.

(** *** The data of the nodes *)

Section NodesData.
Context (d : path) (own : list path → M unit) (Hown : ∀ l s, own l s = (Ok tt, s)).
Context (s0 : FS) (Hwf : wf_tree s0) (Hd : d ≠ []) (Hold : isdir (old_nodes_data_dir d) s0 = true).
Context (Hnodes : ∀ n, n ∈ names_in (old_nodes_data_dir d) s0 →
  isdir (old_nodes_data_dir d ++ [n]) s0 = true ∧ FileTree.isfile (d ++ [n]) s0 = false).

Abbreviation old := (old_nodes_data_dir d).

(** What is to be at a path in the data directory: the node's data, unless the directory
    of the node is there already. *)
Definition dest (n : string) (r : path) : option Entry :=
  if bool_decide (is_Some (s0 !! (old ++ [n]))) && negb (isdir (d ++ [n]) s0) then s0 !! (old ++ n :: r) else s0 !! (d ++ n :: r).

Lemma dest_dir n r : isdir (d ++ [n]) s0 = true → dest n r = s0 !! (d ++ n :: r).
Proof. intros H. unfold dest. rewrite H. by rewrite andb_false_r. Qed.

Definition moved (done : list string) (s : FS) : Prop :=
  (∀ n r, s !! (d ++ n :: r) = if decide (n ∈ done) then dest n r else s0 !! (d ++ n :: r)) ∧
  (∀ q, below d q = None → s !! q = s0 !! q) ∧ s !! d = s0 !! d.

Lemma moved_nodes done s r : moved done s → s !! (old ++ r) = s0 !! (old ++ r).
Proof.
  intros (H & _ & _). unfold old_nodes_data_dir. rewrite <-app_assoc. cbn [app]. rewrite H.
  case_decide; [|done]. by apply dest_dir.
Qed.

Lemma app_ne (p r : path) : p ≠ [] → p ++ r ≠ [].
Proof. by destruct p. Qed.

Lemma moved_above done s q : moved done s → q ∈ ancestors (d ++ ["nodes"]) → isdir q s = true.
Proof.
  intros (_ & Hout & Hsame) Hq.
  assert (is_Some (entry (d ++ ["nodes"]) s0)) as He.
  { unfold isdir in Hold. apply bool_decide_eq_true in Hold. unfold old_nodes_data_dir in Hold. rewrite Hold. by eexists. }
  pose proof (wf_ancestors _ _ _ Hwf He Hq) as H. unfold isdir in *. apply bool_decide_eq_true in H. apply bool_decide_eq_true.
  rewrite <-H. unfold ancestors in Hq. apply list_elem_of_fmap in Hq as (k & -> & Hk%list_elem_of_In%in_seq).
  rewrite length_app in Hk. cbn in Hk. rewrite take_app_le by lia.
  destruct d as [|x d']; [done|]. destruct k as [|k]; [lia|]. cbn [take entry].
  destruct (decide (length d' ≤ k)) as [Hl|Hl].
  - rewrite take_ge by done. apply Hsame.
  - apply Hout. apply below_None. intros r Heq. apply (f_equal length) in Heq. rewrite length_app in Heq.
    cbn in Heq. rewrite length_take in Heq. lia.
Qed.

Lemma ancestors_child (n m : string) : ancestors (d ++ [n]) = ancestors (d ++ [m]).
Proof.
  unfold ancestors. rewrite !length_app. apply map_ext_in. intros k Hk%in_seq. cbn in Hk. by rewrite !take_app_le by lia.
Qed.

Lemma parent_child (n : string) : parent (d ++ [n]) = d.
Proof. apply removelast_last. Qed.

Lemma moved_step done n s :
  n ∈ names_in old s0 → moved done s → runs (ext_copytree (old ++ [n]) (d ++ [n])) s (λ _ s', moved (done ++ [n]) s').
Proof.
  intros Hn Hm. pose proof Hm as (H & Hout & Hsame). destruct (Hnodes n Hn) as [Hdir Hfile].
  assert (Hsome : is_Some (s0 !! (old ++ [n]))) by by apply names_in_elem.
  assert (isdir (d ++ [n]) s = if decide (n ∈ done) then true else isdir (d ++ [n]) s0) as Hi.
  { unfold isdir. rewrite !entry_lookup by (by apply app_ne). rewrite H. case_decide; [|done]. unfold dest.
    rewrite (bool_decide_eq_true_2 _ Hsome). cbn [andb]. destruct (isdir (d ++ [n]) s0) eqn:E; cbn [negb].
    - unfold isdir in E. by rewrite entry_lookup in E by (by apply app_ne).
    - unfold isdir in Hdir. by rewrite entry_lookup in Hdir by (by apply app_ne, app_ne). }
  unfold ext_copytree, when, runs. rewrite Hi. destruct (decide (n ∈ done)) as [Hin|Hin].
  { exists tt, s. split; [done|]. split; [|done]. intros m r. rewrite H.
    destruct (decide (m ∈ done)), (decide (m ∈ done ++ [n])); set_solver. }
  destruct (isdir (d ++ [n]) s0) eqn:E.
  { exists tt, s. split; [done|]. split; [|done]. intros m r. rewrite H.
    destruct (decide (m = n)) as [->|Hne]; [rewrite decide_False, decide_True by set_solver; by rewrite dest_dir|].
    destruct (decide (m ∈ done)), (decide (m ∈ done ++ [n])); set_solver. }
  assert (s0 !! (d ++ [n]) = None) as Hno.
  { unfold isdir, FileTree.isfile in E, Hfile. rewrite entry_lookup in E, Hfile by (by apply app_ne).
    destruct (s0 !! (d ++ [n])) as [[]|]; [done| |done]. by apply bool_decide_eq_false in E. }
  assert (n ≠ "nodes") as Hne by (intros ->; unfold old_nodes_data_dir in Hold; congruence).
  destruct (copytree_Ok (old ++ [n]) (d ++ [n]) s) as (s' & -> & Hs').
  - by apply app_ne, app_ne.
  - by apply app_ne.
  - intros q. rewrite (ancestors_child n "nodes"). by apply (moved_above done).
  - rewrite parent_child. unfold isdir. rewrite entry_lookup, Hsame by done. apply bool_decide_eq_true.
    rewrite <-entry_lookup by done. apply (Hwf _ "nodes"). unfold isdir in Hold. apply bool_decide_eq_true in Hold.
    unfold old_nodes_data_dir in Hold. rewrite entry_lookup in Hold by (by apply app_ne). rewrite Hold. by eexists.
  - unfold isdir. rewrite entry_lookup by (by apply app_ne, app_ne). rewrite (moved_nodes done) by done.
    rewrite <-entry_lookup by (by apply app_ne, app_ne). exact Hdir.
  - intros r. rewrite <-app_assoc. cbn [app]. rewrite H, decide_False by done.
    change (d ++ n :: r) with (d ++ [n] ++ r). rewrite app_assoc. apply wf_absent; [done|by apply app_ne|done].
  - exists tt, s'. split; [done|]. split; [|split].
    + intros m r. rewrite Hs'. destruct (decide (m = n)) as [->|Hmn].
      * rewrite decide_True by set_solver. change (d ++ n :: r) with (d ++ [n] ++ r). rewrite app_assoc, below_app.
        rewrite <-app_assoc, (moved_nodes done) by done. unfold dest. rewrite E, (bool_decide_eq_true_2 _ Hsome). done.
      * rewrite below_sibling by done. rewrite H. destruct (decide (m ∈ done)), (decide (m ∈ done ++ [n])); set_solver.
    + intros q Hq. rewrite Hs'. destruct (below (d ++ [n]) q) as [r|] eqn:E2; [|by apply Hout].
      apply below_Some in E2 as ->. by rewrite <-app_assoc, below_app in Hq.
    + rewrite Hs'. destruct (below (d ++ [n]) d) as [r|] eqn:E2; [|done].
      apply below_Some in E2. apply (f_equal length) in E2. rewrite !length_app in E2. cbn in E2. lia.
Qed.

Lemma nodes_data_moved :
  ∃ s', migrate_nodes_data d own s0 = (Ok tt, s') ∧
    (∀ n r, n ≠ "nodes" → s' !! (d ++ n :: r) = dest n r) ∧
    (∀ r, s' !! (old ++ r) = None) ∧ ∀ q, below d q = None → s' !! q = s0 !! q.
Proof.
  unfold migrate_nodes_data, act_bind at 1. unfold listdir_or_nothing, catch, FileTree.listdir. rewrite Hold.
  assert (runs (each (λ n, ext_copytree (old ++ [n]) (d ++ [n])) (names_in old s0)) s0 (λ _ s', moved (names_in old s0) s')) as (u & s1 & He & Hm).
  { assert (moved [] s0) as H0 by (split; [by intros n r|done]).
    enough (∀ l done s, (∀ n, n ∈ l → n ∈ names_in old s0) → moved done s →
      runs (each (λ n, ext_copytree (old ++ [n]) (d ++ [n])) l) s (λ _ s', moved (done ++ l) s')) as H
      by (by apply (H (names_in old s0) [] s0)).
    clear H0. induction l as [|n l IH]; intros done s Hl Hm; [exists tt, s; by rewrite app_nil_r|].
    cbn [each]. eapply runs_bind; [by apply (moved_step done n s); [apply Hl, list_elem_of_here|]|].
    intros u s1 Hm1. rewrite (cons_middle n done l), app_assoc. apply IH; [|done]. intros m Hin. apply Hl. by apply list_elem_of_further. }
  unfold act_bind. rewrite He. unfold FileTree.rmtree.
  assert (isdir old s1 = true) as ->.
  { unfold isdir. rewrite entry_lookup by (by apply app_ne). pose proof (moved_nodes _ _ [] Hm) as H. rewrite app_nil_r in H. rewrite H.
    unfold isdir in Hold. by rewrite entry_lookup in Hold by (by apply app_ne). }
  rewrite Hown. eexists. split; [done|]. destruct Hm as (H & Hout & _). split; [|split].
  - intros n r Hn. rewrite lookup_prune. unfold old_nodes_data_dir at 1. rewrite below_sibling by done. rewrite H.
    case_decide as Hin; [done|]. unfold dest. rewrite names_in_elem in Hin. by rewrite (bool_decide_eq_false_2 _ Hin).
  - intros r. by rewrite lookup_prune, below_app.
  - intros q Hq. rewrite lookup_prune. destruct (below old q) as [r|] eqn:E; [|by apply Hout].
    apply below_Some in E as ->. unfold old_nodes_data_dir in Hq. by rewrite <-app_assoc, below_app in Hq.
Qed.
End NodesData.

(** The data of every node is moved up: when the migration finds the directory with
    the nodes, it ends, that directory is gone, every node's files are at the place of
    the node in the data directory and nothing else changes.  A node that has a
    directory there already keeps that one, and its files in the old place are lost. *)
Theorem node_data_moved d own s :
  (∀ l s, own l s = (Ok tt, s)) → wf_tree s → d ≠ [] → isdir (d ++ ["nodes"]) s = true →
  (∀ n, n ∈ names_in (d ++ ["nodes"]) s → isdir (d ++ ["nodes"; n]) s = true ∧ FileTree.isfile (d ++ [n]) s = false) →
  ∃ s', migrate_nodes_data d own s = (Ok tt, s') ∧
    (∀ n r, n ≠ "nodes" → s' !! (d ++ n :: r) =
       if bool_decide (is_Some (s !! (d ++ ["nodes"; n]))) && negb (isdir (d ++ [n]) s)
       then s !! (d ++ "nodes" :: n :: r) else s !! (d ++ n :: r)) ∧
    (∀ r, s' !! (d ++ "nodes" :: r) = None) ∧ ∀ q, below d q = None → s' !! q = s !! q.
Proof.
  intros Hown Hwf Hd Hold Hn.
  assert (∀ r, old_nodes_data_dir d ++ r = d ++ "nodes" :: r) as Happ by (intros r; unfold old_nodes_data_dir; by rewrite <-app_assoc).
  destruct (nodes_data_moved d own Hown s Hwf Hd Hold) as (s' & He & H & Hno & Hout).
  { intros n Hin. rewrite Happ. by apply Hn. }
  exists s'. split; [done|]. split; [|split; [|done]].
  - intros n r Hne. rewrite (H n r Hne). unfold dest. by rewrite !Happ.
  - intros r. rewrite <-Happ. apply Hno.
Qed.

(** Two nodes, of which one has a directory in the new place. *)
Definition sample_tree : FS := list_to_map
  [(["d"], EDir); (["d"; "nodes"], EDir); (["d"; "nodes"; "Alpha"], EDir); (["d"; "nodes"; "Alpha"; "log"], EFile "a");
   (["d"; "nodes"; "Beta"], EDir); (["d"; "nodes"; "Beta"; "log"], EFile "b"); (["d"; "Beta"], EDir)].

Lemma wf_tree_decide (s : FS) :
  Forall (λ qe : path * Entry, entry (parent qe.1) s = Some EDir) (map_to_list s) → wf_tree s.
Proof.
  intros H p n [e He]. rewrite Forall_forall in H. specialize (H (p ++ [n], e)). cbn in H. unfold parent in H.
  rewrite removelast_last in H. by apply H, elem_of_map_to_list.
Qed.

Lemma sample_tree_wf : wf_tree sample_tree.
Proof. apply wf_tree_decide. apply (bool_decide_unpack _). by vm_compute. Qed.

Lemma sample_tree_nodes n :
  n ∈ names_in ["d"; "nodes"] sample_tree →
  isdir ["d"; "nodes"; n] sample_tree = true ∧ FileTree.isfile ["d"; n] sample_tree = false.
Proof.
  assert (Forall (λ n, isdir ["d"; "nodes"; n] sample_tree = true ∧ FileTree.isfile ["d"; n] sample_tree = false)
    (names_in ["d"; "nodes"] sample_tree)) as H by (apply (bool_decide_unpack _); by vm_compute).
  rewrite Forall_forall in H. apply H.
Qed.

Lemma node_data_moved_witness :
  ∃ s', migrate_nodes_data ["d"] (λ _, ret tt) sample_tree = (Ok tt, s') ∧
    s' !! ["d"; "Alpha"; "log"] = Some (EFile "a") ∧ s' !! ["d"; "Beta"; "log"] = None ∧ s' !! ["d"; "nodes"; "Beta"; "log"] = None.
Proof.
  destruct (node_data_moved ["d"] (λ _, ret tt) sample_tree (λ _ _, eq_refl) sample_tree_wf ltac:(done) eq_refl sample_tree_nodes)
    as (s' & He & H & Hno & _).
  exists s'. split; [exact He|]. split; [etrans; [exact (H "Alpha" ["log"] ltac:(done))|by vm_compute]|].
  split; [etrans; [exact (H "Beta" ["log"] ltac:(done))|by vm_compute]|]. apply (Hno ["Beta"; "log"]).
Defined.

(** Without the directory the migration fails, though the list of its names is allowed to
    be missing. *)
Theorem node_data_without_directory d own s :
  d ≠ [] → exists_ (d ++ ["nodes"]) s = false → migrate_nodes_data d own s = (Raise FileNotFoundError, s).
Proof.
  intros Hd He. assert (isdir (d ++ ["nodes"]) s = false) as Hi.
  { unfold exists_ in He. apply bool_decide_eq_false in He. unfold isdir. apply bool_decide_eq_false. intros H. apply He. rewrite H. by eexists. }
  assert (no_dir (d ++ ["nodes"]) s = FileNotFoundError) as Hn by (unfold no_dir; by rewrite He).
  assert (listdir_or_nothing (d ++ ["nodes"]) s = (Ok [], s)) as Hl.
  { unfold listdir_or_nothing, catch, FileTree.listdir. rewrite Hi, Hn. by rewrite bool_decide_eq_true_2. }
  unfold migrate_nodes_data, old_nodes_data_dir, act_bind at 1. rewrite Hl. cbn [each]. unfold act_bind, ret, FileTree.rmtree.
  by rewrite Hi, Hn.
Qed.

(** A small old home with its configuration. *)
Definition old_home : FS := list_to_map
  [(["home"], EDir); (["home"; "indy"], EDir); (old_base_dir, EDir); (old_base_dir ++ ["indy_config.py"], EFile "current_env = 'live'");
   (old_base_dir ++ ["indy.env"], EFile "NODE_NAME=Alpha"); (old_base_dir ++ ["Alpha_info"], EFile "{}")].

Lemma system_migration_keeps_old_witness :
  let s := (migrate_to_system_dirs (λ _, Ok (mkOldConfig None None (Some "live"))) (λ _, ret tt) old_home).2 in
  s !! (old_base_dir ++ ["indy.env"]) = Some (EFile "NODE_NAME=Alpha").
Proof.
  cbv zeta. rewrite (system_migration_keeps_old (λ _, Ok (mkOldConfig None None (Some "live"))) (λ _, ret tt) old_home
    (old_base_dir ++ ["indy.env"])); [by vm_compute|done|by eexists|].
  intros text cfg [= <-]. left. reflexivity.
Defined.

(** An old home with a node that has a state. *)
Definition node_home : FS :=
  list_to_map [(old_base_dir ++ ["data"], EDir); (old_base_dir ++ ["data"; "nodes"], EDir);
    (old_base_dir ++ ["data"; "nodes"; "Alpha"], EDir); (old_base_dir ++ ["data"; "nodes"; "Alpha"; "pool_state"], EDir);
    (old_base_dir ++ ["data"; "nodes"; "Alpha"; "pool_state"; "db"], EFile "state")] ∪ old_home ∪
  list_to_map [(["etc"], EDir); (["var"], EDir); (["var"; "lib"], EDir); (["var"; "log"], EDir)].

(** With the old directory as the name of the network, the states of the nodes are
    removed from the old directory itself. *)
Lemma network_path_loses_state :
  let q := old_base_dir ++ ["data"; "nodes"; "Alpha"; "pool_state"; "db"] in
  let s' := (migrate_to_system_dirs (λ _, Ok (mkOldConfig None None (Some "/home/indy/.indy"))) (λ _, ret tt) node_home).2 in
  node_home !! q = Some (EFile "state") ∧ s' !! q = None.
Proof. split; vm_compute; reflexivity. Qed.

(** *** The config state *)

(** Only the config state and its timestamps are removed, and only in the network the
    script is for. *)
Theorem config_state_only ledger_dir network st ts s q :
  (migrate_config_state ledger_dir network st ts s).2 !! q = s !! q ∨
  network = "net3" ∧ ∃ name, inside (ledger_dir name ++ [st]) q ∨ inside (ledger_dir name ++ [ts]) q.
Proof.
  unfold migrate_config_state, act_bind. assert ((get_node_name s).2 = s) as Hs.
  { unfold get_node_name, when, act_bind, read_file, lift. destruct (exists_ env_file s); [|done]. by destruct (entry env_file s) as [[]|]. }
  destruct (get_node_name s) as [[[name|]|e] s1]; cbn in Hs; subst s1; [|by left..].
  destruct (str_eqb "net3" network) eqn:E; [|by left]. apply str_eqb_eq in E as <-. cbn [negb]. unfold when.
  destruct (negb (exists_ _ s)); [by left|]. destruct (negb (exists_ _ s)); [by left|].
  destruct (below (ledger_dir name ++ [st]) q) as [r|] eqn:E1; [right; split; [done|]; exists name; left; by exists r|].
  destruct (below (ledger_dir name ++ [ts]) q) as [r|] eqn:E2; [right; split; [done|]; exists name; right; by exists r|].
  left. unfold remove_dir, act_bind, FileTree.rmtree.
  destruct (isdir (ledger_dir name ++ [ts]) s); [|done]. cbn [ret negb].
  destruct (isdir (ledger_dir name ++ [st]) (prune (ledger_dir name ++ [ts]) s)); cbn; rewrite ?lookup_prune, ?E1, ?E2; done.
Qed.

(** *** Genesis files *)

Lemma keeps_write_file keep p t : ¬ keep p → frames (kept keep) (FileTree.write_file p t).
Proof.
  intros Hp s. unfold FileTree.write_file. destruct (entry p s) as [[]|]; [by apply kept_insert|done|].
  destruct (isdir (parent p) s); [|done]. by apply kept_insert.
Qed.

Lemma keeps_convert keep clean conv a b : ¬ keep b → frames (kept keep) (convert_lines clean conv a b).
Proof.
  intros Hb. apply frames_bind; [apply _|apply keeps_read_file|]. intros text.
  apply frames_bind; [apply _|by apply keeps_write_file|]. intros _. apply frames_each; [apply _|]. intros line.
  apply frames_bind; [apply _|by intros s|]. intros out. by apply keeps_append_file.
Qed.

Lemma keeps_remove_if_exists keep p : ¬ keep p → frames (kept keep) (remove_if_exists p).
Proof. intros Hp. apply keeps_when; [by apply keeps_remove_file|by intros s]. Qed.

Lemma genesis_names base suffix :
  new_pool_genesis base suffix ≠ old_domain_genesis base suffix ∧ new_pool_genesis base suffix ≠ old_pool_genesis base suffix ∧
  new_pool_genesis base suffix ≠ new_domain_genesis base suffix ∧ old_pool_genesis base suffix ≠ old_domain_genesis base suffix ∧
  old_pool_genesis base suffix ≠ new_domain_genesis base suffix.
Proof.
  assert (∀ x y : string, x ≠ y → base ++ [x] ≠ base ++ [y]) as H by (intros x y Hxy Heq; apply app_inv_head in Heq; by injection Heq).
  repeat split; apply H; cbn; try discriminate.
  intros Heq. injection Heq as Heq. apply (f_equal String.length) in Heq. rewrite str_app_length in Heq. cbn in Heq. lia.
Qed.

(** The script that takes the change of the genesis files back does not: the pool's file
    takes the place of the domain's, and the pool has none. *)
Theorem downgrade_loses_domain_genesis clean json_des compact_ser base suffix s s' text :
  downgrade_genesis clean json_des compact_ser base suffix s = (Ok tt, s') →
  s !! new_pool_genesis base suffix = Some (EFile text) →
  s' !! old_domain_genesis base suffix = Some (EFile text) ∧ s' !! old_pool_genesis base suffix = None.
Proof.
  intros Hrun Hpool. destruct (genesis_names base suffix) as (H1 & H2 & H3 & H4 & H5).
  unfold downgrade_genesis, act_bind in Hrun.
  set (np := new_pool_genesis base suffix) in *. set (op := old_pool_genesis base suffix) in *.
  set (od := old_domain_genesis base suffix) in *. set (nd := new_domain_genesis base suffix) in *.
  destruct (remove_if_exists od s) as [[u1|] s1] eqn:E1; [|done].
  pose proof (keeps_remove_if_exists (eq np) od H1 s np eq_refl) as K1. rewrite E1 in K1. cbn in K1.
  destruct (remove_if_exists op s1) as [[u2|] s2] eqn:E2; [|done].
  pose proof (keeps_remove_if_exists (eq np) op H2 s1 np eq_refl) as K2. rewrite E2 in K2. cbn in K2.
  assert (s2 !! op = None) as Hop.
  { assert (op ≠ []) as Hne by (by intros []%app_nil). unfold remove_if_exists, when, exists_ in E2. rewrite entry_lookup in E2 by done.
    case_bool_decide as He; [|injection E2 as _ <-; by apply eq_None_not_Some in He].
    unfold FileTree.remove_file in E2. destruct (FileTree.isfile op s1); [|done]. injection E2 as _ <-. apply lookup_delete_eq. }
  match type of Hrun with context [when (exists_ nd) ?m ?k s2] => set (conv := when (exists_ nd) m k) in * end.
  assert (∀ keep, ¬ keep od → ¬ keep nd → frames (kept keep) conv) as Kc.
  { intros keep Ho Hn. apply keeps_when; [|by intros z]. apply frames_bind; [apply _|by apply keeps_convert|].
    intros _. by apply keeps_remove_file. }
  pose proof (Kc (eq np) H1 H3 s2 np eq_refl) as K3. pose proof (Kc (eq op) H4 H5 s2 op eq_refl) as K4.
  destruct (conv s2) as [[u3|] s3]; [|done]. cbn in K3, K4.
  assert (s3 !! np = Some (EFile text)) as Hnp by congruence. assert (s3 !! op = None) as Hop3 by congruence.
  assert (np ≠ []) as Hne by (by intros []%app_nil).
  unfold when, exists_ in Hrun. rewrite entry_lookup, Hnp in Hrun by done. cbn in Hrun. unfold rename, exists_ in Hrun.
  rewrite entry_lookup, Hnp in Hrun by done. cbn in Hrun. rewrite bool_decide_eq_false_2 in Hrun by done.
  destruct (below np od) as [r|] eqn:Eb; [done|].
  assert ((graft np od s3 ∪ prune np (prune od s3)) !! od = Some (EFile text)) as Hr1.
  { apply lookup_union_Some_l. by rewrite lookup_graft, below_refl, app_nil_r. }
  assert ((graft np od s3 ∪ prune np (prune od s3)) !! op = None) as Hr2.
  { apply lookup_union_None. rewrite lookup_graft, !lookup_prune, Hop3. split; [|by repeat case_match].
    destruct (below od op) as [r|] eqn:E; [|done]. apply below_Some in E. unfold op, od, old_pool_genesis, old_domain_genesis in E.
    rewrite <-app_assoc in E. apply app_inv_head in E. cbn in E. by injection E. }
  assert (FileTree.isfile np s3 = true) as Hf by (unfold FileTree.isfile; by rewrite entry_lookup, Hnp).
  destruct (entry od s3) as [[]|]; rewrite ?Hf in Hrun; try done.
  - by injection Hrun as <-.
  - destruct (isdir (parent od) s3); [|done]. by injection Hrun as <-.
Qed.

Definition both_genesis : FS := list_to_map
  [(["b"], EDir); (["b"; "domain_transactions_live_genesis"], EFile "domain"); (["b"; "pool_transactions_live_genesis"], EFile "pool")].

Lemma downgrade_loses_domain_genesis_witness :
  (downgrade_genesis (λ t, [t]) (λ t, Ok [("txn", VStr t)]) (λ _, Ok "compact") ["b"] "live" both_genesis).2
    !! ["b"; "transactions_live"] = Some (EFile "pool").
Proof.
  refine (proj1 (downgrade_loses_domain_genesis (λ t, [t]) (λ t, Ok [("txn", VStr t)]) (λ _, Ok "compact") ["b"] "live" both_genesis
    _ "pool" _ _)); [|by vm_compute].
  assert ((downgrade_genesis (λ t, [t]) (λ t, Ok [("txn", VStr t)]) (λ _, Ok "compact") ["b"] "live" both_genesis).1 = Ok tt) as H by by vm_compute.
  rewrite <-H. by destruct (downgrade_genesis _ _ _ _ _ _).
Defined.

(** *** Setup *)

(** Unless it is forced, the set-up of the genesis files changes no file that is there. *)
Theorem setup_keeps_files genesis_txn_file data_dir base_dir key s p e :
  s !! p = Some e → (setupTxns genesis_txn_file data_dir base_dir key false s).2 !! p = Some e.
Proof.
  assert (∀ l s, s !! p = Some e → (each (setup_txn genesis_txn_file data_dir base_dir false) l s).2 !! p = Some e) as H; [|apply H].
  clear s. induction l as [|n l IH]; intros s Hp; [done|]. cbn [each]. unfold act_bind.
  assert ((setup_txn genesis_txn_file data_dir base_dir false n s).2 !! p = Some e) as H1.
  { unfold setup_txn, when. destruct (negb (exists_ (data_dir ++ [n]) s)); [done|]. rewrite andb_true_r.
    destruct (exists_ (base_dir ++ [genesis_txn_file n]) s) eqn:E; [done|].
    rewrite (keeps_copyfile (eq p) (data_dir ++ [n]) (base_dir ++ [genesis_txn_file n])); [done| |done].
    intros ->. unfold exists_ in E. apply bool_decide_eq_false in E. rewrite entry_lookup, Hp in E by (by intros []%app_nil). apply E. by eexists. }
  destruct (setup_txn _ _ _ _ _ s) as [[u|] s1]; [by apply IH|done].
Qed.

(** The set-up of a client makes the directory of the samples, with those above it, and
    changes nothing outside of it. *)
Theorem client_setup_stays_in_samples base_dir sample_dir s q :
  ¬ inside (base_dir ++ ["sample"]) q → q ∉ ancestors (base_dir ++ ["sample"]) →
  (setupClient base_dir sample_dir s).2 !! q = s !! q.
Proof.
  intros Hq Ha. set (keep p := ¬ inside (base_dir ++ ["sample"]) p ∧ p ∉ ancestors (base_dir ++ ["sample"])).
  assert (¬ keep (base_dir ++ ["sample"])) as Hk by (intros [H _]; apply H; exists []; apply below_refl).
  refine ((_ : frames (kept keep) (setupClient base_dir sample_dir)) s q (conj Hq Ha)).
  unfold setupClient, setupSampleInvites. apply frames_bind; [apply _| |intros _].
  { apply keeps_makedirs; [done|]. apply Forall_forall. by intros p Hp [_ []]. }
  apply frames_bind; [apply _|by intros t|]. intros files. apply frames_each; [apply _|]. intros n.
  apply keeps_when; [|by intros t]. apply keeps_copy2; [done|]. intros [H _]. apply H. eexists. apply below_app.
Qed.
