(* ===== verification/LedgerFormat.v ===== *)
(** * The ledgers of the first format change

    [data/migrations/deb/helper_1_0_96_to_1_0_97.py] writes the ledgers of every node again
    with plenum's default serializer and with the data of schemas and claim definitions
    as objects; [disabled_1_0_97_to_1_0_96.py] writes them back.  The files around the
    ledgers are in [Directories].

    The ledgers are plenum's: a class of operations on the directory of a node, with laws
    and an instance. *)
From S2P Require Import Prelude PyValue Plenum Constants StateDomain IdrCache HandlerBase Upgrader PoolUpgrade World Versions Packages Migrations ControlTool EnvFiles FileTree Directories.

(** The serializer of a ledger: [CompactSerializer] with the fields of a transaction,
    [JsonSerializer], or plenum's default. *)
Inductive Format := Compact | Json | Default.

(** A ledger is opened by the directory of its data, its name and its serializer; opening
    one that is not there makes it.  [ledger_txns] are its transactions in order, each
    one read or not; [ledger_rehash] opens it with a hash store, which is made again. *)
Class Ledgers := {
  ledger_open : path → string → Format → M unit;
  ledger_txns : path → string → Format → FS → list (res (dict val));
  ledger_add : path → string → Format → dict val → M unit;
  ledger_rehash : path → string → string → Format → M unit
}.

Record LedgerConfig := mkLedgerConfig {
  pool_file : string;
  domain_file : string;
  config_file : string;
  base_dir : path;
  node_data_dir : path
}.

Section Format.
Context `{!Ledgers} (json_loads : string → res val) (config : LedgerConfig).

(** ** To the new format *)

(** [txn[DATA] = json.loads(txn[DATA])] *)
Definition load_data (txn : dict val) : res (dict val) :=
  match dget "data" txn with
  | None => Ok txn
  | Some (VStr s) => let! v := json_loads s in Ok (dset "data" v txn)
  | Some _ => Raise (TypeError "the JSON object must be str")
  end.

Definition convert_txn (txn : dict val) : res (dict val) :=
  let! ty := dgetitem "type" txn in
  let! txn1 := if py_eq ty (VStr SCHEMA) then load_data txn else Ok txn in
  if py_eq ty (VStr CLAIM_DEF) then load_data txn1 else Ok txn1.

Definition no_ledger_dir (file : string) : exn :=
  PyException ("Could not find directory " +:+ file +:+ " for migration.").

(** [_migrate_ledger] from the ledger [from] to one with the name [tmp], which then takes
    the name [to]; [convert] is applied to each transaction. *)
Definition copy_ledger (convert : dict val → res (dict val)) (d : path)
    (from : string) (from_fmt : Format) (tmp : string) (tmp_fmt : Format) (to : string) : M unit :=
  let? txns := (λ s, (Ok (ledger_txns d from from_fmt s), s)) in
  let? _ := each (λ r, let? txn := lift r in
                       let? txn' := lift (convert txn) in
                       ledger_add d tmp tmp_fmt txn') txns in
  let? _ := FileTree.rmtree (d ++ [from]) in
  rename (d ++ [tmp]) (d ++ [to]).

Definition migrate_ledger (d : path) (old_file new_file : string) (fmt : Format) : M unit :=
  when (λ s, negb (isdir (d ++ [old_file]) s)) (raise (no_ledger_dir old_file))
    (let? _ := ledger_open d old_file fmt in
     let? _ := ledger_open d (new_file +:+ "_new") Default in
     copy_ledger convert_txn d old_file fmt (new_file +:+ "_new") Default new_file).

(** [config.domainTransactionsFile.replace('domain_', '')] *)
Definition old_domain_file : string := py_replace "domain_" "" (domain_file config).

(** [migrate_all_ledgers_for_node] *)
Definition migrate_node_ledgers (d : path) : M unit :=
  let? _ := migrate_ledger d (pool_file config) (pool_file config) Json in
  let? _ := migrate_ledger d (config_file config) (config_file config) Json in
  migrate_ledger d old_domain_file (domain_file config) Compact.

Definition hash_stores (fmt : string → Format) (d : path) : M unit :=
  migrate_all_hash_stores (λ name,
      ledger_rehash d
        (if str_eqb name "pool" then pool_file config else if str_eqb name "domain" then domain_file config else config_file config)
        name (fmt name)) ["pool"; "domain"; "config"] d.

Definition migrate_node (d : path) : M unit :=
  let? _ := migrate_node_ledgers d in
  let? _ := hash_stores (λ _, Default) d in
  migrate_all_states d.

(** The base directory with the data of the nodes: that of the configuration, or the home
    of sovrin. *)
Definition with_nodes_dir (k : path → path → M unit) : M unit :=
  let nodes b := b ++ node_data_dir config in
  let go b := when (λ s, negb (exists_ (nodes b) s))
                (raise (PyException "Can not find the directory with the ledger")) (k b (nodes b)) in
  when (exists_ (nodes (base_dir config))) (go (base_dir config)) (go sovrin_dir).

Definition migrate_new_format (genesis : path → M unit) : M unit :=
  with_nodes_dir (λ base nodes,
    let? dirs := FileTree.listdir nodes in
    let? _ := each (λ n, migrate_node (nodes ++ [n])) dirs in
    genesis base).

(** ** Back to the old format *)

Definition downgrade_ledger (d : path) (old_file new_file : string) (fmt : Format) : M unit :=
  when (λ s, negb (isdir (d ++ [old_file]) s)) (raise (no_ledger_dir old_file))
    (let? _ := ledger_open d (old_file +:+ "_new") fmt in
     let? _ := ledger_open d new_file Default in
     copy_ledger Ok d new_file Default (old_file +:+ "_new") fmt old_file).

Definition downgrade_node_ledgers (d : path) : M unit :=
  let? _ := downgrade_ledger d (pool_file config) (pool_file config) Json in
  let? _ := downgrade_ledger d (config_file config) (config_file config) Json in
  downgrade_ledger d old_domain_file (domain_file config) Compact.

Definition downgrade_node (d : path) : M unit :=
  let? _ := downgrade_node_ledgers d in
  let? _ := hash_stores (λ name, if str_eqb name "domain" then Compact else Json) d in
  migrate_all_states d.

(** [chown] is the command that gives the files back to sovrin; its result is ignored. *)
Definition migrate_old_format (genesis : path → M unit) (chown : M unit) : M unit :=
  with_nodes_dir (λ base nodes,
    let? dirs := FileTree.listdir nodes in
    let? _ := each (λ n, downgrade_node (nodes ++ [n])) dirs in
    let? _ := genesis base in
    catch chown (λ _, ret tt)).
End Format.

(** ** Laws *)

(** A path that is not in the ledger [f] of [d]. *)
Definition outside (d : path) (f : string) (q : path) : Prop := below (d ++ [f]) q = None.

(** What the scripts rely on: a ledger keeps to its directory, its transactions are what is
    in that directory, and a transaction that can be written is read as the last one. *)
Class LedgerLaws `{!Ledgers} (storable : Format → dict val → Prop) := {
  open_keeps d f fmt : frames (kept (outside d f)) (ledger_open d f fmt);
  open_Ok d f fmt s : isdir d s = true → FileTree.isfile (d ++ [f]) s = false →
    ∃ s', ledger_open d f fmt s = (Ok tt, s') ∧ isdir (d ++ [f]) s' = true ∧ ledger_txns d f fmt s' = ledger_txns d f fmt s;
  txns_none d f fmt s : (∀ r, s !! (d ++ f :: r) = None) → ledger_txns d f fmt s = [];
  txns_local d f g fmt s s' : (∀ r, s !! (d ++ f :: r) = s' !! (d ++ g :: r)) → ledger_txns d f fmt s = ledger_txns d g fmt s';
  add_keeps d f fmt t : frames (kept (outside d f)) (ledger_add d f fmt t);
  add_Ok d f fmt t s : isdir (d ++ [f]) s = true → storable fmt t →
    ∃ s', ledger_add d f fmt t s = (Ok tt, s') ∧ isdir (d ++ [f]) s' = true ∧
      ledger_txns d f fmt s' = ledger_txns d f fmt s ++ [Ok t]
}.

(** ** Lemmas *)

(** A name that is none of some others, and names among others. *)
Ltac differ := first [assumption | apply not_eq_sym; assumption].
Ltac not_in := rewrite ?not_elem_of_cons; repeat split; first [differ | apply not_elem_of_nil].
Ltac among := intros ? Hin; rewrite ?elem_of_cons in Hin; rewrite ?elem_of_cons; clear -Hin; tauto.

Section Facts.
Context {Hledgers : Ledgers} {storable : Format → dict val → Prop} {Hlaws : LedgerLaws storable}.

Lemma outside_child d f g r : f ≠ g → outside d f (d ++ g :: r).
Proof. by apply below_sibling. Qed.

Lemma outside_above d f r : r = [] → outside d f (d ++ r).
Proof.
  intros ->. rewrite app_nil_r. apply below_None. intros r' H. apply (f_equal length) in H. rewrite !length_app in H. cbn in H. lia.
Qed.

(** What is outside a ledger is there after an operation on it. *)
Lemma kept_isdir d f x s s' : f ≠ x → kept (outside d f) s s' → isdir (d ++ [x]) s' = isdir (d ++ [x]) s.
Proof.
  intros Hx Hk. unfold isdir. rewrite !entry_lookup by (by intros []%app_nil). by rewrite Hk by (by apply outside_child).
Qed.

Lemma kept_isdir_self d f s s' : kept (outside d f) s s' → isdir d s' = isdir d s.
Proof.
  intros Hk. unfold isdir. destruct d as [|x d']; [done|]. set (d := x :: d') in *. rewrite !entry_lookup by done.
  rewrite Hk; [done|]. rewrite <-(app_nil_r d) at 2. by apply outside_above.
Qed.

Lemma kept_txns d f g fmt s s' : f ≠ g → kept (outside d f) s s' → ledger_txns d g fmt s' = ledger_txns d g fmt s.
Proof. intros Hfg Hk. apply txns_local. intros r. by apply Hk, outside_child. Qed.

(** The transactions of a list, converted and added. *)
Lemma add_all (convert : dict val → res (dict val)) d f fmt l l' : ∀ s,
  Forall2 (λ t t', convert t = Ok t') l l' → Forall (storable fmt) l' → isdir (d ++ [f]) s = true →
  runs (each (λ r, let? txn := lift r in let? txn' := lift (convert txn) in ledger_add d f fmt txn') (map Ok l)) s (λ _ s',
    isdir (d ++ [f]) s' = true ∧ kept (outside d f) s s' ∧ ledger_txns d f fmt s' = ledger_txns d f fmt s ++ map Ok l').
Proof.
  intros s Hc. revert s. induction Hc as [|t t' l l' Ht _ IH]; intros s Hs Hd.
  { cbn. apply runs_ret. split; [done|]. split; [done|]. by rewrite app_nil_r. }
  apply Forall_cons in Hs as [Hst Hsl]. cbn [map each].
  eapply (runs_bind _ _ _ _ (λ _ s1, isdir (d ++ [f]) s1 = true ∧ ledger_txns d f fmt s1 = ledger_txns d f fmt s ++ [Ok t'] ∧ kept (outside d f) s s1)).
  - unfold runs, act_bind, lift. rewrite Ht. destruct (add_Ok d f fmt t' s Hd Hst) as (s1 & H1 & H2 & H3).
    pose proof (add_keeps d f fmt t' s) as Hk. rewrite H1 in Hk. cbn in Hk. exists tt, s1. split; [exact H1|].
    exact (conj H2 (conj H3 Hk)).
  - intros u s1 (H2 & H3 & Hk). destruct (IH s1 Hsl H2) as (u2 & s2 & Hr & Hd2 & Hk2 & Ht2). exists u2, s2. split; [done|].
    split; [done|]. split; [by etrans|]. rewrite Ht2, H3. cbn [map]. by rewrite <-app_assoc.
Qed.

(** The old ledger is removed and the new one takes its name. *)
Lemma rename_ledger d from tmp to s :
  isdir (d ++ [from]) s = true → isdir (d ++ [tmp]) s = true → isdir d s = true → from ≠ tmp → tmp ≠ to →
  (from = to ∨ s !! (d ++ [to]) = None) →
  ∃ s', (let? _ := FileTree.rmtree (d ++ [from]) in rename (d ++ [tmp]) (d ++ [to])) s = (Ok tt, s') ∧
    (∀ r, s' !! (d ++ to :: r) = s !! (d ++ tmp :: r)) ∧ (from ≠ to → ∀ r, s' !! (d ++ from :: r) = None) ∧
    (∀ r, s' !! (d ++ tmp :: r) = None) ∧
    ∀ q, outside d from q → outside d tmp q → outside d to q → s' !! q = s !! q.
Proof.
  intros Hf Ht Hd Hft Htt Hto. unfold act_bind, FileTree.rmtree. rewrite Hf. set (s1 := prune (d ++ [from]) s).
  assert (∀ x : string, d ++ [x] ≠ []) as Hne by (by intros x []%app_nil).
  assert (∀ q, s1 !! q = match below (d ++ [from]) q with Some _ => None | None => s !! q end) as L1 by (intros q; apply lookup_prune).
  assert (entry (d ++ [tmp]) s1 = Some EDir) as Ht1.
  { rewrite entry_lookup, L1 by done. pose proof (below_sibling d from tmp [] Hft) as ->.
    unfold isdir in Ht. apply bool_decide_eq_true in Ht. by rewrite entry_lookup in Ht by done. }
  assert (s1 !! (d ++ [to]) = None) as Hto1.
  { rewrite L1. destruct (decide (from = to)) as [->|Hn]; [by rewrite below_refl|].
    rewrite (below_sibling d from to [] Hn). by destruct Hto. }
  assert (isdir (parent (d ++ [to])) s1 = true) as Hpar.
  { rewrite parent_child. unfold isdir. destruct d as [|x d'] eqn:Ed; [done|]. rewrite <-Ed in *.
    assert (d ≠ []) as Hdn by (by subst). rewrite entry_lookup, L1 by done.
    assert (outside d from (d ++ [])) as Ho by (by apply outside_above). unfold outside in Ho. rewrite app_nil_r in Ho. rewrite Ho.
    unfold isdir in Hd. by rewrite entry_lookup in Hd by done. }
  unfold rename. unfold exists_. rewrite Ht1. cbn. rewrite bool_decide_eq_false_2 by (intros H; apply app_inv_head in H; by injection H).
  assert (below (d ++ [tmp]) (d ++ [to]) = None) as -> by (by apply (below_sibling d tmp to [])).
  rewrite entry_lookup by done. rewrite Hto1, Hpar. eexists. split; [done|].
  assert (∀ q, (graft (d ++ [tmp]) (d ++ [to]) s1 ∪ prune (d ++ [tmp]) (prune (d ++ [to]) s1)) !! q =
    match below (d ++ [to]) q with
    | Some r => s1 !! (d ++ tmp :: r)
    | None => match below (d ++ [tmp]) q with Some _ => None | None => s1 !! q end
    end) as L2.
  { intros q. destruct (below (d ++ [to]) q) as [r|] eqn:E.
    - apply below_Some in E as ->. destruct (s1 !! (d ++ tmp :: r)) as [e|] eqn:E1.
      + apply lookup_union_Some_l. rewrite lookup_graft, below_app, <-app_assoc. exact E1.
      + apply lookup_union_None. rewrite lookup_graft, below_app, <-app_assoc. split; [exact E1|].
        rewrite !lookup_prune, below_app. by destruct (below _ _).
    - rewrite lookup_union_r by (by rewrite lookup_graft, E). rewrite !lookup_prune, E. done. }
  assert (∀ x r, below (d ++ [x]) (d ++ x :: r) = Some r) as Hb.
  { intros x r. change (d ++ x :: r) with (d ++ [x] ++ r). by rewrite app_assoc, below_app. }
  split; [|split; [|split]].
  - intros r. rewrite L2, Hb, L1. by rewrite (below_sibling d from tmp r Hft).
  - intros Hn r. rewrite L2, (below_sibling d to from r) by done. rewrite (below_sibling d tmp from r) by done. by rewrite L1, Hb.
  - intros r. rewrite L2, (below_sibling d to tmp r) by done. by rewrite Hb.
  - unfold outside. intros q H1 H2 H3. by rewrite L2, H3, H2, L1, H1.
Qed.

(** Three names in the directory of a node, which an operation leaves the rest of. *)
Definition only (d : path) (names : list string) (s s' : FS) : Prop :=
  ∀ q, Forall (λ f, outside d f q) names → s' !! q = s !! q.

Lemma only_kept d f s s' : kept (outside d f) s s' ↔ only d [f] s s'.
Proof. split; intros H q Hq; apply H; [by inversion Hq|by constructor]. Qed.

Lemma only_weaken d l l' s s' : l ⊆ l' → only d l s s' → only d l' s s'.
Proof. intros Hl H q Hq. apply H. rewrite Forall_forall in *. intros f Hf. apply Hq, Hl, Hf. Qed.

#[export] Instance only_preorder d l : PreOrder (only d l).
Proof. split; [by intros s q|]. intros s1 s2 s3 H1 H2 q Hq. by rewrite H2, H1. Qed.

Lemma only_child d l s s' x r : x ∉ l → only d l s s' → s' !! (d ++ x :: r) = s !! (d ++ x :: r).
Proof. intros Hx H. apply H. apply Forall_forall. intros f Hf. apply outside_child. by intros ->. Qed.

Lemma only_isdir d l s s' x : x ∉ l → only d l s s' → isdir (d ++ [x]) s' = isdir (d ++ [x]) s.
Proof. intros Hx H. unfold isdir. rewrite !entry_lookup by (by intros []%app_nil). by rewrite (only_child d l s s' x []). Qed.

Lemma only_isdir_self d l s s' : only d l s s' → isdir d s' = isdir d s.
Proof.
  intros H. unfold isdir. destruct d as [|x d']; [done|]. set (d := x :: d') in *. rewrite !entry_lookup by done.
  rewrite H; [done|]. apply Forall_forall. intros f _. rewrite <-(app_nil_r d) at 2. by apply outside_above.
Qed.

Lemma only_txns d l s s' x fmt : x ∉ l → only d l s s' → ledger_txns d x fmt s' = ledger_txns d x fmt s.
Proof. intros Hx H. apply txns_local. intros r. by apply (only_child d l). Qed.

(** A ledger [from] that can be written again as the ledger [to], by way of [tmp]: its
    transactions are [l], and [l'] once they are converted. *)
Record rewritable (convert : dict val → res (dict val)) (d : path) (from : string) (from_fmt : Format)
    (tmp : string) (tmp_fmt : Format) (to : string) (l l' : list (dict val)) (s : FS) : Prop := {
  rw_from : isdir (d ++ [from]) s = true;
  rw_to : from = to ∨ s !! (d ++ [to]) = None;
  rw_tmp : ∀ r, s !! (d ++ tmp :: r) = None;
  rw_txns : ledger_txns d from from_fmt s = map Ok l;
  rw_converted : Forall2 (λ t t', convert t = Ok t') l l';
  rw_storable : Forall (storable tmp_fmt) l'
}.

Lemma rewritable_only convert d from from_fmt tmp tmp_fmt to l l' names s s' :
  from ∉ names → tmp ∉ names → to ∉ names → only d names s s' →
  rewritable convert d from from_fmt tmp tmp_fmt to l l' s → rewritable convert d from from_fmt tmp tmp_fmt to l l' s'.
Proof.
  intros Hf Ht Hto Ho [H1 H2 H3 H4 H5 H6]. constructor; [by rewrite (only_isdir d names s) by done| | | |done|done].
  - destruct H2 as [H2|H2]; [by left|right]. by rewrite (only_child d names s s' to []).
  - intros r. by rewrite (only_child d names s s').
  - by rewrite (only_txns d names s) by done.
Qed.

(** The ledger [to] of [s'] holds [l'], and the other two are gone. *)
Definition rewritten (d : path) (from tmp : string) (tmp_fmt : Format) (to : string) (l' : list (dict val)) (s s' : FS) : Prop :=
  isdir (d ++ [to]) s' = true ∧ ledger_txns d to tmp_fmt s' = map Ok l' ∧
  (from ≠ to → ∀ r, s' !! (d ++ from :: r) = None) ∧ (∀ r, s' !! (d ++ tmp :: r) = None) ∧ only d [from; tmp; to] s s'.

Lemma copy_ledger_Ok convert d from from_fmt tmp tmp_fmt to l l' s :
  isdir d s = true → from ≠ tmp → tmp ≠ to → isdir (d ++ [from]) s = true → isdir (d ++ [tmp]) s = true →
  (from = to ∨ s !! (d ++ [to]) = None) → ledger_txns d from from_fmt s = map Ok l → ledger_txns d tmp tmp_fmt s = [] →
  Forall2 (λ t t', convert t = Ok t') l l' → Forall (storable tmp_fmt) l' →
  runs (copy_ledger convert d from from_fmt tmp tmp_fmt to) s (λ _ s', rewritten d from tmp tmp_fmt to l' s s').
Proof.
  intros Hd Hft Htt Hf Ht Hto Hl Hno Hc Hst. unfold copy_ledger, runs. unfold act_bind at 1. rewrite Hl.
  destruct (add_all convert d tmp tmp_fmt l l' s Hc Hst Ht) as (u & s1 & Hadd & Hd1 & Hk & Htx). unfold act_bind at 1. rewrite Hadd.
  apply only_kept in Hk. assert (from ∉ [tmp] ∧ to ∉ [tmp]) as [Hfn Hton] by set_solver.
  destruct (rename_ledger d from tmp to s1) as (s2 & Hr & H1 & H2 & H3 & H4); [| |by rewrite (only_isdir_self _ _ _ _ Hk)|done|done| |].
  - by rewrite (only_isdir _ _ _ _ _ Hfn Hk).
  - done.
  - destruct Hto as [Hto|Hto]; [by left|right]. by rewrite (only_child _ _ _ _ to [] Hton Hk).
  - exists tt, s2. split; [exact Hr|]. split.
    { unfold isdir in *. rewrite !entry_lookup in * by (by intros []%app_nil). by rewrite (H1 []). }
    split; [rewrite (txns_local d to tmp tmp_fmt s2 s1 H1), Htx, Hno; done|]. split; [done|]. split; [done|].
    intros q Hq. inversion Hq as [|? ? Hq1 Hq']; subst. inversion Hq' as [|? ? Hq2 Hq'']; subst. inversion Hq''; subst.
    rewrite H4 by done. apply Hk. by constructor.
Qed.

(** A ledger written again, after the two are opened in either order. *)
Lemma open_both d a fa b fb s :
  a ≠ b → isdir d s = true → FileTree.isfile (d ++ [a]) s = false → FileTree.isfile (d ++ [b]) s = false →
  runs (let? _ := ledger_open d a fa in ledger_open d b fb) s (λ _ s',
    isdir (d ++ [a]) s' = true ∧ isdir (d ++ [b]) s' = true ∧ only d [a; b] s s' ∧
    ledger_txns d a fa s' = ledger_txns d a fa s ∧ ledger_txns d b fb s' = ledger_txns d b fb s).
Proof.
  intros Hab Hd Ha Hb. destruct (open_Ok d a fa s Hd Ha) as (s1 & H1 & H2 & H3).
  pose proof (open_keeps d a fa s) as K1. rewrite H1 in K1. apply only_kept in K1. cbn [snd] in K1.
  assert (b ∉ [a] ∧ a ∉ [b]) as [Hn1 Hn2] by set_solver.
  destruct (open_Ok d b fb s1) as (s2 & H4 & H5 & H6).
  { by rewrite (only_isdir_self _ _ _ _ K1). }
  { unfold FileTree.isfile in *. rewrite !entry_lookup in * by (by intros []%app_nil). by rewrite (only_child _ _ _ _ b [] Hn1 K1). }
  pose proof (open_keeps d b fb s1) as K2. rewrite H4 in K2. apply only_kept in K2. cbn [snd] in K2.
  exists tt, s2. unfold act_bind. rewrite H1. split; [done|]. split; [by rewrite (only_isdir _ _ _ _ _ Hn2 K2)|]. split; [done|].
  split; [|split; [by rewrite (only_txns _ _ _ _ _ _ Hn2 K2)|by rewrite H6, (only_txns _ _ _ _ _ _ Hn1 K1)]].
  etrans; (eapply only_weaken; [|eassumption]); among.
Qed.

Lemma isdir_not_file p s : isdir p s = true → FileTree.isfile p s = false.
Proof. unfold isdir, FileTree.isfile. intros H%bool_decide_eq_true. by rewrite H. Qed.

Lemma absent_not_file d x s : s !! (d ++ [x]) = None → FileTree.isfile (d ++ [x]) s = false.
Proof. intros H. unfold FileTree.isfile. rewrite entry_lookup by (by intros []%app_nil). by rewrite H. Qed.

Lemma new_name_ne (x : string) : x ≠ x +:+ "_new".
Proof. intros H. apply (f_equal String.length) in H. rewrite str_app_length in H. cbn in H. lia. Qed.

Section Loads.
Context (json_loads : string → res val).

Lemma migrate_ledger_Ok d old new fmt l l' s :
  isdir d s = true → old ≠ new +:+ "_new" →
  rewritable (convert_txn json_loads) d old fmt (new +:+ "_new") Default new l l' s →
  runs (migrate_ledger json_loads d old new fmt) s (λ _ s', rewritten d old (new +:+ "_new") Default new l' s s').
Proof.
  intros Hd Hne [H1 H2 H3 H4 H5 H6]. set (tmp := new +:+ "_new") in *. unfold migrate_ledger, when, runs. fold tmp. rewrite H1. cbn [negb].
  assert (s !! (d ++ [tmp]) = None) as Htmp by apply (H3 []).
  destruct (open_both d old fmt tmp Default s Hne Hd) as (u & s1 & Ho & Ha & Hb & Hk & Ht1 & Ht2).
  { by apply isdir_not_file. }
  { by apply absent_not_file. }
  assert (new ≠ tmp) as Hnt by apply new_name_ne.
  destruct (copy_ledger_Ok (convert_txn json_loads) d old fmt tmp Default new l l' s1) as (u2 & s2 & Hc & Hr); try done.
  - by rewrite (only_isdir_self _ _ _ _ Hk).
  - destruct (decide (old = new)) as [->|Hon]; [by left|]. destruct H2 as [|H2]; [done|]. right.
    by rewrite (only_child _ [old; tmp] s s1 new []) by set_solver.
  - congruence.
  - rewrite Ht2. by apply txns_none.
  - exists u2, s2. split.
    + rewrite <-Hc. revert Ho. unfold act_bind. destruct (ledger_open d old fmt s) as [[]?]; [|done]. by intros ->.
    + destruct Hr as (R1 & R2 & R3 & R4 & R5). repeat (split; [done|]).
      etrans; [eapply only_weaken; [|exact Hk]; among|done].
Qed.

(** What [migrate_node_ledgers] finds in the directory of a node. *)
Definition node_names (config : LedgerConfig) : list string :=
  [pool_file config; config_file config; old_domain_file config; domain_file config;
   pool_file config +:+ "_new"; config_file config +:+ "_new"; domain_file config +:+ "_new"].

(** C28. The migration of a node's ledgers keeps every transaction: when the three ledgers
    can be read, the data of their schemas and claim definitions are JSON, the converted
    transactions can be stored, and no '_new' directory of an earlier run and no ledger of
    the new domain name is in the way, it ends, the ledgers hold the converted
    transactions in the same order under the new names, the old domain ledger is gone,
    and nothing else in the tree is touched. *)
Theorem ledgers_converted config d s lp lp' lc lc' ld ld' :
  isdir d s = true → NoDup (node_names config) →
  let ready from fmt to := rewritable (convert_txn json_loads) d from fmt (to +:+ "_new") Default to in
  ready (pool_file config) Json (pool_file config) lp lp' s →
  ready (config_file config) Json (config_file config) lc lc' s →
  ready (old_domain_file config) Compact (domain_file config) ld ld' s →
  ∃ s', migrate_node_ledgers json_loads config d s = (Ok tt, s') ∧
    ledger_txns d (pool_file config) Default s' = map Ok lp' ∧
    ledger_txns d (config_file config) Default s' = map Ok lc' ∧
    ledger_txns d (domain_file config) Default s' = map Ok ld' ∧
    (∀ r, s' !! (d ++ old_domain_file config :: r) = None) ∧ only d (node_names config) s s'.
Proof.
  cbv zeta. unfold node_names. set (p := pool_file config). set (c := config_file config). set (o := old_domain_file config). set (n := domain_file config).
  intros Hd Hnd Hp Hc Ho.
  set (pn := p +:+ "_new") in *. set (cn := c +:+ "_new") in *. set (nn := n +:+ "_new") in *.
  rewrite !NoDup_cons, !not_elem_of_cons in Hnd. destruct_and! Hnd.
  destruct (migrate_ledger_Ok d p p Json lp lp' s Hd (new_name_ne p) Hp) as ([] & s1 & E1 & _ & T1 & _ & _ & K1). fold pn in K1.
  assert (isdir d s1 = true) as Hd1 by (by rewrite (only_isdir_self _ _ _ _ K1)).
  apply (rewritable_only _ _ _ _ _ _ _ _ _ [p; pn; p] s s1) in Hc; [|not_in..|done].
  apply (rewritable_only _ _ _ _ _ _ _ _ _ [p; pn; p] s s1) in Ho; [|not_in..|done].
  destruct (migrate_ledger_Ok d c c Json lc lc' s1 Hd1 (new_name_ne c) Hc) as ([] & s2 & E2 & _ & T2 & _ & _ & K2). fold cn in K2.
  assert (isdir d s2 = true) as Hd2 by (by rewrite (only_isdir_self _ _ _ _ K2)).
  apply (rewritable_only _ _ _ _ _ _ _ _ _ [c; cn; c] s1 s2) in Ho; [|not_in..|done].
  destruct (migrate_ledger_Ok d o n Compact ld ld' s2 Hd2 ltac:(differ) Ho) as ([] & s3 & E3 & _ & T3 & G3 & _ & K3). fold nn in K3.
  exists s3. split; [unfold migrate_node_ledgers, act_bind; fold p c o n; by rewrite E1, E2|].
  split; [rewrite (only_txns _ [o; nn; n] s2), (only_txns _ [c; cn; c] s1) by (done || not_in); done|].
  split; [rewrite (only_txns _ [o; nn; n] s2) by (done || not_in); done|].
  split; [done|]. split; [apply G3; differ|].
  etrans; [eapply only_weaken; [|exact K1]; among|]. etrans; [eapply only_weaken; [|exact K2]; among|].
  eapply only_weaken; [|exact K3]. among.
Qed.
End Loads.

(** *** Back to the old format *)

Lemma only_frames {A : Type} d l (m : M A) : frames (kept (λ q, Forall (λ f, outside d f q) l)) m ↔ frames (only d l) m.
Proof. done. Qed.

Lemma only_open d l f fmt : f ∈ l → frames (only d l) (ledger_open d f fmt).
Proof.
  intros Hf s. eapply only_weaken; [|apply only_kept, open_keeps]. intros x Hx. rewrite elem_of_cons in Hx.
  destruct Hx as [->|Hx]; [done|by apply not_elem_of_nil in Hx].
Qed.

Lemma only_add d l f fmt t : f ∈ l → frames (only d l) (ledger_add d f fmt t).
Proof.
  intros Hf s. eapply only_weaken; [|apply only_kept, add_keeps]. intros x Hx. rewrite elem_of_cons in Hx.
  destruct Hx as [->|Hx]; [done|by apply not_elem_of_nil in Hx].
Qed.

Lemma in_ledger d l f r : f ∈ l → ¬ Forall (λ g, outside d g ((d ++ [f]) ++ r)) l.
Proof. rewrite Forall_forall. intros Hf H. specialize (H f Hf). unfold outside in H. by rewrite below_app in H. Qed.

Lemma only_downgrade d old new fmt : frames (only d [old; new; old +:+ "_new"]) (downgrade_ledger d old new fmt).
Proof.
  set (l := [old; new; old +:+ "_new"]). assert (old ∈ l ∧ new ∈ l ∧ old +:+ "_new" ∈ l) as (Ho & Hn & Ht) by (unfold l; rewrite !elem_of_cons; tauto).
  apply only_frames, keeps_when; [by intros s|]. apply only_frames.
  apply frames_bind; [apply _|by apply only_open|intros _]. apply frames_bind; [apply _|by apply only_open|intros _].
  unfold copy_ledger. apply frames_bind; [apply _|by intros s|intros txns]. apply frames_bind; [apply _| |intros _].
  { apply frames_each; [apply _|]. intros r. apply frames_bind; [apply _|by intros s|intros txn].
    apply frames_bind; [apply _|by intros s|intros txn']. by apply only_add. }
  apply frames_bind; [apply _| |intros _].
  - apply only_frames, keeps_rmtree. intros r. by apply in_ledger.
  - apply only_frames, keeps_rename; intros r; by apply in_ledger.
Qed.

(** The way back needs the directory of the old domain ledger, which the migration removed:
    it fails on every node that was migrated. *)
Theorem downgrade_needs_old_ledger config d s :
  NoDup (node_names config) → isdir (d ++ [old_domain_file config]) s = false →
  (downgrade_node_ledgers config d s).1 ≠ Ok tt.
Proof.
  unfold node_names, downgrade_node_ledgers. intros Hnd Hd.
  rewrite !NoDup_cons, !not_elem_of_cons in Hnd. destruct_and! Hnd. unfold act_bind at 1.
  pose proof (only_downgrade d (pool_file config) (pool_file config) Json s) as K1.
  destruct (downgrade_ledger d _ _ Json s) as [[[]|e] s1]; [|done]. unfold act_bind.
  pose proof (only_downgrade d (config_file config) (config_file config) Json s1) as K2.
  destruct (downgrade_ledger d _ _ Json s1) as [[[]|e] s2]; [|done]. cbn [snd] in K1, K2.
  unfold downgrade_ledger, when.
  apply (only_isdir d _ s s1 (old_domain_file config)) in K1; [|not_in].
  apply (only_isdir d _ s1 s2 (old_domain_file config)) in K2; [|not_in]. by rewrite K2, K1, Hd.
Qed.
End Facts.

(** ** A ledger in a file *)

(** The transactions of the samples, each of which is written as one character. *)
Definition alphabet : list (dict val) :=
  [[("type", VStr "1")]; [("type", VStr "101"); ("data", VStr "{}")]; [("type", VStr "101"); ("data", VDict [])]].

Definition letter (t : dict val) : option nat := fst <$> list_find (λ u, py_eq (VDict t) (VDict u) = true) alphabet.

Definition read_letter (c : Ascii.ascii) : res (dict val) :=
  match alphabet !! (Ascii.nat_of_ascii c) with Some t => Ok t | None => Raise JSONDecodeError end.

Definition log_of (d : path) (f : string) (s : FS) : string :=
  match s !! (d ++ [f; "log"]) with Some (EFile t) => t | _ => "" end.

#[export] Instance file_ledgers : Ledgers := {
  ledger_open d f _ := λ s, (Ok tt, if isdir (d ++ [f]) s then s else <[d ++ [f] := EDir]> s);
  ledger_txns d f _ s := map read_letter (String.list_ascii_of_string (log_of d f s));
  ledger_add d f _ t := λ s,
    match letter t with
    | Some n => (Ok tt, <[d ++ [f; "log"] := EFile (log_of d f s +:+ String (Ascii.ascii_of_nat n) "")]> s)
    | None => (Raise JSONDecodeError, s)
    end;
  ledger_rehash _ _ _ _ := ret tt
}.

Lemma kept_child d f r e s : kept (outside d f) s (<[d ++ f :: r := e]> s).
Proof.
  apply kept_insert. unfold outside. change (d ++ f :: r) with (d ++ [f] ++ r). by rewrite app_assoc, below_app.
Qed.

Lemma list_ascii_app (a b : string) :
  String.list_ascii_of_string (a +:+ b) = String.list_ascii_of_string a ++ String.list_ascii_of_string b.
Proof. induction a as [|c a IH]; [done|]. cbn. by rewrite IH. Qed.

#[export] Instance file_ledger_laws : LedgerLaws (λ _ t, t ∈ alphabet).
Proof.
  assert (∀ (d : path) (f : string), d ++ [f] ≠ d ++ [f; "log"]) as Hne by (intros d f H; apply app_inv_head in H; done).
  constructor.
  - intros d f fmt s. cbn. destruct (isdir (d ++ [f]) s); [done|apply (kept_child d f [])].
  - intros d f fmt s _ _. cbn. eexists. split; [done|]. destruct (isdir (d ++ [f]) s) eqn:E; [done|]. split.
    + unfold isdir. rewrite entry_lookup, lookup_insert_eq by (by intros []%app_nil). done.
    + unfold log_of. by rewrite lookup_insert_ne.
  - intros d f fmt s H. cbn. unfold log_of. by rewrite H.
  - intros d f g fmt s s' H. cbn. unfold log_of. by rewrite (H ["log"]).
  - intros d f fmt t s. cbn -[letter]. destruct (letter t); [apply kept_child|done].
  - intros d f fmt t s Hd Ht. cbn -[letter read_letter].
    assert (∃ n, letter t = Some n ∧ read_letter (Ascii.ascii_of_nat n) = Ok t) as (n & -> & Hr).
    { repeat (apply elem_of_cons in Ht as [->|Ht]); [by eexists..|by apply not_elem_of_nil in Ht]. }
    eexists. split; [done|]. split.
    + revert Hd. unfold isdir. rewrite !entry_lookup by (by intros []%app_nil). by rewrite lookup_insert_ne.
    + unfold log_of. rewrite lookup_insert_eq, list_ascii_app, map_app. cbn [String.list_ascii_of_string map]. by rewrite Hr.
Qed.

(** A node with a NYM in its pool ledger and a schema in its domain ledger. *)
Definition char (n : nat) : string := String (Ascii.ascii_of_nat n) "".

Definition old_node : FS := list_to_map
  [(["n"], EDir); (["n"; "pool"], EDir); (["n"; "pool"; "log"], EFile (char 0)); (["n"; "config"], EDir);
   (["n"; "transactions"], EDir); (["n"; "transactions"; "log"], EFile (char 1))].

Definition sample_config : LedgerConfig := mkLedgerConfig "pool" "domain_transactions" "config" ["n"] [].

Definition empty_object (_ : string) : res val := Ok (VDict []).

Lemma nothing_below (s : FS) (d : path) (x : string) :
  Forall (λ qe : path * Entry, below (d ++ [x]) qe.1 = None) (map_to_list s) → ∀ r, s !! (d ++ x :: r) = None.
Proof.
  intros H r. destruct (s !! (d ++ x :: r)) as [e|] eqn:E; [|done]. rewrite Forall_forall in H.
  specialize (H (d ++ x :: r, e) (proj2 (elem_of_map_to_list _ _ _) E)). cbn in H.
  change (d ++ x :: r) with (d ++ [x] ++ r) in H. by rewrite app_assoc, below_app in H.
Qed.

Lemma ledgers_converted_witness :
  ∃ s', migrate_node_ledgers empty_object sample_config ["n"] old_node = (Ok tt, s') ∧
    ledger_txns ["n"] "pool" Default s' = [Ok [("type", VStr "1")]] ∧
    ledger_txns ["n"] "domain_transactions" Default s' = [Ok [("type", VStr "101"); ("data", VDict [])]] ∧
    s' !! ["n"; "transactions"; "log"] = None.
Proof.
  destruct (ledgers_converted empty_object sample_config ["n"] old_node
    [[("type", VStr "1")]] [[("type", VStr "1")]] [] []
    [[("type", VStr "101"); ("data", VStr "{}")]] [[("type", VStr "101"); ("data", VDict [])]]) as (s' & H1 & H2 & _ & H3 & H4 & _).
  - by vm_compute.
  - apply (bool_decide_unpack _). by vm_compute.
  - constructor; [by vm_compute|by left| |by vm_compute|by repeat constructor|repeat constructor].
    apply (nothing_below old_node ["n"]), (bool_decide_unpack _). by vm_compute.
  - constructor; [by vm_compute|by left| |by vm_compute|by repeat constructor|repeat constructor].
    apply (nothing_below old_node ["n"]), (bool_decide_unpack _). by vm_compute.
  - constructor; [by vm_compute|by right; vm_compute| |by vm_compute|by repeat constructor|repeat constructor].
    apply (nothing_below old_node ["n"]), (bool_decide_unpack _). by vm_compute.
  - exists s'. split; [exact H1|]. split; [exact H2|]. split; [exact H3|]. exact (H4 ["log"]).
Defined.
