(* ===== verification/Metadata.v ===== *)
(** * The package and its plugins

    [indy_node/__metadata__.py], which keeps the version of the package and its manifest in
    files, [indy_node/__init__.py], which collects what the plugins add, and
    [scripts/remove_ledger.py], which removes the directories of the ledger of a plugin.

    JSON texts and the loading of a module are parameters; the version is the one of
    [node_version_fallback.py].  Files are a tree. *)
From Stdlib Require Import Ascii.
From S2P Require Import Prelude PyValue Plenum Constants StateDomain IdrCache HandlerBase Upgrader PoolUpgrade World Versions FileTree Directories.

(** ** __metadata__.py *)

Definition line_break : string := String (Ascii.ascii_of_nat 10) "".

(** [parts] of a version. *)
Definition parts (v : NodeVersionFallback) : list val :=
  map (λ n, VInt (Z.of_N n)) (fv_release_parts v) ++
  match fv_pre v with None => [VNone; VNone] | Some (tag, n) => [VStr tag; VInt (Z.of_N n)] end.

(** [for i in version], and the error of what is no iterable. *)
Definition iterate (v : val) : res (list val) :=
  match v with
  | VList l => Ok l
  | VDict d => Ok (map VStr (dkeys d))
  | VStr s => Ok (map (λ c, VStr (String c "")) (String.list_ascii_of_string s))
  | _ => Raise (InvalidVersionError "Failed to load: data is not iterable")
  end.

Definition version_text (items : list val) : string := py_join "." (List.filter str_truth (map py_str items)).

Section Files.
Context (json_loads : string → res val) (json_dumps json_dumps_sorted : val → string).

Definition load_version (version_file : path) : M NodeVersionFallback :=
  let? text := FileTree.read_file version_file in
  lift (let! version := json_loads text in
        let! items := iterate version in
        new_NodeVersionFallback (VStr (version_text items))).

Definition set_version (version : val) (version_file : path) : M unit :=
  let? v := lift (new_NodeVersionFallback version) in
  FileTree.write_file version_file
    (json_dumps (VList (map (λ i, match i with VNone => VStr "" | _ => i end) (parts v))) +:+ line_break).

Definition is_io_error (e : exn) : bool := match e with OSError _ => true | _ => false end.

Definition load_manifest (manifest_file : path) : M val :=
  catch (let? text := FileTree.read_file manifest_file in lift (json_loads text))
        (λ e, if is_io_error e then ret VNone else raise e).

Definition set_manifest (manifest : val) (manifest_file : path) : M unit :=
  FileTree.write_file manifest_file (json_dumps_sorted manifest +:+ line_break).
End Files.

(** ** Plugins, __init__.py *)

(** What the plugins add: ledgers, fields of requests and types of operations. *)
Record PluginGlobals := mkPluginGlobals {
  LEDGER_IDS : list val;
  CLIENT_REQUEST_FIELDS : dict val;
  CLIENT_REQ_OP_TYPES : dict val
}.

(** [PLUGIN_LEDGER_IDS.update]: a set, its elements in some order. *)
Definition add_ids (ids new : list val) : list val :=
  foldl (λ acc i, if existsb (py_eq i) acc then acc else acc ++ [i]) ids new.

(** The names a plugin's module defines. *)
Definition plugin_globals := dict val.

Definition dict_of (v : val) : res (dict val) := match v with VDict d => Ok d | _ => Raise (TypeError "object is not iterable") end.
Definition ids_of (v : val) : res (list val) :=
  match v with VList l => Ok l | VDict d => Ok (map VStr (dkeys d)) | _ => Raise (TypeError "object is not iterable") end.

Definition add_plugin (p : PluginGlobals) (globals : plugin_globals) : res PluginGlobals :=
  let! ids := match dget "LEDGER_IDS" globals with
              | Some v => let! l := ids_of v in Ok (add_ids (LEDGER_IDS p) l)
              | None => Ok (LEDGER_IDS p)
              end in
  let! fields := match dget "CLIENT_REQUEST_FIELDS" globals with
                 | Some v => let! d := dict_of v in Ok (dupdate (CLIENT_REQUEST_FIELDS p) d)
                 | None => Ok (CLIENT_REQUEST_FIELDS p)
                 end in
  let! types := match dget "REQ_OP_TYPES" globals with
                | Some v => let! d := dict_of v in Ok (dupdate (CLIENT_REQ_OP_TYPES p) d)
                | None => Ok (CLIENT_REQ_OP_TYPES p)
                end in
  Ok (mkPluginGlobals ids fields types).

Section Plugins.
Context (import_module load_file : string → res plugin_globals) (installed_packages : list string) (plugin_dir : string).

(** [find_and_load_plugin]: a package that is installed, under its name as a module, or the
    file in the directory of the plugins. *)
Definition find_and_load_plugin (plugin_name : string) : res plugin_globals :=
  if existsb (str_eqb plugin_name) installed_packages
  then import_module (replace_char "-"%char "_"%char plugin_name)
  else load_file (plugin_dir +:+ "/" +:+ plugin_name +:+ "/__init__.py").

(** [setup_plugins], from what was collected before. *)
Definition setup_plugins (p : PluginGlobals) (enabled_plugins : list string) : res PluginGlobals :=
  res_fold (λ p name, let! globals := find_and_load_plugin name in add_plugin p globals) p enabled_plugins.
End Plugins.

(** ** remove_ledger.py *)

(** [Path(dir).rglob(ledger_name + "_*")], for a name without wildcards: what is below the
    directory, at any depth, and has such a name. *)
Definition named_like (ledger_name : string) (n : string) : bool := String.prefix (ledger_name +:+ "_") n.

Definition rglob (dir : path) (ledger_name : string) (s : FS) : list path :=
  omap (λ qe, match below dir qe.1 with
              | Some ((_ :: _) as r) => if named_like ledger_name (FileTree.basename r) then Some qe.1 else None
              | _ => None
              end) (map_to_list s).

(** [answer.lower()] of the two answers that agree. *)
Definition agrees (answer : string) : bool :=
  existsb (str_eqb answer) ["y"; "Y"; "yes"; "yeS"; "yEs"; "yES"; "Yes"; "YeS"; "YEs"; "YES"].

Definition built_in : list string := ["domain"; "config"; "pool"; "audit"].

(** [remove], with the answer of the user; what it prints. *)
Definition remove (ledger_data_dir : path) (ledger_name answer : string) : M string :=
  if existsb (str_eqb ledger_name) built_in then ret ("Can`t delete built in ledger: " +:+ ledger_name) else
  λ s, match rglob ledger_data_dir ledger_name s with
       | [] => (Ok ("Ledger doesn`t exist: " +:+ ledger_name), s)
       | paths => if agrees answer
                  then (let? _ := each FileTree.rmtree paths in ret "Ledger removed successfully!") s
                  else (Ok "", s)
       end.

(** ** Lemmas *)

Lemma py_str_N (n : N) : py_str (VInt (Z.of_N n)) = pretty n.
Proof. by destruct n. Qed.

Lemma pretty_truth (n : N) : str_truth (pretty n) = true.
Proof. destruct (pretty_N_nonempty n) as (c & s & -> & _). done. Qed.

(** The texts of the parts that are not empty. *)
Definition shown (v : NodeVersionFallback) : list string :=
  map pretty (fv_release_parts v) ++ match fv_pre v with None => [] | Some (tag, n) => [tag; pretty n] end.

Lemma text_of_parts v :
  (∀ tag n, fv_pre v = Some (tag, n) → str_truth tag = true) →
  version_text (map (λ i, match i with VNone => VStr "" | _ => i end) (parts v)) = py_join "." (shown v).
Proof.
  intros Hpre. destruct v as [a b c pre]. unfold version_text, parts, shown, fv_release_parts. cbn [fv_major fv_minor fv_patch fv_pre] in *. f_equal.
  destruct pre as [[tag n]|]; cbn [map app]; rewrite !py_str_N; cbn [List.filter]; rewrite !pretty_truth; [|done].
  change (py_str (VStr tag)) with tag. by rewrite (Hpre tag n eq_refl).
Qed.

(** The parts with dots between them are a version again. *)
Lemma dotted_version v :
  (∀ tag n, fv_pre v = Some (tag, n) → tag = "dev" ∨ tag = "rc") →
  new_NodeVersionFallback (VStr (py_join "." (shown v))) = Ok v.
Proof.
  intros Hpre. destruct v as [a b c pre]. cbn [fv_pre] in Hpre.
  unfold new_NodeVersionFallback, shown, fullmatch_pep440. cbn -[number pretty pre_release].
  rewrite number_pretty by done. cbn -[number pretty pre_release].
  rewrite number_pretty by done. cbn -[number pretty pre_release].
  destruct pre as [[tag n]|]; cbn -[number pretty pre_release].
  - rewrite number_pretty by done.
    assert (pre_release (String "." (tag +:+ String "." (pretty n))) = Some (Some (tag, n))) as ->; [|done].
    unfold pre_release. change (maybe_dot (String "." (tag +:+ String "." (pretty n)))) with (tag +:+ String "." (pretty n)).
    destruct (Hpre tag n eq_refl) as [->| ->]; rewrite ?literal_app.
    + change (maybe_dot (String "." (pretty n))) with (pretty n). by rewrite number_pretty_end.
    + change (literal "dev" ("rc" +:+ String "." (pretty n))) with (@None string). cbv beta iota.
      change (maybe_dot (String "." (pretty n))) with (pretty n). by rewrite number_pretty_end.
  - by rewrite number_pretty_end.
Qed.

Lemma pre_release_tag s tag n : pre_release s = Some (Some (tag, n)) → tag = "dev" ∨ tag = "rc".
Proof.
  unfold pre_release. destruct s as [|c s]; [done|]. generalize (maybe_dot (String c s)) as t. intros t.
  destruct (literal "dev" t) as [r|]; [|destruct (literal "rc" t) as [r|]; [|done]];
    destruct (number (maybe_dot r)) as [[m []]|]; intros H; try done; injection H as <- _; auto.
Qed.

Lemma parsed_tag version v tag n :
  new_NodeVersionFallback version = Ok v → fv_pre v = Some (tag, n) → tag = "dev" ∨ tag = "rc".
Proof.
  destruct version as [| | |s| |]; try done. unfold new_NodeVersionFallback. destruct (fullmatch_pep440 s) as [w|] eqn:E; [|done].
  intros [= ->] Hpre. unfold fullmatch_pep440 in E.
  repeat match type of E with
         | context [match ?x with _ => _ end] => let H := fresh in destruct x eqn:H; try discriminate E
         end; injection E as <-; cbn in Hpre; subst; by eapply pre_release_tag.
Qed.

(** ** Properties *)

(** A version that is set is the one that is loaded; one that is refused leaves the file as
    it is. *)
Theorem version_file_roundtrip json_loads json_dumps version file s :
  (∀ l, json_loads (json_dumps (VList l) +:+ line_break) = Ok (VList l)) →
  match new_NodeVersionFallback version with
  | Ok v => ∀ s', set_version json_dumps version file s = (Ok tt, s') → load_version json_loads file s' = (Ok v, s')
  | Raise e => set_version json_dumps version file s = (Raise e, s)
  end.
Proof.
  intros Hjson. unfold set_version, act_bind, lift. destruct (new_NodeVersionFallback version) as [v|e] eqn:Hv; [|done].
  intros s' H. unfold load_version, act_bind. set (text := json_dumps _ +:+ line_break) in *.
  assert (FileTree.read_file file s' = (Ok text, s')) as ->.
  { unfold FileTree.write_file in H. unfold FileTree.read_file. destruct file as [|x file]; [done|]. cbn [entry] in *.
    destruct (s !! (x :: file)) as [[t|]|]; [|done|destruct (isdir _ s); [|done]]; injection H as <-; cbn [entry]; by rewrite lookup_insert_eq. }
  unfold lift, text. rewrite Hjson. cbn [res_bind iterate]. rewrite text_of_parts, dotted_version; [done|..].
  - intros tag n Ht. by eapply parsed_tag.
  - intros tag n Ht. destruct (parsed_tag _ _ _ _ Hv Ht) as [->| ->]; done.
Qed.

Lemma add_ids_in ids new i : i ∈ ids → i ∈ add_ids ids new.
Proof.
  revert ids. induction new as [|x new IH]; intros ids Hi; [done|]. cbn. apply IH. destruct (existsb _ _); [done|]. apply elem_of_app. by left.
Qed.

Lemma add_ids_same ids new : Forall (λ i, existsb (py_eq i) ids = true) new → add_ids ids new = ids.
Proof. induction 1 as [|i new Hi _ IH]; [done|]. cbn. by rewrite Hi. Qed.

Lemma add_ids_all ids new : Forall (λ i, py_eq i i = true) new → Forall (λ i, existsb (py_eq i) (add_ids ids new) = true) new.
Proof.
  revert ids. induction new as [|x new IH]; intros ids H; [constructor|]. apply Forall_cons in H as [Hx H]. cbn. constructor; [|by apply IH].
  destruct (existsb (py_eq x) ids) eqn:E.
  - apply existsb_exists in E as (y & Hy & Heq). apply existsb_exists. exists y. split; [|done]. apply list_elem_of_In, add_ids_in, list_elem_of_In, Hy.
  - apply existsb_exists. exists x. split; [|done]. apply list_elem_of_In, add_ids_in, elem_of_app. right. by apply list_elem_of_singleton.
Qed.

(** The dictionaries of a plugin have each key once, and its ids are equal to themselves. *)
Definition well_formed_globals (g : plugin_globals) : Prop :=
  (∀ l, dget "LEDGER_IDS" g = Some (VList l) → Forall (λ i, py_eq i i = true) l) ∧
  (∀ d, dget "LEDGER_IDS" g = Some (VDict d) → Forall (λ i, py_eq i i = true) (map VStr (dkeys d))) ∧
  (∀ d, dget "CLIENT_REQUEST_FIELDS" g = Some (VDict d) → NoDup (dkeys d)) ∧
  (∀ d, dget "REQ_OP_TYPES" g = Some (VDict d) → NoDup (dkeys d)).

(** Adding a plugin a second time adds nothing. *)
Theorem plugin_added_twice p g p' :
  well_formed_globals g → add_plugin p g = Ok p' →
  ∃ p'', add_plugin p' g = Ok p'' ∧ LEDGER_IDS p'' = LEDGER_IDS p' ∧
    (∀ k, dget k (CLIENT_REQUEST_FIELDS p'') = dget k (CLIENT_REQUEST_FIELDS p')) ∧
    (∀ k, dget k (CLIENT_REQ_OP_TYPES p'') = dget k (CLIENT_REQ_OP_TYPES p')).
Proof.
  intros (Hl & Hd & Hf & Ht) H. unfold add_plugin in H. bind H as ids Hids. bind H as fields Hfields. bind H as types Htypes. injection H as <-.
  assert (∀ (d e : dict val) k, NoDup (dkeys e) → dget k (dupdate (dupdate d e) e) = dget k (dupdate d e)) as Htwice.
  { intros d e k He. rewrite !dget_dupdate by done. by destruct (dget k e). }
  unfold add_plugin. cbn [LEDGER_IDS CLIENT_REQUEST_FIELDS CLIENT_REQ_OP_TYPES].
  assert (∃ ids', (match dget "LEDGER_IDS" g with Some v => let! l := ids_of v in Ok (add_ids ids l) | None => Ok ids end) = Ok ids' ∧ ids' = ids) as (ids' & -> & ->).
  { destruct (dget "LEDGER_IDS" g) as [v|]; [|by exists ids]. bind Hids as l Hi. rewrite Hi. injection Hids as <-. eexists. split; [done|].
    apply add_ids_same, add_ids_all. destruct v; try done; injection Hi as <-; auto. }
  cbn [res_bind].
  assert (∃ f', (match dget "CLIENT_REQUEST_FIELDS" g with Some v => let! d := dict_of v in Ok (dupdate fields d) | None => Ok fields end) = Ok f' ∧
    ∀ k, dget k f' = dget k fields) as (f' & -> & Hf').
  { destruct (dget "CLIENT_REQUEST_FIELDS" g) as [v|]; [|by exists fields]. bind Hfields as d Hi. rewrite Hi. injection Hfields as <-. eexists. split; [done|].
    intros k. apply Htwice. destruct v; try done. injection Hi as <-. by apply Hf. }
  cbn [res_bind].
  assert (∃ t', (match dget "REQ_OP_TYPES" g with Some v => let! d := dict_of v in Ok (dupdate types d) | None => Ok types end) = Ok t' ∧
    ∀ k, dget k t' = dget k types) as (t' & -> & Ht').
  { destruct (dget "REQ_OP_TYPES" g) as [v|]; [|by exists types]. bind Htypes as d Hi. rewrite Hi. injection Htypes as <-. eexists. split; [done|].
    intros k. apply Htwice. destruct v; try done. injection Hi as <-. by apply Ht. }
  eexists. split; [done|]. by split.
Qed.

(** *** remove_ledger.py *)

Lemma rglob_spec dir name s p :
  p ∈ rglob dir name s ↔ is_Some (s !! p) ∧ ∃ r, p = dir ++ r ∧ r ≠ [] ∧ named_like name (FileTree.basename r) = true.
Proof.
  unfold rglob. rewrite list_elem_of_omap. split.
  - intros ([q e] & Hin & H). apply elem_of_map_to_list in Hin. cbn in H. destruct (below dir q) as [[|x r]|] eqn:E; try done.
    apply below_Some in E. destruct (named_like name _) eqn:Hn; [|done]. injection H as <-. split; [by eexists|]. exists (x :: r). split; [done|]. by split.
  - intros ([e He] & r & -> & Hr & Hn). exists (dir ++ r, e). split; [by apply elem_of_map_to_list|]. cbn. rewrite below_app.
    destruct r as [|x r]; [done|]. by rewrite Hn.
Qed.

(** A path within a directory with a name of the ledger. *)
Definition of_ledger (dir : path) (name : string) (q : path) : Prop :=
  ∃ r rest, q = dir ++ r ++ rest ∧ r ≠ [] ∧ named_like name (FileTree.basename r) = true.

(** Whatever happens, only what is within the directories of the ledger is removed, and
    nothing for a ledger that is built in or without the agreement of the user. *)
Theorem remove_only_its_ledger dir name answer s q :
  (¬ of_ledger dir name q ∨ name ∈ built_in ∨ agrees answer = false) → (remove dir name answer s).2 !! q = s !! q.
Proof.
  intros Hq. unfold remove. destruct (existsb (str_eqb name) built_in) eqn:Hb; [done|].
  destruct (rglob dir name s) as [|p0 l0] eqn:Hl; [done|]. destruct (agrees answer) eqn:Ha; [|done].
  destruct Hq as [Hq|[Hq|Hq]]; [| |done].
  2:{ assert (existsb (str_eqb name) built_in = true) as H; [|by rewrite H in Hb].
      apply existsb_exists. exists name. split; [by apply list_elem_of_In|apply str_eqb_refl]. }
  assert (∀ p, p ∈ p0 :: l0 → ∀ r, ¬ (q = p ++ r)) as Hin.
  { intros p Hp r ->. rewrite <-Hl in Hp. apply rglob_spec in Hp as (_ & x & -> & Hx & Hn). apply Hq. exists x, r. by rewrite <-app_assoc. }
  clear Hl. revert Hin. generalize (p0 :: l0) as l. clear p0 l0. intros l. revert s. induction l as [|p l IH]; intros s Hin; [done|].
  cbn [each]. unfold act_bind at 1 2. pose proof (keeps_rmtree (eq q) p (λ r H, Hin p (list_elem_of_here _ _) r H) s) as Hk.
  destruct (FileTree.rmtree p s) as [[u|e] s1]; [|by apply Hk]. specialize (Hk q eq_refl). cbn in Hk. rewrite <-Hk.
  apply (IH s1). intros p' Hp'. apply Hin. by right.
Qed.

Lemma rglob_NoDup dir name s : NoDup (rglob dir name s).
Proof.
  unfold rglob. pose proof (NoDup_fst_map_to_list s) as H. induction (map_to_list s) as [|[p e] l IH]; [constructor|].
  cbn in H. apply NoDup_cons in H as [Hp H]. cbn. destruct (below dir p) as [[|x r]|]; [by apply IH| |by apply IH].
  destruct (named_like name _); [|by apply IH]. constructor; [|by apply IH]. intros ([q e'] & Hin & Hq)%list_elem_of_omap.
  cbn in Hq. destruct (below dir q) as [[|y r']|]; try done. destruct (named_like _ _); [|done]. injection Hq as ->.
  apply Hp, list_elem_of_fmap. by exists (p, e').
Qed.

(** Directories that are not one within another are removed one after the other. *)
Lemma rmtrees_run l s :
  NoDup l → (∀ p, p ∈ l → p ≠ [] ∧ s !! p = Some EDir) → (∀ p p', p ∈ l → p' ∈ l → p ≠ p' → below p p' = None) →
  ∃ s', each FileTree.rmtree l s = (Ok tt, s') ∧ (∀ p r, p ∈ l → s' !! (p ++ r) = None) ∧ (∀ q, s !! q = None → s' !! q = None).
Proof.
  revert s. induction l as [|p l IH]; intros s Hnd Hdir Hapart.
  { exists s. split; [done|]. split; [by intros p r Hp%elem_of_nil|done]. }
  apply NoDup_cons in Hnd as [Hp Hnd]. destruct (Hdir p (list_elem_of_here _ _)) as [Hpne Hpd].
  cbn [each]. unfold act_bind, FileTree.rmtree at 1. rewrite (proj2 (isdir_lookup p s Hpne) Hpd).
  destruct (IH (prune p s) Hnd) as (s' & H & Hgone & Hnone).
  - intros p' Hp'. destruct (Hdir p' (list_elem_of_further _ _ _ Hp')) as [H1 H2]. split; [done|].
    rewrite lookup_prune, Hapart; [done|by left|by right|]. by intros ->.
  - intros p1 p2 H1 H2. apply Hapart; by right.
  - exists s'. split; [exact H|]. split.
    + intros p' r [->|Hp']%elem_of_cons; [|by apply Hgone]. apply Hnone. by rewrite lookup_prune, below_app.
    + intros q Hq. apply Hnone. rewrite lookup_prune. by destruct (below p q).
Qed.

(** Where the names are those of directories, none within another, the ledger is removed
    from all of them. *)
Theorem ledger_removed dir name answer s :
  name ∉ built_in → agrees answer = true → rglob dir name s ≠ [] →
  (∀ p, p ∈ rglob dir name s → p ≠ [] ∧ s !! p = Some EDir) →
  (∀ p p', p ∈ rglob dir name s → p' ∈ rglob dir name s → p ≠ p' → below p p' = None) →
  ∃ s', remove dir name answer s = (Ok "Ledger removed successfully!", s') ∧ ∀ q, of_ledger dir name q → is_Some (s !! q) → wf_tree s → s' !! q = None.
Proof.
  intros Hb Ha Hne Hdir Hapart. unfold remove.
  assert (existsb (str_eqb name) built_in = false) as ->.
  { destruct (existsb _ _) eqn:E; [|done]. apply existsb_exists in E as (x & Hx & ->%str_eqb_eq). by destruct Hb; apply list_elem_of_In. }
  rewrite Ha. destruct (rglob dir name s) as [|p0 l0] eqn:Hl; [done|]. rewrite <-Hl in Hdir, Hapart |- *.
  destruct (rmtrees_run (rglob dir name s) s (rglob_NoDup dir name s) Hdir Hapart) as (s' & Hs' & Hgone & _).
  exists s'. split; [unfold act_bind; by rewrite Hs'|]. intros q (r & rest & -> & Hr & Hn) Hq Hwf.
  rewrite app_assoc. apply Hgone, rglob_spec. split; [|by exists r].
  destruct (decide (s !! (dir ++ r) = None)) as [Hno|Hyes]; [|by apply not_eq_None_Some].
  rewrite app_assoc, wf_absent in Hq; [by destruct Hq|done|by intros [_ ?]%app_nil|done].
Qed.

Definition token_node (more : list (path * Entry)) : FS := list_to_map
  ([(["data"], EDir); (["data"; "n"], EDir); (["data"; "n"; "domain_transactions"], EDir);
    (["data"; "n"; "token_transactions"], EDir); (["data"; "n"; "token_transactions"; "1"], EFile "t");
    (["data"; "n"; "token_state"], EDir)] ++ more).

Example token_removed :
  let r := remove ["data"] "token" "Y" (token_node []) in
  r.1 = Ok "Ledger removed successfully!" ∧ r.2 !! ["data"; "n"; "token_transactions"; "1"] = None ∧
  r.2 !! ["data"; "n"; "token_state"] = None ∧ r.2 !! ["data"; "n"; "domain_transactions"] = Some EDir ∧
  (remove ["data"] "token" "no" (token_node [])).2 !! ["data"; "n"; "token_state"] = Some EDir ∧
  (remove ["data"] "domain" "y" (token_node [])).1 = Ok "Can`t delete built in ledger: domain".
Proof. by vm_compute. Qed.

(** A file with such a name ends the removal. *)
Example file_ends_removal :
  (remove ["data"] "token" "y" (token_node [(["data"; "n"; "token_notes"], EFile "")])).1 = Raise NotADirectoryError.
Proof. by vm_compute. Qed.

Example loaded_version :
  let loads t := if str_eqb t "[1, 13, 2]" then Ok (VList [VInt 1; VInt 13; VInt 2; VStr "rc"; VInt 4])
                 else if str_eqb t "5" then Ok (VInt 5) else Ok (VStr "1.2") in
  let tree t : FS := {[["v"] := EFile t]} in
  (load_version loads ["v"] (tree "[1, 13, 2]")).1 = Ok (mkFallback 1 13 2 (Some ("rc", 4%N))) ∧
  is_Ok (load_version loads ["v"] (tree "5")).1 = false ∧ is_Ok (load_version loads ["v"] (tree "x")).1 = false ∧
  (load_manifest loads ["w"] (tree "x")).1 = Ok VNone.
Proof. by vm_compute. Qed.
