(* ===== verification/LoadStat.v ===== *)
(** * Load generation: statistics and helpers

    [scripts/performance/perf_load]: the statistics of a client
    (perf_clientstaistic.py) and the helpers of the request generators
    (perf_utils.py), among them the choice of the sources a payment is made of.

    [json.loads], [json.dumps] and the clock are arguments.  What [repr] makes of the
    data of a request is the key of its record. *)
From S2P Require Import Prelude PyValue Plenum Constants StateDomain IdrCache HandlerBase Upgrader PoolUpgrade World.
Local Open Scope Z_scope.

(** ** Statistics *)

(** What a request is answered with: a text, a value or an exception. *)
Inductive Answer :=
| AText (s : string)
| AValue (v : val)
| AExn (e : exn).

(** The record of a request; a key that was not set is [None]. *)
Record ReqStat := mkReqStat {
  rs_label : option string;
  client_preparing : option Z;
  client_prepared : option Z;
  client_signed : option Z;
  client_sent : option Z;
  client_reply : option Z;
  server_reply : option Z;
  rs_status : option string;
  rs_req : option string;
  rs_resp : option Answer
}.

Definition no_req_stat : ReqStat := mkReqStat None None None None None None None None None None.

Definition set_preparing (t : Z) (label : string) (r : ReqStat) : ReqStat :=
  mkReqStat (Some label) (Some t) (client_prepared r) (client_signed r) (client_sent r) (client_reply r)
    (server_reply r) (rs_status r) (rs_req r) (rs_resp r).
Definition set_prepared (t : Z) (r : ReqStat) : ReqStat :=
  mkReqStat (rs_label r) (client_preparing r) (Some t) (client_signed r) (client_sent r) (client_reply r)
    (server_reply r) (rs_status r) (rs_req r) (rs_resp r).
Definition set_signed (t : Z) (r : ReqStat) : ReqStat :=
  mkReqStat (rs_label r) (client_preparing r) (client_prepared r) (Some t) (client_sent r) (client_reply r)
    (server_reply r) (rs_status r) (rs_req r) (rs_resp r).
Definition set_sent (t : Z) (req : option string) (r : ReqStat) : ReqStat :=
  mkReqStat (rs_label r) (client_preparing r) (client_prepared r) (client_signed r) (Some t) (client_reply r)
    (server_reply r) (rs_status r) (match req with Some _ => req | None => rs_req r end) (rs_resp r).
Definition set_reply (t : Z) (r : ReqStat) : ReqStat :=
  mkReqStat (rs_label r) (client_preparing r) (client_prepared r) (client_signed r) (client_sent r) (Some t)
    (server_reply r) (rs_status r) (rs_req r) (rs_resp r).
Definition set_server_reply (t : Z) (r : ReqStat) : ReqStat :=
  mkReqStat (rs_label r) (client_preparing r) (client_prepared r) (client_signed r) (client_sent r) (client_reply r)
    (Some t) (rs_status r) (rs_req r) (rs_resp r).
Definition set_status (s : string) (resp : option Answer) (r : ReqStat) : ReqStat :=
  mkReqStat (rs_label r) (client_preparing r) (client_prepared r) (client_signed r) (client_sent r) (client_reply r)
    (server_reply r) (Some s) (rs_req r) (match resp with Some _ => resp | None => rs_resp r end).

Record ClientStatistic := mkStat {
  short_stat : bool;
  req_prep : Z;
  req_sent : Z;
  req_succ : Z;
  req_fail : Z;
  req_nack : Z;
  req_rejc : Z;
  client_stat_reqs : dict ReqStat
}.

Definition new_ClientStatistic (short : bool) : ClientStatistic := mkStat short 0 0 0 0 0 0 [].

(** [self._client_stat_reqs.setdefault(key, dict())], changed. *)
Definition update_req (key : string) (f : ReqStat → ReqStat) (s : ClientStatistic) : ClientStatistic :=
  mkStat (short_stat s) (req_prep s) (req_sent s) (req_succ s) (req_fail s) (req_nack s) (req_rejc s)
    (dset key (f (default no_req_stat (dget key (client_stat_reqs s)))) (client_stat_reqs s)).

Definition add_counts (prep sent succ fail nack rejc : Z) (s : ClientStatistic) : ClientStatistic :=
  mkStat (short_stat s) (req_prep s + prep) (req_sent s + sent) (req_succ s + succ) (req_fail s + fail)
    (req_nack s + nack) (req_rejc s + rejc) (client_stat_reqs s).

Definition preparing (now : Z) (key label : string) : ClientStatistic → ClientStatistic :=
  update_req key (set_preparing now label).

Definition prepared (now : Z) (key : string) : ClientStatistic → ClientStatistic :=
  update_req key (set_prepared now).

Definition signed (now : Z) (key : string) (s : ClientStatistic) : ClientStatistic :=
  add_counts 1 0 0 0 0 0 (update_req key (set_signed now) s).

Definition sent (now : Z) (key req : string) (s : ClientStatistic) : ClientStatistic :=
  add_counts 0 1 0 0 0 0 (update_req key (set_sent now (if short_stat s then None else Some req)) s).

(** [int(v)] *)
Definition int_of (v : val) : res Z :=
  match v with
  | VBool b => Ok (if b then 1 else 0)
  | VInt z => Ok z
  | VStr s => py_int s
  | _ => Raise (TypeError "int() argument must be a string or a number")
  end.

(** The time in the result of a reply. *)
Definition server_time (resp : dict val) : res Z :=
  let! result := dgetitem "result" resp in
  match result with
  | VDict r =>
      let t := default (VBool false) (dget "txnTime" r) in
      if py_truth t then int_of t
      else match default (VDict []) (dget "txnMetadata" r) with
           | VDict m => int_of (default (VBool false) (dget "txnTime" m))
           | _ => Raise AttributeError
           end
  | _ => Raise AttributeError
  end.

Section Reply.
Context (json_loads : string → res val) (json_dumps : val → string).

Definition parsed (a : Answer) : Answer :=
  match a with
  | AText s => match json_loads s with Ok v => AValue v | Raise e => AExn e end
  | _ => a
  end.

(** [reply]: the request is counted before the time of the server is read. *)
Definition reply (now : Z) (key : string) (a : Answer) : act ClientStatistic unit :=
  let? _ := modify (update_req key (set_reply now)) in
  let finish status resp : act ClientStatistic unit :=
    λ s, modify (update_req key (set_status status (if short_stat s then None else Some resp))) s in
  match parsed a with
  | AValue (VDict d as v) =>
      if dhas "op" d then
        let op := vget "op" d in
        let resp := AText (json_dumps v) in
        if py_eq op (VStr "REQNACK") then
          let? _ := modify (add_counts 0 0 0 0 1 0) in finish "nack" resp
        else if py_eq op (VStr "REJECT") then
          let? _ := modify (add_counts 0 0 0 0 0 1) in finish "reject" resp
        else if py_eq op (VStr "REPLY") then
          let? _ := modify (add_counts 0 0 1 0 0 0) in
          let? t := lift (server_time d) in
          let? _ := modify (update_req key (set_server_reply t)) in finish "succ" resp
        else let? _ := modify (add_counts 0 0 0 1 0 0) in finish "fail" resp
      else let? _ := modify (add_counts 0 0 0 1 0 0) in finish "fail" (AValue v)
  | resp => let? _ := modify (add_counts 0 0 0 1 0 0) in finish "fail" resp
  end.
End Reply.

Record StatDump := mkDump {
  total_prepared : Z;
  total_sent : Z;
  total_fail : Z;
  total_succ : Z;
  total_nacked : Z;
  total_rejected : Z;
  dumped : list (string * ReqStat)
}.

(** Whether a record is reported. *)
Definition to_report (dump_all : bool) (r : ReqStat) : bool :=
  dump_all || match rs_status r with Some _ => true | None => false end.

(** [dump_stat]: what is reported is forgotten. *)
Definition dump_stat (dump_all : bool) (s : ClientStatistic) : StatDump * ClientStatistic :=
  let out := filter (λ kr : string * ReqStat, to_report dump_all kr.2 = true) (client_stat_reqs s) in
  (mkDump (req_prep s) (req_sent s) (req_fail s) (req_succ s) (req_nack s) (req_rejc s) out,
   mkStat (short_stat s) (req_prep s) (req_sent s) (req_succ s) (req_fail s) (req_nack s) (req_rejc s)
     (foldl (λ d kr, ddel kr.1 d) (client_stat_reqs s) out)).

(** ** Helpers: perf_utils.py *)

Definition check_seed (seed : string) : res string :=
  if Nat.eqb (String.length seed) 32 then Ok seed
  else Raise (PyException ("Seed must be 32 characters long but provided " +:+ str_int (Z.of_nat (String.length seed)))).

Section Helpers.
Context (json_loads : string → res val).

(** The argument is a text or a dictionary. *)
Definition ensure_is_reply (resp : val) : res unit :=
  let! r := match resp with VStr s => json_loads s | _ => Ok resp end in
  match r with
  | VDict d =>
      if negb (dhas "op" d) || negb (py_eq (vget "op" d) (VStr "REPLY"))
      then Raise (PyException ("Response is not a successful reply: " +:+ py_str r)) else Ok tt
  | VStr s => if py_in_str "op" s then Raise (TypeError "string indices must be integers")
              else Raise (PyException ("Response is not a successful reply: " +:+ s))
  | VList l => if existsb (py_eq (VStr "op")) l then Raise (TypeError "list indices must be integers or slices")
               else Raise (PyException ("Response is not a successful reply: " +:+ py_str r))
  | _ => Raise (TypeError "argument is not iterable")
  end.

(** [v.get(k, d)] of a value. *)
Definition val_get (k : string) (d : val) (v : val) : res val :=
  match v with VDict m => Ok (default d (dget k m)) | _ => Raise AttributeError end.

Definition or_empty_dict (v : val) : val := if py_truth v then v else VDict [].

Definition get_txn_field (txn_dict : val) : res val :=
  let tmp := or_empty_dict txn_dict in
  let! r := val_get "result" (VDict []) tmp in
  let! t := val_get "txn" (VDict []) r in
  if py_truth t then Ok t else val_get "txn" (VDict []) tmp.

Definition get_type_field (txn_dict : val) : res val :=
  let! t := get_txn_field txn_dict in val_get "type" VNone t.

Definition get_txnid_field (txn_dict : val) : res val :=
  let tmp := or_empty_dict txn_dict in
  let! r := val_get "result" (VDict []) tmp in
  let! m := val_get "txnMetadata" (VDict []) r in
  let! m' := if py_truth m then Ok m else val_get "txnMetadata" (VDict []) tmp in
  val_get "txnId" VNone m'.

Definition request_get_type (req : val) : res val :=
  let! d := match req with
            | VDict _ => Ok req
            | VStr s => json_loads s
            | _ => Raise (PyException "Request of unsupported type")
            end in
  let! o := val_get "operation" (VDict []) d in val_get "type" (VStr "") o.

Definition response_get_type (resp : val) : res val :=
  let! d := match resp with
            | VDict _ => Ok resp
            | VStr s => json_loads s
            | _ => Raise (PyException "Response of unsupported type")
            end in
  let! r := val_get "result" (VDict []) d in
  let! t := val_get "txn" (VDict []) r in val_get "type" (VStr "") t.
End Helpers.

(** [divide_sequence_into_chunks], for a size that is not 0. *)
Definition divide_sequence_into_chunks {A} (l : list A) (chunk_size : nat) : list (list A) :=
  map (λ i, take chunk_size (drop (i * chunk_size) l)) (seq 0 ((length l + chunk_size - 1) / chunk_size)).

(** *** Payment sources *)

(** A source and its amount. *)
Abbreviation txo := (string * Z)%type.

(** The [while] loop of [gen_input_output] over the sources of an address, the last one
    first: what is left, what was taken and the total. *)
Fixpoint take_txos (val : Z) (stack : list txo) (total : Z) (tmp : list txo) : list txo * list txo * Z :=
  match stack with
  | [] => ([], tmp, total)
  | (source, amount) :: stack' =>
      if Z.ltb total val
      then if Z.ltb 0 amount then take_txos val stack' (total + amount) (tmp ++ [(source, amount)])
           else take_txos val stack' total tmp
      else (stack, tmp, total)
  end.

Record Spending := mkSpending {
  sp_address : string;
  sp_txos : list txo;
  sp_inputs : list string;
  sp_outputs : list (string * Z)
}.

(** [gen_input_output]: [None] when no address has enough; the sources of an address
    that has not are put back. *)
Fixpoint spend_from (val : Z) (addresses : list string) (addr_txos : dict (list txo))
    : option Spending * dict (list txo) :=
  match addresses with
  | [] => (None, addr_txos)
  | address :: addresses' =>
      let '(stack, tmp, total) := take_txos val (rev (default [] (dget address addr_txos))) 0 [] in
      if Z.leb val total
      then (Some (mkSpending address tmp (map fst tmp)
                    (if Z.ltb 0 (total - val) then [(address, total - val)] else [])),
            dset address (rev stack) addr_txos)
      else spend_from val addresses' (dset address (rev stack ++ tmp) addr_txos)
  end.

Definition gen_input_output (addr_txos : dict (list txo)) (val : Z) : option Spending * dict (list txo) :=
  spend_from val (dkeys addr_txos) addr_txos.

(** ** Lemmas: sources *)

Definition amount (l : list txo) : Z := foldr (λ t acc, t.2 + acc) 0 l.

Definition usable (l : list txo) : list txo := filter (λ t : txo, 0 < t.2) l.

#[export] Instance usable_perm : Proper ((≡ₚ) ==> (≡ₚ)) usable.
Proof. intros l l' H. unfold usable. by rewrite H. Qed.

#[export] Instance amount_perm : Proper ((≡ₚ) ==> (=)) amount.
Proof. unfold amount. intros l l' H. induction H; cbn [foldr] in *; lia. Qed.

Lemma amount_app l l' : amount (l ++ l') = amount l + amount l'.
Proof. unfold amount. induction l as [|t l IH]; cbn [foldr app]; [done|]. rewrite IH. lia. Qed.

Lemma usable_app l l' : usable (l ++ l') = usable l ++ usable l'.
Proof. apply filter_app. Qed.

Lemma usable_all l : Forall (λ t : txo, 0 < t.2) l → usable l = l.
Proof.
  induction 1 as [|t l Ht _ IH]; [done|]. unfold usable in *. by rewrite filter_cons_True, IH.
Qed.

(** What the loop takes off the stack: the usable ones, as many as are needed. *)
Lemma take_txos_spec val stack total tmp :
  let '(stack', tmp', total') := take_txos val stack total tmp in
  ∃ taken, tmp' = tmp ++ taken ∧ total' = total + amount taken ∧ usable stack ≡ₚ taken ++ usable stack' ∧
    Forall (λ t : txo, 0 < t.2) taken ∧ (total' < val → stack' = []) ∧
    (taken ≠ [] → total + amount (removelast taken) < val).
Proof.
  revert total tmp. induction stack as [|[s a] stack IH]; intros total tmp; cbn [take_txos].
  { exists []. rewrite app_nil_r. cbn. repeat split; try done; lia. }
  destruct (Z.ltb_spec total val) as [Hlt|Hge].
  - destruct (Z.ltb_spec 0 a) as [Ha|Ha].
    + specialize (IH (total + a) (tmp ++ [(s, a)])). destruct (take_txos _ _ _ _) as [[st' tmp'] total'].
      destruct IH as (taken & -> & -> & Hp & Hpos & Hend & Hmin). exists ((s, a) :: taken).
      rewrite <-app_assoc. split; [done|].
      split; [change (total + a + amount taken = total + (a + amount taken)); lia|].
      split; [unfold usable at 1; rewrite filter_cons_True by done; cbn; by f_equiv|].
      split; [by constructor|]. split; [done|]. intros _. destruct taken as [|t taken].
      * change (total + 0 < val). lia.
      * specialize (Hmin ltac:(done)).
        change (total + (a + amount (removelast (t :: taken))) < val). lia.
    + specialize (IH total tmp). destruct (take_txos _ _ _ _) as [[st' tmp'] total'].
      destruct IH as (taken & -> & -> & Hp & Hpos & Hend & Hmin). exists taken.
      split; [done|]. split; [done|]. split; [|done].
      unfold usable at 1. rewrite filter_cons_False by (cbn; lia). exact Hp.
  - exists []. rewrite app_nil_r. cbn [amount foldr app]. split; [done|]. split; [lia|]. split; [done|].
    split; [constructor|]. split; [lia|done].
Qed.

Definition sources (d : dict (list txo)) (a : string) : list txo := default [] (dget a d).

Lemma sources_dset a l d b : sources (dset a l d) b = if decide (a = b) then l else sources d b.
Proof.
  unfold sources. destruct (decide (a = b)) as [->|H]; [by rewrite dget_dset_eq|by rewrite dget_dset_ne].
Qed.

(** What was spent of the sources of an address. *)
Definition spent_at (r : option Spending) (a : string) : list txo :=
  match r with Some sp => if decide (sp_address sp = a) then sp_txos sp else [] | None => [] end.

Lemma spend_from_spec val addresses : ∀ d,
  NoDup addresses →
  let '(r, d') := spend_from val addresses d in
  (∀ a, usable (sources d a) ≡ₚ spent_at r a ++ usable (sources d' a)) ∧
  match r with
  | Some sp =>
      sp_address sp ∈ addresses ∧ sp_inputs sp = map fst (sp_txos sp) ∧ Forall (λ t : txo, 0 < t.2) (sp_txos sp) ∧
      amount (sp_txos sp) = val + foldr (λ o acc, o.2 + acc) 0 (sp_outputs sp) ∧
      Forall (λ o : string * Z, o.1 = sp_address sp ∧ 0 < o.2) (sp_outputs sp) ∧
      (sp_txos sp ≠ [] → amount (removelast (sp_txos sp)) < val)
  | None => ∀ a, a ∈ addresses → amount (usable (sources d a)) < val
  end.
Proof.
  induction addresses as [|a addresses IH]; intros d Hnd; cbn [spend_from]; [split; [done|by intros a ?%not_elem_of_nil]|].
  apply NoDup_cons in Hnd as [Ha Hnd]. fold (sources d a).
  pose proof (take_txos_spec val (rev (sources d a)) 0 []) as Ht.
  destruct (take_txos _ _ _ _) as [[stack tmp] total]. destruct Ht as (taken & -> & -> & Hp & Hpos & Hend & Hmin).
  cbn [app]. rewrite !Z.add_0_l in *.
  assert (usable (sources d a) ≡ₚ taken ++ usable (rev stack)) as Hperm.
  { rewrite <-(rev_involutive (sources d a)), <-(Permutation_rev (rev (sources d a))), Hp.
    by rewrite <-(Permutation_rev stack). }
  destruct (Z.leb_spec val (amount taken)) as [Hle|Hlt].
  - split.
    + intros b. rewrite sources_dset. cbn [spent_at sp_address sp_txos]. by destruct (decide (a = b)) as [<-|].
    + cbn [sp_address sp_txos sp_inputs sp_outputs]. split; [apply list_elem_of_here|]. split; [done|]. split; [done|].
      split; [destruct (Z.ltb_spec 0 (amount taken - val)); cbn [foldr snd]; lia|].
      split; [|done]. destruct (Z.ltb_spec 0 (amount taken - val)); repeat constructor; done.
  - specialize (Hend Hlt). subst stack. cbn [rev app]. cbn [usable rev filter] in Hperm. rewrite app_nil_r in Hperm.
    specialize (IH (dset a taken d) Hnd). destruct (spend_from _ _ _) as [r d']. destruct IH as [Hall Hr]. split.
    + intros b. specialize (Hall b). rewrite sources_dset in Hall. destruct (decide (a = b)) as [<-|]; [|done].
      rewrite usable_all in Hall by done. by rewrite Hperm.
    + destruct r as [sp|].
      * destruct Hr as [Hin Hr]. split; [by apply list_elem_of_further|done].
      * intros b [->|Hb]%elem_of_cons; [by rewrite Hperm|].
        specialize (Hr b Hb). by rewrite sources_dset, decide_False in Hr by (intros <-; done).
Qed.

(** ** Properties *)

(** A payment spends what it needs and loses nothing: the usable sources of every
    address are those that are left and those that are spent; what is spent is worth
    the amount asked for and the change, which goes back to the same address; without
    the last source it would not be enough.  There is no payment only if no address has
    enough by itself, and then every usable source is still there. *)
Theorem payment_sources_conserved addr_txos val r addr_txos' :
  NoDup (dkeys addr_txos) → gen_input_output addr_txos val = (r, addr_txos') →
  (∀ a, usable (sources addr_txos a) ≡ₚ spent_at r a ++ usable (sources addr_txos' a)) ∧
  match r with
  | Some sp =>
      sp_address sp ∈ dkeys addr_txos ∧ sp_inputs sp = map fst (sp_txos sp) ∧
      amount (sp_txos sp) = val + foldr (λ o acc, o.2 + acc) 0 (sp_outputs sp) ∧
      Forall (λ o : string * Z, o.1 = sp_address sp ∧ 0 < o.2) (sp_outputs sp) ∧
      (sp_txos sp ≠ [] → amount (removelast (sp_txos sp)) < val)
  | None => ∀ a, a ∈ dkeys addr_txos → amount (usable (sources addr_txos a)) < val
  end.
Proof.
  intros Hnd H. pose proof (spend_from_spec val (dkeys addr_txos) addr_txos Hnd) as Hs.
  unfold gen_input_output in H. rewrite H in Hs. destruct Hs as [Hall Hr]. split; [done|].
  destruct r; [|done]. by destruct Hr as (? & ? & _ & ?).
Qed.

Lemma payment_sources_conserved_witness :
  let d := [("A", [("s1", 2)]); ("B", [("s2", 4); ("s3", 0); ("s4", 3)])] in
  gen_input_output d 6 = (Some (mkSpending "B" [("s4", 3); ("s2", 4)] ["s4"; "s2"] [("B", 1)]), [("A", [("s1", 2)]); ("B", [])]) ∧
  (∀ a, usable (sources d a) ≡ₚ
     spent_at (Some (mkSpending "B" [("s4", 3); ("s2", 4)] ["s4"; "s2"] [("B", 1)])) a ++
     usable (sources [("A", [("s1", 2)]); ("B", [])] a)).
Proof.
  intros d. split; [reflexivity|].
  refine (proj1 (payment_sources_conserved d 6 _ _ _ _)); [|reflexivity].
  apply (bool_decide_unpack _). by vm_compute.
Defined.
