(* ===== verification/LoadClient.v ===== *)
(** * A client of the load generation

    The queues of [LoadClient] in [scripts/performance/perf_load/perf_client.py]: requests
    are generated and signed ahead of time, sent in batches or one after the other, and
    counted; a stop waits for what is still under way.

    The client runs on an event loop.  Its state is the object with the tasks and
    callbacks of the loop; an event is a message of the pipe, the next callback, a timer
    that is due, or a task that goes on with the outcome of what it awaits: what the
    request generator, the wallet and the pool answer.  Tasks are interleaved at every
    [await]. *)
From S2P Require Import Prelude PyValue Plenum Constants StateDomain IdrCache HandlerBase Upgrader PoolUpgrade World LoadStat.

(** ** State *)

Inductive SendMode := SendResp | SendTime | SendSync.

#[export] Instance SendMode_eq_dec : EqDecision SendMode.
Proof. solve_decision. Defined.

Inductive Msg := ClientStop | ClientRun | ClientGetStat | ClientSend (cnt : nat) | PipeError.

(** [PipeError]: [recv] raised.  What is sent over the pipe follows. *)
Inductive OutMsg := ClientReady | StatMsg (d : StatDump).

(** Where [gen_signed_req] is: before its first line, or awaiting the request of the
    generator, the acceptance of the agreement, the signature, or the generator's
    [on_request_generated]. *)
Inductive GenPhase :=
| GStart
| GGenerating (key : string)
| GAccepting (key : string)
| GSigning (key : string)
| GNotify.

(** Where [submit_req_update] is. *)
Inductive SubPhase :=
| SStart (key req : string)
| SSubmitting (key : string)
| SNotify.

(** Where [stop_test] is: awaiting the tasks of a queue, the wallet or the pool. *)
Inductive StopPhase :=
| StStart
| StSending (ids : list nat)
| StGenerating (ids : list nat)
| StWallet
| StPool.

(** [TPregen rounds]: [pregen_reqs], with that many rounds to go besides the one it is in. *)
Inductive Task :=
| TPregen (rounds : nat) (g : GenPhase)
| TGen (g : GenPhase)
| TSub (s : SubPhase)
| TStop (s : StopPhase).

Inductive Callback := CbGenReqs | CbReqSend | CbSendStat | CbCheckBatch (id : nat) | CbDoneSubmit (id : nat) | CbStopLoop.

Record Client := mkClient {
  stat : ClientStatistic;
  closing : bool;
  load_client_reqs : list (string * string);
  gen_q : list nat;
  send_q : list nat;
  tasks : gmap nat Task;
  next_id : nat;
  soon : list Callback;
  later : list Callback;
  loop_stopped : bool;
  outbox : list OutMsg
}.

Definition set_stat (s : ClientStatistic) (c : Client) : Client :=
  mkClient s (closing c) (load_client_reqs c) (gen_q c) (send_q c) (tasks c) (next_id c) (soon c) (later c) (loop_stopped c) (outbox c).
Definition set_closing (c : Client) : Client :=
  mkClient (stat c) true (load_client_reqs c) (gen_q c) (send_q c) (tasks c) (next_id c) (soon c) (later c) (loop_stopped c) (outbox c).
Definition set_reqs (l : list (string * string)) (c : Client) : Client :=
  mkClient (stat c) (closing c) l (gen_q c) (send_q c) (tasks c) (next_id c) (soon c) (later c) (loop_stopped c) (outbox c).
Definition set_gen_q (l : list nat) (c : Client) : Client :=
  mkClient (stat c) (closing c) (load_client_reqs c) l (send_q c) (tasks c) (next_id c) (soon c) (later c) (loop_stopped c) (outbox c).
Definition set_send_q (l : list nat) (c : Client) : Client :=
  mkClient (stat c) (closing c) (load_client_reqs c) (gen_q c) l (tasks c) (next_id c) (soon c) (later c) (loop_stopped c) (outbox c).
Definition set_task (i : nat) (t : Task) (c : Client) : Client :=
  mkClient (stat c) (closing c) (load_client_reqs c) (gen_q c) (send_q c) (<[i := t]> (tasks c)) (next_id c) (soon c) (later c) (loop_stopped c) (outbox c).
Definition end_task (i : nat) (c : Client) : Client :=
  mkClient (stat c) (closing c) (load_client_reqs c) (gen_q c) (send_q c) (delete i (tasks c)) (next_id c) (soon c) (later c) (loop_stopped c) (outbox c).
Definition call_soon (b : Callback) (c : Client) : Client :=
  mkClient (stat c) (closing c) (load_client_reqs c) (gen_q c) (send_q c) (tasks c) (next_id c) (soon c ++ [b]) (later c) (loop_stopped c) (outbox c).
Definition set_soon (l : list Callback) (c : Client) : Client :=
  mkClient (stat c) (closing c) (load_client_reqs c) (gen_q c) (send_q c) (tasks c) (next_id c) l (later c) (loop_stopped c) (outbox c).
Definition set_later (l : list Callback) (c : Client) : Client :=
  mkClient (stat c) (closing c) (load_client_reqs c) (gen_q c) (send_q c) (tasks c) (next_id c) (soon c) l (loop_stopped c) (outbox c).
Definition stop_loop (c : Client) : Client :=
  mkClient (stat c) (closing c) (load_client_reqs c) (gen_q c) (send_q c) (tasks c) (next_id c) (soon c) (later c) true (outbox c).
Definition pipe_send (m : OutMsg) (c : Client) : Client :=
  mkClient (stat c) (closing c) (load_client_reqs c) (gen_q c) (send_q c) (tasks c) (next_id c) (soon c) (later c) (loop_stopped c) (outbox c ++ [m]).

(** [self._loop.create_task]; the task has the number [next_id c]. *)
Definition create_task (t : Task) (c : Client) : Client :=
  mkClient (stat c) (closing c) (load_client_reqs c) (gen_q c) (send_q c) (<[next_id c := t]> (tasks c)) (S (next_id c))
    (soon c) (later c) (loop_stopped c) (outbox c).

(** The outcome of what a task awaits. *)
Inductive Outcome :=
| OData (r : res (string * string))
| OText (r : res string)
| OAnswer (a : Answer)
| ODone (r : res unit).

Inductive Event :=
| EPipe (m : Msg)
| ESoon
| ETimer (i : nat)
| ETask (id : nat) (now : Z) (o : Outcome).

(** [NoReqDataAvailableException] *)
Definition no_req_data : exn := PyException "NoReqDataAvailableException".

Definition is_no_data (e : exn) : bool :=
  match e with PyException m => str_eqb m "NoReqDataAvailableException" | _ => false end.

(** [list.remove] of an element that is there. *)
Fixpoint remove_id (x : nat) (l : list nat) : list nat :=
  match l with
  | [] => []
  | y :: l' => if Nat.eqb x y then l' else y :: remove_id x l'
  end.

Section Client.
Context (json_loads : string → res val) (json_dumps : val → string).
Context (mode : SendMode) (buff_reqs batch_size : nat).
Implicit Types c : Client.

Definition not_resp : bool := negb (bool_decide (mode = SendResp)).

(** ** Queues *)

Definition max_in_bg : nat := buff_reqs + 1.

Definition gen_reqs (c : Client) : Client :=
  if closing c then c
  else if not_resp && (max_in_bg <? length (gen_q c) + length (load_client_reqs c)) then c
  else set_gen_q (gen_q c ++ [next_id c]) (create_task (TGen GStart) c).

Definition watch_queues (c : Client) : Client :=
  if length (load_client_reqs c) + length (gen_q c) <? max_in_bg then call_soon CbGenReqs c else c.

(** [self._load_client_reqs.pop()], and the task that sends it. *)
Definition send_one (c : Client) : Client :=
  match last (load_client_reqs c) with
  | Some (key, req) =>
      set_send_q (send_q c ++ [next_id c])
        (create_task (TSub (SStart key req)) (set_reqs (removelast (load_client_reqs c)) c))
  | None => c
  end.

Fixpoint repeat_send (n : nat) (c : Client) : Client :=
  match n with O => c | S n' => repeat_send n' (send_one c) end.

Definition req_send (cnt : option nat) (c : Client) : Client :=
  if closing c then c else
  let c1 := match mode with SendTime => set_later (later c ++ [CbReqSend]) c | _ => c end in
  let to_snd := match cnt with Some (S n) => S n | _ => batch_size end in
  repeat_send (Nat.min (length (load_client_reqs c1)) to_snd) c1.

Definition check_batch_avail (id : nat) (c : Client) : Client :=
  let c1 := set_gen_q (remove_id id (gen_q c)) c in
  if not_resp then watch_queues c1 else req_send (Some 1) c1.

Definition done_submit (id : nat) (c : Client) : Client :=
  let c1 := set_send_q (remove_id id (send_q c)) c in
  if not_resp then watch_queues c1 else c1.

Definition send_stat (c : Client) : Client :=
  let '(d, s) := dump_stat false (stat c) in pipe_send (StatMsg d) (set_stat s c).

(** ** The pipe *)

Definition on_ClientRun (c : Client) : Client :=
  match mode with SendTime => call_soon CbReqSend c | _ => c end.

Definition on_ClientSend (cnt : nat) (c : Client) : Client :=
  match mode with SendSync => req_send (Some cnt) c | _ => c end.

Definition read_cb (m : Msg) (c : Client) : Client :=
  match m with
  | ClientStop => if closing c then c else create_task (TStop StStart) c
  | ClientRun => on_ClientRun (gen_reqs c)
  | ClientGetStat => call_soon CbSendStat c
  | ClientSend cnt => on_ClientSend cnt c
  | PipeError => create_task (TStop StStart) c
  end.

(** ** Tasks *)

(** What a step of [gen_signed_req] leads to: the next [await], the end, or an exception. *)
Inductive GenNext := GAwait (g : GenPhase) | GReturn | GRaise.

(** [stat.reply], which may raise after it has counted. *)
Definition stat_reply (now : Z) (key : string) (a : Answer) (c : Client) : res unit * Client :=
  let '(r, s) := reply json_loads json_dumps now key a (stat c) in (r, set_stat s c).

(** [generate_request] of the request generator, then [gen_signed_req]. *)
Definition gen_step (now : Z) (g : GenPhase) (o : Outcome) (c : Client) : option (GenNext * Client) :=
  match g, o with
  | GStart, OData r =>
      if closing c then Some (GReturn, c) else
      match r with
      | Ok (key, label) => Some (GAwait (GGenerating key), set_stat (preparing now key label (stat c)) c)
      | Raise e => if is_no_data e then Some (GReturn, c) else Some (GRaise, stop_loop c)
      end
  | GGenerating key, OText r =>
      match r with
      | Ok _ => Some (GAwait (GAccepting key), set_stat (prepared now key (stat c)) c)
      | Raise e =>
          match stat_reply now key (AExn e) c with
          | (Ok _, c') => if is_no_data e then Some (GReturn, c') else Some (GRaise, stop_loop c')
          | (Raise _, c') => Some (GRaise, stop_loop c')
          end
      end
  | GAccepting key, OText r =>
      match r with
      | Ok _ => Some (GAwait (GSigning key), c)
      | Raise e => if is_no_data e then Some (GReturn, c) else Some (GRaise, stop_loop c)
      end
  | GSigning key, OText r =>
      match r with
      | Ok sig_req =>
          if str_truth sig_req
          then Some (GAwait GNotify, set_reqs (load_client_reqs c ++ [(key, sig_req)]) (set_stat (signed now key (stat c)) c))
          else Some (GAwait GNotify, c)
      | Raise e =>
          match stat_reply now key (AExn e) c with
          | (Ok _, c') => Some (GRaise, stop_loop c')
          | (Raise _, c') => Some (GRaise, c')
          end
      end
  | GNotify, ODone r => Some (match r with Ok _ => GReturn | Raise _ => GRaise end, c)
  | _, _ => None
  end.

(** [run_test] after the last round of [pregen_reqs]. *)
Definition pregen_next (id rounds : nat) (c : Client) : Client :=
  match rounds with
  | O => pipe_send ClientReady (end_task id c)
  | S n => set_task id (TPregen n GStart) c
  end.

Definition end_gen (id : nat) (c : Client) : Client := call_soon (CbCheckBatch id) (end_task id c).
Definition end_sub (id : nat) (c : Client) : Client := call_soon (CbDoneSubmit id) (end_task id c).

Definition sub_step (id : nat) (now : Z) (s : SubPhase) (o : Outcome) (c : Client) : option Client :=
  match s, o with
  | SStart key req, ODone _ => Some (set_task id (TSub (SSubmitting key)) (set_stat (sent now key req (stat c)) c))
  | SSubmitting key, OAnswer a =>
      match stat_reply now key a c with
      | (Ok _, c') => Some (set_task id (TSub SNotify) c')
      | (Raise _, c') => Some (end_sub id c')
      end
  | SNotify, ODone r =>
      match r with
      | Ok _ => Some (end_sub id (if not_resp then c else gen_reqs c))
      | Raise _ => Some (end_sub id c)
      end
  | _, _ => None
  end.

(** All of the tasks have ended. *)
Definition ended (ids : list nat) (c : Client) : bool :=
  forallb (λ i, match tasks c !! i with None => true | Some _ => false end) ids.

(** [asyncio.gather] of no tasks is not awaited. *)
Definition stop_step (id : nat) (s : StopPhase) (c : Client) : option Client :=
  match s with
  | StStart => Some (set_task id (TStop (StSending (send_q c))) (set_closing c))
  | StSending ids => if ended ids c then Some (set_task id (TStop (StGenerating (gen_q c))) c) else None
  | StGenerating ids => if ended ids c then Some (set_task id (TStop StWallet) c) else None
  | StWallet => Some (set_task id (TStop StPool) c)
  | StPool => Some (end_task id (call_soon CbStopLoop c))
  end.

Definition task_step (id : nat) (now : Z) (o : Outcome) (c : Client) : option Client :=
  match tasks c !! id with
  | Some (TPregen rounds g) =>
      match gen_step now g o c with
      | Some (GAwait g', c') => Some (set_task id (TPregen rounds g') c')
      | Some (GReturn, c') => Some (pregen_next id rounds c')
      | Some (GRaise, c') => Some (end_task id c')
      | None => None
      end
  | Some (TGen g) =>
      match gen_step now g o c with
      | Some (GAwait g', c') => Some (set_task id (TGen g') c')
      | Some (_, c') => Some (end_gen id c')
      | None => None
      end
  | Some (TSub s) => sub_step id now s o c
  | Some (TStop s) => stop_step id s c
  | None => None
  end.

(** ** Events *)

Definition run_callback (b : Callback) (c : Client) : Client :=
  match b with
  | CbGenReqs => gen_reqs c
  | CbReqSend => req_send None c
  | CbSendStat => send_stat c
  | CbCheckBatch id => check_batch_avail id c
  | CbDoneSubmit id => done_submit id c
  | CbStopLoop => stop_loop c
  end.

(** [None]: the event cannot happen now. *)
Definition handle (e : Event) (c : Client) : option Client :=
  match e with
  | EPipe m => Some (read_cb m c)
  | ESoon => match soon c with b :: l => Some (run_callback b (set_soon l c)) | [] => None end
  | ETimer i => match later c !! i with
                | Some b => Some (run_callback b (set_later (delete i (later c)) c))
                | None => None
                end
  | ETask id now o => task_step id now o c
  end.

(** The client when the pool is open, before [pregen_reqs]. *)
Definition start (short : bool) : Client :=
  let c := mkClient (new_ClientStatistic short) false [] [] [] ∅ 0 [] [] false [] in
  match not_resp, buff_reqs with
  | true, S n => create_task (TPregen n GStart) c
  | _, _ => pipe_send ClientReady c
  end.

Fixpoint run (es : list Event) (c : Client) : option Client :=
  match es with
  | [] => Some c
  | e :: es' => match handle e c with Some c' => run es' c' | None => None end
  end.
End Client.

(** ** Lemmas: tasks *)

Definition sum_tasks (f : Task → nat) (m : gmap nat Task) : nat := map_fold (λ _ t n, f t + n) 0 m.

Lemma sum_insert f m i t : m !! i = None → sum_tasks f (<[i := t]> m) = f t + sum_tasks f m.
Proof. intros H. unfold sum_tasks. rewrite map_fold_insert_L; [done| |done]. intros. lia. Qed.

Lemma sum_delete f m i t : m !! i = Some t → sum_tasks f m = f t + sum_tasks f (delete i m).
Proof. intros H. unfold sum_tasks. rewrite (map_fold_delete_L _ _ i t m); [done| |done]. intros. lia. Qed.

Lemma sum_update f m i t0 t : m !! i = Some t0 → sum_tasks f (<[i := t]> m) + f t0 = f t + sum_tasks f m.
Proof.
  intros H. rewrite (sum_delete f m i t0) by done. rewrite <-insert_delete_eq, sum_insert by apply lookup_delete_eq. lia.
Qed.

Lemma sum_zero f m : (∀ i t, m !! i = Some t → f t = 0) → sum_tasks f m = 0.
Proof.
  induction m as [|i t m Hi IH] using map_ind; intros H; [done|]. rewrite sum_insert by done.
  rewrite (H i t), IH; [done| |by rewrite lookup_insert_eq].
  intros j u Hj. apply (H j u). rewrite lookup_insert_ne; [done|]. intros <-. congruence.
Qed.

(** Tasks that weigh at most one and are all in a list. *)
Lemma sum_le_length f l : ∀ m,
  (∀ i t, m !! i = Some t → f t ≤ 1 ∧ (f t ≠ 0 → i ∈ l)) → sum_tasks f m ≤ length l.
Proof.
  induction l as [|x l IH]; intros m H.
  - rewrite sum_zero; [done|]. intros i t Hi. destruct (H i t Hi) as [_ H2].
    destruct (f t); [done|]. by destruct (not_elem_of_nil i (H2 ltac:(done))).
  - assert (sum_tasks f (delete x m) ≤ length l) as Hd.
    { apply IH. intros i t [Hne Hi]%lookup_delete_Some. destruct (H i t Hi) as [H1 H2]. split; [done|].
      intros Hf. by destruct (proj1 (elem_of_cons _ _ _) (H2 Hf)) as [->|?]. }
    destruct (m !! x) as [t|] eqn:E; cbn [length].
    + rewrite (sum_delete f m x t) by done. destruct (H x t E). lia.
    + rewrite delete_id in Hd by done. lia.
Qed.

Lemma remove_id_other x y l : x ≠ y → x ∈ l → x ∈ remove_id y l.
Proof.
  intros Hne. induction l as [|z l IH]; cbn; [done|]. intros [->|Hx]%elem_of_cons.
  - destruct (Nat.eqb_spec y z); [by subst|apply list_elem_of_here].
  - destruct (Nat.eqb y z); [done|]. apply list_elem_of_further; auto.
Qed.

(** What a task may still add to the signed requests, by itself or as [pregen_reqs]. *)
Definition unsigned (g : GenPhase) : nat := match g with GNotify => 0 | _ => 1 end.

Definition w_gen (t : Task) : nat := match t with TGen g => unsigned g | _ => 0 end.
Definition w_pregen (t : Task) : nat := match t with TPregen rounds g => rounds + unsigned g | _ => 0 end.
Definition w_start (t : Task) : nat := match t with TSub (SStart _ _) => 1 | _ => 0 end.
Definition w_flight (t : Task) : nat := match t with TSub (SSubmitting _) => 1 | _ => 0 end.
Definition w_sub (t : Task) : nat := match t with TSub _ => 1 | _ => 0 end.

Definition answered (s : ClientStatistic) : Z := req_succ s + req_fail s + req_nack s + req_rejc s.

Lemma reply_counts json_loads json_dumps now key a s :
  let s' := (reply json_loads json_dumps now key a s).2 in
  req_prep s' = req_prep s ∧ req_sent s' = req_sent s ∧ answered s' = (answered s + 1)%Z.
Proof.
  unfold reply, answered, act_bind, modify, lift, ret. destruct (parsed json_loads a) as [t|v|e]; try (cbn; lia).
  destruct v as [| | | | |d]; try (cbn; lia). destruct (dhas "op" d); [|cbn; lia].
  destruct (py_eq (vget "op" d) _); [cbn; lia|]. destruct (py_eq (vget "op" d) _); [cbn; lia|].
  destruct (py_eq (vget "op" d) _); [|cbn; lia]. destruct (server_time d); cbn; lia.
Qed.

(** ** Lemmas: the shape of a state *)

Section Invariant.
Context (json_loads : string → res val) (json_dumps : val → string).
Context (mode : SendMode) (buff_reqs batch_size : nat).
Implicit Types c : Client.

(** A callback of a task comes after the end of the task. *)
Definition cb_ok (c : Client) (b : Callback) : Prop :=
  match b with
  | CbCheckBatch i | CbDoneSubmit i => tasks c !! i = None ∧ i < next_id c
  | CbGenReqs => mode ≠ SendResp
  | _ => True
  end.

Definition no_sub (c : Client) : Prop := ∀ i s, tasks c !! i ≠ Some (TSub s).
Definition no_gen (c : Client) : Prop := ∀ i g, tasks c !! i ≠ Some (TGen g).

(** What a stop has waited for, and what it waits for. *)
Definition stop_ok (s : StopPhase) (c : Client) : Prop :=
  match s with
  | StStart => True
  | StSending ids => closing c = true ∧ ∀ j s', tasks c !! j = Some (TSub s') → j ∈ ids
  | StGenerating ids => closing c = true ∧ no_sub c ∧ ∀ j g, tasks c !! j = Some (TGen g) → j ∈ ids
  | StWallet | StPool => closing c = true ∧ no_sub c ∧ no_gen c
  end.

Record Shape (c : Client) : Prop := {
  sh_ids i t : tasks c !! i = Some t → i < next_id c;
  sh_gens i g : tasks c !! i = Some (TGen g) → i ∈ gen_q c;
  sh_subs i s : tasks c !! i = Some (TSub s) → i ∈ send_q c;
  sh_soon : Forall (cb_ok c) (soon c);
  sh_later : Forall (cb_ok c) (later c);
  sh_stop i s : tasks c !! i = Some (TStop s) → stop_ok s c
}.

(** The queues, the callbacks or the statistics change, the tasks do not. *)
Lemma shape_quiet c c' :
  tasks c' = tasks c → next_id c' = next_id c → closing c' = closing c →
  (∀ i, is_Some (tasks c !! i) → i ∈ gen_q c → i ∈ gen_q c') →
  (∀ i, is_Some (tasks c !! i) → i ∈ send_q c → i ∈ send_q c') →
  Forall (cb_ok c) (soon c') → Forall (cb_ok c) (later c') → Shape c → Shape c'.
Proof.
  intros Ht Hn Hc Hg Hs Hso Hla [H1 H2 H3 H4 H5 H6].
  assert (∀ b, cb_ok c b → cb_ok c' b) as Hcb by (intros []; cbn; by rewrite ?Ht, ?Hn).
  assert (∀ s, stop_ok s c → stop_ok s c') as Hst by (intros []; cbn; unfold no_sub, no_gen; by rewrite ?Ht, ?Hc).
  split; rewrite ?Ht, ?Hn; eauto using Forall_impl.
Qed.

Lemma shape_stat s c : Shape c → Shape (set_stat s c).
Proof. intros H. apply (shape_quiet c); try done; apply H. Qed.

Lemma shape_reqs l c : Shape c → Shape (set_reqs l c).
Proof. intros H. apply (shape_quiet c); try done; apply H. Qed.

Lemma shape_out m c : Shape c → Shape (pipe_send m c).
Proof. intros H. apply (shape_quiet c); try done; apply H. Qed.

Lemma shape_stop_loop c : Shape c → Shape (stop_loop c).
Proof. intros H. apply (shape_quiet c); try done; apply H. Qed.

Lemma shape_call b c : cb_ok c b → Shape c → Shape (call_soon b c).
Proof.
  intros Hb H. apply (shape_quiet c); try done; cbn; [|apply H]. apply Forall_app. split; [apply H|by constructor].
Qed.

(** A task goes on, as a task of its kind. *)
Definition same_kind (t t' : Task) : Prop :=
  match t, t' with
  | TPregen _ _, TPregen _ _ | TGen _, TGen _ | TSub _, TSub _ | TStop _, TStop _ => True
  | _, _ => False
  end.

Lemma shape_update i t t' c :
  tasks c !! i = Some t → same_kind t t' → (∀ s, t' = TStop s → stop_ok s c) → Shape c → Shape (set_task i t' c).
Proof.
  intros Hi Hk Hs [H1 H2 H3 H4 H5 H6].
  assert (∀ j t0, <[i := t']> (tasks c) !! j = Some t0 → ∃ t1, tasks c !! j = Some t1 ∧ same_kind t1 t0) as Hold.
  { intros j t0 [[<- <-]|[Hne Hj]]%lookup_insert_Some; [by exists t|exists t0]. split; [done|by destruct t0]. }
  assert (∀ b, cb_ok c b → cb_ok (set_task i t' c) b) as Hcb.
  { intros [| | |j|j|]; cbn; try done; intros [Hj ?]; (split; [|done]); rewrite lookup_insert_ne; congruence. }
  assert (∀ s, stop_ok s c → stop_ok s (set_task i t' c)) as Hst.
  { intros []; cbn; unfold no_sub, no_gen; cbn; try done.
    - intros [? Hs']. split; [done|]. intros j s' (t1 & Hj & Hk')%Hold. destruct t1; try done. eauto.
    - intros (? & Hs' & Hg'). split; [done|]. split.
      + intros j s' (t1 & Hj & Hk')%Hold. destruct t1; try done. by apply Hs' in Hj.
      + intros j g (t1 & Hj & Hk')%Hold. destruct t1; try done. eauto.
    - intros (? & Hs' & Hg'). split; [done|]. split; intros j s' (t1 & Hj & Hk')%Hold; destruct t1; try done;
        [by apply Hs' in Hj|by apply Hg' in Hj].
    - intros (? & Hs' & Hg'). split; [done|]. split; intros j s' (t1 & Hj & Hk')%Hold; destruct t1; try done;
        [by apply Hs' in Hj|by apply Hg' in Hj]. }
  split; cbn; eauto using Forall_impl.
  - intros j t0 (t1 & Hj & _)%Hold. eauto.
  - intros j g (t1 & Hj & Hk')%Hold. destruct t1; try done. eauto.
  - intros j s (t1 & Hj & Hk')%Hold. destruct t1; try done. eauto.
  - intros j s [[<- ->]|[Hne Hj]]%lookup_insert_Some; eauto.
Qed.

Lemma shape_end i c : Shape c → Shape (end_task i c).
Proof.
  intros [H1 H2 H3 H4 H5 H6].
  assert (∀ j t0, delete i (tasks c) !! j = Some t0 → tasks c !! j = Some t0) as Hold by (by intros j t0 [_ ?]%lookup_delete_Some).
  assert (∀ b, cb_ok c b → cb_ok (end_task i c) b) as Hcb.
  { intros [| | |j|j|]; cbn; try done; intros [Hj ?]; (split; [|done]); apply lookup_delete_None; by right. }
  assert (∀ s, stop_ok s c → stop_ok s (end_task i c)) as Hst.
  { intros []; cbn; unfold no_sub, no_gen; cbn; try done; intros H; destruct_and?; repeat split; eauto; intros j x Hj%Hold; firstorder. }
  split; cbn; eauto using Forall_impl.
Qed.

(** A new task; requests are made and sent only before a stop. *)
Definition new_ok (t : Task) (c c' : Client) : Prop :=
  match t with
  | TStop s => s = StStart
  | TGen _ => closing c = false ∧ next_id c ∈ gen_q c'
  | TSub _ => closing c = false ∧ next_id c ∈ send_q c'
  | TPregen _ _ => True
  end.

Lemma shape_new t c c' :
  tasks c' = <[next_id c := t]> (tasks c) → next_id c' = S (next_id c) → closing c' = closing c →
  gen_q c ⊆ gen_q c' → send_q c ⊆ send_q c' → soon c' = soon c → later c' = later c →
  new_ok t c c' → Shape c → Shape c'.
Proof.
  intros Ht Hn Hc Hg Hs Hso Hla Hnew [H1 H2 H3 H4 H5 H6].
  assert (∀ b, cb_ok c b → cb_ok c' b) as Hcb.
  { intros [| | |j|j|]; cbn; try done; rewrite Ht, Hn; intros [Hj ?]; (split; [rewrite lookup_insert_ne; [done|lia]|lia]). }
  assert (∀ j t0, tasks c' !! j = Some t0 → (j = next_id c ∧ t0 = t) ∨ tasks c !! j = Some t0) as Hold.
  { rewrite Ht. intros j t0 [[<- <-]|[_ Hj]]%lookup_insert_Some; auto. }
  split.
  - intros i t0 [[-> ->]|Hi]%Hold; rewrite Hn; [lia|]. apply H1 in Hi. lia.
  - intros i g [[-> Hi]|Hi]%Hold; [subst t; by apply Hnew|]. apply Hg. eauto.
  - intros i s [[-> Hi]|Hi]%Hold; [subst t; by apply Hnew|]. apply Hs. eauto.
  - rewrite Hso. eauto using Forall_impl.
  - rewrite Hla. eauto using Forall_impl.
  - intros i s [[-> Hi]|Hi]%Hold; [subst t; cbn in Hnew; by subst|]. specialize (H6 i s Hi).
    destruct s; cbn in *; unfold no_sub, no_gen in *; rewrite ?Hc; try done; destruct H6 as [Hcl H6]; (split; [done|]);
      [intros j s' [[-> Hj]|Hj]%Hold; [subst t; destruct Hnew; congruence|eauto]|..]; destruct H6 as [H6 H7]; split;
      intros j x; try (intros Hj; apply Hold in Hj as [[-> Hj]|Hj]); try (subst t; destruct Hnew; congruence); eauto;
      try (by apply H6 in Hj); by apply H7 in Hj.
Qed.

(** *** The operations keep the shape *)

Lemma shape_gen_reqs c : Shape c → Shape (gen_reqs mode buff_reqs c).
Proof.
  intros H. unfold gen_reqs. destruct (closing c) eqn:Hc; [done|]. case_match; [done|].
  apply (shape_new (TGen GStart) c); try done; cbn; [set_solver|]. split; [done|]. set_solver.
Qed.

Lemma shape_watch c : mode ≠ SendResp → Shape c → Shape (watch_queues buff_reqs c).
Proof. intros Hm H. unfold watch_queues. case_match; [by apply shape_call|done]. Qed.

Lemma not_resp_spec : not_resp mode = true ↔ mode ≠ SendResp.
Proof. unfold not_resp. by rewrite negb_true_iff, bool_decide_eq_false. Qed.

Lemma send_one_closing c : closing (send_one c) = closing c.
Proof. unfold send_one. by destruct (last _) as [[]|]. Qed.

Lemma shape_send_one c : closing c = false → Shape c → Shape (send_one c).
Proof.
  intros Hc H. unfold send_one. destruct (last _) as [[key req]|]; [|done].
  apply (shape_new (TSub (SStart key req)) c); try done; cbn; [set_solver|]. split; [done|]. set_solver.
Qed.

Lemma shape_repeat_send n c : closing c = false → Shape c → Shape (repeat_send n c).
Proof.
  revert c. induction n as [|n IH]; intros c Hc H; cbn; [done|].
  apply IH; [by rewrite send_one_closing|by apply shape_send_one].
Qed.

Lemma shape_timer c : Shape c → Shape (set_later (later c ++ [CbReqSend]) c).
Proof.
  intros H. apply (shape_quiet c); try done; cbn; [apply H|]. apply Forall_app. split; [apply H|by repeat constructor].
Qed.

Lemma shape_req_send cnt c : Shape c → Shape (req_send mode batch_size cnt c).
Proof.
  intros H. unfold req_send. destruct (closing c) eqn:Hc; [done|]. cbv zeta.
  apply shape_repeat_send; destruct mode; try done. by apply shape_timer.
Qed.

Lemma shape_check_batch i c :
  tasks c !! i = None → Shape c → Shape (check_batch_avail mode buff_reqs batch_size i c).
Proof.
  intros Hi H. unfold check_batch_avail. cbv zeta.
  assert (Shape (set_gen_q (remove_id i (gen_q c)) c)) as Hq.
  { apply (shape_quiet c); try done; [|apply H..]. intros j [t Hj] Hin. apply remove_id_other; congruence. }
  destruct (not_resp mode) eqn:E; [by apply shape_watch; [by apply not_resp_spec|]|by apply shape_req_send].
Qed.

Lemma shape_done_submit i c : tasks c !! i = None → Shape c → Shape (done_submit mode buff_reqs i c).
Proof.
  intros Hi H. unfold done_submit. cbv zeta.
  assert (Shape (set_send_q (remove_id i (send_q c)) c)) as Hq.
  { apply (shape_quiet c); try done; [|apply H..]. intros j [t Hj] Hin. apply remove_id_other; congruence. }
  destruct (not_resp mode) eqn:E; [by apply shape_watch; [by apply not_resp_spec|]|done].
Qed.

Lemma shape_send_stat c : Shape c → Shape (send_stat c).
Proof. intros H. unfold send_stat. destruct (dump_stat false (stat c)). by apply shape_out, shape_stat. Qed.

Lemma shape_read_cb m c : Shape c → Shape (read_cb mode buff_reqs batch_size m c).
Proof.
  intros H. destruct m as [| | |cnt|]; cbn.
  - destruct (closing c); [done|]. by apply (shape_new (TStop StStart) c).
  - unfold on_ClientRun. pose proof (shape_gen_reqs c H) as Hg. destruct mode; [exact Hg|by apply shape_call|exact Hg].
  - by apply shape_call.
  - unfold on_ClientSend. destruct mode eqn:E; try done. rewrite <-E. by apply shape_req_send.
  - by apply (shape_new (TStop StStart) c).
Qed.

(** Everything but the statistics, the signed requests and the outside is the same. *)
Definition quiet (c c' : Client) : Prop :=
  tasks c' = tasks c ∧ next_id c' = next_id c ∧ closing c' = closing c ∧ gen_q c' = gen_q c ∧
  send_q c' = send_q c ∧ soon c' = soon c ∧ later c' = later c.

Lemma quiet_shape c c' : quiet c c' → Shape c → Shape c'.
Proof.
  intros (H1 & H2 & H3 & H4 & H5 & H6 & H7) H. apply (shape_quiet c); rewrite ?H4, ?H5, ?H6, ?H7; try done; apply H.
Qed.

Lemma stat_reply_quiet now key a c : quiet c (stat_reply json_loads json_dumps now key a c).2.
Proof. unfold stat_reply. by destruct (reply _ _ _ _ _ _). Qed.

Lemma gen_step_quiet now g o c n c' :
  gen_step json_loads json_dumps now g o c = Some (n, c') → quiet c c'.
Proof.
  unfold gen_step. intros H. destruct g as [|key|key|key|], o as [r|r|a|r]; try done.
  - destruct (closing c); [by simplify_eq|]. destruct r as [[key label]|e]; [by simplify_eq|].
    destruct (is_no_data e); by simplify_eq.
  - destruct r as [s|e]; [by simplify_eq|]. pose proof (stat_reply_quiet now key (AExn e) c) as Hq.
    destruct (stat_reply _ _ _ _ _ _) as [[]c1]; cbn in Hq; [destruct (is_no_data e)|]; by simplify_eq.
  - destruct r as [s|e]; [by simplify_eq|]. destruct (is_no_data e); by simplify_eq.
  - destruct r as [s|e]; [destruct (str_truth s); by simplify_eq|].
    pose proof (stat_reply_quiet now key (AExn e) c) as Hq.
    destruct (stat_reply _ _ _ _ _ _) as [[]c1]; cbn in Hq; by simplify_eq.
  - by simplify_eq.
Qed.

Lemma shape_end_call i b c :
  (b = CbCheckBatch i ∨ b = CbDoneSubmit i) → is_Some (tasks c !! i) → Shape c → Shape (call_soon b (end_task i c)).
Proof.
  intros Hb [t Hi] H. apply shape_call; [|by apply shape_end].
  assert (tasks (end_task i c) !! i = None ∧ i < next_id (end_task i c)) as Hd.
  { split; [apply lookup_delete_eq|]. by eapply H. }
  by destruct Hb as [-> | ->].
Qed.

Lemma shape_sub_step i now s o c c' :
  tasks c !! i = Some (TSub s) → sub_step json_loads json_dumps mode buff_reqs i now s o c = Some c' → Shape c → Shape c'.
Proof.
  intros Hi Hs H. unfold sub_step in Hs. destruct s as [key req|key|], o as [r|r|a|r]; try done.
  - simplify_eq. by eapply shape_update; [exact Hi|done|done|apply shape_stat].
  - pose proof (stat_reply_quiet now key a c) as Hq. destruct (stat_reply _ _ _ _ _ _) as [[]c1]; cbn in Hq; simplify_eq.
    + eapply shape_update; [rewrite (proj1 Hq); exact Hi|done|done|by eapply quiet_shape].
    + apply shape_end_call; [by right|rewrite (proj1 Hq); by eexists|by eapply quiet_shape].
  - destruct r; simplify_eq; [|by apply shape_end_call; [right|eexists|]].
    destruct (not_resp mode); [by apply shape_end_call; [right|eexists|]|].
    apply shape_end_call; [by right| |by apply shape_gen_reqs]. unfold gen_reqs.
    destruct (closing c); [by eexists|]. case_match; [by eexists|]. cbn.
    rewrite lookup_insert_ne; [by eexists|]. pose proof (sh_ids c H i _ Hi). lia.
Qed.

Lemma ended_spec ids c i t : ended ids c = true → tasks c !! i = Some t → i ∉ ids.
Proof.
  unfold ended. rewrite forallb_forall. intros H Hi Hin%list_elem_of_In. specialize (H i Hin). by rewrite Hi in H.
Qed.

Lemma shape_stop_step i s c c' :
  tasks c !! i = Some (TStop s) → stop_step i s c = Some c' → Shape c → Shape c'.
Proof.
  intros Hi Hs H. pose proof (sh_stop c H i s Hi) as Hok. unfold stop_step in Hs. destruct s as [|ids|ids| |]; cbn in Hok.
  - simplify_eq. assert (Shape (set_closing c)) as Hc.
    { destruct H as [H1 H2 H3 H4 H5 H6]. split; try done.
      intros j s Hj. specialize (H6 j s Hj). destruct s; cbn in *; firstorder. }
    eapply shape_update; [exact Hi|done| |done]. intros s [= <-]. cbn. split; [done|]. apply H.
  - destruct (ended ids c) eqn:He; [|done]. simplify_eq. eapply shape_update; [exact Hi|done| |done].
    intros s [= <-]. cbn. destruct Hok as [Hc Hok]. split; [done|]. split; [|apply H].
    intros j s Hj. by apply (ended_spec _ _ _ _ He Hj), (Hok j s).
  - destruct (ended ids c) eqn:He; [|done]. simplify_eq. eapply shape_update; [exact Hi|done| |done].
    intros s [= <-]. cbn. destruct Hok as (Hc & Hns & Hok). split; [done|]. split; [done|].
    intros j g Hj. by apply (ended_spec _ _ _ _ He Hj), (Hok j g).
  - simplify_eq. eapply shape_update; [exact Hi|done| |done]. by intros s [= <-].
  - simplify_eq. by apply shape_end, shape_call.
Qed.

Lemma shape_task_step i now o c c' :
  task_step json_loads json_dumps mode buff_reqs i now o c = Some c' → Shape c → Shape c'.
Proof.
  unfold task_step. intros Hs H. destruct (tasks c !! i) as [[rounds g|g|s|s]|] eqn:Hi; [| | | |done].
  - destruct (gen_step _ _ _ _ _ _) as [[n c1]|] eqn:Hg; [|done]. pose proof (gen_step_quiet _ _ _ _ _ _ Hg) as Hq.
    assert (Shape c1) by (by eapply quiet_shape). assert (tasks c1 !! i = Some (TPregen rounds g)) by (by rewrite (proj1 Hq)).
    destruct n; simplify_eq; [by eapply shape_update| |by apply shape_end].
    unfold pregen_next. destruct rounds; [by apply shape_out, shape_end|by eapply shape_update].
  - destruct (gen_step _ _ _ _ _ _) as [[n c1]|] eqn:Hg; [|done]. pose proof (gen_step_quiet _ _ _ _ _ _ Hg) as Hq.
    assert (Shape c1) by (by eapply quiet_shape). assert (tasks c1 !! i = Some (TGen g)) by (by rewrite (proj1 Hq)).
    destruct n; simplify_eq; [by eapply shape_update| |]; (apply shape_end_call; [by left|by eexists|done]).
  - by eapply shape_sub_step.
  - by eapply shape_stop_step.
Qed.

Lemma shape_callback b c : cb_ok c b → Shape c → Shape (run_callback mode buff_reqs batch_size b c).
Proof.
  intros Hb H. destruct b; cbn in *;
    [by apply shape_gen_reqs|by apply shape_req_send|by apply shape_send_stat|
     apply shape_check_batch; [apply Hb|done]|apply shape_done_submit; [apply Hb|done]|by apply shape_stop_loop].
Qed.

Lemma shape_handle e c c' :
  handle json_loads json_dumps mode buff_reqs batch_size e c = Some c' → Shape c → Shape c'.
Proof.
  intros Hh H. destruct e as [m| |i|i now o]; cbn in Hh.
  - simplify_eq. by apply shape_read_cb.
  - destruct (soon c) as [|b l] eqn:E; [done|]. simplify_eq.
    pose proof (sh_soon c H) as Hs. rewrite E in Hs. apply Forall_cons in Hs as [Hb Hl].
    apply shape_callback; [by destruct b|]. apply (shape_quiet c); try done. apply H.
  - destruct (later c !! i) as [b|] eqn:E; [|done]. simplify_eq. pose proof (sh_later c H) as Hl.
    apply shape_callback; [|apply (shape_quiet c); try done; [apply H|by apply Forall_delete]].
    pose proof (proj1 (Forall_lookup _ _) Hl i b E) as Hb. by destruct b.
  - by eapply shape_task_step.
Qed.

Lemma shape_start short : Shape (start mode buff_reqs short).
Proof.
  assert (Shape (mkClient (new_ClientStatistic short) false [] [] [] ∅ 0 [] [] false [])) as H.
  { split; cbn; try done; intros i x Hx; by rewrite lookup_empty in Hx. }
  unfold start. destruct (not_resp mode), buff_reqs; try by apply shape_out.
  eapply (shape_new (TPregen n GStart)); [..|exact H]; done.
Qed.

(** ** Lemmas: the counts *)

(** What the code counts and what is in the queues, with [f] failures of the request
    generator or the wallet and [r] messages [ClientRun]. *)
Record Counts (f r : nat) (c : Client) : Prop := {
  ct_prep : req_prep (stat c) = (Z.of_nat (length (load_client_reqs c)) + Z.of_nat (sum_tasks w_start (tasks c)) + req_sent (stat c))%Z;
  ct_answered : (answered (stat c) + Z.of_nat (sum_tasks w_flight (tasks c)) = req_sent (stat c) + Z.of_nat f)%Z;
  ct_pregen : sum_tasks w_pregen (tasks c) ≤ if not_resp mode then buff_reqs else 0;
  ct_room : not_resp mode = true →
    length (load_client_reqs c) + sum_tasks w_gen (tasks c) + sum_tasks w_pregen (tasks c) ≤ 2 * buff_reqs + 2;
  ct_resp : not_resp mode = false →
    length (load_client_reqs c) + sum_tasks w_gen (tasks c) + sum_tasks w_sub (tasks c) ≤ r
}.

(** The tasks and the lengths are the same, the statistics count the same. *)
Lemma counts_quiet f r c c' :
  tasks c' = tasks c → load_client_reqs c' = load_client_reqs c →
  req_prep (stat c') = req_prep (stat c) → req_sent (stat c') = req_sent (stat c) → answered (stat c') = answered (stat c) →
  Counts f r c → Counts f r c'.
Proof. intros H1 H2 H3 H4 H5 [A B C D E]. split; rewrite ?H1, ?H2, ?H3, ?H4, ?H5; done. Qed.

Lemma sums_insert m i t : m !! i = None →
  sum_tasks w_start (<[i := t]> m) = w_start t + sum_tasks w_start m ∧
  sum_tasks w_flight (<[i := t]> m) = w_flight t + sum_tasks w_flight m ∧
  sum_tasks w_gen (<[i := t]> m) = w_gen t + sum_tasks w_gen m ∧
  sum_tasks w_pregen (<[i := t]> m) = w_pregen t + sum_tasks w_pregen m ∧
  sum_tasks w_sub (<[i := t]> m) = w_sub t + sum_tasks w_sub m.
Proof. intros H. by rewrite !sum_insert. Qed.

Lemma sums_update m i t t' : m !! i = Some t →
  sum_tasks w_start (<[i := t']> m) + w_start t = w_start t' + sum_tasks w_start m ∧
  sum_tasks w_flight (<[i := t']> m) + w_flight t = w_flight t' + sum_tasks w_flight m ∧
  sum_tasks w_gen (<[i := t']> m) + w_gen t = w_gen t' + sum_tasks w_gen m ∧
  sum_tasks w_pregen (<[i := t']> m) + w_pregen t = w_pregen t' + sum_tasks w_pregen m ∧
  sum_tasks w_sub (<[i := t']> m) + w_sub t = w_sub t' + sum_tasks w_sub m.
Proof. intros H. by rewrite !sum_update. Qed.

Lemma sums_delete m i t : m !! i = Some t →
  sum_tasks w_start m = w_start t + sum_tasks w_start (delete i m) ∧
  sum_tasks w_flight m = w_flight t + sum_tasks w_flight (delete i m) ∧
  sum_tasks w_gen m = w_gen t + sum_tasks w_gen (delete i m) ∧
  sum_tasks w_pregen m = w_pregen t + sum_tasks w_pregen (delete i m) ∧
  sum_tasks w_sub m = w_sub t + sum_tasks w_sub (delete i m).
Proof. intros H. by repeat split; apply sum_delete. Qed.

(** [weigh H]: the sums [H] in context, and the counts by arithmetic. *)
Ltac counting :=
  destruct (not_resp mode);
  repeat match goal with H : ?b = ?b → _ |- _ => specialize (H eq_refl) end;
  intros; try discriminate; lia.

Ltac weigh H :=
  pose proof H as (? & ? & ? & ? & ?); cbn [w_start w_flight w_gen w_pregen w_sub unsigned] in *; split;
  cbn [stat load_client_reqs tasks next_id set_gen_q set_send_q set_reqs set_stat set_task end_task create_task call_soon
       set_later stop_loop pipe_send] in *; rewrite ?length_app in *; cbn [length] in *; counting.

Lemma fresh c : Shape c → tasks c !! next_id c = None.
Proof. intros H. destruct (tasks c !! next_id c) as [t|] eqn:E; [|done]. apply H in E. lia. Qed.

Lemma gen_q_bound c : Shape c → sum_tasks w_gen (tasks c) ≤ length (gen_q c).
Proof.
  intros H. apply sum_le_length. intros i t Hi. destruct t as [ro g|g|s|s]; cbn; try (split; [lia|done]).
  split; [destruct g; cbn; lia|]. intros _. by eapply H.
Qed.

Lemma counts_gen_reqs f r c :
  (not_resp mode = false → length (load_client_reqs c) + sum_tasks w_gen (tasks c) + sum_tasks w_sub (tasks c) < r) →
  Shape c → Counts f r c → Counts f r (gen_reqs mode buff_reqs c).
Proof.
  intros Hr Hs [A B C D E]. unfold gen_reqs. destruct (closing c); [done|].
  destruct (not_resp mode && _) eqn:Hroom; [done|].
  assert (not_resp mode = true → length (gen_q c) + length (load_client_reqs c) ≤ buff_reqs + 1) as Hroom'.
  { intros Hm. rewrite Hm in Hroom. apply Nat.ltb_ge in Hroom. unfold max_in_bg in Hroom. lia. }
  clear Hroom. pose proof (gen_q_bound c Hs).
  weigh (sums_insert (tasks c) (next_id c) (TGen GStart) (fresh c Hs)).
Qed.

Lemma counts_more f r r' c : r ≤ r' → Counts f r c → Counts f r' c.
Proof. intros Hr [A B C D E]. split; try done. intros H. specialize (E H). lia. Qed.

Lemma last_length {A} (l : list A) x : last l = Some x → length l = S (length (removelast l)).
Proof.
  intros H. assert (l = removelast l ++ [x]) as ->.
  { induction l as [|y l IH]; [done|]. destruct l as [|z l]; [cbn in *; congruence|].
    change (y :: z :: l = y :: (removelast (z :: l) ++ [x])). f_equal. by apply IH. }
  rewrite removelast_last, length_app. cbn. lia.
Qed.

Lemma counts_send_one f r c : Shape c → Counts f r c → Counts f r (send_one c).
Proof.
  intros Hs [A B C D E]. unfold send_one. destruct (last _) as [[key req]|] eqn:Hl; [|done].
  apply last_length in Hl. weigh (sums_insert (tasks c) (next_id c) (TSub (SStart key req)) (fresh c Hs)).
Qed.

Lemma counts_repeat_send f r n c : closing c = false → Shape c → Counts f r c → Counts f r (repeat_send n c).
Proof.
  revert c. induction n as [|n IH]; intros c Hc Hs H; cbn; [done|].
  apply IH; [by rewrite send_one_closing|by apply shape_send_one|by apply counts_send_one].
Qed.

Lemma counts_req_send f r cnt c : Shape c → Counts f r c → Counts f r (req_send mode batch_size cnt c).
Proof.
  intros Hs H. unfold req_send. destruct (closing c) eqn:Hc; [done|]. cbv zeta.
  assert (Counts f r (set_later (later c ++ [CbReqSend]) c)) by by apply (counts_quiet f r c).
  pose proof (shape_timer c Hs). destruct mode; by apply counts_repeat_send.
Qed.

Lemma counts_watch f r c : Counts f r c → Counts f r (watch_queues buff_reqs c).
Proof. intros H. unfold watch_queues. case_match; [by apply (counts_quiet f r c)|done]. Qed.

Lemma counts_callback f r b c :
  cb_ok c b → Shape c → Counts f r c → Counts f r (run_callback mode buff_reqs batch_size b c).
Proof.
  intros Hb Hs H. destruct b as [| | |i|i|]; cbn [run_callback].
  - apply counts_gen_reqs; [|done..]. unfold not_resp. intros Hm%negb_false_iff%bool_decide_eq_true. by cbn in Hb.
  - by apply counts_req_send.
  - unfold send_stat. destruct (dump_stat false (stat c)) as [d s] eqn:E. unfold dump_stat in E. simplify_eq.
    by apply (counts_quiet f r c).
  - unfold check_batch_avail. cbv zeta. assert (Counts f r (set_gen_q (remove_id i (gen_q c)) c)) by by apply (counts_quiet f r c).
    destruct (not_resp mode); [by apply counts_watch|]. apply counts_req_send; [|done].
    apply (shape_quiet c); try done; [|apply Hs..]. destruct Hb as [Hb _]. intros j [t Hj] Hin. apply remove_id_other; congruence.
  - unfold done_submit. cbv zeta. assert (Counts f r (set_send_q (remove_id i (send_q c)) c)) by by apply (counts_quiet f r c).
    destruct (not_resp mode); [by apply counts_watch|done].
  - by apply (counts_quiet f r c).
Qed.

(** [ClientRun] starts one more chain of requests, where responses are waited for. *)
Definition client_run (e : Event) : nat := match e with EPipe ClientRun => 1 | _ => 0 end.

Lemma counts_read_cb f r m c :
  Shape c → Counts f r c → Counts f (r + client_run (EPipe m)) (read_cb mode buff_reqs batch_size m c).
Proof.
  intros Hs H. assert (∀ c', c' = create_task (TStop StStart) c → Counts f (r + client_run (EPipe m)) c') as Hstop.
  { intros c' ->. apply (counts_more f r); [lia|]. destruct H as [A B C D E].
    weigh (sums_insert (tasks c) (next_id c) (TStop StStart) (fresh c Hs)). }
  destruct m as [| | |cnt|]; cbn [read_cb client_run].
  - destruct (closing c); [by rewrite Nat.add_0_r|]. by apply Hstop.
  - assert (Counts f (r + 1) (gen_reqs mode buff_reqs c)) as Hg.
    { apply counts_gen_reqs; [|done|by apply (counts_more f r); [lia|]]. intros Hm. pose proof (ct_resp f r c H Hm). lia. }
    unfold on_ClientRun. destruct mode; try exact Hg. eapply counts_quiet; [..|exact Hg]; done.
  - rewrite Nat.add_0_r. by apply (counts_quiet f r c).
  - rewrite Nat.add_0_r. unfold on_ClientSend. pose proof (counts_req_send f r (Some cnt) c Hs H). by destruct mode.
  - by apply Hstop.
Qed.

(** A failure that is counted as an answer, though nothing was sent. *)
Definition gen_failed (g : GenPhase) (o : Outcome) : nat :=
  match g, o with
  | GGenerating _, OText (Raise _) | GSigning _, OText (Raise _) => 1
  | _, _ => 0
  end.

Definition unsigned_next (n : GenNext) : nat := match n with GAwait g => unsigned g | _ => 0 end.

Lemma gen_step_counts now g o c n c' :
  gen_step json_loads json_dumps now g o c = Some (n, c') →
  ∃ k : nat, k + unsigned_next n ≤ unsigned g ∧
    length (load_client_reqs c') = length (load_client_reqs c) + k ∧
    req_prep (stat c') = (req_prep (stat c) + Z.of_nat k)%Z ∧ req_sent (stat c') = req_sent (stat c) ∧
    answered (stat c') = (answered (stat c) + Z.of_nat (gen_failed g o))%Z.
Proof.
  unfold gen_step. intros H.
  assert (∀ key a c1 r1, stat_reply json_loads json_dumps now key a c = (r1, c1) →
    load_client_reqs c1 = load_client_reqs c ∧ req_prep (stat c1) = req_prep (stat c) ∧
    req_sent (stat c1) = req_sent (stat c) ∧ answered (stat c1) = (answered (stat c) + 1)%Z) as Hreply.
  { intros key a c1 r1 E. unfold stat_reply in E. pose proof (reply_counts json_loads json_dumps now key a (stat c)) as Hc.
    destruct (reply _ _ _ _ _ _) as [r2 s]. cbn in Hc. by simplify_eq. }
  destruct g as [|key|key|key|], o as [r|r|a|r]; try done.
  - exists 0. destruct (closing c); [simplify_eq; cbn; lia|]. destruct r as [[key label]|e]; [simplify_eq; unfold answered; cbn; lia|].
    destruct (is_no_data e); simplify_eq; unfold answered; cbn; lia.
  - exists 0. destruct r as [s|e]; [simplify_eq; unfold answered; cbn; lia|].
    destruct (stat_reply _ _ _ _ _ _) as [r1 c1] eqn:E. destruct (Hreply _ _ _ _ E) as (Hl & H1 & H2 & H3).
    destruct r1; [destruct (is_no_data e)|]; simplify_eq; cbn [unsigned_next unsigned gen_failed stop_loop stat load_client_reqs];
      rewrite Hl, H1, H2, H3; lia.
  - exists 0. destruct r as [s|e]; [simplify_eq; unfold answered; cbn; lia|]. destruct (is_no_data e); simplify_eq; unfold answered; cbn; lia.
  - destruct r as [s|e].
    + destruct (str_truth s); simplify_eq; [exists 1|exists 0]; unfold answered; cbn; rewrite ?length_app; cbn; lia.
    + exists 0. destruct (stat_reply _ _ _ _ _ _) as [r1 c1] eqn:E. destruct (Hreply _ _ _ _ E) as (Hl & H1 & H2 & H3).
      destruct r1; simplify_eq; cbn [unsigned_next unsigned gen_failed stop_loop stat load_client_reqs]; rewrite Hl, H1, H2, H3; lia.
  - exists 0. simplify_eq. destruct r; unfold answered; cbn; lia.
Qed.

(** A step of a task that makes requests: it goes on as [t'] or ends. *)
Lemma counts_gen f r now g o c n c' i t :
  tasks c !! i = Some t → (t = TGen g ∨ ∃ ro, t = TPregen ro g) →
  gen_step json_loads json_dumps now g o c = Some (n, c') → Counts f r c →
  Counts (f + gen_failed g o) r (end_task i c') ∧
  ∀ t', same_kind t t' → w_gen t' + w_pregen t' + unsigned g ≤ w_gen t + w_pregen t + unsigned_next n →
    Counts (f + gen_failed g o) r (set_task i t' c').
Proof.
  intros Hi Ht Hg [A B C D E]. destruct (gen_step_quiet _ _ _ _ _ _ Hg) as (Htasks & _).
  destruct (gen_step_counts _ _ _ _ _ _ Hg) as (k & Hk & Hl & Hp & Hs & Ha). split.
  - pose proof (sums_delete (tasks c) i t Hi) as (S1 & S2 & S3 & S4 & S5).
    split; cbn [stat load_client_reqs tasks end_task]; rewrite ?Htasks, ?Hl, ?Hp, ?Hs, ?Ha;
      destruct Ht as [->|[ro ->]]; cbn in *; counting.
  - intros t' Hkind Hw. pose proof (sums_update (tasks c) i t t' Hi) as (S1 & S2 & S3 & S4 & S5).
    split; cbn [stat load_client_reqs tasks set_task]; rewrite ?Htasks, ?Hl, ?Hp, ?Hs, ?Ha;
      destruct Ht as [->|[ro ->]]; destruct t'; try done; cbn in *; counting.
Qed.

Lemma sent_counts now key req s :
  req_prep (sent now key req s) = req_prep s ∧ req_sent (sent now key req s) = (req_sent s + 1)%Z ∧
  answered (sent now key req s) = answered s.
Proof. unfold answered. cbn. lia. Qed.

Lemma counts_sub_step f r i now s o c c' :
  tasks c !! i = Some (TSub s) → sub_step json_loads json_dumps mode buff_reqs i now s o c = Some c' →
  Shape c → Counts f r c → Counts f r c'.
Proof.
  intros Hi Hst Hsh H. pose proof H as [A B C D E]. unfold sub_step in Hst. destruct s as [key req|key|], o as [x|x|a|x]; try done.
  - simplify_eq. destruct (sent_counts now key req (stat c)) as (H1 & H2 & H3).
    weigh (sums_update (tasks c) i _ (TSub (SSubmitting key)) Hi).
  - unfold stat_reply in Hst. pose proof (reply_counts json_loads json_dumps now key a (stat c)) as (H1 & H2 & H3).
    destruct (reply _ _ _ _ _ _) as [[]s']; cbn in H1, H2, H3; simplify_eq.
    + weigh (sums_update (tasks c) i _ (TSub SNotify) Hi).
    + unfold end_sub. weigh (sums_delete (tasks c) i _ Hi).
  - assert (Counts f r (end_sub i c)) as Hend by (unfold end_sub; weigh (sums_delete (tasks c) i _ Hi)).
    destruct x; simplify_eq; [|done]. destruct (not_resp mode) eqn:Hm; [done|].
    assert (Counts f (S r) (gen_reqs mode buff_reqs c)) as [A' B' C' D' E'].
    { apply counts_gen_reqs; [|done|by apply (counts_more f r); [lia|]]. intros _. specialize (E eq_refl). lia. }
    assert (tasks (gen_reqs mode buff_reqs c) !! i = Some (TSub SNotify)) as Hi'.
    { unfold gen_reqs. destruct (closing c); [done|]. case_match; [done|]. cbn.
      rewrite lookup_insert_ne; [done|]. pose proof (sh_ids c Hsh i _ Hi). lia. }
    unfold end_sub. specialize (E' Hm). clear Hend Hi E. pose proof (sums_delete _ i _ Hi') as (S1 & S2 & S3 & S4 & S5).
    cbn in S1, S2, S3, S4, S5. split; cbn [stat load_client_reqs tasks end_task call_soon]; rewrite ?Hm in *; try lia; intros; try done; lia.
Qed.

Lemma counts_stop_step f r i s c c' :
  tasks c !! i = Some (TStop s) → stop_step i s c = Some c' → Counts f r c → Counts f r c'.
Proof.
  intros Hi Hst [A B C D E]. unfold stop_step in Hst.
  assert (∀ s', Counts f r (set_task i (TStop s') c)) as Hset by (intros s'; weigh (sums_update (tasks c) i _ (TStop s') Hi)).
  destruct s as [|ids|ids| |].
  - simplify_eq. eapply counts_quiet; [..|apply Hset]; done.
  - destruct (ended ids c); by simplify_eq.
  - destruct (ended ids c); by simplify_eq.
  - by simplify_eq.
  - simplify_eq. weigh (sums_delete (tasks c) i _ Hi).
Qed.

(** Whether the next step of a task is a failure that is counted. *)
Definition task_failed (o : Outcome) (t : option Task) : nat :=
  match t with Some (TPregen _ g) | Some (TGen g) => gen_failed g o | _ => 0 end.

Definition gen_failure (e : Event) (c : Client) : nat :=
  match e with ETask i _ o => task_failed o (tasks c !! i) | _ => 0 end.

Lemma counts_task_step f r i now o c c' :
  task_step json_loads json_dumps mode buff_reqs i now o c = Some c' → Shape c → Counts f r c →
  Counts (f + task_failed o (tasks c !! i)) r c'.
Proof.
  unfold task_step. intros Hs Hsh H. destruct (tasks c !! i) as [[rounds g|g|s|s]|] eqn:Hi; [| | | |done]; cbn [task_failed].
  - destruct (gen_step _ _ _ _ _ _) as [[n c1]|] eqn:Hg; [|done].
    destruct (counts_gen f r now g o c n c1 i _ Hi ltac:(right; by eexists) Hg H) as [Hend Hset].
    destruct n; simplify_eq; [apply Hset; [done|cbn; lia]| |done].
    unfold pregen_next. destruct rounds; [by eapply counts_quiet; [..|exact Hend]|apply Hset; [done|cbn; lia]].
  - destruct (gen_step _ _ _ _ _ _) as [[n c1]|] eqn:Hg; [|done].
    destruct (counts_gen f r now g o c n c1 i _ Hi ltac:(by left) Hg H) as [Hend Hset].
    destruct n; simplify_eq; [apply Hset; [done|cbn; lia]| |]; by eapply counts_quiet; [..|exact Hend].
  - rewrite Nat.add_0_r. by eapply counts_sub_step.
  - rewrite Nat.add_0_r. by eapply counts_stop_step.
Qed.

Lemma counts_handle f r e c c' :
  handle json_loads json_dumps mode buff_reqs batch_size e c = Some c' → Shape c → Counts f r c →
  Counts (f + gen_failure e c) (r + client_run e) c'.
Proof.
  intros Hh Hs H. destruct e as [m| |i|i now o]; cbn [handle gen_failure] in *.
  - simplify_eq. rewrite Nat.add_0_r. by apply counts_read_cb.
  - rewrite !Nat.add_0_r. destruct (soon c) as [|b l] eqn:E; [done|]. simplify_eq.
    pose proof (sh_soon c Hs) as Hso. rewrite E in Hso. apply Forall_cons in Hso as [Hb Hl].
    apply counts_callback; [by destruct b|apply (shape_quiet c); try done; apply Hs|by eapply counts_quiet; [..|exact H]].
  - rewrite !Nat.add_0_r. destruct (later c !! i) as [b|] eqn:E; [|done]. simplify_eq. pose proof (sh_later c Hs) as Hl.
    pose proof (proj1 (Forall_lookup _ _) Hl i b E) as Hb.
    apply counts_callback; [by destruct b|apply (shape_quiet c); try done; [apply Hs|by apply Forall_delete]|by eapply counts_quiet; [..|exact H]].
  - rewrite Nat.add_0_r. by eapply counts_task_step.
Qed.

Lemma counts_start short : Counts 0 0 (start mode buff_reqs short).
Proof.
  unfold start. destruct (not_resp mode) eqn:Hm, buff_reqs as [|n] eqn:Hb;
    (split; cbn [stat load_client_reqs tasks create_task pipe_send new_ClientStatistic req_prep req_sent length]; rewrite ?sum_insert by done;
     unfold sum_tasks; rewrite ?map_fold_empty; rewrite ?Hm; unfold answered; cbn; try done; try lia; intros; try done; lia).
Qed.

(** The states of the loop, with the failures and the [ClientRun] messages so far. *)
Inductive reach : nat → nat → Client → Prop :=
| reach_start short : reach 0 0 (start mode buff_reqs short)
| reach_step f r e c c' :
    reach f r c → handle json_loads json_dumps mode buff_reqs batch_size e c = Some c' →
    reach (f + gen_failure e c) (r + client_run e) c'.

Lemma reach_inv f r c : reach f r c → Shape c ∧ Counts f r c.
Proof.
  induction 1 as [short|f r e c c' _ [Hs Hc] Hh]; [split; [apply shape_start|apply counts_start]|].
  split; [by eapply shape_handle|by apply counts_handle].
Qed.
End Invariant.

(** The state after some events, with the failures and the [ClientRun] messages. *)
Fixpoint run_from json_loads json_dumps mode buff_reqs batch_size (es : list Event) (f r : nat) (c : Client)
    : option (nat * nat * Client) :=
  match es with
  | [] => Some (f, r, c)
  | e :: es' =>
      match handle json_loads json_dumps mode buff_reqs batch_size e c with
      | Some c' => run_from json_loads json_dumps mode buff_reqs batch_size es' (f + gen_failure e c) (r + client_run e) c'
      | None => None
      end
  end.

Lemma reach_run json_loads json_dumps mode buff_reqs batch_size es : ∀ f r c f' r' c',
  reach json_loads json_dumps mode buff_reqs batch_size f r c →
  run_from json_loads json_dumps mode buff_reqs batch_size es f r c = Some (f', r', c') →
  reach json_loads json_dumps mode buff_reqs batch_size f' r' c'.
Proof.
  induction es as [|e es IH]; intros f r c f' r' c' Hr H; cbn in H; [by simplify_eq|].
  destruct (handle _ _ _ _ _ e c) as [c1|] eqn:E; [|done]. eapply IH; [|exact H]. by eapply reach_step.
Qed.

(** Requests that are signed, sent, and under way. *)
Definition being_sent (c : Client) : nat := sum_tasks w_start (tasks c).
Definition in_flight (c : Client) : nat := sum_tasks w_flight (tasks c).
Definition submitting (c : Client) : nat := sum_tasks w_sub (tasks c).

(** A client that prepares a request, sends it in time mode and is told to stop. *)
Definition nack (_ : string) : res val := Ok (VDict [("op", VStr "REQNACK")]).
Definition sample_events : list Event :=
  [ETask 0 1 (OData (Ok ("data", "nym"))); ETask 0 2 (OText (Ok "req")); ETask 0 3 (OText (Ok "req"));
   ETask 0 4 (OText (Ok "signed")); ETask 0 5 (ODone (Ok tt));
   EPipe ClientRun; ESoon; ETask 2 6 (ODone (Ok tt)); EPipe ClientStop; ETask 3 7 (ODone (Ok tt));
   ETask 2 8 (OAnswer (AText "{}")); ETask 2 9 (ODone (Ok tt)); ETask 3 10 (ODone (Ok tt));
   ETask 1 11 (OData (Ok ("data", "nym"))); ETask 3 12 (ODone (Ok tt))].

Definition sample_run : option (nat * nat * Client) :=
  run_from nack py_str SendTime 1 1 sample_events 0 0 (start SendTime 1 false).

Definition sample_state : Client := default (start SendTime 1 false) (snd <$> sample_run).

Lemma sample_reach : reach nack py_str SendTime 1 1 0 1 sample_state.
Proof.
  assert (sample_run = Some (0, 1, sample_state)) as H by (vm_compute; reflexivity).
  eapply reach_run; [apply reach_start|exact H].
Qed.

(** ** Properties *)

(** C27. No request is lost and none is counted twice, in whatever order messages, timers
    and answers come: what was signed is waiting, being sent or sent; what was sent is
    in flight or has been counted as a success, a failure, a refusal or a rejection,
    besides the [f] failures to make a request.  At most [2 * buff_reqs + 2] requests
    wait; a client that waits for responses has no more requests under way than it was
    told to run. *)
Theorem load_client_accounts json_loads json_dumps mode buff_reqs batch_size f r c :
  reach json_loads json_dumps mode buff_reqs batch_size f r c →
  req_prep (stat c) = (Z.of_nat (length (load_client_reqs c)) + Z.of_nat (being_sent c) + req_sent (stat c))%Z ∧
  (answered (stat c) + Z.of_nat (in_flight c) = req_sent (stat c) + Z.of_nat f)%Z ∧
  (mode ≠ SendResp → length (load_client_reqs c) ≤ 2 * buff_reqs + 2) ∧
  (mode = SendResp → length (load_client_reqs c) + submitting c ≤ r).
Proof.
  intros H. destruct (reach_inv _ _ _ _ _ _ _ _ H) as [_ [A B C D E]]. split; [done|]. split; [done|]. split.
  - intros Hm. rewrite not_resp_spec in D. specialize (D Hm). lia.
  - intros Hm. assert (not_resp mode = false) as Hn by (apply not_true_is_false; rewrite not_resp_spec; by intros []).
    specialize (E Hn). unfold submitting. lia.
Qed.

Lemma load_client_accounts_witness :
  (answered (stat sample_state) + Z.of_nat (in_flight sample_state) = req_sent (stat sample_state) + 0)%Z ∧
  req_sent (stat sample_state) = 1%Z.
Proof.
  split; [|vm_compute; reflexivity].
  exact (proj1 (proj2 (load_client_accounts nack py_str SendTime 1 1 0 1 sample_state sample_reach))).
Defined.

(** A stop waits for what is under way: when the wallet is about to be closed, no
    request is being made or sent, every request that was sent has been counted, and
    nothing is made or sent any more. *)
Theorem stop_waits_for_answers json_loads json_dumps mode buff_reqs batch_size f r c i s :
  reach json_loads json_dumps mode buff_reqs batch_size f r c →
  tasks c !! i = Some (TStop s) → s = StWallet ∨ s = StPool →
  (∀ j t, tasks c !! j = Some t → ∃ ro g, t = TPregen ro g ∨ ∃ s', t = TStop s') ∧
  answered (stat c) = (req_sent (stat c) + Z.of_nat f)%Z ∧
  req_prep (stat c) = (Z.of_nat (length (load_client_reqs c)) + req_sent (stat c))%Z ∧
  gen_reqs mode buff_reqs c = c ∧ ∀ cnt, req_send mode batch_size cnt c = c.
Proof.
  intros H Hi Hs. destruct (reach_inv _ _ _ _ _ _ _ _ H) as [Hsh [A B C D E]].
  assert (closing c = true ∧ no_sub c ∧ no_gen c) as (Hc & Hns & Hng).
  { pose proof (sh_stop mode c Hsh i s Hi) as Hok. by destruct Hs as [-> | ->]. }
  assert (∀ w, (∀ ro g, w (TPregen ro g) = 0) → (∀ s', w (TStop s') = 0) → sum_tasks w (tasks c) = 0) as Hz.
  { intros w Hw1 Hw2. apply sum_zero. intros j t Hj. destruct t; [done|by apply Hng in Hj|by apply Hns in Hj|done]. }
  rewrite (Hz w_start), Z.add_0_r in A by done. rewrite (Hz w_flight), Z.add_0_r in B by done.
  split; [|split; [done|split; [done|split]]].
  - intros j t Hj. destruct t as [ro g|g|s1|s1]; [by exists ro, g; left|by apply Hng in Hj|by apply Hns in Hj|].
    exists 0, GStart. right. by eexists.
  - unfold gen_reqs. by rewrite Hc.
  - intros cnt. unfold req_send. by rewrite Hc.
Qed.

Lemma stop_waits_for_answers_witness :
  tasks sample_state !! 3 = Some (TStop StWallet) ∧ answered (stat sample_state) = (req_sent (stat sample_state) + 0)%Z.
Proof.
  assert (tasks sample_state !! 3 = Some (TStop StWallet)) as H by (vm_compute; reflexivity).
  split; [exact H|].
  exact (proj1 (proj2 (stop_waits_for_answers nack py_str SendTime 1 1 0 1 sample_state 3 StWallet sample_reach H (or_introl eq_refl)))).
Defined.
