(* ===== verification/LoadRunner.v ===== *)
(** * The runner of the load generation

    [scripts/performance/perf_load/perf_processes.py] and perf_client_runner.py: the
    process that starts the clients, gives them the pace, collects their statistics and
    writes what became of each request.

    The state is the object with the timers of its loop and the texts of its files;
    sending to a client may fail, which the argument [pipe_ok] tells for each client.
    How times and exceptions are printed is an argument. *)
From S2P Require Import Prelude PyValue Plenum Constants StateDomain IdrCache HandlerBase Upgrader PoolUpgrade World LoadStat LoadClient.

(** ** The clients of the runner *)

Inductive Status := ClientError | ClientCreated | IsReady | Running | ClientStopped.

#[export] Instance Status_eq_dec : EqDecision Status.
Proof. solve_decision. Defined.

Record ClientRunner := mkRunnerClient {
  status : Status;
  cl_name : string;
  cl_sent : Z;
  cl_succ : Z;
  cl_failed : Z;
  cl_nack : Z;
  cl_reject : Z
}.

Definition new_ClientRunner (name : string) : ClientRunner := mkRunnerClient ClientCreated name 0 0 0 0 0.

Definition with_status (s : Status) (c : ClientRunner) : ClientRunner :=
  mkRunnerClient s (cl_name c) (cl_sent c) (cl_succ c) (cl_failed c) (cl_nack c) (cl_reject c).

Definition stop_client : ClientRunner → ClientRunner := with_status ClientStopped.

Definition is_finished (c : ClientRunner) : bool := bool_decide (status c = ClientStopped).

(** [refresh_stat] of what a client sends, or of its result: [None] for other objects. *)
Definition refresh_stat (stat : option StatDump) (c : ClientRunner) : ClientRunner :=
  match stat with
  | None => c
  | Some d => mkRunnerClient (status c) (cl_name c) (total_sent d) (total_succ d) (total_fail d) (total_nacked d) (total_rejected d)
  end.

(** ** The runner *)

Inductive SyncMode := Freeflow | SyncAll | SyncOne | WaitResp.

#[export] Instance SyncMode_eq_dec : EqDecision SyncMode.
Proof. solve_decision. Defined.

(** What is passed to the constructor. *)
Record LoadArgs := mkLoadArgs {
  la_clients : Z;
  la_cpu_count : Z;
  la_batch_size : Z;
  la_refresh_rate : Z;
  la_buff_req : Z;
  la_val_sep : string;
  la_load_rate : Z;
  la_load_time : Z;
  la_sync_mode : SyncMode;
  la_short_stat : bool
}.

(** The attributes that do not change; [batch_rate] is the number of batches in a second. *)
Record Settings := mkSettings {
  proc_count : Z;
  refresh_rate : Z;
  buff_req : Z;
  value_separator : string;
  rs_batch_size : Z;
  stop_sec : Z;
  sync_mode : SyncMode;
  batch_rate : Z;
  rs_short_stat : bool
}.

(** [LoadRunner.__init__]: values out of range are replaced. *)
Definition positive_or (n d : Z) : Z := if Z.ltb 0 n then n else d.

Definition new_settings (a : LoadArgs) : Settings :=
  mkSettings (positive_or (la_clients a) (la_cpu_count a)) (positive_or (la_refresh_rate a) 10)
    (if Z.leb 0 (la_buff_req a) then la_buff_req a else 30) (if str_truth (la_val_sep a) then la_val_sep a else "|")
    (positive_or (la_batch_size a) 10) (positive_or (la_load_time a) 0) (la_sync_mode a)
    (positive_or (la_load_rate a) 10) (la_short_stat a).

(** The mode of the clients, and what [load_run] changes for it. *)
Definition load_client_mode (s : Settings) : SendMode * Settings :=
  match sync_mode s with
  | SyncAll | SyncOne => (SendSync, s)
  | WaitResp => (SendResp, mkSettings (proc_count s) (refresh_rate s) 0 (value_separator s) 1 (stop_sec s) (sync_mode s)
                             (batch_rate s) (rs_short_stat s))
  | Freeflow => (SendTime, s)
  end.

Inductive Timer := TickAll | TickOne (idx : nat) | ScreenStat | StopAt.

(** What a client is sent. *)
Inductive Command := SendRun | SendGetStat | SendTick (cnt : Z) | SendStop.

Record Runner := mkRunner {
  clients : list ClientRunner;
  timers : list Timer;
  total_f : string;
  succ_f : string;
  nacked_f : string;
  failed_f : string;
  commands : list (nat * Command);
  rn_stopped : bool
}.

Definition set_clients (l : list ClientRunner) (s : Runner) : Runner :=
  mkRunner l (timers s) (total_f s) (succ_f s) (nacked_f s) (failed_f s) (commands s) (rn_stopped s).
Definition add_timer (t : Timer) (s : Runner) : Runner :=
  mkRunner (clients s) (timers s ++ [t]) (total_f s) (succ_f s) (nacked_f s) (failed_f s) (commands s) (rn_stopped s).
Definition set_timers (l : list Timer) (s : Runner) : Runner :=
  mkRunner (clients s) l (total_f s) (succ_f s) (nacked_f s) (failed_f s) (commands s) (rn_stopped s).
Definition write_files (tot suc nack fail : string) (s : Runner) : Runner :=
  mkRunner (clients s) (timers s) (total_f s +:+ tot) (succ_f s +:+ suc) (nacked_f s +:+ nack) (failed_f s +:+ fail) (commands s) (rn_stopped s).
Definition add_command (i : nat) (c : Command) (s : Runner) : Runner :=
  mkRunner (clients s) (timers s) (total_f s) (succ_f s) (nacked_f s) (failed_f s) (commands s ++ [(i, c)]) (rn_stopped s).
Definition stop_runner (s : Runner) : Runner :=
  mkRunner (clients s) (timers s) (total_f s) (succ_f s) (nacked_f s) (failed_f s) (commands s) true.

Definition set_client (i : nat) (f : ClientRunner → ClientRunner) (s : Runner) : Runner :=
  set_clients (alter f i (clients s)) s.

Definition status_of (i : nat) (s : Runner) : option Status := status <$> clients s !! i.

(** *** The files *)

Section Files.
Context (time_str : Z → string) (exn_str : exn → string).

Definition or_zero (t : option Z) : string := match t with Some z => time_str z | None => "0" end.

Definition answer_str (a : option Answer) : string :=
  match a with
  | Some (AText s) => s
  | Some (AValue v) => py_str v
  | Some (AExn e) => exn_str e
  | None => ""
  end.

(** The line of a request in the file of all requests, and in that of its kind. *)
Definition total_line (sep name r_id : string) (r : ReqStat) : string :=
  py_join sep [name; or_empty (rs_label r); r_id; or_empty (rs_status r); or_zero (client_preparing r);
               or_zero (client_prepared r); or_zero (client_signed r); or_zero (client_sent r);
               or_zero (client_reply r); match server_reply r with Some z => str_int z | None => "0" end].

Definition request_line (sep r_id : string) (r : ReqStat) : string :=
  py_join sep [r_id; or_empty (rs_req r); answer_str (rs_resp r)].

Inductive Kind := Success | Nack | Failure.

#[export] Instance Kind_eq_dec : EqDecision Kind.
Proof. solve_decision. Defined.

Definition kind_of (r : ReqStat) : Kind :=
  match rs_status r with
  | Some s => if str_eqb s "succ" then Success
              else if str_eqb s "nack" || str_eqb s "reject" then Nack else Failure
  | None => Failure
  end.

(** ["\n".join(l + [""])], and nothing for no lines. *)
Definition lines (l : list string) : string :=
  match l with [] => "" | _ => py_join (String (Ascii.ascii_of_nat 10) "") (l ++ [""]) end.

Definition of_kind (k : Kind) (sep : string) (reqs : list (string * ReqStat)) : list string :=
  map (λ ir, request_line sep ir.1 ir.2) (filter (λ ir : string * ReqStat, kind_of ir.2 = k) reqs).

Definition process_reqs (st : Settings) (stat : option StatDump) (name : string) (s : Runner) : Runner :=
  match stat with
  | None => s
  | Some d =>
      let sep := value_separator st in
      let tot := lines (map (λ ir, total_line sep name ir.1 ir.2) (dumped d)) in
      if rs_short_stat st then write_files tot "" "" "" s
      else write_files tot (lines (of_kind Success sep (dumped d))) (lines (of_kind Nack sep (dumped d)))
             (lines (of_kind Failure sep (dumped d))) s
  end.

(** *** Messages to the clients *)

Section Handlers.
Context (st : Settings) (pipe_ok : nat → bool).
Abbreviation M := (act Runner).

Definition indices (s : Runner) : list nat := seq 0 (length (clients s)).

(** [run_client] of the client number [i]. *)
Definition run_client (i : nat) : M unit := λ s,
  if bool_decide (status_of i s = Some IsReady)
  then if pipe_ok i then (Ok tt, set_client i (with_status Running) (add_command i SendRun s))
       else (Ok tt, set_client i (with_status ClientError) s)
  else (Ok tt, s).

(** [req_stats]: the handler of a failure passes an argument to the logger that it does
    not have. *)
Definition req_stats (i : nat) : M unit := λ s,
  if bool_decide (status_of i s = Some Running)
  then if pipe_ok i then (Ok tt, add_command i SendGetStat s)
       else (Raise (TypeError "_log() got an unexpected keyword argument 'file'"), s)
  else (Ok tt, s).

(** [sig_handler]; a SIGTERM cancels the process too, which its future tells later. *)
Definition sig_handler : M unit := λ s,
  each (λ i, λ s, (Ok tt, if bool_decide (status_of i s = Some ClientStopped) then s
                          else if pipe_ok i then add_command i SendStop s else s)) (indices s) s.

Definition send_tick (i : nat) : M unit := λ s,
  (Ok tt, if bool_decide (status_of i s = Some Running) && pipe_ok i
          then add_command i (SendTick (rs_batch_size st)) s else s).

Definition tick_all : M unit :=
  let? _ := modify (add_timer TickAll) in λ s, each send_tick (indices s) s.

Definition tick_one (idx : nat) : M unit := λ s,
  match length (clients s) with
  | O => (Raise (PyException "ZeroDivisionError"), s)
  | n => let i := (idx mod n)%nat in
         (let? _ := modify (add_timer (TickOne (i + 1))) in send_tick i) s
  end.

Definition schedule_stop : M unit :=
  if Z.ltb 0 (stop_sec st) then modify (add_timer StopAt) else ret tt.

Definition start_sync : bool := match sync_mode st with SyncAll | SyncOne => true | _ => false end.

Definition all_running (s : Runner) : bool := forallb (λ c, bool_decide (status c = Running)) (clients s).

Definition to_start (s : Runner) : list nat :=
  filter (λ i, status_of i s = Some IsReady) (indices s).

Definition start_clients : M unit := λ s,
  if start_sync && negb (Nat.eqb (length (to_start s)) (length (clients s))) then (Ok tt, s) else
  (let? _ := each run_client (to_start s) in
   let? _ := (λ s, if all_running s then match sync_mode st with
                                         | SyncAll => tick_all s
                                         | SyncOne => tick_one 0 s
                                         | _ => (Ok tt, s)
                                         end
                   else (Ok tt, s)) in
   schedule_stop) s.

Definition request_stat : M unit := λ s, each req_stats (indices s) s.

(** What is read from the pipe of a client. *)
Inductive Received := RStat (d : StatDump) | RReady | RGarbage | RError.

(** [read_client_cb]: whatever is raised is logged. *)
Definition read_client_cb (i : nat) (r : Received) : M unit :=
  catch
    (match r with
     | RStat d =>
         let? _ := modify (set_client i (refresh_stat (Some d))) in
         modify (λ s, process_reqs st (Some d) (or_empty (cl_name <$> clients s !! i)) s)
     | RReady => let? _ := modify (set_client i (with_status IsReady)) in start_clients
     | RGarbage => ret tt
     | RError => raise (OSError "")
     end) (λ _, ret tt).

(** [client_done] with the result of the future; no result is an exception. *)
Definition client_done (i : nat) (result : res (option StatDump)) : M unit :=
  let? _ := match result with
            | Ok d =>
                let? _ := modify (set_client i (refresh_stat d)) in
                modify (λ s, process_reqs st d (or_empty (cl_name <$> clients s !! i)) s)
            | Raise _ => ret tt
            end in
  let? _ := modify (set_client i stop_client) in
  modify (λ s, if forallb is_finished (clients s) then stop_runner s else s).

(** The numbers [get_refresh_str] prints. *)
Record Totals := mkTotals {
  t_running : nat;
  t_sent : Z;
  t_succ : Z;
  t_failed : Z;
  t_nack : Z;
  t_reject : Z
}.

Definition add_client (t : Totals) (c : ClientRunner) : Totals :=
  mkTotals (if bool_decide (status c = Running) then t_running t + 1 else t_running t)%nat
    (t_sent t + cl_sent c) (t_succ t + cl_succ c) (t_failed t + cl_failed c) (t_nack t + cl_nack c)
    (t_reject t + cl_reject c).

Definition get_refresh (s : Runner) : Totals := foldl add_client (mkTotals 0 0 0 0 0 0) (clients s).

(** [screen_stat], without the text on the screen. *)
Definition screen_stat : M unit :=
  let? _ := request_stat in modify (add_timer ScreenStat).

(** *** Events *)

Definition fire (t : Timer) : M unit :=
  match t with
  | TickAll => tick_all
  | TickOne idx => tick_one idx
  | ScreenStat => screen_stat
  | StopAt => sig_handler
  end.
End Handlers.

Inductive RunnerEvent :=
| EvRead (i : nat) (r : Received)
| EvDone (i : nat) (result : res (option StatDump))
| EvTimer (k : nat)
| EvSignal.

(** One event of the loop; an exception of a callback is logged by the loop. *)
Definition runner_step (st : Settings) (pipe_ok : nat → bool) (e : RunnerEvent) (s : Runner) : Runner :=
  match e with
  | EvRead i r => (read_client_cb st pipe_ok i r s).2
  | EvDone i result => (client_done st i result s).2
  | EvTimer k => match timers s !! k with
                 | Some t => (fire st pipe_ok t (set_timers (delete k (timers s)) s)).2
                 | None => s
                 end
  | EvSignal => (sig_handler pipe_ok s).2
  end.

Definition start_names (n : nat) : list string := map (λ i, "LoadClient_" +:+ str_int (Z.of_nat i)) (seq 0 n).

(** [prepare_fs]: the first lines of the files. *)
Definition newline : string := String (Ascii.ascii_of_nat 10) "".
Definition kind_header (st : Settings) : string := py_join (value_separator st) ["id"; "req"; "resp"] +:+ newline.
Definition total_header (st : Settings) : string :=
  py_join (value_separator st)
    ["client"; "label"; "id"; "status"; "client_preparing"; "client_prepared"; "client_signed"; "client_sent";
     "client_reply"; "server_reply"] +:+ newline.

(** The runner when [load_run] enters its loop. *)
Definition start_runner (st : Settings) (n : nat) : Runner :=
  mkRunner (map new_ClientRunner (start_names n)) [ScreenStat] (total_header st) (kind_header st) (kind_header st)
    (kind_header st) [] false.
End Files.

(** ** Lemmas: statuses *)

Lemma set_client_status i f (s : Runner) j :
  status_of j (set_client i f s) =
    if decide (i = j) then (λ c, status (f c)) <$> clients s !! j else status_of j s.
Proof.
  unfold status_of, set_client. cbn. destruct (decide (i = j)) as [->|H].
  - rewrite list_lookup_alter_eq. by destruct (clients s !! j).
  - by rewrite list_lookup_alter_ne.
Qed.

Lemma set_client_length i f s : length (clients (set_client i f s)) = length (clients s).
Proof. apply length_alter. Qed.

Lemma refresh_status d c : status (refresh_stat d c) = status c.
Proof. by destruct d. Qed.

Lemma process_clients ts es st d name s : clients (process_reqs ts es st d name s) = clients s.
Proof. unfold process_reqs. destruct d; [|done]. by destruct (rs_short_stat st). Qed.

Lemma report_status ts es st d name i s j :
  status_of j (process_reqs ts es st d name (set_client i (refresh_stat d) s)) = status_of j s.
Proof.
  transitivity (status_of j (set_client i (refresh_stat d) s)); [unfold status_of; by rewrite process_clients|].
  rewrite set_client_status. case_decide; [|done]. unfold status_of. destruct (clients s !! j); [|done].
  cbn. by rewrite refresh_status.
Qed.

(** A relation of the statuses before and after that the parts of a handler respect. *)
Section Respect.
Context (R : Runner → Runner → Prop) `{!PreOrder R}.
Context (Rsame : ∀ s s', (∀ i, status_of i s' = status_of i s) → R s s').
Context (pipe_ok : nat → bool).

Lemma respect_ok {A} (f : act Runner A) : (∀ s i, status_of i (f s).2 = status_of i s) → frames R f.
Proof. intros H s. apply Rsame. intros i. apply H. Qed.

Lemma respect_each (f : nat → act Runner unit) l : (∀ i, frames R (f i)) → frames R (each f l).
Proof. intros H. by apply frames_each. Qed.

Lemma respect_reading {A} (g : Runner → act Runner A) : (∀ s, frames R (g s)) → frames R (λ s, g s s).
Proof. intros H s. apply H. Qed.

Lemma respect_sig_handler : frames R (sig_handler pipe_ok).
Proof.
  unfold sig_handler. apply (respect_reading (λ s0, each _ (indices s0))). intros s0. apply respect_each. intros i.
  apply respect_ok. intros s j. cbn. case_bool_decide; [done|]. by destruct (pipe_ok i).
Qed.

Lemma respect_tick st i : frames R (send_tick st pipe_ok i).
Proof. apply respect_ok. intros s j. unfold send_tick. cbn. by destruct (_ && _). Qed.

Lemma respect_modify f : (∀ s i, status_of i (f s) = status_of i s) → frames R (modify f).
Proof. intros H. by apply respect_ok. Qed.

Lemma respect_tick_all st : frames R (tick_all st pipe_ok).
Proof.
  unfold tick_all. apply frames_bind; [done|by apply respect_modify|]. intros _.
  apply (respect_reading (λ s0, each _ (indices s0))). intros s0. apply respect_each. intros i. apply respect_tick.
Qed.

Lemma respect_tick_one st idx : frames R (tick_one st pipe_ok idx).
Proof.
  intros s. unfold tick_one. destruct (length (clients s)) as [|n]; [by apply Rsame|].
  assert (frames R (let? _ := modify (add_timer (TickOne (idx mod S n + 1))) in send_tick st pipe_ok (idx mod S n))) as H; [|apply H].
  apply frames_bind; [done|by apply respect_modify|]. intros _. apply respect_tick.
Qed.

Lemma respect_request_stat : frames R (request_stat pipe_ok).
Proof.
  unfold request_stat. apply (respect_reading (λ s0, each _ (indices s0))). intros s0. apply respect_each. intros i.
  apply respect_ok. intros s j. unfold req_stats. case_bool_decide; [|done]. by destruct (pipe_ok i).
Qed.

Lemma respect_screen_stat : frames R (screen_stat pipe_ok).
Proof. unfold screen_stat. apply frames_bind; [done|apply respect_request_stat|]. intros _. by apply respect_modify. Qed.

Lemma respect_fire st t : frames R (fire st pipe_ok t).
Proof.
  destruct t; cbn; [apply respect_tick_all|apply respect_tick_one|apply respect_screen_stat|apply respect_sig_handler].
Qed.
End Respect.

(** What is kept: [P] before implies [P] after. *)
Definition preserves (P : Runner → Prop) : Runner → Runner → Prop := λ s s', P s → P s'.

#[export] Instance preserves_preorder P : PreOrder (preserves P).
Proof. unfold preserves. split; [intros s; done|intros s1 s2 s3; naive_solver]. Qed.

Definition of_statuses (P : Runner → Prop) : Prop := ∀ s s', (∀ i, status_of i s' = status_of i s) → P s → P s'.

Lemma length_filter_all {A} (P : A → Prop) `{∀ x, Decision (P x)} l : length (filter P l) = length l → Forall P l.
Proof.
  induction l as [|x l IH]; [done|]. intros H1. destruct (decide (P x)) as [Hx|Hx].
  - rewrite filter_cons_True in H1 by done. constructor; [done|]. apply IH. cbn in H1. lia.
  - rewrite filter_cons_False in H1 by done. pose proof (length_filter P l). cbn in H1. lia.
Qed.

Lemma indices_all i s : is_Some (clients s !! i) → i ∈ indices s.
Proof. intros Hi%lookup_lt_is_Some. apply list_elem_of_In, in_seq. lia. Qed.

Lemma all_to_start s i : length (to_start s) = length (clients s) → status_of i s = Some IsReady ∨ status_of i s = None.
Proof.
  intros H. destruct (clients s !! i) as [c|] eqn:Hi; [left|right; unfold status_of; by rewrite Hi].
  assert (Forall (λ i, status_of i s = Some IsReady) (indices s)) as Hl.
  { eapply length_filter_all. etrans; [exact H|]. symmetry. apply length_seq. }
  rewrite Forall_forall in Hl. apply Hl, indices_all. by eexists.
Qed.

Section Modes.
Context (time_str : Z → string) (exn_str : exn → string) (st : Settings).

(** No client runs while another has not started up. *)
Definition together (s : Runner) : Prop := ∀ i j, status_of i s = Some ClientCreated → status_of j s ≠ Some Running.

Definition none_created (s : Runner) : Prop := ∀ i, status_of i s ≠ Some ClientCreated.

Lemma together_statuses : of_statuses together.
Proof. intros s s' H Hp i j. rewrite !H. apply Hp. Qed.

Lemma none_created_statuses : of_statuses none_created.
Proof. intros s s' H Hp i. rewrite H. apply Hp. Qed.

(** A client gets a status that is neither. *)
Lemma set_status_together i f s :
  (∀ c, status (f c) ≠ ClientCreated ∧ status (f c) ≠ Running) → together s → together (set_client i f s).
Proof.
  intros Hf Hp j k. rewrite !set_client_status. destruct (decide (i = j)).
  - destruct (clients s !! j) as [c|]; [|done]. intros [= Hc]. by destruct (Hf c).
  - intros Hj. destruct (decide (i = k)); [|by apply (Hp j k)]. destruct (clients s !! k) as [c|]; [|done]. intros [= Hc]. by destruct (Hf c).
Qed.

Lemma run_client_none_created pipe_ok i : frames (preserves none_created) (run_client pipe_ok i).
Proof.
  intros s Hp. unfold run_client. case_bool_decide; [|done].
  assert (∀ x, x ≠ ClientCreated → ∀ s, none_created s → none_created (set_client i (with_status x) s)) as Hset.
  { intros x Hx s' Hs j. rewrite set_client_status. destruct (decide (i = j)); [|apply Hs].
    destruct (clients s' !! j); [|done]. cbn. by intros [= ?]. }
  destruct (pipe_ok i); cbn; by apply Hset.
Qed.

Lemma started_none_created pipe_ok s :
  none_created s → none_created
    (act_bind (each (run_client pipe_ok) (to_start s)) (λ _, act_bind (λ s, if all_running s then match sync_mode st with
        | SyncAll => tick_all st pipe_ok s | SyncOne => tick_one st pipe_ok 0 s | _ => (Ok tt, s) end else (Ok tt, s))
      (λ _, schedule_stop st)) s).2.
Proof.
  pose proof none_created_statuses as Hst.
  assert (∀ s s', (∀ i, status_of i s' = status_of i s) → preserves none_created s s') as Rsame by (intros s1 s2 Hs; exact (Hst s1 s2 Hs)).
  enough (frames (preserves none_created) (act_bind (each (run_client pipe_ok) (to_start s)) (λ _, act_bind (λ s, if all_running s then match sync_mode st with
        | SyncAll => tick_all st pipe_ok s | SyncOne => tick_one st pipe_ok 0 s | _ => (Ok tt, s) end else (Ok tt, s))
      (λ _, schedule_stop st)))) as H by apply H.
  apply frames_bind; [typeclasses eauto| |intros _; apply frames_bind; [typeclasses eauto| |intros _]].
  - apply respect_each; [typeclasses eauto|apply run_client_none_created].
  - intros s1. destruct (all_running s1); [|done]. destruct (sync_mode st); try done;
      [by apply (respect_tick_all _ Rsame)|by apply (respect_tick_one _ Rsame)].
  - unfold schedule_stop. destruct (Z.ltb 0 (stop_sec st)); [by apply (respect_modify _ Rsame)|]. by intros s1.
Qed.

Lemma start_clients_together pipe_ok s :
  start_sync st = true → together s → together (start_clients st pipe_ok s).2.
Proof.
  intros Hm Hp. unfold start_clients. rewrite Hm. cbn [andb]. destruct (Nat.eqb_spec (length (to_start s)) (length (clients s))) as [Hl|]; [|done].
  cbn [negb]. assert (none_created s) as Hn by (intros i; by destruct (all_to_start s i Hl) as [-> | ->]).
  intros i j Hi. exfalso. revert Hi. by apply (started_none_created pipe_ok s Hn).
Qed.

Lemma step_together pipe_ok e s :
  start_sync st = true → together s → together (runner_step time_str exn_str st pipe_ok e s).
Proof.
  intros Hm Hp. assert (∀ s s', (∀ i, status_of i s' = status_of i s) → preserves together s s') as Rsame by (intros s1 s2 Hs; exact (together_statuses s1 s2 Hs)).
  destruct e as [i r|i result|k|]; cbn [runner_step].
  - unfold read_client_cb, catch. destruct r as [d| | |].
    + unfold act_bind, modify. cbn -[process_reqs set_client refresh_stat]. apply (together_statuses s); [|done].
      intros j. apply report_status.
    + cbn [act_bind modify]. unfold act_bind, modify.
      pose proof (start_clients_together pipe_ok (set_client i (with_status IsReady) s) Hm) as H.
      destruct (start_clients _ _ _) as [[]?]; apply H; by apply set_status_together.
    + done.
    + done.
  - unfold client_done, act_bind, modify, ret.
    destruct result as [d|e]; cbn -[process_reqs set_client refresh_stat is_finished stop_runner];
      (match goal with |- together (if ?b then stop_runner ?x else _) => enough (together x) as H by (by destruct b) end);
      apply set_status_together; try done.
    apply (together_statuses s); [|done]. intros j. apply report_status.
  - destruct (timers s !! k); [|done]. by apply (respect_fire (preserves together) Rsame).
  - by apply (respect_sig_handler (preserves together) Rsame).
Qed.

(** *** A client that ended before the start *)

(** Client [i] ended and none runs. *)
Definition stuck (i : nat) (s : Runner) : Prop :=
  status_of i s = Some ClientStopped ∧ ∀ j, status_of j s ≠ Some Running.

Lemma stuck_statuses i : of_statuses (stuck i).
Proof. intros s s' H [Hi Hj]. split; [by rewrite H|]. intros j. rewrite H. apply Hj. Qed.

Lemma set_status_stuck i k f s :
  (∀ c, status (f c) ≠ Running ∧ (status (f c) = ClientStopped ∨ k ≠ i)) → stuck i s → stuck i (set_client k f s).
Proof.
  intros Hf [Hi Hj]. split; [|intros j]; rewrite set_client_status; case_decide as Hk.
  - subst k. unfold status_of in Hi. destruct (clients s !! i) as [c|]; [|done]. cbn.
    destruct (Hf c) as [_ [-> | ?]]; done.
  - done.
  - destruct (clients s !! j) as [c|]; [|done]. cbn. intros [= Hc]. by destruct (Hf c).
  - apply Hj.
Qed.

Lemma start_clients_stuck pipe_ok i s : start_sync st = true → stuck i s → (start_clients st pipe_ok s).2 = s.
Proof.
  intros Hm [Hi _]. unfold start_clients. rewrite Hm. cbn [andb].
  destruct (Nat.eqb_spec (length (to_start s)) (length (clients s))) as [Hl|]; [|done].
  destruct (all_to_start s i Hl); congruence.
Qed.

Lemma step_stuck pipe_ok i e s :
  start_sync st = true → e ≠ EvRead i RReady → stuck i s → stuck i (runner_step time_str exn_str st pipe_ok e s).
Proof.
  intros Hm He Hp.
  assert (∀ s s', (∀ i, status_of i s' = status_of i s) → preserves (stuck i) s s') as Rsame
    by (intros s1 s2 Hs; exact (stuck_statuses i s1 s2 Hs)).
  destruct e as [k r|k result|k|]; cbn [runner_step].
  - unfold read_client_cb, catch. destruct r as [d| | |]; [| |done|done].
    + unfold act_bind, modify. cbn -[process_reqs set_client refresh_stat]. apply (stuck_statuses i s); [|done].
      intros j. apply report_status.
    + unfold act_bind, modify.
      assert (stuck i (set_client k (with_status IsReady) s)) as Hk.
      { apply set_status_stuck; [|done]. intros c. split; [done|]. right. congruence. }
      pose proof (start_clients_stuck pipe_ok i _ Hm Hk) as H. destruct (start_clients _ _ _) as [[]?]; cbn in *; by subst.
  - unfold client_done, act_bind, modify, ret.
    destruct result as [d|e]; cbn -[process_reqs set_client refresh_stat is_finished stop_runner];
      (match goal with |- stuck _ (if ?b then stop_runner ?x else _) => enough (stuck i x) as H by (by destruct b) end);
      (apply set_status_stuck; [intros c; split; [done|by left]|]); try done.
    apply (stuck_statuses i s); [|done]. intros j. apply report_status.
  - destruct (timers s !! k); [|done]. by apply (respect_fire (preserves (stuck i)) Rsame).
  - by apply (respect_sig_handler (preserves (stuck i)) Rsame).
Qed.

(** *** Runs *)

(** Events with the state of the pipes when they are handled. *)
Definition runner_run (l : list ((nat → bool) * RunnerEvent)) (s : Runner) : Runner :=
  foldl (λ s pe, runner_step time_str exn_str st pe.1 pe.2 s) s l.

Lemma start_status n i x : status_of i (start_runner st n) = Some x → x = ClientCreated.
Proof.
  unfold status_of, start_runner. cbn [clients]. rewrite list_lookup_fmap.
  destruct (start_names n !! i); [|done]. by intros [= <-].
Qed.

Lemma run_together l s : start_sync st = true → together s → together (runner_run l s).
Proof. intros Hm. revert s. induction l as [|pe l IH]; [done|]. intros s Hs. by apply IH, step_together. Qed.

Lemma run_stuck i l s :
  start_sync st = true → Forall (λ pe, pe.2 ≠ EvRead i RReady) l → stuck i s → stuck i (runner_run l s).
Proof.
  intros Hm Hl. revert s. induction Hl as [|pe l He Hl IH]; [done|]. intros s Hs. by apply IH, step_stuck.
Qed.
End Modes.

(** ** The clients start together *)

(** With the synchronisation modes 'all' and 'one', whatever the clients send, in
    whatever order they end and whichever messages to them fail: while one client has not
    reported that it is ready, no other has been given the command to run. *)
Theorem starts_together time_str exn_str st n l i j :
  start_sync st = true →
  status_of i (runner_run time_str exn_str st l (start_runner st n)) = Some ClientCreated →
  status_of j (runner_run time_str exn_str st l (start_runner st n)) ≠ Some Running.
Proof.
  intros Hm. apply run_together; [done|]. intros a b _ Hb. by apply start_status in Hb.
Qed.

(** One client of two has reported. *)
Definition sample_settings : Settings :=
  new_settings (mkLoadArgs 2 4 5 10 30 "|" 10 0 SyncAll false).

Definition one_ready : list ((nat → bool) * RunnerEvent) := [(λ _, true, EvRead 0 RReady)].
Definition both_ready : list ((nat → bool) * RunnerEvent) := one_ready ++ [(λ _, true, EvRead 1 RReady)].
Definition one_failed : list ((nat → bool) * RunnerEvent) := [(λ _, true, EvDone 0 (Raise (ValueError "no wallet")))].

Lemma starts_together_witness :
  let run l := runner_run str_int (λ _, "error") sample_settings l (start_runner sample_settings 2) in
  status_of 1 (run one_ready) = Some ClientCreated ∧ status_of 0 (run one_ready) ≠ Some Running ∧
  status_of 0 (run both_ready) = Some Running ∧ status_of 1 (run both_ready) = Some Running ∧
  commands (run both_ready) = [(0%nat, SendRun); (1%nat, SendRun); (0%nat, SendTick 5); (1%nat, SendTick 5)].
Proof.
  cbv zeta. split; [by vm_compute|]. split; [apply (starts_together _ _ _ _ _ 1); by vm_compute|].
  split; [by vm_compute|]. split; by vm_compute.
Defined.

(** One client that ends before all of them are ready keeps the others from being started,
    for ever: in these modes the number of clients that are ready is compared with the
    number of all clients, not of those that are left. *)
Theorem one_failure_keeps_all_waiting time_str exn_str st i l s j :
  start_sync st = true → status_of i s = Some ClientStopped → (∀ k, status_of k s ≠ Some Running) →
  Forall (λ pe, pe.2 ≠ EvRead i RReady) l →
  status_of j (runner_run time_str exn_str st l s) ≠ Some Running.
Proof. intros Hm Hi Hs Hl. by apply (run_stuck time_str exn_str st i l s Hm Hl). Qed.

Lemma one_failure_keeps_all_waiting_witness :
  let s := runner_run str_int (λ _, "error") sample_settings one_failed (start_runner sample_settings 2) in
  status_of 0 s = Some ClientStopped ∧ rn_stopped s = false ∧
  status_of 1 (runner_run str_int (λ _, "error") sample_settings [(λ _, true, EvRead 1 RReady)] s) ≠ Some Running.
Proof.
  cbv zeta. split; [by vm_compute|]. split; [by vm_compute|].
  apply (one_failure_keeps_all_waiting _ _ _ 0); [by vm_compute|by vm_compute| |by constructor].
  intros [|[|k]]; by vm_compute.
Defined.
