(* ===== verification/LoadFees.v ===== *)
(** * The client of the load generation that pays fees

    [LoadClientFees] in [scripts/performance/perf_load/perf_client_fees.py]: the sources
    the client spends on fees, puts back when a request is refused and replaces by those
    of the reply, the amounts it mints; and [update_constraint] of perf_client.py, by
    which the names of fees get into the authorization rules of the ledger.

    The payment library and the wallet are arguments: a function of what they are given
    into what they answer. *)
From S2P Require Import Prelude PyValue Plenum Constants AuthActions AuthConstraints Authorizer AuthorizerSpec StateDomain IdrCache HandlerBase Upgrader PoolUpgrade World LoadStat.
Local Open Scope Z_scope.

(** ** Parameters *)

Definition PUB_XFER_TXN_ID : string := "10001".
Definition FEES_ALIAS_PREFIX : string := "_fees_alias_prefix".

Definition create_alias (txn_type : string) : string := txn_type +:+ FEES_ALIAS_PREFIX.

(** [alias[:-len(FEES_ALIAS_PREFIX)]] *)
Definition get_txn_type_by_alis (alias : string) : string :=
  String.substring 0 (String.length alias - String.length FEES_ALIAS_PREFIX) alias.

(** [_init_fees_params]: the metadata of the rules of each type, and the amount of each
    alias. *)
Definition init_fees_params (set_fees_param : dict Z) : dict (dict val) * dict Z :=
  (foldl (λ d ta, dset ta.1 [("fees", VStr (create_alias ta.1))] d) [] set_fees_param,
   foldl (λ d ta, dset (create_alias ta.1) ta.2 d) [] set_fees_param).

(** [__set_fees_once]: the fees of the pool by type. *)
Definition pool_fees_of (fees_set : dict Z) : dict Z :=
  foldl (λ d aa, dset (get_txn_type_by_alis aa.1) aa.2 d) [] fees_set.

(** The amounts minted for an address, [amount] in all and [by_val] at a time: the number
    of rounds, and the value of each. *)
Definition mint_rounds (amount by_val : Z) : Z := amount / by_val + (if 0 <? amount mod by_val then 1 else 0).

Fixpoint mint_values (amount by_val : Z) (i : Z) (n : nat) (mint_val : Z) : list Z :=
  match n with
  | O => []
  | S n' => let v := if amount <? (i + 1) * by_val then amount mod by_val else mint_val in
            v :: mint_values amount by_val (i + 1) n' v
  end.

Definition mint_sources (amount by_val : Z) : res (list Z) :=
  if by_val =? 0 then Raise (PyException "ZeroDivisionError")
  else Ok (mint_values amount by_val 0 (Z.to_nat (mint_rounds amount by_val)) by_val).

(** ** Sources *)

(** [_addr_txos], and [_req_addrs]: the sources each request was signed with. *)
Record FeesClient := mkFees {
  addr_txos : dict (list txo);
  req_addrs : dict (string * list txo)
}.

Definition set_txos (d : dict (list txo)) (c : FeesClient) : FeesClient := mkFees d (req_addrs c).
Definition set_req_addrs (d : dict (string * list txo)) (c : FeesClient) : FeesClient := mkFees (addr_txos c) d.

Section Fees.
Context (json_loads : string → res val).
Context (pool_fees : dict Z) (allow_invalid_txns : bool).
(** [payment.add_request_fees] of a request, inputs and outputs, [ledger.sign_request],
    and the receipts in a reply, each with the address it belongs to. *)
Context (add_request_fees : string → list string → list (string * Z) → res string).
Context (sign_request : string → res string).
Context (parse_receipts : string → res (list (string * txo))).
Abbreviation M := (act FeesClient).

(** [self._pool_fees.get(req_type, 0)] *)
Definition fees_of_type (req_type : val) : res Z :=
  match req_type with
  | VStr t => Ok (default 0 (dget t pool_fees))
  | VList _ | VDict _ => Raise (TypeError "unhashable type")
  | _ => Ok 0
  end.

(** [_add_fees]: the sources spent and the request to sign. *)
Definition add_fees (req : string) : M (option (string * list txo) * option string) :=
  let? req_type := lift (request_get_type json_loads (VStr req)) in
  if py_eq req_type (VStr PUB_XFER_TXN_ID) then ret (None, Some req) else
  let? fees_val := lift (fees_of_type req_type) in
  if fees_val =? 0 then ret (None, Some req) else
  let? sp := (λ c, let '(sp, d) := gen_input_output (addr_txos c) fees_val in (Ok sp, set_txos d c)) in
  match sp with
  | Some s =>
      match sp_inputs s with
      | [] => ret (None, if allow_invalid_txns then Some req else None)
      | inputs => let? req_fees := lift (add_request_fees req inputs (sp_outputs s)) in
                  ret (Some (sp_address s, sp_txos s), Some req_fees)
      end
  | None => ret (None, if allow_invalid_txns then Some req else None)
  end.

Definition ledger_sign_req (req : string) : M (option string) :=
  let? ar := add_fees req in
  match ar.2 with
  | None => ret None
  | Some fees_req =>
      let? signed := lift (sign_request fees_req) in
      let? _ := match ar.1 with
                | Some addr => modify (λ c, set_req_addrs (dset signed addr (req_addrs c)) c)
                | None => ret tt
                end in
      ret (Some signed)
  end.

(** [self._addr_txos[addr].extend(txos)] *)
Definition extend_txos (addr : string) (txos : list txo) : M unit := λ c,
  match dget addr (addr_txos c) with
  | Some l => (Ok tt, set_txos (dset addr (l ++ txos) (addr_txos c)) c)
  | None => (Raise (KeyError addr), c)
  end.

Definition restore_fees_from_req (req : string) : M unit := λ c,
  let c' := set_req_addrs (ddel req (req_addrs c)) c in
  match dget req (req_addrs c) with
  | Some (addr, txos) => extend_txos addr txos c'
  | None => (Ok tt, c')
  end.

(** [_parse_fees_resp]: of the request the pool answered with an error the sources are
    lost. *)
Definition parse_fees_resp (req : string) (resp_or_exp : res string) : M unit :=
  let? _ := match resp_or_exp with
            | Raise _ => ret tt
            | Ok resp =>
                catch
                  (let? resp_obj := lift (json_loads resp) in
                   let? op_f := lift (val_get "op" (VStr "") resp_obj) in
                   let? resp_type := lift (response_get_type json_loads resp_obj) in
                   if py_eq op_f (VStr "REPLY") && negb (py_eq resp_type (VStr PUB_XFER_TXN_ID))
                   then let? receipt_infos := lift (parse_receipts resp) in
                        each (λ ri, extend_txos ri.1 [ri.2]) receipt_infos
                   else restore_fees_from_req req) (λ _, ret tt)
            end in
  modify (λ c, set_req_addrs (ddel req (req_addrs c)) c).
End Fees.

(** ** Fees in the authorization rules *)

(** [update_constraint] of the value of a constraint, changed in place. *)
Fixpoint update_constraint (fee_metadata : dict val) (constraint : val) : res val :=
  match constraint with
  | VDict d =>
      match dget "constraint_id" d with
      | Some (VStr id) =>
          if str_eqb id "ROLE" then
            match default (VDict []) (dget "metadata" d) with
            | VDict m => Ok (VDict (dset "metadata" (VDict (dupdate m fee_metadata)) d))
            | _ => Raise AttributeError
            end
          else if str_eqb id "OR" || str_eqb id "AND" then
            let! d' := (fix go (d : dict val) : res (dict val) :=
              match d with
              | [] => Ok []
              | (k, v) :: d' =>
                  if str_eqb k "auth_constraints" then
                    match v with
                    | VList l => let! l' := res_mapM (update_constraint fee_metadata) l in Ok ((k, VList l') :: d')
                    | VStr "" | VDict [] => Ok d
                    | VStr _ | VDict _ => Raise AttributeError
                    | _ => Raise (TypeError "object is not iterable")
                    end
                  else let! r := go d' in Ok ((k, v) :: r)
              end) d in
            Ok (VDict d')
          else Ok constraint
      | _ => Ok constraint
      end
  | _ => Raise AttributeError
  end.

(** The constraint with the entries added to the metadata of its roles. *)
Fixpoint add_metadata (fee_metadata : dict val) (c : constraint) : constraint :=
  match c with
  | AuthConstraintForbidden => c
  | AuthConstraint r s n o m =>
      AuthConstraint r s n o (match m with VDict d => VDict (dupdate d fee_metadata) | _ => m end)
  | AuthConstraintAnd cs => AuthConstraintAnd (map (add_metadata fee_metadata) cs)
  | AuthConstraintOr cs => AuthConstraintOr (map (add_metadata fee_metadata) cs)
  end.

(** ** Lemmas: amounts *)

Definition zsum (l : list Z) : Z := foldr Z.add 0 l.

Lemma mint_full amount by_val n : ∀ i,
  0 < by_val → 0 ≤ i → (i + Z.of_nat n) * by_val ≤ amount →
  mint_values amount by_val i n by_val = replicate n by_val.
Proof.
  induction n as [|n IH]; intros i Hb Hi Hn; [done|]. cbn [mint_values replicate].
  rewrite (proj2 (Z.ltb_ge amount ((i + 1) * by_val))) by nia. f_equal. apply IH; lia.
Qed.

Lemma mint_values_app amount by_val n m : ∀ i v,
  (∀ j, i ≤ j < i + Z.of_nat n → (j + 1) * by_val ≤ amount) →
  mint_values amount by_val i (n + m) v = mint_values amount by_val i n v ++ mint_values amount by_val (i + Z.of_nat n) m v.
Proof.
  induction n as [|n IH]; intros i v H; cbn [Nat.add mint_values app]; [by rewrite Z.add_0_r|].
  rewrite (proj2 (Z.ltb_ge amount ((i + 1) * by_val))) by (apply H; lia). f_equal.
  rewrite IH by (intros j Hj; apply H; lia). by replace (i + Z.of_nat (S n)) with (i + 1 + Z.of_nat n) by lia.
Qed.

Lemma zsum_replicate n v : zsum (replicate n v) = Z.of_nat n * v.
Proof. induction n as [|n IH]; [done|]. unfold zsum in *. cbn [replicate foldr]. rewrite IH. lia. Qed.

Lemma zsum_app l l' : zsum (l ++ l') = zsum l + zsum l'.
Proof. unfold zsum. induction l as [|x l IH]; cbn [app foldr]; [done|]. rewrite IH. lia. Qed.

(** The amounts minted for an address are the amount asked for, in parts of at most the
    value given. *)
Theorem minted_in_full amount by_val :
  0 < by_val → 0 ≤ amount →
  ∃ l, mint_sources amount by_val = Ok l ∧ zsum l = amount ∧ Forall (λ v, 0 < v ≤ by_val) l.
Proof.
  intros Hb Ha. unfold mint_sources. rewrite (proj2 (Z.eqb_neq by_val 0)) by lia. eexists. split; [done|].
  pose proof (Z.div_mod amount by_val ltac:(lia)) as Hd. pose proof (Z.mod_pos_bound amount by_val Hb) as Hm.
  assert (0 ≤ amount / by_val) as Hq by (apply Z.div_pos; lia). unfold mint_rounds.
  assert (∀ j, 0 ≤ j < 0 + Z.of_nat (Z.to_nat (amount / by_val)) → (j + 1) * by_val ≤ amount) as Hj by (intros j Hj; nia).
  rewrite Z2Nat.inj_add by (try destruct (0 <? amount mod by_val); lia). rewrite mint_values_app by done.
  rewrite mint_full by nia. rewrite Z2Nat.id by done.
  assert (Forall (λ v, 0 < v ≤ by_val) (replicate (Z.to_nat (amount / by_val)) by_val)) as Hf.
  { apply Forall_replicate. lia. }
  destruct (Z.ltb_spec 0 (amount mod by_val)).
  - change (Z.to_nat 1) with 1%nat. cbn [mint_values]. rewrite (proj2 (Z.ltb_lt amount _)) by nia.
    rewrite zsum_app, zsum_replicate. split; [cbn; nia|]. apply Forall_app. split; [done|]. constructor; [lia|constructor].
  - cbn [Z.to_nat mint_values]. rewrite app_nil_r, zsum_replicate. split; [nia|done].
Qed.

Lemma minted_in_full_witness : ∃ l, mint_sources 1000 300 = Ok l ∧ zsum l = 1000 ∧ Forall (λ v, 0 < v ≤ 300) l.
Proof. by apply (minted_in_full 1000 300). Defined.

Lemma substring_app (s t : string) : String.substring 0 (String.length s) (s +:+ t) = s.
Proof. induction s as [|c s IH]; [by destruct t|]. cbn. by rewrite IH. Qed.

(** The type of an alias is the one the alias was made of. *)
Lemma alias_roundtrip t : get_txn_type_by_alis (create_alias t) = t.
Proof.
  unfold get_txn_type_by_alis, create_alias. rewrite str_app_length, Nat.add_sub. apply substring_app.
Qed.

(** ** Lemmas: sources *)

Lemma dset_fresh {A} k (v : A) d : dget k d = None → dset k v d = d ++ [(k, v)].
Proof.
  induction d as [|[j w] d IH]; cbn; [done|]. destruct (str_eqb k j) eqn:E; [done|]. intros H. by rewrite IH.
Qed.

Lemma ddel_app_fresh {A} k (v : A) d : dget k d = None → ddel k (d ++ [(k, v)]) = d.
Proof.
  induction d as [|[j w] d IH]; cbn; [by rewrite str_eqb_refl|]. destruct (str_eqb k j) eqn:E; [done|]. intros H. by rewrite IH.
Qed.

Lemma ddel_fresh {A} k (d : dict A) : dget k d = None → ddel k d = d.
Proof.
  induction d as [|[j w] d IH]; cbn; [done|]. destruct (str_eqb k j) eqn:E; [done|]. intros H. by rewrite IH.
Qed.

Lemma dkeys_dset_in {A} k (v : A) d : k ∈ dkeys d → dkeys (dset k v d) = dkeys d.
Proof.
  intros Hk. rewrite dkeys_dset. unfold dhas. destruct (dget k d) eqn:E; [done|]. by apply dget_None_elem in E.
Qed.

Lemma spend_from_keys v addresses : ∀ d,
  (∀ a, a ∈ addresses → a ∈ dkeys d) → dkeys (spend_from v addresses d).2 = dkeys d.
Proof.
  induction addresses as [|a addresses IH]; intros d Ha; cbn [spend_from]; [done|].
  assert (a ∈ dkeys d) as Hin by (apply Ha, list_elem_of_here).
  destruct (take_txos _ _ _ _) as [[stack tmp] total]. destruct (Z.leb v total); cbn [snd].
  - by apply dkeys_dset_in.
  - rewrite IH; [by apply dkeys_dset_in|]. intros b Hb. rewrite dkeys_dset_in by done. apply Ha. by apply list_elem_of_further.
Qed.

(** What of the sources with an address belongs to [a]. *)
Definition at_address (addr : option (string * list txo)) (a : string) : list txo :=
  match addr with Some (b, l) => if decide (b = a) then l else [] | None => [] end.

Section Conserved.
Context (json_loads : string → res val) (pool_fees : dict Z) (allow_invalid_txns : bool).
Context (add_request_fees : string → list string → list (string * Z) → res string).
Context (sign_request : string → res string) (parse_receipts : string → res (list (string * txo))).

(** What [_add_fees] takes is what it returns. *)
Lemma add_fees_spec req c addr fees_req c' :
  NoDup (dkeys (addr_txos c)) →
  add_fees json_loads pool_fees allow_invalid_txns add_request_fees req c = (Ok (addr, fees_req), c') →
  req_addrs c' = req_addrs c ∧ dkeys (addr_txos c') = dkeys (addr_txos c) ∧
  (∀ a, usable (sources (addr_txos c) a) ≡ₚ at_address addr a ++ usable (sources (addr_txos c') a)) ∧
  match addr with Some (b, l) => b ∈ dkeys (addr_txos c) ∧ Forall (λ t : txo, 0 < t.2) l | None => True end.
Proof.
  intros Hnd. unfold add_fees, act_bind, lift, ret.
  destruct (request_get_type json_loads (VStr req)) as [ty|]; [|done].
  destruct (py_eq ty _); [by intros [= <- <- <-]|]. destruct (fees_of_type pool_fees ty) as [v|]; [|done].
  destruct (v =? 0); [by intros [= <- <- <-]|]. unfold gen_input_output.
  pose proof (spend_from_spec v (dkeys (addr_txos c)) (addr_txos c) Hnd) as Hs.
  pose proof (spend_from_keys v (dkeys (addr_txos c)) (addr_txos c) (λ a H, H)) as Hk.
  destruct (spend_from v _ _) as [[sp|] d]; destruct Hs as [Hall Hr]; cbn [snd] in Hk.
  - destruct Hr as (Hin & Hi & Hpos & _). destruct (sp_inputs sp) as [|x l] eqn:E.
    + intros [= <- _ <-]. split; [done|]. split; [done|]. split; [|done]. intros a. rewrite (Hall a). cbn [at_address spent_at].
      by destruct (sp_txos sp); [case_decide|].
    + destruct (add_request_fees _ _ _) as [rf|]; [|done]. intros [= <- _ <-]. split; [done|]. split; [done|]. split; [exact Hall|].
      by split.
  - intros [= <- _ <-]. split; [done|]. split; [done|]. split; [exact Hall|done].
Qed.

Lemma extend_txos_sources addr txos c a :
  addr ∈ dkeys (addr_txos c) →
  extend_txos addr txos c = (Ok tt, set_txos (dset addr (sources (addr_txos c) addr ++ txos) (addr_txos c)) c) ∧
  sources (dset addr (sources (addr_txos c) addr ++ txos) (addr_txos c)) a =
    sources (addr_txos c) a ++ at_address (Some (addr, txos)) a.
Proof.
  intros Ha. split.
  - unfold extend_txos, sources. destruct (dget addr (addr_txos c)) eqn:E; [done|]. by apply dget_None_elem in E.
  - rewrite sources_dset. cbn [at_address]. case_decide as H; [by subst|by rewrite app_nil_r].
Qed.

(** C29. A request that is refused costs nothing: after a request was signed with sources
    of an address for its fees and the pool refused it, every address has the usable
    sources it had before, and nothing is left of the request; in between the sources
    are not there to be spent twice. *)
Theorem refused_fees_come_back req c signed c1 resp d op rt :
  NoDup (dkeys (addr_txos c)) → dget signed (req_addrs c) = None →
  ledger_sign_req json_loads pool_fees allow_invalid_txns add_request_fees sign_request req c = (Ok (Some signed), c1) →
  json_loads resp = Ok (VDict d) → dget "op" d = Some op → py_eq op (VStr "REPLY") = false →
  response_get_type json_loads (VDict d) = Ok rt →
  (∀ a, usable (sources (addr_txos c) a) ≡ₚ at_address (dget signed (req_addrs c1)) a ++ usable (sources (addr_txos c1) a)) ∧
  ∃ c2, parse_fees_resp json_loads parse_receipts signed (Ok resp) c1 = (Ok tt, c2) ∧ req_addrs c2 = req_addrs c ∧
    ∀ a, usable (sources (addr_txos c2) a) ≡ₚ usable (sources (addr_txos c) a).
Proof.
  intros Hnd Hf Hs Hj Hop Hne Hrt.
  assert (∃ addr c0, req_addrs c0 = req_addrs c ∧ dkeys (addr_txos c0) = dkeys (addr_txos c) ∧
    (∀ a, usable (sources (addr_txos c) a) ≡ₚ at_address addr a ++ usable (sources (addr_txos c0) a)) ∧
    match addr with Some (b, l) => b ∈ dkeys (addr_txos c) ∧ Forall (λ t : txo, 0 < t.2) l | None => True end ∧
    c1 = match addr with Some ad => set_req_addrs (dset signed ad (req_addrs c)) c0 | None => c0 end)
    as (addr & c0 & Hr & Hk & Hall & Hin & ->).
  { unfold ledger_sign_req, act_bind in Hs. destruct (add_fees _ _ _ _ _ _) as [[[addr fr]|] c0] eqn:E; [|done].
    destruct (add_fees_spec _ _ _ _ _ Hnd E) as (Hr & Hk & Hall & Hin). exists addr, c0. split; [done|]. split; [done|]. split; [done|]. split; [done|].
    cbn [fst snd] in Hs. destruct fr as [fr|]; [|done]. unfold lift in Hs. destruct (sign_request fr) as [sg|]; [|done].
    destruct addr as [ad|]; cbn in Hs; injection Hs as <- <-; [by rewrite Hr|done]. }
  assert (dget signed (req_addrs (match addr with Some ad => set_req_addrs (dset signed ad (req_addrs c)) c0 | None => c0 end)) = addr) as Hg.
  { destruct addr; [apply dget_dset_eq|by rewrite Hr]. }
  rewrite Hg. split; [intros a; rewrite (Hall a); by destruct addr|].
  unfold parse_fees_resp, catch, act_bind, lift, modify. rewrite Hj. cbn [val_get]. rewrite Hop. cbn [default]. unfold id. rewrite Hrt, Hne. cbn [andb].
  unfold restore_fees_from_req. rewrite Hg. destruct addr as [[b l]|].
  - destruct Hin as [Hb Hpos]. set (c1 := set_req_addrs _ (set_req_addrs _ c0)).
    assert (b ∈ dkeys (addr_txos c1)) as Hb' by (change (b ∈ dkeys (addr_txos c0)); by rewrite Hk).
    destruct (extend_txos_sources b l c1 b Hb') as [-> _]. eexists. split; [done|].
    cbn [req_addrs set_req_addrs set_txos c1]. rewrite dset_fresh, ddel_app_fresh, ddel_fresh by done. split; [done|].
    intros a. destruct (extend_txos_sources b l c1 a Hb') as [_ Hsrc]. cbn [addr_txos set_req_addrs set_txos] in *. rewrite Hsrc.
    rewrite usable_app, (Hall a). cbn [c1 addr_txos set_req_addrs]. rewrite Permutation_app_comm. f_equiv.
    cbn [at_address]. case_decide; [by rewrite usable_all|done].
  - eexists. split; [done|]. cbn [req_addrs addr_txos set_req_addrs]. rewrite Hr, !ddel_fresh by (by rewrite ?ddel_fresh). split; [done|].
    intros a. by rewrite (Hall a).
Qed.
End Conserved.

(** A client with two sources at one address, a fee of 3 for NYM and a pool that
    refuses. *)
Definition sample_fees_client : FeesClient := mkFees [("A", [("s1", 2); ("s2", 4)])] [].

Definition fees_loads (s : string) : res val :=
  if str_eqb s "nym" then Ok (VDict [("operation", VDict [("type", VStr "1")])])
  else if str_eqb s "refused" then Ok (VDict [("op", VStr "REQNACK")]) else Raise JSONDecodeError.

Definition with_fees (req : string) (_ : list string) (_ : list (string * Z)) : res string := Ok (req +:+ "+fees").

Lemma refused_fees_come_back_witness :
  let sign := ledger_sign_req fees_loads [("1", 3)] false with_fees (λ r, Ok (r +:+ "+signature")) "nym" sample_fees_client in
  sign = (Ok (Some "nym+fees+signature"), mkFees [("A", [("s1", 2)])] [("nym+fees+signature", ("A", [("s2", 4)]))]) ∧
  ∃ c2, parse_fees_resp fees_loads (λ _, Ok []) "nym+fees+signature" (Ok "refused") sign.2 = (Ok tt, c2) ∧
    req_addrs c2 = [] ∧ ∀ a, usable (sources (addr_txos c2) a) ≡ₚ usable (sources (addr_txos sample_fees_client) a).
Proof.
  cbv zeta. split; [by vm_compute|].
  refine (proj2 (refused_fees_come_back fees_loads [("1", 3)] false with_fees (λ r, Ok (r +:+ "+signature")) (λ _, Ok [])
    "nym" sample_fees_client "nym+fees+signature" _ "refused" [("op", VStr "REQNACK")] (VStr "REQNACK") (VStr "") _ _ _ _ _ _ _));
    try (by vm_compute). cbn. apply NoDup_singleton.
Defined.

(** The sources taken for a request are not put back when its signature fails: they are
    in no list any more. *)
Theorem failed_signature_loses_sources :
  ledger_sign_req fees_loads [("1", 3)] false with_fees (λ _, Raise (PyException "no key")) "nym" sample_fees_client =
    (Raise (PyException "no key"), mkFees [("A", [("s1", 2)])] []).
Proof. by vm_compute. Qed.

(** ** Properties: rules *)

(** The metadata of the roles are dictionaries. *)
Fixpoint has_metadata (c : constraint) : Prop :=
  match c with
  | AuthConstraintForbidden => True
  | AuthConstraint _ _ _ _ m => ∃ d, m = VDict d
  | AuthConstraintAnd cs | AuthConstraintOr cs => foldr (λ c P, has_metadata c ∧ P) True cs
  end.

Lemma update_children m cs :
  Forall (λ c, has_metadata c → update_constraint m (as_dict c) = Ok (as_dict (add_metadata m c))) cs →
  foldr (λ c P, has_metadata c ∧ P) True cs →
  res_mapM (update_constraint m) (map as_dict cs) = Ok (map as_dict (map (add_metadata m) cs)).
Proof.
  induction 1 as [|c cs Hc _ IH]; [done|]. intros [H1 H2]. cbn [map res_mapM].
  rewrite Hc by done. cbn [res_bind]. fold (res_mapM (update_constraint m)). by rewrite IH.
Qed.

Lemma update_as_dict m c : has_metadata c → update_constraint m (as_dict c) = Ok (as_dict (add_metadata m c)).
Proof.
  induction c as [|r s n o md|cs IH|cs IH] using constraint_ind'; intros Hc.
  - done.
  - destruct Hc as [d ->]. by destruct o.
  - pose proof (update_children m cs IH Hc) as H. cbn -[res_mapM]. by rewrite H.
  - pose proof (update_children m cs IH Hc) as H. cbn -[res_mapM]. by rewrite H.
Qed.

Lemma add_metadata_satisfies getRole m r author a c :
  satisfies getRole r author a (add_metadata m c) ↔ satisfies getRole r author a c.
Proof.
  induction c as [|ro s n o md|cs IH|cs IH] using constraint_ind'; [done|done| |];
    cbn [add_metadata satisfies]; induction IH as [|c cs Hc _ IHcs]; cbn [map foldr]; [done| |done|]; by rewrite Hc, IHcs.
Qed.

(** C30. The client that sets fees keeps the rules of the ledger: in the constraint of a
    rule as it is read from the ledger it adds entries to the metadata of the roles,
    anywhere in the tree, and changes nothing else, so that the constraint it sends is
    satisfied by the same requests. *)
Theorem fees_keep_rules m c :
  has_metadata c →
  update_constraint m (as_dict c) = Ok (as_dict (add_metadata m c)) ∧
  ∀ getRole r author a, satisfies getRole r author a (add_metadata m c) ↔ satisfies getRole r author a c.
Proof. intros Hc. split; [by apply update_as_dict|]. intros. apply add_metadata_satisfies. Qed.

Lemma fees_keep_rules_witness :
  update_constraint [("fees", VStr (create_alias "1"))]
    (as_dict (AuthConstraintOr [RoleConstraint (Some "0") 1 false; AuthConstraintForbidden])) =
  Ok (as_dict (AuthConstraintOr
    [AuthConstraint (Some "0") (VInt 1) (VBool false) VNone (VDict [("fees", VStr "1_fees_alias_prefix")]); AuthConstraintForbidden])).
Proof.
  apply (fees_keep_rules [("fees", VStr (create_alias "1"))] (AuthConstraintOr [RoleConstraint (Some "0") 1 false; AuthConstraintForbidden])).
  cbn. split; [by eexists|done].
Defined.
