(* ===== verification/LoadMint.v ===== *)
(** * The addresses of a client that pays fees

    The set-up of [LoadClientFees] in [scripts/performance/perf_load/perf_client_fees.py]:
    the fees of the pool are set and read once, addresses are made, sources are minted
    for them in parts, and what each address has is read.

    The payment library and the ledger are a class of operations; what the client makes of
    several of them has its laws in a class of its own, with an instance. *)
From S2P Require Import Prelude PyValue Plenum Constants AuthActions AuthConstraints Authorizer AuthorizerSpec StateDomain IdrCache HandlerBase Upgrader PoolUpgrade World LoadStat LoadFees.

(** ** Settings *)

Record MintSettings := mkMintSettings {
  payment_addrs_count : Z;
  mint_addrs_count : Z;
  addr_mint_limit : Z;
  mint_by : Z
}.

(** The settings of the constructor; [None] is an argument that is not given. *)
Definition new_MintSettings (payment_addrs mint_addrs limit by_val : option Z) : MintSettings :=
  let payment_addrs := default 100%Z payment_addrs in
  let mint_addrs := default payment_addrs mint_addrs in
  let limit := default 1000%Z limit in
  let by_val := default limit by_val in
  mkMintSettings payment_addrs (Z.min mint_addrs payment_addrs) limit
    (if (by_val <? 1)%Z || (limit <? by_val)%Z then limit else by_val).

(** [l[:n]] *)
Definition py_prefix {A} (n : Z) (l : list A) : list A :=
  take (Z.to_nat (if (n <? 0)%Z then Z.of_nat (length l) + n else n)) l.

(** ** Operations *)

Class PaymentPool (W : Type) := {
  create_payment_address : act W string;
  build_mint_req : list (string * Z) → act W string;
  append_acceptance : string → act W string;
  multi_sign_request : string → string → act W string;
  submit_request : string → act W string;
  build_get_payment_sources_request : string → act W string;
  sign_and_submit_request : string → act W string;
  payment_sources_of_response : string → act W (list txo);
  build_set_txn_fees_req : dict Z → act W string;
  build_get_txn_fees_req : act W string;
  txn_fees_of_response : string → act W (dict Z)
}.

Section Mint.
Context {W : Type} `{!PaymentPool W} (json_loads : string → res val) (trustee_dids : list string).

(** [for d in trustee_dids: req = multi_sign_request(wallet, d, req)] *)
Definition multisig_req (req : string) : act W string := act_fold (λ r d, multi_sign_request d r) req trustee_dids.

(** [__set_fees_once]: the fees that are kept for all clients, [pool_fees], are read when
    there are none. *)
Definition set_fees_once (pool_fees set_fees : dict Z) : act W (dict Z) :=
  match pool_fees with
  | _ :: _ => ret pool_fees
  | [] =>
      let? _ := match set_fees with
                | [] => ret tt
                | _ => let? fees_req := build_set_txn_fees_req set_fees in
                       let? fees_req := multisig_req fees_req in
                       let? fees_resp := submit_request fees_req in
                       lift (ensure_is_reply json_loads (VStr fees_resp))
                end in
      let? get_fees_req := build_get_txn_fees_req in
      let? get_fees_resp := sign_and_submit_request get_fees_req in
      let? fees_set := txn_fees_of_response get_fees_resp in
      ret (pool_fees_of fees_set)
  end.

Definition create_payment_addresses (addrs_cnt : Z) : act W (list string) :=
  act_mapM (λ _, create_payment_address) (seq 0 (Z.to_nat addrs_cnt)).

(** One round of [__mint_sources]: [mint_val] for each address. *)
Definition mint_round (payment_addresses : list string) (mint_val : Z) : act W unit :=
  let? mint_req := build_mint_req (map (λ a, (a, mint_val)) payment_addresses) in
  let? mint_req := append_acceptance mint_req in
  let? mint_req := multisig_req mint_req in
  let? mint_resp := submit_request mint_req in
  lift (ensure_is_reply json_loads (VStr mint_resp)).

Definition mint_for (payment_addresses : list string) (amount by_val : Z) : act W unit :=
  let? values := lift (mint_sources amount by_val) in
  each (mint_round payment_addresses) values.

Definition get_payment_sources (pmnt_addr : string) : act W (list txo) :=
  let? get_ps_req := build_get_payment_sources_request pmnt_addr in
  let? get_ps_resp := sign_and_submit_request get_ps_req in
  let? _ := lift (ensure_is_reply json_loads (VStr get_ps_resp)) in
  payment_sources_of_response get_ps_resp.

(** [_payment_address_init]: the new [_addr_txos]. *)
Definition payment_address_init (s : MintSettings) (addr_txos : dict (list txo)) : act W (dict (list txo)) :=
  let? pmt_addrs := create_payment_addresses (payment_addrs_count s) in
  let mint_addrs := py_prefix (mint_addrs_count s) pmt_addrs in
  let? _ := each (λ chunk, mint_for chunk (addr_mint_limit s) (mint_by s)) (divide_sequence_into_chunks mint_addrs 500) in
  act_fold (λ d pa, let? l := get_payment_sources pa in ret (dset pa l d)) addr_txos pmt_addrs.
End Mint.

(** ** Laws *)

(** [sources w]: what each address has.  A new address has nothing; minting adds one source
    of the value for each address. *)
Class MintLaws (W : Type) `{!PaymentPool W} (json_loads : string → res val) (trustee_dids : list string)
    (sources : W → gmap string (list txo)) := {
  address_law w : ∃ a w', create_payment_address w = (Ok a, w') ∧ sources w !! a = None ∧ sources w' = <[a := []]> (sources w);
  mint_law addrs v w : NoDup addrs → (∀ a, a ∈ addrs → is_Some (sources w !! a)) →
    ∃ w', mint_round json_loads trustee_dids addrs v w = (Ok tt, w') ∧
      ∀ a l, sources w !! a = Some l →
        if bool_decide (a ∈ addrs) then ∃ s, sources w' !! a = Some (l ++ [(s, v)]) else sources w' !! a = Some l;
  sources_law a l w : sources w !! a = Some l →
    ∃ w', get_payment_sources json_loads a w = (Ok l, w') ∧ sources w' = sources w
}.

(** ** Lemmas *)

Lemma concat_chunks {A} (l : list A) n : 0 < n → concat (divide_sequence_into_chunks l n) = l.
Proof.
  intros Hn. unfold divide_sequence_into_chunks.
  assert (∀ k, concat (map (λ i, take n (drop (i * n) l)) (seq 0 k)) = take (k * n) l) as ->.
  { induction k as [|k IH]; [done|]. rewrite seq_S, map_app, concat_app, IH. cbn [map concat Nat.add]. rewrite app_nil_r.
    rewrite take_take_drop. f_equal. lia. }
  apply take_ge. pose proof (Nat.div_mod (length l + n - 1) n ltac:(lia)) as H.
  pose proof (Nat.mod_upper_bound (length l + n - 1) n ltac:(lia)). lia.
Qed.

Section Facts.
Context {W : Type} {HP : PaymentPool W} {json_loads : string → res val} {trustee_dids : list string}
  {sources : W → gmap string (list txo)} {HL : MintLaws W json_loads trustee_dids sources}.

(** What each address has more: a source for each value if it is one of [addrs]. *)
Definition more (addrs : list string) (values : list Z) (w w' : W) : Prop :=
  ∀ a l, sources w !! a = Some l →
    if bool_decide (a ∈ addrs) then ∃ l', sources w' !! a = Some (l ++ l') ∧ map snd l' = values
    else sources w' !! a = Some l.

Lemma more_some addrs values w w' a : more addrs values w w' → is_Some (sources w !! a) → is_Some (sources w' !! a).
Proof. intros H [l Hl]. specialize (H a l Hl). case_bool_decide; [destruct H as (l' & -> & _)|rewrite H]; by eexists. Qed.

Lemma rounds_run addrs values w :
  NoDup addrs → (∀ a, a ∈ addrs → is_Some (sources w !! a)) →
  ∃ w', each (mint_round json_loads trustee_dids addrs) values w = (Ok tt, w') ∧ more addrs values w w'.
Proof.
  intros Hnd. revert w. induction values as [|v values IH]; intros w Hin.
  - exists w. split; [done|]. intros a l Ha. case_bool_decide; [|done]. exists []. by rewrite app_nil_r.
  - destruct (mint_law addrs v w Hnd Hin) as (w1 & H1 & Hs1). cbn [each]. unfold act_bind. rewrite H1.
    destruct (IH w1) as (w' & H & Hm).
    { intros a Ha. destruct (Hin a Ha) as [l Hl]. specialize (Hs1 a l Hl). rewrite bool_decide_eq_true_2 in Hs1 by done.
      destruct Hs1 as [s ->]. by eexists. }
    exists w'. split; [done|]. intros a l Ha. specialize (Hs1 a l Ha). case_bool_decide as Hd.
    + destruct Hs1 as [s Hs]. specialize (Hm a _ Hs). rewrite bool_decide_eq_true_2 in Hm by done. destruct Hm as (l' & Hl' & Hv).
      exists ((s, v) :: l'). rewrite Hl', <-app_assoc. split; [done|]. cbn. by rewrite Hv.
    + specialize (Hm a _ Hs1). by rewrite bool_decide_eq_false_2 in Hm.
Qed.

Lemma chunks_run chunks amount by_val values w :
  mint_sources amount by_val = Ok values → NoDup (concat chunks) →
  (∀ a, a ∈ concat chunks → is_Some (sources w !! a)) →
  ∃ w', each (λ c, mint_for json_loads trustee_dids c amount by_val) chunks w = (Ok tt, w') ∧ more (concat chunks) values w w'.
Proof.
  intros Hv. revert w. induction chunks as [|c chunks IH]; intros w Hnd Hin; [exists w; split; [done|by intros a l Ha]|].
  cbn [concat] in *. apply NoDup_app in Hnd as (Hc & Hdis & Hrest).
  destruct (rounds_run c values w Hc) as (w1 & H1 & Hm1); [intros a Ha; apply Hin, elem_of_app; by left|].
  destruct (IH w1 Hrest) as (w' & H & Hm); [intros a Ha; apply (more_some _ _ _ _ _ Hm1), Hin, elem_of_app; by right|].
  exists w'. split; [cbn [each]; unfold act_bind at 1, mint_for at 1, act_bind at 1, lift; by rewrite Hv, H1|].
  intros a l Ha. specialize (Hm1 a l Ha). destruct (decide (a ∈ c)) as [Hac|Hac].
  - rewrite (bool_decide_eq_true_2 (a ∈ c ++ concat chunks)) by (apply elem_of_app; auto). rewrite bool_decide_eq_true_2 in Hm1 by done.
    destruct Hm1 as (l' & Hl' & Hvs). specialize (Hm a _ Hl'). rewrite bool_decide_eq_false_2 in Hm by (by apply Hdis). by exists l'.
  - rewrite bool_decide_eq_false_2 in Hm1 by done. specialize (Hm a l Hm1).
    rewrite (bool_decide_ext (a ∈ c ++ concat chunks) (a ∈ concat chunks)); [done|]. rewrite elem_of_app. tauto.
Qed.

Lemma addresses_run n w :
  ∃ addrs w', act_mapM (λ _ : nat, create_payment_address) (seq 0 n) w = (Ok addrs, w') ∧ length addrs = n ∧ NoDup addrs ∧
    (∀ a, a ∈ addrs → sources w !! a = None ∧ sources w' !! a = Some []) ∧
    (∀ a l, sources w !! a = Some l → sources w' !! a = Some l).
Proof.
  generalize 0 as k. revert w. induction n as [|n IH]; intros w k.
  - exists [], w. split; [done|]. split; [done|]. split; [constructor|]. split; [by intros a Ha%elem_of_nil|done].
  - destruct (address_law w) as (a & w1 & H1 & Hno & Hs1). destruct (IH w1 (S k)) as (addrs & w' & H & Hlen & Hnd & Hin & Hold).
    exists (a :: addrs), w'. split; [cbn [seq act_mapM]; unfold act_bind at 1; rewrite H1; unfold act_bind; by rewrite H|].
    split; [cbn; lia|]. split.
    + constructor; [|done]. intros Ha. destruct (Hin a Ha) as [Hc _]. by rewrite Hs1, lookup_insert_eq in Hc.
    + assert (∀ b l, sources w !! b = Some l → sources w1 !! b = Some l) as Hkeep.
      { intros b l Hb. rewrite Hs1, lookup_insert_ne; [done|]. congruence. }
      split; [|by intros b l Hb%Hkeep%Hold]. intros b [->|Hb]%elem_of_cons.
      * split; [done|]. apply Hold. by rewrite Hs1, lookup_insert_eq.
      * destruct (Hin b Hb) as [H2 H3]. split; [|done]. destruct (sources w !! b) as [l|] eqn:E; [|done].
        by rewrite (Hkeep b l E) in H2.
Qed.

(** Reading what the addresses have. *)
Lemma read_run addrs w d :
  (∀ a, a ∈ addrs → is_Some (sources w !! a)) →
  ∃ w', act_fold (λ d pa, let? l := get_payment_sources json_loads pa in ret (dset pa l d)) d addrs w
    = (Ok (foldl (λ d a, dset a (default [] (sources w !! a)) d) d addrs), w').
Proof.
  revert d w. induction addrs as [|a addrs IH]; intros d w Hin; [by exists w|]. cbn [act_fold foldl].
  destruct (Hin a (list_elem_of_here _ _)) as [l Hl]. destruct (sources_law a l w Hl) as (w1 & H1 & Hs1).
  unfold act_bind at 1 2. rewrite H1. cbn [ret]. rewrite Hl. cbn [default from_option id].
  destruct (IH (dset a l d) w1) as (w' & H); [intros b Hb; rewrite Hs1; apply Hin; by right|].
  rewrite Hs1 in H. by exists w'.
Qed.

Lemma dget_fold_dset {A} (f : string → A) addrs d k :
  dget k (foldl (λ d a, dset a (f a) d) d addrs) = if bool_decide (k ∈ addrs) then Some (f k) else dget k d.
Proof.
  revert d. induction addrs as [|a addrs IH]; intros d; [done|]. cbn [foldl]. rewrite IH. destruct (decide (k = a)) as [->|Hk].
  - rewrite dget_dset_eq, (bool_decide_eq_true_2 (a ∈ a :: addrs)) by apply list_elem_of_here. by case_bool_decide.
  - rewrite dget_dset_ne by congruence. rewrite (bool_decide_ext (k ∈ a :: addrs) (k ∈ addrs)); [done|].
    split; [by intros [->|?]%elem_of_cons|by apply list_elem_of_further].
Qed.

(** ** Properties *)

(** The set-up makes the addresses, and its client knows for each what it has: those that
    are minted for have the limit, in parts of at most the value asked for, and the others
    nothing. *)
Theorem addresses_minted payment_addrs mint_addrs limit by_val w :
  let s := new_MintSettings payment_addrs mint_addrs limit by_val in
  (0 < addr_mint_limit s)%Z → (0 ≤ mint_addrs_count s ≤ payment_addrs_count s)%Z →
  ∃ txos w' addrs, payment_address_init json_loads trustee_dids s [] w = (Ok txos, w') ∧
    length addrs = Z.to_nat (payment_addrs_count s) ∧ NoDup addrs ∧
    (∀ a, dget a txos = None ↔ a ∉ addrs) ∧
    (∀ i a, addrs !! i = Some a → ∃ l, dget a txos = Some l ∧
      if (i <? Z.to_nat (mint_addrs_count s))
      then zsum (map snd l) = addr_mint_limit s ∧ Forall (λ t, 0 < t.2 ≤ mint_by s)%Z l
      else l = []).
Proof.
  intros s Hlim Hcount.
  assert (0 < mint_by s)%Z as Hby.
  { subst s. unfold new_MintSettings in *. cbn [mint_by addr_mint_limit] in *.
    destruct (Z.ltb_spec (default (default 1000 limit)%Z by_val) 1); cbn [orb]; [done|]. destruct (_ <? _)%Z; lia. }
  destruct (minted_in_full (addr_mint_limit s) (mint_by s) Hby ltac:(lia)) as (values & Hv & Hsum & Hval).
  destruct (addresses_run (Z.to_nat (payment_addrs_count s)) w) as (addrs & w1 & H1 & Hlen & Hnd & Hin & _).
  assert (py_prefix (mint_addrs_count s) addrs = take (Z.to_nat (mint_addrs_count s)) addrs) as Hpre.
  { unfold py_prefix. by rewrite (proj2 (Z.ltb_ge _ _)) by lia. }
  set (minted := take (Z.to_nat (mint_addrs_count s)) addrs) in *.
  assert (∀ a, a ∈ minted → a ∈ addrs) as Hsub by (intros a; apply (subseteq_take _ addrs)).
  pose proof (concat_chunks minted 500 ltac:(lia)) as Hcc.
  destruct (chunks_run (divide_sequence_into_chunks minted 500) (addr_mint_limit s) (mint_by s) values w1 Hv) as (w2 & H2 & Hm).
  { rewrite Hcc. eapply sublist_NoDup; [done|apply sublist_take]. }
  { rewrite Hcc. intros a Ha. destruct (Hin a (Hsub a Ha)) as [_ ->]. by eexists. }
  rewrite Hcc in Hm.
  destruct (read_run addrs w2 []) as (w3 & H3).
  { intros a Ha. apply (more_some _ _ _ _ _ Hm). destruct (Hin a Ha) as [_ ->]. by eexists. }
  eexists _, w3, addrs. split; [|split; [done|split; [done|split]]].
  - unfold payment_address_init, create_payment_addresses. unfold act_bind at 1. rewrite H1. unfold act_bind at 1. rewrite Hpre, H2. exact H3.
  - intros a. rewrite dget_fold_dset. by case_bool_decide.
  - intros i a Hi. assert (a ∈ addrs) as Ha by by eapply list_elem_of_lookup_2.
    exists (default [] (sources w2 !! a)). split; [by rewrite dget_fold_dset, bool_decide_eq_true_2|].
    destruct (Hin a Ha) as [_ Ha1]. specialize (Hm a [] Ha1).
    destruct (Nat.ltb_spec i (Z.to_nat (mint_addrs_count s))) as [Hlt|Hge].
    + rewrite bool_decide_eq_true_2 in Hm by (apply (list_elem_of_lookup_2 _ i); unfold minted; by rewrite lookup_take_lt).
      destruct Hm as (l' & -> & Hvs). cbn [app default from_option id]. rewrite Hvs. split; [done|].
      rewrite <-Hvs in Hval. by apply Forall_map in Hval.
    + rewrite bool_decide_eq_false_2 in Hm; [by rewrite Hm|]. intros Hma. apply list_elem_of_lookup in Hma as [j Hj].
      apply lookup_take_Some in Hj as [Hj Hlt]. assert (i = j) by (by eapply NoDup_lookup). lia.
Qed.
End Facts.

(** ** A pool with payments *)

(** What each address has, the outputs of the request that is being made, and the address
    that is asked for. *)
Record Purse := mkPurse {
  p_sources : gmap string (list txo);
  p_outputs : list (string * Z);
  p_asked : string
}.

Definition mint_output (m : gmap string (list txo)) (o : string * Z) : gmap string (list txo) :=
  alter (λ l, l ++ [(pretty (length l), o.2)]) o.1 m.

#[export] Instance purse_pool : PaymentPool Purse := {
  create_payment_address := λ w, let a := fresh (dom (p_sources w)) in (Ok a, mkPurse (<[a := []]> (p_sources w)) (p_outputs w) (p_asked w));
  build_mint_req outputs := λ w, (Ok "mint", mkPurse (p_sources w) outputs (p_asked w));
  append_acceptance req := ret req;
  multi_sign_request _ req := ret req;
  submit_request req := λ w, (Ok "reply", mkPurse (foldl mint_output (p_sources w) (p_outputs w)) [] (p_asked w));
  build_get_payment_sources_request a := λ w, (Ok "get", mkPurse (p_sources w) (p_outputs w) a);
  sign_and_submit_request _ := ret "reply";
  payment_sources_of_response _ := λ w, (Ok (default [] (p_sources w !! p_asked w)), w);
  build_set_txn_fees_req _ := ret "fees";
  build_get_txn_fees_req := ret "fees";
  txn_fees_of_response _ := ret []
}.

Definition reply_ok (_ : string) : res val := Ok (VDict [("op", VStr "REPLY")]).

Lemma multisig_purse trustees req w : multisig_req (W := Purse) trustees req w = (Ok req, w).
Proof. unfold multisig_req. induction trustees as [|d l IH]; [done|exact IH]. Qed.

Lemma mint_outputs_spec addrs v m a l :
  NoDup addrs → m !! a = Some l →
  if bool_decide (a ∈ addrs) then ∃ s, foldl mint_output m (map (λ a, (a, v)) addrs) !! a = Some (l ++ [(s, v)])
  else foldl mint_output m (map (λ a, (a, v)) addrs) !! a = Some l.
Proof.
  intros Hnd. revert m l. induction Hnd as [|b addrs Hb _ IH]; intros m l Ha; [done|]. cbn [map foldl].
  unfold mint_output at 2 4. cbn [fst snd]. destruct (decide (a = b)) as [->|Hab].
  - rewrite bool_decide_eq_true_2 by apply list_elem_of_here.
    specialize (IH (alter (λ l, l ++ [(pretty (length l), v)]) b m) (l ++ [(pretty (length l), v)])).
    rewrite lookup_alter_eq, Ha in IH. specialize (IH eq_refl). rewrite bool_decide_eq_false_2 in IH by done. by eexists.
  - specialize (IH (alter (λ l, l ++ [(pretty (length l), v)]) b m) l). rewrite lookup_alter_ne in IH by congruence.
    rewrite (bool_decide_ext (a ∈ b :: addrs) (a ∈ addrs)); [by apply IH|].
    split; [by intros [->|?]%elem_of_cons|by apply list_elem_of_further].
Qed.

#[export] Instance purse_laws trustees : MintLaws Purse reply_ok trustees p_sources.
Proof.
  constructor.
  - intros w. eexists _, _. split; [reflexivity|]. split; [apply not_elem_of_dom, is_fresh|done].
  - intros addrs v w Hnd _. eexists. split.
    + unfold mint_round, act_bind. cbn [build_mint_req append_acceptance purse_pool ret]. rewrite multisig_purse. reflexivity.
    + intros a l Ha. by apply mint_outputs_spec.
  - intros a l w Ha. exists (mkPurse (p_sources w) (p_outputs w) a). split; [|done].
    unfold get_payment_sources, act_bind, lift. cbn. by rewrite Ha.
Qed.

(** Three addresses, two of them minted for in parts of 400. *)
Lemma addresses_minted_witness :
  ∃ txos w' addrs, payment_address_init reply_ok ["T1"] (new_MintSettings (Some 3) (Some 2) (Some 1000) (Some 400))%Z [] (mkPurse ∅ [] "")
    = (Ok txos, w') ∧ length addrs = 3 ∧
    (∀ i a, addrs !! i = Some a → ∃ l, dget a txos = Some l ∧
      if (i <? 2) then zsum (map snd l) = 1000%Z ∧ Forall (λ t, 0 < t.2 ≤ 400)%Z l else l = []).
Proof.
  destruct (addresses_minted (json_loads := reply_ok) (trustee_dids := ["T1"]) (sources := p_sources)
    (Some 3%Z) (Some 2%Z) (Some 1000%Z) (Some 400%Z) (mkPurse ∅ [] "") ltac:(done) ltac:(done))
    as (txos & w' & addrs & H & Hl & _ & _ & Hs).
  exists txos, w', addrs. split; [exact H|]. split; [exact Hl|exact Hs].
Defined.

(** Without a limit there is nothing to divide by. *)
Example no_limit_raises :
  (payment_address_init reply_ok ["T1"] (new_MintSettings (Some 1) None (Some 0) None)%Z [] (mkPurse ∅ [] "")).1
  = Raise (PyException "ZeroDivisionError").
Proof. by vm_compute. Qed.
