(* ===== verification/LoadSetup.v ===== *)
(** * The set-up of a client of the load generation

    The part of [LoadClient] in [scripts/performance/perf_load/perf_client.py] that runs
    before any load: the authors become trustees, the author agreement of the ledger is
    brought to the one the test uses, and the authorization rules get the metadata of
    the fees.

    The wallet and the pool are a class of operations: what each request is answered
    with, as the text of the reply.  [json.loads] is an argument.  Loops that wait for
    the ledger have fuel. *)
From S2P Require Import Prelude PyValue Plenum Constants AuthActions AuthConstraints Authorizer AuthorizerSpec StateDomain IdrCache HandlerBase Upgrader PoolUpgrade World LoadStat LoadFees.

(** A rule as it is sent. *)
Record RuleRequest := mkRuleRequest {
  rq_type : val;
  rq_action : val;
  rq_field : val;
  rq_old_value : val;
  rq_new_value : val;
  rq_constraint : val
}.

(** [create_did] makes the DID and key of a seed; the [submit] operations return the text
    of the reply. *)
Class Pool (W : Type) := {
  create_did : string → act W (string * string);
  submit_get_nym : string → act W string;
  submit_trustee_nym : string → string → string → act W unit;
  submit_get_taa : option string → act W string;
  submit_taa : string → string → act W unit;
  submit_disable_taa : act W unit;
  submit_get_aml : act W string;
  submit_aml : act W unit;
  submit_get_auth_rules : act W string;
  submit_auth_rule : RuleRequest → act W string
}.

Definition TRUSTEE_ROLE_CODE : string := "0".
Definition TestAcceptanceMechanism : string := "test".

(** The attributes of the client that the set-up fills in, with the world it acts on. *)
Record Setup (W : Type) := mkSetup {
  world : W;
  trustee_dids : list string;
  test_did : string;
  test_verk : string;
  taa_text : option string;
  taa_version : option string;
  taa_time : val
}.
Arguments mkSetup {W}.
Arguments world {W}.
Arguments trustee_dids {W}.
Arguments test_did {W}.
Arguments test_verk {W}.
Arguments taa_text {W}.
Arguments taa_version {W}.
Arguments taa_time {W}.

Section Setup.
Context {W : Type} `{!Pool W} (json_loads : string → res val).
Abbreviation M := (act (Setup W)).

Definition set_world (w : W) (c : Setup W) : Setup W :=
  mkSetup w (trustee_dids c) (test_did c) (test_verk c) (taa_text c) (taa_version c) (taa_time c).
Definition add_trustee (did : string) (c : Setup W) : Setup W :=
  mkSetup (world c) (trustee_dids c ++ [did]) (test_did c) (test_verk c) (taa_text c) (taa_version c) (taa_time c).
Definition set_author (did verk : string) (c : Setup W) : Setup W :=
  mkSetup (world c) (trustee_dids c) did verk (taa_text c) (taa_version c) (taa_time c).
Definition set_taa (text version : option string) (time : val) (c : Setup W) : Setup W :=
  mkSetup (world c) (trustee_dids c) (test_did c) (test_verk c) text version time.

(** A call of the wallet or the pool. *)
Definition call {A : Type} (f : act W A) : M A := λ c, let '(r, w) := f (world c) in (r, set_world w c).

(** [v[k]] of a value. *)
Definition item (k : string) (v : val) : res val :=
  match v with VDict d => dgetitem k d | _ => Raise (TypeError "indices must be integers") end.

(** ** Authors *)

(** What [_is_trustee] makes of the reply: [None] for a DID that is not on the ledger. *)
Definition trustee_of_reply (reply : string) : res (option bool) :=
  let! obj := json_loads reply in
  let! _ := ensure_is_reply json_loads obj in
  let! result := item "result" obj in
  let! data := val_get "data" VNone result in
  match data with
  | VNone => Ok None
  | VStr s => let! res_data := json_loads s in
              let! role := item "role" res_data in Ok (Some (py_eq role (VStr TRUSTEE_ROLE_CODE)))
  | _ => Raise (TypeError "the JSON object must be str")
  end.

Definition is_trustee (did : string) : M (option bool) :=
  let? reply := call (submit_get_nym did) in lift (trustee_of_reply reply).

Fixpoint ensure_trustee (fuel : nat) (did : string) : M unit :=
  match fuel with
  | O => raise OutOfFuel
  | S fuel' =>
      let? b := is_trustee did in
      match b with
      | Some true => modify (add_trustee did)
      | Some false => raise (PyException "Submitter role must be TRUSTEE")
      | None => λ c,
          match trustee_dids c with
          | [] => (Raise (PyException "Cannot create new trustees without initial one"), c)
          | t :: _ => (let? _ := call (submit_trustee_nym t (test_did c) (test_verk c)) in ensure_trustee fuel' did) c
          end
      end
  end.

(** ** The author agreement *)

(** [_get_taa]: text, version and time of an agreement, empty texts when there is none. *)
Definition taa_of_reply (reply : string) : res (val * val * val) :=
  let! _ := ensure_is_reply json_loads (VStr reply) in
  let! obj := json_loads reply in
  let! result := item "result" obj in
  let! data := item "data" result in
  match data with
  | VNone => Ok (VStr "", VStr "", VNone)
  | _ => let! t := item "text" data in
         let! v := item "version" data in
         let! ts := item "ratification_ts" data in Ok (t, v, ts)
  end.

Definition get_taa (version : option string) : M (val * val * val) :=
  let? reply := call (submit_get_taa (match version with Some v => if str_truth v then Some v else None | None => None end)) in
  lift (taa_of_reply reply).

(** Whether the mechanism of the test is in the list of the ledger, and whether there is a
    list at all. *)
Definition aml_of_reply (reply : string) : res (bool * bool) :=
  let! _ := ensure_is_reply json_loads (VStr reply) in
  let! obj := json_loads reply in
  let! result := item "result" obj in
  let! data := item "data" result in
  let! aml := if py_truth data then val_get "aml" (VDict []) data else Ok (VDict []) in
  let has := match aml with
             | VDict d => Ok (dhas TestAcceptanceMechanism d)
             | VList l => Ok (existsb (py_eq (VStr TestAcceptanceMechanism)) l)
             | VStr s => Ok (py_in_str TestAcceptanceMechanism s)
             | _ => Raise (TypeError "argument is not iterable")
             end in
  let! h := has in
  Ok (h, match data with VNone => false | _ => true end).

Fixpoint taa_aml_init (fuel : nat) : M unit :=
  match fuel with
  | O => raise OutOfFuel
  | S fuel' =>
      let? reply := call submit_get_aml in
      let? hp := lift (aml_of_reply reply) in
      if hp.1 then ret tt
      else if hp.2 then raise (PyException "There is already incompatible TAA AML written to ledger")
      else let? _ := call submit_aml in taa_aml_init fuel'
  end.

(** [current_time + 1] *)
Definition one_later (t : val) : res val := let! z := py_num t in Ok (VInt (z + 1)).

Fixpoint taa_loop (fuel : nat) (text version : string) : M unit :=
  match fuel with
  | O => raise OutOfFuel
  | S fuel' =>
      let? cur := get_taa None in
      let '(current_text, current_version, current_time) := cur in
      if str_eqb text "" && py_eq current_text (VStr "")
      then modify (λ c, set_taa (Some "") (taa_version c) (taa_time c) c)
      else if py_eq current_text (VStr text) && py_eq current_version (VStr version)
      then λ c,
        (* the text and the version are set before the time is read *)
        let c' := set_taa (Some text) (Some version) (taa_time c) c in
        match one_later current_time with
        | Ok t => (Ok tt, set_taa (Some text) (Some version) t c')
        | Raise e => (Raise e, c')
        end
      else
        let? exp := get_taa (Some version) in
        let '(expected_text, expected_version, _) := exp in
        if negb (py_eq expected_text (VStr text)) && py_eq expected_version (VStr version)
        then raise (PyException "Ledger already contains different TAA with same version ")
        else let? _ := if negb (str_eqb text "") then call (submit_taa text version) else call submit_disable_taa in
             taa_loop fuel' text version
  end.

Definition taa_init (fuel : nat) (text version : string) : M unit :=
  let? _ := if negb (str_eqb text "") then taa_aml_init fuel else ret tt in taa_loop fuel text version.

(** [_did_init] *)
Definition did_init (fuel : nat) (req_num_of_trustees : nat) (seed : list string) (text version : string) : M unit :=
  if length (remove_dups seed) <? req_num_of_trustees
  then raise (PyException "Number of trustee seeds must be eq to the number of trustees")
  else if negb (length (remove_dups seed) =? length seed) then raise (PyException "Duplicated seeds not allowed")
  else each (λ s,
    let? dv := call (create_did s) in
    let? _ := modify (set_author dv.1 dv.2) in
    let? _ := ensure_trustee fuel dv.1 in
    λ c, match taa_text c with None => taa_init fuel text version c | Some _ => (Ok tt, c) end) seed.

(** ** The authorization rules *)

(** The rule that is sent for one that was read; the constraint gets the metadata of its
    type. *)
Definition rule_request (metadata : dict (dict val)) (auth_rule : val) : res RuleRequest :=
  let! ty := item "auth_type" auth_rule in
  let! addition := match ty with
                   | VStr t => Ok (dget t metadata)
                   | VList _ | VDict _ => Raise (TypeError "unhashable type")
                   | _ => Ok None
                   end in
  let! constraint := match addition with
                     | Some (_ :: _ as m) => let! c := item "constraint" auth_rule in update_constraint m c
                     | _ => Ok VNone
                     end in
  let! action := item "auth_action" auth_rule in
  let! field := item "field" auth_rule in
  let! old := val_get "old_value" VNone auth_rule in
  let! new := val_get "new_value" VNone auth_rule in
  let! c := match addition with Some (_ :: _) => Ok constraint | _ => item "constraint" auth_rule end in
  Ok (mkRuleRequest ty action field old new c).

Definition set_rule (metadata : dict (dict val)) (auth_rule : val) : M unit :=
  let? rq := lift (rule_request metadata auth_rule) in
  let? reply := call (submit_auth_rule rq) in
  lift (ensure_is_reply json_loads (VStr reply)).

(** [_pool_auth_rules_init] *)
Definition pool_auth_rules_init (set_auth_rule : bool) (metadata : dict (dict val)) : M unit :=
  if negb set_auth_rule then ret tt else
  let? reply := call submit_get_auth_rules in
  let? _ := lift (ensure_is_reply json_loads (VStr reply)) in
  let? data := lift (let! obj := json_loads reply in
                     let! result := item "result" obj in val_get "data" (VList []) result) in
  if negb (py_truth data) then ret tt else
  match data with
  | VList rules => each (set_rule metadata) rules
  | VDict d => each (set_rule metadata) (map VStr (dkeys d))
  | VStr _ => raise (TypeError "string indices must be integers")
  | _ => raise (TypeError "object is not iterable")
  end.

(** ** Requests and the start *)

(** [append_taa_acceptance]: [append] adds the acceptance of an agreement to a request. *)
Definition append_taa_acceptance (append : string → option string → option string → string → val → res string)
    (c : Setup W) (req : string) : res string :=
  if bool_decide (taa_text c = Some "") then Ok req else
  let! obj := json_loads req in
  let! operation := item "operation" obj in
  let! ty := item "type" operation in
  if existsb (py_eq ty) [VStr "10001"; VStr "0"] then Ok req
  else append req (taa_text c) (taa_version c) TestAcceptanceMechanism (taa_time c).

(** [run_test]: whether the client is ready.  [open_pool] opens the pool and the wallet,
    [on_pool_create] is the generator's set-up and [pregen] prepares requests. *)
Definition run_test (open_pool on_pool_create pregen : M unit) (fuel num : nat) (seed : list string)
    (text version : string) (set_auth_rule : bool) (metadata : dict (dict val)) : M bool :=
  let? ok := catch
    (let? _ := open_pool in
     let? _ := did_init fuel num seed text version in
     let? _ := pool_auth_rules_init set_auth_rule metadata in
     let? _ := on_pool_create in
     ret true) (λ _, ret false) in
  if negb ok then ret false else
  let? _ := pregen in ret true.
End Setup.

(** ** Lemmas *)

Section SetupFacts.
Context {W : Type} `{!Pool W} (json_loads : string → res val).
Implicit Types c : Setup W.

Lemma call_attributes {A : Type} (f : act W A) c :
  trustee_dids (call f c).2 = trustee_dids c ∧ test_did (call f c).2 = test_did c ∧ taa_text (call f c).2 = taa_text c.
Proof. unfold call. by destruct (f (world c)). Qed.

(** An author is taken only after the ledger said that it is a trustee. *)
Lemma ensure_trustee_Ok fuel did : ∀ c u c',
  ensure_trustee json_loads fuel did c = (Ok u, c') →
  trustee_dids c' = trustee_dids c ++ [did] ∧ taa_text c' = taa_text c ∧
  ∃ w reply w', submit_get_nym did w = (Ok reply, w') ∧ trustee_of_reply json_loads reply = Ok (Some true) ∧ world c' = w'.
Proof.
  induction fuel as [|fuel IH]; intros c u c' H; cbn [ensure_trustee] in H; [done|]. unfold act_bind in H at 1. unfold is_trustee, act_bind at 1, call at 1 in H.
  destruct (submit_get_nym did (world c)) as [[reply|] w] eqn:E; [|done]. cbn in H.
  destruct (trustee_of_reply json_loads reply) as [[[]|]|] eqn:Er; [| |cbn in H|].
  - injection H as _ <-. split; [done|]. split; [done|]. by exists (world c), reply, w.
  - done.
  - cbn in H. destruct (trustee_dids c) as [|t l] eqn:Et; [done|]. unfold act_bind in H.
    match type of H with context [call ?f ?x] => pose proof (call_attributes f x) as (H1 & _ & H3); destruct (call f x) as [[v|] c1] end; [|done].
    cbn in H1, H3. destruct (IH _ _ _ H) as (Ha & Hb & Hc). rewrite Ha, H1, Et. split; [done|]. split; [congruence|done].
  - done.
Qed.

Lemma taa_init_dids fuel text version c : trustee_dids (taa_init json_loads fuel text version c).2 = trustee_dids c.
Proof.
  enough (frames (λ c c' : Setup W, trustee_dids c' = trustee_dids c) (taa_init json_loads fuel text version)) as H by apply H.
  assert (PreOrder (λ c c' : Setup W, trustee_dids c' = trustee_dids c)) as P by (split; [by intros x|by intros x y z -> ->]).
  assert (∀ (A : Type) (f : act W A), frames (λ c c' : Setup W, trustee_dids c' = trustee_dids c) (call f)) as Hcall
    by (intros A f x; apply call_attributes).
  assert (∀ v, frames (λ c c' : Setup W, trustee_dids c' = trustee_dids c) (get_taa json_loads v)) as Hget.
  { intros v. apply frames_bind; [done|apply Hcall|]. intros r. by intros x. }
  unfold taa_init. apply frames_bind; [done| |intros _].
  - destruct (negb _); [|by intros x]. induction fuel as [|fuel IH]; [by intros x|]. cbn [taa_aml_init].
    apply frames_bind; [done|apply Hcall|]. intros reply. apply frames_bind; [done|by intros x|]. intros [[] []]; cbn; [by intros x..|].
    apply frames_bind; [done|apply Hcall|]. by intros _.
  - induction fuel as [|fuel IH]; [by intros x|]. cbn [taa_loop]. apply frames_bind; [done|apply Hget|]. intros [[t v] ts].
    destruct (_ && _); [by intros x|]. destruct (_ && _); [intros x; cbn; by destruct (one_later ts)|].
    apply frames_bind; [done|apply Hget|]. intros [[t' v'] ts']. destruct (_ && _); [by intros x|].
    apply frames_bind; [done|destruct (negb _); apply Hcall|]. by intros _.
Qed.

Lemma remove_dups_length (l : list string) : length (remove_dups l) ≤ length l.
Proof. induction l as [|x l IH]; [done|]. cbn [remove_dups]. case_decide; cbn; lia. Qed.

Lemma remove_dups_same (l : list string) : length (remove_dups l) = length l → NoDup l.
Proof.
  induction l as [|x l IH]; [constructor|]. cbn [remove_dups]. pose proof (remove_dups_length l). case_decide as Hx; cbn; intros Hl; [lia|].
  constructor; [done|]. apply IH. lia.
Qed.

(** What the ledger answered about an author. *)
Definition known_trustee (did : string) : Prop :=
  ∃ w reply, (submit_get_nym did w).1 = Ok reply ∧ trustee_of_reply json_loads reply = Ok (Some true).

Lemma authors_loop fuel text version seed : ∀ c u c',
  each (λ s,
    let? dv := call (create_did s) in
    let? _ := modify (set_author dv.1 dv.2) in
    let? _ := ensure_trustee json_loads fuel dv.1 in
    λ c, match taa_text c with None => taa_init json_loads fuel text version c | Some _ => (Ok tt, c) end) seed c = (Ok u, c') →
  ∃ dids, trustee_dids c' = trustee_dids c ++ dids ∧ length dids = length seed ∧ Forall known_trustee dids.
Proof.
  induction seed as [|s seed IH]; intros c u c' Hrun; cbn [each] in Hrun.
  { injection Hrun as _ <-. exists []. by rewrite app_nil_r. }
  unfold act_bind at 1 in Hrun. unfold act_bind at 1 in Hrun. pose proof (call_attributes (create_did s) c) as (H1 & _ & _).
  destruct (call (create_did s) c) as [[[did verk]|] c1]; [|done]. cbn [snd] in H1.
  unfold act_bind at 1 in Hrun. cbn [modify fst snd] in Hrun. unfold act_bind at 1 in Hrun.
  destruct (ensure_trustee json_loads fuel did (set_author did verk c1)) as [[v|] c2] eqn:E2; [|done].
  apply ensure_trustee_Ok in E2 as (H2 & _ & w & reply & w' & Hq & Hr & _). cbn in H2.
  assert (∃ c3, trustee_dids c3 = trustee_dids c2 ∧
    each (λ s,
      let? dv := call (create_did s) in
      let? _ := modify (set_author dv.1 dv.2) in
      let? _ := ensure_trustee json_loads fuel dv.1 in
      λ c, match taa_text c with None => taa_init json_loads fuel text version c | Some _ => (Ok tt, c) end) seed c3 = (Ok u, c')) as (c3 & H3 & Hrun').
  { destruct (taa_text c2); [by exists c2|]. pose proof (taa_init_dids fuel text version c2) as H3.
    destruct (taa_init json_loads fuel text version c2) as [[x|] c3]; [|done]. by exists c3. }
  destruct (IH _ _ _ Hrun') as (dids & Hd & Hl & Hall). exists (did :: dids).
  split; [rewrite Hd, H3, H2, H1; by rewrite <-app_assoc|]. split; [cbn; lia|]. constructor; [|done].
  exists w, reply. by rewrite Hq.
Qed.

Lemma auth_rules_dids b metadata c : trustee_dids (pool_auth_rules_init json_loads b metadata c).2 = trustee_dids c.
Proof.
  enough (frames (λ c c' : Setup W, trustee_dids c' = trustee_dids c) (pool_auth_rules_init json_loads b metadata)) as H by apply H.
  assert (PreOrder (λ c c' : Setup W, trustee_dids c' = trustee_dids c)) as P by (split; [by intros x|by intros x y z -> ->]).
  assert (∀ (A : Type) (f : act W A), frames (λ c c' : Setup W, trustee_dids c' = trustee_dids c) (call f)) as Hcall
    by (intros A f x; apply call_attributes).
  assert (∀ l, frames (λ c c' : Setup W, trustee_dids c' = trustee_dids c) (each (set_rule json_loads metadata) l)) as Heach.
  { intros l. apply frames_each; [done|]. intros r. apply frames_bind; [done|by intros x|intros rq].
    apply frames_bind; [done|apply Hcall|]. intros reply. by intros x. }
  unfold pool_auth_rules_init. destruct (negb b); [by intros x|]. apply frames_bind; [done|apply Hcall|intros reply].
  apply frames_bind; [done|by intros x|intros _]. apply frames_bind; [done|by intros x|intros data].
  destruct (negb _); [by intros x|]. destruct data; (by intros x) || apply Heach.
Qed.

Lemma did_init_authors fuel num seed text version c u c' :
  did_init json_loads fuel num seed text version c = (Ok u, c') →
  num ≤ length seed ∧ NoDup seed ∧
  ∃ dids, trustee_dids c' = trustee_dids c ++ dids ∧ length dids = length seed ∧ Forall known_trustee dids.
Proof.
  unfold did_init. destruct (Nat.ltb_spec (length (remove_dups seed)) num); [done|].
  destruct (Nat.eqb_spec (length (remove_dups seed)) (length seed)) as [Hl|]; [|done]. cbn [negb]. intros Hrun.
  split; [lia|]. split; [by apply remove_dups_same|]. by eapply authors_loop.
Qed.

(** ** Properties *)

(** When the authors are set up, there is one trustee for each seed, and each is one by what
    the ledger answered; seeds that are too few or appear twice are refused before
    anything is sent. *)
Theorem authors_are_trustees fuel num seed text version c u c' :
  did_init json_loads fuel num seed text version c = (Ok u, c') →
  num ≤ length seed ∧ NoDup seed ∧
  ∃ dids, trustee_dids c' = trustee_dids c ++ dids ∧ length dids = length seed ∧ Forall known_trustee dids.
Proof. apply did_init_authors. Qed.

(** A client is ready only when all its seeds are authors that the ledger knows as
    trustees, whatever fails in its set-up; the other parts of the set-up do not change
    who they are. *)
Theorem ready_client_has_authors open_pool on_pool_create pregen fuel num seed text version b metadata c c' :
  let same := frames (λ c c' : Setup W, trustee_dids c' = trustee_dids c) in
  same open_pool → same on_pool_create → same pregen →
  run_test json_loads open_pool on_pool_create pregen fuel num seed text version b metadata c = (Ok true, c') →
  num ≤ length seed ∧ NoDup seed ∧
  ∃ dids, trustee_dids c' = trustee_dids c ++ dids ∧ length dids = length seed ∧ Forall known_trustee dids.
Proof.
  cbv zeta. intros Hop Hon Hpre. unfold run_test. unfold act_bind at 1, catch, ret.
  unfold act_bind at 1. specialize (Hop c). destruct (open_pool c) as [[u|] c1]; [|done]. cbn [snd] in Hop.
  unfold act_bind at 1. destruct (did_init json_loads fuel num seed text version c1) as [[u2|] c2] eqn:E; [|done].
  unfold act_bind at 1. pose proof (auth_rules_dids b metadata c2) as Hr.
  destruct (pool_auth_rules_init json_loads b metadata c2) as [[u3|] c3]; [|done]. cbn [snd] in Hr.
  unfold act_bind at 1. specialize (Hon c3). destruct (on_pool_create c3) as [[u4|] c4]; [|done]. cbn [snd negb] in *.
  unfold act_bind. specialize (Hpre c4). destruct (pregen c4) as [[u5|] c5]; [|done]. cbn [snd] in Hpre. intros [= <-].
  apply did_init_authors in E as (Hn & Hnd & dids & Hd & Hl & Hk). split; [done|]. split; [done|]. exists dids.
  split; [congruence|done].
Qed.

(** The first author has to be a trustee: with a DID that is not on the ledger nothing is
    sent but the question. *)
Theorem first_author_is_trustee fuel did c reply w b :
  trustee_dids c = [] → submit_get_nym did (world c) = (Ok reply, w) →
  trustee_of_reply json_loads reply = Ok b → b ≠ Some true →
  ∃ e, ensure_trustee json_loads (S fuel) did c = (Raise (PyException e), set_world w c).
Proof.
  intros Hc Hq Hr Hb. cbn [ensure_trustee]. unfold is_trustee, act_bind, call, lift. rewrite Hq. cbn beta iota. rewrite Hr.
  destruct b as [[]|]; [done|by eexists|]. cbn [trustee_dids set_world]. rewrite Hc. by eexists.
Qed.

(** The agreement the client signs is the one on the ledger, with the text and the version
    it was asked for, a second after it was ratified; without a text the ledger has no
    agreement. *)
Theorem agreement_of_the_ledger fuel text version : ∀ c u c',
  taa_loop json_loads fuel text version c = (Ok u, c') →
  ∃ w reply t v ts, (submit_get_taa None w).1 = Ok reply ∧ taa_of_reply json_loads reply = Ok (t, v, ts) ∧
    (text = "" ∧ py_eq t (VStr "") = true ∧ taa_text c' = Some "" ∨
     py_eq t (VStr text) = true ∧ py_eq v (VStr version) = true ∧ taa_text c' = Some text ∧ taa_version c' = Some version ∧
     one_later ts = Ok (taa_time c')).
Proof.
  induction fuel as [|fuel IH]; intros c u c' H; cbn [taa_loop] in H; [done|].
  unfold act_bind in H at 1. unfold get_taa at 1, act_bind at 1, call at 1 in H.
  destruct (submit_get_taa None (world c)) as [[reply|] w] eqn:E; [|done]. cbn [lift] in H.
  destruct (taa_of_reply json_loads reply) as [[[t v] ts]|] eqn:Er; [|done].
  destruct (str_eqb text "" && py_eq t (VStr "")) eqn:E1.
  { injection H as _ <-. apply andb_true_iff in E1 as [->%str_eqb_eq Ht]. exists (world c), reply, t, v, ts.
    rewrite E. split; [done|]. split; [done|]. by left. }
  destruct (py_eq t (VStr text) && py_eq v (VStr version)) eqn:E2.
  { apply andb_true_iff in E2 as [Ht Hv]. destruct (one_later ts) as [z|] eqn:E3; [|done]. injection H as _ <-.
    exists (world c), reply, t, v, ts. rewrite E. split; [done|]. split; [done|]. by right. }
  unfold act_bind in H at 1. destruct (get_taa json_loads (Some version) _) as [[[[t' v'] ts']|] c1]; [|done].
  destruct (negb (py_eq t' _) && _); [done|]. unfold act_bind in H. destruct (negb (str_eqb _ _)).
  all: match type of H with context [call ?f ?x] => destruct (call f x) as [[y|] c2]; [|done] end.
  all: by apply (IH c2 u).
Qed.
End SetupFacts.

(** A ledger with two roles, as a world: the trustees. *)
Definition nym_reply (data : string) : string := "reply " +:+ data.

#[export] Instance small_pool : Pool (list string) := {
  create_did s := ret (s, s);
  submit_get_nym did := λ w, (Ok (if existsb (str_eqb did) w then "trustee" else "unknown"), w);
  submit_trustee_nym _ did _ := λ w, (Ok tt, w ++ [did]);
  submit_get_taa _ := ret "no data";
  submit_taa _ _ := ret tt;
  submit_disable_taa := ret tt;
  submit_get_aml := ret "no data";
  submit_aml := ret tt;
  submit_get_auth_rules := ret "no data";
  submit_auth_rule _ := ret "no data"
}.

Definition small_loads (s : string) : res val :=
  if str_eqb s "trustee" then Ok (VDict [("op", VStr "REPLY"); ("result", VDict [("data", VStr "role")])])
  else if str_eqb s "role" then Ok (VDict [("role", VStr "0")])
  else Ok (VDict [("op", VStr "REPLY"); ("result", VDict [("data", VNone)])]).

Definition new_setup : Setup (list string) := mkSetup ["T1"] [] "" "" None None VNone.

Definition setup_done : Setup (list string) := (did_init small_loads 2 1 ["T1"; "T2"] "" "" new_setup).2.

Lemma authors_are_trustees_witness :
  trustee_dids setup_done = ["T1"; "T2"] ∧ world setup_done = ["T1"; "T2"] ∧
  ∃ dids, trustee_dids setup_done = [] ++ dids ∧ length dids = 2 ∧ Forall (known_trustee (W := list string) small_loads) dids.
Proof.
  split; [by vm_compute|]. split; [by vm_compute|].
  apply (authors_are_trustees small_loads 2 1 ["T1"; "T2"] "" "" new_setup tt setup_done). by vm_compute.
Defined.

Lemma agreement_of_the_ledger_witness :
  taa_text (taa_loop small_loads 1 "" "" new_setup).2 = Some "" ∧
  ∃ w reply t v ts, (submit_get_taa (W := list string) None w).1 = Ok reply ∧ taa_of_reply small_loads reply = Ok (t, v, ts) ∧
    ("" = "" ∧ py_eq t (VStr "") = true ∧ taa_text (taa_loop small_loads 1 "" "" new_setup).2 = Some "" ∨
     py_eq t (VStr "") = true ∧ py_eq v (VStr "") = true ∧ taa_text (taa_loop small_loads 1 "" "" new_setup).2 = Some "" ∧
     taa_version (taa_loop small_loads 1 "" "" new_setup).2 = Some "" ∧
     one_later ts = Ok (taa_time (taa_loop small_loads 1 "" "" new_setup).2)).
Proof.
  split; [by vm_compute|]. apply (agreement_of_the_ledger small_loads 1 "" "" new_setup tt). by vm_compute.
Defined.

Lemma first_author_is_trustee_witness :
  ∃ e, ensure_trustee small_loads 1 "T9" new_setup = (Raise (PyException e), new_setup).
Proof. by apply (first_author_is_trustee small_loads 0 "T9" new_setup "unknown" ["T1"] None). Defined.
