(* ===== verification/LoadLedger.v ===== *)
(** * The set-up of a client against a ledger

    [LoadSetup] leaves open what the pool answers.  Here the pool is one with a ledger:
    what is written is there when it is read.  Its laws are a class, with an instance; the
    set-up of a client then comes to its end, each of its loops in two rounds. *)
From Stdlib Require Import Ascii.
From S2P Require Import Prelude PyValue Plenum Constants AuthActions AuthConstraints Authorizer AuthorizerSpec StateDomain IdrCache HandlerBase Upgrader PoolUpgrade World LoadStat LoadFees LoadSetup.

(** ** The ledger *)

(** The DIDs that are known, with whether they are trustees; the agreement in force with
    its time; the texts of all versions; whether the list of mechanisms has that of the
    test, if there is one. *)
Record Ledger := mkLedger {
  l_roles : gmap string bool;
  l_taa : option (string * string * Z);
  l_taas : gmap string string;
  l_aml : option bool
}.

Definition taa_answer (t : option (string * string * Z)) : val * val * val :=
  match t with Some (text, version, ts) => (VStr text, VStr version, VInt ts) | None => (VStr "", VStr "", VNone) end.

Class PoolLaws (W : Type) `{!Pool W} (json_loads : string → res val) (did_of : string → string) (ledger : W → Ledger) := {
  create_law s w : ∃ verk w', create_did s w = (Ok (did_of s, verk), w') ∧ ledger w' = ledger w;
  get_nym_law did w : ∃ reply w', submit_get_nym did w = (Ok reply, w') ∧ ledger w' = ledger w ∧
    trustee_of_reply json_loads reply = Ok (l_roles (ledger w) !! did);
  put_nym_law t did verk w : l_roles (ledger w) !! t = Some true → l_roles (ledger w) !! did = None →
    ∃ w', submit_trustee_nym t did verk w = (Ok tt, w') ∧
      ledger w' = mkLedger (<[did := true]> (l_roles (ledger w))) (l_taa (ledger w)) (l_taas (ledger w)) (l_aml (ledger w));
  get_taa_law w : ∃ reply w', submit_get_taa None w = (Ok reply, w') ∧ ledger w' = ledger w ∧
    taa_of_reply json_loads reply = Ok (taa_answer (l_taa (ledger w)));
  get_version_law v w : ∃ reply w' ts, submit_get_taa (Some v) w = (Ok reply, w') ∧ ledger w' = ledger w ∧
    taa_of_reply json_loads reply = Ok (taa_answer ((λ text, (text, v, ts)) <$> l_taas (ledger w) !! v));
  put_taa_law text v w : l_taas (ledger w) !! v = None →
    ∃ w' ts, submit_taa text v w = (Ok tt, w') ∧
      ledger w' = mkLedger (l_roles (ledger w)) (Some (text, v, ts)) (<[v := text]> (l_taas (ledger w))) (l_aml (ledger w));
  disable_law w : ∃ w', submit_disable_taa w = (Ok tt, w') ∧
    ledger w' = mkLedger (l_roles (ledger w)) None (l_taas (ledger w)) (l_aml (ledger w));
  get_aml_law w : ∃ reply w', submit_get_aml w = (Ok reply, w') ∧ ledger w' = ledger w ∧
    aml_of_reply json_loads reply = Ok (match l_aml (ledger w) with Some b => (b, true) | None => (false, false) end);
  put_aml_law w : l_aml (ledger w) = None →
    ∃ w', submit_aml w = (Ok tt, w') ∧
      ledger w' = mkLedger (l_roles (ledger w)) (l_taa (ledger w)) (l_taas (ledger w)) (Some true)
}.

Section Facts.
Context {W : Type} {HP : Pool W} (json_loads : string → res val) (did_of : string → string) (ledger : W → Ledger)
  {HL : PoolLaws W json_loads did_of ledger}.
Implicit Types c : Setup W.

Abbreviation ledger_of c := (ledger (world c)).

(** ** Steps *)

Lemma then_Ok {A B} (m : act (Setup W) A) (k : A → act (Setup W) B) c a c' :
  m c = (Ok a, c') → act_bind m k c = k a c'.
Proof. intros H. unfold act_bind. by rewrite H. Qed.

Lemma call_Ok {A} (f : act W A) c a w : f (world c) = (Ok a, w) → call f c = (Ok a, set_world w c).
Proof. intros H. unfold call. by rewrite H. Qed.

Lemma is_trustee_run did c :
  ∃ w, is_trustee json_loads did c = (Ok (l_roles (ledger_of c) !! did), set_world w c) ∧ ledger w = ledger_of c.
Proof.
  destruct (get_nym_law did (world c)) as (reply & w & H & Hw & Hr). exists w. split; [|done].
  unfold is_trustee. rewrite (then_Ok _ _ _ _ _ (call_Ok _ _ _ _ H)). unfold lift. by rewrite Hr.
Qed.

Lemma get_current_run c :
  ∃ w, get_taa json_loads None c = (Ok (taa_answer (l_taa (ledger_of c))), set_world w c) ∧ ledger w = ledger_of c.
Proof.
  destruct (get_taa_law (world c)) as (reply & w & H & Hw & Hr). exists w. split; [|done].
  unfold get_taa. rewrite (then_Ok _ _ _ _ _ (call_Ok _ _ _ _ H)). unfold lift. by rewrite Hr.
Qed.

Lemma get_version_run v c :
  v ≠ "" → l_taas (ledger_of c) !! v = None →
  ∃ w, get_taa json_loads (Some v) c = (Ok (VStr "", VStr "", VNone), set_world w c) ∧ ledger w = ledger_of c.
Proof.
  intros Hv Hno. destruct (get_version_law v (world c)) as (reply & w & ts & H & Hw & Hr). exists w. split; [|done].
  unfold get_taa, str_truth. rewrite (proj2 (str_eqb_neq v "") Hv). cbn [negb].
  rewrite (then_Ok _ _ _ _ _ (call_Ok _ _ _ _ H)). unfold lift. by rewrite Hr, Hno.
Qed.

(** ** Rounds *)

(** An author becomes a trustee, in one round if it is one and in two if it is unknown. *)
Lemma trustee_made fuel did c :
  2 ≤ fuel → test_did c = did →
  l_roles (ledger_of c) !! did = Some true ∨
  l_roles (ledger_of c) !! did = None ∧ (∃ t l, trustee_dids c = t :: l ∧ l_roles (ledger_of c) !! t = Some true) →
  ∃ w, ensure_trustee json_loads fuel did c = (Ok tt, add_trustee did (set_world w c)) ∧
    ledger w = mkLedger (<[did := true]> (l_roles (ledger_of c))) (l_taa (ledger_of c)) (l_taas (ledger_of c)) (l_aml (ledger_of c)).
Proof.
  intros Hfuel Hdid Hrole. destruct fuel as [|[|fuel]]; [lia..|]. cbn [ensure_trustee].
  destruct (is_trustee_run did c) as (w1 & H1 & Hw1). rewrite (then_Ok _ _ _ _ _ H1).
  destruct Hrole as [Hd|(Hd & t & l & Ht & Htr)]; rewrite Hd.
  - exists w1. split; [done|]. rewrite Hw1, insert_id by done. by destruct (ledger_of c).
  - cbn [trustee_dids set_world test_did test_verk]. rewrite Ht, Hdid.
    destruct (put_nym_law t did (test_verk c) w1) as (w2 & H2 & Hw2); [by rewrite Hw1|by rewrite Hw1|].
    rewrite (then_Ok _ _ _ _ _ (call_Ok _ (set_world w1 c) _ _ H2)).
    destruct (is_trustee_run did (set_world w2 (set_world w1 c))) as (w3 & H3 & Hw3). rewrite (then_Ok _ _ _ _ _ H3).
    cbn [world set_world] in Hw3 |- *. rewrite Hw2. cbn [l_roles]. rewrite lookup_insert_eq.
    exists w3. split; [done|]. by rewrite Hw3, Hw2, Hw1.
Qed.

(** The list of mechanisms has that of the test, or there is none and it is written. *)
Lemma mechanism_made fuel c :
  2 ≤ fuel → l_aml (ledger_of c) ≠ Some false →
  ∃ w, taa_aml_init json_loads fuel c = (Ok tt, set_world w c) ∧
    ledger w = mkLedger (l_roles (ledger_of c)) (l_taa (ledger_of c)) (l_taas (ledger_of c)) (Some true).
Proof.
  intros Hfuel Haml. destruct fuel as [|[|fuel]]; [lia..|]. cbn [taa_aml_init].
  destruct (get_aml_law (world c)) as (reply & w1 & H1 & Hw1 & Hr1). rewrite (then_Ok _ _ _ _ _ (call_Ok _ _ _ _ H1)).
  rewrite (then_Ok _ _ (set_world w1 c) _ (set_world w1 c)) by (unfold lift; by rewrite Hr1).
  destruct (l_aml (ledger_of c)) as [[]|] eqn:E; [|done|]; cbn [fst snd].
  - exists w1. split; [done|]. rewrite Hw1, <-E. by destruct (ledger_of c).
  - destruct (put_aml_law w1) as (w2 & H2 & Hw2); [by rewrite Hw1|].
    rewrite (then_Ok _ _ _ _ _ (call_Ok _ (set_world w1 c) _ _ H2)).
    destruct (get_aml_law w2) as (reply3 & w3 & H3 & Hw3 & Hr3).
    rewrite (then_Ok _ _ _ _ _ (call_Ok _ (set_world w2 (set_world w1 c)) _ _ H3)).
    rewrite (then_Ok _ _ _ (true, true) (set_world w3 (set_world w2 (set_world w1 c)))) by (unfold lift; by rewrite Hr3, Hw2).
    exists w3. split; [done|]. by rewrite Hw3, Hw2, Hw1.
Qed.

(** What the set-up needs of the ledger for its agreement: there is none and none is
    wanted, or its version is new. *)
Definition agreement_possible (text version : string) (l : Ledger) : Prop :=
  (text = "" ∧ l_taa l = None ∨ version ≠ "" ∧ l_taas l !! version = None) ∧
  (∀ t v ts, l_taa l = Some (t, v, ts) → l_taas l !! v = Some t).

(** The agreement is in force, or there is none, as it was asked for. *)
Definition agreement_set (text version : string) (l : Ledger) : Prop :=
  if str_eqb text "" then ∀ t v ts, l_taa l = Some (t, v, ts) → t = "" else ∃ ts, l_taa l = Some (text, version, ts).

(** The second round of an agreement: it is written, and read back. *)
Lemma write_agreement fuel text version c :
  1 ≤ fuel → l_taas (ledger_of c) !! version = None →
  ∃ w ver ts,
    (let? _ := if negb (str_eqb text "") then call (submit_taa text version) else call submit_disable_taa in
     taa_loop json_loads fuel text version) c = (Ok tt, set_taa (Some text) ver ts (set_world w c)) ∧
    agreement_set text version (ledger w) ∧ l_roles (ledger w) = l_roles (ledger_of c).
Proof.
  intros Hfuel Hno. destruct fuel as [|fuel]; [lia|]. unfold agreement_set. destruct (str_eqb text "") eqn:E; cbn [negb].
  - apply str_eqb_eq in E as ->. destruct (disable_law (world c)) as (w1 & H1 & Hw1). rewrite (then_Ok _ _ _ _ _ (call_Ok _ _ _ _ H1)).
    cbn [taa_loop]. destruct (get_current_run (set_world w1 c)) as (w2 & H2 & Hw2). rewrite (then_Ok _ _ _ _ _ H2).
    cbn [world set_world] in Hw2 |- *. rewrite Hw1. cbn. eexists w2, _, _. split; [done|]. rewrite Hw2, Hw1. by split.
  - destruct (put_taa_law text version (world c) Hno) as (w1 & ts & H1 & Hw1). rewrite (then_Ok _ _ _ _ _ (call_Ok _ _ _ _ H1)).
    cbn [taa_loop]. destruct (get_current_run (set_world w1 c)) as (w2 & H2 & Hw2). rewrite (then_Ok _ _ _ _ _ H2).
    cbn [world set_world] in Hw2 |- *. rewrite Hw1. cbn [l_taa taa_answer py_eq]. rewrite E, !str_eqb_refl. cbn [andb].
    eexists w2, _, _. split; [done|]. rewrite Hw2, Hw1. split; [by exists ts|done].
Qed.

Lemma agreement_made fuel text version c :
  2 ≤ fuel → agreement_possible text version (ledger_of c) →
  ∃ w ver ts, taa_loop json_loads fuel text version c = (Ok tt, set_taa (Some text) ver ts (set_world w c)) ∧
    agreement_set text version (ledger w) ∧ l_roles (ledger w) = l_roles (ledger_of c).
Proof.
  intros Hfuel [Hnew Hcons]. destruct fuel as [|fuel]; [lia|]. cbn [taa_loop].
  destruct (get_current_run c) as (w1 & H1 & Hw1). rewrite (then_Ok _ _ _ _ _ H1).
  destruct (l_taa (ledger_of c)) as [[[t v] ts]|] eqn:E; cbn [taa_answer py_eq].
  - destruct (str_eqb text "" && str_eqb t "") eqn:E1.
    { apply andb_true_iff in E1 as [->%str_eqb_eq ->%str_eqb_eq]. eexists w1, _, _. split; [done|]. unfold agreement_set. rewrite Hw1, E. split; [|done].
      by intros t' v' ts' [= <- _ _]. }
    destruct Hnew as [[_ Hnone]|[Hv Hno]]; [done|].
    assert (str_eqb v version = false) as ->.
    { apply str_eqb_neq. intros ->. rewrite (Hcons _ _ _ eq_refl) in Hno. done. }
    rewrite andb_false_r. destruct (get_version_run version (set_world w1 c)) as (w2 & H2 & Hw2); [done|cbn; by rewrite Hw1|].
    rewrite (then_Ok _ _ _ _ _ H2). cbn [py_eq]. rewrite (proj2 (str_eqb_neq "" version)) by congruence. rewrite andb_false_r.
    cbn [world set_world] in Hw2.
    destruct (write_agreement fuel text version (set_world w2 (set_world w1 c))) as (w & ver & z & H & Ha & Hr);
      [lia|cbn; by rewrite Hw2, Hw1|]. exists w, ver, z. split; [exact H|]. split; [exact Ha|]. rewrite Hr. cbn. by rewrite Hw2, Hw1.
  - destruct (str_eqb text "" && str_eqb "" "") eqn:E1; rewrite str_eqb_refl, andb_true_r in E1.
    { apply str_eqb_eq in E1 as ->. eexists w1, _, _. split; [done|]. unfold agreement_set. by rewrite Hw1, E. }
    assert (str_eqb "" text = false) as -> by (by rewrite str_eqb_sym). cbn [andb].
    destruct Hnew as [[-> _]|[Hv Hno]]; [done|].
    destruct (get_version_run version (set_world w1 c)) as (w2 & H2 & Hw2); [done|cbn; by rewrite Hw1|].
    rewrite (then_Ok _ _ _ _ _ H2). cbn [py_eq]. rewrite (proj2 (str_eqb_neq "" version)) by congruence. rewrite andb_false_r.
    cbn [world set_world] in Hw2.
    destruct (write_agreement fuel text version (set_world w2 (set_world w1 c))) as (w & ver & z & H & Ha & Hr);
      [lia|cbn; by rewrite Hw2, Hw1|]. exists w, ver, z. split; [exact H|]. split; [exact Ha|]. rewrite Hr. cbn. by rewrite Hw2, Hw1.
Qed.

Lemma taa_init_made fuel text version c :
  2 ≤ fuel → agreement_possible text version (ledger_of c) → (text ≠ "" → l_aml (ledger_of c) ≠ Some false) →
  ∃ w ver ts, taa_init json_loads fuel text version c = (Ok tt, set_taa (Some text) ver ts (set_world w c)) ∧
    agreement_set text version (ledger w) ∧ l_roles (ledger w) = l_roles (ledger_of c).
Proof.
  intros Hfuel Hpos Haml. unfold taa_init. destruct (str_eqb text "") eqn:E; cbn [negb].
  - rewrite (then_Ok (ret tt) _ c tt c) by done. by apply agreement_made.
  - apply str_eqb_neq in E. destruct (mechanism_made fuel c Hfuel (Haml E)) as (w1 & H1 & Hw1). rewrite (then_Ok _ _ _ _ _ H1).
    destruct (agreement_made fuel text version (set_world w1 c) Hfuel) as (w & ver & ts & H & Ha & Hr).
    + cbn [world set_world]. rewrite Hw1. exact Hpos.
    + exists w, ver, ts. split; [exact H|]. split; [done|]. rewrite Hr. cbn [world set_world]. by rewrite Hw1.
Qed.

(** ** The set-up *)

(** What is needed for the seeds that are left: their DIDs are unknown or trustees, the
    first of all is a trustee, and the agreement is set or can be. *)
Record ready (text version : string) (seed : list string) (c : Setup W) : Prop := {
  rd_authors t : t ∈ trustee_dids c → l_roles (ledger_of c) !! t = Some true;
  rd_seeds s : s ∈ seed → l_roles (ledger_of c) !! did_of s = None ∨ l_roles (ledger_of c) !! did_of s = Some true;
  rd_first s l : trustee_dids c = [] → seed = s :: l → l_roles (ledger_of c) !! did_of s = Some true;
  rd_agreement : (taa_text c = None ∧ agreement_possible text version (ledger_of c) ∧
                  (text ≠ "" → l_aml (ledger_of c) ≠ Some false)) ∨
                 (taa_text c ≠ None ∧ agreement_set text version (ledger_of c))
}.

Definition author_step (fuel : nat) (text version s : string) : act (Setup W) unit :=
  let? dv := call (create_did s) in
  let? _ := modify (set_author dv.1 dv.2) in
  let? _ := ensure_trustee json_loads fuel dv.1 in
  λ c, match taa_text c with None => taa_init json_loads fuel text version c | Some _ => (Ok tt, c) end.

Lemma author_made fuel text version s seed c :
  2 ≤ fuel → ready text version (s :: seed) c →
  ∃ c', author_step fuel text version s c = (Ok tt, c') ∧ trustee_dids c' = trustee_dids c ++ [did_of s] ∧
    taa_text c' ≠ None ∧ ready text version seed c'.
Proof.
  intros Hfuel [Ha Hs Hf Hg]. unfold author_step. destruct (create_law s (world c)) as (verk & w1 & H1 & Hw1).
  rewrite (then_Ok _ _ _ _ _ (call_Ok _ _ _ _ H1)). cbn [fst snd].
  rewrite (then_Ok _ _ (set_world w1 c) tt (set_author (did_of s) verk (set_world w1 c))) by done.
  destruct (trustee_made fuel (did_of s) (set_author (did_of s) verk (set_world w1 c)) Hfuel eq_refl) as (w2 & H2 & Hw2).
  { cbn. rewrite Hw1. destruct (Hs s (list_elem_of_here _ _)) as [H|H]; [right|by left]. split; [done|].
    destruct (trustee_dids c) as [|t l] eqn:Et; [by rewrite (Hf s seed eq_refl eq_refl) in H|].
    exists t, l. split; [done|]. apply Ha, list_elem_of_here. }
  rewrite (then_Ok _ _ _ _ _ H2). cbn [world set_author set_world] in Hw2. rewrite Hw1 in Hw2.
  set (c2 := add_trustee _ _).
  assert (ledger_of c2 = mkLedger (<[did_of s := true]> (l_roles (ledger_of c))) (l_taa (ledger_of c)) (l_taas (ledger_of c)) (l_aml (ledger_of c))) as Hc2
    by exact Hw2.
  assert (∃ c', (match taa_text c2 with None => taa_init json_loads fuel text version c2 | Some _ => (Ok tt, c2) end) = (Ok tt, c') ∧
    trustee_dids c' = trustee_dids c2 ∧ taa_text c' ≠ None ∧ agreement_set text version (ledger_of c') ∧
    l_roles (ledger_of c') = l_roles (ledger_of c2)) as (c' & H3 & Ht3 & Hx3 & Hg3 & Hr3).
  { change (taa_text c2) with (taa_text c). destruct Hg as [(E & Hp & Hm)|(E & Hp)].
    - rewrite E. destruct (taa_init_made fuel text version c2 Hfuel) as (w & ver & ts & H & Hset & Hr); [by rewrite Hc2|by rewrite Hc2|].
      eexists. split; [exact H|]. repeat split; done.
    - destruct (taa_text c) eqn:E'; [|done]. exists c2. split; [done|]. split; [done|].
      split; [change (taa_text c2) with (taa_text c); by rewrite E'|]. split; [by rewrite Hc2|done]. }
  exists c'. split; [exact H3|]. split; [by rewrite Ht3|]. split; [done|].
  assert (∀ d, l_roles (ledger_of c') !! d = if decide (did_of s = d) then Some true else l_roles (ledger_of c) !! d) as Hrole.
  { intros d. rewrite Hr3, Hc2. cbn [l_roles]. apply lookup_insert. }
  split.
  - intros t Ht. rewrite Hrole. case_decide as Hd; [done|]. rewrite Ht3 in Ht. cbn in Ht.
    apply elem_of_app in Ht as [Ht|Ht%list_elem_of_singleton]; [by apply Ha|congruence].
  - intros s' Hs'. rewrite Hrole. case_decide; [by right|]. apply Hs. by right.
  - intros s' l Hno. rewrite Ht3 in Hno. by apply app_nil in Hno as [_ ?].
  - by right.
Qed.

(** With a ledger on which the first author is a trustee, the others are trustees or
    unknown, and the agreement asked for can be made, the set-up of the authors ends well,
    two rounds being enough for each of its loops: the authors are those of the seeds, all
    trustees on the ledger, and the agreement is the one asked for. *)
Theorem authors_set_up fuel num seed text version c :
  2 ≤ fuel → seed ≠ [] → num ≤ length seed → NoDup seed → ready text version seed c →
  ∃ c', did_init json_loads fuel num seed text version c = (Ok tt, c') ∧
    trustee_dids c' = trustee_dids c ++ map did_of seed ∧
    (∀ s, s ∈ seed → l_roles (ledger_of c') !! did_of s = Some true) ∧
    taa_text c' ≠ None ∧ agreement_set text version (ledger_of c').
Proof.
  intros Hfuel Hne Hnum Hnd Hr. unfold did_init.
  assert (remove_dups seed = seed) as ->.
  { clear - Hnd. induction Hnd as [|x l Hx _ IH]; [done|]. cbn [remove_dups]. case_decide; [done|]. by rewrite IH. }
  rewrite (proj2 (Nat.ltb_ge _ _) Hnum), Nat.eqb_refl. cbn [negb].
  assert (∀ l c, ready text version l c → ∃ c', each (author_step fuel text version) l c = (Ok tt, c') ∧
    trustee_dids c' = trustee_dids c ++ map did_of l ∧ (l ≠ [] → taa_text c' ≠ None) ∧ (taa_text c ≠ None → taa_text c' ≠ None) ∧
    ready text version [] c') as Hloop.
  { clear - Hfuel HL. intros l. induction l as [|s l IH]; intros c Hr; [exists c; by rewrite app_nil_r|]. cbn [each].
    destruct (author_made fuel text version s l c Hfuel Hr) as (c1 & H1 & Ht1 & Hx1 & Hr1). rewrite (then_Ok _ _ _ _ _ H1).
    destruct (IH c1 Hr1) as (c' & H & Ht & _ & Hx & Hr'). exists c'. split; [done|].
    split; [by rewrite Ht, Ht1, <-app_assoc|]. auto. }
  destruct (Hloop seed c Hr) as (c' & H & Ht & Hx & _ & [Ha _ _ Hg]). exists c'. split; [exact H|]. split; [done|].
  split; [|split; [by apply Hx|]].
  - intros s Hs. apply Ha. rewrite Ht. apply elem_of_app. right. by apply list_elem_of_fmap_2.
  - destruct Hg as [[E _]|[_ Hg]]; [by apply Hx in Hne|done].
Qed.
End Facts.

(** ** A ledger with replies

    A reply is one of four kinds; its text is made of the bits of its code. *)

Abbreviation Reply := (option bool + bool + (option (string * string * Z) + option bool))%type.

Fixpoint bits (p : positive) : string :=
  match p with xH => "" | xO p' => String "0"%char (bits p') | xI p' => String "1"%char (bits p') end.

Fixpoint of_bits (s : string) : positive :=
  match s with
  | EmptyString => xH
  | String c s' => if Ascii.eqb c "0"%char then xO (of_bits s') else xI (of_bits s')
  end.

Lemma of_bits_bits p : of_bits (bits p) = p.
Proof. induction p as [p IH|p IH|]; cbn; by rewrite ?IH. Qed.

Definition reply_text (r : Reply) : string := bits (encode r).

Definition reply_with (data : val) : val := VDict [("op", VStr "REPLY"); ("result", VDict [("data", data)])].

Definition reply_value (r : Reply) : val :=
  match r with
  | inl (inl None) => reply_with VNone
  | inl (inl (Some b)) => reply_with (VStr (reply_text (inl (inr b))))
  | inl (inr b) => VDict [("role", VStr (if b : bool then "0" else "2"))]
  | inr (inl None) => reply_with VNone
  | inr (inl (Some (t, v, z))) => reply_with (VDict [("text", VStr t); ("version", VStr v); ("ratification_ts", VInt z)])
  | inr (inr None) => reply_with VNone
  | inr (inr (Some b)) => reply_with (VDict [("aml", VDict (if b : bool then [("test", VDict [])] else []))])
  end.

Definition reply_loads (s : string) : res val :=
  match decode (of_bits s) with Some r => Ok (reply_value r) | None => Raise JSONDecodeError end.

Lemma reply_loads_text r : reply_loads (reply_text r) = Ok (reply_value r).
Proof. unfold reply_loads, reply_text. by rewrite of_bits_bits, decode_encode. Qed.

#[global] Opaque reply_text reply_loads.

#[export] Instance ledger_pool : Pool Ledger := {
  create_did s := ret (s, s);
  submit_get_nym did := λ l, (Ok (reply_text (inl (inl (l_roles l !! did)))), l);
  submit_trustee_nym _ did _ := λ l, (Ok tt, mkLedger (<[did := true]> (l_roles l)) (l_taa l) (l_taas l) (l_aml l));
  submit_get_taa v := λ l, (Ok (reply_text (inr (inl match v with
                                                    | None => l_taa l
                                                    | Some v => (λ t, (t, v, 0%Z)) <$> l_taas l !! v
                                                    end))), l);
  submit_taa t v := λ l, (Ok tt, mkLedger (l_roles l) (Some (t, v, 0%Z)) (<[v := t]> (l_taas l)) (l_aml l));
  submit_disable_taa := λ l, (Ok tt, mkLedger (l_roles l) None (l_taas l) (l_aml l));
  submit_get_aml := λ l, (Ok (reply_text (inr (inr (l_aml l)))), l);
  submit_aml := λ l, (Ok tt, mkLedger (l_roles l) (l_taa l) (l_taas l) (Some true));
  submit_get_auth_rules := ret "";
  submit_auth_rule _ := ret ""
}.

Lemma nym_reply_read r : trustee_of_reply reply_loads (reply_text (inl (inl r))) = Ok r.
Proof.
  unfold trustee_of_reply. rewrite reply_loads_text. destruct r as [b|]; cbn; [|done]. rewrite reply_loads_text. by destruct b.
Qed.

Lemma taa_reply_read t : taa_of_reply reply_loads (reply_text (inr (inl t))) = Ok (taa_answer t).
Proof. unfold taa_of_reply, ensure_is_reply. rewrite !reply_loads_text. by destruct t as [[[t v] z]|]. Qed.

Lemma aml_reply_read r :
  aml_of_reply reply_loads (reply_text (inr (inr r))) = Ok (match r with Some b => (b, true) | None => (false, false) end).
Proof. unfold aml_of_reply, ensure_is_reply. rewrite !reply_loads_text. by destruct r as [[]|]. Qed.

#[export] Instance ledger_pool_laws : PoolLaws Ledger reply_loads (λ s, s) (λ l, l).
Proof.
  constructor.
  - intros s l. by exists s, l.
  - intros did l. eexists _, l. split; [done|]. split; [done|]. apply nym_reply_read.
  - intros t did verk l _ _. by eexists.
  - intros l. eexists _, l. split; [done|]. split; [done|]. apply taa_reply_read.
  - intros v l. eexists _, l, 0%Z. split; [done|]. split; [done|]. apply taa_reply_read.
  - intros t v l _. by eexists _, 0%Z.
  - intros l. by eexists.
  - intros l. eexists _, l. split; [done|]. split; [done|]. apply aml_reply_read.
  - intros l _. by eexists.
Qed.

(** A ledger with one trustee, and an agreement that is replaced. *)
Definition old_ledger : Ledger := mkLedger {["T1" := true]} (Some ("old", "1", 5%Z)) {["1" := "old"]} None.

Definition new_client : Setup Ledger := mkSetup old_ledger [] "" "" None None VNone.

Lemma new_client_ready : ready (λ s, s) (λ l, l) "new" "2" ["T1"; "T2"] new_client.
Proof.
  constructor; cbn [trustee_dids new_client world old_ledger l_roles taa_text l_aml].
  - intros t Ht. by apply not_elem_of_nil in Ht.
  - intros s [->|[->|[]%not_elem_of_nil]%elem_of_cons]%elem_of_cons; [right|left]; by vm_compute.
  - intros s l _ [= <- _]. by vm_compute.
  - left. split; [done|]. split; [|done]. split; [right; split; [done|by vm_compute]|]. intros t v ts [= <- <- _]. by vm_compute.
Qed.

Lemma authors_set_up_witness :
  ∃ c', did_init reply_loads 2 2 ["T1"; "T2"] "new" "2" new_client = (Ok tt, c') ∧
    trustee_dids c' = ["T1"; "T2"] ∧ agreement_set "new" "2" (world c').
Proof.
  assert (2 ≤ 2 ∧ ["T1"; "T2"] ≠ [] ∧ 2 ≤ length ["T1"; "T2"]) as (H1 & H2 & H3) by (split; [lia|]; split; [done|cbn; lia]).
  assert (NoDup ["T1"; "T2"]) as H4 by (apply (bool_decide_unpack _); by vm_compute).
  pose proof (authors_set_up reply_loads (λ s, s) (λ l, l) 2 2 ["T1"; "T2"] "new" "2" new_client H1 H2 H3 H4 new_client_ready)
    as (c' & H & Ht & _ & _ & Ha).
  exists c'. split; [exact H|]. split; [exact Ht|exact Ha].
Defined.
