(* ===== verification/LoadPayments.v ===== *)
(** * The generators of payments

    [scripts/performance/perf_load/perf_req_gen_payment.py]: the payment a generator makes
    of the sources of the client, the receipts that come back, and the payments made
    before a test that verifies receipts.

    The payment library is an argument: what receipts it finds in a reply, and what the
    pool answers to a payment.  The sources are those of [LoadStat]. *)
From S2P Require Import Prelude PyValue Plenum Constants StateDomain IdrCache HandlerBase Upgrader PoolUpgrade World LoadStat LoadClient LoadFees LoadSetup.
Local Open Scope Z_scope.

Abbreviation Sources := (dict (list txo)).

(** [l.remove(x)] *)
Fixpoint remove_one (x : string) (l : list string) : list string :=
  match l with [] => [] | y :: l' => if str_eqb x y then l' else y :: remove_one x l' end.

(** [RGBasePayment._gen_input_output]: the inputs and the outputs of a payment of [val];
    [rand] chooses the recipient among the other addresses. *)
Definition pay_input_output (rand : nat) (val fees : Z) : act Sources (list string * list (string * Z)) := λ addr_txos,
  let '(sp, addr_txos') := gen_input_output addr_txos (val + fees) in
  match sp with
  | None => (Raise no_req_data, addr_txos')
  | Some s =>
      let addrs := remove_one (sp_address s) (dkeys addr_txos') in
      match addrs !! (rand mod length addrs)%nat with
      | None => (Raise IndexError, addr_txos')
      | Some to_address => (Ok (sp_inputs s, sp_outputs s ++ [(to_address, val)]), addr_txos')
      end
  end.

(** [RGGetPaymentSources._gen_req_data] *)
Definition sources_req_data (rand : nat) (addr_txos : Sources) : res string :=
  match dkeys addr_txos !! (rand mod length addr_txos)%nat with Some a => Ok a | None => Raise IndexError end.

(** [RGPayment] *)
Record Payments := mkPayments {
  pay_txos : Sources;
  sent_reqs : gset string
}.

Section Payment.
Context (json_loads : string → res val).
Context (parse_receipts : string → res (list (string * txo))).
Abbreviation M := (act Payments).

Definition pay_gen_req_data (rand : nat) (payment_fees : Z) : M (list string * list (string * Z)) := λ p,
  let '(r, d) := pay_input_output rand 1 payment_fees (pay_txos p) in (r, mkPayments d (sent_reqs p)).

Definition pay_on_request_generated (gen_req : string) (p : Payments) : Payments :=
  mkPayments (pay_txos p) ({[gen_req]} ∪ sent_reqs p).

(** [self._addr_txos[ri["recipient"]].append(...)] *)
Definition add_receipt (ri : string * txo) : M unit := λ p,
  match dget ri.1 (pay_txos p) with
  | Some l => (Ok tt, mkPayments (dset ri.1 (l ++ [ri.2]) (pay_txos p)) (sent_reqs p))
  | None => (Raise (KeyError ri.1), p)
  end.

(** Whether the reply is that of a payment that was made. *)
Definition payment_made (resp : string) : res bool :=
  let! reply := json_loads resp in
  let! result := val_get "result" VNone reply in
  if negb (py_truth result) then Ok false else
  let! txn := item "txn" result in
  let! ty := item "type" txn in Ok (py_eq ty (VStr PUB_XFER_TXN_ID)).

Definition pay_on_request_replied (gen_req : string) (resp_or_exp : res string) : M unit := λ p,
  if decide (gen_req ∈ sent_reqs p) then
    let p1 := mkPayments (pay_txos p) (sent_reqs p ∖ {[gen_req]}) in
    match resp_or_exp with
    | Raise _ => (Ok tt, p1)
    | Ok resp =>
        (let? made := lift (payment_made resp) in
         if negb made then ret tt
         else let? receipt_infos := lift (parse_receipts resp) in each add_receipt receipt_infos) p1
    end
  else (Ok tt, p).
End Payment.

(** [RGVerifyPayment]: [pay] is the payment built, signed and submitted; receipts that
    cannot be read are left out. *)
Section Verify.
Context (json_loads : string → res val) (parse_receipts : string → res (list (string * txo))).
Context (pay : list string → list (string * Z) → res string).

Record Verify := mkVerify {
  v_txos : Sources;
  v_receipts : list string
}.

(** [__perform_payments]: one payment for each address, as long as there are sources; the
    recipients are chosen by [rands]. *)
Fixpoint perform_payments (rands : list nat) (payment_fees : Z) (v : Verify) : res unit * Verify :=
  match rands with
  | [] => (Ok tt, v)
  | rand :: rands' =>
      let '(r, d) := pay_input_output rand 1 payment_fees (v_txos v) in
      let v1 := mkVerify d (v_receipts v) in
      match r with
      | Raise e => if bool_decide (e = no_req_data) then (Ok tt, v1) else (Raise e, v1)
      | Ok (inputs, outputs) =>
          match (let! resp := pay inputs outputs in let! _ := ensure_is_reply json_loads (VStr resp) in Ok resp) with
          | Raise e => (Raise e, v1)
          | Ok resp =>
              let found := match parse_receipts resp with Ok l => map (λ ri, ri.2.1) l | Raise _ => [] end in
              perform_payments rands' payment_fees (mkVerify d (v_receipts v ++ found))
          end
      end
  end.

Definition verify_gen_req_data (rand : nat) (v : Verify) : res string :=
  match v_receipts v with
  | [] => Raise no_req_data
  | l => match l !! (rand mod length l)%nat with Some r => Ok r | None => Raise IndexError end
  end.
End Verify.

(** ** Lemmas *)

Definition outputs_amount (l : list (string * Z)) : Z := foldr (λ o acc, o.2 + acc) 0 l.

Lemma outputs_amount_app l l' : outputs_amount (l ++ l') = outputs_amount l + outputs_amount l'.
Proof. unfold outputs_amount. induction l as [|o l IH]; cbn [foldr app]; [done|]. rewrite IH. lia. Qed.

Lemma remove_one_elem x y l : y ∈ remove_one x l → y ∈ l.
Proof.
  induction l as [|z l IH]; cbn [remove_one]; [done|]. destruct (str_eqb x z); [by apply list_elem_of_further|].
  rewrite !elem_of_cons. intros [->|H]; [by left|right; by apply IH].
Qed.

Lemma remove_one_gone x l : NoDup l → x ∉ remove_one x l.
Proof.
  induction 1 as [|z l Hz _ IH]; cbn [remove_one]; [apply not_elem_of_nil|]. destruct (str_eqb x z) eqn:E.
  - by apply str_eqb_eq in E as ->.
  - rewrite not_elem_of_cons. split; [|done]. intros ->. by rewrite str_eqb_refl in E.
Qed.

(** ** Properties *)

(** A payment balances: the inputs are sources that were taken from one address, the
    recipient is another one and gets the value, what goes back to the first is the rest,
    and the inputs are worth the outputs and the fees. *)
Theorem payment_balances rand val fees d inputs outputs d' :
  NoDup (dkeys d) → pay_input_output rand val fees d = (Ok (inputs, outputs), d') →
  ∃ from to taken change, inputs = map fst taken ∧ outputs = change ++ [(to, val)] ∧
    amount taken = outputs_amount outputs + fees ∧
    from ∈ dkeys d ∧ to ∈ dkeys d ∧ from ≠ to ∧ Forall (λ o : string * Z, o.1 = from ∧ 0 < o.2) change ∧
    ∀ a, usable (sources d a) ≡ₚ (if decide (from = a) then taken else []) ++ usable (sources d' a).
Proof.
  intros Hnd. unfold pay_input_output, gen_input_output.
  pose proof (spend_from_spec (val + fees) (dkeys d) d Hnd) as Hs.
  pose proof (spend_from_keys (val + fees) (dkeys d) d (λ a H, H)) as Hk.
  destruct (spend_from _ _ _) as [[sp|] d1]; [|done]. destruct Hs as (Hall & Hin & Hi & _ & Ha & Hc & _). cbn [snd] in Hk.
  destruct (_ !! _) as [to|] eqn:E; [|done]. intros [= <- <- <-].
  apply list_elem_of_lookup_2 in E. rewrite Hk in E. exists (sp_address sp), to, (sp_txos sp), (sp_outputs sp).
  repeat (split; [done|]). rewrite outputs_amount_app. split; [unfold outputs_amount at 2; cbn [foldr snd]; unfold outputs_amount; lia|].
  split; [done|]. split; [by eapply remove_one_elem|]. split; [|split; [done|exact Hall]].
  intros Heq. rewrite <-Heq in E. by apply remove_one_gone in E.
Qed.

Definition two_addresses : Sources := [("A", [("s1", 2); ("s2", 4)]); ("B", [("s3", 1)])].

Lemma payment_balances_witness :
  pay_input_output 0 1 2 two_addresses = (Ok (["s2"], [("A", 1); ("B", 1)]), [("A", [("s1", 2)]); ("B", [("s3", 1)])]) ∧
  ∃ from to taken change, ["s2"] = map fst taken ∧ [("A", 1); ("B", 1)] = change ++ [(to, 1)] ∧
    amount taken = outputs_amount [("A", 1); ("B", 1)] + 2 ∧ from ≠ to.
Proof.
  split; [by vm_compute|].
  destruct (payment_balances 0 1 2 two_addresses ["s2"] [("A", 1); ("B", 1)] [("A", [("s1", 2)]); ("B", [("s3", 1)])])
    as (from & to & taken & change & H1 & H2 & H3 & _ & _ & H4 & _).
  - apply (bool_decide_unpack _). by vm_compute.
  - by vm_compute.
  - exists from, to, taken, change. by repeat split.
Defined.

(** A payment that fails, or that the pool refuses, leaves the sources as they are: those
    that were taken for it are not put back. *)
Theorem refused_payment_keeps_taken json_loads parse_receipts gen_req resp p :
  match resp with
  | Raise _ => True
  | Ok r => payment_made json_loads r = Ok false
  end →
  ∃ p', pay_on_request_replied json_loads parse_receipts gen_req resp p = (Ok tt, p') ∧ pay_txos p' = pay_txos p.
Proof.
  intros H. unfold pay_on_request_replied. destruct (decide _); [|by eexists]. destruct resp as [r|]; [|by eexists].
  unfold act_bind, lift. rewrite H. by eexists.
Qed.

(** With one address there is nobody to pay: the sources are taken and lost. *)
Theorem lonely_address_loses_sources :
  pay_input_output 0 1 2 [("A", [("s1", 2); ("s2", 4)])] = (Raise IndexError, [("A", [("s1", 2)])]).
Proof. by vm_compute. Qed.
