(* ===== verification/LoadRequests.v ===== *)
(** * The generators of requests of the load generation

    [scripts/performance/perf_load]: where a generator gets its data from
    (perf_req_gen.py and the classes of its siblings that read them from a file), the
    sequence of several generators (perf_req_gen_seq.py), the parser of the kinds of
    requests (perf_gen_req_parser.py), the counters of the generators of GET_TXN
    (perf_req_gen_get_txn.py) and of registry entries (perf_req_gen_revoc.py), and the
    registry of demoted nodes (perf_utils.py).

    What a generator builds of its data is a call of the indy SDK.  [json.loads] and the
    random choices are arguments. *)
From S2P Require Import Prelude PyValue Plenum Constants StateDomain IdrCache HandlerBase Upgrader PoolUpgrade World LoadStat LoadClient LoadRunner.

(** ** Data from a file *)

(** [s.split(sep, maxsplit=n)] for a [sep] that is not empty: [k] splits are left, [skip]
    characters of the separator are still to be consumed. *)
Fixpoint split_max_go (sep : string) (k skip : nat) (acc s : string) : list string :=
  match s with
  | EmptyString => [acc]
  | String c s' =>
      match skip, k with
      | S n, _ => split_max_go sep k n acc s'
      | O, S k' => if String.prefix sep s then acc :: split_max_go sep k' (String.length sep - 1) "" s'
                   else split_max_go sep k 0 (acc +:+ String c "") s'
      | O, O => split_max_go sep k 0 (acc +:+ String c "") s'
      end
  end.

Definition py_split_max (sep : string) (n : Z) (s : string) : list string :=
  if Z.ltb n 0 then py_split sep s else split_max_go sep (Z.to_nat n) 0 "" s.

(** [l[i]]: a negative index counts from the end. *)
Definition py_item {A} (l : list A) (i : Z) : res A :=
  let j := if Z.ltb i 0 then (i + Z.of_nat (length l))%Z else i in
  if Z.ltb j 0 then Raise IndexError
  else match l !! Z.to_nat j with Some x => Ok x | None => Raise IndexError end.

(** What a class makes of a line: the object, the id of its transaction (taken by every
    class of the chain that overrides the method), the target of a NYM, the raw data of
    an ATTRIB. *)
Inductive FileData := FdPlain | FdTxnId (n : nat) | FdDest | FdRaw.

(** [RequestGenerator]: the arguments that say how a file is read. *)
Record FileFormat := mkFormat {
  req_types : list string;
  file_sep : string;
  file_max_split : Z;
  file_field : Z;
  file_data : FileData
}.

Definition default_format (types : list string) (fd : FileData) : FileFormat := mkFormat types "|" 2 2 fd.

Record DataFile := mkDataFile {
  file_lines : list string;
  file_start_pos : nat;
  file_pos : nat
}.

(** The lines with their line breaks; the first one is a header. *)
Definition open_data_file (l : list string) (ignore_first_line : bool) : DataFile :=
  let start := if ignore_first_line then Nat.min 1 (length l) else 0 in mkDataFile l start start.

Definition seek (p : nat) (f : DataFile) : DataFile := mkDataFile (file_lines f) (file_start_pos f) p.

Definition readline (f : DataFile) : option string * DataFile :=
  match file_lines f !! file_pos f with
  | Some l => (Some l, seek (S (file_pos f)) f)
  | None => (None, f)
  end.

Section Data.
Context (json_loads : string → res val).

(** The field of a line: its object when the type is one of the generator's. *)
Definition of_type (ft : FileFormat) (x : string) : res val :=
  let! tmp := json_loads x in
  match req_types ft with
  | [] => Ok VNone
  | types => let! t := get_type_field tmp in
             Ok (if existsb (λ n, py_eq t (VStr n)) types then tmp else VNone)
  end.

Fixpoint txnid_times (n : nat) (v : val) : res val :=
  match n with
  | O => Ok v
  | S n' => let! u := txnid_times n' v in get_txnid_field u
  end.

(** What the [_from_file_str_data] of a class makes of what that of the base class
    returns. *)
Definition extract (fd : FileData) (tmp : val) : res val :=
  match fd with
  | FdPlain => Ok tmp
  | FdTxnId n => txnid_times n tmp
  | FdDest => let! t := get_txn_field tmp in let! d := val_get "data" (VDict []) t in val_get "dest" VNone d
  | FdRaw => let! t := get_txn_field tmp in let! d := val_get "data" (VDict []) t in val_get "raw" VNone d
  end.

Definition from_file_str_data (ft : FileFormat) (file_str : string) : res val :=
  let line_vals := py_split_max (file_sep ft) (file_max_split ft) file_str in
  let! tmp := if Z.ltb (file_field ft) (Z.of_nat (length line_vals))
              then let! x := py_item line_vals (file_field ft) in of_type ft x
              else Ok VNone in
  extract (file_data ft) tmp.

(** The loop of [_gen_req_data]. *)
Fixpoint gen_req_data (fuel : nat) (ft : FileFormat) (f : DataFile) : res val * DataFile :=
  match fuel with
  | O => (Raise OutOfFuel, f)
  | S fuel' =>
      let '(l, f1) := readline f in
      let '(l, f2) := match l with Some s => (Some s, f1) | None => readline (seek (file_start_pos f1) f1) end in
      match l with
      | None => (Raise (PyException "Data file does not contain valid entries"), f2)
      | Some s =>
          match from_file_str_data ft s with
          | Raise e => (Raise e, f2)
          | Ok VNone => gen_req_data fuel' ft f2
          | Ok v => (Ok v, f2)
          end
      end
  end.

(** The data of [n] requests, and the file after them. *)
Fixpoint gen_many (fuel n : nat) (ft : FileFormat) (f : DataFile) : list (res val) * DataFile :=
  match n with
  | O => ([], f)
  | S n' => let '(r, f1) := gen_req_data fuel ft f in
            let '(rs, f2) := gen_many fuel n' ft f1 in (r :: rs, f2)
  end.
End Data.

(** ** Lemmas: lines *)

Lemma split_max_go_skip sep k a acc rest :
  split_max_go sep k (String.length a) acc (a +:+ rest) = split_max_go sep k 0 acc rest.
Proof. induction a as [|c a IH]; [done|]. exact IH. Qed.

Lemma split_max_go_field sep k x acc rest :
  sep ≠ "" → sep_free sep x sep = true →
  split_max_go sep (S k) 0 acc (x +:+ sep +:+ rest) = (acc +:+ x) :: split_max_go sep k 0 "" rest.
Proof.
  intros Hsep. revert acc. induction x as [|c x IH]; intros acc Hx.
  - destruct sep as [|d sep]; [done|]. rewrite str_app_nil_r.
    change ("" +:+ String d sep +:+ rest) with (String d sep +:+ rest).
    change (String d sep +:+ rest) with (String d (sep +:+ rest)) at 1. cbn [split_max_go].
    change (String d (sep +:+ rest)) with (String d sep +:+ rest).
    rewrite prefix_app. f_equal. cbn [String.length].
    replace (S (String.length sep) - 1) with (String.length sep) by lia. apply split_max_go_skip.
  - cbn [sep_free] in Hx. apply andb_true_iff in Hx as [Hp Hx].
    change (String c x +:+ sep +:+ rest) with (String c (x +:+ sep +:+ rest)). cbn [split_max_go].
    change (String c (x +:+ sep +:+ rest)) with (String c x +:+ sep +:+ rest).
    rewrite <- str_app_assoc, prefix_app_long by (rewrite str_app_length; simpl; lia).
    apply negb_true_iff in Hp. rewrite Hp, IH by done. by rewrite str_app_assoc.
Qed.

Lemma split_max_go_rest sep acc x : split_max_go sep 0 0 acc x = [acc +:+ x].
Proof.
  revert acc. induction x as [|c x IH]; intros acc; cbn [split_max_go]; [by rewrite str_app_nil_r|].
  rewrite IH. by rewrite str_app_assoc.
Qed.

(** The answer in a line of the runner is read back, whatever is in it. *)
Lemma request_line_fields sep exn_str r_id r :
  sep ≠ "" → sep_free sep r_id sep = true → sep_free sep (or_empty (rs_req r)) sep = true →
  py_split_max sep 2 (request_line exn_str sep r_id r +:+ newline) =
    [r_id; or_empty (rs_req r); answer_str exn_str (rs_resp r) +:+ newline].
Proof.
  intros Hs Hi Hr. unfold py_split_max, request_line. cbn [Z.ltb Z.compare py_join]. change (Z.to_nat 2) with 2.
  rewrite !str_app_assoc. rewrite split_max_go_field by done. rewrite split_max_go_field by done.
  by rewrite split_max_go_rest.
Qed.

(** ** Lemmas: files *)

Section Files.
Context (json_loads : string → res val) (ft : FileFormat).

Definition found (l : string) (v : val) : Prop := from_file_str_data json_loads ft l = Ok v ∧ v ≠ VNone.

Lemma gen_req_data_at fuel f l v :
  file_lines f !! file_pos f = Some l → found l v →
  gen_req_data json_loads (S fuel) ft f = (Ok v, seek (S (file_pos f)) f).
Proof.
  intros Hl [Hv Hn]. cbn [gen_req_data]. unfold readline. rewrite Hl, Hv. by destruct v.
Qed.

Lemma gen_req_data_wrap fuel f :
  file_lines f !! file_pos f = None → is_Some (file_lines f !! file_start_pos f) →
  gen_req_data json_loads fuel ft f = match fuel with O => (Raise OutOfFuel, f) | _ => gen_req_data json_loads fuel ft (seek (file_start_pos f) f) end.
Proof.
  intros He [l Hl]. destruct fuel as [|fuel]; [done|]. cbn [gen_req_data]. unfold readline. rewrite He. cbn. by rewrite Hl.
Qed.

(** The lines after the header, in order and over again. *)
Lemma gen_many_cycle fuel h body vs : ∀ n k,
  Forall2 found body vs → body ≠ [] → k ≤ length body →
  (gen_many json_loads (S fuel) n ft (mkDataFile (h :: body) 1 (S k))).1 =
    map (λ i, Ok (default VNone (vs !! ((k + i) mod length body)))) (seq 0 n).
Proof.
  intros n. induction n as [|n IH]; intros k Hb Hne Hk; [done|].
  assert (0 < length body) as Hpos by (destruct body; [done|cbn; lia]).
  assert (∀ j, j < length body → gen_req_data json_loads (S fuel) ft (mkDataFile (h :: body) 1 (S j)) =
    (Ok (default VNone (vs !! j)), mkDataFile (h :: body) 1 (S (S j)))) as Hat.
  { intros j [l Hl]%lookup_lt_is_Some. destruct (Forall2_lookup_l _ _ _ _ _ Hb Hl) as (v & Hv & Hf).
    rewrite (gen_req_data_at fuel _ l v) by done. by rewrite Hv. }
  assert (gen_req_data json_loads (S fuel) ft (mkDataFile (h :: body) 1 (S k)) =
    (Ok (default VNone (vs !! (k mod length body))), mkDataFile (h :: body) 1 (S (S (k mod length body))))) as Hg.
  { destruct (decide (k = length body)) as [->|].
    - rewrite gen_req_data_wrap; [|by apply lookup_ge_None; cbn; lia|by apply lookup_lt_is_Some; cbn; lia].
      rewrite Nat.Div0.mod_same. by apply Hat.
    - rewrite Nat.mod_small by lia. apply Hat. lia. }
  cbn [gen_many]. rewrite Hg. specialize (IH (S (k mod length body)) Hb Hne).
  pose proof (Nat.mod_upper_bound k (length body)). destruct (gen_many _ _ _ _ _) as [rs f2] eqn:E.
  cbn [fst seq map]. rewrite Nat.add_0_r. f_equal. cbn [fst] in IH. rewrite IH by lia.
  rewrite <-seq_shift, map_map. apply map_ext. intros i. do 3 f_equal.
  replace (S (k mod length body) + i) with (k mod length body + S i) by lia. apply Nat.Div0.add_mod_idemp_l.
Qed.
End Files.

(** ** Properties: files *)

(** What the runner writes is what a generator reads: of the file with the successful
    requests of a run, the generator takes the answers of the requests one by one and
    starts over after the last, whatever the answers contain; the ids and texts of the
    requests may not contain the separator. *)
Theorem successful_requests_replayed json_loads exn_str types fd st reqs vs fuel n :
  value_separator st = "|" → reqs ≠ [] →
  Forall2 (λ ir v, sep_free "|" ir.1 "|" = true ∧ sep_free "|" (or_empty (rs_req ir.2)) "|" = true ∧
    (let! tmp := of_type json_loads (default_format types fd) (answer_str exn_str (rs_resp ir.2) +:+ newline) in
     extract fd tmp) = Ok v ∧ v ≠ VNone) reqs vs →
  (gen_many json_loads (S fuel) n (default_format types fd)
     (open_data_file (kind_header st :: map (λ ir, request_line exn_str (value_separator st) ir.1 ir.2 +:+ newline) reqs) true)).1 =
    map (λ i, Ok (default VNone (vs !! (i mod length reqs)))) (seq 0 n).
Proof.
  intros Hs Hne Hall. unfold open_data_file. cbn [length Nat.min].
  rewrite (gen_many_cycle json_loads (default_format types fd) fuel (kind_header st) _ vs n 0).
  - by rewrite length_map.
  - apply Forall2_fmap_l. eapply Forall2_impl; [exact Hall|]. intros [i r] v (Hi & Hr & Hv & Hn). split; [|done].
    unfold from_file_str_data. cbn [default_format file_sep file_max_split file_field file_data]. rewrite Hs.
    by rewrite request_line_fields.
  - by destruct reqs.
  - lia.
Qed.

(** A file with lines of which none is good keeps the loop of [_gen_req_data] going for
    ever: only a file without any line is an error. *)
Theorem file_without_entries_loops json_loads ft h body fuel k :
  Forall (λ l, from_file_str_data json_loads ft l = Ok VNone) body → body ≠ [] → k ≤ length body →
  (gen_req_data json_loads fuel ft (mkDataFile (h :: body) 1 (S k))).1 = Raise OutOfFuel.
Proof.
  intros Hall Hne. revert k. induction fuel as [|fuel IH]; intros k Hk; [done|].
  assert (0 < length body) as Hpos by (destruct body; [done|cbn; lia]).
  assert (∀ j, j < length body → (gen_req_data json_loads (S fuel) ft (mkDataFile (h :: body) 1 (S j))).1 = Raise OutOfFuel) as Hat.
  { intros j Hj. pose proof Hj as [l Hl]%lookup_lt_is_Some. cbn [gen_req_data]. unfold readline.
    change (file_lines (mkDataFile (h :: body) 1 (S j)) !! file_pos (mkDataFile (h :: body) 1 (S j))) with (body !! j).
    rewrite Hl. rewrite (proj1 (Forall_lookup _ _) Hall j l Hl). apply (IH (S j)). lia. }
  destruct (decide (k = length body)) as [->|]; [|apply Hat; lia].
  rewrite gen_req_data_wrap; [by apply Hat|by apply lookup_ge_None; cbn; lia|by apply lookup_lt_is_Some; cbn; lia].
Qed.

(** The generators of registry definitions and entries take the id of a transaction out
    of what the class before them has made of the line already: the first good line of a
    file raises. *)
Theorem revocation_file_raises json_loads types n s x rest tmp id :
  py_split_max "|" 2 s = rest ++ [x] → length rest = 2 → of_type json_loads (default_format types (FdTxnId 1)) x = Ok tmp →
  get_txnid_field tmp = Ok (VStr id) → id ≠ "" → 2 ≤ n →
  from_file_str_data json_loads (default_format types (FdTxnId n)) s = Raise AttributeError.
Proof.
  intros Hs Hl Hx Hid Hne Hn. unfold from_file_str_data. cbn [default_format file_sep file_max_split file_field file_data].
  rewrite Hs, length_app, Hl. unfold py_item. change (2 <? Z.of_nat (2 + length [x]))%Z with true. cbn iota.
  change (2 <? 0)%Z with false. cbn iota. change (2 <? 0)%Z with false. cbn iota.
  rewrite lookup_app_r by (rewrite Hl; cbn; lia). rewrite Hl. change ([x] !! (Z.to_nat 2 - 2)) with (Some x). cbn [res_bind].
  change (of_type json_loads (default_format types (FdTxnId n)) x) with (of_type json_loads (default_format types (FdTxnId 1)) x).
  rewrite Hx. cbn [res_bind extract].
  assert (∀ m, 2 ≤ m → txnid_times m tmp = Raise AttributeError) as Hm; [|by apply Hm].
  induction 1 as [|m _ IH]; cbn [txnid_times res_bind]; [|by rewrite IH].
  rewrite Hid. cbn [res_bind]. unfold get_txnid_field, or_empty_dict. cbn [py_truth].
  by rewrite (proj2 (str_eqb_neq id "")).
Qed.

(** A reply with a schema, and two requests with such replies. *)
Definition schema_reply (id : string) : val :=
  VDict [("op", VStr "REPLY");
         ("result", VDict [("txn", VDict [("type", VStr "101")]); ("txnMetadata", VDict [("txnId", VStr id)])])].

Definition sample_loads (s : string) : res val :=
  if str_eqb s ("a" +:+ newline) then Ok (schema_reply "A|1")
  else if str_eqb s ("b" +:+ newline) then Ok (schema_reply "B") else Raise JSONDecodeError.

Definition answered_request (id resp : string) : string * ReqStat :=
  (id, set_status "succ" (Some (AText resp)) (set_sent 0 (Some "request") no_req_stat)).

Lemma successful_requests_replayed_witness :
  (gen_many sample_loads 1 3 (default_format ["101"] (FdTxnId 1))
     (open_data_file (kind_header sample_settings ::
        map (λ ir, request_line (λ _, "") "|" ir.1 ir.2 +:+ newline) [answered_request "1" "a"; answered_request "2" "b"]) true)).1 =
    [Ok (VStr "A|1"); Ok (VStr "B"); Ok (VStr "A|1")].
Proof.
  refine (successful_requests_replayed sample_loads (λ _, "") ["101"] (FdTxnId 1) sample_settings
    [answered_request "1" "a"; answered_request "2" "b"] [VStr "A|1"; VStr "B"] 0 3 _ _ _); [by vm_compute|done|].
  repeat constructor; by vm_compute.
Defined.

(** ** A sequence of generators *)

(** [RGSeqReqs]: the numbers of the generators, one for each time it is asked in a round,
    and the index of the last one; [None] before the first. *)
Record Seq := mkSeq {
  reqs_collection : list nat;
  req_idx : option nat
}.

(** The count of a generator and what its constructor is given. *)
Definition share (prms : val) : res (val * dict val) :=
  let bad := Raise (PyException "Bad Request params provided") in
  match prms with
  | VInt n => if Z.ltb 0 n then Ok (prms, []) else bad
  | VBool true => Ok (prms, [])
  | VDict p => Ok (default (VInt 1) (dget "count" p), p)
  | _ => bad
  end.

(** How often [range(0, cnt)] makes the loop run. *)
Definition range_count (cnt : val) : res nat :=
  match cnt with
  | VInt n => Ok (Z.to_nat n)
  | VBool b => Ok (if b then 1 else 0)
  | _ => Raise (TypeError "an integer is required")
  end.

Section Sequence.
Context {C G : Type} (new_gen : C → dict val → res G).

(** [RGSeqReqs.__init__]: the generators and the collection. *)
Definition new_Seq (reqs : list (C * val)) : res (list G * Seq) :=
  let! gc := res_fold (λ gc r,
      let! sp := share r.2 in
      let! g := new_gen r.1 sp.2 in
      let! n := range_count sp.1 in
      Ok (gc.1 ++ [g], gc.2 ++ replicate n (length gc.1)))
    ([], []) reqs in
  match gc.2 with
  | [] => Raise (PyException "At least one class should be provided")
  | c => Ok (gc.1, mkSeq c None)
  end.
End Sequence.

(** [_next_idx]: the next one, or the one [rand] chose. *)
Definition seq_idx (s : Seq) : nat :=
  match req_idx s with None => 0 | Some i => S i end mod length (reqs_collection s).

Definition next_idx (rand : option nat) (s : Seq) : nat := match rand with Some i => i | None => seq_idx s end.

(** [_gen_req_data]: the generator that is asked. *)
Definition seq_gen_req_data (rand : option nat) (s : Seq) : option nat * Seq :=
  let i := next_idx rand s in (reqs_collection s !! i, mkSeq (reqs_collection s) (Some i)).

(** [req_did], [get_label] and [_gen_req] ask the generator of the last index: -1, before
    the first request, is the last one of the list. *)
Definition seq_current (s : Seq) : option nat :=
  match req_idx s with Some i => reqs_collection s !! i | None => last (reqs_collection s) end.

(** The generators asked for [n] requests, in turn. *)
Fixpoint seq_asked (n : nat) (s : Seq) : list (option nat) * Seq :=
  match n with
  | O => ([], s)
  | S n' => let '(g, s1) := seq_gen_req_data None s in let '(gs, s2) := seq_asked n' s1 in (g :: gs, s2)
  end.

Lemma seq_asked_spec n : ∀ s, reqs_collection s ≠ [] →
  let k := match req_idx s with None => 0 | Some i => S i end in
  seq_asked n s = (map (λ i, reqs_collection s !! ((k + i) mod length (reqs_collection s))) (seq 0 n),
    mkSeq (reqs_collection s) (match n with O => req_idx s | S n' => Some ((k + n') mod length (reqs_collection s)) end)).
Proof.
  induction n as [|n IH]; intros [c i] Hc; [done|]. cbn [reqs_collection req_idx] in *. cbn zeta.
  cbn [seq_asked]. unfold seq_gen_req_data, next_idx, seq_idx. cbn [reqs_collection req_idx]. rewrite IH by done.
  cbn [reqs_collection req_idx]. set (k := match i with None => 0 | Some i => S i end).
  assert (∀ j, (S (k mod length c) + j) mod length c = (k + S j) mod length c) as Hm.
  { intros j. replace (S (k mod length c) + j) with (k mod length c + S j) by lia. apply Nat.Div0.add_mod_idemp_l. }
  f_equal.
  - cbn [seq map]. rewrite Nat.add_0_r. f_equal. rewrite <-seq_shift, map_map. apply map_ext. intros j. by rewrite Hm.
  - f_equal. destruct n as [|n]; [by rewrite Nat.add_0_r|]. f_equal. apply Hm.
Qed.

(** ** Kinds of requests *)

(** [ReqTypeParser._supported_requests]: each kind has a class of its own, so the kind
    stands for the class. *)
Definition supported_requests : list string :=
  ["nym"; "schema"; "attrib"; "cred_def"; "revoc_reg_def"; "revoc_reg_entry"; "get_nym"; "get_attrib"; "get_schema";
   "get_cred_def"; "get_revoc_reg_def"; "get_revoc_reg"; "get_revoc_reg_delta"; "get_payment_sources"; "payment";
   "verify_payment"; "cfg_writes"; "demoted_node"; "get_txn"; "get_taa"; "get_taa_aml"; "get_auth_rule"; "get_fees";
   "demote"; "promote"].

Definition supported (k : string) : bool := existsb (str_eqb k) supported_requests.

Definition set_label (label : string) (param : val) : res val :=
  match param with
  | VDict p => Ok (VDict (dset "label" (VStr label) p))
  | _ => Raise (TypeError "object does not support item assignment")
  end.

(** [__add_label]: a number is the count; the label is the kind unless there is one. *)
Definition add_label (kind : string) (param : val) : res (string * val) :=
  let ret_dict := match param with
                  | VNone => VDict []
                  | VInt _ | VBool _ => VDict [("count", param)]
                  | _ => param
                  end in
  let has := match ret_dict with
             | VDict p => dhas "label" p
             | VList l => existsb (py_eq (VStr "label")) l
             | VStr s => py_in_str "label" s
             | _ => false
             end in
  let! p := if has then Ok ret_dict else set_label kind ret_dict in Ok (kind, p).

Definition invalid_format {A} : res A := Raise (PyException "Invalid parameter format").

Definition recursion_error {A} : res A := Raise (PyException "RecursionError").

(** [ret_par.update({'label': k})] *)
Definition relabel (k : string) (cp : string * val) : res (string * val) :=
  match cp.2 with
  | VDict p => Ok (cp.1, VDict (dset "label" (VStr k) p))
  | _ => Raise AttributeError
  end.

(** [__parse_single(None, prms)], which is [__parse_single(prms, None)]: without a kind
    and parameters it calls itself without end.  A name that is not supported is the
    label of the request its parameters describe. *)
Fixpoint parse_unnamed (prms : val) : res (string * val) :=
  match prms with
  | VNone => recursion_error
  | VStr k => if supported k then add_label k VNone else let! cp := recursion_error in relabel k cp
  | VDict [(k, v)] => if supported k then add_label k v else let! cp := parse_unnamed v in relabel k cp
  | _ => invalid_format
  end.

(** [__parse_single(k, prms)] *)
Definition parse_named (k : string) (prms : val) : res (string * val) :=
  if supported k then add_label k prms else let! cp := parse_unnamed prms in relabel k cp.

(** [__parse_single(r, {})] of an element of a list. *)
Definition parse_element (r : val) : res (string * val) :=
  match r with
  | VNone => invalid_format
  | VStr k => parse_named k (VDict [])
  | VDict [(k, v)] => parse_named k v
  | _ => invalid_format
  end.

(** What [create_req_generator] returns: a class with its parameters, or the sequence. *)
Inductive Generator :=
| Single (kind : string) (params : val)
| Sequence (next_random : bool) (reqs : list (string * val)).

Definition create_req_generator (json_loads : string → res val) (req_kind_arg : string) : res Generator :=
  if supported req_kind_arg then Ok (Single req_kind_arg (VDict [("label", VStr req_kind_arg)])) else
  match json_loads req_kind_arg with
  | Raise _ => invalid_format
  | Ok reqs =>
      let! rr := match reqs with
                 | VDict d => let! l := res_mapM (λ kv, parse_named kv.1 kv.2) d in Ok (true, l)
                 | VList l => let! l' := res_mapM parse_element l in Ok (false, l')
                 | _ => Ok (false, [])
                 end in
      match rr.2 with
      | [(k, p)] => let! kp := add_label k p in Ok (Single kp.1 kp.2)
      | l => Ok (Sequence rr.1 l)
      end
  end.

(** *** Every request has a label *)

Definition labelled (kp : string * val) : Prop :=
  supported kp.1 = true ∧
  match kp.2 with
  | VDict p => dhas "label" p = true
  | VList l => existsb (py_eq (VStr "label")) l = true
  | VStr s => py_in_str "label" s = true
  | _ => False
  end.

Lemma dhas_dset {A} k (v : A) d : dhas k (dset k v d) = true.
Proof. unfold dhas. by rewrite dget_dset_eq. Qed.

Lemma add_label_labelled k prms kp : supported k = true → add_label k prms = Ok kp → labelled kp.
Proof.
  intros Hk. unfold add_label. destruct prms as [|b|z|s|l|d]; cbn -[py_in_str existsb dhas dset].
  1-3: (intros [= <-]; by split).
  - destruct (py_in_str "label" s) eqn:E; intros [= <-]; by split.
  - destruct (existsb _ l) eqn:E; intros [= <-]; by split.
  - destruct (dhas "label" d) eqn:E; intros [= <-]; split; [done..|]. apply dhas_dset.
Qed.

Lemma relabel_labelled k cp kp : supported cp.1 = true → relabel k cp = Ok kp → labelled kp.
Proof.
  unfold relabel. intros Hk. destruct cp as [c [| | | | |d]]; cbn -[dset]; try done. intros [= <-]. split; [done|]. apply dhas_dset.
Qed.

Lemma parse_unnamed_labelled prms : ∀ kp, parse_unnamed prms = Ok kp → labelled kp.
Proof.
  induction prms as [|b|z|s|l IH|d IH] using val_ind'; intros kp; cbn [parse_unnamed]; try done.
  - destruct (supported s) eqn:Hs; [by apply add_label_labelled|done].
  - destruct d as [|[k v] [|]]; try done. destruct (supported k) eqn:Hk; [by apply add_label_labelled|].
    destruct (parse_unnamed v) as [cp|] eqn:E; [|done]. cbn [res_bind]. apply relabel_labelled.
    inversion IH as [|? ? Hv ?]; subst. by destruct (Hv cp E).
Qed.

Lemma parse_named_labelled k prms kp : parse_named k prms = Ok kp → labelled kp.
Proof.
  unfold parse_named. destruct (supported k) eqn:Hk; [by apply add_label_labelled|].
  destruct (parse_unnamed prms) as [cp|] eqn:E; [|done]. cbn [res_bind]. apply relabel_labelled.
  by destruct (parse_unnamed_labelled _ _ E).
Qed.

Lemma parse_element_labelled r kp : parse_element r = Ok kp → labelled kp.
Proof.
  destruct r as [|b|z|s|l|[|[k v] [|]]]; cbn [parse_element]; try done; apply parse_named_labelled.
Qed.

(** Whatever the argument is, it is refused or every request that comes of it is of a
    supported kind and has a label. *)
Theorem generators_labelled json_loads arg g :
  create_req_generator json_loads arg = Ok g →
  match g with Single k p => labelled (k, p) | Sequence _ l => Forall labelled l end.
Proof.
  unfold create_req_generator. destruct (supported arg) eqn:Ha; [intros [= <-]; by split|].
  destruct (json_loads arg) as [reqs|]; [|done].
  match goal with |- context [res_bind ?m _] => destruct m as [[rnd l]|] eqn:Hm; [|done] end. cbn [res_bind snd fst].
  assert (Forall labelled l) as Hl.
  { destruct reqs as [|b|z|s|rs|d]; try (by injection Hm as <- <-).
    - destruct (res_mapM _ rs) as [l'|] eqn:E; [|done]. injection Hm as <- <-. apply res_mapM_Forall2 in E.
      apply Forall_forall. intros kp (i & Hi)%list_elem_of_lookup. destruct (Forall2_lookup_r _ _ _ _ _ E Hi) as (r & _ & Hr).
      by eapply parse_element_labelled.
    - destruct (res_mapM _ d) as [l'|] eqn:E; [|done]. injection Hm as <- <-. apply res_mapM_Forall2 in E.
      apply Forall_forall. intros kp (i & Hi)%list_elem_of_lookup. destruct (Forall2_lookup_r _ _ _ _ _ E Hi) as (r & _ & Hr).
      by eapply parse_named_labelled. }
  destruct l as [|[k p] [|x l]]; [by intros [= <-]| |by intros [= <-]].
  destruct (add_label k p) as [[k' p']|] eqn:E; [|done]. intros [= <-]. inversion Hl as [|? ? [Hk _] _]; subst.
  by eapply add_label_labelled.
Qed.

(** Without a kind and parameters the parser calls itself without end: a name that is not
    supported, with [null] or with another such name. *)
Theorem unknown_kind_recurses json_loads arg k v :
  supported arg = false → json_loads arg = Ok (VDict [(k, v)]) → supported k = false →
  v = VNone ∨ (∃ k', v = VStr k' ∧ supported k' = false) →
  create_req_generator json_loads arg = recursion_error.
Proof.
  intros Ha Hj Hk Hv. unfold create_req_generator. rewrite Ha, Hj. cbn [res_mapM fst snd]. unfold parse_named. rewrite Hk.
  destruct Hv as [->|(k' & -> & Hk')]; cbn [parse_unnamed]; [done|]. by rewrite Hk'.
Qed.

Lemma unknown_kind_recurses_witness :
  create_req_generator (λ _, Ok (VDict [("my requests", VStr "nymm")])) "{}" = recursion_error.
Proof. apply (unknown_kind_recurses _ _ "my requests" (VStr "nymm")); [done|done|done|]. right. by exists "nymm". Defined.

(** *** Rounds *)

Definition times_asked (j : nat) (l : list (option nat)) : nat := length (filter (λ g, g = Some j) l).

Lemma times_asked_app j l l' : times_asked j (l ++ l') = times_asked j l + times_asked j l'.
Proof. unfold times_asked. by rewrite filter_app, length_app. Qed.

Lemma times_asked_fmap j c : times_asked j (map Some c) = length (filter (λ g, g = j) c).
Proof.
  unfold times_asked. induction c as [|g c IH]; [done|]. cbn [map]. destruct (decide (g = j)) as [->|H].
  - rewrite !filter_cons_True by done. cbn. by rewrite IH.
  - rewrite !filter_cons_False by congruence. exact IH.
Qed.

Lemma rounds_asked j c m :
  c ≠ [] → times_asked j (map (λ i, c !! (i mod length c)) (seq 0 (m * length c))) = m * length (filter (λ g, g = j) c).
Proof.
  intros Hc. assert (length c ≠ 0) as Hl by (by destruct c). induction m as [|m IH]; [done|].
  replace (S m * length c) with (m * length c + length c) by lia. rewrite seq_app, map_app, times_asked_app, IH.
  replace (S m * length (filter (λ g, g = j) c)) with (m * length (filter (λ g, g = j) c) + length (filter (λ g, g = j) c)) by lia.
  f_equal. rewrite <-times_asked_fmap. f_equal.
  apply list_eq. intros i. rewrite !list_lookup_fmap. destruct (decide (i < length c)) as [Hi|Hi].
  - rewrite lookup_seq_lt by done. cbn. rewrite Nat.add_comm, Nat.Div0.mod_add, Nat.mod_small by done.
    pose proof Hi as [g Hg]%lookup_lt_is_Some. by rewrite Hg.
  - rewrite lookup_seq_ge by lia. rewrite (lookup_ge_None_2 c i) by lia. done.
Qed.

(** The numbers from [g] on, each as often as its request is to be made. *)
Fixpoint blocks (g : nat) (counts : list nat) : list nat :=
  match counts with [] => [] | n :: counts' => replicate n g ++ blocks (S g) counts' end.

Lemma filter_replicate (n g j : nat) : length (filter (λ h, h = j) (replicate n g)) = if decide (g = j) then n else 0.
Proof.
  induction n as [|n IH]; [by destruct (decide (g = j))|]. cbn [replicate]. destruct (decide (g = j)) as [->|H].
  - rewrite filter_cons_True by done. cbn. by rewrite IH.
  - rewrite filter_cons_False by done. exact IH.
Qed.

Lemma blocks_count counts : ∀ g j,
  length (filter (λ h, h = j) (blocks g counts)) = if decide (g ≤ j) then default 0 (counts !! (j - g)) else 0.
Proof.
  induction counts as [|n counts IH]; intros g j; cbn [blocks]; [by destruct (decide (g ≤ j))|].
  rewrite filter_app, length_app, filter_replicate, IH. destruct (decide (g = j)) as [->|H].
  - rewrite decide_False by lia. rewrite decide_True by lia. rewrite Nat.sub_diag. cbn. lia.
  - destruct (decide (S g ≤ j)) as [Hj|Hj].
    + rewrite decide_True by lia. replace (j - g) with (S (j - S g)) by lia. done.
    + rewrite decide_False by lia. lia.
Qed.

Definition counted (kn : string * nat) : string * val :=
  (kn.1, VDict [("count", VInt (Z.of_nat kn.2)); ("label", VStr kn.1)]).

Section Rounds.
Context {G : Type} (new_gen : string → dict val → res G) (Hnew : ∀ k p, ∃ g, new_gen k p = Ok g).

Lemma new_Seq_fold reqs : ∀ (gens : list G) coll, ∃ gens',
  res_fold (λ gc r,
      let! sp := share r.2 in
      let! g := new_gen r.1 sp.2 in
      let! n := range_count sp.1 in
      Ok (gc.1 ++ [g], gc.2 ++ replicate n (length gc.1)))
    (gens, coll) (map counted reqs) = Ok (gens', coll ++ blocks (length gens) (map snd reqs)) ∧
  length gens' = length gens + length reqs.
Proof.
  induction reqs as [|[k n] reqs IH]; intros gens coll; cbn [map res_fold]; [exists gens; rewrite app_nil_r; split; [done|cbn; lia]|].
  cbn [counted snd fst share]. change (dget "count" [("count", VInt (Z.of_nat n)); ("label", VStr k)]) with (Some (VInt (Z.of_nat n))).
  cbn [default res_bind fst snd]. destruct (Hnew k [("count", VInt (Z.of_nat n)); ("label", VStr k)]) as [g Hg].
  rewrite Hg. cbn [res_bind range_count id]. rewrite Nat2Z.id. cbn [res_bind].
  destruct (IH (gens ++ [g]) (coll ++ replicate n (length gens))) as (gens' & H & Hlen). exists gens'. rewrite H.
  rewrite <-app_assoc, length_app in *. cbn [length blocks] in *. rewrite Nat.add_1_r in *. split; [done|lia].
Qed.
End Rounds.

Lemma parse_counted reqs :
  Forall (λ kn : string * nat, supported kn.1 = true) reqs →
  res_mapM parse_element (map (λ kn, VDict [(kn.1, VInt (Z.of_nat kn.2))]) reqs) = Ok (map counted reqs).
Proof.
  induction 1 as [|[k n] reqs Hk _ IH]; [done|]. cbn [map res_mapM parse_element]. unfold parse_named. cbn [fst snd] in *. rewrite Hk.
  cbn [add_label dhas dget dset set_label str_eqb String.eqb Ascii.eqb Bool.eqb res_bind].
  fold (res_mapM parse_element). rewrite IH. done.
Qed.

(** A list of kinds with numbers, such as [[{"nym": 2}, {"schema": 1}]], is a sequence
    with one generator for each, and every round of it asks each generator as often as
    its number says. *)
Theorem round_robin_shares {G} json_loads (new_gen : string → dict val → res G) arg reqs :
  supported arg = false → (∀ k p, ∃ g, new_gen k p = Ok g) →
  json_loads arg = Ok (VList (map (λ kn, VDict [(kn.1, VInt (Z.of_nat kn.2))]) reqs)) →
  Forall (λ kn, supported kn.1 = true ∧ 0 < kn.2) reqs → 2 ≤ length reqs →
  ∃ l gens s, create_req_generator json_loads arg = Ok (Sequence false l) ∧ new_Seq new_gen l = Ok (gens, s) ∧
    length gens = length reqs ∧
    ∀ m j kn, reqs !! j = Some kn → times_asked j (seq_asked (m * length (reqs_collection s)) s).1 = m * kn.2.
Proof.
  intros Ha Hnew Hj Hall Hlen. exists (map counted reqs).
  destruct (new_Seq_fold new_gen Hnew reqs [] []) as (gens & Hf & Hg). exists gens, (mkSeq (blocks 0 (map snd reqs)) None).
  assert (blocks 0 (map snd reqs) ≠ []) as Hne.
  { destruct reqs as [|[k n] reqs]; [cbn in Hlen; lia|]. inversion Hall as [|? ? [_ Hn] _]; subst. cbn in *. by destruct n; [lia|]. }
  repeat split.
  - unfold create_req_generator. rewrite Ha, Hj. rewrite parse_counted by (eapply Forall_impl; [exact Hall|by intros ? []]).
    cbn [res_bind snd fst]. by destruct reqs as [|? [|? ?]]; [cbn in Hlen; lia..|].
  - unfold new_Seq. rewrite Hf. cbn [res_bind fst snd app length]. by destruct (blocks 0 _).
  - done.
  - intros m j kn Hkn. rewrite seq_asked_spec by done. cbn [fst reqs_collection req_idx Nat.add].
    rewrite rounds_asked by done. rewrite blocks_count, decide_True, Nat.sub_0_r by lia.
    rewrite list_lookup_fmap, Hkn. done.
Qed.

Lemma round_robin_shares_witness :
  ∃ l gens s, create_req_generator (λ _, Ok (VList [VDict [("nym", VInt 2)]; VDict [("schema", VInt 1)]])) "[]" = Ok (Sequence false l) ∧
    new_Seq (λ k _, Ok k) l = Ok (gens, s) ∧ length gens = 2 ∧
    ∀ m j kn, [("nym", 2); ("schema", 1)] !! j = Some kn →
      times_asked j (seq_asked (m * length (reqs_collection s)) s).1 = m * kn.2.
Proof.
  apply (round_robin_shares _ (λ k _, Ok k) "[]" [("nym", 2); ("schema", 1)]); [done|by eexists|done| |cbn; lia].
  repeat constructor.
Defined.

(** A sequence tells the author of the request it was asked for last: when [n] more
    requests are begun before the first is signed, the first is signed for the generator
    of the last one. *)
Theorem author_of_the_last_request n s :
  reqs_collection s ≠ [] →
  let k := match req_idx s with None => 0 | Some i => S i end in
  seq_current (seq_asked (S n) s).2 = reqs_collection s !! ((k + n) mod length (reqs_collection s)) ∧
  hd None (seq_asked (S n) s).1 = reqs_collection s !! (k mod length (reqs_collection s)).
Proof.
  intros Hc k. rewrite seq_asked_spec by done. cbn [snd fst seq_current req_idx reqs_collection].
  split; [done|]. cbn [seq map hd]. by rewrite Nat.add_0_r.
Qed.

Lemma author_of_the_last_request_witness :
  seq_current (seq_asked 2 (mkSeq [0; 1] None)).2 = Some 1 ∧ hd None (seq_asked 2 (mkSeq [0; 1] None)).1 = Some 0.
Proof. exact (author_of_the_last_request 1 (mkSeq [0; 1] None) ltac:(done)). Defined.

(** ** Numbers of transactions *)

Local Open Scope Z_scope.

(** [RGGetTxn] *)
Record TxnNumbers := mkTxnNumbers {
  min_seq : Z;
  max_seq : Z;
  cur_seq : Z
}.

Definition new_TxnNumbers (min_seq_no max_seq_no : Z) : TxnNumbers := mkTxnNumbers min_seq_no max_seq_no (-1).

Definition set_cur (n : Z) (t : TxnNumbers) : TxnNumbers := mkTxnNumbers (min_seq t) (max_seq t) n.

(** [_rand_data]: the number chosen at random, or the next one. *)
Definition txn_rand_data (rand : option Z) (t : TxnNumbers) : res (Z * TxnNumbers) :=
  match rand with
  | Some n => Ok (n, set_cur n t)
  | None =>
      let width := max_seq t - min_seq t in
      if Z.eqb width 0 then Raise (PyException "ZeroDivisionError")
      else let n := min_seq t + (cur_seq t + 1) mod width in Ok (n, set_cur n t)
  end.

(** The number asked for after [n] others, in turn. *)
Fixpoint txn_number (n : nat) (t : TxnNumbers) : res Z :=
  let! mt := txn_rand_data None t in
  match n with O => Ok mt.1 | S n' => txn_number n' mt.2 end.

Lemma txn_number_from_zero n max c :
  0 < max → -1 ≤ c → txn_number n (mkTxnNumbers 0 max c) = Ok ((c + 1 + Z.of_nat n) mod max).
Proof.
  intros Hm. revert c. induction n as [|n IH]; intros c Hc; cbn [txn_number]; unfold txn_rand_data; cbn [max_seq min_seq cur_seq];
    rewrite Z.sub_0_r, (proj2 (Z.eqb_neq max 0)) by lia; unfold set_cur; cbn [res_bind fst snd max_seq min_seq]; rewrite ?Z.add_0_l.
  - by rewrite Z.add_0_r.
  - pose proof (Z.mod_pos_bound (c + 1) max Hm). rewrite IH by lia. f_equal.
    replace ((c + 1) mod max + 1 + Z.of_nat n) with ((c + 1) mod max + (1 + Z.of_nat n)) by lia.
    rewrite Z.add_mod_idemp_l by lia. f_equal. lia.
Qed.

(** From 0 on, the numbers below the maximum are asked for in order. *)
Theorem transactions_in_order n max :
  0 < max → txn_number n (new_TxnNumbers 0 max) = Ok (Z.of_nat n mod max).
Proof. intros Hm. unfold new_TxnNumbers. rewrite txn_number_from_zero by lia. done. Qed.

Lemma transactions_in_order_witness : txn_number 12 (new_TxnNumbers 0 10) = Ok 2.
Proof. by rewrite (transactions_in_order 12 10). Defined.

(** From another number on the minimum is added at each step again: of the numbers from 5
    to 14 the even ones are never asked for. *)
Theorem transactions_left_out n : ∃ x, txn_number n (new_TxnNumbers 5 15) = Ok x ∧ x ∈ [5; 11; 7; 13; 9].
Proof.
  assert (∀ n c, c ∈ [-1; 5; 11; 7; 13; 9] → ∃ x, txn_number n (mkTxnNumbers 5 15 c) = Ok x ∧ x ∈ [5; 11; 7; 13; 9]) as H;
    [|apply H; set_solver].
  clear n. intros n. induction n as [|n IH]; intros c Hc; repeat (apply elem_of_cons in Hc as [->|Hc]); try (by apply not_elem_of_nil in Hc).
  1-6: (eexists; split; [reflexivity|]; apply (bool_decide_unpack _); by vm_compute).
  all: (apply IH; apply (bool_decide_unpack _); by vm_compute).
Qed.

(** ** Registry entries *)

(** [RGEntryRevoc]: the requests that are being made, how many were made for the registry
    in use, and how many registries there were. *)
Record EntryNumbers := mkEntryNumbers {
  old_reqs : gset string;
  old_reqs_cnt : Z;
  max_cred_num : Z;
  registries : nat
}.

Definition new_EntryNumbers (max_num : Z) : EntryNumbers := mkEntryNumbers ∅ 0 max_num 1.

(** [_upd_revoc_reg] tries until it has a registry. *)
Definition upd_revoc_reg (e : EntryNumbers) : EntryNumbers :=
  mkEntryNumbers (old_reqs e) 0 (max_cred_num e) (S (registries e)).

Definition entry_gen_req_data (req_data : string) (e : EntryNumbers) : EntryNumbers :=
  mkEntryNumbers ({[req_data]} ∪ old_reqs e) (old_reqs_cnt e) (max_cred_num e) (registries e).

(** [_gen_req]: [built] is false when the registry has no more credentials. *)
Definition entry_gen_req (built : bool) (e : EntryNumbers) : res unit * EntryNumbers :=
  if built then (Ok tt, e) else (Raise no_req_data, upd_revoc_reg e).

Definition entry_on_request_generated (req_data : string) (e : EntryNumbers) : EntryNumbers :=
  let e1 := if decide (req_data ∈ old_reqs e)
            then mkEntryNumbers (old_reqs e ∖ {[req_data]}) (old_reqs_cnt e + 1) (max_cred_num e) (registries e) else e in
  if Z.leb (max_cred_num e1) (old_reqs_cnt e1) then upd_revoc_reg e1 else e1.

Inductive EntryEvent := EnData (d : string) | EnReq (built : bool) | EnGenerated (d : string).

Definition entry_step (ev : EntryEvent) (e : EntryNumbers) : EntryNumbers :=
  match ev with
  | EnData d => entry_gen_req_data d e
  | EnReq built => (entry_gen_req built e).2
  | EnGenerated d => entry_on_request_generated d e
  end.

Definition entry_run (l : list EntryEvent) (e : EntryNumbers) : EntryNumbers := foldl (flip entry_step) e l.

(** How many of the events are requests that were made. *)
Definition made (l : list EntryEvent) : nat := length (filter (λ ev, match ev with EnGenerated _ => true | _ => false end = true) l).

Lemma entry_run_app l ev e : entry_run (l ++ [ev]) e = entry_step ev (entry_run l e).
Proof. unfold entry_run. by rewrite foldl_app. Qed.

Lemma made_app l ev : made (l ++ [ev]) = (made l + match ev with EnGenerated _ => 1 | _ => 0 end)%nat.
Proof. unfold made. rewrite filter_app, length_app. f_equal. by destruct ev. Qed.

(** In every order of events: a registry is not used for more entries than it has
    credentials, and a new one is made only after as many entries, unless the wallet
    reports before that a registry is used up. *)
Theorem entries_per_registry max l :
  0 < max → let e := entry_run l (new_EntryNumbers max) in
  0 ≤ old_reqs_cnt e < max ∧
  (Forall (λ ev, ev ≠ EnReq false) l → (Z.of_nat (registries e) - 1) * max + old_reqs_cnt e ≤ Z.of_nat (made l)).
Proof.
  intros Hmax. cbn zeta.
  enough (max_cred_num (entry_run l (new_EntryNumbers max)) = max ∧ 0 ≤ old_reqs_cnt (entry_run l (new_EntryNumbers max)) < max ∧
    (Forall (λ ev, ev ≠ EnReq false) l → (Z.of_nat (registries (entry_run l (new_EntryNumbers max))) - 1) * max +
      old_reqs_cnt (entry_run l (new_EntryNumbers max)) ≤ Z.of_nat (made l))) as (_ & H & H'); [by split|].
  induction l as [|ev l IH] using rev_ind; [cbn; repeat split; lia|].
  rewrite entry_run_app, made_app. set (e := entry_run l (new_EntryNumbers max)) in *. destruct IH as (Hm & Hc & Hr).
  assert (Forall (λ ev, ev ≠ EnReq false) (l ++ [ev]) → (Z.of_nat (registries e) - 1) * max + old_reqs_cnt e ≤ Z.of_nat (made l) ∧ ev ≠ EnReq false) as Hr'.
  { intros [Hl Hev]%Forall_app. split; [by apply Hr|by inversion Hev]. }
  clear Hr. destruct ev as [d|[]|d]; cbn [entry_step].
  - unfold entry_gen_req_data. cbn. split; [done|]. split; [done|]. intros H. destruct (Hr' H). lia.
  - cbn. split; [done|]. split; [done|]. intros H. destruct (Hr' H). lia.
  - cbn. split; [done|]. split; [lia|]. intros H. by destruct (Hr' H).
  - unfold entry_on_request_generated. case_decide as Hd; cbn [max_cred_num old_reqs_cnt];
      destruct (Z.leb_spec (max_cred_num e) (if decide (d ∈ old_reqs e) then old_reqs_cnt e + 1 else old_reqs_cnt e)) as [Hle|Hlt];
      rewrite ?decide_True, ?decide_False in * by done.
    + rewrite (proj2 (Z.leb_le _ _)) by lia. cbn. split; [done|]. split; [lia|]. intros H. destruct (Hr' H). nia.
    + rewrite (proj2 (Z.leb_gt _ _)) by lia. cbn. split; [done|]. split; [lia|]. intros H. destruct (Hr' H). lia.
    + lia.
    + rewrite (proj2 (Z.leb_gt _ _)) by lia. split; [done|]. split; [lia|]. intros H. destruct (Hr' H). lia.
Qed.

Lemma entries_per_registry_witness :
  let e := entry_run [EnData "a"; EnReq true; EnGenerated "a"; EnData "b"; EnData "c"; EnGenerated "c"] (new_EntryNumbers 2) in
  registries e = 2%nat ∧ 0 ≤ old_reqs_cnt e < 2.
Proof.
  cbv zeta. split; [by vm_compute|].
  exact (proj1 (entries_per_registry 2 [EnData "a"; EnReq true; EnGenerated "a"; EnData "b"; EnData "c"; EnGenerated "c"] ltac:(lia))).
Defined.

(** ** Demoted nodes *)

(** [PoolRegistry]: the nodes (alias and DID) of the genesis file, without the last ones
    that are not to be touched, and the queue of those demoted. *)
Abbreviation node := (val * val)%type.

Record PoolRegistry := mkPoolRegistry {
  pool_data : list node;
  nodes_queue : list node
}.

(** The lines of the genesis file as values. *)
Definition genesis_node (json : val) : res node :=
  match json with
  | VDict j =>
      let! txn := dgetitem "txn" j in
      match txn with
      | VDict t =>
          let! data := dgetitem "data" t in
          match data with
          | VDict d =>
              let! inner := dgetitem "data" d in
              match inner with
              | VDict i =>
                  let! alias := dgetitem "alias" i in
                  let! dest := dgetitem "dest" d in
                  Ok (alias, dest)
              | _ => Raise (TypeError "indices must be integers")
              end
          | _ => Raise (TypeError "indices must be integers")
          end
      | _ => Raise (TypeError "indices must be integers")
      end
  | _ => Raise (TypeError "indices must be integers")
  end.

Definition new_PoolRegistry (genesis : list val) (nodes_untouched : Z) : res PoolRegistry :=
  let! nodes := res_mapM genesis_node genesis in
  Ok (mkPoolRegistry (if 0 <? nodes_untouched then take (length nodes - Z.to_nat nodes_untouched) nodes else nodes) []).

(** [random.choice] *)
Definition choice (rand : nat) (l : list node) : res node :=
  match l !! (rand mod length l)%nat with Some n => Ok n | None => Raise IndexError end.

Definition select_new_random_node (rand : nat) (p : PoolRegistry) : res node * PoolRegistry :=
  match choice rand (pool_data p) with
  | Ok n => (Ok n, mkPoolRegistry (pool_data p) (nodes_queue p ++ [n]))
  | Raise e => (Raise e, p)
  end.

Definition current_node (rand : nat) (p : PoolRegistry) : res node * PoolRegistry :=
  match nodes_queue p with
  | n :: q => (Ok n, mkPoolRegistry (pool_data p) q)
  | [] => (choice rand (pool_data p), p)
  end.

Inductive NodeEvent := Demote (rand : nat) | Promote (rand : nat).

(** The nodes demoted, and those promoted, by some requests. *)
Fixpoint node_requests (l : list NodeEvent) (p : PoolRegistry) : list node * list node * PoolRegistry :=
  match l with
  | [] => ([], [], p)
  | Demote r :: l' =>
      let '(n, p1) := select_new_random_node r p in
      let '(d, u, p2) := node_requests l' p1 in
      (match n with Ok n => n :: d | Raise _ => d end, u, p2)
  | Promote r :: l' =>
      let '(n, p1) := current_node r p in
      let '(d, u, p2) := node_requests l' p1 in
      (d, match n with Ok n => n :: u | Raise _ => u end, p2)
  end.

(** No more promotions than demotions at any time. *)
Fixpoint balanced (waiting : nat) (l : list NodeEvent) : Prop :=
  match l with
  | [] => True
  | Demote _ :: l' => balanced (S waiting) l'
  | Promote _ :: l' => match waiting with O => False | S w => balanced w l' end
  end.

(** Nodes are promoted in the order in which they were demoted, each once. *)
Theorem promoted_in_order l p :
  pool_data p ≠ [] → balanced (length (nodes_queue p)) l →
  let '(d, u, p') := node_requests l p in nodes_queue p ++ d = u ++ nodes_queue p'.
Proof.
  revert p. induction l as [|[r|r] l IH]; intros [nodes q] Hne Hb; cbn [node_requests nodes_queue pool_data] in *; [by rewrite app_nil_r|..].
  - unfold select_new_random_node, choice. cbn [pool_data nodes_queue].
    assert (is_Some (nodes !! (r mod length nodes)%nat)) as [n Hn].
    { apply lookup_lt_is_Some, Nat.mod_upper_bound. by destruct nodes. }
    rewrite Hn. specialize (IH (mkPoolRegistry nodes (q ++ [n])) Hne). cbn [nodes_queue] in IH.
    destruct (node_requests _ _) as [[d u] p']. rewrite length_app, Nat.add_1_r in IH. rewrite <-IH by done.
    by rewrite <-app_assoc.
  - unfold current_node. cbn [nodes_queue pool_data]. destruct q as [|n q]; [done|].
    specialize (IH (mkPoolRegistry nodes q) Hne Hb). cbn [nodes_queue] in IH.
    destruct (node_requests _ _) as [[d u] p']. cbn [app]. by rewrite IH.
Qed.

Lemma promoted_in_order_witness :
  let p := mkPoolRegistry [(VStr "Node1", VStr "a"); (VStr "Node2", VStr "b")] [] in
  (let '(d, u, p') := node_requests [Demote 1; Demote 0; Promote 5] p in [] ++ d = u ++ nodes_queue p') ∧
  (node_requests [Demote 1; Demote 0; Promote 5] p).1.2 = [(VStr "Node2", VStr "b")].
Proof.
  cbv zeta. split; [|by vm_compute].
  exact (promoted_in_order [Demote 1; Demote 0; Promote 5] (mkPoolRegistry [(VStr "Node1", VStr "a"); (VStr "Node2", VStr "b")] []) ltac:(done) I).
Defined.
