(* ===== verification/SpikeLoad.v ===== *)
(** * Spikes of load

    [scripts/performance/perf_load/perf_spike_load.py]: a load test made of a background
    load and of spikes.  Both are runs of perf_processes.py that are started with a rate
    and a duration, and pauses; a process is the list of these actions.  The output
    directories are made before; the log is left out. *)
From S2P Require Import Prelude PyValue.
Local Open Scope Z_scope.

(** ** Configuration *)

Record Process := mkProcess {
  p_mode : string;
  step_initial_load_rate : Z;
  step_value : Z;
  step_time : Z;
  p_args : dict string
}.

Record TestConfig := mkTestConfig {
  total_time : Z;
  spike_time : Z;
  rest_time : Z;
  common_args : dict string;
  background_process : Process;
  spike_process : Process
}.

Inductive ProcessName := Background | Spike.

Definition name_str (n : ProcessName) : string := match n with Background => "background" | Spike => "spike" end.

Definition process (c : TestConfig) (n : ProcessName) : Process :=
  match n with Background => background_process c | Spike => spike_process c end.

(** [test_config["processes"][name]]: all keys of a process as texts. *)
Definition process_args (p : Process) : dict string :=
  [("mode", p_mode p); ("step_initial_load_rate", str_int (step_initial_load_rate p)); ("step_value", str_int (step_value p));
   ("step_time_in_seconds", str_int (step_time p))] ++ p_args p.

(** [get_args]; [directory] is the output directory that was made. *)
Definition get_args (directory : ProcessName → string) (c : TestConfig) (n : ProcessName) : list string :=
  foldl (λ args kv,
    if str_eqb kv.1 "out_dir" then args ++ ["--out_dir=" +:+ directory n]
    else if py_in_str "step" kv.1 || str_eqb kv.1 "mode" then args
    else args ++ ["--" +:+ kv.1 +:+ "=" +:+ kv.2])
    ["perf_processes.py"] (dupdate (common_args c) (process_args (process c n))).

(** ** Actions *)

(** A script that is started with its arguments, and a pause. *)
Inductive Action := Start (args : list string) (rate load_time : Z) | Sleep (seconds : Z).

(** [start_load_script] appends to the list it is given, which the caller goes on with. *)
Definition start_load_script (args : list string) (rate load_time : Z) : list string :=
  args ++ ["--load_rate=" +:+ str_int rate; "--load_time=" +:+ str_int load_time].

Section Run.
Context (directory : ProcessName → string) (c : TestConfig).

(** The loop of [run_stepwise_process]. *)
Fixpoint steps (fuel : nat) (p : Process) (args : list string) (process_time process_time_count step_count : Z)
    : res (list Action) :=
  match fuel with
  | O => Raise OutOfFuel
  | S fuel' =>
      if 0 <? process_time_count then
        let args' := start_load_script args (step_value p) process_time_count in
        let sleep := Z.min (step_time p) (process_time - step_time p * step_count) in
        let! l := steps fuel' p args' process_time (process_time_count - step_time p) (step_count + 1) in
        Ok (Start args' (step_value p) process_time_count :: Sleep sleep :: l)
      else Ok []
  end.

Definition run_stepwise_process (fuel : nat) (n : ProcessName) (process_time interval : Z) : res (list Action) :=
  let p := process c n in
  let args := get_args directory c n in
  if negb (process_time =? 0) then
    let initial := negb (step_initial_load_rate p =? 0) in
    let args' := if initial then start_load_script args (step_initial_load_rate p) process_time else args in
    let before := if initial then [Start args' (step_initial_load_rate p) process_time; Sleep (step_time p)] else [] in
    let! l := steps fuel p args' process_time (if initial then process_time - step_time p else process_time)
                (if initial then 1 else 0) in
    Ok (before ++ l ++ [Sleep interval])
  else
    Ok [Start (start_load_script args (step_value p) process_time) (step_value p) process_time; Sleep (step_time p)].

Definition run_stable_process (n : ProcessName) (process_time interval : Z) : res (list Action) :=
  let rate := step_initial_load_rate (process c n) in
  Ok [Start (start_load_script (get_args directory c n) rate process_time) rate process_time; Sleep interval].

Inductive Mode := Stepwise | Stable.

Definition run_process (m : Mode) (fuel : nat) : ProcessName → Z → Z → res (list Action) :=
  match m with Stepwise => run_stepwise_process fuel | Stable => run_stable_process end.

(** [background] with a total time; without one, in steps, it starts over for ever and
    [rounds] is how often. *)
Definition background (m : Mode) (fuel rounds : nat) : res (list Action) :=
  let! l := run_process m fuel Background (total_time c) 0 in
  match total_time c, m with
  | 0, Stepwise => let! ls := res_mapM (λ _, run_process m fuel Background (total_time c) 0) (seq 0 rounds) in
                   Ok (l ++ concat ls)
  | _, _ => Ok l
  end.

Definition spike_interval (m : Mode) : Z :=
  match m with Stepwise => rest_time c | Stable => rest_time c + spike_time c end.

(** The loop of [spikes]; without a total time it goes on for ever. *)
Fixpoint spike_rounds (m : Mode) (fuel rounds : nat) (total : Z) : res (list Action) :=
  match rounds with
  | O => Raise OutOfFuel
  | S rounds' =>
      if (total_time c =? 0) || (0 <? total) then
        let! l := run_process m fuel Spike (spike_time c) (spike_interval m) in
        let! ls := spike_rounds m fuel rounds' (total - (spike_time c + rest_time c)) in
        Ok (l ++ ls)
      else Ok []
  end.

Definition spikes (m : Mode) (fuel rounds : nat) : res (list Action) := spike_rounds m fuel rounds (total_time c).
End Run.

(** ** Meaning *)

(** When each script is started, with its rate and when it ends. *)
Fixpoint timeline (now : Z) (l : list Action) : list (Z * Z * Z) :=
  match l with
  | [] => []
  | Start _ rate load_time :: l' => (now, rate, now + load_time) :: timeline now l'
  | Sleep s :: l' => timeline (now + s) l'
  end.

Fixpoint duration (l : list Action) : Z :=
  match l with
  | [] => 0
  | Start _ _ _ :: l' => duration l'
  | Sleep s :: l' => s + duration l'
  end.

(** The number of steps of a process. *)
Definition step_count_of (process_time step : Z) : nat := Z.to_nat ((process_time + step - 1) / step).

(** ** Lemmas *)

Lemma timeline_app l l' : ∀ now, timeline now (l ++ l') = timeline now l ++ timeline (now + duration l) l'.
Proof.
  induction l as [|[a r t|s] l IH]; intros now; cbn [app timeline duration]; [by rewrite Z.add_0_r| |].
  - by rewrite IH.
  - rewrite IH. by rewrite Z.add_assoc.
Qed.

Lemma duration_app l l' : duration (l ++ l') = duration l + duration l'.
Proof. induction l as [|[a r t|s] l IH]; cbn [app duration]; lia. Qed.

(** From the step [k] on. *)
Lemma steps_spec p process_time fuel : ∀ k args,
  0 < step_time p → 0 ≤ k → (Z.to_nat (process_time - step_time p * k) < fuel)%nat →
  ∃ l, steps fuel p args process_time (process_time - step_time p * k) k = Ok l ∧
    duration l = Z.max 0 (process_time - step_time p * k) ∧
    timeline (step_time p * k) l =
      map (λ i, (step_time p * (k + Z.of_nat i), step_value p, process_time))
        (seq 0 (step_count_of (process_time - step_time p * k) (step_time p))).
Proof.
  induction fuel as [|fuel IH]; intros k args Hs Hk Hf; [lia|]. cbn [steps].
  set (rest := process_time - step_time p * k) in *.
  destruct (Z.ltb_spec 0 rest) as [Hr|Hr].
  - destruct (IH (k + 1) (start_load_script args (step_value p) rest) Hs ltac:(lia) ltac:(lia)) as (l & Hl & Hd & Ht).
    replace (rest - step_time p) with (process_time - step_time p * (k + 1)) by lia. rewrite Hl. cbn [res_bind]. eexists. split; [done|].
    fold rest. assert (Hmin : Z.min (step_time p) rest = rest - Z.max 0 (rest - step_time p)) by lia. split.
    + cbn [duration]. rewrite Hd. lia.
    + cbn [timeline].
      assert (step_count_of rest (step_time p) = S (step_count_of (process_time - step_time p * (k + 1)) (step_time p))) as ->.
      { unfold step_count_of. replace (rest + step_time p - 1) with (process_time - step_time p * (k + 1) + step_time p - 1 + 1 * step_time p) by lia.
        rewrite Z.div_add by lia. rewrite Z2Nat.inj_add; [lia| |lia]. apply Z.div_pos; lia. }
      cbn [seq map]. rewrite Z.add_0_r. f_equal; [f_equal; lia|].
      rewrite <-seq_shift, map_map. destruct (Z.leb_spec (step_time p) rest) as [Hle|Hgt].
      * replace (step_time p * k + Z.min (step_time p) rest) with (step_time p * (k + 1)) by lia. rewrite Ht.
        apply map_ext. intros i. do 2 f_equal. lia.
      * assert (step_count_of (process_time - step_time p * (k + 1)) (step_time p) = 0%nat) as Hz.
        { unfold step_count_of. enough ((process_time - step_time p * (k + 1) + step_time p - 1) / step_time p ≤ 0) by lia.
          apply Z.lt_succ_r, Z.div_lt_upper_bound; lia. }
        rewrite Hz in *. cbn [seq map] in *.
        destruct l as [|[a r t|s] l]; [done|done|]. clear -Hl Hs Hgt Hk.
        destruct fuel; [done|]. cbn [steps] in Hl. destruct (0 <? _); [|done].
        destruct (steps _ _ _ _ _ _); cbn in Hl; done.
  - exists []. split; [done|]. split; [cbn; lia|]. cbn [timeline].
    assert (step_count_of rest (step_time p) = 0%nat) as ->; [|done].
    unfold step_count_of. enough ((rest + step_time p - 1) / step_time p ≤ 0) by lia. apply Z.lt_succ_r, Z.div_lt_upper_bound; lia.
Qed.

Lemma stepwise_spec directory c n process_time interval fuel :
  let p := process c n in
  0 < step_time p → 0 < process_time → (Z.to_nat process_time < fuel)%nat →
  ∃ l, run_stepwise_process directory c fuel n process_time interval = Ok l ∧
    timeline 0 l = map (λ i, (step_time p * Z.of_nat i,
        (if (i =? 0)%nat && negb (step_initial_load_rate p =? 0) then step_initial_load_rate p else step_value p), process_time))
      (seq 0 (step_count_of process_time (step_time p))) ∧
    duration l = (if step_initial_load_rate p =? 0 then process_time else Z.max (step_time p) process_time) + interval.
Proof.
  intros p Hs Hp Hf. unfold run_stepwise_process. fold p. rewrite (proj2 (Z.eqb_neq process_time 0)) by lia. cbn [negb].
  destruct (Z.eqb_spec (step_initial_load_rate p) 0) as [Hi|Hi]; cbn [negb].
  - destruct (steps_spec p process_time fuel 0 (get_args directory c n) Hs ltac:(lia) ltac:(lia)) as (l & Hl & Hd & Ht).
    rewrite Z.mul_0_r, Z.sub_0_r in *. rewrite Hl. cbn [res_bind app]. eexists. split; [done|]. split.
    + rewrite timeline_app, Ht. cbn [timeline]. rewrite app_nil_r. apply map_ext. intros i. rewrite andb_false_r. f_equal.
    + rewrite duration_app, Hd. cbn [duration]. lia.
  - set (args := start_load_script _ _ _).
    assert (step_count_of process_time (step_time p) = S (step_count_of (process_time - step_time p) (step_time p))) as Hc.
    { unfold step_count_of. replace (process_time + step_time p - 1) with (process_time - step_time p + step_time p - 1 + 1 * step_time p) by lia.
      rewrite Z.div_add by lia. rewrite Z2Nat.inj_add; [lia| |lia]. apply Z.div_pos; lia. }
    destruct (steps_spec p process_time fuel 1 args Hs ltac:(lia) ltac:(lia)) as (l & Hl & Hd & Ht).
    rewrite Z.mul_1_r in *. rewrite Hl. cbn [res_bind app]. eexists. split; [done|]. split.
    + rewrite Hc. cbn [timeline seq map]. rewrite ?Z.add_0_l, timeline_app, ?Z.add_0_l, Ht. cbn [timeline]. rewrite app_nil_r.
      cbn [Nat.eqb andb]. f_equal; [f_equal; f_equal; lia|]. rewrite <-seq_shift, map_map. apply map_ext. intros i. cbn [Nat.eqb andb].
      do 2 f_equal. lia.
    + cbn [duration]. rewrite duration_app, Hd. cbn [duration]. lia.
Qed.

(** ** Properties *)

(** A process in steps is a staircase: one script more every [step_time] seconds, the first
    with the initial rate if there is one, and all of them end together when the time of
    the process is over; then the pause follows. *)
Theorem stepwise_staircase directory c n process_time interval fuel :
  let p := process c n in
  0 < step_time p ≤ process_time → (Z.to_nat process_time < fuel)%nat →
  ∃ l, run_stepwise_process directory c fuel n process_time interval = Ok l ∧
    duration l = process_time + interval ∧
    timeline 0 l = map (λ i, (step_time p * Z.of_nat i,
        (if (i =? 0)%nat && negb (step_initial_load_rate p =? 0) then step_initial_load_rate p else step_value p), process_time))
      (seq 0 (step_count_of process_time (step_time p))).
Proof.
  intros p [Hs Hp] Hf. destruct (stepwise_spec directory c n process_time interval fuel Hs ltac:(lia) Hf) as (l & Hl & Ht & Hd).
  exists l. split; [done|]. split; [|done]. rewrite Hd. fold p. destruct (_ =? 0); lia.
Qed.

Definition sample_spikes : TestConfig :=
  mkTestConfig 60 10 5 [("out_dir", "~")] (mkProcess "stable" 10 0 0 []) (mkProcess "stepwise" 2 3 4 []).

Lemma stepwise_staircase_witness :
  ∃ l, run_stepwise_process name_str sample_spikes 11 Spike 10 5 = Ok l ∧ duration l = 15 ∧
    timeline 0 l = [(0, 2, 10); (4, 3, 10); (8, 3, 10)].
Proof. apply (stepwise_staircase name_str sample_spikes Spike 10 5 11); cbn; lia. Defined.

(** The spikes fill the time of the test: one after the other until it is over, each taking
    the time of a spike and that of a rest. *)
Theorem spikes_fill_the_test directory c m fuel rounds :
  0 < total_time c → 0 < step_time (spike_process c) ≤ spike_time c → 0 ≤ rest_time c →
  (Z.to_nat (spike_time c) < fuel)%nat → (Z.to_nat (total_time c) < rounds)%nat →
  ∃ l, spikes directory c m fuel rounds = Ok l ∧
    duration l = (spike_time c + rest_time c) * Z.of_nat (step_count_of (total_time c) (spike_time c + rest_time c)).
Proof.
  intros Ht Hs Hr Hf. unfold spikes.
  assert (∃ l, run_process directory c m fuel Spike (spike_time c) (spike_interval c m) = Ok l ∧ duration l = spike_time c + rest_time c)
    as (l1 & Hl1 & Hd1).
  { destruct m; cbn [run_process spike_interval].
    - destruct (stepwise_spec directory c Spike (spike_time c) (rest_time c) fuel) as (l & Hl & _ & Hd); cbn in *; [lia..|].
      exists l. split; [done|]. rewrite Hd. destruct (_ =? 0); lia.
    - unfold run_stable_process. eexists. split; [done|]. cbn. lia. }
  set (w := spike_time c + rest_time c) in *. assert (0 < w) as Hw by lia.
  enough (∀ rounds total, total ≤ total_time c → (Z.to_nat total < rounds)%nat → ∃ l, spike_rounds directory c m fuel rounds total = Ok l ∧
    duration l = w * Z.of_nat (step_count_of total w)) as H by (apply H; lia).
  clear rounds. induction rounds as [|rounds IH]; intros total Hle Hn; [lia|]. cbn [spike_rounds].
  rewrite (proj2 (Z.eqb_neq (total_time c) 0)) by lia. cbn [orb]. destruct (Z.ltb_spec 0 total) as [Hp|Hp].
  - rewrite Hl1. cbn [res_bind]. fold w. destruct (IH (total - w) ltac:(lia) ltac:(lia)) as (l2 & Hl2 & Hd2).
    rewrite Hl2. cbn [res_bind]. eexists. split; [done|]. rewrite duration_app, Hd1, Hd2. unfold step_count_of.
    replace (total + w - 1) with (total - w + w - 1 + 1 * w) by lia. rewrite Z.div_add by lia.
    assert (0 ≤ (total - w + w - 1) / w) by (apply Z.div_pos; lia). rewrite Z2Nat.inj_add by lia. lia.
  - exists []. split; [done|]. unfold step_count_of. cbn [duration].
    assert ((total + w - 1) / w ≤ 0) as Hz by (apply Z.lt_succ_r, Z.div_lt_upper_bound; lia).
    replace (Z.to_nat ((total + w - 1) / w)) with 0%nat by lia. lia.
Qed.

Lemma spikes_fill_the_test_witness :
  ∃ l, spikes name_str sample_spikes Stepwise 11 61 = Ok l ∧ duration l = 60.
Proof. destruct (spikes_fill_the_test name_str sample_spikes Stepwise 11 61) as (l & H & Hd); [cbn; lia..|]. by exists l. Defined.
