(* ===== verification/TestRunner.v ===== *)
(** * The runner of the tests

    [runner.py]: the tests are collected, grouped into modules, a slice of the modules is
    run one by one, and what pytest reports about each is added up.

    The list of the tests that were collected and what pytest returns and reports for a
    module are arguments: the status of the command and the lines of the report.  The
    regular expressions are written out.  Printing is left out, except for the numbers
    of a module. *)
From Stdlib Require Import Ascii.
From stdpp Require Import sorting.
From S2P Require Import Prelude PyValue World.

(** ** Modules *)

(** [os.path.dirname] of a relative path. *)
Definition dirname (path : string) : string := py_join "/" (removelast (py_split "/" path)).

Definition get_first_level_path (path : string) : string :=
  let parts := py_split "/" (dirname path) in
  if Nat.eqb (length parts) 2 then path else py_join "/" (take 3 parts).

(** [sorted(list(set(l)))] *)
Definition str_le (a b : string) : Prop := String.leb a b = true.

#[export] Instance str_le_dec a b : Decision (str_le a b).
Proof. unfold str_le. apply _. Defined.

Definition sorted_set (l : list string) : list string := merge_sort str_le (remove_dups l).

(** [l[inc - 1::step]] for a positive [inc] and a positive [step]: [skip] elements are
    still to be left out. *)
Fixpoint every {A} (step skip : nat) (l : list A) : list A :=
  match l with
  | [] => []
  | x :: l' => match skip with O => x :: every step (step - 1) l' | S k => every step k l' end
  end.

Definition slice {A} (inc step : nat) (l : list A) : list A := every step (inc - 1) l.

Definition test_modules (test_list : list string) : list string := sorted_set (map get_first_level_path test_list).

(** ** Reports *)

Definition is_digit (c : ascii) : bool := match digit_value c with Some _ => true | None => false end.

(** The number at the start of a text, if it is followed by a blank and [word]. *)
Fixpoint number_then (word s : string) (acc : option N) : option N :=
  match s with
  | String c s' =>
      match digit_value c with
      | Some d => number_then word s' (Some (default 0%N acc * 10 + d)%N)
      | None => match acc with
                | Some n => if Ascii.eqb c " "%char && String.prefix word s' then Some n else None
                | None => None
                end
      end
  | EmptyString => None
  end.

(** The last number of a line that is between a blank and [word]. *)
Fixpoint last_count (word line : string) : option N :=
  match line with
  | EmptyString => None
  | String c s => match last_count word s with
                  | Some n => Some n
                  | None => if Ascii.eqb c " "%char then number_then word s None else None
                  end
  end.

Definition nl : ascii := Ascii.ascii_of_nat 10.

(** The last line of a text; a line break at its end does not begin another. *)
Fixpoint last_line (s : string) : string :=
  match s with
  | EmptyString => ""
  | String c s' =>
      if Ascii.eqb c nl then match s' with EmptyString => "" | _ => last_line s' end
      else if str_has nl (String.substring 0 (String.length s' - 1) s') then last_line s' else s
  end.

(** [re.compile(".* ([0-9]+) word.*$").search(output)], as the number, 0 without one. *)
Definition count_of (word output : string) : option N := last_count word (last_line output).

(** What is before the last occurrence of [suffix], which is not at the beginning. *)
Fixpoint before_last (suffix s : string) : option string :=
  match s with
  | EmptyString => None
  | String c s' => match before_last suffix s' with
                   | Some x => Some (String c x)
                   | None => if String.prefix suffix s' then Some (String c "") else None
                   end
  end.

(** The group of [____ (mark.+) ____], [mark] being "test" or "ERROR". *)
Fixpoint name_in (mark line : string) : option string :=
  match line with
  | EmptyString => None
  | String _ s =>
      let here := if String.prefix ("____ " +:+ mark) line
                  then before_last " ____" (String.substring (5 + String.length mark) (String.length line) line) else None in
      match here with Some x => Some (mark +:+ x) | None => name_in mark s end
  end.

Inductive Part := NoPart | Failures | Errors.

(** The loop over the lines of a report: the part, the data, and the names. *)
Record Scan := mkScan {
  sc_part : Part;
  sc_data : list string;
  sc_failed : list string;
  sc_errors : list string
}.

Definition scan_line (s : Scan) (line : string) : Scan :=
  if py_in_str "= FAILURES =" line then mkScan Failures (sc_data s) (sc_failed s) (sc_errors s)
  else if py_in_str "= ERRORS =" line then mkScan Errors (sc_data s) (sc_failed s) (sc_errors s)
  else match sc_part s with
       | NoPart => s
       | Failures => mkScan Failures (sc_data s ++ [line])
                       (sc_failed s ++ match name_in "test" line with Some n => [n] | None => [] end) (sc_errors s)
       | Errors => mkScan Errors (sc_data s ++ [line]) (sc_failed s)
                     (sc_errors s ++ match name_in "ERROR" line with Some n => [n] | None => [] end)
       end.

(** ** Runs *)

(** What was added up. *)
Record Totals := mkTotals {
  retVal : Z;
  totalPassed : N;
  totalFailed : N;
  totalErrors : N;
  totalSkipped : N;
  allFailedTests : list (string * string);
  allErrorTests : list (string * string);
  failureData : list string;
  printed : list (string * N * N * N * N)
}.

Definition no_totals : Totals := mkTotals 0 0 0 0 0 [] [] [] [].

Section Run.
Context (pytest : string → Z * list string).

(** A module: [None] when pytest failed and reported neither failures nor errors. *)
Definition run_module (t : Totals) (tests : string) : option Totals :=
  let '(r, report_lines) := pytest tests in
  let output := String.concat "" report_lines in
  let passed := default 0%N (count_of "passed" output) in
  let skipped := default 0%N (count_of "skipped" output) in
  let add failed errors (s : Scan) :=
    mkTotals (retVal t + r) (totalPassed t + passed) (totalFailed t + failed) (totalErrors t + errors) (totalSkipped t + skipped)
      (if N.eqb failed 0 then allFailedTests t else allFailedTests t ++ map (pair tests) (sc_failed s))
      (if N.eqb errors 0 then allErrorTests t else allErrorTests t ++ map (pair tests) (sc_errors s))
      (failureData t ++ sc_data s)
      (printed t ++ [(tests, passed, errors, failed, skipped)]) in
  if Z.eqb r 0 then Some (add 0%N 0%N (mkScan NoPart [] [] []))
  else match count_of "failed" output, count_of "error" output with
       | None, None => None
       | fai, err => Some (add (default 0%N fai) (default 0%N err) (foldl scan_line (mkScan NoPart [] [] []) report_lines))
       end.

Fixpoint run_modules (modules : list string) (t : Totals) : option Totals :=
  match modules with
  | [] => Some t
  | m :: ms => match run_module t m with Some t' => run_modules ms t' | None => None end
  end.

(** [run] without repetition: the collected text and the tests found in it. *)
Definition run (collect_status : Z) (collected : string) (test_list : list string) (inc step : nat) : Z :=
  if negb (Z.eqb collect_status 0) then -1
  else if py_in_str "===== ERRORS =====" collected then -1
  else match test_list with
       | [] => if py_in_str "errors during collection" collected then -1
               else match run_modules (slice inc step (test_modules test_list)) no_totals with Some t => retVal t | None => -1 end
       | _ => match run_modules (slice inc step (test_modules test_list)) no_totals with Some t => retVal t | None => -1 end
       end.

(** The status of the process. *)
Definition exit_status (r : Z) : Z := if Z.eqb r 0 then 0 else 1.
End Run.

(** [if totalFailed or totalErros] *)
Definition has_failures (t : Totals) : bool := negb (N.eqb (totalFailed t) 0) || negb (N.eqb (totalErrors t) 0).

(** [repeatUntilFailure]: the runs go on, and the totals with them, until one had failures;
    [pytest] may answer differently in each, [i] counts them.  [None] is a loop that goes on
    after [fuel] runs, [Some None] the return of [-1]. *)
Fixpoint run_until_failure (pytest : nat → string → Z * list string) (modules : list string)
    (fuel i : nat) (t : Totals) : option (option (Totals * nat)) :=
  match fuel with
  | O => None
  | S fuel' => match run_modules (pytest i) modules t with
               | None => Some None
               | Some t' => if has_failures t' then Some (Some (t', S i))
                            else run_until_failure pytest modules fuel' (S i) t'
               end
  end.

Definition summaryMsg (runsCount : nat) (t : Totals) : string :=
  "Total " +:+ pretty runsCount +:+ " runs " +:+ pretty (totalPassed t) +:+ " passed, " +:+ pretty (totalFailed t) +:+
  " failed, " +:+ pretty (totalErrors t) +:+ " errors, " +:+ pretty (totalSkipped t) +:+ " skipped".

(** The text of the output file, which is written when there are data of failures. *)
Definition report_text (runsCount : nat) (t : Totals) : option string :=
  match failureData t with [] => None | lines => Some (summaryMsg runsCount t +:+ String.concat "" lines) end.

(** [parse_test_slice] *)
Definition parse_test_slice (x : string) : res (Z * Z) :=
  match py_split "/" x with
  | inc :: step :: _ => let! i := py_int inc in let! s := py_int step in Ok (i, s)
  | _ => Raise (ValueError "not enough values to unpack")
  end.

(** ** Lemmas: slices *)

Lemma every_perm {A} step (l : list A) : ∀ k,
  0 < step → k < step →
  concat (map (λ i, every step i l) (seq 0 step)) ≡ₚ l.
Proof.
  intros k Hs _. clear k. induction l as [|x l IH].
  - clear Hs. generalize (seq 0 step) as idx. induction idx as [|i idx IH]; [done|]. exact IH.
  - destruct step as [|step]; [lia|].
    assert (map (λ i, every (S step) i (x :: l)) (seq 0 (S step)) =
      (x :: every (S step) step l) :: map (λ i, every (S step) i l) (seq 0 step)) as ->.
    { cbn [seq map]. f_equal; [cbn [every]; by rewrite Nat.sub_succ, Nat.sub_0_r|]. rewrite <-seq_shift, map_map. by apply map_ext. }
    cbn [concat app]. rewrite <-IH at 2. rewrite seq_S, map_app, concat_app. cbn [map concat]. rewrite app_nil_r.
    constructor. apply Permutation_app_comm.
Qed.

(** ** Properties *)

(** The slices [1/n] to [n/n] of the tests are together all modules, each in one slice and
    once. *)
Theorem slices_partition {A} n (l : list A) :
  0 < n → concat (map (λ i, slice i n l) (seq 1 n)) ≡ₚ l.
Proof.
  intros Hn. etrans; [|apply (every_perm n l 0 Hn Hn)]. rewrite <-seq_shift, map_map.
  assert (map (λ i, slice (S i) n l) (seq 0 n) = map (λ i, every n i l) (seq 0 n)) as ->; [|done].
  apply map_ext. intros i. unfold slice. by rewrite Nat.sub_succ, Nat.sub_0_r.
Qed.

Lemma slices_partition_witness : concat (map (λ i, slice i 2 ["a"; "b"; "c"]) (seq 1 2)) ≡ₚ ["a"; "b"; "c"].
Proof. apply (slices_partition 2); lia. Defined.

Lemma run_modules_status pytest ms : ∀ t t',
  (∀ m, (0 ≤ (pytest m).1)%Z) → run_modules pytest ms t = Some t' →
  (retVal t ≤ retVal t')%Z ∧ (retVal t' = retVal t ↔ Forall (λ m, (pytest m).1 = 0%Z) ms).
Proof.
  intros t t' Hp. revert t. induction ms as [|m ms IH]; intros t H; cbn [run_modules] in H; [injection H as ->; by split|].
  destruct (run_module pytest t m) as [t1|] eqn:E; [|done]. specialize (IH t1 H) as [Hle Hiff].
  assert (retVal t1 = retVal t + (pytest m).1)%Z as H1.
  { unfold run_module in E. destruct (pytest m) as [r lines]. destruct (Z.eqb r 0); [by injection E as <-|].
    destruct (count_of "failed" _), (count_of "error" _); try done; by injection E as <-. }
  specialize (Hp m). split; [lia|]. rewrite Forall_cons, <-Hiff. lia.
Qed.

(** The runner succeeds exactly when nothing was wrong with the collection and pytest
    succeeded on every module of the slice. *)
Theorem run_succeeds pytest collect_status collected test_list inc step :
  (∀ m, (0 ≤ (pytest m).1)%Z) → test_list ≠ [] →
  exit_status (run pytest collect_status collected test_list inc step) = 0%Z ↔
    collect_status = 0%Z ∧ py_in_str "===== ERRORS =====" collected = false ∧
    Forall (λ m, (pytest m).1 = 0%Z) (slice inc step (test_modules test_list)).
Proof.
  intros Hp Hne. unfold exit_status, run. destruct (Z.eqb_spec collect_status 0) as [->|Hc]; cbn [negb]; [|by split; [|intros []]].
  destruct (py_in_str _ collected); [by split; [|intros (_ & ? & _)]|].
  destruct test_list as [|x l]; [done|].
  destruct (run_modules pytest _ no_totals) as [t|] eqn:E.
  - destruct (run_modules_status pytest _ _ _ Hp E) as [Hle Hiff]. change (retVal no_totals) with 0%Z in *.
    destruct (Z.eqb_spec (retVal t) 0) as [Hz|Hz]; [split; [intros _|done]; repeat split; by apply Hiff|].
    split; [done|]. intros (_ & _ & H). by apply Hiff in H.
  - split; [done|]. intros (_ & _ & H). exfalso. revert E H.
    assert (∀ ms t, Forall (λ m, (pytest m).1 = 0%Z) ms → run_modules pytest ms t ≠ None) as Hok; [|intros E H; by apply Hok in E].
    induction ms as [|m ms IH]; intros t0 Hall; [done|]. inversion Hall as [|? ? H1 H2]; subst. cbn [run_modules].
    unfold run_module. destruct (pytest m) as [r lines]. cbn in H1. subst r. cbn [Z.eqb]. by apply IH.
Qed.

Definition sample_pytest (m : string) : Z * list string :=
  if str_eqb m "p/test/b" then (1%Z, ["= FAILURES =" +:+ String nl ""; "____ test_x ____" +:+ String nl ""; "= 1 failed, 2 passed in 3s =" +:+ String nl ""])
  else (0%Z, ["= 4 passed in 1s =" +:+ String nl ""]).

Definition sample_tests : list string := ["p/test/b/test_1.py"; "p/test/a/test_2.py"; "p/test/a/test_3.py"].

Lemma run_succeeds_witness :
  exit_status (run sample_pytest 0 "" sample_tests 1 2) = 0%Z ∧
  exit_status (run sample_pytest 0 "" sample_tests 2 2) = 1%Z.
Proof.
  split; [|by vm_compute]. apply run_succeeds; [|done|].
  - intros m. unfold sample_pytest. by destruct (str_eqb m _).
  - split; [done|]. split; [done|]. apply (bool_decide_unpack _). by vm_compute.
Defined.

(** The line about a module prints the number of errors as that of the failures and the
    other way round. *)
Theorem failures_printed_as_errors :
  option_map printed (run_module sample_pytest no_totals "p/test/b") = Some [("p/test/b", 2%N, 0%N, 1%N, 0%N)] ∧
  option_map totalFailed (run_module sample_pytest no_totals "p/test/b") = Some 1%N ∧
  option_map allFailedTests (run_module sample_pytest no_totals "p/test/b") = Some [("p/test/b", "test_x")].
Proof. repeat split; by vm_compute. Qed.

(** ** Repetition *)

Lemma run_module_failures p t u m :
  has_failures t = has_failures u →
  match run_module p t m, run_module p u m with
  | Some t', Some u' => has_failures t' = has_failures u'
  | None, None => True
  | _, _ => False
  end.
Proof.
  intros H. assert (∀ a b x y c d, has_failures t = has_failures u → x = totalFailed t + a → c = totalFailed u + a →
    y = totalErrors t + b → d = totalErrors u + b →
    negb (N.eqb x 0) || negb (N.eqb y 0) = negb (N.eqb c 0) || negb (N.eqb d 0))%N as Hadd.
  { assert (∀ x y, negb (N.eqb x 0) || negb (N.eqb y 0) = negb (N.eqb (x + y) 0))%N as Hsum
      by (intros [|x] [|y]; reflexivity).
    unfold has_failures. intros a b x y c d Heq -> -> -> ->. rewrite !Hsum in *.
    destruct (N.eqb_spec (totalFailed t + totalErrors t) 0), (N.eqb_spec (totalFailed u + totalErrors u) 0); try done;
      f_equal; apply eq_true_iff_eq; rewrite !N.eqb_eq; lia. }
  unfold run_module. destruct (p m) as [r lines]. destruct (Z.eqb r 0).
  - cbn. by eapply (Hadd 0%N 0%N).
  - destruct (count_of "failed" _) as [f|], (count_of "error" _) as [e|]; cbn; try done; by eapply Hadd.
Qed.

(** Whether a run has failures does not depend on what was counted before. *)
Lemma run_modules_failures p ms t u :
  has_failures t = has_failures u →
  match run_modules p ms t, run_modules p ms u with
  | Some t', Some u' => has_failures t' = has_failures u'
  | None, None => True
  | _, _ => False
  end.
Proof.
  revert t u. induction ms as [|m ms IH]; intros t u H; [done|]. cbn [run_modules].
  pose proof (run_module_failures p t u m H) as Hm. destruct (run_module p t m), (run_module p u m); try done. by apply IH.
Qed.

(** A run of its own that has no failures. *)
Definition clean_run (pytest : nat → string → Z * list string) (modules : list string) (i : nat) : Prop :=
  ∃ t, run_modules (pytest i) modules no_totals = Some t ∧ has_failures t = false.

Lemma clean_step pytest modules i t :
  clean_run pytest modules i → has_failures t = false →
  ∃ t', run_modules (pytest i) modules t = Some t' ∧ has_failures t' = false.
Proof.
  intros (t0 & H0 & Hf0) Ht. pose proof (run_modules_failures (pytest i) modules t no_totals Ht) as H. rewrite H0 in H.
  destruct (run_modules (pytest i) modules t) as [t'|]; [|done]. exists t'. split; [done|congruence].
Qed.

(** The repetition ends with the first run that has failures, or returns [-1] with the
    first that pytest broke off, and goes on as long as there is none. *)
Theorem repeats_until_failure pytest modules k fuel :
  (∀ i, i < k → clean_run pytest modules i) →
  (fuel ≤ k → run_until_failure pytest modules fuel 0 no_totals = None) ∧
  (k < fuel → match run_modules (pytest k) modules no_totals with
              | None => run_until_failure pytest modules fuel 0 no_totals = Some None
              | Some t => has_failures t = true →
                  ∃ t', run_until_failure pytest modules fuel 0 no_totals = Some (Some (t', S k)) ∧ has_failures t' = true
              end).
Proof.
  intros Hclean. assert (∀ n i t, i + n = k → has_failures t = false →
    ∀ fuel, (fuel ≤ n → run_until_failure pytest modules fuel i t = None) ∧
      (n < fuel → ∃ t', has_failures t' = false ∧
        run_until_failure pytest modules fuel i t = run_until_failure pytest modules (fuel - n) k t')) as Hrun.
  { intros n. induction n as [|n IH]; intros i t Hi Ht [|f].
    - by split; [|lia].
    - split; [lia|]. intros _. exists t. by replace k with i by lia.
    - by split; [|lia].
    - destruct (clean_step pytest modules i t) as (t' & Hm & Ht'); [apply Hclean; lia|done|].
      cbn [run_until_failure]. rewrite Hm, Ht'. destruct (IH (S i) t' ltac:(lia) Ht' f) as [H1 H2].
      split; intros H; [apply H1; lia|]. apply H2. lia. }
  destruct (Hrun k 0 no_totals eq_refl eq_refl fuel) as [H1 H2]. split; [done|]. intros Hk.
  destruct (H2 Hk) as (t' & Ht' & ->). destruct (fuel - k) as [|f] eqn:E; [lia|]. cbn [run_until_failure].
  pose proof (run_modules_failures (pytest k) modules t' no_totals Ht') as H.
  destruct (run_modules (pytest k) modules t') as [t1|], (run_modules (pytest k) modules no_totals) as [t2|]; try done.
  intros Hf. rewrite H, Hf. exists t1. split; [done|congruence].
Qed.

(** Two clean runs and one with a failure. *)
Example third_run_fails :
  let p (i : nat) := if i <? 2 then (λ m, if str_eqb m "p/test/b" then (0%Z, ["= 3 passed in 1s =" +:+ String nl ""]) else sample_pytest m) else sample_pytest in
  option_map (option_map (λ r, (r.2, summaryMsg r.2 r.1))) (run_until_failure p ["p/test/a"; "p/test/b"] 5 0 no_totals)
  = Some (Some (3, "Total 3 runs 20 passed, 1 failed, 0 errors, 0 skipped")).
Proof. by vm_compute. Qed.
