(* ===== verification/PoolContainer.v ===== *)
(** * The container of a pool

    [environment/vagrant/sandbox/DevelopmentEnvironment/common/indypool.py]: a pool for
    development in a docker container that is started, stopped, restarted and asked for its
    status.

    Docker is a class of operations on images and containers, with laws that say what the
    daemon does when it works, and an instance.  Messages are left out. *)
From S2P Require Import Prelude PyValue Plenum Constants StateDomain IdrCache HandlerBase Upgrader PoolUpgrade World.

(** ** Docker *)

(** The exceptions of docker's package: a missing image is a kind of [NotFound], and that
    an [APIError]. *)
Definition ImageNotFound : exn := PyException "ImageNotFound".
Definition NotFound : exn := PyException "NotFound".
Definition is_not_found (e : exn) : bool := bool_decide (e = NotFound) || bool_decide (e = ImageNotFound).

Definition is_type_error (e : exn) : bool := match e with TypeError _ => true | _ => false end.

Record Container := mkContainer {
  c_id : string;
  c_status : string
}.

#[export] Instance Container_eq_dec : EqDecision Container.
Proof. solve_decision. Defined.

Class Docker (W Image : Type) := {
  images_get : string → act W Image;
  images_build : string → string → string → act W Image;
  containers_run : Image → string → act W unit;
  containers_get : string → act W Container;
  container_remove : string → act W unit
}.

Section Pool.
Context {W Image : Type} `{!Docker W Image}.
Abbreviation M := (act W).

(** ** Images *)

Definition getImageByTag (tag : string) : M (option Image) :=
  catch (let? image := images_get tag in ret (Some image))
        (λ e, if bool_decide (e = ImageNotFound) then ret None else raise e).

Definition getImage (path dockerfile tag : string) : M Image :=
  let? image := getImageByTag tag in
  match image with
  | Some i => ret i
  | None => images_build path dockerfile tag
  end.

(** ** Containers *)

Definition getContainer (name_or_id : string) : M (option Container) :=
  catch (let? c := containers_get name_or_id in ret (Some c)) (λ e, if is_not_found e then ret None else raise e).

Definition status_running (status : string) : bool :=
  if str_eqb status "created" then false
  else if str_eqb status "restarting" then true
  else if str_eqb status "running" then true
  else if str_eqb status "removing" then false
  else if str_eqb status "paused" then false
  else if str_eqb status "exited" then false
  else if str_eqb status "dead" then false
  else false.

Definition containerIsRunning (name_or_id : string) : M bool :=
  catch (let? container := getContainer name_or_id in
         ret match container with Some c => status_running (c_status c) | None => false end)
        (λ e, if is_not_found e then ret false else raise e).

(** [getContainerByTag] is [getContainer] with a message. *)
Definition getContainerByTag (tag : string) : M (option Container) := getContainer tag.

Definition removeContainer (tag : string) : M unit :=
  let? container := getContainerByTag tag in
  match container with Some c => container_remove (c_id c) | None => ret tt end.

(** ** Commands *)

(** The image of the pool, built from one of two directories; any other failure is a
    message, after which the name [image] is not bound. *)
Definition pool_image : M (option Image) :=
  catch (let? i := getImage "/src/indy-sdk" "ci/indy-pool.dockerfile" "indy_pool" in ret (Some i))
        (λ e, if is_type_error e
              then let? i := getImage "/vagrant/indy-sdk" "ci/indy-pool.dockerfile" "indy_pool" in ret (Some i)
              else ret None).

Definition startIndyPool : M unit :=
  let? running := containerIsRunning "indy_pool" in
  if running then raise (SystemExit 0) else
  let? container := getContainer "indy_pool" in
  let? _ := match container with Some c => container_remove (c_id c) | None => ret tt end in
  let? image := pool_image in
  match image with
  | Some i => containers_run i "indy_pool"
  | None => raise (PyException "UnboundLocalError")
  end.

Definition stopIndyPool : M unit := removeContainer "indy_pool".

(** [statusIndyPool]: what it prints. *)
Definition statusIndyPool : M string :=
  let? running := containerIsRunning "indy_pool" in ret (if running then "running" else "not running").

Definition restartIndyPool : M unit := let? _ := stopIndyPool in startIndyPool.
End Pool.

(** ** Laws *)

(** What the daemon does when it works: [containers w] are the containers by name. *)
Class DockerLaws (W Image : Type) `{!Docker W Image} (containers : W → gmap string Container) := {
  get_law n w : containers_get n w = (match containers w !! n with Some c => Ok c | None => Raise NotFound end, w);
  remove_law n c w : containers w !! n = Some c →
    ∃ w', container_remove (c_id c) w = (Ok tt, w') ∧ containers w' = delete n (containers w);
  image_law w : ∃ w' r, images_get "indy_pool" w = (r, w') ∧ containers w' = containers w ∧ (r = Raise ImageNotFound ∨ is_Ok r = true);
  build_law p d t w : ∃ w' i, images_build p d t w = (Ok i, w') ∧ containers w' = containers w;
  run_law i n w : containers w !! n = None →
    ∃ w' c, containers_run i n w = (Ok tt, w') ∧ containers w' = <[n := c]> (containers w) ∧ c_status c = "running"
}.

(** The state of the pool, which is all that the commands are about. *)
Inductive PoolState := Absent | Stopped | Running.

#[export] Instance PoolState_eq_dec : EqDecision PoolState.
Proof. solve_decision. Defined.

Definition pool_state (cs : gmap string Container) : PoolState :=
  match cs !! "indy_pool" with
  | None => Absent
  | Some c => if status_running (c_status c) then Running else Stopped
  end.

Section Facts.
Context {W Image : Type} {HD : Docker W Image} {containers : W → gmap string Container} {HL : DockerLaws W Image containers}.

Lemma getContainer_law n w : getContainer n w = (Ok (containers w !! n), w).
Proof. unfold getContainer, catch, act_bind. rewrite get_law. by destruct (containers w !! n). Qed.

Lemma containerIsRunning_law w :
  containerIsRunning "indy_pool" w = (Ok (match pool_state (containers w) with Running => true | _ => false end), w).
Proof.
  unfold containerIsRunning, catch, act_bind. rewrite getContainer_law. cbn. unfold pool_state.
  destruct (containers w !! "indy_pool") as [c|]; [|done]. by destruct (status_running (c_status c)).
Qed.

Lemma pool_image_law w : ∃ w' i, pool_image w = (Ok (Some i), w') ∧ containers w' = containers w.
Proof.
  unfold pool_image, catch at 1, act_bind at 1, getImage, act_bind at 1, getImageByTag, catch, act_bind.
  destruct (image_law w) as (w1 & r & -> & H1 & [->|Hr]).
  - rewrite bool_decide_eq_true_2 by done. cbn [ret]. destruct (build_law "/src/indy-sdk" "ci/indy-pool.dockerfile" "indy_pool" w1) as (w2 & i & -> & H2). exists w2, i. cbn. by rewrite H2.
  - destruct r as [i|]; [|done]. by exists w1, i.
Qed.

(** A pool that is not running is replaced by a new one that is. *)
Lemma start_law w :
  pool_state (containers w) ≠ Running →
  ∃ w' c, startIndyPool w = (Ok tt, w') ∧ c_status c = "running" ∧
    containers w' = <["indy_pool" := c]> (delete "indy_pool" (containers w)).
Proof.
  intros Hs. unfold startIndyPool, act_bind at 1. rewrite containerIsRunning_law.
  assert ((match pool_state (containers w) with Running => true | _ => false end) = false) as -> by (by destruct (pool_state _)).
  unfold act_bind at 1. rewrite getContainer_law.
  assert (∃ w1, (match containers w !! "indy_pool" with Some c => container_remove (c_id c) | None => ret tt end) w = (Ok tt, w1) ∧
    containers w1 = delete "indy_pool" (containers w)) as (w1 & H1 & Hc1).
  { destruct (containers w !! "indy_pool") as [c|] eqn:E; [by apply remove_law|]. exists w. split; [done|]. by rewrite delete_id. }
  unfold act_bind at 1. rewrite H1. unfold act_bind. destruct (pool_image_law w1) as (w2 & i & -> & Hc2).
  destruct (run_law i "indy_pool" w2) as (w3 & c & Hr & Hc3 & Hst); [rewrite Hc2, Hc1; apply lookup_delete_eq|].
  exists w3, c. split; [done|]. split; [done|]. by rewrite Hc3, Hc2, Hc1.
Qed.

(** ** Properties *)

(** The commands are those of a pool with three states: a start makes it run unless it runs,
    in which case the program ends with success and nothing is touched; a stop removes it,
    whatever its state, and is no error without one; a restart makes it run as a new
    container; the status says whether it runs.  Other containers are left alone. *)
Theorem pool_commands w :
  let s := pool_state (containers w) in
  let others w' := delete "indy_pool" (containers w') = delete "indy_pool" (containers w) in
  (if bool_decide (s = Running) then startIndyPool w = (Raise (SystemExit 0), w)
   else ∃ w', startIndyPool w = (Ok tt, w') ∧ pool_state (containers w') = Running ∧ others w') ∧
  (∃ w', stopIndyPool w = (Ok tt, w') ∧ pool_state (containers w') = Absent ∧ others w') ∧
  (∃ w', restartIndyPool w = (Ok tt, w') ∧ pool_state (containers w') = Running ∧ others w') ∧
  statusIndyPool w = (Ok (if bool_decide (s = Running) then "running" else "not running"), w).
Proof.
  cbv zeta.
  assert (∀ w, ∃ w', stopIndyPool w = (Ok tt, w') ∧ containers w' = delete "indy_pool" (containers w)) as Hstop.
  { intros v. unfold stopIndyPool, removeContainer, getContainerByTag, act_bind. rewrite getContainer_law.
    destruct (containers v !! "indy_pool") as [c|] eqn:E; [by apply remove_law|]. exists v. split; [done|]. by rewrite delete_id. }
  assert (∀ w c, pool_state (<["indy_pool" := c]> w) = if status_running (c_status c) then Running else Stopped) as Hst
    by (intros v c; unfold pool_state; by rewrite lookup_insert_eq).
  split; [|split; [|split]].
  - case_bool_decide as Hs.
    + unfold startIndyPool, act_bind at 1. rewrite containerIsRunning_law. by rewrite Hs.
    + destruct (start_law w Hs) as (w' & c & -> & Hc & Hw). exists w'. split; [done|]. rewrite Hw, Hst, Hc. split; [done|].
      by rewrite delete_insert_eq, delete_delete_eq.
  - destruct (Hstop w) as (w' & -> & Hw). exists w'. split; [done|]. rewrite Hw. unfold pool_state. rewrite lookup_delete_eq.
    split; [done|]. by rewrite delete_delete_eq.
  - destruct (Hstop w) as (w1 & H1 & Hw1). unfold restartIndyPool, act_bind. rewrite H1.
    destruct (start_law w1) as (w' & c & -> & Hc & Hw); [unfold pool_state; by rewrite Hw1, lookup_delete_eq|].
    exists w'. split; [done|]. rewrite Hw, Hst, Hc. split; [done|]. by rewrite delete_insert_eq, Hw1, !delete_delete_eq.
  - unfold statusIndyPool, act_bind. rewrite containerIsRunning_law. cbn. by destruct (pool_state (containers w)).
Qed.
End Facts.

(** Without the image the container that was there is gone when the program fails: it is
    removed before the image is looked for, and the failure is that [image] is not bound. *)
Theorem image_failure_after_removal {W Image} `{!Docker W Image} w w1 w2 c :
  containers_get "indy_pool" w = (Ok c, w) → status_running (c_status c) = false →
  container_remove (c_id c) w = (Ok tt, w1) → images_get "indy_pool" w1 = (Raise (PyException "APIError"), w2) →
  startIndyPool w = (Raise (PyException "UnboundLocalError"), w2).
Proof.
  intros Hg Hs Hr Hi. unfold startIndyPool, act_bind at 1, containerIsRunning, catch at 1, act_bind at 1.
  assert (getContainer "indy_pool" w = (Ok (Some c), w)) as Hc by (unfold getContainer, catch, act_bind; by rewrite Hg).
  rewrite Hc. cbn [ret]. rewrite Hs. unfold act_bind at 1. rewrite Hc. unfold act_bind at 1. rewrite Hr. unfold act_bind at 1.
  unfold pool_image, catch at 1, act_bind at 1, getImage, act_bind at 1, getImageByTag, catch, act_bind. by rewrite Hi.
Qed.

(** ** A daemon *)

(** The status of each container by its name, which is its id; the image is there after it
    was built. *)
Record Daemon := mkDaemon {
  d_status : gmap string string;
  d_built : bool
}.

Definition d_containers (w : Daemon) : gmap string Container := map_imap (λ n st, Some (mkContainer n st)) (d_status w).

Lemma d_lookup w n : d_containers w !! n = mkContainer n <$> d_status w !! n.
Proof. unfold d_containers. rewrite map_lookup_imap. by destruct (d_status w !! n). Qed.

#[export] Instance daemon : Docker Daemon unit := {
  images_get _ := λ w, (if d_built w then Ok tt else Raise ImageNotFound, w);
  images_build _ _ _ := λ w, (Ok tt, mkDaemon (d_status w) true);
  containers_run _ n := λ w, (Ok tt, mkDaemon (<[n := "running"]> (d_status w)) (d_built w));
  containers_get n := λ w, (match d_containers w !! n with Some c => Ok c | None => Raise NotFound end, w);
  container_remove n := λ w, (Ok tt, mkDaemon (delete n (d_status w)) (d_built w))
}.

#[export] Instance daemon_laws : DockerLaws Daemon unit d_containers.
Proof.
  constructor.
  - done.
  - intros n c w H. rewrite d_lookup in H. destruct (d_status w !! n) as [st|] eqn:E; [|done]. injection H as <-.
    eexists. split; [done|]. apply map_eq. intros m. rewrite d_lookup. cbn [c_id d_status].
    destruct (decide (m = n)) as [->|Hm]; [by rewrite !lookup_delete_eq|]. by rewrite !lookup_delete_ne, d_lookup by done.
  - intros w. eexists _, _. split; [reflexivity|]. split; [done|]. destruct (d_built w); [by right|by left].
  - intros p d t w. eexists _, _. split; [reflexivity|]. done.
  - intros i n w _. eexists _, (mkContainer n "running"). split; [done|]. split; [|done]. apply map_eq. intros m. rewrite d_lookup.
    cbn [d_status]. destruct (decide (m = n)) as [->|Hm]; [by rewrite !lookup_insert_eq|]. by rewrite !lookup_insert_ne, d_lookup by done.
Qed.

(** A pool that was stopped is started again. *)
Example start_of_stopped_pool :
  let w := mkDaemon {["indy_pool" := "exited"]} false in
  (statusIndyPool w).1 = Ok "not running" ∧ (statusIndyPool (startIndyPool w).2).1 = Ok "running".
Proof. by vm_compute. Qed.
