(* ===== verification/NamespaceConfig.v ===== *)
(** * The configuration of a namespace

    [pool_automation/scripts/namespace-config.py]: from the roles of the ansible project,
    whose default variables are the possible ones, and a scheme of inventories, the program
    makes its arguments, and from what the user gives it writes the inventories of a
    namespace: for each host and group a file with the variables the user has set and the
    defaults as comments.

    YAML and JSON are parameters; numbers are integers.  A name is one name of a path.
    The order of a dictionary is that of its list: the source's is not defined (it is
    Python 2), and no theorem depends on it.  Abbreviated options and logging are left
    out. *)
From Stdlib Require Import Ascii.
From S2P Require Import Prelude PyValue Plenum Constants StateDomain IdrCache HandlerBase Upgrader PoolUpgrade MessageSchemas World Versions Packages Migrations ControlTool EnvFiles FileTree Directories.

(** ** The default scheme *)

(** [DEFAULT_INV_SCHEME], as the value it is the text of. *)
Definition DEFAULT_INV_SCHEME : val :=
  VDict [("localhosts.yml", VDict [("all", VDict [("children", VDict [("localhosts", VDict [
            ("vars", VDict [("ansible_connection", VStr "local");
                            ("ansible_python_interpreter", VStr "{{ ansible_playbook_python }}")]);
            ("hosts", VDict [("localhost", VNone); ("aws_clients_provisioner", VNone);
                             ("aws_nodes_provisioner", VNone)])])])])]);
         ("host_vars", VDict [("aws_nodes_provisioner", VList [VStr "aws_manage"]);
                              ("aws_clients_provisioner", VList [VStr "aws_manage"])]);
         ("group_vars", VDict [("all", VList [VStr "ansible_bootstrap"]);
                               ("localhosts", VList [VStr "aws_manage"]);
                               ("nodes", VList [VStr "indy_node"; VStr "plugins"]);
                               ("clients", VList [VStr "indy_cli"; VStr "perf_scripts"; VStr "plugins"])])].

(** ** Roles *)

Record Role := mkRole {
  r_name : string;
  r_defaults : val
}.

Record RoleRef := mkRoleRef {
  rr_role : Role;
  rr_vars : dict val
}.

(** [RoleRef.set_vars] *)
Definition set_vars (ref : RoleRef) (role_vars : dict val) : res RoleRef :=
  let defaults := r_defaults (rr_role ref) in
  if py_truth defaults
  then let! chosen := res_fold (λ acc kv, let! b := py_contains kv.1 defaults in
                                          Ok (if b then dset kv.1 kv.2 acc else acc)) [] role_vars in
       Ok (mkRoleRef (rr_role ref) (dupdate (rr_vars ref) chosen))
  else Ok ref.

(** [v.iteritems()], [v.keys()] *)
Definition items (v : val) : res (dict val) := match v with VDict d => Ok d | _ => Raise AttributeError end.

(** [for x in v] *)
Definition elements (v : val) : res (list val) :=
  match v with
  | VList l => Ok l
  | VDict d => Ok (map VStr (dkeys d))
  | VStr s => Ok (map (λ c, VStr (String c "")) (String.list_ascii_of_string s))
  | _ => Raise (TypeError "object is not iterable")
  end.

(** [roles[role_name]] *)
Definition role_of (roles : dict Role) (name : val) : res Role :=
  match name with
  | VStr n => dgetitem n roles
  | VList _ | VDict _ => Raise (TypeError "unhashable type")
  | v => Raise (KeyError (py_str v))
  end.

(** ** Arguments *)

Inductive ArgKind := Text | Flag | Items | Json | Int.

Record Argument := mkArgument {
  a_option : string;
  a_kind : ArgKind;
  a_default : val
}.

Definition _arg_name (var_name : string) (arg_prefix : option string) : string :=
  match arg_prefix with
  | Some p => if str_truth p then p +:+ "." +:+ var_name else var_name
  | None => var_name
  end.

(** The name under which argparse keeps the value of an option. *)
Definition dest (option : string) : string := replace_char "-" "_" option.

(** [parser.add_argument]: an option can be added once. *)
Definition add_argument (parser : list Argument) (a : Argument) : res (list Argument) :=
  if existsb (λ b, str_eqb (a_option b) (a_option a)) parser then Raise (PyException "ArgumentError") else Ok (parser ++ [a]).

(** The options that do not depend on the roles; [--help] is argparse's own. *)
Definition fixed_arguments : list Argument :=
  [mkArgument "help" Flag (VBool false);
   mkArgument "namespace-name" Text VNone;
   mkArgument "inventory-name" Text (VStr "inventory");
   mkArgument "logconfig" Text VNone;
   mkArgument "show-defaults" Flag (VBool false)].

Definition kind_of (d : val) : ArgKind :=
  match d with VList _ => Items | VDict _ => Json | VInt _ => Int | _ => Text end.

Definition add_role_group (parser : list Argument) (role : Role) (arg_prefix : option string) : res (list Argument) :=
  match r_defaults role with
  | VNone => Ok parser
  | defaults =>
      let! ds := items defaults in
      res_fold (λ p kv, add_argument p (mkArgument (_arg_name kv.1 arg_prefix) (kind_of kv.2) VNone)) parser ds
  end.

Definition is_vars (inv : string) : bool := str_eqb inv "host_vars" || str_eqb inv "group_vars".

(** The arguments: with a scheme those of the roles of each host and group, without one
    those of each role. *)
Definition make_parser (roles : dict Role) (inv_scheme : option val) : res (list Argument) :=
  match inv_scheme with
  | Some scheme =>
      let! invs := items scheme in
      res_fold (λ p inv,
        if is_vars inv.1
        then let! spec := items inv.2 in
             res_fold (λ p obj,
               let! names := elements obj.2 in
               res_fold (λ p n, let! role := role_of roles n in add_role_group p role (Some obj.1)) p names) p spec
        else Ok p) fixed_arguments invs
  | None => res_fold (λ p kv, add_role_group p kv.2 None) fixed_arguments roles
  end.

Section Namespace.
Context (safe_load : string → res val) (safe_dump : val → string) (json_loads : string → res val).

(** The value of an option from its words; argparse ends the program for wrong ones. *)
Definition convert (kind : ArgKind) (words : list string) : res val :=
  let wrong := Raise (SystemExit 2) in
  match kind, words with
  | Text, [w] => Ok (VStr w)
  | Flag, [] => Ok (VBool true)
  | Items, _ :: _ => Ok (VList (map VStr words))
  | Json, [w] => match json_loads w with Ok v => Ok v | Raise _ => wrong end
  | Int, [w] => match py_int w with Ok n => Ok (VInt n) | Raise _ => wrong end
  | _, _ => wrong
  end.

Definition default_args (parser : list Argument) : dict val :=
  foldl (λ args a, if str_eqb (a_option a) "help" || dhas (dest (a_option a)) args then args
                   else dset (dest (a_option a)) (a_default a) args) [] parser.

(** [vars(parser.parse_args())], the options with their words in the order given. *)
Definition parse_args (parser : list Argument) (given : list (string * list string)) : res (dict val) :=
  res_fold (λ args g,
    match List.find (λ a, str_eqb (a_option a) g.1) parser with
    | None => Raise (SystemExit 2)
    | Some a =>
        let! v := convert (a_kind a) g.2 in
        if str_eqb (a_option a) "help" then Raise (SystemExit 0) else Ok (dset (dest (a_option a)) v args)
    end) (default_args parser) given.

(** The variables of a role that the user has set. *)
Definition get_user_vars (args : dict val) (role : Role) (arg_prefix : option string) : res (dict val) :=
  let! ds := items (r_defaults role) in
  Ok (foldl (λ acc v_name,
        let v := vget (_arg_name v_name arg_prefix) args in
        if py_truth v then dset v_name v acc else acc) [] (dkeys ds)).

(** [RoleRef(role)] with the variables of the user *)
Definition user_role (args : dict val) (role : Role) (arg_prefix : option string) : res RoleRef :=
  let! role_vars := get_user_vars args role arg_prefix in
  set_vars (mkRoleRef role []) role_vars.

(** ** Inventories *)

Inductive Inventory :=
| Inv (inv_dir : path) (name : string) (content : val)
| InvVars (inv_dir : path) (vars_name name : string) (roles_refs : list RoleRef).

(** [re.search(r'\.(yml|yaml)$', name)]; [$] also matches before a line break at the end. *)
Definition yaml_name (name : string) : bool :=
  existsb (λ suffix, ends_with suffix name) [".yml"; ".yaml"; ".yml" +:+ nl; ".yaml" +:+ nl].

Definition inv_file (name : string) : string := if yaml_name name then name else name +:+ ".yml".

Definition inv_path (i : Inventory) : path :=
  match i with
  | Inv inv_dir name _ => inv_dir ++ [inv_file name]
  | InvVars inv_dir vars_name name _ => inv_dir ++ [vars_name; inv_file name]
  end.

(** Each line behind a number sign. *)
Definition commented (text : string) : string := py_join "" (map (λ l, "#" +:+ l) (readlines text)).

Definition role_text (ref : RoleRef) : string :=
  let defaults := r_defaults (rr_role ref) in
  nl +:+ "# ==================== " +:+ r_name (rr_role ref) +:+ " ====================" +:+ nl +:+
  (match rr_vars ref with [] => "" | vars => safe_dump (VDict vars) end) +:+
  (if py_truth defaults then nl +:+ "# defaults" +:+ nl +:+ nl +:+ commented (safe_dump defaults) else "").

Definition inv_text (i : Inventory) : string :=
  "---" +:+ nl +:+
  (match i with
   | Inv _ _ content => safe_dump content
   | InvVars _ _ _ refs => py_join "" (map role_text refs)
   end) +:+ "..." +:+ nl.

Definition dump (i : Inventory) : M unit := FileTree.write_file (inv_path i) (inv_text i).

Definition namespace_spec (namespace_name : val) : val :=
  VDict [("all", VDict [("vars", VDict [("namespace_dir", VStr "{{ inventory_dir }}/.."); ("namespace_name", namespace_name);
                                        ("namespace_dir_relative", VStr "..")])])].

Definition localhost_spec : val :=
  VDict [("all", VDict [("hosts", VDict [("localhost", VDict [
    ("ansible_connection", VStr "local"); ("ansible_python_interpreter", VStr "{{ ansible_playbook_python }}")])])])].

(** One entry of the scheme. *)
Definition scheme_inventories (roles : dict Role) (args : dict val) (inv_dir : path) (inv : string * val) : res (list Inventory) :=
  if is_vars inv.1
  then let! spec := items inv.2 in
       res_mapM (λ obj,
         let! names := elements obj.2 in
         let! refs := res_mapM (λ n, let! role := role_of roles n in user_role args role (Some obj.1)) names in
         Ok (InvVars inv_dir inv.1 obj.1 refs)) spec
  else Ok [Inv inv_dir inv.1 inv.2].

Definition inventories (roles : dict Role) (inv_scheme : option val) (args : dict val) (inv_dir : path)
    (namespace_name : val) : res (list Inventory) :=
  let first := Inv inv_dir "namespace.yml" (namespace_spec namespace_name) in
  match inv_scheme with
  | Some scheme =>
      let! invs := items scheme in
      let! rest := res_mapM (scheme_inventories roles args inv_dir) invs in
      Ok (first :: concat rest)
  | None =>
      let! refs := res_mapM (λ kv, user_role args kv.2 None) roles in
      Ok [first; Inv inv_dir "localhost.yml" localhost_spec; InvVars inv_dir "group_vars" "all" refs]
  end.

(** ** The program *)

Definition is_os_error (e : exn) : bool := match e with OSError _ => true | _ => false end.

Definition new_Role (p : path) : M Role :=
  let? defaults := catch (let? t := FileTree.read_file (p ++ ["defaults"; "main.yml"]) in lift (safe_load t))
                         (λ e, if is_os_error e then ret (VDict []) else raise e) in
  ret (mkRole (basename p) defaults).

(** [glob.iglob("{}/roles/*")]: names that begin with a dot are left out. *)
Definition role_paths (proj_dir : path) : M (list path) :=
  λ s, (Ok (map (λ n, proj_dir ++ ["roles"; n])
                (List.filter (λ n, negb (String.prefix "." n)) (names_in (proj_dir ++ ["roles"]) s))), s).

Definition _load_roles (proj_dir : path) : M (dict Role) :=
  let? paths := role_paths proj_dir in
  let? roles := act_mapM new_Role paths in
  match roles with
  | [] => raise (PyException "RuntimeError")
  | _ => ret (foldl (λ d r, dset (r_name r) r d) [] roles)
  end.

Definition _load_inv_scheme (inv_scheme_path : option path) : M val :=
  match inv_scheme_path with
  | Some p => let? t := FileTree.read_file p in lift (safe_load t)
  | None => ret DEFAULT_INV_SCHEME
  end.

(** [os.path.join(args['namespace-dir'], args['inventory_name'])] *)
Definition inventory_dir (namespace_dir : path) (args : dict val) : res path :=
  match vget "inventory_name" args with VStr n => Ok (namespace_dir ++ [n]) | _ => Raise AttributeError end.

(** [main]: the project, the mode and the file of the scheme are from the environment. *)
Definition main (proj_dir : path) (plays : bool) (inv_scheme_path : option path) (namespace_dir : path)
    (given : list (string * list string)) : M unit :=
  let? roles := _load_roles proj_dir in
  let? inv_scheme := if plays then let? v := _load_inv_scheme inv_scheme_path in ret (Some v) else ret None in
  let? args := lift (let! parser := make_parser roles inv_scheme in parse_args parser given) in
  if py_truth (vget "show_defaults" args) then raise (SystemExit 0) else
  let? inv_dir := lift (inventory_dir namespace_dir args) in
  let namespace_name := if py_truth (vget "namespace_name" args) then vget "namespace_name" args
                        else VStr (basename namespace_dir) in
  let? _ := each (λ d, when (FileTree.isdir (inv_dir ++ [d])) (ret tt) (makedirs (inv_dir ++ [d]) false)) ["host_vars"; "group_vars"] in
  let? invs := lift (inventories roles inv_scheme args inv_dir namespace_name) in
  each dump invs.
End Namespace.

(** ** A sample project *)

Definition sample_load (t : string) : res val :=
  if str_eqb t "node" then Ok (VDict [("port", VInt 9701); ("name", VStr "indy")]) else Ok VNone.
Definition sample_json (t : string) : res val := Raise (ValueError "no JSON").

(** A role with two variables and, if [t] is a text, a second one with [t] as its defaults. *)
Definition project (t : option string) : FS :=
  list_to_map ([(["p"], EDir); (["p"; "roles"], EDir); (["p"; "roles"; "node"], EDir);
    (["p"; "roles"; "node"; "defaults"], EDir); (["p"; "roles"; "node"; "defaults"; "main.yml"], EFile "node");
    (["p"; "scheme"], EFile "scheme"); (["n"], EDir)] ++
   match t with
   | Some t => [(["p"; "roles"; "more"], EDir); (["p"; "roles"; "more"; "defaults"], EDir);
                (["p"; "roles"; "more"; "defaults"; "main.yml"], EFile t)]
   | None => []
   end).

(** A scheme with one host. *)
Definition host_load (host : string) (t : string) : res val :=
  if str_eqb t "scheme" then Ok (VDict [("host_vars", VDict [(host, VList [VStr "node"])])]) else sample_load t.

Definition written (host : string) (given : list (string * list string)) : option Entry :=
  (main (host_load host) py_repr sample_json ["p"] true (Some ["p"; "scheme"]) ["n"] given (project None)).2
    !! ["n"; "inventory"; "host_vars"; host +:+ ".yml"].

(** ** Lemmas: the variables of the user *)

Section Facts.
Context (safe_load : string → res val) (safe_dump : val → string) (json_loads : string → res val).

(** What the user has set for a variable. *)
Definition user_value (args : dict val) (arg_prefix : option string) (k : string) : option val :=
  let v := vget (_arg_name k arg_prefix) args in if py_truth v then Some v else None.

Lemma user_vars_fold args p keys acc :
  let r := foldl (λ acc k, let v := vget (_arg_name k p) args in if py_truth v then dset k v acc else acc) acc keys in
  (∀ k, dget k r = if bool_decide (k ∈ keys) then match user_value args p k with Some v => Some v | None => dget k acc end else dget k acc) ∧
  (NoDup (dkeys acc) → NoDup (dkeys r)).
Proof.
  revert acc. induction keys as [|x keys IH]; intros acc; [done|]. cbn [foldl].
  destruct (IH (if py_truth (vget (_arg_name x p) args) then dset x (vget (_arg_name x p) args) acc else acc)) as [IH1 IH2].
  split.
  - intros k. rewrite IH1. clear IH1 IH2. destruct (decide (k = x)) as [->|Hk].
    + rewrite (bool_decide_eq_true_2 (x ∈ x :: keys)) by apply list_elem_of_here. unfold user_value.
      destruct (py_truth (vget (_arg_name x p) args)); [rewrite dget_dset_eq|]; by case_bool_decide.
    + rewrite (bool_decide_ext (k ∈ x :: keys) (k ∈ keys)) by (split; [by intros [->|?]%elem_of_cons|by apply list_elem_of_further]).
      destruct (py_truth (vget (_arg_name x p) args)); [by rewrite dget_dset_ne by congruence|done].
  - intros H. apply IH2. destruct (py_truth _); [by apply dset_NoDup|done].
Qed.

Lemma set_vars_fold ds (acc role_vars : dict val) :
  Forall (λ kv, dhas kv.1 ds = true) role_vars →
  res_fold (λ acc kv, let! b := py_contains kv.1 (VDict ds) in Ok (if b then dset kv.1 kv.2 acc else acc)) acc role_vars
  = Ok (dupdate acc role_vars).
Proof.
  intros H. revert acc. induction H as [|[k v] l Hk _ IH]; intros acc; [done|]. cbn in Hk |- *. rewrite Hk. apply IH.
Qed.

(** A role of an inventory has, of the variables in its defaults, those that the user gave a
    value that counts as true, and no others. *)
Lemma user_role_spec args role ds p :
  r_defaults role = VDict ds →
  ∃ vars, user_role args role p = Ok (mkRoleRef role vars) ∧
    ∀ k, dget k vars = if dhas k ds then user_value args p k else None.
Proof.
  intros Hd. unfold user_role, get_user_vars. rewrite Hd. cbn [items res_bind].
  destruct (user_vars_fold args p (dkeys ds) []) as [Hget Hnd]. specialize (Hnd NoDup_nil_2).
  set (u := foldl _ _ _) in *.
  assert (∀ k, bool_decide (k ∈ dkeys ds) = dhas k ds) as Hin.
  { intros k. unfold dhas. destruct (dget k ds) as [v|] eqn:E.
    - apply bool_decide_eq_true_2. apply dget_Some_elem in E. apply list_elem_of_fmap. by exists (k, v).
    - apply bool_decide_eq_false_2. by apply dget_None_elem. }
  assert (∀ k, dget k u = if dhas k ds then user_value args p k else None) as Hu.
  { intros k. rewrite Hget, Hin. destruct (dhas k ds); [by destruct (user_value args p k)|done]. }
  unfold set_vars. cbn [rr_role rr_vars]. rewrite Hd. destruct (py_truth (VDict ds)) eqn:Ht.
  - rewrite set_vars_fold; cbn [res_bind].
    + eexists. split; [done|]. intros k. rewrite dget_dupdate, <-Hu.
      * rewrite dget_dupdate by done. by destruct (dget k u).
      * apply dupdate_NoDup. constructor.
    + apply Forall_forall. intros [k v] Hkv. apply dget_elem_NoDup in Hkv; [|done]. rewrite Hu in Hkv. cbn. by destruct (dhas k ds).
  - exists []. split; [done|]. intros k. by destruct ds.
Qed.

(** ** Lemmas: inventories *)

(** Reading the project changes nothing. *)
Lemma new_Role_reads p s : (new_Role safe_load p s).2 = s.
Proof.
  unfold new_Role, catch, act_bind, FileTree.read_file.
  destruct (entry _ s) as [[t|]|]; cbn; [|by destruct (is_os_error (no_file _ s))..].
  unfold lift. destruct (safe_load t) as [v|e]; cbn; [done|]. by destruct (is_os_error e).
Qed.

Lemma load_roles_reads proj s : (_load_roles safe_load proj s).2 = s.
Proof.
  unfold _load_roles, act_bind at 1, role_paths. cbn [fst snd].
  set (l := map _ _). clearbody l. assert ((act_mapM (new_Role safe_load) l s).2 = s) as H.
  { induction l as [|x l IH]; [done|]. cbn [act_mapM]. unfold act_bind at 1. pose proof (new_Role_reads x s) as Hx.
    destruct (new_Role safe_load x s) as [[r|e] s1]; cbn in Hx; subst s1; [|done]. unfold act_bind.
    destruct (act_mapM (new_Role safe_load) l s) as [[rs|e] s1]; exact IH. }
  unfold act_bind. destruct (act_mapM _ l s) as [[rs|e] s1]; cbn in H; subst s1; [|done]. by destruct rs.
Qed.

Definition scheme_of (plays : bool) (p : option path) : M (option val) :=
  if plays then let? v := _load_inv_scheme safe_load p in ret (Some v) else ret None.

Lemma scheme_reads plays p s : (scheme_of plays p s).2 = s.
Proof.
  destruct plays; [|done]. unfold scheme_of, act_bind, _load_inv_scheme, act_bind, FileTree.read_file, lift, ret.
  destruct p as [p|]; [|done]. destruct (entry p s) as [[t|]|]; cbn; [|done..]. by destruct (safe_load t).
Qed.

(** Every inventory is in the directory of the inventory or in one of the two in it. *)
Definition placed (inv_dir : path) (i : Inventory) : Prop :=
  match i with Inv d _ _ => d = inv_dir | InvVars d v _ _ => d = inv_dir ∧ is_vars v = true end.

Lemma inventories_placed roles scheme args d n invs :
  inventories roles scheme args d n = Ok invs → Forall (placed d) invs.
Proof.
  unfold inventories. destruct scheme as [scheme|]; intros H.
  - bind H as l Hl. bind H as rest Hr. injection H as <-. constructor; [done|]. apply res_mapM_Forall2 in Hr. clear Hl.
    induction Hr as [|[k v] ys l rest Hi _ IH]; [constructor|]. cbn [concat]. apply Forall_app. split; [|done]. clear IH.
    unfold scheme_inventories in Hi. cbn [fst snd] in Hi. destruct (is_vars k) eqn:Ek; [|injection Hi as <-; by repeat constructor].
    bind Hi as spec Hs. apply res_mapM_Forall2 in Hi. clear Hs. induction Hi as [|o i spec ys Hi _ IH]; constructor; [|done].
    bind Hi as names Hn. bind Hi as refs Href. by injection Hi as <-.
  - bind H as refs Hr. injection H as <-. by repeat constructor.
Qed.

Lemma inv_file_no_dir name d : is_vars d = true → inv_file name ≠ d.
Proof.
  intros Hd H. assert (d = "host_vars" ∨ d = "group_vars") as Hv.
  { unfold is_vars in Hd. apply orb_true_iff in Hd as [E|E]; apply str_eqb_eq in E; auto. }
  unfold inv_file in H. destruct (yaml_name name) eqn:E; [subst name; by destruct Hv as [->| ->]|].
  clear E Hd. destruct Hv as [->| ->]; do 11 (destruct name as [|? name]; [done|cbn in H; try done; injection H as _ H]).
Qed.

(** Directories that were not there are the only change. *)
Definition grown (D : list path) (s s' : FS) : Prop :=
  ∀ q, s' !! q = s !! q ∨ q ∈ D ∧ s !! q = None ∧ s' !! q = Some EDir.

Definition dirs_to (p : path) : list path := p :: ancestors p.

Lemma vars_dir inv_dir d s :
  inv_dir ≠ [] → (s !! (inv_dir ++ [d]) = Some EDir → s !! inv_dir = Some EDir) →
  (∀ q, q ∈ dirs_to (inv_dir ++ [d]) → s !! q = None ∨ s !! q = Some EDir) →
  ∃ s', when (FileTree.isdir (inv_dir ++ [d])) (ret tt) (makedirs (inv_dir ++ [d]) false) s = (Ok tt, s') ∧
    s' !! (inv_dir ++ [d]) = Some EDir ∧ s' !! inv_dir = Some EDir ∧ grown (dirs_to (inv_dir ++ [d])) s s'.
Proof.
  intros Hne Hin Hno. assert (inv_dir ++ [d] ≠ []) as Hne' by (by intros []%app_nil). unfold when.
  destruct (FileTree.isdir (inv_dir ++ [d]) s) eqn:E.
  - apply isdir_lookup in E; [|done]. exists s. repeat split; auto. intros q. by left.
  - assert (s !! (inv_dir ++ [d]) = None) as Hnone.
    { destruct (Hno (inv_dir ++ [d])) as [H|H]; [left|done|]. by apply isdir_lookup in H; [rewrite H in E|]. }
    destruct (makedirs_runs (inv_dir ++ [d]) s) as (s' & H1 & H2 & H3 & H4); [done|done|intros q Hq; apply Hno; by right|].
    exists s'. split; [done|]. split; [done|]. split.
    + apply H3, list_elem_of_fmap. exists (length inv_dir). rewrite take_app_length. split; [done|].
      apply list_elem_of_In, in_seq. rewrite length_app. cbn. destruct inv_dir; [done|cbn; lia].
    + intros q. destruct (decide (q ∈ dirs_to (inv_dir ++ [d]))) as [Hq|Hq].
      * assert (s' !! q = Some EDir) as Hq' by (apply elem_of_cons in Hq as [->|Hq]; [done|by apply H3]).
        destruct (Hno q Hq) as [H|H]; [by right|left; congruence].
      * left. apply H4; intros H; apply Hq; [subst; left|by right].
Qed.

(** The two directories in that of the inventory, with those above them. *)
Definition made_dirs (inv_dir : path) : list path := dirs_to (inv_dir ++ ["host_vars"]) ++ dirs_to (inv_dir ++ ["group_vars"]).

(** The file of an inventory is in a directory that is made, and is none itself. *)
Lemma placed_file inv_dir i :
  inv_dir ≠ [] → placed inv_dir i →
  (parent (inv_path i) = inv_dir ∨ ∃ v, parent (inv_path i) = inv_dir ++ [v] ∧ is_vars v = true) ∧ inv_path i ≠ [] ∧
  ¬ inv_path i ∈ made_dirs inv_dir.
Proof.
  intros Hne Hp. assert (∀ d q, q ∈ dirs_to (inv_dir ++ [d]) → q = inv_dir ++ [d] ∨ length q ≤ length inv_dir) as Hdirs.
  { intros d q [->|Hq]%elem_of_cons; [by left|right]. apply list_elem_of_fmap in Hq as (k & -> & Hk%list_elem_of_In%in_seq).
    rewrite length_take. rewrite length_app in Hk |- *. cbn in *. lia. }
  assert (∀ q, q ∈ made_dirs inv_dir → (∃ d, is_vars d = true ∧ q = inv_dir ++ [d]) ∨ length q ≤ length inv_dir) as Hmade.
  { intros q [Hq|Hq]%elem_of_app; (apply Hdirs in Hq as [->|Hq]; [left; eexists; split; [|reflexivity]; done|by right]). }
  destruct i as [d n c|d v n refs]; cbn in Hp |- *.
  - subst d. unfold parent. rewrite removelast_last. split; [by left|]. split; [by intros []%app_nil|].
    intros [(d & Hd & H)|H]%Hmade; [|rewrite length_app in H; cbn in H; lia].
    apply app_inv_head in H. injection H as H. by apply (inv_file_no_dir n d).
  - destruct Hp as [-> Hv]. unfold parent. replace (inv_dir ++ [v; inv_file n]) with ((inv_dir ++ [v]) ++ [inv_file n]) by by rewrite <-app_assoc.
    rewrite removelast_last. split; [right; by exists v|]. split; [by intros []%app_nil|].
    intros [(d & Hd & H)|H]%Hmade; apply (f_equal length) in H || idtac; rewrite !length_app in H; cbn in H; lia.
Qed.

Lemma dumps_run invs s :
  (∀ i, i ∈ invs → FileTree.isdir (parent (inv_path i)) s = true ∧ inv_path i ≠ [] ∧ s !! inv_path i ≠ Some EDir) →
  NoDup (map inv_path invs) →
  ∃ s', each (dump safe_dump) invs s = (Ok tt, s') ∧ (∀ i, i ∈ invs → s' !! inv_path i = Some (EFile (inv_text safe_dump i))) ∧
    ∀ q, q ∉ map inv_path invs → s' !! q = s !! q.
Proof.
  revert s. induction invs as [|i invs IH]; intros s Hs Hnd.
  { exists s. split; [done|]. split; [by intros i Hi%elem_of_nil|done]. }
  cbn [map] in Hnd. apply NoDup_cons in Hnd as [Hi Hnd]. destruct (Hs i (list_elem_of_here _ _)) as (Hd & Hne & Hnodir).
  assert (dump safe_dump i s = (Ok tt, <[inv_path i := EFile (inv_text safe_dump i)]> s)) as Hw.
  { unfold dump, FileTree.write_file. rewrite entry_lookup by done. destruct (s !! inv_path i) as [[]|]; [done..|]. by rewrite Hd. }
  cbn [each]. unfold act_bind at 1. rewrite Hw.
  destruct (IH (<[inv_path i := EFile (inv_text safe_dump i)]> s)) as (s' & H1 & H2 & H3); [|done|].
  - intros j Hj. destruct (Hs j (list_elem_of_further _ _ _ Hj)) as (Hdj & Hnej & Hnodirj). split; [|split; [done|]].
    + destruct (parent (inv_path j)) as [|x p] eqn:Ep; [done|]. rewrite isdir_lookup in Hdj |- * by done.
      rewrite lookup_insert_ne; [done|]. intros H. congruence.
    + rewrite lookup_insert_ne; [done|]. intros H. apply Hi. rewrite H. apply list_elem_of_fmap. by exists j.
  - exists s'. split; [exact H1|]. split.
    + intros j [->|Hj]%elem_of_cons; [|by apply H2]. rewrite H3 by done. apply lookup_insert_eq.
    + intros q Hq. cbn [map] in Hq. apply not_elem_of_cons in Hq as [Hq Hq']. rewrite H3 by done. by apply lookup_insert_ne.
Qed.

(** ** Properties *)

(** [namespace_name] of the namespace: the one given, else that of its directory. *)
Definition name_of (namespace_dir : path) (args : dict val) : val :=
  if py_truth (vget "namespace_name" args) then vget "namespace_name" args else VStr (basename namespace_dir).

(** Where the program comes to its inventories, and no file is where a directory is to be
    and no directory where a file is to be, it ends well: the file of each inventory has
    its text, and nothing else is changed but the directories that were missing. *)
Theorem namespace_written proj plays scheme_path ns given s roles scheme parser args inv_dir invs :
  (_load_roles safe_load proj s).1 = Ok roles → (scheme_of plays scheme_path s).1 = Ok scheme →
  make_parser roles scheme = Ok parser → parse_args json_loads parser given = Ok args →
  py_truth (vget "show_defaults" args) = false → inventory_dir ns args = Ok inv_dir →
  inventories roles scheme args inv_dir (name_of ns args) = Ok invs → NoDup (map inv_path invs) → wf_tree s →
  (∀ q, q ∈ made_dirs inv_dir → s !! q = None ∨ s !! q = Some EDir) →
  (∀ i, i ∈ invs → s !! inv_path i ≠ Some EDir) →
  ∃ s', main safe_load safe_dump json_loads proj plays scheme_path ns given s = (Ok tt, s') ∧
    (∀ i, i ∈ invs → s' !! inv_path i = Some (EFile (inv_text safe_dump i))) ∧
    (∀ q, q ∉ map inv_path invs → s' !! q = s !! q ∨ q ∈ made_dirs inv_dir ∧ s !! q = None ∧ s' !! q = Some EDir).
Proof.
  intros Hroles Hscheme Hparser Hargs Hshow Hdir Hinvs Hnd Hwf Hno Hfree.
  assert (inv_dir ≠ []) as Hne.
  { unfold inventory_dir in Hdir. destruct (vget "inventory_name" args); try done. injection Hdir as <-. by intros []%app_nil. }
  destruct (vars_dir inv_dir "host_vars" s) as (s1 & Hm1 & Hh1 & Hi1 & Hg1); [done| | |].
  { intros H. rewrite <-entry_lookup by done. apply (Hwf inv_dir "host_vars"). by eexists. }
  { intros q Hq. apply Hno. by apply elem_of_app; left. }
  destruct (vars_dir inv_dir "group_vars" s1) as (s2 & Hm2 & Hh2 & Hi2 & Hg2); [done|done| |].
  { intros q Hq. destruct (Hg1 q) as [->|(_ & _ & ->)]; [|by right]. apply Hno. by apply elem_of_app; right. }
  assert (s2 !! (inv_dir ++ ["host_vars"]) = Some EDir) as Hh3 by (destruct (Hg2 (inv_dir ++ ["host_vars"])) as [->|(_ & _ & ->)]; done).
  assert (grown (made_dirs inv_dir) s s2) as Hg.
  { intros q. unfold made_dirs. rewrite elem_of_app. destruct (Hg2 q) as [E2|(D2 & N2 & E2)]; destruct (Hg1 q) as [E1|(D1 & N1 & E1)].
    - left. congruence.
    - right. rewrite E2. auto.
    - right. rewrite <-E1. auto.
    - congruence. }
  pose proof (inventories_placed _ _ _ _ _ _ Hinvs) as Hpl. rewrite Forall_forall in Hpl.
  destruct (dumps_run invs s2) as (s' & Hr & Hf & Hrest); [|done|].
  - intros i Hi. specialize (Hpl i Hi). specialize (Hfree i Hi). destruct (placed_file inv_dir i Hne Hpl) as (Hp & Hn & Hd).
    split; [|split; [done|]].
    + destruct Hp as [->|(v & -> & Hv)]; [by apply isdir_lookup|]. apply isdir_lookup; [by intros []%app_nil|].
      unfold is_vars in Hv. apply orb_true_iff in Hv as [E|E]; apply str_eqb_eq in E as ->; done.
    + destruct (Hg (inv_path i)) as [->|(D & _)]; [done|]. by destruct (Hd D).
  - exists s'. split; [|split; [done|]].
    + unfold main, act_bind at 1. rewrite (surjective_pairing (_load_roles safe_load proj s)), Hroles, load_roles_reads.
      unfold act_bind at 1. change (if plays then _ else _) with (scheme_of plays scheme_path).
      rewrite (surjective_pairing (scheme_of plays scheme_path s)), Hscheme, scheme_reads.
      unfold act_bind at 1, lift at 1. rewrite Hparser. cbn [res_bind]. rewrite Hargs, Hshow.
      unfold act_bind at 1, lift at 1. rewrite Hdir. fold (name_of ns args).
      unfold act_bind at 1. cbn [each]. unfold act_bind at 1. rewrite Hm1. unfold act_bind at 1. rewrite Hm2.
      cbn [ret]. unfold act_bind, lift. by rewrite Hinvs.
    + intros q Hq. rewrite Hrest by done. apply Hg.
Qed.
End Facts.

(** ** What is lost *)

(** A value is written, but not a zero, an empty list or an empty text: it counts as not
    given. *)
Example zero_counts_as_not_given :
  (∃ t, written "h1" [("h1.port", ["9702"])] = Some (EFile t) ∧ py_in_str "9702" t = true) ∧
  written "h1" [("h1.port", ["0"])] = written "h1" [].
Proof. split; [eexists; by vm_compute|by vm_compute]. Qed.

(** The variables of a host with a hyphen in its name cannot be set: argparse keeps the
    value under a name with an underscore. *)
Example hyphen_host_ignored : written "h-1" [("h-1.port", ["9702"])] = written "h-1" [].
Proof. by vm_compute. Qed.

(** A role whose file of defaults is empty ends the program, after the directories were
    made; a role without such a file does not. *)
Example empty_defaults_raise :
  let run t := main sample_load py_repr sample_json ["p"] false None ["n"] [] (project t) in
  (run (Some "")).1 = Raise AttributeError ∧ (run (Some "")).2 !! ["n"; "inventory"; "group_vars"] = Some EDir ∧
  (run None).1 = Ok tt.
Proof. by vm_compute. Qed.
